(* ===== verification/_CoqProject ===== *)
-Q . S2P
Prelude.v
Memory.v
LinkedList.v
Pmm.v
KHeap.v
KHeapInv.v
KHeapOps.v
KHeapSpec.v
KHeapClient.v
Paging.v
Timer.v
Ring.v
Pipe.v
Sem.v
Tty.v
Rtc.v
Message.v
Event.v
Signal.v
Bytes.v
Block.v
Dcache.v
DcacheInv.v
PathLookup.v
File.v
FileInv.v
FdTable.v
FdInv.v
FdSystem.v
VfsCalls.v
E2Alloc.v
E2Super.v
E2Inode.v
E2File.v
E2Volume.v
E2Flush.v
E2Write.v
E2Dir.v
E2DirSpec.v
E2DirOps.v
E2Readdir.v
E2Demo.v
E2DirDemo.v
Task.v
TaskInv.v
TaskSched.v
TaskSystem.v
TaskSteps.v
TaskProps.v
TaskDemo.v
Elf.v
ElfProps.v
ElfReloc.v
Exec.v
ExecProps.v
ExecStack.v
ExecDemo.v
Ata.v
AtaBus.v
AtaTransfer.v
AtaDriver.v
AtaInit.v
AtaDemo.v
Mount.v
MountProps.v
Printk.v
PrintkProps.v
PrintkConsole.v
Initfs.v
InitfsProps.v
Pci.v
PciProps.v
Interrupts.v
InterruptsProps.v
Vtty.v
VttyMonitor.v
VttyKeys.v
Ps2.v
Ps2Props.v
