(* ===== verification/Prelude.v ===== *)
(** StewieOS kernel: a verification development.

    StewieOS is a small x86 kernel ([src/kernel]).  This library models its
    core parts as executable definitions, close to the C text, and proves what
    each part promises to the others.  Machine integers are [Z] with their
    wrap-around written out ([u32], [u16], [u8], [s32] below); a function that
    returns a value or [-E...] returns a [result]; one that may fault, stop the
    machine or wait for ever returns an [outcome] ([Ret], [Halt], [OutOfFuel]).

    * Layers and files

    Memory management.
    - [Memory], [LinkedList]: byte memory with little-endian words
      ([misc.c]) and the intrusive lists of [linkedlist.h] laid out in it.
      [list_ops_refine]: the pointer operations implement list insertion and
      removal.
    - [Pmm]: the frame bitmap of [pmm.c].
    - [KHeap], [KHeapInv], [KHeapOps], [KHeapSpec], [KHeapClient]: the heap of
      [kheap.c] over byte memory.  [KHeap] has the operations, [KHeapInv] the
      layout of headers, footers and the list of holes, [KHeapOps] and
      [KHeapSpec] what each operation does to the layout, [KHeapClient] what a
      client sees: live blocks are disjoint and keep their contents, every
      operation returns, allocation takes the best fit, freeing coalesces.
      The steps are allocations without alignment ([kmalloc]); page-aligned
      ones ([kmalloc_a], [kmalloc_ap]) can overwrite memory
      ([heap_aligned_alloc_corrupts]).
      Page mapping is the class [PageMapper].
    - [Paging]: page directories and tables of [paging.c], over [Pmm].  An
      allocation of a table may grow the heap, which maps pages in the shared
      kernel tables ([map_heap]).

    Time and synchronisation.
    - [Timer] ([timer.c]), [Rtc] ([cmos.c]), [Sem] ([sem.c]; semaphores as a
      step relation over tasks, mutual exclusion by rule induction).

    Communication.
    - [Ring]: circular buffers, shared by [Pipe] ([pipe.c]) and [Tty]
      ([tty.c]); [Message] ([message.c]), [Event] ([event.c]), [Signal]
      ([signal.c]; what a handler may do between delivery and return is the
      relation [handler_step]).  Code that sleeps takes what other tasks do meanwhile as an
      explicit list of steps.

    Storage and files.
    - [Bytes], [Block]: byte ranges of lists, and the block layer of [block.c]
      over the class [BlockDriver]: reads and writes at any byte offset refine
      reads and writes of the device's byte array.
    - [Ata]: the driver of [ata.c] over port accesses ([IoPorts]).  [AtaBus] is
      what the ATA standard says of two channels with drives, [AtaTransfer]
      shows what commands do there, [AtaDriver] that a partition is a block
      device in the sense of [Block], down to the bytes of the drive, and
      [AtaInit] that the search finds the drives and their partitions.
      [AtaDemo] is a machine that meets [AtaBus].
    - [Dcache], [DcacheInv], [PathLookup]: inodes, directory entries, mounts
      and paths of [dentry.c] and [fs.c].  The invariant [counted]/[good] says
      that every reference count equals the number of references;
      [path_lookup_balanced] that path resolution returns for every name and
      keeps it.  It is about entries, inodes and mounts; superblocks are counted
      by the code too, but leak ([i_get_leaks_superblock]).
    - [File], [FileInv]: open files of [file.c] and the table of [chrdev.c];
      [kgood] adds the references open files hold.
    - [FdTable], [FdInv], [FdSystem]: the descriptor tables of [fs.c] and the
      calls on them; [FdSystem] runs several tasks that open, close, duplicate,
      read, write, seek, fork and exit in any order, and shows that no
      descriptor dangles and no file leaks as long as no driver's [close] fails.
    - [VfsCalls]: calls on path names; the name of the working directory is
      written inside its buffer, on success and on failure.
    - [Mount], [MountProps]: file-system types, [mount], [umount] and [link];
      what is mounted is seen by path resolution, what is unmounted is gone, and
      which references [link] keeps.

    The ext2 driver ([ext2fs/]), on the bytes of the device.
    - [E2Alloc]: the block allocator of [block.c]: bitmaps and counts agree
      ([e2_ok]), allocation takes the lowest free block and nothing else,
      freeing undoes it; blocks are numbered from 0, as the code does.
    - [E2Super]: reading and writing the superblock and the group table
      ([super.c]); what a flush writes is what mounting reads.
    - [E2Inode]: inodes, block maps with all their levels, resizing and
      transfers of [inode.c].  [E2File] (blocks as one array of bytes),
      [E2Volume] (which bytes belong to whom, [vol_ok]), [E2Flush] (an inode
      written is an inode read back) and [E2Write] lead to
      [e2_read_content] and [e2_write_durable]: reads return the bytes of the
      file, and a write changes exactly its range, is on the disk when it
      returns and keeps the volume consistent.
    - [E2Dir]: directories and inode allocation of [inode.c]; [E2DirSpec]
      relates blocks to lists of records, [E2DirOps] shows that looking up,
      linking and unlinking names refine the operations on those lists;
      [E2Readdir] has the open files of [ext2fs/file.c] and the same for
      reading a directory.  [E2Demo], [E2DirDemo]: a small volume for the
      witnesses, and faults of the driver on it.

    Tasks ([task.c]).
    - [Task]: the ready queue, the list of all tasks and every call of the
      file, over the class [TaskEnv] (paging, descriptors, signals and time).
      [TaskInv] has the invariant: the queue holds the tasks that may run,
      once each, parents and children agree.  [TaskSched], [TaskSystem] and
      [TaskSteps] show that every operation keeps it; [TaskProps] states it of
      every sequence of the steps [enabled] allows, that [waitpid] collects each child that ended,
      once and with its status, and that the scheduler runs every ready task
      before any runs twice.  [TaskDemo] has witnesses and faults.

    Programs and modules ([elf32.c], [exec.c], [shebang.c]).
    - [Elf]: the ELF structures, the loader of programs and the loader of
      kernel modules with symbol resolution and relocation.  [ElfProps]: the
      memory image of a program is what its segments describe; [ElfReloc]: a
      relocation table stores in every place what its entry asks for.
    - [Exec]: scripts, the search for an executable type, [execve], [insmod]
      and [rmmod], over the class [ExecFiles].  [ExecProps]: the arguments of
      an interpreter; [ExecStack]: the new program finds its arguments, its
      environment and its image in memory.  [ExecDemo]: witnesses and faults.

    Boot and hardware ([initfs.c], [pci.c], [descriptor_tables.c]).
    - [Initfs]: the boot file system over memory, an instance of the parameters
      of [Dcache], [File], [FdTable] and [Mount].  [InitfsProps]: nodes that
      are made are found, reading returns the bytes of a module; with it,
      booting, opening and reading through all layers, and faults.
    - [Pci]: enumeration of the bus.  [PciProps]: it finds exactly the functions
      that are there, on all busses; with a machine, and faults.
    - [Interrupts]: descriptor tables and dispatch.  [InterruptsProps]: every
      hardware interrupt reaches its stub and its callback.

    Output ([initial_printk.c]).
    - [Printk]: the conversions of [printk] and the text console with its video
      memory and hardware cursor.  [PrintkProps]: a printed number reads as the
      argument; [PrintkConsole]: [printk] returns when the arguments its format
      asks for are there, and the console refines a terminal of cells, with
      witnesses and faults.

    The keyboard and the virtual terminal ([src/modules/vtty],
    [src/modules/atkbd], [ps2.c]).
    - [Vtty]: the tables of scan codes and of characters, scan codes to
      key events, key events to the input of a terminal, the screen, loading and
      removing.  [VttyMonitor]: the screen refines a
      terminal of cells; [VttyKeys]: a text typed on a keyboard of the US layout
      (a table of its own, [us_layout]) arrives at the terminal, through the event system and the line discipline; loading,
      witnesses and faults.
    - [Ps2]: the driver of the keyboard controller ([ps2.c]) and the keyboard
      module, with interrupts off while it polls.  [Ps2Props] has the class
      [Ps2Bus], what the controller is assumed to do, what initialisation,
      identification and loading leave there, and [keyboard_to_terminal]: from
      interrupts through all the parts above to the line that is read.

    * Parameters

    Code that is not in the repository is a parameter: the constants and
    macros of the C library ([MS_RDONLY], [major], ...), and the operations a
    driver registers, as functions on the driver's own state.  What is assumed
    of a driver is stated as a class or hypothesis ([BlockDriver], [closes])
    with a concrete instance next to it.

    * Bounds and fuel

    Loops over data structures that need not be finite in C take fuel.  The
    theorems say how much is enough: the number of blocks for the heap, the
    number of directory entries (loaded or loadable) for releasing an entry,
    one more than the length of the name for path resolution.  Path resolution
    needs memory for two objects per component; a name has at most 511
    characters, so 1024 are enough for one lookup and 4096 for the lookups of
    one [open].  The scheduler needs three steps per ready task, and one more
    than the signals that wait for it; the loops over directory records need
    one step per byte of a block.  The ATA driver needs one step per status read
    that finds a drive working, for which the contract has a bound, and one per
    sector.  The enumeration of PCI busses needs one level per bus number, 255.
    The theorems on ext2 files hold for files
    that need no more than the indirect block (12 + blocksize / 4 blocks); the
    definitions have all levels.  The parameter [behind] is the memory behind
    the array of the block map, which the code writes to the disk.  [memory]
    says whether the kernel heap can serve the requests of a call.

    * Faults of the code

    Where the code does not do what it means to do, a theorem says what it
    does instead (for example [heap_aligned_alloc_corrupts],
    [sem_lost_wakeup], [pipe_write_full_loses], [path_lookup_dotdot_twice],
    [open_parent_of_root_faults], [chdir_leaks], [ping_pong_starves],
    [e2_append_at_boundary_faults], [e2_link_exact_fit_loses_next],
    [failed_close_dangles], [getcwd_short_buffer_overflows], [vtty_wrong_keys],
    [exec_self_interpreter_hangs]).

    * Not modelled

    Assembly (interrupt entry, context switching), the start-up code, the
    serial line, the table of system calls (its
    numbers are those of the C library), the third-party printf
    ([ee_printf.c]), the ACPI glue and user programs. *)

From Stdlib Require Export ZArith Lia.
From stdpp Require Export base numbers gmap sorting list.

#[global] Open Scope Z_scope.

(** * Machine integers *)

(** A 32-bit unsigned value is a [Z] in [0, 2^32); every C computation on
    [u32], [size_t] or a pointer is wrapped with [u32]. *)
Definition u32 (x : Z) : Z := x mod 4294967296.
Definition u16 (x : Z) : Z := x mod 65536.
Definition u8 (x : Z) : Z := x mod 256.

(** Reinterpretation of a 32-bit pattern as a C [int]. *)
Definition s32 (x : Z) : Z := let y := u32 x in if y <? 2147483648 then y else y - 4294967296.

Lemma u32_small x : 0 <= x < 4294967296 → u32 x = x.
Proof. apply Z.mod_small. Qed.

Lemma u32_range x : 0 <= u32 x < 4294967296.
Proof. apply Z.mod_pos_bound. lia. Qed.

Lemma u16_small x : 0 <= x < 65536 → u16 x = x.
Proof. apply Z.mod_small. Qed.

Lemma u8_small x : 0 <= x < 256 → u8 x = x.
Proof. apply Z.mod_small. Qed.

Lemma s32_small x : 0 <= x < 2147483648 → s32 x = x.
Proof.
  intros H. unfold s32. rewrite u32_small by lia.
  destruct (Z.ltb_spec x 2147483648); lia.
Qed.

Lemma u32_u32 x : u32 (u32 x) = u32 x.
Proof. apply u32_small, u32_range. Qed.

Lemma u32_add_l x y : u32 (u32 x + y) = u32 (x + y).
Proof. unfold u32. apply Zplus_mod_idemp_l. Qed.

(** [u32s] removes every wrap-around whose argument [lia] can bound. *)
Ltac u32s :=
  repeat match goal with
  | |- context [u32 ?x] => rewrite (u32_small x) by lia
  end.
Ltac u32s_in H :=
  repeat match type of H with
  | context [u32 ?x] => rewrite (u32_small x) in H by lia
  end.

(** Boolean comparisons to propositions, in the goal and in hypotheses. *)
Ltac zbool :=
  repeat match goal with
  | H : (_ <? _) = true |- _ => apply Z.ltb_lt in H
  | H : (_ <? _) = false |- _ => apply Z.ltb_ge in H
  | H : (_ <=? _) = true |- _ => apply Z.leb_le in H
  | H : (_ <=? _) = false |- _ => apply Z.leb_gt in H
  | H : (_ =? _) = true |- _ => apply Z.eqb_eq in H
  | H : (_ =? _) = false |- _ => apply Z.eqb_neq in H
  | H : (_ && _)%bool = true |- _ => apply andb_true_iff in H as [? ?]
  | H : (_ && _)%bool = false |- _ => apply andb_false_iff in H
  | H : (_ || _)%bool = true |- _ => apply orb_true_iff in H
  | H : (_ || _)%bool = false |- _ => apply orb_false_iff in H as [? ?]
  | H : negb _ = true |- _ => apply negb_true_iff in H
  | H : negb _ = false |- _ => apply negb_false_iff in H
  end.

(** Case split on the first boolean test of the goal. *)
Ltac case_if :=
  match goal with
  | |- context [if ?b then _ else _] => destruct b eqn:?; zbool
  end.
Ltac case_if_in H :=
  match type of H with
  | context [if ?b then _ else _] => destruct b eqn:?; zbool
  end.

(** * Error values *)

(** The [errno] constants the kernel returns negated.  Their numbers belong
    to the C library; only the identity of the error matters here. *)
Inductive errno : Set :=
  | EPERM | ENOENT | EIO | ENXIO | E2BIG | EBADF | ECHILD | ENOMEM | EACCES
  | EFAULT | EBUSY | EEXIST | EXDEV | ENODEV | ENOTDIR | EISDIR | EINVAL
  | EMFILE | ENOEXEC | ENOTTY | ENOSPC | EROFS | ENOSYS | ENAMETOOLONG | ETIMEDOUT.

#[global] Instance errno_eq_dec : EqDecision errno.
Proof. solve_decision. Defined.

(** What a C function that returns a non-negative value or [-E...] returns. *)
Inductive result (A : Type) : Type :=
  | Ok (a : A)
  | Err (e : errno).
Arguments Ok {A} a.
Arguments Err {A} e.

#[global] Instance result_eq_dec {A} `{EqDecision A} : EqDecision (result A).
Proof. solve_decision. Defined.

(** * Computations that may not return *)

(** [Halt]: the machine stops ([cli; hlt], an endless loop, a fault);
    [OutOfFuel]: the bound on loop iterations given to the model ran out. *)
Inductive outcome (A : Type) : Type :=
  | Ret (a : A)
  | Halt
  | OutOfFuel.
Arguments Ret {A} a.
Arguments Halt {A}.
Arguments OutOfFuel {A}.

Definition obind {A B} (c : outcome A) (k : A → outcome B) : outcome B :=
  match c with
  | Ret a => k a
  | Halt => Halt
  | OutOfFuel => OutOfFuel
  end.

(** A loop that ran out of fuel. *)
Definition fueled {A} (c : option A) : outcome A :=
  match c with Some a => Ret a | None => OutOfFuel end.

(** A step that stops the machine. *)
Definition or_halt {A} (c : option A) : outcome A :=
  match c with Some a => Ret a | None => Halt end.

Declare Scope kernel_scope.
Delimit Scope kernel_scope with kernel.
Notation "x <~ c ;; k" := (obind c (λ x, k))
  (at level 100, c at next level, right associativity) : kernel_scope.
Notation "' p <~ c ;; k" := (obind c (λ p, k))
  (at level 100, p pattern, c at next level, right associativity) : kernel_scope.
#[global] Open Scope kernel_scope.

Lemma obind_Ret {A B} (a : A) (f : A → outcome B) : obind (Ret a) f = f a.
Proof. reflexivity. Qed.

Lemma obind_ret {A B} (c : outcome A) (k : A → outcome B) b :
  (x <~ c ;; k x) = Ret b ↔ ∃ a, c = Ret a ∧ k a = Ret b.
Proof. destruct c; simpl; naive_solver. Qed.

(** [spin_lock] on a single processor: taking a held lock never returns. *)
Definition spin_lock (lock : Z) : outcome Z := if lock =? 0 then Ret 1 else Halt.
Definition spin_unlock (_ : Z) : Z := 0.

(** * Bits *)

Lemma testbit_set w i j :
  0 <= i → 0 <= j →
  Z.testbit (Z.lor w (Z.shiftl 1 i)) j = Z.testbit w j || (i =? j).
Proof.
  intros Hi Hj. rewrite Z.lor_spec. f_equal.
  rewrite Z.shiftl_spec by lia.
  destruct (Z.eqb_spec i j) as [->|Hne]; [by rewrite Z.sub_diag|].
  destruct (Z.ltb_spec j i); [apply Z.testbit_neg_r; lia|].
  apply Z.bits_above_log2; simpl; lia.
Qed.

Lemma testbit_clear w i j :
  0 <= i → 0 <= j →
  Z.testbit (Z.land w (Z.lnot (Z.shiftl 1 i))) j = Z.testbit w j && negb (i =? j).
Proof.
  intros Hi Hj. rewrite Z.land_spec, Z.lnot_spec by lia. f_equal. f_equal.
  pose proof (testbit_set 0 i j Hi Hj) as H.
  by rewrite Z.lor_0_l, Z.bits_0 in H.
Qed.

Lemma testbit_u32 x j : 0 <= j → Z.testbit (u32 x) j = Z.testbit x j && (j <? 32).
Proof.
  intros Hj. unfold u32. change 4294967296 with (2 ^ 32).
  destruct (Z.ltb_spec j 32).
  - rewrite Z.mod_pow2_bits_low by lia. by rewrite andb_true_r.
  - rewrite Z.mod_pow2_bits_high by lia. by rewrite andb_false_r.
Qed.

Lemma land_shiftl1_testbit w i :
  0 <= i → (Z.land w (Z.shiftl 1 i) =? 0) = negb (Z.testbit w i).
Proof.
  intros Hi.
  assert (Hpow : Z.shiftl 1 i = 2 ^ i) by (rewrite Z.shiftl_mul_pow2 by lia; lia).
  destruct (Z.testbit w i) eqn:E.
  - apply Z.eqb_neq. intros H.
    assert (Z.testbit (Z.land w (Z.shiftl 1 i)) i = false) as H'
      by (rewrite H; apply Z.bits_0).
    rewrite Z.land_spec, E, Hpow, Z.pow2_bits_true in H'; [done|lia].
  - apply Z.eqb_eq, Z.bits_inj'. intros j Hj.
    rewrite Z.land_spec, Hpow, Z.bits_0.
    destruct (Z.eq_dec i j) as [->|Hne]; [by rewrite E|].
    rewrite Z.pow2_bits_false by lia. apply andb_false_r.
Qed.

(** A value with 32 significant bits is all ones iff every bit is set. *)
Lemma u32_all_ones w :
  0 <= w < 4294967296 →
  (∀ j, 0 <= j < 32 → Z.testbit w j = true) → w = 4294967295.
Proof.
  intros Hw Hbits. change 4294967295 with (Z.ones 32).
  apply Z.bits_inj'. intros j Hj. destruct (Z.ltb_spec j 32).
  - rewrite Hbits, Z.ones_spec_low by lia. done.
  - rewrite Z.ones_spec_high by lia.
    destruct (Z.eq_dec w 0) as [->|]; [apply Z.bits_0|].
    apply Z.bits_above_log2; [lia|].
    apply Z.log2_lt_pow2; [lia|].
    apply Z.lt_le_trans with (2 ^ 32); [change (2^32) with 4294967296; lia|].
    apply Z.pow_le_mono_r; lia.
Qed.

(** * Lists *)

Section Lists.
Context {A : Type}.
Implicit Types (l : list A) (x y : A).

  (** The last element of [x :: l]. *)
Definition last_from (x : A) (l : list A) : A := default x (last l).

  (** The first element of [l ++ [x]]. *)
Definition first_or (x : A) (l : list A) : A := default x (head l).

Lemma last_from_cons x y l : last_from x (y :: l) = last_from y l.
Proof. unfold last_from. rewrite last_cons. by destruct (last l). Qed.

Lemma last_from_snoc x l y : last_from x (l ++ [y]) = y.
Proof. unfold last_from. by rewrite last_snoc. Qed.

Lemma last_from_elem x l : last_from x l ∈ x :: l.
Proof.
    unfold last_from. destruct (last l) as [z|] eqn:E; simpl; [|set_solver].
    apply last_Some in E as [l' ->]. set_solver.
Qed.

Lemma first_or_elem x l : first_or x l ∈ l ++ [x].
Proof. destruct l; set_solver. Qed.
End Lists.

(** The library's hint database: address and list side conditions. *)
Create HintDb stewie discriminated.
#[export] Hint Resolve last_from_elem first_or_elem u32_range : stewie.
