(* ===== verification/Memory.v ===== *)
(** Byte-addressed memory.

    The kernel's data structures overlay each other at arbitrary byte
    addresses (a heap block header follows a payload of any length), so
    memory is a finite map from addresses to bytes; 32-bit loads and stores
    are little-endian groups of four bytes.  [memset] and [memcpy] are the
    byte loops of [src/kernel/src/misc.c]. *)

From S2P Require Import Prelude.

Abbreviation mem := (gmap Z Z).

(** * Loads and stores *)

Definition ld8 (m : mem) (a : Z) : Z := u8 (default 0 (m !! a)).
Definition st8 (m : mem) (a v : Z) : mem := <[a := u8 v]> m.

Definition ld32 (m : mem) (a : Z) : Z :=
  ld8 m a + 256 * ld8 m (a + 1) + 65536 * ld8 m (a + 2) + 16777216 * ld8 m (a + 3).

Definition st32 (m : mem) (a v : Z) : mem :=
  st8 (st8 (st8 (st8 m a v) (a + 1) (v / 256)) (a + 2) (v / 65536)) (a + 3) (v / 16777216).

Lemma ld8_st8_eq m a v : ld8 (st8 m a v) a = u8 v.
Proof.
  unfold ld8, st8. rewrite lookup_insert_eq. simpl. unfold u8.
  by rewrite Z.mod_mod.
Qed.

Lemma ld8_st8_ne m a b v : a ≠ b → ld8 (st8 m a v) b = ld8 m b.
Proof. intros H. unfold ld8, st8. by rewrite lookup_insert_ne. Qed.

Lemma ld8_range m a : 0 <= ld8 m a < 256.
Proof. apply Z.mod_pos_bound. lia. Qed.

Lemma ld32_range m a : 0 <= ld32 m a < 4294967296.
Proof.
  unfold ld32.
  pose proof (ld8_range m a). pose proof (ld8_range m (a + 1)).
  pose proof (ld8_range m (a + 2)). pose proof (ld8_range m (a + 3)). lia.
Qed.

Lemma ld8_st32_ne m a b v : b + 1 <= a ∨ a + 4 <= b → ld8 (st32 m a v) b = ld8 m b.
Proof. intros H. unfold st32. by rewrite !ld8_st8_ne by lia. Qed.

(** The bytes of a stored word reassemble to the word. *)
Lemma le_bytes v :
  0 <= v < 4294967296 →
  v mod 256 + 256 * ((v / 256) mod 256) + 65536 * ((v / 65536) mod 256)
    + 16777216 * ((v / 16777216) mod 256) = v.
Proof.
  intros H.
  change 65536 with (256 * 256) at 1. change 65536 with (256 * 256).
  change 16777216 with (256 * 256 * 256).
  rewrite <- !Z.div_div by lia.
  pose proof (Z.div_mod v 256 ltac:(lia)).
  pose proof (Z.div_mod (v / 256) 256 ltac:(lia)).
  pose proof (Z.div_mod (v / 256 / 256) 256 ltac:(lia)).
  rewrite (Z.mod_small (v / 256 / 256 / 256)); [lia|].
  split; [repeat (apply Z.div_pos; [|lia]); lia|].
  repeat (apply Z.div_lt_upper_bound; [lia|]). lia.
Qed.

Lemma ld32_st32_eq m a v : 0 <= v < 4294967296 → ld32 (st32 m a v) a = v.
Proof.
  intros H. unfold ld32, st32.
  repeat (rewrite ld8_st8_eq || rewrite ld8_st8_ne by lia).
  unfold u8. by apply le_bytes.
Qed.

Lemma ld32_st32_ne m a b v : a + 4 <= b ∨ b + 4 <= a → ld32 (st32 m a v) b = ld32 m b.
Proof. intros H. unfold ld32. by rewrite !ld8_st32_ne by lia. Qed.

(** [mem_simp] evaluates loads over a chain of stores. *)
Ltac mem_step :=
  match goal with
  | |- context [ld32 (st32 ?m ?a ?v) ?b] =>
      first [ rewrite (ld32_st32_ne m a b v) by lia
            | replace b with a by lia; rewrite (ld32_st32_eq m a v) by lia ]
  | |- context [ld8 (st32 ?m ?a ?v) ?b] => rewrite (ld8_st32_ne m a b v) by lia
  end.
Ltac mem_simp := repeat mem_step.

(** * Frames *)

(** [frame P m m']: [m'] differs from [m] only at byte addresses in [P]. *)
Definition frame (P : Z → Prop) (m m' : mem) : Prop := ∀ a, ¬ P a → ld8 m' a = ld8 m a.

(** The bytes [lo, lo + len). *)
Definition within (lo len a : Z) : Prop := lo <= a < lo + len.

Lemma frame_refl P m : frame P m m.
Proof. done. Qed.

Lemma frame_trans P m1 m2 m3 : frame P m1 m2 → frame P m2 m3 → frame P m1 m3.
Proof. intros H1 H2 a Ha. rewrite H2, H1; done. Qed.

Lemma frame_weaken (P Q : Z → Prop) m m' : (∀ a, P a → Q a) → frame P m m' → frame Q m m'.
Proof. intros HPQ H a Ha. apply H. auto. Qed.

Lemma frame_st32 (P : Z → Prop) m a v :
  (∀ i, 0 <= i < 4 → P (a + i)) → frame P m (st32 m a v).
Proof.
  intros HP b Hb. apply ld8_st32_ne.
  destruct (decide (a <= b < a + 4)) as [Hin|]; [|lia].
  exfalso. apply Hb. replace b with (a + (b - a)) by lia. apply HP. lia.
Qed.

Lemma frame_st32_step (P : Z → Prop) m m1 a v :
  frame P m m1 → (∀ i, 0 <= i < 4 → P (a + i)) → frame P m (st32 m1 a v).
Proof. intros H HP. eapply frame_trans; [exact H|by apply frame_st32]. Qed.

Lemma frame_ld32 P m m' a :
  frame P m m' → (∀ i, 0 <= i < 4 → ¬ P (a + i)) → ld32 m' a = ld32 m a.
Proof.
  intros HF Ha. unfold ld32.
  rewrite <- (Z.add_0_r a) at 1 5.
  by rewrite !HF by (apply Ha; lia).
Qed.

#[export] Hint Resolve frame_refl : stewie.

(** * misc.c *)

(** [memset(ptr, v, count)]: [((char* )ptr)[i] = (char)v] for increasing [i]. *)
Fixpoint memset_from (m : mem) (ptr v : Z) (i : Z) (n : nat) : mem :=
  match n with
  | O => m
  | S n => memset_from (st8 m (ptr + i) v) ptr v (i + 1) n
  end.

Definition memset (m : mem) (ptr v count : Z) : mem :=
  memset_from m ptr v 0 (Z.to_nat count).

(** [memcpy(d, s, c)]: byte by byte, both pointers increasing. *)
Fixpoint memcpy_loop (m : mem) (d s : Z) (c : nat) : mem :=
  match c with
  | O => m
  | S c => memcpy_loop (st8 m d (ld8 m s)) (d + 1) (s + 1) c
  end.

Definition memcpy (m : mem) (d s c : Z) : mem := memcpy_loop m d s (Z.to_nat c).

Lemma memset_from_ld8 n m ptr v i a :
  ld8 (memset_from m ptr v i n) a =
  if bool_decide (ptr + i <= a < ptr + i + Z.of_nat n) then u8 v else ld8 m a.
Proof.
  revert m i. induction n as [|n IH]; intros m i; simpl.
  - rewrite bool_decide_eq_false_2 by lia. done.
  - rewrite IH. case_bool_decide; case_bool_decide; try lia; try done.
    + replace a with (ptr + i) by lia. apply ld8_st8_eq.
    + apply ld8_st8_ne. lia.
Qed.

Lemma u8_ld8 m a : u8 (ld8 m a) = ld8 m a.
Proof. apply u8_small, ld8_range. Qed.

(** Copying to a lower or disjoint address copies the original bytes. *)
Lemma memcpy_loop_ld8 c m d s a :
  d <= s ∨ s + Z.of_nat c <= d →
  ld8 (memcpy_loop m d s c) a =
  if bool_decide (d <= a < d + Z.of_nat c) then ld8 m (s + (a - d)) else ld8 m a.
Proof.
  revert m d s. induction c as [|c IH]; intros m d s Hds; simpl.
  - rewrite bool_decide_eq_false_2 by lia. done.
  - rewrite IH by lia. case_bool_decide; case_bool_decide; try lia.
    + rewrite ld8_st8_ne by lia. f_equal. lia.
    + replace a with d by lia. rewrite ld8_st8_eq, u8_ld8. f_equal. lia.
    + apply ld8_st8_ne. lia.
Qed.
