(* ===== verification/LinkedList.v ===== *)
(** Intrusive doubly linked lists: [src/kernel/include/stewieos/linkedlist.h].

    A [list_t] is an eight-byte node in memory, [prev] at offset 0 and [next]
    at offset 4; a list is a circle through its head node.  The operations
    are the memory updates of the header file.  [dll m hd xs] relates memory
    to the sequence [xs] of nodes on the circle after the head [hd]; each
    operation is shown to implement the corresponding operation on sequences
    and to change only bytes of the nodes involved. *)

From S2P Require Import Prelude Memory.

(** * Operations *)

Definition list_prev (m : mem) (item : Z) : Z := ld32 m item.
Definition list_next (m : mem) (item : Z) : Z := ld32 m (item + 4).
Definition set_prev (m : mem) (item v : Z) : mem := st32 m item v.
Definition set_next (m : mem) (item v : Z) : mem := st32 m (item + 4) v.

Definition INIT_LIST (m : mem) (name : Z) : mem :=
  set_next (set_prev m name name) name name.

Definition list_is_lonely (m : mem) (item head : Z) : bool :=
  (list_next m item =? head) && (list_prev m item =? head).

Definition list_inserted (m : mem) (item : Z) : bool := negb (list_is_lonely m item item).

Definition list_first (m : mem) (head : Z) : Z := list_next m head.
Definition list_last (m : mem) (head : Z) : Z := list_prev m head.
Definition list_empty (m : mem) (l : Z) : bool := list_next m l =? l.

Definition _list_add (m : mem) (what prev next : Z) : mem :=
  let m := set_next m prev what in
  let m := set_prev m next what in
  let m := set_prev m what prev in
  set_next m what next.

Definition list_add (m : mem) (what where_ : Z) : mem :=
  _list_add m what where_ (list_next m where_).

Definition list_add_before (m : mem) (what where_ : Z) : mem :=
  _list_add m what (list_prev m where_) where_.

Definition _list_rem (m : mem) (prev next : Z) : mem :=
  set_prev (set_next m prev next) next prev.

Definition list_rem (m : mem) (what : Z) : mem :=
  INIT_LIST (_list_rem m (list_prev m what) (list_next m what)) what.

(** The [list_for_each] loop of [list_add_ordered]; [None] is running out of
    fuel, [cmp] is the comparison callback applied to the current memory. *)
Fixpoint add_ordered_loop (fuel : nat) (cmp : mem → Z → Z → Z)
    (m : mem) (what where_ item : Z) : option mem :=
  match fuel with
  | O => None
  | S fuel =>
      if item =? where_ then Some (list_add_before m what where_)
      else if cmp m what item <=? 0 then Some (list_add_before m what item)
      else add_ordered_loop fuel cmp m what where_ (list_next m item)
  end.

Definition list_add_ordered (fuel : nat) (cmp : mem → Z → Z → Z)
    (m : mem) (what where_ : Z) : option mem :=
  if list_empty m where_ then Some (list_add m what where_)
  else add_ordered_loop fuel cmp m what where_ (list_next m where_).

(** * Representation *)

Definition linked (m : mem) (a b : Z) : Prop := list_next m a = b ∧ list_prev m b = a.

(** The path [a], [xs], [b] is linked in both directions. *)
Fixpoint chain (m : mem) (a : Z) (xs : list Z) (b : Z) : Prop :=
  match xs with
  | [] => linked m a b
  | x :: xs => linked m a x ∧ chain m x xs b
  end.

Definition far (a b : Z) : Prop := a + 8 <= b ∨ b + 8 <= a.

(** Nodes are distinct, do not overlap and lie in the address space. *)
Definition nodes_ok (ns : list Z) : Prop :=
  NoDup ns ∧ (∀ a, a ∈ ns → 0 <= a ∧ a + 8 <= 4294967296)
  ∧ (∀ a b, a ∈ ns → b ∈ ns → a ≠ b → far a b).

Definition dll (m : mem) (hd : Z) (xs : list Z) : Prop :=
  chain m hd xs hd ∧ nodes_ok (hd :: xs).

(** A node that is on no list: it points to itself. *)
Definition lonely (m : mem) (x : Z) : Prop := list_next m x = x ∧ list_prev m x = x.

(** The bytes of the nodes [ns]. *)
Definition in_nodes (ns : list Z) (a : Z) : Prop := ∃ n, n ∈ ns ∧ within n 8 a.

(** ** Nodes *)

Lemma nodes_ok_far ns a b : nodes_ok ns → a ∈ ns → b ∈ ns → a = b ∨ far a b.
Proof. intros (_ & _ & H) Ha Hb. destruct (decide (a = b)); auto. Qed.

Lemma nodes_ok_perm ns ns' : ns ≡ₚ ns' → nodes_ok ns → nodes_ok ns'.
Proof.
  intros HP (H1 & H2 & H3). split; [by rewrite <- HP|].
  split; [intros a; rewrite <- HP; apply H2|intros a b; rewrite <- HP; apply H3].
Qed.

Lemma nodes_ok_tail x ns : nodes_ok (x :: ns) → nodes_ok ns.
Proof.
  intros (H1 & H2 & H3). apply NoDup_cons in H1 as [_ H1].
  split; [done|]. split; intros; [apply H2|apply H3]; set_solver.
Qed.

Lemma nodes_ok_cons x ns :
  nodes_ok ns → 0 <= x → x + 8 <= 4294967296 → (∀ n, n ∈ ns → far x n) → nodes_ok (x :: ns).
Proof.
  intros (H1 & H2 & H3) Hx0 Hx Hfar. split; [|split].
  - apply NoDup_cons. split; [|done]. intros Hin. destruct (Hfar x Hin); lia.
  - intros a [->|Ha]%elem_of_cons; [lia|auto].
  - intros a b [->|Ha]%elem_of_cons [->|Hb]%elem_of_cons Hne; [done|auto| |auto].
    destruct (Hfar a Ha); [right|left]; lia.
Qed.

(** ** Chains *)

Lemma chain_app m a xs y ys b :
  chain m a (xs ++ y :: ys) b ↔ chain m a xs y ∧ chain m y ys b.
Proof.
  revert a. induction xs as [|x xs IH]; intros a; simpl; [done|].
  rewrite IH. naive_solver.
Qed.

Lemma chain_first m a xs b : chain m a xs b → list_next m a = first_or b xs.
Proof. destruct xs as [|x xs]; simpl; [by intros []|by intros [[] _]]. Qed.

Lemma chain_last m a xs b : chain m a xs b → list_prev m b = last_from a xs.
Proof.
  revert a. induction xs as [|x xs IH]; intros a; simpl; [by intros []|].
  intros [_ H]. rewrite last_from_cons. by apply IH.
Qed.

(** Replace the end of a chain: what matters is the last link. *)
Lemma chain_relink_end m m' a xs b y :
  chain m a xs b →
  (∀ n, n ∈ a :: xs → n ≠ last_from a xs → list_next m' n = list_next m n) →
  (∀ n, n ∈ xs → list_prev m' n = list_prev m n) →
  NoDup (a :: xs) →
  linked m' (last_from a xs) y →
  chain m' a xs y.
Proof.
  revert a. induction xs as [|x xs IH]; intros a Hc Hn Hp Hnd Hl; simpl in *; [done|].
  destruct Hc as [[H1 H2] Hc]. rewrite last_from_cons in *.
  apply NoDup_cons in Hnd as [Ha Hnd]. split.
  - split; [|rewrite Hp by set_solver; done].
    rewrite Hn; [done|set_solver|].
    intros ->. apply Ha. apply last_from_elem.
  - apply IH; auto; intros n Hin; [intros|]; [apply Hn|apply Hp]; set_solver.
Qed.

(** Replace the start of a chain: what matters is the first link. *)
Lemma chain_relink_start m m' x xs b y :
  chain m x xs b →
  (∀ n, n ∈ xs → list_next m' n = list_next m n) →
  (∀ n, n ∈ xs ++ [b] → n ≠ first_or b xs → list_prev m' n = list_prev m n) →
  NoDup (xs ++ [b]) →
  linked m' y (first_or b xs) →
  chain m' y xs b.
Proof.
  destruct xs as [|z xs]; simpl; [done|].
  intros [_ Hc] Hn Hp Hnd Hl. split; [done|].
  apply NoDup_cons in Hnd as [Hz Hnd].
  clear Hl. revert z Hc Hn Hp Hz Hnd.
  induction xs as [|w xs IH]; simpl; intros z Hc Hn Hp Hz Hnd.
  - destruct Hc as [H1 H2]. split; [rewrite Hn by set_solver; done|].
    rewrite Hp; [done|set_solver|set_solver].
  - destruct Hc as [[H1 H2] Hc]. apply NoDup_cons in Hnd as [Hw Hnd].
    assert (linked m' z w) as Hl'.
    { split; [rewrite Hn by set_solver; done|].
      rewrite Hp; [done|set_solver|set_solver]. }
    split; [done|].
    apply (IH w); [done|set_solver| |done|done].
    intros n Hin _. apply Hp; [|intros ->]; set_solver.
Qed.

(** ** Node writes *)

(** Simplify loads of node fields over node stores, by the position facts. *)
Ltac node_simp :=
  unfold list_next, list_prev, set_next, set_prev, far in *; mem_simp.

Lemma dll_nodup m hd xs : dll m hd xs → NoDup (hd :: xs).
Proof. by intros [_ [? _]]. Qed.

(** A memory that agrees on every byte of the nodes has the same list. *)
Lemma dll_frame m m' P hd xs :
  dll m hd xs → frame P m m' → (∀ n a, n ∈ hd :: xs → within n 8 a → ¬ P a) → dll m' hd xs.
Proof.
  intros [Hc Hok] HF HP. split; [|done].
  assert (∀ n, n ∈ hd :: xs → list_next m' n = list_next m n) as Hn.
  { intros n Hin. unfold list_next. eapply frame_ld32; [done|].
    intros i Hi. eapply HP; [done|]. unfold within. lia. }
  assert (∀ n, n ∈ hd :: xs → list_prev m' n = list_prev m n) as Hp.
  { intros n Hin. unfold list_prev. eapply frame_ld32; [done|].
    intros i Hi. eapply HP; [done|]. unfold within. lia. }
  destruct Hok as [Hnd _]. apply (chain_relink_end m m' hd xs hd hd); auto.
  - intros n Hin. apply Hp. set_solver.
  - pose proof (chain_last _ _ _ _ Hc) as HL.
    split; [|rewrite Hp by set_solver; done].
    rewrite Hn by apply last_from_elem.
    destruct xs as [|x xs] using rev_ind; [by destruct Hc|].
    rewrite last_from_snoc. apply chain_app in Hc as [_ [? _]]. done.
Qed.

Lemma lonely_frame m m' P x :
  lonely m x → frame P m m' → (∀ a, within x 8 a → ¬ P a) → lonely m' x.
Proof.
  intros [H1 H2] HF HP. unfold lonely, list_next, list_prev in *.
  split; (erewrite frame_ld32; [done|done|]); intros i Hi; apply HP; unfold within; lia.
Qed.

(** * Correctness *)

Lemma INIT_LIST_lonely m x : 0 <= x → x + 8 <= 4294967296 → lonely (INIT_LIST m x) x.
Proof. intros. unfold lonely, INIT_LIST. node_simp. done. Qed.

Lemma INIT_LIST_frame m x : frame (within x 8) m (INIT_LIST m x).
Proof.
  unfold INIT_LIST, set_next, set_prev. eapply frame_trans; apply frame_st32; unfold within; lia.
Qed.

Lemma INIT_LIST_empty m hd : 0 <= hd → hd + 8 <= 4294967296 → dll (INIT_LIST m hd) hd [].
Proof.
  intros H1 H2. pose proof (INIT_LIST_lonely m hd H1 H2) as [Hn Hp]. split; [by split|].
  split; [apply NoDup_singleton|]. split; [|set_solver]. intros a ->%list_elem_of_singleton. lia.
Qed.

Lemma list_empty_spec m hd xs : dll m hd xs → list_empty m hd = bool_decide (xs = []).
Proof.
  intros [Hc Hok]. unfold list_empty. rewrite (chain_first _ _ _ _ Hc).
  destruct xs as [|x xs]; simpl; [by rewrite Z.eqb_refl|].
  destruct Hok as [Hnd _]. apply Z.eqb_neq. apply NoDup_cons in Hnd as [H _].
  unfold first_or. simpl. set_solver.
Qed.

(** Two nodes of a separated set are equal or apart: split every pair. *)
Ltac node_cases Hok :=
  repeat match goal with
  | Ha : ?a ∈ ?S, Hb : ?b ∈ ?S |- _ =>
      lazymatch goal with
      | _ : a = b ∨ far a b |- _ => fail
      | _ => pose proof (nodes_ok_far S a b Hok Ha Hb)
      end
  end.
Ltac node_ranges Hok :=
  repeat match goal with
  | Ha : ?a ∈ ?S |- _ =>
      lazymatch goal with
      | _ : 0 <= a ∧ a + 8 <= 4294967296 |- _ => fail
      | _ => pose proof (proj1 (proj2 Hok) a Ha)
      end
  end.

Lemma _list_add_next S m x p n a :
  nodes_ok S → x ∈ S → p ∈ S → n ∈ S → a ∈ S → x ≠ p → x ≠ n →
  list_next (_list_add m x p n) a =
  if decide (a = x) then n else if decide (a = p) then x else list_next m a.
Proof.
  intros Hok Hx Hp Hn Ha Hxp Hxn. node_ranges Hok.
  pose proof (nodes_ok_far S a x Hok Ha Hx). pose proof (nodes_ok_far S a p Hok Ha Hp).
  pose proof (nodes_ok_far S a n Hok Ha Hn). pose proof (nodes_ok_far S x p Hok Hx Hp).
  pose proof (nodes_ok_far S x n Hok Hx Hn).
  unfold _list_add, list_next, set_next, set_prev, far in *.
  repeat case_decide; subst; mem_simp; lia.
Qed.

Lemma _list_add_prev S m x p n a :
  nodes_ok S → x ∈ S → p ∈ S → n ∈ S → a ∈ S → x ≠ p → x ≠ n →
  list_prev (_list_add m x p n) a =
  if decide (a = x) then p else if decide (a = n) then x else list_prev m a.
Proof.
  intros Hok Hx Hp Hn Ha Hxp Hxn. node_ranges Hok.
  pose proof (nodes_ok_far S a x Hok Ha Hx). pose proof (nodes_ok_far S a p Hok Ha Hp).
  pose proof (nodes_ok_far S a n Hok Ha Hn). pose proof (nodes_ok_far S x p Hok Hx Hp).
  pose proof (nodes_ok_far S x n Hok Hx Hn).
  unfold _list_add, list_prev, set_next, set_prev, far in *.
  repeat case_decide; subst; mem_simp; lia.
Qed.

(** Position facts of a circle [hd], [l1], [l2]: the predecessor of the gap
    between [l1] and [l2] is not in [l2], its successor is not in [l1]. *)
Lemma gap_pred hd (l1 l2 : list Z) a :
  NoDup (hd :: l1 ++ l2) → a ∈ l2 → a ≠ last_from hd l1.
Proof.
  intros Hnd Ha ->. pose proof (last_from_elem hd l1) as Hp.
  apply NoDup_cons in Hnd as [H1 Hnd]. apply NoDup_app in Hnd as (_ & Hd & _).
  apply elem_of_cons in Hp as [Hp|Hp]; [rewrite Hp in Ha; set_solver|by apply (Hd _ Hp)].
Qed.

Lemma gap_succ hd (l1 l2 : list Z) a :
  NoDup (hd :: l1 ++ l2) → a ∈ l1 → a ≠ first_or hd l2.
Proof.
  intros Hnd Ha ->. pose proof (first_or_elem hd l2) as Hp.
  apply NoDup_cons in Hnd as [H1 Hnd]. apply NoDup_app in Hnd as (_ & Hd & _).
  apply elem_of_app in Hp as [Hp|Hp]; [by apply (Hd _ Ha)|].
  apply list_elem_of_singleton in Hp. rewrite Hp in Ha. set_solver.
Qed.

Lemma gap_chains m hd l1 l2 :
  chain m hd (l1 ++ l2) hd →
  chain m hd l1 (first_or hd l2) ∧ chain m (last_from hd l1) l2 hd.
Proof.
  intros Hc. split.
  - destruct l2 as [|y l2]; [by rewrite app_nil_r in Hc|]. by apply chain_app in Hc as [? _].
  - destruct l1 as [|y l1 _] using rev_ind; [done|].
    rewrite last_from_snoc. rewrite <- app_assoc in Hc. by apply chain_app in Hc as [_ ?].
Qed.

Lemma gap_nodup hd (l1 l2 : list Z) :
  NoDup (hd :: l1 ++ l2) → NoDup (hd :: l1) ∧ NoDup (l2 ++ [hd]).
Proof.
  intros Hnd. rewrite <- Permutation_cons_append.
  apply NoDup_cons in Hnd as [Hh Hnd]. apply NoDup_app in Hnd as (H1 & Hd & H2).
  split; apply NoDup_cons; set_solver.
Qed.

(** Bytes written by [_list_add] and [_list_rem] belong to the nodes named. *)
Lemma in_nodes_at ns q i : q ∈ ns → 0 <= i < 8 → in_nodes ns (q + i).
Proof. intros Hq Hi. exists q. split; [done|]. unfold within. lia. Qed.

Lemma in_nodes_mono ns ns' a : ns ⊆ ns' → in_nodes ns a → in_nodes ns' a.
Proof. intros H [n [Hn Hw]]. exists n. auto. Qed.

Lemma _list_add_frame m x p n : frame (in_nodes [x; p; n]) m (_list_add m x p n).
Proof.
  unfold _list_add, set_next, set_prev.
  repeat apply frame_st32_step; [apply frame_refl|..]; intros i Hi;
    rewrite <- ?Z.add_assoc; apply in_nodes_at; (set_solver || lia).
Qed.

(** Linking [x] into the gap between [l1] and [l2]. *)
Lemma _list_add_spec m hd l1 l2 x :
  dll m hd (l1 ++ l2) → nodes_ok (x :: hd :: l1 ++ l2) →
  dll (_list_add m x (last_from hd l1) (first_or hd l2)) hd (l1 ++ x :: l2).
Proof.
  intros [Hc _] Hok. set (p := last_from hd l1). set (n := first_or hd l2).
  assert (Hp : p ∈ hd :: l1) by apply last_from_elem.
  assert (Hn : n ∈ l2 ++ [hd]) by apply first_or_elem.
  pose proof (proj1 Hok) as Hnd. apply NoDup_cons in Hnd as [Hx Hnd].
  destruct (gap_nodup hd l1 l2 Hnd) as [Hnd1 Hnd2].
  destruct (gap_chains m hd l1 l2 Hc) as [Hc1 Hc2].
  assert (Hnext : ∀ a, a ∈ x :: hd :: l1 ++ l2 → list_next (_list_add m x p n) a =
     if decide (a = x) then n else if decide (a = p) then x else list_next m a).
  { intros a Ha. eapply _list_add_next; [exact Hok|..]; set_solver. }
  assert (Hprev : ∀ a, a ∈ x :: hd :: l1 ++ l2 → list_prev (_list_add m x p n) a =
     if decide (a = x) then p else if decide (a = n) then x else list_prev m a).
  { intros a Ha. eapply _list_add_prev; [exact Hok|..]; set_solver. }
  split.
  - apply chain_app. split.
    + apply (chain_relink_end m _ hd l1 n x); [done| | |done|].
      * intros a Ha Hne. rewrite Hnext, !decide_False by set_solver. done.
      * intros a Ha. rewrite Hprev, !decide_False; [done|by eapply gap_succ|set_solver|set_solver].
      * split; [rewrite Hnext, decide_False, decide_True by set_solver|
                rewrite Hprev, decide_True by set_solver]; done.
    + apply (chain_relink_start m _ p l2 hd x); [done| | |done|].
      * intros a Ha. rewrite Hnext, !decide_False; [done|by eapply gap_pred|set_solver|set_solver].
      * intros a Ha Hne. rewrite Hprev, !decide_False by set_solver. done.
      * split; [rewrite Hnext, decide_True by set_solver|
                rewrite Hprev, decide_False, decide_True by set_solver]; done.
  - eapply nodes_ok_perm; [|exact Hok].
    apply (Permutation_middle (hd :: l1) l2 x).
Qed.

(** [list_add(what, head)] pushes at the front. *)
Lemma list_add_spec m hd xs x :
  dll m hd xs → nodes_ok (x :: hd :: xs) → dll (list_add m x hd) hd (x :: xs).
Proof.
  intros Hd Hok. unfold list_add. rewrite (chain_first m hd xs hd) by apply Hd.
  apply (_list_add_spec m hd [] xs x Hd Hok).
Qed.

(** [list_add_before(what, item)] links in front of [item]. *)
Lemma list_add_before_spec m hd l1 y l2 x :
  dll m hd (l1 ++ y :: l2) → nodes_ok (x :: hd :: l1 ++ y :: l2) →
  dll (list_add_before m x y) hd (l1 ++ x :: y :: l2).
Proof.
  intros Hd Hok. unfold list_add_before.
  pose proof (proj1 (gap_chains m hd l1 (y :: l2) (proj1 Hd))) as Hc.
  change (first_or hd (y :: l2)) with y in Hc. rewrite (chain_last _ _ _ _ Hc).
  apply (_list_add_spec m hd l1 (y :: l2) x Hd Hok).
Qed.

(** [list_add_before(what, head)] pushes at the back. *)
Lemma list_add_tail_spec m hd xs x :
  dll m hd xs → nodes_ok (x :: hd :: xs) → dll (list_add_before m x hd) hd (xs ++ [x]).
Proof.
  intros Hd Hok. unfold list_add_before. rewrite (chain_last m hd xs hd) by apply Hd.
  rewrite <- (app_nil_r xs) in Hd, Hok.
  apply (_list_add_spec m hd xs [] x Hd Hok).
Qed.

(** ** Removal *)

Lemma list_rem_next S m x p n a :
  nodes_ok S → x ∈ S → p ∈ S → n ∈ S → a ∈ S → x ≠ p → x ≠ n →
  list_next (INIT_LIST (_list_rem m p n) x) a =
  if decide (a = x) then x else if decide (a = p) then n else list_next m a.
Proof.
  intros Hok Hx Hp Hn Ha Hxp Hxn. node_ranges Hok.
  pose proof (nodes_ok_far S a x Hok Ha Hx). pose proof (nodes_ok_far S a p Hok Ha Hp).
  pose proof (nodes_ok_far S a n Hok Ha Hn). pose proof (nodes_ok_far S x p Hok Hx Hp).
  pose proof (nodes_ok_far S x n Hok Hx Hn). pose proof (nodes_ok_far S p n Hok Hp Hn).
  unfold INIT_LIST, _list_rem, list_next, set_next, set_prev, far in *.
  repeat case_decide; subst; mem_simp; lia.
Qed.

Lemma list_rem_prev S m x p n a :
  nodes_ok S → x ∈ S → p ∈ S → n ∈ S → a ∈ S → x ≠ p → x ≠ n →
  list_prev (INIT_LIST (_list_rem m p n) x) a =
  if decide (a = x) then x else if decide (a = n) then p else list_prev m a.
Proof.
  intros Hok Hx Hp Hn Ha Hxp Hxn. node_ranges Hok.
  pose proof (nodes_ok_far S a x Hok Ha Hx). pose proof (nodes_ok_far S a p Hok Ha Hp).
  pose proof (nodes_ok_far S a n Hok Ha Hn). pose proof (nodes_ok_far S x p Hok Hx Hp).
  pose proof (nodes_ok_far S x n Hok Hx Hn). pose proof (nodes_ok_far S p n Hok Hp Hn).
  unfold INIT_LIST, _list_rem, list_prev, set_next, set_prev, far in *.
  repeat case_decide; subst; mem_simp; lia.
Qed.

Lemma list_rem_frame m x :
  frame (in_nodes [x; list_prev m x; list_next m x]) m (list_rem m x).
Proof.
  unfold list_rem, INIT_LIST, _list_rem, set_next, set_prev.
  repeat apply frame_st32_step; [apply frame_refl|..]; intros i Hi;
    rewrite <- ?Z.add_assoc; apply in_nodes_at; (set_solver || lia).
Qed.

(** Neighbours of an element of the circle. *)
Lemma dll_neighbours m hd l1 x l2 :
  dll m hd (l1 ++ x :: l2) →
  list_prev m x = last_from hd l1 ∧ list_next m x = first_or hd l2.
Proof.
  intros [Hc _]. apply chain_app in Hc as [Hc1 Hc2].
  by rewrite (chain_last _ _ _ _ Hc1), (chain_first _ _ _ _ Hc2).
Qed.

Lemma nodes_ok_middle hd l1 x l2 :
  nodes_ok (hd :: l1 ++ x :: l2) → nodes_ok (x :: hd :: l1 ++ l2).
Proof.
  apply nodes_ok_perm. symmetry. apply (Permutation_middle (hd :: l1) l2 x).
Qed.

(** [list_rem(item)] unlinks [item] and leaves it pointing to itself. *)
Lemma list_rem_spec m hd l1 x l2 :
  dll m hd (l1 ++ x :: l2) → dll (list_rem m x) hd (l1 ++ l2) ∧ lonely (list_rem m x) x.
Proof.
  intros Hdll. unfold list_rem.
  destruct (dll_neighbours m hd l1 x l2 Hdll) as [-> ->]. destruct Hdll as [Hc Hok0].
  pose proof (nodes_ok_middle _ _ _ _ Hok0) as Hok.
  set (p := last_from hd l1). set (n := first_or hd l2).
  assert (Hp : p ∈ hd :: l1) by apply last_from_elem.
  assert (Hn : n ∈ l2 ++ [hd]) by apply first_or_elem.
  pose proof (proj1 Hok) as Hnd. apply NoDup_cons in Hnd as [Hx Hnd].
  destruct (gap_nodup hd l1 l2 Hnd) as [Hnd1 Hnd2].
  apply chain_app in Hc as [Hc1 Hc2].
  set (m' := INIT_LIST (_list_rem m p n) x).
  assert (Hnext : ∀ a, a ∈ x :: hd :: l1 ++ l2 → list_next m' a =
     if decide (a = x) then x else if decide (a = p) then n else list_next m a).
  { intros a Ha. eapply list_rem_next; [exact Hok|..]; set_solver. }
  assert (Hprev : ∀ a, a ∈ x :: hd :: l1 ++ l2 → list_prev m' a =
     if decide (a = x) then x else if decide (a = n) then p else list_prev m a).
  { intros a Ha. eapply list_rem_prev; [exact Hok|..]; set_solver. }
  assert (Hpn : linked m' p n).
  { split; [rewrite Hnext, decide_False, decide_True by set_solver|
            rewrite Hprev, decide_False, decide_True by set_solver]; done. }
  assert (Hfront : chain m' hd l1 n).
  { apply (chain_relink_end m m' hd l1 x n); [done| | |done|done].
    - intros a Ha Hne. rewrite Hnext, !decide_False by set_solver. done.
    - intros a Ha. rewrite Hprev, !decide_False; [done|by eapply gap_succ|set_solver|set_solver]. }
  assert (Hback : chain m' p l2 hd).
  { apply (chain_relink_start m m' x l2 hd p); [done| | |done|done].
    - intros a Ha. rewrite Hnext, !decide_False; [done|by eapply gap_pred|set_solver|set_solver].
    - intros a Ha Hne. rewrite Hprev, !decide_False by set_solver. done. }
  split; [split|].
  - destruct l2 as [|y l2]; [by rewrite app_nil_r|].
    apply chain_app. split; [exact Hfront|apply Hback].
  - by eapply nodes_ok_tail.
  - split; [rewrite Hnext|rewrite Hprev]; rewrite ?decide_True by done; set_solver.
Qed.

(** ** Ordered insertion *)

(** Insert in front of the first element whose key is at least [key x]. *)
Fixpoint insert_ordered (key : Z → Z) (x : Z) (xs : list Z) : list Z :=
  match xs with
  | [] => [x]
  | y :: xs => if key x <=? key y then x :: y :: xs else y :: insert_ordered key x xs
  end.

Lemma insert_ordered_perm key x xs : insert_ordered key x xs ≡ₚ x :: xs.
Proof.
  induction xs as [|y xs IH]; simpl; [done|]. case_if; [done|].
  rewrite IH. apply Permutation_swap.
Qed.

(** The loop compares with [cmp], which must order the nodes by [key] as
    long as only the list's own nodes are touched. *)
Lemma add_ordered_loop_spec cmp key fuel m hd l1 l2 x :
  dll m hd (l1 ++ l2) → nodes_ok (x :: hd :: l1 ++ l2) →
  (∀ y, y ∈ l2 → (cmp m x y <=? 0) = (key x <=? key y)) →
  (length l2 < fuel)%nat →
  ∃ m', add_ordered_loop fuel cmp m x hd (first_or hd l2) = Some m'
    ∧ dll m' hd (l1 ++ insert_ordered key x l2)
    ∧ frame (in_nodes (x :: hd :: l1 ++ l2)) m m'.
Proof.
  revert l1 l2. induction fuel as [|fuel IH]; intros l1 l2 Hd Hok Hcmp Hf; [lia|].
  destruct l2 as [|y l2]; simpl.
  - change (first_or hd []) with hd. rewrite Z.eqb_refl. eexists. split; [done|].
    rewrite app_nil_r in *. split; [by apply list_add_tail_spec|].
    unfold list_add_before. rewrite (chain_last m hd l1 hd) by apply Hd.
    eapply frame_weaken; [|apply _list_add_frame]. intros a. apply in_nodes_mono.
    pose proof (last_from_elem hd l1). set_solver.
  - change (first_or hd (y :: l2)) with y.
    assert (y ≠ hd) as Hne.
    { pose proof (dll_nodup _ _ _ Hd) as Hnd. apply NoDup_cons in Hnd as [? _]. set_solver. }
    rewrite (proj2 (Z.eqb_neq y hd) Hne), Hcmp by set_solver.
    destruct (key x <=? key y) eqn:E.
    + eexists. split; [done|]. split; [by apply list_add_before_spec|].
      pose proof (proj1 (dll_neighbours _ _ _ _ _ Hd)) as Hp.
      unfold list_add_before. rewrite Hp.
      eapply frame_weaken; [|apply _list_add_frame]. intros a. apply in_nodes_mono.
      pose proof (last_from_elem hd l1). set_solver.
    + rewrite (proj2 (dll_neighbours _ _ _ _ _ Hd)).
      rewrite (cons_middle y l1 l2) in *. rewrite (app_assoc l1 [y] l2) in *.
      destruct (IH (l1 ++ [y]) l2) as (m' & Hm' & Hdll & HF);
        [done|done|intros z Hz; apply Hcmp; set_solver|simpl in Hf; lia|].
      exists m'. split; [done|]. rewrite <- app_assoc in Hdll. done.
Qed.

(** [list_add_ordered] inserts before the first element not smaller. *)
Lemma list_add_ordered_spec cmp key fuel m hd xs x :
  dll m hd xs → nodes_ok (x :: hd :: xs) →
  (∀ y, y ∈ xs → (cmp m x y <=? 0) = (key x <=? key y)) →
  (length xs < fuel)%nat →
  ∃ m', list_add_ordered fuel cmp m x hd = Some m'
    ∧ dll m' hd (insert_ordered key x xs)
    ∧ frame (in_nodes (x :: hd :: xs)) m m'.
Proof.
  intros Hd Hok Hcmp Hf. unfold list_add_ordered.
  rewrite (list_empty_spec m hd xs Hd). case_bool_decide as Hxs.
  - subst xs. eexists. split; [done|]. split; [by apply list_add_spec|].
    unfold list_add. rewrite (chain_first m hd [] hd) by apply Hd.
    eapply frame_weaken; [|apply _list_add_frame]. intros a. apply in_nodes_mono.
    change (first_or hd []) with hd. set_solver.
  - rewrite (chain_first m hd xs hd) by apply Hd.
    by apply (add_ordered_loop_spec cmp key fuel m hd [] xs x).
Qed.

(** Insertion keeps a list sorted by key. *)
Lemma insert_ordered_sorted key x xs :
  StronglySorted (λ a b, key a <= key b) xs →
  StronglySorted (λ a b, key a <= key b) (insert_ordered key x xs).
Proof.
  induction 1 as [|y xs Hs IH Hall]; simpl; [repeat constructor|].
  case_if.
  - constructor; [by constructor|]. constructor; [done|].
    eapply Forall_impl; [exact Hall|]. simpl. intros; lia.
  - constructor; [done|]. rewrite insert_ordered_perm. constructor; [lia|done].
Qed.

(** * What users of lists rely on *)

(** The operations users apply to a list head. *)
Inductive list_op : Set :=
  | PushFront (x : Z)    (* list_add(x, head) *)
  | PushBack (x : Z)     (* list_add_before(x, head) *)
  | Remove (x : Z).      (* list_rem(x) *)

Definition run_op (hd : Z) (m : mem) (op : list_op) : mem :=
  match op with
  | PushFront x => list_add m x hd
  | PushBack x => list_add_before m x hd
  | Remove x => list_rem m x
  end.

(** The sequence the list should hold afterwards; [None] when the operation
    is not allowed (the node is not fresh, or not on the list). *)
Definition seq_op (hd : Z) (xs : list Z) (op : list_op) : option (list Z) :=
  match op with
  | PushFront x => if bool_decide (0 <= x ∧ x + 8 <= 4294967296 ∧ Forall (far x) (hd :: xs))
                   then Some (x :: xs) else None
  | PushBack x => if bool_decide (0 <= x ∧ x + 8 <= 4294967296 ∧ Forall (far x) (hd :: xs))
                  then Some (xs ++ [x]) else None
  | Remove x => if bool_decide (x ∈ xs) then Some (filter (λ y, y ≠ x) xs) else None
  end.

Fixpoint seq_ops (hd : Z) (xs : list Z) (ops : list list_op) : option (list Z) :=
  match ops with
  | [] => Some xs
  | op :: ops => xs ← seq_op hd xs op; seq_ops hd xs ops
  end.

Lemma fresh_node hd xs x :
  nodes_ok (hd :: xs) → 0 <= x ∧ x + 8 <= 4294967296 ∧ Forall (far x) (hd :: xs) →
  nodes_ok (x :: hd :: xs).
Proof.
  intros Hok (H0 & H1 & HF). apply nodes_ok_cons; [done..|]. intros n Hn.
  rewrite Forall_forall in HF. by apply HF.
Qed.

Lemma filter_remove (l1 : list Z) x l2 :
  NoDup (l1 ++ x :: l2) → filter (λ y, y ≠ x) (l1 ++ x :: l2) = l1 ++ l2.
Proof.
  intros (_ & Hd & Hx)%NoDup_app. apply NoDup_cons in Hx as [Hx _].
  assert (Hid : ∀ l : list Z, x ∉ l → filter (λ y, y ≠ x) l = l).
  { induction l as [|y l IH]; intros Hn; [done|].
    rewrite filter_cons_True by set_solver. f_equal. apply IH. set_solver. }
  rewrite filter_app, filter_cons_False, !Hid by set_solver. done.
Qed.

Lemma run_op_dll hd m xs op xs' :
  dll m hd xs → seq_op hd xs op = Some xs' → dll (run_op hd m op) hd xs'.
Proof.
  intros Hd Hop. pose proof (proj2 Hd) as Hok. destruct op as [x|x|x]; simpl in *;
    case_bool_decide as Hx; simplify_eq.
  - by apply list_add_spec, fresh_node.
  - by apply list_add_tail_spec, fresh_node.
  - apply list_elem_of_split in Hx as (l1 & l2 & ->).
    rewrite filter_remove by (by destruct Hok as [[_ ?]%NoDup_cons _]).
    by apply list_rem_spec.
Qed.

(** C19: the intrusive circular lists implement sequences: starting from an
    initialised head, any run of [list_add], [list_add_before] and [list_rem]
    on nodes that do not overlap leaves a doubly linked circle that, followed
    in either direction, holds exactly the sequence of the nodes. *)
Theorem list_ops_refine hd m ops xs :
  0 <= hd → hd + 8 <= 4294967296 → seq_ops hd [] ops = Some xs →
  dll (foldl (run_op hd) (INIT_LIST m hd) ops) hd xs.
Proof.
  intros H0 H1. pose proof (INIT_LIST_empty m hd H0 H1) as Hd. revert Hd.
  generalize (INIT_LIST m hd) as m0, (@nil Z) as ys.
  induction ops as [|op ops IH]; intros m0 ys Hd Hops; simpl in *; [by simplify_eq|].
  destruct (seq_op hd ys op) as [zs|] eqn:Hop; [|done]. simpl in Hops.
  apply (IH _ zs); [|done]. by eapply run_op_dll.
Qed.

Lemma list_ops_refine_witness :
  dll (foldl (run_op 1000) (INIT_LIST ∅ 1000)
         [PushFront 16; PushBack 32; PushFront 64; Remove 16]) 1000 [64; 32].
Proof. apply list_ops_refine; [lia|lia|vm_compute; reflexivity]. Defined.

(** [list_add_ordered] on a sorted list returns (it visits each node at
    most once), links the new node in without losing another, and leaves the
    list sorted; it writes only the nodes of the list. *)
Theorem list_add_ordered_sorted cmp key fuel m hd xs x :
  dll m hd xs → nodes_ok (x :: hd :: xs) →
  (∀ y, y ∈ xs → (cmp m x y <=? 0) = (key x <=? key y)) →
  StronglySorted (λ a b, key a <= key b) xs → (length xs < fuel)%nat →
  ∃ m' ys, list_add_ordered fuel cmp m x hd = Some m' ∧ dll m' hd ys
    ∧ ys ≡ₚ x :: xs ∧ StronglySorted (λ a b, key a <= key b) ys
    ∧ frame (in_nodes (x :: hd :: xs)) m m'.
Proof.
  intros Hd Hok Hcmp Hs Hf.
  destruct (list_add_ordered_spec cmp key fuel m hd xs x Hd Hok Hcmp Hf) as (m' & Hm' & Hd' & HF).
  exists m', (insert_ordered key x xs). split; [done|]. split; [done|].
  split; [apply insert_ordered_perm|]. split; [by apply insert_ordered_sorted|done].
Qed.

Lemma list_add_ordered_sorted_witness :
  ∃ m' ys, list_add_ordered 5 (λ _ a b, a - b) (list_add (INIT_LIST ∅ 1000) 64 1000) 32 1000 = Some m'
    ∧ dll m' 1000 ys ∧ ys ≡ₚ [32; 64].
Proof.
  assert (Hok : nodes_ok [64; 1000]).
  { apply nodes_ok_cons; [apply INIT_LIST_empty with (m := ∅); lia|lia|lia|].
    intros n ->%list_elem_of_singleton. left. lia. }
  destruct (list_add_ordered_sorted (λ _ a b, a - b) (λ x, x) 5
    (list_add (INIT_LIST ∅ 1000) 64 1000) 1000 [64] 32) as (m' & ys & H1 & H2 & H3 & _).
  - apply list_add_spec; [apply INIT_LIST_empty; lia|done].
  - apply nodes_ok_cons; [by eapply nodes_ok_perm; [apply Permutation_swap|]|lia|lia|].
    intros n Hn. left. apply elem_of_cons in Hn as [->|Hn]; [lia|].
    apply list_elem_of_singleton in Hn as ->. lia.
  - intros y ->%list_elem_of_singleton. reflexivity.
  - repeat constructor.
  - simpl. lia.
  - exists m', ys. auto.
Defined.
