(* ===== verification/Pmm.v ===== *)
(** Physical frame allocator: [src/kernel/src/pmm.c].

    [physical_frame] is a bitmap with one bit per 4 KiB frame, stored in
    32-bit words; [page_t] is the page table entry of [paging.h].  A halted
    machine ([cli; hlt] followed by an endless loop) is [None].  The unused
    stack allocator ([push_frame]/[pop_frame]) is modelled in its own
    module. *)

From S2P Require Import Prelude.

(** * State *)

Record pmm := mk_pmm {
  physical_frame : list Z;      (* the bitmap words *)
  physical_frame_count : Z;     (* number of frames *)
}.

Record page_t := mk_page {
  pg_present : Z;
  pg_rw : Z;
  pg_user : Z;
  pg_accessed : Z;
  pg_dirty : Z;
  pg_unused : Z;
  pg_frame : Z;
}.

Definition page_zero : page_t := mk_page 0 0 0 0 0 0 0.

#[global] Instance page_t_eq_dec : EqDecision page_t.
Proof. solve_decision. Defined.

(** * Operations *)

(** The inner loop over the bits [m .. m + n - 1] of word [i]. *)
Fixpoint scan_bits (w i m : Z) (n : nat) : option Z :=
  match n with
  | O => None
  | S n =>
      if (i =? 0) && (m =? 0) then scan_bits w i (m + 1) n
      else if Z.land w (Z.shiftl 1 m) =? 0 then Some (u32 (i * 32 + m))
      else scan_bits w i (m + 1) n
  end.

(** The outer loop over the bitmap words from index [i]. *)
Fixpoint scan_words (ws : list Z) (i : Z) : option Z :=
  match ws with
  | [] => None
  | w :: ws =>
      if w =? 4294967295 then scan_words ws (i + 1)
      else match scan_bits w i 0 32 with
           | Some r => Some r
           | None => scan_words ws (i + 1)
           end
  end.

Definition NO_FRAME : Z := 4294967295.   (* (u32)-1 *)

Definition find_free_frame (p : pmm) : Z :=
  default NO_FRAME
    (scan_words (take (Z.to_nat (physical_frame_count p / 32)) (physical_frame p)) 0).

Definition set_words (p : pmm) (ws : list Z) : pmm := mk_pmm ws (physical_frame_count p).

(** [physical_frame[(int)(idx/32)] |= (u32)(1 << (idx % 32))] *)
Definition reserve_frame (p : pmm) (idx : Z) : pmm :=
  set_words p
    (alter (λ w, Z.lor w (Z.shiftl 1 (idx mod 32))) (Z.to_nat (idx / 32)) (physical_frame p)).

(** [physical_frame[(int)(idx/32)] &= (u32)(~(1 << (idx % 32)))] *)
Definition release_frame (p : pmm) (idx : Z) : pmm :=
  set_words p
    (alter (λ w, Z.land w (u32 (Z.lnot (Z.shiftl 1 (idx mod 32)))))
       (Z.to_nat (idx / 32)) (physical_frame p)).

(** [user ? 1 : 0] *)
Definition flag (v : Z) : Z := if v =? 0 then 0 else 1.

Definition alloc_frame (p : pmm) (page : page_t) (user rw : Z) : option (pmm * page_t) :=
  if negb (pg_present page =? 0) then None
  else
    let idx := find_free_frame p in
    if idx =? NO_FRAME then None
    else
      let p := reserve_frame p idx in
      Some (p, mk_page 1 (flag rw) (flag user) (pg_accessed page) (pg_dirty page)
                 (pg_unused page) (Z.land idx 1048575)).

Definition clone_frame (dst src : page_t) : page_t :=
  mk_page 1 (pg_rw src) (pg_user src) (pg_accessed dst) (pg_dirty dst) (pg_unused dst)
    (pg_frame src).

Definition free_frame (p : pmm) (page : page_t) : pmm * page_t :=
  if (pg_present page =? 0) || (pg_frame page =? 0) then (p, page)
  else
    (release_frame p (pg_frame page),
     mk_page 0 (pg_rw page) (pg_user page) (pg_accessed page) (pg_dirty page)
       (pg_unused page) 0).

(** The stack of free frames that predates the bitmap: 16-bit frame numbers
    below [phys_stack + phys_stack_size], addressed in bytes. *)
Module FrameStack.

Record stack := mk_stack {
  phys_stack : Z;                (* base address *)
  phys_stack_size : Z;           (* bytes *)
  phys_stack_ptr : Z;            (* current top *)
  cells : gmap Z Z;              (* the 16-bit cell stored at an address *)
}.

Definition push_frame (s : stack) (frame : Z) : option stack :=
  if phys_stack_ptr s =? phys_stack s then None
  else
    let ptr := phys_stack_ptr s - 2 in
    Some (mk_stack (phys_stack s) (phys_stack_size s) ptr
            (<[ptr := u16 (frame / 4096)]> (cells s))).

Definition pop_frame (s : stack) : option (stack * Z) :=
  if phys_stack_ptr s =? u32 (phys_stack s + phys_stack_size s) then None
  else
    Some (mk_stack (phys_stack s) (phys_stack_size s) (phys_stack_ptr s + 2) (cells s),
          u32 (default 0 (cells s !! phys_stack_ptr s) * 4096)).

(** Popping returns the frame just pushed, as long as it is page aligned and
    its number fits the 16-bit cell (memory below 256 MiB). *)
Lemma push_pop s s' frame :
  frame mod 4096 = 0 → 0 <= frame < 268435456 →
  phys_stack s + phys_stack_size s < 4294967296 → 0 <= phys_stack s →
  phys_stack_ptr s <= phys_stack s + phys_stack_size s →
  0 <= phys_stack_size s →
  push_frame s frame = Some s' →
  ∃ s'', pop_frame s' = Some (s'', frame) ∧ phys_stack_ptr s'' = phys_stack_ptr s.
Proof.
  intros Hal Hfr Hend Hb Hptr Hsz. unfold push_frame, pop_frame. case_if; [done|].
  intros [= <-]. simpl. u32s.
  replace (phys_stack_ptr s - 2 =? phys_stack s + phys_stack_size s) with false by lia.
  rewrite lookup_insert_eq. simpl.
  pose proof (Z.div_mod frame 4096 ltac:(lia)).
  rewrite u16_small by (split; [apply Z.div_pos; lia|apply Z.div_lt_upper_bound; lia]).
  rewrite u32_small by lia.
  eexists. split; [f_equal; f_equal; lia|simpl; lia].
Qed.

End FrameStack.

(** * Specification *)

(** Bit [idx] of the bitmap. *)
Definition frame_used (p : pmm) (idx : Z) : bool :=
  match physical_frame p !! Z.to_nat (idx / 32) with
  | Some w => Z.testbit w (idx mod 32)
  | None => true
  end.

(** The bitmap has one 32-bit word per 32 frames and the frame numbers fit
    the 20-bit field of a page table entry. *)
Definition pmm_ok (p : pmm) : Prop :=
  0 <= physical_frame_count p <= 1048576
  ∧ length (physical_frame p) = Z.to_nat (physical_frame_count p / 32)
  ∧ Forall (λ w, 0 <= w < 4294967296) (physical_frame p).

(** Frames the scan covers. *)
Definition n_frames (p : pmm) : Z := 32 * (physical_frame_count p / 32).

(** ** The scan *)

Lemma scan_bits_some n w i m r :
  0 <= i → 0 <= m → m + Z.of_nat n <= 32 → i * 32 + 32 <= 4294967296 →
  scan_bits w i m n = Some r →
  ∃ b, r = i * 32 + b ∧ m <= b < m + Z.of_nat n ∧ Z.testbit w b = false ∧ r ≠ 0
    ∧ ∀ c, m <= c < b → i * 32 + c ≠ 0 → Z.testbit w c = true.
Proof.
  revert m. induction n as [|n IH]; intros m Hi Hm Hn Hr; simpl; [done|].
  rewrite land_shiftl1_testbit by lia.
  destruct ((i =? 0) && (m =? 0)) eqn:E0; [|destruct (negb (Z.testbit w m)) eqn:Eb]; intros HS.
  - apply IH in HS as (b & -> & Hb & Hf & Hne & Hc); try lia.
    exists b. zbool. repeat split; try lia; [done|].
    intros c Hcb Hz. apply Hc; lia.
  - injection HS as <-. exists m. zbool. u32s. repeat split; try lia; done.
  - apply IH in HS as (b & -> & Hb & Hf & Hne & Hc); try lia.
    exists b. zbool. repeat split; try lia; [done|].
    intros c Hcb Hz. destruct (decide (c = m)) as [->|]; [done|apply Hc; lia].
Qed.

Lemma scan_bits_none n w i m :
  0 <= m → scan_bits w i m n = None →
  ∀ c, m <= c < m + Z.of_nat n → i * 32 + c ≠ 0 → 0 <= i → Z.testbit w c = true.
Proof.
  revert m. induction n as [|n IH]; intros m Hm; simpl; [lia|].
  rewrite land_shiftl1_testbit by lia.
  destruct ((i =? 0) && (m =? 0)) eqn:E0; [|destruct (negb (Z.testbit w m)) eqn:Eb];
    intros HS c Hc Hz Hi; zbool; [| |]; try done.
  - apply (IH (m + 1)); try lia. done.
  - destruct (decide (c = m)) as [->|]; [done|]. apply (IH (m + 1)); try lia. done.
Qed.

#[global] Arguments scan_bits : simpl never.

(** Bit [idx] of a word list whose first word has index [i]. *)
Definition word_bit (ws : list Z) (i idx : Z) : bool :=
  match ws !! Z.to_nat (idx / 32 - i) with
  | Some w => Z.testbit w (idx mod 32)
  | None => true
  end.

Lemma word_bit_cons_hd w ws i b :
  0 <= b < 32 → word_bit (w :: ws) i (i * 32 + b) = Z.testbit w b.
Proof.
  intros Hb. unfold word_bit.
  replace ((i * 32 + b) / 32) with i by (rewrite Z.div_add_l, Z.div_small; lia).
  rewrite Z.sub_diag. simpl.
  replace ((i * 32 + b) mod 32) with b; [done|].
  rewrite Z.add_comm, Z.mod_add, Z.mod_small; lia.
Qed.

Lemma word_bit_cons_tl w ws i idx :
  i < idx / 32 → word_bit (w :: ws) i idx = word_bit ws (i + 1) idx.
Proof.
  intros H. unfold word_bit.
  replace (Z.to_nat (idx / 32 - i)) with (S (Z.to_nat (idx / 32 - (i + 1)))) by lia.
  done.
Qed.

(** The scan finds the least free frame other than frame 0. *)
Lemma scan_words_some ws i r :
  0 <= i → Forall (λ w, 0 <= w < 4294967296) ws →
  (i + Z.of_nat (length ws)) * 32 <= 4294967296 →
  scan_words ws i = Some r →
  i * 32 <= r < (i + Z.of_nat (length ws)) * 32 ∧ r ≠ 0 ∧ word_bit ws i r = false
  ∧ ∀ k, i * 32 <= k < r → k ≠ 0 → word_bit ws i k = true.
Proof.
  revert i. induction ws as [|w ws IH]; intros i Hi HF Hlen; simpl; [done|].
  apply Forall_cons in HF as [Hw HF]. simpl in Hlen.
  assert (Hrest : scan_words ws (i + 1) = Some r →
    (∀ b, 0 <= b < 32 → i * 32 + b ≠ 0 → Z.testbit w b = true) →
    i * 32 <= r < (i + Z.of_nat (S (length ws))) * 32 ∧ r ≠ 0 ∧ word_bit (w :: ws) i r = false
    ∧ ∀ k, i * 32 <= k < r → k ≠ 0 → word_bit (w :: ws) i k = true).
  { intros HS Hall. apply IH in HS as (Hr & Hne & Hf & Hk); try done; try lia.
    assert (i < r / 32) by (apply Z.lt_le_trans with (i + 1); [lia|apply Z.div_le_lower_bound; lia]).
    rewrite word_bit_cons_tl by lia. repeat split; try lia; [done|].
    intros k Hkr Hk0. destruct (decide (k < (i + 1) * 32)) as [Hlt|Hge].
    - replace k with (i * 32 + (k - i * 32)) by lia.
      rewrite word_bit_cons_hd by lia. apply Hall; lia.
    - rewrite word_bit_cons_tl; [apply Hk; lia|].
      apply Z.lt_le_trans with (i + 1); [lia|apply Z.div_le_lower_bound; lia]. }
  case_if.
  - intros HS. apply Hrest; [done|]. subst w. intros b Hb _.
    change 4294967295 with (Z.ones 32). apply Z.ones_spec_low. lia.
  - destruct (scan_bits w i 0 32) as [r'|] eqn:E; intros HS.
    + injection HS as <-. apply scan_bits_some in E as (b & -> & Hb & Hf & Hne & Hc); try lia.
      rewrite word_bit_cons_hd by lia. repeat split; try lia; [done|].
      intros k Hk Hk0. replace k with (i * 32 + (k - i * 32)) by lia.
      rewrite word_bit_cons_hd by lia. apply Hc; lia.
    + apply Hrest; [done|]. intros b Hb Hb0. eapply scan_bits_none; [|exact E|..]; lia.
Qed.

Lemma scan_words_none ws i :
  0 <= i → scan_words ws i = None →
  ∀ k, i * 32 <= k < (i + Z.of_nat (length ws)) * 32 → k ≠ 0 → word_bit ws i k = true.
Proof.
  revert i. induction ws as [|w ws IH]; intros i Hi; simpl; [lia|].
  intros HS k Hk Hk0.
  assert (scan_words ws (i + 1) = None ∧ ∀ b, 0 <= b < 32 → i * 32 + b ≠ 0 → Z.testbit w b = true)
    as [HS' Hall].
  { case_if_in HS.
    - split; [done|]. subst w. intros b Hb _.
      change 4294967295 with (Z.ones 32). apply Z.ones_spec_low. lia.
    - destruct (scan_bits w i 0 32) eqn:E; [done|]. split; [done|].
      intros b Hb Hb0. eapply scan_bits_none; [|exact E|..]; lia. }
  destruct (decide (k < (i + 1) * 32)) as [Hlt|Hge].
  - replace k with (i * 32 + (k - i * 32)) by lia.
    rewrite word_bit_cons_hd by lia. apply Hall; lia.
  - rewrite word_bit_cons_tl; [apply IH; try lia; done|].
    apply Z.lt_le_trans with (i + 1); [lia|apply Z.div_le_lower_bound; lia].
Qed.

(** ** Single operations *)

Lemma frame_used_word_bit p idx : frame_used p idx = word_bit (physical_frame p) 0 idx.
Proof. unfold frame_used, word_bit. by rewrite Z.sub_0_r. Qed.

Lemma pmm_ok_take p :
  pmm_ok p → take (Z.to_nat (physical_frame_count p / 32)) (physical_frame p) = physical_frame p.
Proof. intros (_ & Hlen & _). apply take_ge. lia. Qed.

Lemma pmm_ok_len p : pmm_ok p → Z.of_nat (length (physical_frame p)) * 32 = n_frames p.
Proof.
  intros ([H0 H1] & Hlen & _). unfold n_frames. rewrite Hlen.
  rewrite Z2Nat.id by (apply Z.div_pos; lia). lia.
Qed.

Lemma n_frames_bound p : pmm_ok p → 0 <= n_frames p <= 1048576.
Proof.
  intros ([H0 H1] & _ & _). unfold n_frames.
  pose proof (Z.mul_div_le (physical_frame_count p) 32 ltac:(lia)).
  pose proof (Z.div_pos (physical_frame_count p) 32 H0 ltac:(lia)). lia.
Qed.

Lemma find_free_frame_some p :
  pmm_ok p → find_free_frame p ≠ NO_FRAME →
  0 < find_free_frame p < n_frames p ∧ frame_used p (find_free_frame p) = false
  ∧ ∀ k, 0 < k < find_free_frame p → frame_used p k = true.
Proof.
  intros Hok. pose proof (pmm_ok_len p Hok). pose proof (n_frames_bound p Hok).
  unfold find_free_frame. rewrite pmm_ok_take by done.
  destruct (scan_words (physical_frame p) 0) as [r|] eqn:E; simpl; [|done].
  intros _. apply scan_words_some in E as (Hr & Hne & Hf & Hk); [|lia|apply Hok|lia].
  repeat split; try lia; [by rewrite frame_used_word_bit|].
  intros k Hkr. rewrite frame_used_word_bit. apply Hk; lia.
Qed.

Lemma find_free_frame_none p :
  pmm_ok p → find_free_frame p = NO_FRAME →
  ∀ k, 0 < k < n_frames p → frame_used p k = true.
Proof.
  intros Hok Hnone k Hk. pose proof (pmm_ok_len p Hok). pose proof (n_frames_bound p Hok).
  unfold find_free_frame in Hnone. rewrite pmm_ok_take in Hnone by done.
  destruct (scan_words (physical_frame p) 0) as [r|] eqn:E; simpl in Hnone.
  - apply scan_words_some in E as (Hr & _); [|lia|apply Hok|lia]. unfold NO_FRAME in *. lia.
  - rewrite frame_used_word_bit. apply scan_words_none; try done; lia.
Qed.

Lemma lookup_frame_word p idx :
  pmm_ok p → 0 <= idx < n_frames p →
  ∃ w, physical_frame p !! Z.to_nat (idx / 32) = Some w ∧ 0 <= w < 4294967296.
Proof.
  intros Hok Hidx. pose proof (pmm_ok_len p Hok).
  destruct (lookup_lt_is_Some_2 (physical_frame p) (Z.to_nat (idx / 32))) as [w Hw].
  - apply Nat2Z.inj_lt. rewrite Z2Nat.id by (apply Z.div_pos; lia).
    apply Z.div_lt_upper_bound; lia.
  - exists w. split; [done|]. destruct Hok as (_ & _ & HF).
    by apply (Forall_lookup_1 _ _ _ _ HF Hw).
Qed.

Lemma set_bit_range w i : 0 <= w < 4294967296 → 0 <= i < 32 →
  0 <= Z.lor w (Z.shiftl 1 i) < 4294967296.
Proof.
  intros Hw Hi.
  assert (Z.lor w (Z.shiftl 1 i) = u32 (Z.lor w (Z.shiftl 1 i))) as ->; [|apply u32_range].
  apply Z.bits_inj'. intros j Hj. rewrite testbit_u32, testbit_set by lia.
  destruct (Z.ltb_spec j 32); [by rewrite andb_true_r|].
  replace (i =? j) with false by lia.
  rewrite <- (u32_small w) at 1 by lia. rewrite testbit_u32 by lia.
  replace (j <? 32) with false by lia. by rewrite !andb_false_r.
Qed.

Lemma clear_bit_range w x : 0 <= w < 4294967296 → 0 <= Z.land w (u32 x) < 4294967296.
Proof.
  intros Hw. pose proof (u32_range x).
  assert (Z.land w (u32 x) = u32 (Z.land w (u32 x))) as ->; [|apply u32_range].
  apply Z.bits_inj'. intros j Hj. rewrite testbit_u32, Z.land_spec, testbit_u32 by lia.
  destruct (j <? 32); by rewrite ?andb_true_r, ?andb_false_r.
Qed.

(** The word holding frame [j], with bit [j] of frame [i]'s word changed. *)
Lemma same_frame_word i j : 0 <= i → 0 <= j → i / 32 = j / 32 → (i mod 32 =? j mod 32) = (i =? j).
Proof.
  intros Hi Hj Hd. pose proof (Z.div_mod i 32 ltac:(lia)). pose proof (Z.div_mod j 32 ltac:(lia)).
  destruct (Z.eqb_spec (i mod 32) (j mod 32)), (Z.eqb_spec i j); lia || (subst; lia).
Qed.

Lemma frame_used_alter p f i j :
  0 <= i → 0 <= j →
  frame_used (set_words p (alter f (Z.to_nat (i / 32)) (physical_frame p))) j =
  if i / 32 =? j / 32 then
    match physical_frame p !! Z.to_nat (j / 32) with
    | Some w => Z.testbit (f w) (j mod 32)
    | None => true
    end
  else frame_used p j.
Proof.
  intros Hi Hj. unfold frame_used, set_words. simpl.
  pose proof (Z.div_pos i 32 Hi ltac:(lia)). pose proof (Z.div_pos j 32 Hj ltac:(lia)).
  destruct (Z.eqb_spec (i / 32) (j / 32)) as [->|Hne].
  - rewrite list_lookup_alter_eq. by destruct (physical_frame p !! _).
  - rewrite list_lookup_alter_ne by lia. done.
Qed.

Lemma reserve_frame_used p i j :
  pmm_ok p → 0 <= i < n_frames p → 0 <= j →
  frame_used (reserve_frame p i) j = frame_used p j || (i =? j).
Proof.
  intros Hok Hi Hj. unfold reserve_frame. rewrite frame_used_alter by lia.
  pose proof (Z.mod_pos_bound i 32 ltac:(lia)). pose proof (Z.mod_pos_bound j 32 ltac:(lia)).
  destruct (Z.eqb_spec (i / 32) (j / 32)) as [Heq|Hne].
  - unfold frame_used. destruct (physical_frame p !! Z.to_nat (j / 32)); [|done].
    rewrite testbit_set by lia. f_equal. by apply same_frame_word; lia.
  - replace (i =? j) with false; [by rewrite orb_false_r|].
    symmetry. apply Z.eqb_neq. intros ->. done.
Qed.

Lemma release_frame_used p i j :
  pmm_ok p → 0 <= i < n_frames p → 0 <= j < n_frames p →
  frame_used (release_frame p i) j = frame_used p j && negb (i =? j).
Proof.
  intros Hok Hi Hj. unfold release_frame. rewrite frame_used_alter by lia.
  pose proof (Z.mod_pos_bound i 32 ltac:(lia)). pose proof (Z.mod_pos_bound j 32 ltac:(lia)).
  destruct (Z.eqb_spec (i / 32) (j / 32)) as [Heq|Hne].
  - destruct (lookup_frame_word p j Hok Hj) as (w & Hw & _).
    unfold frame_used. rewrite Hw, Z.land_spec, testbit_u32 by lia.
    replace (j mod 32 <? 32) with true by lia. rewrite andb_true_r, <- Z.land_spec.
    rewrite testbit_clear by lia. f_equal. f_equal. by apply same_frame_word; lia.
  - replace (i =? j) with false; [by rewrite andb_true_r|].
    symmetry. apply Z.eqb_neq. intros ->. done.
Qed.

Lemma pmm_ok_alter p f i :
  pmm_ok p → (∀ w, 0 <= w < 4294967296 → 0 <= f w < 4294967296) →
  pmm_ok (set_words p (alter f i (physical_frame p))).
Proof.
  intros (Hc & Hlen & HF) Hf. split; [done|]. simpl. rewrite length_alter. split; [done|].
  apply Forall_alter; [done|]. intros w _. by apply Hf.
Qed.

Lemma reserve_frame_ok p i : pmm_ok p → pmm_ok (reserve_frame p i).
Proof.
  intros Hok. apply pmm_ok_alter; [done|]. intros w Hw. apply set_bit_range; [done|].
  apply Z.mod_pos_bound. lia.
Qed.

Lemma release_frame_ok p i : pmm_ok p → pmm_ok (release_frame p i).
Proof. intros Hok. apply pmm_ok_alter; [done|]. intros w Hw. by apply clear_bit_range. Qed.

Lemma land_frame_field idx : 0 <= idx < 1048576 → Z.land idx 1048575 = idx.
Proof.
  intros H. change 1048575 with (Z.ones 20). rewrite Z.land_ones by lia.
  apply Z.mod_small. change (2 ^ 20) with 1048576. lia.
Qed.

(** What a successful [alloc_frame] does to the bitmap and to the entry. *)
Lemma alloc_frame_spec p page user rw p' page' :
  pmm_ok p → alloc_frame p page user rw = Some (p', page') →
  let f := pg_frame page' in
  pmm_ok p' ∧ n_frames p' = n_frames p ∧ 0 < f < n_frames p ∧ frame_used p f = false
  ∧ (∀ k, 0 < k < f → frame_used p k = true)
  ∧ (∀ k, 0 <= k → frame_used p' k = frame_used p k || (f =? k))
  ∧ pg_present page = 0 ∧ pg_present page' = 1
  ∧ pg_user page' = flag user ∧ pg_rw page' = flag rw.
Proof.
  intros Hok. unfold alloc_frame. case_if; [done|]. case_if; [done|].
  intros [= <- <-]. simpl.
  destruct (find_free_frame_some p Hok) as (Hr & Hf & Hk); [done|].
  pose proof (n_frames_bound p Hok). rewrite land_frame_field by lia.
  split; [by apply reserve_frame_ok|]. repeat split; try done; try lia.
  intros k Hk0. apply reserve_frame_used; [done|lia|lia].
Qed.

(** Freeing a present entry with a frame releases exactly that frame. *)
Lemma free_frame_spec p page :
  pmm_ok p → pg_present page ≠ 0 → 0 < pg_frame page < n_frames p →
  let '(p', page') := free_frame p page in
  pmm_ok p' ∧ n_frames p' = n_frames p ∧ pg_present page' = 0
  ∧ ∀ k, 0 <= k < n_frames p → frame_used p' k = frame_used p k && negb (pg_frame page =? k).
Proof.
  intros Hok Hp Hf. unfold free_frame.
  replace ((pg_present page =? 0) || (pg_frame page =? 0)) with false by lia.
  split; [by apply release_frame_ok|]. repeat split; try done.
  intros k Hk. by apply release_frame_used; [done|lia|].
Qed.

(** * Ownership *)

(** A set of page table entries over one bitmap, and the two ways the kernel
    changes it. *)
Record psys := mk_psys { ps_pmm : pmm; ps_pages : gmap Z page_t }.

Inductive pstep : psys → psys → Prop :=
  | pstep_alloc s k page user rw p' page' :
      ps_pages s !! k = Some page →
      alloc_frame (ps_pmm s) page user rw = Some (p', page') →
      pstep s (mk_psys p' (<[k := page']> (ps_pages s)))
  | pstep_free s k page p' page' :
      ps_pages s !! k = Some page →
      free_frame (ps_pmm s) page = (p', page') →
      pstep s (mk_psys p' (<[k := page']> (ps_pages s))).

Definition owns (s : psys) (k f : Z) : Prop :=
  ∃ page, ps_pages s !! k = Some page ∧ pg_present page ≠ 0 ∧ pg_frame page = f.

(** Relative to the boot-time bitmap [p0]: mapped entries have distinct
    frames that were free at boot, and the used bits are exactly the boot
    reservations and the mapped frames. *)
Definition owner_inv (p0 : pmm) (s : psys) : Prop :=
  pmm_ok (ps_pmm s) ∧ n_frames (ps_pmm s) = n_frames p0
  ∧ (∀ k f, owns s k f → 0 < f < n_frames p0 ∧ frame_used p0 f = false)
  ∧ (∀ k1 k2 f, owns s k1 f → owns s k2 f → k1 = k2)
  ∧ (∀ f, 0 <= f < n_frames p0 →
       frame_used (ps_pmm s) f = true ↔ frame_used p0 f = true ∨ ∃ k, owns s k f).

Definition psys_init (p0 : pmm) (s : psys) : Prop :=
  ps_pmm s = p0 ∧ ∀ k page, ps_pages s !! k = Some page → pg_present page = 0.

Lemma owner_inv_init p0 s : pmm_ok p0 → psys_init p0 s → owner_inv p0 s.
Proof.
  intros Hok [Hp Hz].
  assert (∀ k f, ¬ owns s k f) as Hno.
  { intros k f (page & Hl & Hpr & _). apply Hpr. by eapply Hz. }
  unfold owner_inv. rewrite Hp. split; [done|]. split; [done|].
  split; [intros k f Hk; by apply Hno in Hk|].
  split; [intros k1 k2 f Hk; by apply Hno in Hk|].
  intros f _. split; [by left|]. intros [H|[k Hk]]; [done|by apply Hno in Hk].
Qed.

Lemma owns_insert s k page' p' j f :
  owns (mk_psys p' (<[k := page']> (ps_pages s))) j f ↔
  (j = k ∧ pg_present page' ≠ 0 ∧ pg_frame page' = f) ∨ (j ≠ k ∧ owns s j f).
Proof.
  unfold owns; simpl. setoid_rewrite lookup_insert. split.
  - intros (pg & Hl & H1 & H2). case_decide; naive_solver.
  - intros [(-> & H1 & H2)|(Hne & pg & Hl & H1 & H2)].
    + exists page'. by rewrite decide_True.
    + exists pg. by rewrite decide_False by congruence.
Qed.

Lemma owner_inv_alloc p0 s k page user rw p' page' :
  owner_inv p0 s → ps_pages s !! k = Some page →
  alloc_frame (ps_pmm s) page user rw = Some (p', page') →
  owner_inv p0 (mk_psys p' (<[k := page']> (ps_pages s))).
Proof.
  intros (Hok & Hn & Hfree & Hinj & Hacc) Hl Ha.
  apply alloc_frame_spec in Ha as (Hok' & Hn' & Hf & Hunused & _ & Hbits & Hnp & Hp' & _ & _);
    [|done].
  assert (Hno : ∀ j, ¬ owns s j (pg_frame page')).
  { intros j Hj. assert (frame_used (ps_pmm s) (pg_frame page') = true); [|congruence].
    apply Hacc; [lia|right; by exists j]. }
  assert (Hnk : ∀ f, ¬ owns s k f) by (intros f (pg & Hl' & Hpr & _); congruence).
  assert (Hp0 : frame_used p0 (pg_frame page') = false).
  { destruct (frame_used p0 (pg_frame page')) eqn:E; [|done].
    assert (frame_used (ps_pmm s) (pg_frame page') = true); [|congruence]. apply Hacc; [lia|by left]. }
  unfold owner_inv. setoid_rewrite owns_insert. simpl. split; [done|]. split; [lia|].
  split; [intros j f [(-> & _ & <-)|[_ Hj]]; [split; [lia|done]|by eapply Hfree]|].
  split.
  { intros j1 j2 f [(-> & _ & <-)|[Hj1 H1]] [(-> & _ & H2)|[Hj2 H2]].
    - done. - by apply Hno in H2. - rewrite <- H2 in H1. by apply Hno in H1. - by eapply Hinj. }
  intros f Hfr. rewrite Hbits, orb_true_iff, Hacc by lia. split.
  - intros [[H|[j Hj]]|H]; [by left| |].
    + right. exists j. right. split; [intros ->; by eapply Hnk|done].
    + right. exists k. left. repeat split; lia.
  - intros [H|(j & [(-> & _ & H)|[_ Hj]])]; [auto|right; lia|left; right; by exists j].
Qed.

Lemma owner_inv_free p0 s k page p' page' :
  owner_inv p0 s → ps_pages s !! k = Some page →
  free_frame (ps_pmm s) page = (p', page') →
  owner_inv p0 (mk_psys p' (<[k := page']> (ps_pages s))).
Proof.
  intros Hinv Hl Hfr. pose proof Hinv as (Hok & Hn & Hfree & Hinj & Hacc).
  destruct (decide (pg_present page = 0 ∨ pg_frame page = 0)) as [Hskip|Hdo].
  { unfold free_frame in Hfr.
    replace ((pg_present page =? 0) || (pg_frame page =? 0)) with true in Hfr by lia.
    injection Hfr as <- <-. rewrite insert_id by done. by destruct s. }
  assert (Hown : owns s k (pg_frame page)) by (exists page; repeat split; [done|lia]).
  destruct (Hfree _ _ Hown) as [Hrange Hp0].
  pose proof (free_frame_spec (ps_pmm s) page Hok ltac:(lia) ltac:(lia)) as HS.
  rewrite Hfr in HS. destruct HS as (Hok' & Hn' & Hp' & Hbits).
  unfold owner_inv. setoid_rewrite owns_insert. simpl. split; [done|]. split; [lia|].
  split; [intros j f [(_ & ? & _)|[_ Hj]]; [done|by eapply Hfree]|].
  split; [intros j1 j2 f [(_ & ? & _)|[_ H1]] [(_ & ? & _)|[_ H2]]; try done; by eapply Hinj|].
  intros f Hf. rewrite Hbits, andb_true_iff, Hacc, negb_true_iff, Z.eqb_neq by lia. split.
  - intros [[H|[j Hj]] Hne]; [by left|]. right. exists j. right. split; [|done].
    intros ->. destruct Hj as (pg & Hl2 & _ & <-). congruence.
  - intros [H|(j & [(_ & ? & _)|[Hjk Hj]])]; [|done|].
    + split; [by left|congruence].
    + split; [right; by exists j|]. intros <-. apply Hjk. by eapply Hinj.
Qed.

(** C18: C1 (invariant): starting from any bitmap with no entry mapped, every
    sequence of [alloc_frame] and [free_frame] calls keeps frame ownership
    exclusive: no two mapped entries share a frame, no boot-reserved frame
    (and never frame 0) is handed out, and the used bits of the bitmap are
    exactly the boot reservations plus the frames of mapped entries, so no
    frame leaks and none is released while mapped. *)
Theorem frames_exclusive p0 s0 s :
  pmm_ok p0 → psys_init p0 s0 → rtc pstep s0 s → owner_inv p0 s.
Proof.
  intros Hok Hinit Hsteps. pose proof (owner_inv_init p0 s0 Hok Hinit) as Hinv. clear Hinit.
  induction Hsteps as [s|s1 s2 s3 Hstep _ IH]; [done|]. apply IH.
  destruct Hstep; [by eapply owner_inv_alloc|by eapply owner_inv_free].
Qed.

(** A 64-frame bitmap with frames 0 and 1 reserved and two unmapped entries. *)
Definition pmm_ex : pmm := mk_pmm [3; 0] 64.
Definition psys_ex : psys := mk_psys pmm_ex {[ 10 := page_zero; 11 := page_zero ]}.
Definition psys_ex2 : psys :=
  mk_psys (mk_pmm [7; 0] 64) {[ 10 := mk_page 1 1 0 0 0 0 2; 11 := page_zero ]}.

Lemma pmm_ok_ex : pmm_ok pmm_ex.
Proof. repeat split; try (simpl; lia); repeat constructor; lia. Defined.

Lemma frames_exclusive_witness : owner_inv pmm_ex psys_ex2.
Proof.
  apply (frames_exclusive pmm_ex psys_ex psys_ex2).
  - apply pmm_ok_ex.
  - split; [done|]. intros k page. unfold psys_ex. simpl.
    rewrite lookup_insert_Some, lookup_singleton_Some. naive_solver.
  - eapply rtc_l; [|apply rtc_refl].
    apply (pstep_alloc psys_ex 10 page_zero 0 1 (mk_pmm [7; 0] 64) (mk_page 1 1 0 0 0 0 2));
      vm_compute; reflexivity.
Defined.

(** C2 (functional): a successful [alloc_frame] takes the least free frame
    above frame 0, marks exactly that frame used, and fills the entry
    (present, the caller's protection flags, the frame number) while leaving
    its other bits alone. *)
Theorem alloc_frame_least p page user rw p' page' :
  pmm_ok p → alloc_frame p page user rw = Some (p', page') →
  pmm_ok p'
  ∧ page' = mk_page 1 (flag rw) (flag user) (pg_accessed page) (pg_dirty page)
              (pg_unused page) (pg_frame page')
  ∧ 0 < pg_frame page' < n_frames p
  ∧ frame_used p (pg_frame page') = false
  ∧ (∀ k, 0 < k < pg_frame page' → frame_used p k = true)
  ∧ (∀ k, 0 <= k → frame_used p' k = frame_used p k || (pg_frame page' =? k)).
Proof.
  intros Hok Ha. pose proof (alloc_frame_spec _ _ _ _ _ _ Hok Ha) as HS.
  destruct HS as (H1 & _ & H3 & H4 & H5 & H6 & _). repeat (split; [done|]); [|done..].
  unfold alloc_frame in Ha. do 2 (case_if_in Ha; [done|]). by injection Ha as <- <-.
Qed.

Lemma alloc_frame_least_witness :
  pmm_ok (mk_pmm [7; 0] 64) ∧ frame_used (mk_pmm [7; 0] 64) 2 = true.
Proof.
  pose proof (alloc_frame_least pmm_ex page_zero 0 1 (mk_pmm [7; 0] 64)
                (mk_page 1 1 0 0 0 0 2) pmm_ok_ex ltac:(vm_compute; reflexivity)) as H.
  split; [apply H|vm_compute; reflexivity].
Defined.

(** C3 (liveness): [alloc_frame] stops the machine exactly when the entry is
    already present or every frame from 1 up is in use. *)
Theorem alloc_frame_halts_iff p page user rw :
  pmm_ok p →
  alloc_frame p page user rw = None ↔
  pg_present page ≠ 0 ∨ ∀ k, 0 < k < n_frames p → frame_used p k = true.
Proof.
  intros Hok. unfold alloc_frame. case_if; [|case_if]; split; try done.
  - intros _. by left.
  - intros _. right. by apply find_free_frame_none.
  - intros [Hp|Hall]; [lia|]. exfalso.
    destruct (find_free_frame_some p Hok) as (Hr & Hf & _); [done|].
    rewrite Hall in Hf; done.
Qed.

Lemma alloc_frame_halts_iff_witness :
  pmm_ok pmm_ex ∧ alloc_frame pmm_ex (mk_page 1 0 0 0 0 0 5) 0 0 = None.
Proof.
  split; [apply pmm_ok_ex|].
  apply (alloc_frame_halts_iff pmm_ex (mk_page 1 0 0 0 0 0 5) 0 0 pmm_ok_ex). left. done.
Defined.

(** Clearing a bit that was clear before it was set restores the word. *)
Lemma set_clear_word w i :
  0 <= w < 4294967296 → 0 <= i < 32 → Z.testbit w i = false →
  Z.land (Z.lor w (Z.shiftl 1 i)) (u32 (Z.lnot (Z.shiftl 1 i))) = w.
Proof.
  intros Hw Hi Hb. apply Z.bits_inj'. intros j Hj.
  rewrite Z.land_spec, testbit_u32, andb_assoc, <- Z.land_spec by lia.
  rewrite testbit_clear, testbit_set by lia.
  destruct (Z.eqb_spec i j) as [->|Hne].
  - by rewrite Hb, andb_false_r.
  - rewrite orb_false_r, andb_true_r, <- testbit_u32 by lia. by rewrite u32_small.
Qed.

Lemma alter_alter_id (f g : Z → Z) i (l : list Z) :
  (∀ w, l !! i = Some w → g (f w) = w) → alter g i (alter f i l) = l.
Proof.
  revert i. induction l as [|x l IH]; intros [|i] H; simpl; [done|done| |].
  - f_equal. by apply H.
  - f_equal. by apply IH.
Qed.

(** C4 (roundtrip): freeing the entry that was just allocated restores the
    bitmap word for word and leaves the entry not present. *)
Theorem alloc_free_roundtrip p page user rw p' page' :
  pmm_ok p → alloc_frame p page user rw = Some (p', page') →
  free_frame p' page' = (p, mk_page 0 (flag rw) (flag user) (pg_accessed page)
                              (pg_dirty page) (pg_unused page) 0).
Proof.
  intros Hok Ha. pose proof (alloc_frame_spec _ _ _ _ _ _ Hok Ha) as (_ & _ & Hf & Hu & _).
  unfold alloc_frame in Ha. do 2 (case_if_in Ha; [done|]). injection Ha as <- <-. simpl in *.
  pose proof (n_frames_bound p Hok).
  destruct (find_free_frame_some p Hok) as (Hr & _ & _); [done|].
  rewrite land_frame_field in * by lia.
  unfold free_frame. simpl.
  replace (find_free_frame p =? 0) with false by lia. f_equal.
  unfold release_frame, reserve_frame, set_words. destruct p as [ws n]; simpl in *. f_equal.
  apply alter_alter_id. intros w Hw.
  destruct (lookup_frame_word _ _ Hok ltac:(split; [|apply Hr]; lia)) as (w' & Hw' & Hrange).
  simpl in Hw'. rewrite Hw in Hw'. injection Hw' as <-.
  unfold frame_used in Hu. simpl in Hu. rewrite Hw in Hu.
  apply set_clear_word; [done|apply Z.mod_pos_bound; lia|done].
Qed.

Lemma alloc_free_roundtrip_witness :
  free_frame (mk_pmm [7; 0] 64) (mk_page 1 1 0 0 0 0 2) = (pmm_ex, mk_page 0 1 0 0 0 0 0).
Proof.
  apply (alloc_free_roundtrip pmm_ex page_zero 0 1 (mk_pmm [7; 0] 64) (mk_page 1 1 0 0 0 0 2));
    [apply pmm_ok_ex|vm_compute; reflexivity].
Defined.
