(* ===== verification/KHeap.v ===== *)
(** The kernel heap: [src/kernel/src/kheap.c], [kheap.h] and the placement
    allocator of [kmem.c].

    Blocks tile the region [memstart, memend); each starts with a 16-byte
    header (magic, size, list link) and ends with an 8-byte footer (magic,
    pointer to the header).  Free blocks are linked, ordered by size, into
    the [holes] list.  Everything below is byte-level: headers, footers and
    links are words of one [mem]. *)

From S2P Require Import Prelude Memory LinkedList.

(** * Layout *)

Definition KHEAP_MAGIC : Z := 732803074.      (* 0x2BADB002 *)
Definition SIZEOF_HEADER : Z := 16.
Definition SIZEOF_FOOTER : Z := 8.
Definition KHEAP_OVHD : Z := 24.              (* sizeof(header_t) + sizeof(footer_t) *)
Definition PAGE_SIZE : Z := 4096.

Definition PAGE_ALIGN (addr : Z) : Z := Z.land addr 4294963200.   (* 0xFFFFF000 *)
Definition PAGE_OFFSET (addr : Z) : Z := Z.land addr 4095.
Definition PAGE_ALIGNED (addr : Z) : bool := PAGE_OFFSET addr =? 0.

(** The heap descriptor; [holes] is the address of its [list_t] field. *)
Record heap_t := mk_heap {
  memstart : Z;
  memend : Z;
  memmax : Z;
  holes : Z;
  lock : Z;
}.

Definition hdr_magic (m : mem) (head : Z) : Z := ld32 m head.
Definition hdr_size (m : mem) (head : Z) : Z := ld32 m (head + 4).
Definition hdr_link (head : Z) : Z := head + 8.          (* &head->link *)
Definition link_entry (item : Z) : Z := item - 8.        (* list_entry(item, header_t, link) *)

Definition heap_addr (head : Z) : Z := u32 (head + SIZEOF_HEADER).
Definition heap_foot (m : mem) (head : Z) : Z := u32 (head + hdr_size m head - SIZEOF_FOOTER).
Definition heap_head (addr : Z) : Z := u32 (addr - SIZEOF_HEADER).
Definition heap_is_first (h : heap_t) (head : Z) : bool := memstart h =? head.
Definition heap_is_last (h : heap_t) (m : mem) (head : Z) : bool :=
  memend h =? u32 (head + hdr_size m head).
Definition head_prev (m : mem) (head : Z) : Z := ld32 m (u32 (head - SIZEOF_FOOTER) + 4).
Definition head_next (m : mem) (head : Z) : Z := u32 (head + hdr_size m head).

Definition head_init (m : mem) (head size : Z) : mem :=
  let m := st32 m (head + 4) size in
  let m := st32 m head KHEAP_MAGIC in
  let m := INIT_LIST m (hdr_link head) in
  let m := st32 m (heap_foot m head + 4) head in
  st32 m (heap_foot m head) KHEAP_MAGIC.

Definition heap_compare_headers (m : mem) (v1 v2 : Z) : Z :=
  if hdr_size m (link_entry v1) <? hdr_size m (link_entry v2) then -1
  else if hdr_size m (link_entry v1) =? hdr_size m (link_entry v2) then 0
  else 1.

Definition heap_add_hole (fuel : nat) (h : heap_t) (m : mem) (head : Z) : outcome mem :=
  let m := head_init m head (hdr_size m head) in
  fueled (list_add_ordered fuel heap_compare_headers m (hdr_link head) (holes h)).

(** * Freeing *)

(** "Combine backwards" *)
Fixpoint merge_back (fuel : nat) (h : heap_t) (m : mem) (head : Z) : outcome (mem * Z) :=
  match fuel with
  | O => OutOfFuel
  | S fuel =>
      if negb (heap_is_first h head) && list_inserted m (hdr_link (head_prev m head)) then
        let prev := head_prev m head in
        let m := list_rem m (hdr_link prev) in
        let m := head_init m prev (u32 (hdr_size m prev + hdr_size m head)) in
        merge_back fuel h m prev
      else Ret (m, head)
  end.

(** "Combine forwards" *)
Fixpoint merge_fwd (fuel : nat) (h : heap_t) (m : mem) (head : Z) : outcome mem :=
  match fuel with
  | O => OutOfFuel
  | S fuel =>
      if negb (heap_is_last h m head) && list_inserted m (hdr_link (head_next m head)) then
        let next := head_next m head in
        let m := list_rem m (hdr_link next) in
        let m := head_init m head (u32 (hdr_size m head + hdr_size m next)) in
        merge_fwd fuel h m head
      else Ret m
  end.

Definition heap_free_nolock (fuel : nat) (h : heap_t) (m : mem) (addr : Z) : outcome mem :=
  if (addr <? memstart h) || (memend h <=? addr) then Ret m
  else
    '(m, head) <~ merge_back fuel h m (heap_head addr) ;;
    m <~ merge_fwd fuel h m head ;;
    if negb (hdr_magic m head =? KHEAP_MAGIC) then Ret m
    else
      let m := st32 m (heap_foot m head) KHEAP_MAGIC in
      let m := st32 m (heap_foot m head + 4) head in
      let m := INIT_LIST m (hdr_link head) in
      heap_add_hole fuel h m head.

(** * Growing *)

(** What the heap asks of the paging code: back the page at an address of
    the kernel directory with a fresh frame ([get_page], [alloc_frame],
    [invalidate_page]); [None] when that stops the machine. *)
Class PageMapper (E : Type) := map_heap_page : E → Z → option E.

Section Heap.
Context {E : Type} `{!PageMapper E}.

Record hstate := mk_hstate {
  hs_heap : heap_t;
  hs_mem : mem;
  hs_env : E;
}.

Fixpoint map_pages (e : E) (base p : Z) (n : nat) : outcome E :=
  match n with
  | O => Ret e
  | S n => e <~ or_halt (map_heap_page e (u32 (base + p * PAGE_SIZE))) ;;
           map_pages e base (p + 1) n
  end.

(** The number of bytes [heap_expand] will add. *)
Definition expand_ammnt (h : heap_t) (ammnt : Z) : Z :=
  let ammnt := if negb (PAGE_OFFSET ammnt =? 0) then u32 (PAGE_ALIGN ammnt + 4096) else ammnt in
  if memmax h <? u32 (memstart h + ammnt) then u32 (memmax h - memstart h) else ammnt.

(** Returns the new header, [None] for [NULL]. *)
Definition heap_expand (fuel : nat) (s : hstate) (ammnt : Z) : outcome (hstate * option Z) :=
  let h := hs_heap s in
  if memmax h =? memend h then Ret (s, None)
  else
    let ammnt := expand_ammnt h ammnt in
    e <~ map_pages (hs_env s) (memend h) 0 (Z.to_nat (ammnt / PAGE_SIZE)) ;;
    let head := memend h in
    let m := head_init (hs_mem s) head ammnt in
    let h := mk_heap (memstart h) (u32 (memend h + ammnt)) (memmax h) (holes h) (lock h) in
    m <~ heap_free_nolock fuel h m (heap_addr head) ;;
    Ret (mk_hstate h m e, Some head).

(** * Allocating *)

(** Split [head] so that the returned block's payload is page aligned. *)
Definition heap_trim_align (fuel : nat) (h : heap_t) (m : mem) (head reqd : Z) :
    outcome (mem * option Z) :=
  let temp := u32 (PAGE_ALIGN head + PAGE_SIZE - SIZEOF_HEADER) in
  if u32 (temp - head) <=? KHEAP_OVHD then Ret (m, None)
  else if u32 (hdr_size m head - u32 (temp - head)) <? u32 (reqd + KHEAP_OVHD) then Ret (m, None)
  else
    let m := head_init m temp (u32 (hdr_size m head - u32 (temp - head))) in
    let m := list_rem m (hdr_link head) in
    let m := head_init m head (u32 (temp - head)) in
    m <~ heap_free_nolock fuel h m (heap_addr head) ;;
    m <~ heap_add_hole fuel h m temp ;;
    Ret (m, Some temp).

(** Give the part of [head] behind the first [reqd] payload bytes back. *)
Definition heap_trim_tail (fuel : nat) (h : heap_t) (m : mem) (head reqd : Z) :
    outcome (mem * option Z) :=
  if hdr_size m head <? u32 (reqd + KHEAP_OVHD + KHEAP_OVHD) then Ret (m, Some head)
  else
    let temp := u32 (head + reqd + KHEAP_OVHD) in
    let m := head_init m temp (u32 (hdr_size m head - reqd - KHEAP_OVHD)) in
    let m := list_rem m (hdr_link head) in
    let m := head_init m head (u32 (reqd + KHEAP_OVHD)) in
    m <~ heap_free_nolock fuel h m (heap_addr temp) ;;
    m <~ heap_add_hole fuel h m head ;;
    Ret (m, Some head).

Definition heap_trim (fuel : nat) (h : heap_t) (m : mem) (head reqd align : Z) :
    outcome (mem * option Z) :=
  if (hdr_size m head <=? u32 (reqd + KHEAP_OVHD * 2)) && (align =? 0) then Ret (m, Some head)
  else
    '(m, aligned) <~
      (if negb (align =? 0) && negb (PAGE_ALIGNED (u32 (head + SIZEOF_HEADER)))
       then heap_trim_align fuel h m head reqd
       else Ret (m, Some head)) ;;
    match aligned with
    | None => Ret (m, None)
    | Some head => heap_trim_tail fuel h m head reqd
    end.

Definition with_mem (s : hstate) (m : mem) : hstate := mk_hstate (hs_heap s) m (hs_env s).

(** [heap_locate], resumed at [item] of the hole list. *)
Fixpoint locate_from (fuel : nat) (s : hstate) (reqd align item : Z) :
    outcome (hstate * option Z) :=
  match fuel with
  | O => OutOfFuel
  | S fuel' =>
      let h := hs_heap s in
      let m := hs_mem s in
      let head := link_entry item in
      if item =? holes h then
        (* no hole fits: acquire more memory and start over *)
        '(s, r) <~ heap_expand fuel s (u32 (reqd + KHEAP_OVHD)) ;;
        match r with
        | None => Ret (s, None)
        | Some head =>
            if hdr_size (hs_mem s) head <? u32 (reqd + KHEAP_OVHD) then Ret (s, None)
            else locate_from fuel' s reqd align (list_next (hs_mem s) (holes (hs_heap s)))
        end
      else if negb (hdr_magic m head =? KHEAP_MAGIC)
              || negb (ld32 m (heap_foot m head) =? KHEAP_MAGIC) then
        (* a corrupted block is dropped from the list *)
        let m := list_rem m item in
        locate_from fuel' (with_mem s m) reqd align (list_next m (holes h))
      else if u32 (reqd + KHEAP_OVHD) <=? hdr_size m head then
        '(m, r) <~ heap_trim fuel h m head reqd align ;;
        match r with
        | None => locate_from fuel' (with_mem s m) reqd align (list_next m item)
        | Some temp => Ret (with_mem s m, Some temp)
        end
      else locate_from fuel' s reqd align (list_next m item)
  end.

Definition heap_locate (fuel : nat) (s : hstate) (reqd align : Z) : outcome (hstate * option Z) :=
  locate_from fuel s reqd align (list_next (hs_mem s) (holes (hs_heap s))).

Definition set_lock (s : hstate) (l : Z) : hstate :=
  let h := hs_heap s in
  mk_hstate (mk_heap (memstart h) (memend h) (memmax h) (holes h) l) (hs_mem s) (hs_env s).

Definition heap_alloc (fuel : nat) (s : hstate) (reqd align : Z) : outcome (hstate * option Z) :=
  l <~ spin_lock (lock (hs_heap s)) ;;
  '(s, r) <~ heap_locate fuel (set_lock s l) reqd align ;;
  match r with
  | None => Ret (s, None)
  | Some head =>
      let s := with_mem s (list_rem (hs_mem s) (hdr_link head)) in
      Ret (set_lock s (spin_unlock (lock (hs_heap s))), Some (heap_addr head))
  end.

Definition heap_free (fuel : nat) (s : hstate) (addr : Z) : outcome hstate :=
  l <~ spin_lock (lock (hs_heap s)) ;;
  let s := set_lock s l in
  m <~ heap_free_nolock fuel (hs_heap s) (hs_mem s) addr ;;
  let s := with_mem s m in
  Ret (set_lock s (spin_unlock (lock (hs_heap s)))).

(** [heap_init] on a descriptor whose list head is at [hd]. *)
Definition heap_init (fuel : nat) (m : mem) (e : E) (hd start end_ : Z) : outcome hstate :=
  let h := mk_heap start start end_ hd (spin_unlock 0) in
  let m := INIT_LIST m hd in
  '(s, _) <~ heap_expand fuel (mk_hstate h m e) 1 ;;
  Ret s.

End Heap.

Arguments hstate E : clear implicits.

(** * Placement allocation, before the heap exists *)

Definition KERNEL_VIRTUAL_BASE : Z := 3221225472.  (* 0xC0000000 *)

(** Returns the new placement address, the block and its physical address. *)
Definition placement_kmalloc (placement_address size align : Z) : Z * Z * Z :=
  let p := if negb (align =? 0) && negb (Z.land placement_address 4294963200 =? 0)
           then u32 (Z.land placement_address 4294963200 + 4096) else placement_address in
  (u32 (p + size), p, u32 (p - KERNEL_VIRTUAL_BASE)).
