(* ===== verification/KHeapInv.v ===== *)
(** Representation invariant of the kernel heap and the effect of each memory
    primitive on it.

    The abstract state of a heap is the list of blocks that tile it, each
    busy or free, and the hole list, the free blocks ordered by size.
    [heap_ok] says that a memory holds that state: every block has a header
    and a footer, busy blocks are on no list, free blocks are exactly the
    nodes of the [holes] list.  Marking a block busy ([list_rem]), marking it
    free ([heap_add_hole]) and changing block boundaries ([head_init]) are
    each shown to be the corresponding change of the abstract state. *)

From S2P Require Import Prelude Memory LinkedList KHeap.

(** * Abstract blocks *)

Record blk := mk_blk { b_at : Z; b_sz : Z; b_free : bool }.

#[global] Instance blk_eq_dec : EqDecision blk.
Proof. solve_decision. Defined.

Definition b_end (b : blk) : Z := b_at b + b_sz b.
Definition b_link (b : blk) : Z := hdr_link (b_at b).
Definition busy (b : blk) : blk := mk_blk (b_at b) (b_sz b) false.
Definition freed (b : blk) : blk := mk_blk (b_at b) (b_sz b) true.

(** Payload bytes of a block. *)
Definition payload (b : blk) (a : Z) : Prop := b_at b + 16 <= a < b_end b - 8.

Definition holes_of (bs : list blk) : list blk := filter (λ b, b_free b = true) bs.
Definition busy_of (bs : list blk) : list blk := filter (λ b, b_free b = false) bs.

(** [bs] tiles [start, stop). *)
Fixpoint tiles (start : Z) (bs : list blk) (stop : Z) : Prop :=
  match bs with
  | [] => start = stop
  | b :: bs => b_at b = start ∧ 24 <= b_sz b ∧ tiles (b_end b) bs stop
  end.

(** Header and footer of one block in memory. *)
Definition blk_ok (m : mem) (b : blk) : Prop :=
  hdr_magic m (b_at b) = KHEAP_MAGIC ∧ hdr_size m (b_at b) = b_sz b
  ∧ ld32 m (b_end b - 8) = KHEAP_MAGIC ∧ ld32 m (b_end b - 4) = b_at b
  ∧ (b_free b = false → lonely m (b_link b)).

Definition le_size (a b : blk) : Prop := b_sz a <= b_sz b.

Definition heap_ok (m : mem) (hd start stop : Z) (bs hs : list blk) : Prop :=
  0 <= hd ∧ hd + 8 <= start ∧ stop < 4294967296
  ∧ tiles start bs stop ∧ Forall (blk_ok m) bs
  ∧ dll m hd (b_link <$> hs) ∧ hs ≡ₚ holes_of bs ∧ StronglySorted le_size hs.

(** ** Tilings *)

Lemma tiles_app start l r stop :
  tiles start (l ++ r) stop ↔ ∃ x, tiles start l x ∧ tiles x r stop.
Proof.
  revert start. induction l as [|b l IH]; intros start; simpl.
  - split; [by exists start|by intros (x & -> & ?)].
  - rewrite IH. naive_solver.
Qed.

Lemma tiles_le start bs stop : tiles start bs stop → start <= stop.
Proof.
  revert start. induction bs as [|b bs IH]; simpl; intros start; [lia|].
  intros (<- & Hsz & H%IH). unfold b_end in H. lia.
Qed.

Lemma tiles_fun start bs x y : tiles start bs x → tiles start bs y → x = y.
Proof. revert start. induction bs as [|b bs IH]; simpl; [congruence|]. intros start (_ & _ & ?) (_ & _ & ?). eauto. Qed.

Lemma tiles_fun_start bs x y stop : tiles x bs stop → tiles y bs stop → x = y.
Proof. destruct bs as [|b bs]; simpl; [congruence|]. intros (<- & _) (<- & _). done. Qed.

Lemma tiles_bounds start bs stop b :
  tiles start bs stop → b ∈ bs → start <= b_at b ∧ b_end b <= stop ∧ 24 <= b_sz b.
Proof.
  revert start. induction bs as [|c bs IH]; simpl; intros start; [set_solver|].
  intros (<- & Hsz & Ht) [->|Hin]%elem_of_cons.
  - apply tiles_le in Ht. lia.
  - destruct (IH _ Ht Hin) as (H1 & H2 & H3). unfold b_end in *. lia.
Qed.

(** The blocks left and right of a block lie on its two sides. *)
Lemma tiles_split start l b r stop :
  tiles start (l ++ b :: r) stop →
  tiles start l (b_at b) ∧ 24 <= b_sz b ∧ tiles (b_end b) r stop.
Proof. intros (x & Hl & <- & Hsz & Hr)%tiles_app. done. Qed.

Lemma tiles_replace start l b r stop bs :
  tiles start (l ++ b :: r) stop → tiles (b_at b) bs (b_end b) →
  tiles start (l ++ bs ++ r) stop.
Proof.
  intros (Hl & _ & Hr)%tiles_split Hbs. rewrite tiles_app. exists (b_at b). split; [done|].
  rewrite tiles_app. by exists (b_end b).
Qed.

Definition apart (b c : blk) : Prop := b_end b <= b_at c ∨ b_end c <= b_at b.

Lemma tiles_apart start l b r stop c :
  tiles start (l ++ b :: r) stop → c ∈ l ++ r → apart b c ∧ 24 <= b_sz c.
Proof.
  intros (Hl & Hsz & Hr)%tiles_split [Hc|Hc]%elem_of_app.
  - destruct (tiles_bounds _ _ _ _ Hl Hc) as (_ & H & ?). split; [by right|done].
  - destruct (tiles_bounds _ _ _ _ Hr Hc) as (H & _ & ?). split; [by left|done].
Qed.

Lemma tiles_distinct start bs stop b c :
  tiles start bs stop → b ∈ bs → c ∈ bs → b = c ∨ apart b c.
Proof.
  intros Ht (l & r & ->)%list_elem_of_split Hc.
  destruct (decide (c ∈ l ++ r)) as [Hin|Hn].
  - right. by eapply tiles_apart.
  - left. set_solver.
Qed.

(** ** Reading headers and footers of neighbours *)

Section Neighbours.
Context (m : mem) (hd start stop : Z) (hs : list blk).

Lemma heap_ok_range bs b :
    heap_ok m hd start stop bs hs → b ∈ bs →
    start <= b_at b ∧ b_end b <= stop ∧ 24 <= b_sz b ∧ 0 <= hd ∧ hd + 8 <= start
    ∧ stop < 4294967296 ∧ b_end b = b_at b + b_sz b.
Proof.
    intros (H1 & H2 & H3 & Ht & _) Hb. destruct (tiles_bounds _ _ _ _ Ht Hb) as (? & ? & ?). unfold b_end in *. lia.
Qed.

Lemma heap_ok_blk bs b : heap_ok m hd start stop bs hs → b ∈ bs → blk_ok m b.
Proof.
    intros (_ & _ & _ & _ & HF & _) Hb. rewrite Forall_forall in HF. by apply HF.
Qed.

  (** The block of a member of the hole list. *)
Lemma heap_ok_hole bs b : heap_ok m hd start stop bs hs → b ∈ hs ↔ b ∈ bs ∧ b_free b = true.
Proof.
    intros (_ & _ & _ & _ & _ & _ & HP & _). rewrite HP.
    unfold holes_of. rewrite list_elem_of_filter. naive_solver.
Qed.

  (** [list_inserted] tells free blocks from busy ones. *)
Lemma heap_ok_inserted bs b :
    heap_ok m hd start stop bs hs → b ∈ bs → list_inserted m (b_link b) = b_free b.
Proof.
    intros Hok Hb. unfold list_inserted, list_is_lonely.
    destruct (b_free b) eqn:Efree.
    - assert (b ∈ hs) as Hin by (apply (heap_ok_hole bs b Hok); done).
      destruct Hok as (_ & _ & _ & _ & _ & Hd & _).
      apply (list_elem_of_fmap_2 b_link) in Hin.
      apply list_elem_of_split in Hin as (l1 & l2 & Hsplit). rewrite Hsplit in Hd.
      destruct (dll_neighbours _ _ _ _ _ Hd) as [_ Hn].
      pose proof (dll_nodup _ _ _ Hd) as Hnd. pose proof (first_or_elem hd l2) as Hfo.
      apply negb_true_iff, andb_false_iff. left. rewrite Hn. apply Z.eqb_neq. intros Heq.
      rewrite Heq in Hfo. apply NoDup_cons in Hnd as [Hh Hnd].
      apply NoDup_app in Hnd as (_ & _ & Hnd). apply NoDup_cons in Hnd as [Hx _].
      set_solver.
    - destruct (heap_ok_blk bs b Hok Hb) as (_ & _ & _ & _ & Hlon).
      destruct (Hlon Efree) as [-> ->]. by rewrite Z.eqb_refl.
Qed.
End Neighbours.

(** ** Frames *)

(** The bytes a block's state occupies: the link belongs to the list when the
    block is free. *)
Definition meta (b : blk) (a : Z) : Prop :=
  within (b_at b) 8 a ∨ within (b_end b - 8) 8 a ∨ (b_free b = false ∧ within (b_link b) 8 a).

Lemma blk_ok_frame P m m' b :
  blk_ok m b → frame P m m' → (∀ a, meta b a → ¬ P a) → blk_ok m' b.
Proof.
  intros (H1 & H2 & H3 & H4 & H5) HF HP. unfold blk_ok, hdr_magic, hdr_size in *.
  repeat split.
  1-4: erewrite frame_ld32; [eassumption..|]; intros i Hi; apply HP; unfold meta, within;
       (left; lia) || (right; left; lia).
  all: eapply lonely_frame; [auto|eassumption|]; intros a Ha; apply HP; right; right; auto.
Qed.

(** Payloads of [K] are the same in both memories. *)
Definition pres (K : list blk) (m m' : mem) : Prop :=
  ∀ b a, b ∈ K → payload b a → ld8 m' a = ld8 m a.

Lemma pres_refl K m : pres K m m.
Proof. done. Qed.

Lemma pres_trans K m1 m2 m3 : pres K m1 m2 → pres K m2 m3 → pres K m1 m3.
Proof. intros H1 H2 b a Hb Ha. by rewrite (H2 b), (H1 b). Qed.

Lemma pres_mono K K' m m' : K ⊆ K' → pres K' m m' → pres K m m'.
Proof. intros HK H b a Hb. apply H. auto. Qed.

Lemma frame_pres P K m m' :
  frame P m m' → (∀ b a, b ∈ K → payload b a → ¬ P a) → pres K m m'.
Proof. intros HF HP b a Hb Ha. apply HF. eauto. Qed.

#[export] Hint Resolve pres_refl : stewie.

(** * Heaps with an open region *)

(** [env_ok]: all of [heap_ok] except the headers and footers of the blocks
    [mid], which an operation is about to rewrite. *)
Definition env_ok (m : mem) (hd start stop : Z) (l mid r hs : list blk) : Prop :=
  0 <= hd ∧ hd + 8 <= start ∧ stop < 4294967296
  ∧ tiles start (l ++ mid ++ r) stop ∧ Forall (blk_ok m) (l ++ r)
  ∧ dll m hd (b_link <$> hs) ∧ hs ≡ₚ holes_of (l ++ mid ++ r) ∧ StronglySorted le_size hs.

Section Env.
Context (hd start stop : Z).
Notation HOK m := (heap_ok m hd start stop).
Notation EOK m := (env_ok m hd start stop).

Lemma heap_ok_env m l mid r hs :
    HOK m (l ++ mid ++ r) hs ↔ EOK m l mid r hs ∧ Forall (blk_ok m) mid.
Proof.
    unfold heap_ok, env_ok. rewrite !Forall_app. naive_solver.
Qed.

  (** The bytes of the hole list: its head and the links of free blocks. *)
Definition list_bytes (hs : list blk) : Z → Prop := in_nodes (hd :: (b_link <$> hs)).

Lemma list_bytes_inv hs a :
    list_bytes hs a → within hd 8 a ∨ ∃ b, b ∈ hs ∧ within (b_link b) 8 a.
Proof.
    intros (n & Hn & Hw). apply elem_of_cons in Hn as [->|Hn]; [by left|].
    apply list_elem_of_fmap in Hn as (b & -> & Hb). right. by exists b.
Qed.

  (** Facts shared by the lemmas below: every block of an [env_ok] heap is in
      range and two different blocks are apart. *)
Lemma env_ok_blocks m l mid r hs b :
    EOK m l mid r hs → b ∈ l ++ mid ++ r →
    start <= b_at b ∧ b_end b <= stop ∧ 24 <= b_sz b ∧ b_end b = b_at b + b_sz b.
Proof.
    intros (_ & _ & _ & Ht & _) Hb. destruct (tiles_bounds _ _ _ _ Ht Hb) as (? & ? & ?).
    done.
Qed.

Lemma env_ok_hole m l mid r hs b :
    EOK m l mid r hs → b ∈ hs ↔ b ∈ l ++ mid ++ r ∧ b_free b = true.
Proof.
    intros (_ & _ & _ & _ & _ & _ & HP & _). rewrite HP.
    unfold holes_of. rewrite list_elem_of_filter. naive_solver.
Qed.

Lemma env_ok_apart m l mid r hs b c :
    EOK m l mid r hs → b ∈ l ++ mid ++ r → c ∈ l ++ mid ++ r → b = c ∨ apart b c.
Proof. intros (_ & _ & _ & Ht & _). by eapply tiles_distinct. Qed.

  (** List bytes do not meet the headers, footers or payloads of blocks. *)
Lemma list_bytes_meta m l mid r hs c a :
    EOK m l mid r hs → c ∈ l ++ mid ++ r → meta c a ∨ payload c a → ¬ list_bytes hs a.
Proof.
    intros Henv Hc Ha Hl. pose proof (env_ok_blocks _ _ _ _ _ _ Henv Hc) as Hcr.
    pose proof Henv as (Hhd0 & Hhd & _). unfold meta, payload, within, b_link, hdr_link in *.
    apply list_bytes_inv in Hl as [Hw|(b & Hb & Hw)]; unfold within, b_link, hdr_link in *; [lia|].
    apply (env_ok_hole _ _ _ _ _ _ Henv) in Hb as [Hb Hfree].
    pose proof (env_ok_blocks _ _ _ _ _ _ Henv Hb) as Hbr.
    destruct (env_ok_apart _ _ _ _ _ _ _ Henv Hb Hc) as [->|Hap].
    - rewrite Hfree in Ha. destruct Ha as [[?|[?|[? _]]]|?]; [lia|lia|done|lia].
    - unfold apart in Hap. lia.
Qed.

  (** A write inside the open region that spares the links of free blocks. *)
Lemma env_frame P m m' l mid r hs lo hi :
    EOK m l mid r hs → tiles start l lo → tiles lo mid hi → tiles hi r stop →
    frame P m m' →
    (∀ a, P a → lo <= a < hi ∧ ∀ b, b ∈ mid → b_free b = true → ¬ within (b_link b) 8 a) →
    EOK m' l mid r hs.
Proof.
    intros Henv Hl Hmid Hr HF HP.
    pose proof Henv as (H1 & H2 & H3 & Ht & HB & Hd & HPm & Hs).
    assert (Hout : ∀ b, b ∈ l ++ r → b_end b <= lo ∨ hi <= b_at b).
    { intros b [Hb|Hb]%elem_of_app; [left|right]; [|by eapply tiles_bounds].
      by destruct (tiles_bounds _ _ _ _ Hl Hb) as (_ & ? & _). }
    split; [done|]. split; [done|]. split; [done|]. split; [done|]. split; [|split; [|done]].
    - rewrite Forall_forall in HB |- *. intros b Hb. eapply blk_ok_frame; [by apply HB|exact HF|].
      intros a Ha Hpa. destruct (HP a Hpa) as [Hr' _]. specialize (Hout b Hb).
      assert (b ∈ l ++ mid ++ r) as Hb' by set_solver.
      pose proof (env_ok_blocks _ _ _ _ _ _ Henv Hb').
      unfold meta, within, b_link, hdr_link in Ha. lia.
    - eapply dll_frame; [exact Hd|exact HF|]. intros n a Hn Hw Hpa.
      destruct (HP a Hpa) as [Hr' Hlink].
      assert (list_bytes hs a) as Hlb by (by exists n).
      apply list_bytes_inv in Hlb as [Hwh|(b & Hb & Hwb)].
      + apply tiles_le in Hl. unfold within in Hwh. lia.
      + apply (env_ok_hole _ _ _ _ _ _ Henv) in Hb as [Hb Hfree].
        destruct (decide (b ∈ mid)) as [Hm|Hn']; [by apply (Hlink b)|].
        assert (b ∈ l ++ r) as Hlr by set_solver. specialize (Hout b Hlr).
        pose proof (env_ok_blocks _ _ _ _ _ _ Henv Hb). unfold within, b_link, hdr_link in *. lia.
Qed.

  (** Busy blocks of the open region can be cut differently. *)
Lemma env_recut m l mid r hs lo hi cs :
    EOK m l mid r hs → tiles start l lo → tiles lo mid hi → tiles hi r stop →
    tiles lo cs hi → Forall (λ b, b_free b = false) mid → Forall (λ b, b_free b = false) cs →
    EOK m l cs r hs.
Proof.
    intros (H1 & H2 & H3 & Ht & HB & Hd & HPm & Hs) Hl Hmid Hr Hcs HFm HFc.
    assert (Hnone : ∀ bs, Forall (λ b, b_free b = false) bs → holes_of bs = []).
    { intros bs HF. induction HF as [|b bs Hb _ IH]; [done|].
      unfold holes_of in *. rewrite filter_cons_False by congruence. done. }
    split; [done|]. split; [done|]. split; [done|].
    split; [rewrite tiles_app; exists lo; split; [done|]; rewrite tiles_app; by exists hi|].
    split; [done|]. split; [done|]. split; [|done].
    rewrite HPm. unfold holes_of in *. rewrite !filter_app.
    rewrite (Hnone mid HFm), (Hnone cs HFc). done.
Qed.
End Env.

(** ** [list_rem] marks a hole busy *)

Section Unlink.
Context (hd start stop : Z).
Notation HOK m := (heap_ok m hd start stop).
Notation EOK m := (env_ok m hd start stop).

Lemma StronglySorted_remove {A} (R : A → A → Prop) l1 x l2 :
    StronglySorted R (l1 ++ x :: l2) → StronglySorted R (l1 ++ l2).
Proof.
    induction l1 as [|y l1 IH]; simpl; inversion_clear 1; [done|].
    constructor; [auto|]. rewrite !Forall_app, Forall_cons in *. naive_solver.
Qed.

Lemma list_rem_bytes m l mid r hs h1 b h2 :
    EOK m l mid r hs → hs = h1 ++ b :: h2 →
    frame (list_bytes hd hs) m (list_rem m (b_link b)).
Proof.
    intros Henv ->. pose proof Henv as (_ & _ & _ & _ & _ & Hd & _).
    eapply frame_weaken; [|apply list_rem_frame]. intros a. apply in_nodes_mono.
    rewrite fmap_app in *. simpl in *.
    destruct (dll_neighbours _ _ _ _ _ Hd) as [-> ->].
    pose proof (last_from_elem hd (b_link <$> h1)).
    pose proof (first_or_elem hd (b_link <$> h2)). set_solver.
Qed.

Lemma env_unlink m l b r h1 h2 :
    EOK m l [b] r (h1 ++ b :: h2) →
    EOK (list_rem m (b_link b)) l [busy b] r (h1 ++ h2)
    ∧ lonely (list_rem m (b_link b)) (b_link b).
Proof.
    intros Henv. pose proof (list_rem_bytes _ _ _ _ _ h1 b h2 Henv eq_refl) as HF.
    pose proof Henv as (H1 & H2 & H3 & Ht & HB & Hd & HPm & Hs).
    assert (Hfree : b_free b = true).
    { apply (env_ok_hole _ _ _ _ _ _ _ _ b Henv). set_solver. }
    rewrite fmap_app in Hd. simpl in Hd. destruct (list_rem_spec _ _ _ _ _ Hd) as [Hd' Hlon].
    split; [|done]. split; [done|]. split; [done|]. split; [done|].
    split; [apply tiles_app in Ht as (x & ? & ?); apply tiles_app; by exists x|].
    split; [|split; [by rewrite fmap_app|split; [|by eapply StronglySorted_remove]]].
    - rewrite Forall_forall in HB |- *. intros c Hc. eapply blk_ok_frame; [by apply HB|exact HF|].
      intros a Ha. eapply list_bytes_meta; [exact Henv| |by left]. set_solver.
    - unfold holes_of in *. simpl in *. rewrite filter_app, filter_cons_True in HPm by done.
      rewrite filter_app, filter_cons_False by done.
      apply (Permutation_cons_inv (a := b)). by rewrite !Permutation_middle.
Qed.
End Unlink.

(** ** [head_init] writes the header and footer of a busy block *)

Lemma head_init_blk m at_ sz :
  0 <= at_ → 24 <= sz → at_ + sz < 4294967296 →
  blk_ok (head_init m at_ sz) (mk_blk at_ sz false).
Proof.
  intros H0 Hsz Hend. pose proof (ld32_range m).
  unfold blk_ok, lonely, head_init, heap_foot, hdr_magic, hdr_size, b_link, b_end, hdr_link,
    INIT_LIST, list_next, list_prev, set_next, set_prev, SIZEOF_FOOTER, KHEAP_MAGIC; simpl.
  repeat (mem_simp; u32s). repeat split; intros; repeat (mem_simp; u32s); done.
Qed.

Lemma head_init_frame m at_ sz :
  0 <= at_ → 24 <= sz → at_ + sz < 4294967296 →
  frame (λ a, within at_ 16 a ∨ within (at_ + sz - 8) 8 a) m (head_init m at_ sz).
Proof.
  intros H0 Hsz Hend. unfold head_init, heap_foot, hdr_size, hdr_link, INIT_LIST, set_next,
    set_prev, SIZEOF_FOOTER, KHEAP_MAGIC.
  repeat (mem_simp; u32s).
  repeat apply frame_st32_step; [apply frame_refl|..]; unfold within; intros i Hi; lia.
Qed.

(** ** [heap_add_hole] marks a block free *)

Fixpoint ins (b : blk) (hs : list blk) : list blk :=
  match hs with
  | [] => [b]
  | c :: hs => if b_sz b <=? b_sz c then b :: c :: hs else c :: ins b hs
  end.

Lemma ins_perm b hs : ins b hs ≡ₚ b :: hs.
Proof.
  induction hs as [|c hs IH]; simpl; [done|]. case_if; [done|]. rewrite IH. apply Permutation_swap.
Qed.

Lemma ins_sorted b hs : StronglySorted le_size hs → StronglySorted le_size (ins b hs).
Proof.
  induction 1 as [|c hs Hs IH Hall]; simpl; [repeat constructor|]. unfold le_size in *. case_if.
  - constructor; [by constructor|]. constructor; [done|].
    eapply Forall_impl; [exact Hall|]. simpl. lia.
  - constructor; [done|]. rewrite ins_perm. constructor; [lia|done].
Qed.

Lemma ins_links key b hs :
  (∀ c, c ∈ b :: hs → key (b_link c) = b_sz c) →
  insert_ordered key (b_link b) (b_link <$> hs) = b_link <$> ins b hs.
Proof.
  intros Hk. induction hs as [|c hs IH]; simpl; [done|].
  rewrite !Hk by set_solver. case_if; [done|]. simpl. f_equal. apply IH. set_solver.
Qed.

Section AddHole.
Context (hd start stop : Z).
Notation HOK m := (heap_ok m hd start stop).
Notation EOK m := (env_ok m hd start stop).

  (** Rewriting the header and footer of a busy block in place. *)
Lemma heap_ok_rewrite P m m' l b r hs :
    HOK m (l ++ b :: r) hs → b_free b = false →
    frame P m m' → (∀ a, P a → within (b_at b) (b_sz b) a) → blk_ok m' b →
    HOK m' (l ++ b :: r) hs.
Proof.
    intros Hok Hb HF HP Hblk. change (b :: r) with ([b] ++ r) in *.
    apply heap_ok_env in Hok as [Henv _]. apply heap_ok_env. split; [|by apply Forall_singleton].
    pose proof Henv as (_ & _ & _ & Ht & _). apply tiles_split in Ht as (Hl & Hsz & Hr).
    eapply env_frame; [exact Henv|exact Hl| |exact Hr|exact HF|]; [done|].
    intros a Ha. specialize (HP a Ha). unfold within, b_end in *. split; [lia|].
    intros c Hc. assert (c = b) as -> by set_solver. congruence.
Qed.

Lemma new_link_ok m l b r hs :
    HOK m (l ++ b :: r) hs → b_free b = false →
    nodes_ok (b_link b :: hd :: (b_link <$> hs)).
Proof.
    intros Hok Hb. assert (b ∈ l ++ b :: r) as Hin by set_solver.
    pose proof (heap_ok_range _ _ _ _ _ _ _ Hok Hin) as Hrb.
    apply nodes_ok_cons; [by destruct Hok as (_ & _ & _ & _ & _ & [_ ?] & _)| | |];
      unfold b_link, hdr_link; try lia.
    intros n [->|Hn]%elem_of_cons; [right; lia|].
    apply list_elem_of_fmap in Hn as (c & -> & Hc).
    apply (heap_ok_hole _ _ _ _ _ _ c Hok) in Hc as [Hc Hfree].
    pose proof (heap_ok_range _ _ _ _ _ _ _ Hok Hc) as Hrc.
    destruct Hok as (_ & _ & _ & Ht & _).
    destruct (tiles_distinct _ _ _ _ _ Ht Hin Hc) as [->|Hap]; [congruence|].
    unfold apart, far, b_link, hdr_link in *. lia.
Qed.

Lemma compare_sizes m v1 v2 :
    (heap_compare_headers m v1 v2 <=? 0) =
    (hdr_size m (link_entry v1) <=? hdr_size m (link_entry v2)).
Proof. unfold heap_compare_headers. repeat case_if; lia. Qed.

  (** The bytes an insertion of [b] may write are apart from the rest. *)
Lemma insert_bytes m l b r hs c a :
    HOK m (l ++ b :: r) hs →
    c ∈ l ++ r ∧ meta c a ∨ c ∈ l ++ b :: r ∧ payload c a ∨ meta (freed b) a →
    ¬ in_nodes (b_link b :: hd :: (b_link <$> hs)) a.
Proof.
    intros Hok Ha (n & Hn & Hw).
    change (b :: r) with ([b] ++ r) in Hok. apply heap_ok_env in Hok as [Henv _].
    pose proof Henv as (_ & _ & _ & Ht & _). pose proof Ht as (_ & Hsz' & _)%tiles_split.
    apply elem_of_cons in Hn as [->|Hn].
    - destruct (decide (c ∈ l ++ r)) as [Hc|Hc].
      + destruct (tiles_apart _ _ _ _ _ _ Ht Hc) as [Hap Hsz].
        unfold meta, payload, within, apart, b_link, hdr_link, b_end in *. simpl in *.
        destruct Ha as [?|[?|[?|[?|[? _]]]]]; (done || lia).
      + assert (Hcb : c ∈ l ++ [b] ++ r → c = b) by set_solver.
        unfold meta, payload, within, b_link, hdr_link, b_end in *. simpl in *.
        destruct Ha as [[? _]|[[->%Hcb ?]|[?|[?|[? _]]]]]; (done || lia).
    - assert (Hlb : list_bytes hd hs a) by (by exists n). destruct Ha as [[Hc Ha]|[[Hc Ha]|Ha]].
      + eapply list_bytes_meta; [exact Henv| |by left|exact Hlb]. set_solver.
      + eapply list_bytes_meta; [exact Henv|exact Hc|by right|exact Hlb].
      + eapply (list_bytes_meta _ _ _ _ _ _ _ _ b a Henv); [set_solver| |exact Hlb].
        left. destruct Ha as [?|[?|[? _]]]; [by left|by right; left|done].
Qed.

Lemma insert_blocks m m' l b r hs :
    HOK m (l ++ b :: r) hs → frame (in_nodes (b_link b :: hd :: (b_link <$> hs))) m m' →
    Forall (blk_ok m') (l ++ freed b :: r) ∧ pres (l ++ b :: r) m m'.
Proof.
    intros Hok HF. split.
    - pose proof Hok as (_ & _ & _ & _ & HB & _). rewrite Forall_forall in HB |- *. intros c Hc.
      destruct (decide (c = freed b)) as [->|Hne].
      + assert (blk_ok m b) as (Ha & Hbz & Hc2 & Hd2 & _) by (apply HB; set_solver).
        assert (blk_ok m (freed b)) as Hfb by (repeat split; done).
        eapply blk_ok_frame; [exact Hfb|exact HF|]. intros a Hma.
        eapply (insert_bytes _ _ _ _ _ b); [exact Hok|by right; right].
      + eapply blk_ok_frame; [apply HB; set_solver|exact HF|].
        intros a Ha. eapply (insert_bytes _ _ _ _ _ c); [exact Hok|].
        left. split; [|done]. set_solver.
    - eapply frame_pres; [exact HF|]. intros c a Hc Ha.
      eapply (insert_bytes _ _ _ _ _ c); [exact Hok|]. auto.
Qed.

  (** Inserting the link of a busy block into the hole list frees it. *)
Lemma heap_ok_insert fuel m l b r hs :
    HOK m (l ++ b :: r) hs → b_free b = false → (length hs < fuel)%nat →
    ∃ m', list_add_ordered fuel heap_compare_headers m (b_link b) hd = Some m'
      ∧ HOK m' (l ++ freed b :: r) (ins (freed b) hs) ∧ pres (l ++ b :: r) m m'.
Proof.
    intros Hok Hb Hfuel. pose proof (new_link_ok _ _ _ _ _ Hok Hb) as Hnodes.
    set (key := λ n, hdr_size m (link_entry n)).
    assert (Hkey : ∀ c, c ∈ l ++ b :: r → key (b_link c) = b_sz c).
    { intros c Hc. unfold key, link_entry, b_link, hdr_link. rewrite Z.add_simpl_r.
      by destruct (heap_ok_blk _ _ _ _ _ _ c Hok Hc) as (_ & ? & _). }
    destruct (list_add_ordered_spec heap_compare_headers key fuel m hd (b_link <$> hs) (b_link b))
      as (m' & Hm' & Hd' & HF).
    { by destruct Hok as (_ & _ & _ & _ & _ & ? & _). }
    { done. }
    { intros y _. apply compare_sizes. }
    { by rewrite length_fmap. }
    destruct (insert_blocks _ _ _ _ _ _ Hok HF) as [HB Hp].
    exists m'. split; [done|]. split; [|done].
    pose proof Hok as (H1 & H2 & H3 & Ht & _ & _ & HPm & Hs).
    split; [done|]. split; [done|]. split; [done|].
    split; [apply tiles_app in Ht as (x & ? & ?); apply tiles_app; by exists x|].
    split; [done|split; [|split; [|by apply ins_sorted]]].
    - change (b_link b) with (b_link (freed b)) in Hd'.
      rewrite (ins_links key (freed b) hs) in Hd'; [done|].
      intros c [->|Hc]%elem_of_cons; [apply (Hkey b); set_solver|]. apply Hkey.
      by apply (heap_ok_hole _ _ _ _ _ _ c Hok) in Hc as [? _].
    - rewrite ins_perm, HPm. unfold holes_of. rewrite !filter_app.
      rewrite (filter_cons_True _ (freed b)), (filter_cons_False _ b) by (done || congruence).
      by rewrite Permutation_middle.
Qed.

Lemma heap_ok_add_hole fuel h m l b r hs :
    holes h = hd → HOK m (l ++ b :: r) hs → b_free b = false → (length hs < fuel)%nat →
    ∃ m', heap_add_hole fuel h m (b_at b) = Ret m'
      ∧ HOK m' (l ++ freed b :: r) (ins (freed b) hs) ∧ pres (l ++ b :: r) m m'.
Proof.
    intros Hh Hok Hb Hfuel. unfold heap_add_hole.
    assert (b ∈ l ++ b :: r) as Hin by set_solver.
    pose proof (heap_ok_range _ _ _ _ _ _ _ Hok Hin) as Hr.
    destruct (heap_ok_blk _ _ _ _ _ _ b Hok Hin) as (_ & Hsize & _). rewrite Hsize.
    pose proof (head_init_frame m (b_at b) (b_sz b) ltac:(lia) ltac:(lia) ltac:(lia)) as HF.
    assert (HOK (head_init m (b_at b) (b_sz b)) (l ++ b :: r) hs) as Hok1.
    { eapply heap_ok_rewrite; [exact Hok|done|exact HF| |].
      - intros a [?|?]; unfold within in *; lia.
      - destruct b as [at_ sz fr]; simpl in *. subst fr. apply head_init_blk; lia. }
    destruct (heap_ok_insert fuel _ l b r hs Hok1 Hb Hfuel) as (m' & Hm' & Hok' & Hp).
    exists m'. rewrite Hh. change (hdr_link (b_at b)) with (b_link b). rewrite Hm'.
    split; [done|]. split; [done|]. eapply pres_trans; [|exact Hp].
    eapply frame_pres; [exact HF|]. intros c a Hc Ha.
    destruct Hok as (_ & _ & _ & Ht & _).
    destruct (tiles_distinct _ _ _ _ _ Ht Hin Hc) as [->|Hap];
      unfold apart, payload, within, b_end in *; lia.
Qed.
End AddHole.
