(* ===== verification/KHeapOps.v ===== *)
(** Splitting, joining and freeing blocks of the kernel heap: the loops of
    [heap_free_nolock] and the split of [heap_trim], each shown to be a
    change of the block list of the invariant [heap_ok]. *)

From S2P Require Import Prelude Memory LinkedList KHeap KHeapInv.

Definition is_free (b : blk) : Prop := b_free b = true.

(** The list does not end (start) with a free block. *)
Definition ends_busy (l : list blk) : Prop := ∀ b, last l = Some b → b_free b = false.
Definition starts_busy (l : list blk) : Prop := ∀ b, head l = Some b → b_free b = false.

Section Ops.
Context (hd start stop : Z).
Notation HOK m := (heap_ok m hd start stop).
Notation EOK m := (env_ok m hd start stop).

  (** [list_rem] on a hole. *)
Lemma heap_ok_unlink m l b r hs :
    HOK m (l ++ b :: r) hs → b_free b = true →
    ∃ hs', HOK (list_rem m (b_link b)) (l ++ busy b :: r) hs' ∧ hs ≡ₚ b :: hs'
      ∧ pres (l ++ b :: r) m (list_rem m (b_link b))
      ∧ frame (list_bytes hd hs) m (list_rem m (b_link b)).
Proof.
    intros Hok Hfree. assert (b ∈ hs) as Hin by (apply (heap_ok_hole _ _ _ _ _ _ b Hok); set_solver).
    apply list_elem_of_split in Hin as (h1 & h2 & ->). change (b :: r) with ([b] ++ r) in Hok.
    apply heap_ok_env in Hok as [Henv HB]. rewrite Forall_singleton in HB.
    pose proof (list_rem_bytes _ _ _ _ _ _ _ _ _ b _ Henv eq_refl) as HF.
    destruct (env_unlink _ _ _ _ _ _ _ _ _ Henv) as [Henv' Hlon].
    exists (h1 ++ h2). split; [|split; [by rewrite Permutation_middle|split; [|done]]].
    - change (busy b :: r) with ([busy b] ++ r). apply heap_ok_env. split; [done|].
      apply Forall_singleton. assert (blk_ok (list_rem m (b_link b)) b) as (? & ? & ? & ? & _).
      { eapply blk_ok_frame; [exact HB|exact HF|]. intros a Ha.
        eapply list_bytes_meta; [exact Henv| |by left]. set_solver. }
      by repeat split; try apply Hlon.
    - eapply frame_pres; [exact HF|]. intros c a Hc Ha.
      eapply list_bytes_meta; [exact Henv|exact Hc|by right].
Qed.

  (** [head_init] over two adjacent busy blocks joins them. *)
Lemma heap_ok_join m l b c r hs :
    HOK m (l ++ b :: c :: r) hs → b_free b = false → b_free c = false →
    HOK (head_init m (b_at b) (b_sz b + b_sz c))
        (l ++ mk_blk (b_at b) (b_sz b + b_sz c) false :: r) hs
    ∧ frame (λ a, within (b_at b) 16 a ∨ within (b_end c - 8) 8 a) m
            (head_init m (b_at b) (b_sz b + b_sz c))
    ∧ b_at c = b_end b.
Proof.
    intros Hok Hb Hc. pose proof Hok as (_ & _ & _ & Ht & _).
    apply tiles_split in Ht as (Hl & Hszb & (Hcat & Hszc & Hr)).
    assert (b ∈ l ++ b :: c :: r) as Hbin by set_solver.
    assert (c ∈ l ++ b :: c :: r) as Hcin by set_solver.
    pose proof (heap_ok_range _ _ _ _ _ _ _ Hok Hbin) as Hrb.
    pose proof (heap_ok_range _ _ _ _ _ _ _ Hok Hcin) as Hrc.
    set (bc := mk_blk (b_at b) (b_sz b + b_sz c) false).
    assert (Hend : b_end bc = b_end c) by (unfold b_end in *; simpl; lia).
    pose proof (head_init_frame m (b_at b) (b_sz b + b_sz c) ltac:(lia) ltac:(lia) ltac:(lia)) as HF.
    replace (b_at b + (b_sz b + b_sz c) - 8) with (b_end c - 8) in HF by lia.
    split; [|split; [exact HF|done]].
    change (bc :: r) with ([bc] ++ r). apply heap_ok_env.
    split; [|apply Forall_singleton, head_init_blk; lia].
    change (b :: c :: r) with ([b; c] ++ r) in Hok. apply heap_ok_env in Hok as [Henv _].
    assert (Hbc : tiles (b_at b) [bc] (b_end c)) by (rewrite <- Hend; repeat split; simpl; lia).
    eapply env_frame; [|exact Hl|exact Hbc|exact Hr|exact HF|].
    - eapply env_recut; [exact Henv|exact Hl| |exact Hr|exact Hbc| |]; [done| |].
      + by repeat constructor.
      + by apply Forall_singleton.
    - intros a Ha. unfold within in *. split; [lia|].
      intros x ->%list_elem_of_singleton. simpl. done.
Qed.

  (** The writes by which [heap_trim] cuts a hole in two busy blocks. *)
Definition split_writes (m : mem) (at_ sz sz1 : Z) : mem :=
    let m := head_init m (at_ + sz1) (sz - sz1) in
    let m := list_rem m (hdr_link at_) in
    head_init m at_ sz1.

  (** Cutting a busy region in two: the second header is already there. *)
Lemma heap_ok_cut m l b r hs sz1 :
    let b1 := mk_blk (b_at b) sz1 false in
    let b2 := mk_blk (b_at b + sz1) (b_sz b - sz1) false in
    EOK m l [b] r hs → b_free b = false → 24 <= sz1 → sz1 + 24 <= b_sz b → blk_ok m b2 →
    HOK (head_init m (b_at b) sz1) (l ++ b1 :: b2 :: r) hs
    ∧ frame (within (b_at b) (b_sz b)) m (head_init m (b_at b) sz1).
Proof.
    intros b1 b2 Henv Hb H1 H2 Hb2.
    pose proof (env_ok_blocks _ _ _ _ _ _ _ _ b Henv ltac:(set_solver)) as Hr.
    pose proof Henv as (Hhd & Hhd8 & Hst & Ht & _). apply tiles_split in Ht as (Hl & _ & Hrr).
    pose proof (head_init_frame m (b_at b) sz1 ltac:(lia) ltac:(lia) ltac:(lia)) as HF.
    split; [|eapply frame_weaken; [|exact HF]; unfold within; lia].
    assert (Hcs : tiles (b_at b) [b1; b2] (b_end b)) by (repeat split; unfold b_end; simpl; lia).
    change (b1 :: b2 :: r) with ([b1; b2] ++ r). apply heap_ok_env. split.
    - eapply env_frame; [|exact Hl|exact Hcs|exact Hrr|exact HF|].
      + eapply env_recut; [exact Henv|exact Hl| |exact Hrr|exact Hcs| |];
          [by repeat split; simpl; lia|by repeat constructor..].
      + intros a Ha. unfold within in *. split; [unfold b_end; lia|].
        intros c Hc Hf. exfalso. apply elem_of_cons in Hc as [->|Hc]; [done|].
        apply list_elem_of_singleton in Hc as ->. done.
    - apply Forall_cons. split; [apply head_init_blk; lia|]. apply Forall_singleton.
      eapply blk_ok_frame; [exact Hb2|exact HF|].
      unfold meta, within, b_end, b_link, hdr_link; simpl; lia.
Qed.

  (** [heap_trim] splits a hole into two busy blocks. *)
Lemma heap_ok_split m l b r hs sz1 :
    HOK m (l ++ b :: r) hs → b_free b = true → 24 <= sz1 → sz1 + 24 <= b_sz b →
    ∃ hs', HOK (split_writes m (b_at b) (b_sz b) sz1)
               (l ++ mk_blk (b_at b) sz1 false :: mk_blk (b_at b + sz1) (b_sz b - sz1) false :: r) hs'
      ∧ hs ≡ₚ b :: hs' ∧ pres (l ++ r) m (split_writes m (b_at b) (b_sz b) sz1).
Proof.
    intros Hok Hfree H1 H2. assert (b ∈ l ++ b :: r) as Hbin by set_solver.
    pose proof (heap_ok_range _ _ _ _ _ _ _ Hok Hbin) as Hr.
    assert (b ∈ hs) as Hin by (by apply (heap_ok_hole _ _ _ _ _ _ b Hok)).
    apply list_elem_of_split in Hin as (h1 & h2 & ->).
    pose proof Hok as (_ & _ & _ & Ht & _). pose proof Ht as (Hl & _ & Hrr)%tiles_split.
    change (b :: r) with ([b] ++ r) in Hok. apply heap_ok_env in Hok as [Henv _].
    unfold split_writes. set (m1 := head_init m _ _). set (m2 := list_rem m1 _).
    pose proof (head_init_frame m (b_at b + sz1) (b_sz b - sz1)
                  ltac:(lia) ltac:(lia) ltac:(lia)) as HF1. fold m1 in HF1.
    assert (EOK m1 l [b] r (h1 ++ b :: h2)) as Henv1.
    { eapply env_frame; [exact Henv|exact Hl| |exact Hrr|exact HF1|]; [by repeat split; lia|].
      intros a Ha. unfold within in *. split; [unfold b_end; lia|].
      intros c ->%list_elem_of_singleton _. unfold b_link, hdr_link. lia. }
    pose proof (list_rem_bytes _ _ _ _ _ _ _ _ _ b _ Henv1 eq_refl) as HF2.
    destruct (env_unlink _ _ _ _ _ _ _ _ _ Henv1) as [Henv2 _].
    change (b_link b) with (hdr_link (b_at b)) in HF2, Henv2. fold m2 in HF2, Henv2.
    destruct (heap_ok_cut m2 l (busy b) r (h1 ++ h2) sz1 Henv2 eq_refl H1 H2) as [Hok3 HF3].
    { eapply blk_ok_frame; [apply (head_init_blk m); simpl; lia|exact HF2|].
      intros a Ha. eapply (list_bytes_meta _ _ _ _ _ _ _ _ b a Henv1); [set_solver|].
      unfold meta, payload, within, b_end, b_link, hdr_link in *; simpl in *. lia. }
    exists (h1 ++ h2). split; [exact Hok3|split; [by rewrite Permutation_middle|]].
    assert (Hp : ∀ P n n', frame P n n' → (∀ a, P a → within (b_at b) (b_sz b) a) → pres (l ++ r) n n').
    { intros P n n' HF HP. eapply frame_pres; [exact HF|]. intros c a Hc Ha HPa%HP.
      destruct (tiles_apart _ _ _ _ _ _ Ht Hc) as [Hap _]. unfold apart, payload, within, b_end in *. lia. }
    eapply pres_trans; [eapply Hp; [exact HF1|unfold within; lia]|].
    eapply pres_trans; [|eapply Hp; [exact HF3|done]].
    eapply frame_pres; [exact HF2|]. intros c a Hc Ha.
    eapply list_bytes_meta; [exact Henv1| |by right]. set_solver.
Qed.

  (** ** Walking the blocks *)

Lemma head_prev_spec m l p b r hs :
    HOK m (l ++ p :: b :: r) hs → head_prev m (b_at b) = b_at p ∧ start ≠ b_at b.
Proof.
    intros Hok. pose proof Hok as (H0 & H1 & _ & Ht & _).
    assert (p ∈ l ++ p :: b :: r) as Hp by set_solver.
    pose proof (heap_ok_range _ _ _ _ _ _ _ Hok Hp) as Hr.
    destruct (heap_ok_blk _ _ _ _ _ _ p Hok Hp) as (_ & _ & _ & Hback & _).
    apply tiles_split in Ht as (Hl & _ & (Hat & Hsz & _)). apply tiles_le in Hl.
    unfold head_prev, SIZEOF_FOOTER. u32s. split; [|lia].
    replace (b_at b - 8 + 4) with (b_end p - 4) by lia. done.
Qed.

Lemma head_next_spec m l b r hs :
    HOK m (l ++ b :: r) hs → head_next m (b_at b) = b_end b.
Proof.
    intros Hok. assert (b ∈ l ++ b :: r) as Hb by set_solver.
    pose proof (heap_ok_range _ _ _ _ _ _ _ Hok Hb) as Hr.
    destruct (heap_ok_blk _ _ _ _ _ _ b Hok Hb) as (_ & Hs & _).
    unfold head_next. rewrite Hs. u32s. done.
Qed.

Lemma app_snoc_cons {A} (l : list A) x r : (l ++ [x]) ++ r = l ++ x :: r.
Proof. by rewrite <- app_assoc. Qed.

Definition kept (lo hi : Z) (m m' : mem) : Prop := ∀ a, lo <= a < hi → ld8 m' a = ld8 m a.

  (** One round of "combine backwards". *)
Lemma merge_back_step m l p b r hs :
    HOK m (l ++ p :: b :: r) hs → b_free p = true → b_free b = false →
    let m1 := list_rem m (b_link p) in
    let m2 := head_init m1 (b_at p) (u32 (hdr_size m1 (b_at p) + hdr_size m1 (b_at b))) in
    let pb := mk_blk (b_at p) (b_sz p + b_sz b) false in
    ∃ hs', HOK m2 (l ++ pb :: r) hs' ∧ hs ≡ₚ p :: hs' ∧ b_end pb = b_end b
      ∧ b_at b = b_end p ∧ pres (l ++ r) m m2 ∧ kept (b_at b) (b_end b - 8) m m2.
Proof.
    intros Hok Hp Hb m1 m2 pb.
    destruct (heap_ok_unlink _ _ _ _ _ Hok Hp) as (hs' & Hok1 & Hperm & Hpr & HF1).
    fold m1 in Hok1, Hpr, HF1. exists hs'.
    pose proof (heap_ok_range _ _ _ _ _ _ (busy p) Hok1 ltac:(set_solver)) as Hrp.
    pose proof (heap_ok_range _ _ _ _ _ _ b Hok1 ltac:(set_solver)) as Hrb. simpl in Hrp.
    destruct (heap_ok_blk _ _ _ _ _ _ (busy p) Hok1 ltac:(set_solver)) as (_ & Hsp & _).
    destruct (heap_ok_blk _ _ _ _ _ _ b Hok1 ltac:(set_solver)) as (_ & Hsb & _).
    destruct (heap_ok_join _ l (busy p) b r hs' Hok1 eq_refl Hb) as (Hok2 & HF2 & Hat).
    simpl in Hsp, Hok2, HF2. change (b_end (busy p)) with (b_end p) in *.
    unfold m2. rewrite Hsp, Hsb. rewrite u32_small by (unfold b_end in *; lia).
    split; [exact Hok2|]. split; [done|]. split; [unfold b_end in *; simpl; lia|]. split; [done|].
    pose proof Hok as (_ & _ & _ & Ht & _).
    split.
    - eapply pres_trans; [eapply pres_mono; [|exact Hpr]; set_solver|].
      eapply frame_pres; [exact HF2|]. intros c a Hc Ha.
      pose proof Ht as Ht2. rewrite <- app_snoc_cons in Ht2.
      destruct (tiles_apart _ l p (b :: r) _ c Ht ltac:(set_solver)) as [Hap1 _].
      destruct (tiles_apart _ _ b r _ c Ht2 ltac:(set_solver)) as [Hap2 _].
      unfold apart, payload, within, b_end in *. lia.
    - intros a Ha. unfold m2. rewrite HF2 by (unfold within, b_end in *; lia). apply HF1.
      change (p :: b :: r) with ([p; b] ++ r) in Hok. apply heap_ok_env in Hok as [Henv _].
      eapply (list_bytes_meta _ _ _ _ _ _ _ _ b a Henv); [set_solver|].
      unfold meta, payload, within, b_link, hdr_link. rewrite Hb. lia.
Qed.

Lemma merge_back_spec h m l b r hs fuel :
    memstart h = start → HOK m (l ++ b :: r) hs → b_free b = false → (length l < fuel)%nat →
    ∃ m' l1 l2 b' hs', merge_back fuel h m (b_at b) = Ret (m', b_at b')
      ∧ l = l1 ++ l2 ∧ Forall is_free l2 ∧ ends_busy l1
      ∧ b_free b' = false ∧ b_end b' = b_end b
      ∧ HOK m' (l1 ++ b' :: r) hs' ∧ (length hs' <= length hs)%nat
      ∧ pres (l1 ++ r) m m' ∧ kept (b_at b) (b_end b - 8) m m' ∧ (l2 = [] → b' = b).
Proof.
    intros Hst. revert m l b hs. induction fuel as [|fuel IH]; intros m l b hs Hok Hb Hfuel; [lia|].
    cbn [merge_back]. unfold heap_is_first. rewrite Hst.
    destruct l as [|p l _] using rev_ind.
    - assert (Hat : start = b_at b) by (by destruct Hok as (_ & _ & _ & (<- & _) & _)).
      rewrite (proj2 (Z.eqb_eq _ _) Hat). simpl.
      exists m, [], [], b, hs. do 7 (split; [done|]). split; [lia|done].
    - rewrite app_snoc_cons in Hok. destruct (head_prev_spec _ _ _ _ _ _ Hok) as [Hprev Hne].
      rewrite (proj2 (Z.eqb_neq _ _) Hne), Hprev. change (hdr_link (b_at p)) with (b_link p).
      rewrite (heap_ok_inserted _ _ _ _ _ _ p Hok) by set_solver. simpl.
      destruct (b_free p) eqn:Hp.
      + destruct (merge_back_step _ _ _ _ _ _ Hok Hp Hb)
          as (hs1 & Hok1 & Hperm & Hend & Hat & Hpr & Hk).
        set (pb := mk_blk _ _ _) in *.
        destruct (IH _ l pb hs1 Hok1 eq_refl) as
          (m' & l1 & l2 & b' & hs' & Hm' & Hl & Hf & He & Hb' & Hbe & Hok' & Hlen & Hpr' & Hk' & _).
        { rewrite length_app in Hfuel. simpl in Hfuel. lia. }
        exists m', l1, (l2 ++ [p]), b', hs'. split; [exact Hm'|].
        split; [by rewrite Hl, app_assoc|]. split; [apply Forall_app; split; [done|by apply Forall_singleton]|].
        split; [done|]. split; [done|]. split; [congruence|]. split; [done|].
        split; [apply Permutation_length in Hperm; simpl in Hperm; lia|].
        split; [eapply pres_trans; [eapply pres_mono; [|exact Hpr]; set_solver|done]|].
        split; [|by destruct l2].
        intros a Ha. rewrite Hk', Hk; [done|done|].
        destruct Hok as (_ & _ & _ & Ht & _). apply tiles_split in Ht as (_ & Hsz & _).
        unfold b_end in *. simpl in *. lia.
      + exists m, (l ++ [p]), [], b, hs. split; [done|]. split; [by rewrite app_nil_r|].
        split; [done|]. split; [intros x; rewrite last_snoc; congruence|].
        split; [done|]. split; [done|]. split; [by rewrite app_snoc_cons|]. split; [lia|done].
Qed.

  (** One round of "combine forwards". *)
Lemma merge_fwd_step m l b n r hs :
    HOK m (l ++ b :: n :: r) hs → b_free n = true → b_free b = false →
    let m1 := list_rem m (b_link n) in
    let m2 := head_init m1 (b_at b) (u32 (hdr_size m1 (b_at b) + hdr_size m1 (b_at n))) in
    let bn := mk_blk (b_at b) (b_sz b + b_sz n) false in
    ∃ hs', HOK m2 (l ++ bn :: r) hs' ∧ hs ≡ₚ n :: hs' ∧ pres (l ++ r) m m2 ∧ 0 <= b_sz n.
Proof.
    intros Hok Hn Hb m1 m2 bn. pose proof Hok as (_ & _ & _ & Ht & _).
    rewrite <- app_snoc_cons in Hok.
    destruct (heap_ok_unlink _ _ _ _ _ Hok Hn) as (hs' & Hok1 & Hperm & Hpr & _).
    fold m1 in Hok1, Hpr. rewrite app_snoc_cons in Hok1. exists hs'.
    pose proof (heap_ok_range _ _ _ _ _ _ (busy n) Hok1 ltac:(set_solver)) as Hrn.
    pose proof (heap_ok_range _ _ _ _ _ _ b Hok1 ltac:(set_solver)) as Hrb. simpl in Hrn.
    destruct (heap_ok_blk _ _ _ _ _ _ (busy n) Hok1 ltac:(set_solver)) as (_ & Hsn & _).
    destruct (heap_ok_blk _ _ _ _ _ _ b Hok1 ltac:(set_solver)) as (_ & Hsb & _).
    destruct (heap_ok_join _ l b (busy n) r hs' Hok1 Hb eq_refl) as (Hok2 & HF2 & Hat).
    simpl in Hsn, Hok2, HF2, Hat. unfold m2. rewrite Hsn, Hsb.
    rewrite u32_small by (unfold b_end in *; simpl in *; lia).
    split; [exact Hok2|]. split; [done|]. split; [|lia].
    eapply pres_trans; [eapply pres_mono; [|exact Hpr]; set_solver|].
    eapply frame_pres; [exact HF2|]. intros c a Hc Ha.
    pose proof Ht as Ht2. rewrite <- app_snoc_cons in Ht2.
    destruct (tiles_apart _ l b (n :: r) _ c Ht ltac:(set_solver)) as [Hap1 _].
    destruct (tiles_apart _ _ n r _ c Ht2 ltac:(set_solver)) as [Hap2 _].
    change (b_end (busy n)) with (b_end n). unfold apart, payload, within, b_end in *. lia.
Qed.

Lemma heap_is_last_spec h m l b r hs :
    memend h = stop → HOK m (l ++ b :: r) hs →
    heap_is_last h m (b_at b) = bool_decide (r = []).
Proof.
    intros Hst Hok. assert (b ∈ l ++ b :: r) as Hb by set_solver.
    unfold heap_is_last. rewrite Hst.
    change (u32 (b_at b + hdr_size m (b_at b))) with (head_next m (b_at b)).
    rewrite (head_next_spec _ _ _ _ _ Hok). pose proof Hok as (_ & _ & _ & Ht & _).
    apply tiles_split in Ht as (_ & _ & Hr). destruct r as [|n r].
    - simpl in Hr. rewrite Hr, Z.eqb_refl. done.
    - destruct Hr as (Hat & Hsz & Hr%tiles_le). unfold b_end in *.
      rewrite (proj2 (Z.eqb_neq _ _)) by lia. done.
Qed.

Lemma merge_fwd_spec h m l b r hs fuel :
    memend h = stop → HOK m (l ++ b :: r) hs → b_free b = false → (length r < fuel)%nat →
    ∃ m' r1 r2 b' hs', merge_fwd fuel h m (b_at b) = Ret m'
      ∧ r = r1 ++ r2 ∧ Forall is_free r1 ∧ starts_busy r2
      ∧ b_free b' = false ∧ b_at b' = b_at b ∧ b_sz b <= b_sz b'
      ∧ HOK m' (l ++ b' :: r2) hs' ∧ (length hs' <= length hs)%nat
      ∧ pres (l ++ r2) m m' ∧ (r = [] → m' = m ∧ b' = b).
Proof.
    intros Hst. revert m b r hs. induction fuel as [|fuel IH]; intros m b r hs Hok Hb Hfuel; [lia|].
    cbn [merge_fwd]. rewrite (heap_is_last_spec _ _ _ _ _ _ Hst Hok).
    destruct r as [|n r]; simpl.
    - exists m, [], [], b, hs. do 6 (split; [done|]). split; [lia|]. split; [done|]. split; [lia|done].
    - pose proof Hok as (_ & _ & _ & Ht & _).
      apply tiles_split in Ht as (_ & _ & (Hat & _)).
      rewrite (head_next_spec _ _ _ _ _ Hok), <- Hat.
      change (hdr_link (b_at n)) with (b_link n).
      rewrite (heap_ok_inserted _ _ _ _ _ _ n Hok) by set_solver.
      destruct (b_free n) eqn:Hn.
      + destruct (merge_fwd_step _ _ _ _ _ _ Hok Hn Hb) as (hs1 & Hok1 & Hperm & Hpr & Hsz).
        set (bn := mk_blk _ _ _) in *.
        destruct (IH _ bn r hs1 Hok1 eq_refl) as
          (m' & r1 & r2 & b' & hs' & Hm' & Hr & Hf & He & Hb' & Hba & Hbs & Hok' & Hlen & Hpr' & _).
        { simpl in Hfuel. lia. }
        exists m', (n :: r1), r2, b', hs'. split; [exact Hm'|].
        split; [by rewrite Hr|]. split; [by constructor|].
        split; [done|]. split; [done|]. split; [done|]. split; [simpl in Hbs; lia|]. split; [done|].
        split; [apply Permutation_length in Hperm; simpl in Hperm; lia|].
        split; [|done]. eapply pres_trans; [eapply pres_mono; [|exact Hpr]; set_solver|done].
      + exists m, [], (n :: r), b, hs. do 3 (split; [done|]).
        split; [intros x [= <-]; done|]. do 2 (split; [done|]). split; [lia|]. split; [done|].
        split; [lia|done].
Qed.

  (** ** [heap_free_nolock] *)

  (** [absorbed bs b bs' b']: [bs'] is [bs] with busy [b] replaced by the
      free block [b'] that also covers the free blocks around [b]. *)
Definition absorbed (l : list blk) (b : blk) (r : list blk) (l1 : list blk) (b' : blk)
      (r2 : list blk) : Prop :=
    ∃ l2 r1, l = l1 ++ l2 ∧ r = r1 ++ r2 ∧ Forall is_free (l2 ++ r1)
      ∧ ends_busy l1 ∧ starts_busy r2 ∧ b_free b' = true.

  (** The footer and link are rewritten once more before insertion. *)
Lemma refoot_ok h m l b r hs fuel :
    holes h = hd → HOK m (l ++ b :: r) hs → b_free b = false → (length hs < fuel)%nat →
    let m1 := INIT_LIST (st32 (st32 m (heap_foot m (b_at b)) KHEAP_MAGIC)
                              (heap_foot (st32 m (heap_foot m (b_at b)) KHEAP_MAGIC) (b_at b) + 4)
                              (b_at b)) (hdr_link (b_at b)) in
    ∃ m', heap_add_hole fuel h m1 (b_at b) = Ret m'
      ∧ HOK m' (l ++ freed b :: r) (ins (freed b) hs) ∧ pres (l ++ b :: r) m m'.
Proof.
    intros Hh Hok Hb Hfuel. assert (b ∈ l ++ b :: r) as Hin by set_solver.
    pose proof (heap_ok_range _ _ _ _ _ _ _ Hok Hin) as Hr.
    destruct (heap_ok_blk _ _ _ _ _ _ b Hok Hin) as (Hm & Hs & Hf1 & Hf2 & Hl).
    unfold heap_foot, hdr_size, hdr_magic, SIZEOF_FOOTER in *. rewrite Hs. u32s.
    unfold KHEAP_MAGIC in *. mem_simp. rewrite Hs. u32s.
    replace (b_at b + b_sz b - 8) with (b_end b - 8) by lia. set (m1 := INIT_LIST _ _).
    assert (HF : frame (λ a, within (b_link b) 8 a ∨ within (b_end b - 8) 8 a) m m1).
    { eapply frame_trans; [|eapply frame_weaken; [|apply INIT_LIST_frame]; by left].
      repeat apply frame_st32_step; [apply frame_refl|..]; unfold within; intros i Hi; lia. }
    assert (HOK m1 (l ++ b :: r) hs) as Hok1.
    { eapply heap_ok_rewrite; [exact Hok|done|exact HF| |].
      - unfold within, b_link, hdr_link. intros; lia.
      - unfold m1, blk_ok, lonely, INIT_LIST, list_next, list_prev, set_next, set_prev, hdr_magic,
          hdr_size, b_link, hdr_link, KHEAP_MAGIC in *.
        repeat split; intros; repeat (mem_simp; u32s); done. }
    destruct (heap_ok_add_hole _ _ _ _ h m1 l b r hs Hh Hok1 Hb Hfuel) as (m' & Hm' & Hok' & Hp).
    exists m'. split; [done|]. split; [done|]. eapply pres_trans; [|exact Hp].
    eapply frame_pres; [exact HF|]. intros c a Hc Ha. pose proof Hok as (_ & _ & _ & Ht & _).
    destruct (tiles_distinct _ _ _ _ _ Ht Hin Hc) as [->|Hap];
      unfold apart, payload, within, b_link, hdr_link, b_end in *; lia.
Qed.
  (** Bytes that become payload of the merged block keep their value, so the
      header of a block merged into its predecessor can still be read. *)
Lemma stale_size m0 m m' l1 l2 b b1 bs hs :
    tiles start (l1 ++ l2) (b_at b) → tiles start l1 (b_at b1) → b_end b1 = b_end b →
    24 <= b_sz b → hdr_size m0 (b_at b) = b_sz b → kept (b_at b) (b_end b - 8) m0 m →
    pres [b1] m m' → HOK m' bs hs → freed b1 ∈ bs → (l2 = [] → b1 = b) →
    hdr_size m' (b_at b) = b_sz b.
Proof.
    intros Ht Hl1 Hend Hsz Hs Hk Hp Hok Hin He. destruct l2 as [|c l2].
    - destruct (heap_ok_blk _ _ _ _ _ _ _ Hok Hin) as (_ & Hs' & _). simpl in Hs'.
      rewrite (He eq_refl) in Hs'. lia.
    - apply tiles_app in Ht as (x & Hx & (Hc & Hsc & Hr%tiles_le)).
      rewrite (tiles_fun _ _ _ _ Hx Hl1) in *.
      assert (hdr_size m' (b_at b) = hdr_size m0 (b_at b)) as ->; [|lia].
      unfold hdr_size, ld32, b_end in *.
      rewrite !(Hp b1) by (set_solver || (unfold payload, b_end; lia)).
      rewrite !Hk by lia. done.
Qed.

Lemma heap_free_nolock_spec h m l b r hs fuel :
    memstart h = start → memend h = stop → holes h = hd →
    HOK m (l ++ b :: r) hs → b_free b = false →
    (length l < fuel)%nat → (length r < fuel)%nat → (length hs < fuel)%nat →
    ∃ m' l1 b' r2 hs', heap_free_nolock fuel h m (heap_addr (b_at b)) = Ret m'
      ∧ absorbed l b r l1 b' r2 ∧ HOK m' (l1 ++ b' :: r2) hs'
      ∧ pres (l1 ++ r2) m m' ∧ (length hs' <= S (length hs))%nat
      ∧ (r = [] → hdr_size m' (b_at b) = b_sz b).
Proof.
    intros Hst Hen Hhd Hok Hb Hfl Hfr Hfh. assert (b ∈ l ++ b :: r) as Hin by set_solver.
    pose proof (heap_ok_range _ _ _ _ _ _ _ Hok Hin) as Hr.
    destruct (heap_ok_blk _ _ _ _ _ _ b Hok Hin) as (_ & Hsz & _).
    pose proof Hok as (_ & _ & _ & Ht & _). apply tiles_split in Ht as (Htl & _).
    unfold heap_free_nolock, heap_addr, heap_head, SIZEOF_HEADER. u32s.
    rewrite Hst, Hen, (proj2 (Z.ltb_ge _ _)), (proj2 (Z.leb_gt _ _)) by lia. simpl.
    replace (b_at b + 16 - 16) with (b_at b) by lia.
    destruct (merge_back_spec h m l b r hs fuel Hst Hok Hb Hfl) as
      (m1 & l1 & l2 & b1 & hs1 & Hm1 & Hl & Hf1 & He1 & Hb1 & Hend & Hok1 & Hlen1 & Hp1 & Hk & Hnil).
    rewrite Hm1. simpl.
    destruct (merge_fwd_spec h m1 l1 b1 r hs1 fuel Hen Hok1 Hb1 Hfr) as
      (m2 & r1 & r2 & b2 & hs2 & Hm2 & Hrr & Hf2 & He2 & Hb2 & Hat2 & Hs2 & Hok2 & Hlen2 & Hp2 & Hrnil).
    rewrite Hm2. simpl. rewrite <- Hat2.
    destruct (heap_ok_blk _ _ _ _ _ _ b2 Hok2 ltac:(set_solver)) as (Hmag & _).
    rewrite Hmag, Z.eqb_refl. simpl.
    destruct (refoot_ok h m2 l1 b2 r2 hs2 fuel Hhd Hok2 Hb2 ltac:(lia)) as (m' & Hm' & Hok' & Hp').
    exists m', l1, (freed b2), r2, (ins (freed b2) hs2). split; [exact Hm'|].
    split; [exists l2, r1; by rewrite Forall_app|]. split; [exact Hok'|].
    split; [|split; [rewrite (Permutation_length (ins_perm _ _)); simpl; lia|]].
    - eapply pres_trans; [eapply pres_mono; [|exact Hp1]; set_solver|].
      eapply pres_trans; [exact Hp2|]. eapply pres_mono; [|exact Hp']. set_solver.
    - intros Hr0. destruct (Hrnil Hr0) as [-> ->].
      pose proof Hok1 as (_ & _ & _ & Ht1 & _). apply tiles_split in Ht1 as (Ht1 & _).
      eapply (stale_size m m1 m' l1 l2 b b1); try done; [by rewrite <- Hl|lia| |set_solver].
      eapply pres_mono; [|exact Hp']. set_solver.
Qed.
End Ops.
