(* ===== verification/KHeapSpec.v ===== *)
(** What the kernel heap promises.

    The abstract state is the list of blocks of [heap_ok], with no two free
    blocks adjacent ([coalesced]).  [heap_alloc] turns a part of the smallest
    hole that fits into a busy block, [heap_free] turns a busy block and the
    free blocks around it into one hole, [heap_init] makes the first hole; no
    operation changes a byte of another busy block's payload. *)

From S2P Require Import Prelude Memory LinkedList KHeap KHeapInv KHeapOps.

(** * Coalesced block lists *)

Fixpoint coalesced (bs : list blk) : Prop :=
  match bs with
  | [] => True
  | b :: bs => (b_free b = true → starts_busy bs) ∧ coalesced bs
  end.

Lemma starts_busy_app l b r : starts_busy (l ++ b :: r) ↔ starts_busy (l ++ [b]).
Proof. by destruct l. Qed.

Lemma coalesced_busy l b r :
  b_free b = false → coalesced (l ++ b :: r) ↔ coalesced l ∧ coalesced r.
Proof.
  intros Hb. induction l as [|c l IH]; simpl.
  - split; [naive_solver|]. intros [_ ?]. split; [congruence|done].
  - rewrite IH, starts_busy_app. assert (starts_busy (l ++ [b]) ↔ starts_busy l) as ->; [|tauto].
    destruct l; simpl; [|done]. split; [intros _ x; done|]. by intros _ x [= <-].
Qed.

Lemma coalesced_free l b r :
  coalesced l → coalesced r → ends_busy l → starts_busy r → coalesced (l ++ b :: r).
Proof.
  intros Hl Hr He Hs. induction l as [|c l IH]; simpl; [done|].
  destruct Hl as [Hc Hl]. split.
  - intros Hf. destruct l as [|d l]; simpl; [|by apply Hc].
    specialize (He c eq_refl). congruence.
  - apply IH; [done|]. intros x Hx. apply He. destruct l; [done|]. by rewrite last_cons_cons.
Qed.

Lemma coalesced_app l r : coalesced (l ++ r) → coalesced l ∧ coalesced r.
Proof.
  induction l as [|c l IH]; simpl; [done|]. intros [Hc [Hl Hr]%IH]. split; [|done].
  split; [|done]. intros Hf x Hx. apply (Hc Hf). by destruct l.
Qed.

Lemma busy_of_free l : Forall is_free l → busy_of l = [].
Proof.
  induction 1 as [|b l Hb _ IH]; [done|]. unfold busy_of, is_free in *.
  by rewrite filter_cons_False by congruence.
Qed.

Lemma busy_of_app l r : busy_of (l ++ r) = busy_of l ++ busy_of r.
Proof. apply filter_app. Qed.

Lemma busy_of_sub l : busy_of l ⊆ l.
Proof. intros b [_ ?]%list_elem_of_filter. done. Qed.

(** Freeing keeps the other busy blocks and restores coalescing. *)
Lemma absorbed_busy l b r l1 b' r2 :
  absorbed l b r l1 b' r2 →
  busy_of (l1 ++ b' :: r2) = busy_of l ++ busy_of r ∧ busy_of (l ++ r) ⊆ l1 ++ r2.
Proof.
  intros (l2 & r1 & -> & -> & HF & _ & _ & Hb'). apply Forall_app in HF as [HFl HFr].
  rewrite !busy_of_app, (busy_of_free l2), (busy_of_free r1), !app_nil_r by done.
  unfold busy_of at 2. rewrite filter_cons_False by congruence. fold (busy_of r2). split; [done|].
  pose proof (busy_of_sub l1). pose proof (busy_of_sub r2). simpl. set_solver.
Qed.

Lemma absorbed_coalesced l b r l1 b' r2 :
  absorbed l b r l1 b' r2 → coalesced l → coalesced r → coalesced (l1 ++ b' :: r2).
Proof.
  intros (l2 & r1 & -> & -> & _ & He & Hs & _) [Hl _]%coalesced_app [_ Hr]%coalesced_app.
  by apply coalesced_free.
Qed.

(** * Page arithmetic *)

Lemma PAGE_OFFSET_mod x : PAGE_OFFSET x = x mod 4096.
Proof. unfold PAGE_OFFSET. change 4095 with (Z.ones 12). by rewrite Z.land_ones. Qed.

Lemma PAGE_ALIGN_div x : 0 <= x < 4294967296 → PAGE_ALIGN x = x / 4096 * 4096.
Proof.
  intros Hx. unfold PAGE_ALIGN.
  change 4294963200 with (Z.ldiff (Z.ones 32) (Z.ones 12)).
  assert (Z.land x (Z.ldiff (Z.ones 32) (Z.ones 12)) = Z.ldiff x (Z.ones 12)) as ->.
  { apply Z.bits_inj'. intros n Hn. rewrite Z.land_spec, !Z.ldiff_spec.
    destruct (Z.ltb_spec n 32).
    - by rewrite (Z.ones_spec_low 32) by lia.
    - replace (Z.testbit x n) with false; [done|]. symmetry.
      destruct (Z.eq_dec x 0) as [->|]; [apply Z.bits_0|].
      apply Z.bits_above_log2; [lia|]. apply Z.log2_lt_pow2; [lia|].
      apply Z.lt_le_trans with (2 ^ 32); [change (2 ^ 32) with 4294967296; lia|].
      apply Z.pow_le_mono_r; lia. }
  rewrite Z.ldiff_ones_r by lia. rewrite Z.shiftl_mul_pow2, Z.shiftr_div_pow2 by lia. done.
Qed.

(** * Trimming a hole *)

(** The writes of the primitives are only used through their lemmas. *)
#[local] Opaque head_init list_rem heap_free_nolock heap_add_hole.

Section Trim.
Context (h : heap_t).
Notation HOK m := (heap_ok m (holes h) (memstart h) (memend h)).

  (** The tail of a hole goes back to the hole list. *)
Lemma heap_trim_tail_spec fuel m l b r hs reqd :
    HOK m (l ++ b :: r) hs → b_free b = true → 0 <= reqd → reqd + 48 <= b_sz b →
    (length (l ++ b :: r) + 2 < fuel)%nat → (length hs + 1 < fuel)%nat →
    ∃ m' b2 r2 hs', heap_trim_tail fuel h m (b_at b) reqd = Ret (m', Some (b_at b))
      ∧ HOK m' (l ++ mk_blk (b_at b) (reqd + 24) true :: b2 :: r2) hs'
      ∧ b_free b2 = true ∧ (∃ r1, r = r1 ++ r2 ∧ Forall is_free r1) ∧ starts_busy r2
      ∧ pres (l ++ r2) m m' ∧ (length hs' <= length hs + 1)%nat.
Proof.
    intros Hok Hfree H0 Hsz Hf1 Hf2. assert (b ∈ l ++ b :: r) as Hin by set_solver.
    pose proof (heap_ok_range _ _ _ _ _ _ _ Hok Hin) as Hr.
    destruct (heap_ok_blk _ _ _ _ _ _ b Hok Hin) as (_ & Hs & _).
    rewrite length_app in Hf1. simpl in Hf1.
    destruct (heap_ok_split _ _ _ _ _ _ _ _ (reqd + 24) Hok Hfree ltac:(lia) ltac:(lia))
      as (hs1 & Hok1 & Hperm & Hp1).
    apply Permutation_length in Hperm. simpl in Hperm.
    set (b1 := mk_blk (b_at b) (reqd + 24) false) in *. set (bt := mk_blk _ (b_sz b - _) _) in *.
    rewrite <- app_snoc_cons in Hok1.
    destruct (heap_free_nolock_spec _ _ _ h _ (l ++ [b1]) bt r hs1 fuel eq_refl eq_refl eq_refl Hok1 eq_refl)
      as (m2 & l1 & b2 & r2 & hs2 & Hm2 & Habs & Hok2 & Hp2 & Hlen2 & _);
      [rewrite ?length_app; simpl; lia..|].
    destruct Habs as (l2 & r1 & Hl & Hrr & HF & He & Hsb & Hb2). apply Forall_app in HF as [HFl HFr].
    assert (l2 = [] ∧ l1 = l ++ [b1]) as [-> ->].
    { destruct l2 as [|x l2 _] using rev_ind; [by rewrite app_nil_r in Hl|].
      rewrite app_assoc in Hl. apply app_inj_tail in Hl as [_ <-].
      rewrite Forall_app, Forall_singleton in HFl. destruct HFl. done. }
    rewrite app_snoc_cons in Hok2.
    destruct (heap_ok_add_hole _ _ _ fuel h m2 l b1 (b2 :: r2) hs2 eq_refl Hok2 eq_refl ltac:(lia))
      as (m' & Hm' & Hok' & Hp').
    exists m', b2, r2, (ins (freed b1) hs2). split.
    { unfold heap_trim_tail, KHEAP_OVHD. rewrite Hs. u32s. rewrite (proj2 (Z.ltb_ge _ _)) by lia.
      rewrite <- (Z.add_assoc (b_at b) reqd 24), <- Z.sub_add_distr.
      fold (split_writes m (b_at b) (b_sz b) (reqd + 24)).
      change (b_at b + (reqd + 24)) with (b_at bt). rewrite Hm2. cbn [obind].
      change (b_at b) with (b_at b1). by rewrite Hm'. }
    split; [exact Hok'|]. split; [done|]. split; [by exists r1|]. split; [done|].
    split; [|rewrite (Permutation_length (ins_perm _ _)); simpl; lia].
    eapply pres_trans; [eapply pres_mono; [|exact Hp1]; set_solver|].
    eapply pres_trans; [eapply pres_mono; [|exact Hp2]; set_solver|].
    eapply pres_mono; [|exact Hp']. set_solver.
Qed.

  (** [heap_trim] without alignment: the block handed out, still a hole. *)
Lemma heap_trim_spec fuel m l b r hs reqd :
    HOK m (l ++ b :: r) hs → coalesced (l ++ b :: r) → b_free b = true →
    0 <= reqd → reqd + 24 <= b_sz b → reqd + 48 < 4294967296 →
    (length (l ++ b :: r) + 2 < fuel)%nat → (length hs + 1 < fuel)%nat →
    ∃ m' b1 r' hs', heap_trim fuel h m (b_at b) reqd 0 = Ret (m', Some (b_at b))
      ∧ HOK m' (l ++ b1 :: r') hs' ∧ coalesced (l ++ busy b1 :: r')
      ∧ b_at b1 = b_at b ∧ b_free b1 = true ∧ reqd + 24 <= b_sz b1 <= reqd + 48
      ∧ busy_of r' = busy_of r ∧ pres (busy_of (l ++ r)) m m'.
Proof.
    intros Hok Hco Hfree H0 Hsz Hbig Hf1 Hf2. assert (b ∈ l ++ b :: r) as Hin by set_solver.
    destruct (heap_ok_blk _ _ _ _ _ _ b Hok Hin) as (_ & Hs & _).
    pose proof Hco as [Hcl [_ Hcr]]%coalesced_app.
    unfold heap_trim, KHEAP_OVHD. rewrite Hs. u32s. change (0 =? 0) with true. rewrite andb_true_r. simpl.
    destruct (Z.leb_spec (b_sz b) (reqd + 24 * 2)) as [Hle|Hgt].
    - exists m, b, r, hs. split; [done|]. split; [done|]. rewrite coalesced_busy by done.
      repeat split; done || lia.
    - destruct (heap_trim_tail_spec fuel m l b r hs reqd Hok Hfree H0 ltac:(lia) Hf1 Hf2)
        as (m' & b2 & r2 & hs' & Hm' & Hok' & Hb2 & (r1 & -> & Hr1) & Hsb & Hp & _).
      exists m', (mk_blk (b_at b) (reqd + 24) true), (b2 :: r2), hs'. rewrite Hm'.
      split; [done|]. split; [done|]. apply coalesced_app in Hcr as [_ Hcr].
      split; [rewrite coalesced_busy by done; by split|]. split; [done|]. split; [done|].
      split; [simpl; lia|]. rewrite !busy_of_app, (busy_of_free r1), !app_nil_l by done.
      split; [unfold busy_of; by rewrite filter_cons_False by congruence|].
      eapply pres_mono; [|exact Hp]. pose proof (busy_of_sub l). pose proof (busy_of_sub r2). set_solver.
Qed.
End Trim.

(** * Growing the heap *)

(** A block appended behind the last one. *)
Lemma heap_ok_extend m hd start stop bs hs sz :
  heap_ok m hd start stop bs hs → 24 <= sz → stop + sz < 4294967296 →
  heap_ok (head_init m stop sz) hd start (stop + sz) (bs ++ [mk_blk stop sz false]) hs
  ∧ frame (λ a, stop <= a) m (head_init m stop sz).
Proof.
  intros Hok Hsz Hend. pose proof Hok as (H0 & H1 & H2 & Ht & HB & Hd & HP & Hs).
  pose proof (tiles_le _ _ _ Ht) as Hle.
  pose proof (head_init_frame m stop sz ltac:(lia) Hsz Hend) as HF0.
  assert (HF : frame (λ a, stop <= a) m (head_init m stop sz)).
  { eapply frame_weaken; [|exact HF0]. unfold within. lia. }
  split; [|done]. repeat (split; [lia|]). split.
  { apply tiles_app. exists stop. split; [done|]. repeat split; simpl; lia. }
  split; [apply Forall_app; split; [|apply Forall_singleton, head_init_blk; lia]|].
  - rewrite Forall_forall in HB |- *. intros b Hb. eapply blk_ok_frame; [by apply HB|exact HF|].
    pose proof (heap_ok_range _ _ _ _ _ _ b Hok Hb).
    unfold meta, within, b_link, hdr_link. lia.
  - split; [|split; [|done]].
    + eapply dll_frame; [exact Hd|exact HF|]. intros n a Hn Hw.
      apply elem_of_cons in Hn as [->|Hn]; [unfold within in Hw; lia|].
      apply list_elem_of_fmap in Hn as (b & -> & Hb).
      apply (heap_ok_hole _ _ _ _ _ _ b Hok) in Hb as [Hb _].
      pose proof (heap_ok_range _ _ _ _ _ _ b Hok Hb). unfold within, b_link, hdr_link in *. lia.
    + rewrite HP. unfold holes_of. rewrite filter_app. simpl.
      rewrite filter_cons_False by done. simpl. by rewrite app_nil_r.
Qed.

Lemma expand_ammnt_bounds h ammnt :
  0 <= memstart h → memstart h + 4096 <= memmax h < 4294967296 →
  1 <= ammnt → memstart h + ammnt + 4095 < 4294967296 →
  4096 <= expand_ammnt h ammnt <= ammnt + 4095
  ∧ (ammnt <= expand_ammnt h ammnt ∨ memstart h + expand_ammnt h ammnt = memmax h).
Proof.
  intros H0 H1 H2 H3. unfold expand_ammnt. rewrite PAGE_OFFSET_mod.
  pose proof (Z.div_mod ammnt 4096 ltac:(lia)) as Hdm.
  pose proof (Z.mod_pos_bound ammnt 4096 ltac:(lia)) as Hmb.
  set (a := if negb (ammnt mod 4096 =? 0) then _ else _).
  assert (4096 <= a <= ammnt + 4095 ∧ ammnt <= a) as [Ha Ha2].
  { unfold a. case_if; [|lia]. rewrite PAGE_ALIGN_div by lia. u32s. lia. }
  u32s. case_if; u32s; lia.
Qed.

Section Spec.
Context {E : Type} `{!PageMapper E}.
Implicit Types (s : hstate E) (e : E).

(** The outcome of an operation that may need pages: it returns a value
    satisfying [Q], unless a page could not be mapped. *)
Definition post {A} (o : outcome A) (Q : A → Prop) : Prop :=
  match o with
  | Ret a => Q a
  | Halt => ∃ e a, map_heap_page e a = None
  | OutOfFuel => False
  end.

Lemma post_bind {A B} (o : outcome A) (k : A → outcome B) Q R :
  post o Q → (∀ a, Q a → post (k a) R) → post (obind o k) R.
Proof. destruct o; simpl; auto. Qed.

Lemma post_weaken {A} (o : outcome A) (Q R : A → Prop) :
  post o Q → (∀ a, Q a → R a) → post o R.
Proof. destruct o; simpl; auto. Qed.

Lemma map_pages_post e base p n : post (map_pages e base p n) (λ _, True).
Proof.
  revert e p. induction n as [|n IH]; intros e p; simpl; [done|].
  destruct (map_heap_page e _) as [e'|] eqn:He; simpl; [apply IH|eauto].
Qed.

(** The invariant of a heap between operations. *)
Definition heap_inv s (bs hs : list blk) : Prop :=
  let h := hs_heap s in
  heap_ok (hs_mem s) (holes h) (memstart h) (memend h) bs hs ∧ coalesced bs
  ∧ memstart h + 4096 <= memmax h < 4294967296.

(** The descriptor fields no operation changes. *)
Definition same_heap s s' : Prop :=
  let h := hs_heap s in let h' := hs_heap s' in
  holes h' = holes h ∧ memstart h' = memstart h ∧ memmax h' = memmax h ∧ lock h' = lock h
  ∧ memend h <= memend h'.

Lemma same_heap_refl s : same_heap s s.
Proof. repeat split; lia. Qed.

(** [heap_expand]: the heap ends with a hole of at least the pages added. *)
Lemma heap_expand_spec fuel s bs hs ammnt :
  heap_inv s bs hs → memmax (hs_heap s) ≠ memend (hs_heap s) →
  1 <= ammnt → memend (hs_heap s) + ammnt + 4095 < 4294967296 →
  (length bs < fuel)%nat → (length hs < fuel)%nat →
  let A := expand_ammnt (hs_heap s) ammnt in
  post (heap_expand fuel s ammnt) (λ '(s', r), ∃ l b hs',
    r = Some (memend (hs_heap s)) ∧ heap_inv s' (l ++ [b]) hs' ∧ same_heap s s'
    ∧ memend (hs_heap s') = memend (hs_heap s) + A
    ∧ b_free b = true ∧ A <= b_sz b ∧ hdr_size (hs_mem s') (memend (hs_heap s)) = A
    ∧ busy_of (l ++ [b]) = busy_of bs ∧ (length l <= length bs)%nat
    ∧ (length hs' <= S (length hs))%nat ∧ pres (busy_of bs) (hs_mem s) (hs_mem s')).
Proof.
  destruct s as [h m e]. unfold heap_inv, same_heap. cbn [hs_heap hs_mem hs_env].
  intros (Hok & Hco & Hmax) Hne Ham Hend Hf1 Hf2. set (A := expand_ammnt h ammnt).
  pose proof Hok as (H0 & H1 & H2 & Ht & _). pose proof (tiles_le _ _ _ Ht) as Hle.
  destruct (expand_ammnt_bounds h ammnt ltac:(lia) Hmax Ham ltac:(lia)) as [HA _]. fold A in HA.
  unfold heap_expand. cbn [hs_heap hs_mem hs_env]. rewrite (proj2 (Z.eqb_neq _ _) Hne). fold A.
  eapply post_bind; [apply map_pages_post|]. intros e' _.
  destruct (heap_ok_extend m _ _ _ bs hs A Hok ltac:(lia) ltac:(lia)) as [Hok1 HF].
  rewrite (u32_small (memend h + A)) by lia.
  set (nb := mk_blk (memend h) A false) in *. set (h' := mk_heap _ _ _ _ _).
  destruct (heap_free_nolock_spec _ _ _ h' _ bs nb [] hs fuel eq_refl eq_refl eq_refl Hok1 eq_refl
              Hf1 ltac:(simpl; lia) Hf2)
    as (m' & l1 & b' & r2 & hs' & Hm' & Habs & Hok' & Hp & Hlen & Hsz).
  change (b_at nb) with (memend h) in Hm', Hsz. rewrite Hm'. cbn [obind post].
  destruct (absorbed_busy _ _ _ _ _ _ Habs) as [Hbusy Hsub].
  pose proof (absorbed_coalesced _ _ _ _ _ _ Habs Hco I) as Hco'.
  destruct Habs as (l2 & r1 & Hl & Hr & _ & _ & _ & Hb').
  symmetry in Hr. apply app_eq_nil in Hr as [-> ->]. rewrite !app_nil_r in *.
  exists l1, b', hs'. split; [done|]. split; [done|]. split; [repeat split; simpl; lia|].
  split; [done|]. split; [done|]. split.
  { destruct Hok' as (_ & _ & _ & Ht' & _). apply tiles_split in Ht' as (Hl1 & _ & Hstop).
    simpl in Hstop. rewrite Hl in Ht. apply tiles_app in Ht as (x & Hx & Hxe%tiles_le).
    pose proof (tiles_fun _ _ _ _ Hx Hl1). unfold b_end in Hstop. lia. }
  split; [by apply Hsz|]. split; [done|]. split; [rewrite Hl, length_app; lia|]. split; [done|].
  eapply pres_trans; [|eapply pres_mono; [|exact Hp]; done].
  eapply frame_pres; [exact HF|]. intros b a Hb%busy_of_sub Ha.
  pose proof (heap_ok_range _ _ _ _ _ _ b Hok Hb). unfold payload in Ha.
  intros Hge. simpl in Hge. lia.
Qed.

(** * Finding a hole *)

(** What [heap_locate] reads at a node of the hole list. *)
Lemma hole_item m hd start stop bs h1 b h2 :
  heap_ok m hd start stop bs (h1 ++ b :: h2) →
  (b_link b =? hd) = false ∧ link_entry (b_link b) = b_at b
  ∧ hdr_magic m (b_at b) = KHEAP_MAGIC ∧ ld32 m (heap_foot m (b_at b)) = KHEAP_MAGIC
  ∧ hdr_size m (b_at b) = b_sz b ∧ list_next m (b_link b) = first_or hd (b_link <$> h2).
Proof.
  intros Hok. assert (b ∈ bs) as Hb by (apply (heap_ok_hole _ _ _ _ _ _ b Hok); set_solver).
  pose proof (heap_ok_range _ _ _ _ _ _ b Hok Hb) as Hr.
  destruct (heap_ok_blk _ _ _ _ _ _ b Hok Hb) as (Hm & Hs & Hf & _).
  pose proof Hok as (_ & _ & _ & _ & _ & Hd & _). rewrite fmap_app in Hd. simpl in Hd.
  split; [apply Z.eqb_neq; unfold b_link, hdr_link; lia|].
  split; [unfold link_entry, b_link, hdr_link; lia|]. split; [done|].
  split; [unfold heap_foot, SIZEOF_FOOTER; rewrite Hs; u32s; by replace (b_at b + b_sz b - 8) with (b_end b - 8) by lia|].
  split; [done|]. by apply dll_neighbours in Hd as [_ ?].
Qed.

(** Holes that are too small are passed over. *)
Lemma locate_skip fuel s reqd align bs h1 h2 h3 :
  heap_ok (hs_mem s) (holes (hs_heap s)) (memstart (hs_heap s)) (memend (hs_heap s)) bs (h1 ++ h2 ++ h3) →
  Forall (λ b, b_sz b < reqd + 24) h2 → 0 <= reqd → reqd + 24 < 4294967296 →
  locate_from (length h2 + fuel) s reqd align (first_or (holes (hs_heap s)) (b_link <$> (h2 ++ h3)))
  = locate_from fuel s reqd align (first_or (holes (hs_heap s)) (b_link <$> h3)).
Proof.
  revert h1. induction h2 as [|b h2 IH]; intros h1 Hok HF H0 H1; [done|].
  apply Forall_cons in HF as [Hb HF].
  destruct (hole_item _ _ _ _ _ _ _ _ Hok) as (Hne & Hle & Hm & Hf & Hs & Hn).
  change (first_or _ (b_link <$> (b :: h2) ++ h3)) with (b_link b).
  cbn [length Nat.add locate_from].
  rewrite Hne, Hle, Hm, Hf, Hs, Z.eqb_refl. unfold KHEAP_OVHD. u32s.
  cbn [negb orb]. rewrite (proj2 (Z.leb_gt _ _)) by lia. rewrite Hn.
  apply (IH (h1 ++ [b])); [|done..]. by rewrite app_snoc_cons.
Qed.

Lemma first_fit (P : blk → Prop) `{!∀ b, Decision (P b)} hs :
  Forall (λ b, ¬ P b) hs ∨ ∃ h1 b h2, hs = h1 ++ b :: h2 ∧ Forall (λ b, ¬ P b) h1 ∧ P b.
Proof.
  induction hs as [|c hs [IH|(h1 & b & h2 & -> & HF & Hb)]]; [by left|..];
    (destruct (decide (P c)); [right; exists [], c; eauto|]).
  - left. by constructor.
  - right. exists (c :: h1), b, h2. split; [done|]. split; [by constructor|done].
Qed.

Lemma sorted_first (h1 : list blk) b h2 reqd :
  StronglySorted le_size (h1 ++ b :: h2) → Forall (λ c, b_sz c < reqd + 24) h1 →
  ∀ d, d ∈ h1 ++ b :: h2 → reqd + 24 <= b_sz d → b_sz b <= b_sz d.
Proof.
  intros Hs HF d Hd Hfit. rewrite Forall_forall in HF.
  apply elem_of_app in Hd as [Hd|Hd]; [apply HF in Hd; lia|].
  assert (StronglySorted le_size (b :: h2)) as Hs2.
  { clear -Hs. induction h1 as [|x h1 IH]; [done|]. inversion Hs; auto. }
  inversion_clear Hs2 as [|? ? _ Hall]. rewrite Forall_forall in Hall.
  apply elem_of_cons in Hd as [->|Hd]; [lia|by apply Hall].
Qed.

(** The block found by a search of the holes of [bs]: still linked, cut to
    size, and the other blocks as before. *)
Definition found (bs : list blk) s (reqd : Z) s' (head : Z) : Prop :=
  ∃ l b r hs', heap_ok (hs_mem s') (holes (hs_heap s')) (memstart (hs_heap s')) (memend (hs_heap s'))
                       (l ++ b :: r) hs'
    ∧ coalesced (l ++ busy b :: r) ∧ head = b_at b ∧ b_free b = true
    ∧ reqd + 24 <= b_sz b <= reqd + 48 ∧ busy_of l ++ busy_of r = busy_of bs
    ∧ pres (busy_of bs) (hs_mem s) (hs_mem s') ∧ same_heap s s'.

(** The smallest hole of [bs] that fits starts at [head]. *)
Definition best_fit (bs : list blk) (reqd head : Z) : Prop :=
  ∃ c, c ∈ bs ∧ b_free c = true ∧ b_at c = head ∧ reqd + 24 <= b_sz c
    ∧ ∀ d, d ∈ bs → b_free d = true → reqd + 24 <= b_sz d → b_sz c <= b_sz d.

Definition none_fits (bs : list blk) (reqd : Z) : Prop :=
  ∀ c, c ∈ bs → b_free c = true → b_sz c < reqd + 24.

Lemma locate_hit fuel s reqd bs h1 b h2 :
  heap_inv s bs (h1 ++ b :: h2) → Forall (λ c, b_sz c < reqd + 24) h1 → reqd + 24 <= b_sz b →
  0 <= reqd → reqd + 48 < 4294967296 →
  (length bs + 2 < fuel)%nat → (length (h1 ++ b :: h2) + 1 < fuel)%nat →
  ∃ s', locate_from (length h1 + fuel) s reqd 0 (list_next (hs_mem s) (holes (hs_heap s)))
          = Ret (s', Some (b_at b))
    ∧ found bs s reqd s' (b_at b) ∧ best_fit bs reqd (b_at b) ∧ hs_heap s' = hs_heap s.
Proof.
  intros (Hok & Hco & Hmax) HF Hfit H0 H1 Hf1 Hf2.
  pose proof Hok as (_ & _ & _ & _ & _ & Hd & _ & Hs).
  rewrite (chain_first _ _ _ _ (proj1 Hd)).
  rewrite (locate_skip fuel s reqd 0 bs [] h1 (b :: h2) Hok HF H0 ltac:(lia)).
  change (first_or _ (b_link <$> b :: h2)) with (b_link b).
  destruct (hole_item _ _ _ _ _ _ _ _ Hok) as (Hne & Hle & Hm & Hf & Hsz & _).
  assert (b ∈ bs ∧ b_free b = true) as [Hb Hfree]
    by (apply (heap_ok_hole _ _ _ _ _ _ b Hok); set_solver).
  assert (Hbest : best_fit bs reqd (b_at b)).
  { exists b. repeat (split; [done|]). intros d Hd1 Hd2 Hd3.
    eapply sorted_first; [exact Hs|exact HF| |done]. by apply (heap_ok_hole _ _ _ _ _ _ d Hok). }
  destruct fuel as [|fuel]; [lia|]. cbn [locate_from].
  rewrite Hne, Hle, Hm, Hf, Hsz, Z.eqb_refl. unfold KHEAP_OVHD. rewrite u32_small by lia.
  cbn [negb orb]. rewrite (proj2 (Z.leb_le _ _)) by lia.
  apply list_elem_of_split in Hb as (l & r & ->).
  destruct (heap_trim_spec (hs_heap s) (S fuel) (hs_mem s) l b r _ reqd Hok Hco Hfree H0 Hfit H1 Hf1 Hf2)
    as (m' & b1 & r' & hs' & Hm' & Hok' & Hco' & Hat & Hfr & Hrng & Hbz & Hp).
  rewrite Hm'. cbn [obind]. exists (with_mem s m'). split; [done|]. split; [|by split].
  assert (Hbusy : busy_of (l ++ b :: r) = busy_of (l ++ r)).
  { rewrite !busy_of_app. unfold busy_of at 2. by rewrite filter_cons_False by congruence. }
  rewrite (busy_of_app l r) in Hp, Hbusy. exists l, b1, r', hs'. rewrite Hbusy, Hbz.
  repeat (split; [done|]). simpl. lia.
Qed.

Lemma length_holes m hd start stop bs hs :
  heap_ok m hd start stop bs hs → (length hs <= length bs)%nat.
Proof.
  intros (_ & _ & _ & _ & _ & _ & HP & _). rewrite HP. apply length_filter.
Qed.

Lemma same_heap_trans s1 s2 s3 : same_heap s1 s2 → same_heap s2 s3 → same_heap s1 s3.
Proof. unfold same_heap. intros (? & ? & ? & ? & ?) (? & ? & ? & ? & ?). repeat split; (congruence || lia). Qed.

(** The heap may have grown; the busy blocks and their contents are the same. *)
Definition kept (bs : list blk) s s' : Prop :=
  ∃ bs' hs', heap_inv s' bs' hs' ∧ busy_of bs' = busy_of bs ∧ pres (busy_of bs) (hs_mem s) (hs_mem s').

(** The result of [heap_locate] when no hole fits at first. *)
Definition located (bs : list blk) s (reqd : Z) : hstate E * option Z → Prop := λ '(s', r),
  match r with
  | Some head => found bs s reqd s' head ∧ (best_fit bs reqd head ∨ none_fits bs reqd)
  | None => same_heap s s' ∧ none_fits bs reqd ∧ kept bs s s'
      ∧ (memmax (hs_heap s) = memend (hs_heap s)
         ∨ memmax (hs_heap s) - memstart (hs_heap s) < reqd + 24)
  end.

(** After growing the heap, the search finds a block or memory is exhausted. *)
Lemma locate_expand fuel s bs hs reqd :
  heap_inv s bs hs → none_fits bs reqd → 0 <= reqd →
  memend (hs_heap s) + reqd + 4119 < 4294967296 → (2 * length bs + 6 < fuel)%nat →
  post (locate_from (S fuel) s reqd 0 (holes (hs_heap s))) (located bs s reqd).
Proof.
  intros Hinv Hnone H0 Hend Hfuel. pose proof Hinv as (Hok & Hco & Hmax).
  pose proof (length_holes _ _ _ _ _ _ Hok) as Hlen. pose proof Hok as (Hh0 & Hh1 & Hh2 & Ht & _).
  pose proof (tiles_le _ _ _ Ht) as Hle.
  cbn [locate_from]. rewrite Z.eqb_refl. unfold KHEAP_OVHD. rewrite u32_small by lia.
  destruct (Z.eqb_spec (memmax (hs_heap s)) (memend (hs_heap s))) as [He|Hne].
  { unfold heap_expand. rewrite He, Z.eqb_refl. simpl. split; [apply same_heap_refl|]. split; [done|]. split; [|by left].
    by exists bs, hs. }
  eapply post_bind; [apply (heap_expand_spec _ s bs hs (reqd + 24)); (done || lia)|].
  intros [s1 r] (l & b & hs1 & -> & Hinv1 & Hsame & Hme & Hfree & HA & Hst & Hbusy & Hll & Hlh & Hp).
  rewrite Hst.
  destruct (expand_ammnt_bounds (hs_heap s) (reqd + 24) ltac:(lia) Hmax ltac:(lia) ltac:(lia)) as [Hrng Hcl].
  case_if; [simpl; split; [done|]; split; [done|]; split; [by exists (l ++ [b]), hs1|right; lia]|].
  destruct (first_fit (λ b, reqd + 24 <= b_sz b) hs1) as [HF|(h1 & c & h2 & -> & HF & Hfit)].
  { exfalso. assert (b ∈ hs1) as Hb by (apply (heap_ok_hole _ _ _ _ _ _ b (proj1 Hinv1)); set_solver).
    rewrite Forall_forall in HF. apply (HF b Hb). lia. }
  assert (Hlc : (length h1 <= length bs)%nat) by (rewrite length_app in Hlh; simpl in Hlh; lia).
  destruct (locate_hit (fuel - length h1) s1 reqd (l ++ [b]) h1 c h2 Hinv1) as (s2 & Hs2 & Hfound & _);
    [eapply Forall_impl; [exact HF|simpl; lia]|done|done|lia|rewrite length_app; simpl; lia|lia|].
  replace (length h1 + (fuel - length h1))%nat with fuel in Hs2 by lia.
  rewrite Hs2. cbn [post]. split; [|by right].
  destruct Hfound as (l' & b' & r' & hs' & H1 & H2 & H3 & H4 & H5 & H6 & H7 & H8).
  exists l', b', r', hs'. repeat (split; [done|]). rewrite Hbusy in H6, H7. split; [done|].
  split; [by eapply pres_trans|by eapply same_heap_trans].
Qed.

Lemma heap_locate_spec fuel s bs hs reqd :
  heap_inv s bs hs → 0 <= reqd → memend (hs_heap s) + reqd + 4119 < 4294967296 →
  (3 * length bs + 8 < fuel)%nat →
  post (heap_locate fuel s reqd 0) (located bs s reqd).
Proof.
  intros Hinv H0 Hend Hfuel. pose proof Hinv as (Hok & Hco & Hmax).
  pose proof (length_holes _ _ _ _ _ _ Hok) as Hlen.
  pose proof Hok as (Hh0 & Hh1 & Hh2 & Ht & _ & Hd & _). pose proof (tiles_le _ _ _ Ht) as Hle.
  unfold heap_locate. destruct (first_fit (λ b, reqd + 24 <= b_sz b) hs) as [HF|(h1 & c & h2 & -> & HF & Hfit)].
  - rewrite (chain_first _ _ _ _ (proj1 Hd)).
    assert (HF' : Forall (λ b, b_sz b < reqd + 24) hs) by (eapply Forall_impl; [exact HF|simpl; lia]).
    replace fuel with (length hs + S (fuel - length hs - 1))%nat by lia.
    pose proof (locate_skip (S (fuel - length hs - 1)) s reqd 0 bs [] hs []) as Hskip.
    rewrite app_nil_r in Hskip. rewrite (Hskip Hok HF' H0 ltac:(lia)).
    apply (locate_expand _ _ _ hs); [done| |done|done|lia].
    intros c Hc Hfree. rewrite Forall_forall in HF'. apply HF'. by apply (heap_ok_hole _ _ _ _ _ _ c Hok).
  - rewrite length_app in Hlen. simpl in Hlen.
    destruct (locate_hit (fuel - length h1) s reqd bs h1 c h2 Hinv) as (s2 & Hs2 & Hfound & Hbest & _);
      [eapply Forall_impl; [exact HF|simpl; lia]|done|done|lia|lia|rewrite length_app; simpl; lia|].
    replace (length h1 + (fuel - length h1))%nat with fuel in Hs2 by lia.
    rewrite Hs2. simpl. auto.
Qed.

(** * The operations *)

Lemma heap_inv_lock s bs hs l : heap_inv (set_lock s l) bs hs ↔ heap_inv s bs hs.
Proof. done. Qed.

(** Taking the block that was found off the hole list. *)
Definition taken bs s (reqd : Z) s' (addr : Z) : Prop :=
  ∃ l b r hs', heap_inv s' (l ++ b :: r) hs' ∧ b_free b = false
    ∧ addr = b_at b + 16 ∧ reqd + 24 <= b_sz b <= reqd + 48
    ∧ busy_of l ++ busy_of r = busy_of bs ∧ pres (busy_of bs) (hs_mem s) (hs_mem s')
    ∧ same_heap s s'.

Lemma found_taken bs hs s reqd s1 head :
  heap_inv s bs hs → lock (hs_heap s) = 0 → found bs (set_lock s 1) reqd s1 head →
  heap_addr head = head + 16
  ∧ taken bs s reqd (set_lock (with_mem s1 (list_rem (hs_mem s1) (hdr_link head))) 0) (head + 16).
Proof.
  intros Hinv Hlock (l & b & r & hs1 & Hok & Hco & -> & Hfree & Hsz & Hbusy & Hp & Hsame).
  destruct (heap_ok_unlink _ _ _ _ _ _ _ _ Hok Hfree) as (hs' & Hok' & _ & Hp' & _).
  pose proof (heap_ok_range _ _ _ _ _ _ b Hok ltac:(set_solver)) as Hr.
  destruct Hsame as (E1 & E2 & E3 & E4 & E5). simpl in E1, E2, E3, E4, E5.
  destruct Hinv as (_ & _ & Hmax).
  split; [unfold heap_addr, SIZEOF_HEADER; u32s; done|].
  exists l, (busy b), r, hs'. split; [split; [exact Hok'|split; [done|simpl; lia]]|].
  split; [done|]. split; [done|]. split; [done|]. split; [done|]. split.
  - eapply pres_trans; [exact Hp|]. eapply pres_mono; [|exact Hp'].
    rewrite <- Hbusy. pose proof (busy_of_sub l). pose proof (busy_of_sub r). set_solver.
  - repeat split; simpl; done.
Qed.

(** [heap_alloc] without alignment. *)
Lemma heap_alloc_spec fuel s bs hs reqd :
  heap_inv s bs hs → lock (hs_heap s) = 0 → 0 <= reqd →
  memend (hs_heap s) + reqd + 4119 < 4294967296 → (3 * length bs + 8 < fuel)%nat →
  post (heap_alloc fuel s reqd 0) (λ '(s', r),
    match r with
    | Some addr => taken bs s reqd s' addr
    | None => lock (hs_heap s') = 1 ∧ none_fits bs reqd ∧ kept bs s s'
        ∧ (memmax (hs_heap s) = memend (hs_heap s)
           ∨ memmax (hs_heap s) - memstart (hs_heap s) < reqd + 24)
    end).
Proof.
  intros Hinv Hlock H0 Hend Hfuel. unfold heap_alloc, spin_lock. rewrite Hlock. cbn [Z.eqb obind].
  eapply post_bind; [apply (heap_locate_spec fuel (set_lock s 1) bs hs reqd); done|].
  intros [s1 [head|]]; cbn [located post].
  - intros [Hf _]. by destruct (found_taken _ _ _ _ _ _ Hinv Hlock Hf) as [-> ?].
  - intros ((_ & _ & _ & Hl & _) & Hnone & Hk & Hex). done.
Qed.

(** A request some hole can serve. *)
Lemma heap_alloc_fit fuel s bs hs reqd c :
  heap_inv s bs hs → lock (hs_heap s) = 0 → 0 <= reqd → reqd + 48 < 4294967296 →
  (3 * length bs + 8 < fuel)%nat → c ∈ bs → b_free c = true → reqd + 24 <= b_sz c →
  ∃ s' head, heap_alloc fuel s reqd 0 = Ret (s', Some (head + 16)) ∧ best_fit bs reqd head
    ∧ taken bs s reqd s' (head + 16) ∧ memend (hs_heap s') = memend (hs_heap s).
Proof.
  intros Hinv Hlock H0 H1 Hfuel Hc Hfree Hfit. pose proof Hinv as (Hok & _).
  pose proof (length_holes _ _ _ _ _ _ Hok) as Hlen.
  destruct (first_fit (λ b, reqd + 24 <= b_sz b) hs) as [HF|(h1 & b & h2 & -> & HF & Hb)].
  { exfalso. rewrite Forall_forall in HF. apply (HF c); [|done]. by apply (heap_ok_hole _ _ _ _ _ _ c Hok). }
  pose proof Hlen as Hlen2. rewrite length_app in Hlen2. simpl in Hlen2.
  destruct (locate_hit (fuel - length h1) (set_lock s 1) reqd bs h1 b h2 Hinv)
    as (s1 & Hs1 & Hfound & Hbest & Hheap);
    [eapply Forall_impl; [exact HF|simpl; lia]|done|done|lia|lia|lia|].
  replace (length h1 + (fuel - length h1))%nat with fuel in Hs1 by lia.
  destruct (found_taken _ _ _ _ _ _ Hinv Hlock Hfound) as [Ha Ht].
  eexists _, (b_at b). split; [|split; [done|split; [exact Ht|simpl; by rewrite Hheap]]].
  unfold heap_alloc, heap_locate, spin_lock. rewrite Hlock. cbn [Z.eqb obind].
  rewrite Hs1. cbn [obind]. by rewrite Ha.
Qed.

(** [heap_free] on a busy block. *)
Lemma heap_free_spec fuel s l b r hs :
  heap_inv s (l ++ b :: r) hs → b_free b = false → lock (hs_heap s) = 0 →
  (length (l ++ b :: r) < fuel)%nat →
  ∃ s' l1 b' r2 hs', heap_free fuel s (b_at b + 16) = Ret s'
    ∧ heap_inv s' (l1 ++ b' :: r2) hs' ∧ absorbed l b r l1 b' r2
    ∧ busy_of (l1 ++ b' :: r2) = busy_of l ++ busy_of r
    ∧ pres (busy_of (l ++ r)) (hs_mem s) (hs_mem s') ∧ same_heap s s'
    ∧ memend (hs_heap s') = memend (hs_heap s).
Proof.
  intros (Hok & Hco & Hmax) Hb Hlock Hfuel. pose proof (length_holes _ _ _ _ _ _ Hok) as Hlen.
  pose proof (heap_ok_range _ _ _ _ _ _ b Hok ltac:(set_solver)) as Hr.
  rewrite length_app in *. simpl in *.
  destruct (heap_free_nolock_spec _ _ _ (mk_heap (memstart (hs_heap s)) (memend (hs_heap s))
      (memmax (hs_heap s)) (holes (hs_heap s)) 1) _ l b r hs fuel eq_refl eq_refl eq_refl Hok Hb
      ltac:(lia) ltac:(lia) ltac:(lia)) as (m' & l1 & b' & r2 & hs' & Hm' & Habs & Hok' & Hp & _).
  unfold heap_free, spin_lock. rewrite Hlock. cbn [Z.eqb obind].
  unfold heap_addr, SIZEOF_HEADER in Hm'. rewrite u32_small in Hm' by lia.
  unfold set_lock at 1 2. cbn [hs_heap hs_mem hs_env]. rewrite Hm'. cbn [obind].
  eexists _, l1, b', r2, hs'. split; [reflexivity|].
  destruct (absorbed_busy _ _ _ _ _ _ Habs) as [Hbusy Hsub].
  apply coalesced_busy in Hco as [Hcl Hcr]; [|done].
  split; [split; [exact Hok'|split; [by eapply absorbed_coalesced|done]]|].
  split; [done|]. split; [done|]. split; [eapply pres_mono; [|exact Hp]; done|].
  repeat split; simpl; (done || lia).
Qed.

(** [heap_init] makes a heap of one hole. *)
Lemma heap_init_spec fuel m e hd start end_ :
  0 <= hd → hd + 8 <= start → start + 4096 <= end_ < 4294967296 → start + 8192 < 4294967296 →
  (0 < fuel)%nat →
  post (heap_init fuel m e hd start end_) (λ s, ∃ b hs, heap_inv s [b] hs ∧ b_free b = true
    ∧ b_at b = start ∧ lock (hs_heap s) = 0 ∧ memstart (hs_heap s) = start
    ∧ memmax (hs_heap s) = end_ ∧ memend (hs_heap s) = start + 4096).
Proof.
  intros H0 H1 H2 H3 Hf. unfold heap_init.
  set (s0 := mk_hstate _ _ _ : hstate E).
  assert (heap_inv s0 [] []) as Hinv.
  { split; [|split; [done|simpl; lia]]. simpl. do 3 (split; [lia|]). split; [done|].
    split; [done|]. split; [apply INIT_LIST_empty; lia|]. split; [done|constructor]. }
  eapply post_bind; [apply (heap_expand_spec fuel s0 [] [] 1 Hinv); simpl; lia|].
  intros [s r] (l & b & hs & _ & Hinv' & (E1 & E2 & E3 & E4 & E5) & Hme & Hfree & _ & _ & _ & Hl & _).
  destruct l; [|simpl in Hl; lia]. simpl in *. exists b, hs. split; [done|]. split; [done|].
  pose proof Hinv' as ((_ & _ & _ & (Hat & _) & _) & _).
  split; [congruence|]. split; [done|]. split; [done|]. split; [done|].
  assert (expand_ammnt (hs_heap s0) 1 = 4096) as HA; [|simpl in HA; lia].
  unfold expand_ammnt, PAGE_OFFSET, PAGE_ALIGN, s0. simpl.
  change (Z.land 1 4294963200) with 0. u32s.
  rewrite (proj2 (Z.ltb_ge _ _)) by lia. done.
Qed.
End Spec.
