(* ===== verification/KHeapClient.v ===== *)
(** The kernel heap seen by its clients: every sequence of [kmalloc]s,
    [kfree]s and writes of a client to its own blocks.

    A client state is the heap and the list of blocks handed out and not yet
    freed.  The theorems are about all states reachable from [heap_init]: live
    blocks never overlap, the allocator never writes into them, and no
    operation runs forever.  Allocations are those of [kmalloc], without
    alignment; one that returns NULL is a step, after which the heap stays
    locked.  The last section holds what the heap does at its limits, and what
    an allocation aligned to a page ([kmalloc_a], [kmalloc_ap]) can destroy. *)

From S2P Require Import Prelude Memory LinkedList KHeap KHeapInv KHeapOps KHeapSpec.

(** Enough loop iterations for any heap of this size: a block has at least 24
    bytes and no loop passes three times over the blocks. *)
Definition heap_fuel {E} (s : hstate E) : nat :=
  (Z.to_nat (memend (hs_heap s) - memstart (hs_heap s)) + 9)%nat.

Section Client.
Context {E : Type} `{!PageMapper E}.

Record client := mk_client { c_heap : hstate E; c_live : list (Z * Z) }.

(** The requests a heap of this size can be asked for without wrapping the
    address space. *)
Definition fits_address_space (s : hstate E) (reqd : Z) : Prop :=
  0 <= reqd ∧ memend (hs_heap s) + reqd + 4119 < 4294967296.

Inductive cstep : client → client → Prop :=
  | cs_alloc s live reqd s' a :
      fits_address_space s reqd → heap_alloc (heap_fuel s) s reqd 0 = Ret (s', Some a) →
      cstep (mk_client s live) (mk_client s' ((a, reqd) :: live))
  | cs_alloc_null s live reqd s' :
      fits_address_space s reqd → heap_alloc (heap_fuel s) s reqd 0 = Ret (s', None) →
      cstep (mk_client s live) (mk_client s' live)
  | cs_free s l1 a n l2 s' :
      heap_free (heap_fuel s) s a = Ret s' →
      cstep (mk_client s (l1 ++ (a, n) :: l2)) (mk_client s' (l1 ++ l2))
  | cs_write s live a n i v :
      (a, n) ∈ live → 0 <= i < n →
      cstep (mk_client s live) (mk_client (with_mem s (st8 (hs_mem s) (a + i) v)) live).

(** The step of an allocation that returns NULL. *)
Definition refused (c c' : client) : Prop :=
  c_live c' = c_live c ∧ ∃ reqd, fits_address_space (c_heap c) reqd
    ∧ heap_alloc (heap_fuel (c_heap c)) (c_heap c) reqd 0 = Ret (c_heap c', None).

Definition client_start (c : client) : Prop :=
  ∃ fuel m e hd start end_,
    (0 < fuel)%nat ∧ 0 <= hd ∧ hd + 8 <= start ∧ start + 4096 <= end_ < 4294967296 ∧ start + 8192 < 4294967296
    ∧ heap_init fuel m e hd start end_ = Ret (c_heap c) ∧ c_live c = [].

(** ** The invariant *)

Definition owns (b : blk) (p : Z * Z) : Prop := p.1 = b_at b + 16 ∧ 0 <= p.2 <= b_sz b - 24.

Definition client_inv (c : client) : Prop :=
  ∃ bs hs K, heap_inv (c_heap c) bs hs
    ∧ K ≡ₚ busy_of bs ∧ Forall2 owns K (c_live c).

Lemma tiles_count start bs stop : tiles start bs stop → 24 * Z.of_nat (length bs) <= stop - start.
Proof.
  revert start. induction bs as [|b bs IH]; intros start; simpl; [lia|].
  intros (<- & Hsz & H%IH). unfold b_end in H. lia.
Qed.

Lemma heap_fuel_enough (s : hstate E) bs hs :
  heap_inv s bs hs → (3 * length bs + 8 < heap_fuel s)%nat.
Proof.
  intros ((_ & _ & _ & Ht & _) & _). apply tiles_count in Ht. unfold heap_fuel. lia.
Qed.

Lemma heap_inv_write (s : hstate E) bs hs b a v :
  heap_inv s bs hs → b ∈ busy_of bs → payload b a →
  heap_inv (with_mem s (st8 (hs_mem s) a v)) bs hs.
Proof.
  intros (Hok & Hrest) Hb Ha. split; [|done]. apply list_elem_of_filter in Hb as [Hbusy Hb].
  pose proof (heap_ok_blk _ _ _ _ _ _ b Hok Hb) as Hblk.
  pose proof (heap_ok_range _ _ _ _ _ _ b Hok Hb) as Hr.
  assert (HF : frame (λ x, x = a) (hs_mem s) (st8 (hs_mem s) a v)) by (intros x Hx; by apply ld8_st8_ne).
  apply list_elem_of_split in Hb as (l & r & ->).
  eapply heap_ok_rewrite; [exact Hok|done|exact HF| |].
  - intros x ->. unfold payload, within in *. lia.
  - eapply blk_ok_frame; [exact Hblk|exact HF|]. intros x Hx ->.
    unfold meta, payload, within, b_link, hdr_link in *. lia.
Qed.

Lemma busy_split bs l b r :
  busy_of bs ≡ₚ l ++ b :: r → ∃ bl br, bs = bl ++ b :: br ∧ b_free b = false
    ∧ l ++ r ≡ₚ busy_of bl ++ busy_of br.
Proof.
  intros HP. assert (b ∈ busy_of bs) as [Hb Hin]%list_elem_of_filter by (rewrite HP; set_solver).
  apply list_elem_of_split in Hin as (bl & br & ->). exists bl, br. do 2 (split; [done|]).
  rewrite busy_of_app in HP. unfold busy_of in HP at 2. rewrite filter_cons_True in HP by done.
  fold (busy_of br) in HP. apply (Permutation_cons_inv (a := b)). by rewrite !Permutation_middle.
Qed.

(** An operation that returns has found the lock free. *)
Lemma alloc_unlocked fuel (s : hstate E) reqd align r : heap_alloc fuel s reqd align = Ret r → lock (hs_heap s) = 0.
Proof. unfold heap_alloc, spin_lock. destruct (Z.eqb_spec (lock (hs_heap s)) 0); done. Qed.
Lemma free_unlocked fuel (s : hstate E) addr s' : heap_free fuel s addr = Ret s' → lock (hs_heap s) = 0.
Proof. unfold heap_free, spin_lock. destruct (Z.eqb_spec (lock (hs_heap s)) 0); done. Qed.

Lemma cstep_inv c c' : client_inv c → cstep c c' → client_inv c'.
Proof.
  intros (bs & hs & K & Hinv & HK & Hown) Hstep.
  pose proof (heap_fuel_enough _ _ _ Hinv) as Hfuel.
  destruct Hstep as [s live reqd s' a [Hr0 Hr1] Hal|s live reqd s' [Hr0 Hr1] Hal|s l1 a n l2 s' Hfr|s live a n i v Hin Hi]; simpl in *.
  - pose proof (alloc_unlocked _ _ _ _ _ Hal) as Hlock. pose proof (heap_alloc_spec _ s bs hs reqd Hinv Hlock Hr0 Hr1 Hfuel) as Hpost.
    rewrite Hal in Hpost.
    destruct Hpost as (l & b & r & hs' & Hinv' & Hb & -> & Hsz & Hbusy & _ & (_ & _ & _ & Hl & _)).
    exists (l ++ b :: r), hs', (b :: K). split; [done|].
    split; [|constructor; [split; simpl; lia|done]].
    rewrite HK, <- Hbusy, busy_of_app. unfold busy_of at 4. rewrite filter_cons_True by done.
    by rewrite Permutation_middle.
  - pose proof (heap_alloc_spec _ s bs hs reqd Hinv (alloc_unlocked _ _ _ _ _ Hal) Hr0 Hr1 Hfuel) as Hpost.
    rewrite Hal in Hpost. destruct Hpost as (_ & _ & (bs' & hs' & Hinv' & Hbusy & _) & _).
    exists bs', hs', K. split; [done|]. by rewrite Hbusy.
  - pose proof (free_unlocked _ _ _ _ Hfr) as Hlock. apply Forall2_app_inv_r in Hown as (K1 & K2' & HK1 & HK2 & ->).
    apply Forall2_cons_inv_r in HK2 as (b & K2 & [Ha Hn] & HK2 & ->). simpl in Ha, Hn. subst a.
    symmetry in HK. destruct (busy_split _ _ _ _ HK) as (bl & br & -> & Hb & HP).
    destruct (heap_free_spec (heap_fuel s) s bl b br hs Hinv Hb Hlock ltac:(lia))
      as (s2 & m1 & b' & m2 & hs' & Hs2 & Hinv' & _ & Hbusy & _ & (_ & _ & _ & Hl & _) & _).
    rewrite Hs2 in Hfr. injection Hfr as <-. exists (m1 ++ b' :: m2), hs', (K1 ++ K2). split; [done|].
    split; [by rewrite Hbusy|by apply Forall2_app].
  - apply list_elem_of_lookup in Hin as [k Hk].
    destruct (Forall2_lookup_r _ _ _ _ _ Hown Hk) as (b & Hbk & [Ha Hn]). simpl in Ha, Hn.
    apply list_elem_of_lookup_2 in Hbk. rewrite HK in Hbk.
    exists bs, hs, K. split; [|done].
    eapply heap_inv_write; [exact Hinv|exact Hbk|]. unfold payload, b_end. lia.
Qed.

(** The lock is free after every other step. *)
Lemma cstep_lock c c' :
  client_inv c → cstep c c' →
  if decide (lock (hs_heap (c_heap c)) = 0) then lock (hs_heap (c_heap c')) = 0 ∨ refused c c' ∧ lock (hs_heap (c_heap c')) = 1
  else lock (hs_heap (c_heap c')) ≠ 0.
Proof.
  intros (bs & hs & K & Hinv & HK & Hown) Hstep. pose proof (heap_fuel_enough _ _ _ Hinv) as Hfuel.
  destruct Hstep as [s live reqd s' a [Hr0 Hr1] Hal|s live reqd s' Hr Hal|s l1 a n l2 s' Hfr|s live a n i v Hin Hi]; cbn [c_heap] in *.
  - pose proof (alloc_unlocked _ _ _ _ _ Hal) as Hlock. rewrite decide_True by done. left.
    pose proof (heap_alloc_spec _ s bs hs reqd Hinv Hlock Hr0 Hr1 Hfuel) as Hpost. rewrite Hal in Hpost.
    destruct Hpost as (l & b & r & hs' & _ & _ & _ & _ & _ & _ & (_ & _ & _ & Hl & _)). congruence.
  - pose proof (alloc_unlocked _ _ _ _ _ Hal) as Hlock. rewrite decide_True by done. right.
    destruct Hr as [Hr0 Hr1]. pose proof (heap_alloc_spec _ s bs hs reqd Hinv Hlock Hr0 Hr1 Hfuel) as Hpost. rewrite Hal in Hpost.
    split; [|apply Hpost]. split; [done|]. by exists reqd.
  - pose proof (free_unlocked _ _ _ _ Hfr) as Hlock. rewrite decide_True by done. left.
    unfold heap_free in Hfr. rewrite Hlock in Hfr. cbn in Hfr.
    destruct (heap_free_nolock _ _ _ _) as [m| |]; [|done..]. cbn in Hfr. injection Hfr as <-. done.
  - case_decide; [by left|done].
Qed.

Lemma client_start_inv c : client_start c → client_inv c.
Proof.
  intros (fuel & m & e & hd & start & end_ & Hf & H0 & H1 & H2 & H3 & Hinit & Hlive).
  pose proof (heap_init_spec fuel m e hd start end_ H0 H1 H2 H3 Hf) as Hpost.
  rewrite Hinit in Hpost. destruct Hpost as (b & hs & Hinv & Hfree & _).
  exists [b], hs, []. split; [done|]. rewrite Hlive.
  split; [|constructor]. unfold busy_of. by rewrite filter_cons_False by congruence.
Qed.

Lemma reachable_inv c c' : client_start c → rtc cstep c c' → client_inv c'.
Proof.
  intros Hc%client_start_inv Hr. induction Hr as [|c c1 c2 Hstep _ IH]; [done|].
  apply IH. by eapply cstep_inv.
Qed.

Lemma client_start_lock c : client_start c → lock (hs_heap (c_heap c)) = 0.
Proof.
  intros (fuel & m & e & hd & start & end_ & Hf & H0 & H1 & H2 & H3 & Hinit & Hlive).
  pose proof (heap_init_spec fuel m e hd start end_ H0 H1 H2 H3 Hf) as Hpost.
  rewrite Hinit in Hpost. by destruct Hpost as (b & hs & _ & _ & _ & Hlock & _).
Qed.

(** The lock is taken from the first refused allocation on. *)
Lemma locked_refused c c' :
  client_start c → rtc cstep c c' →
  lock (hs_heap (c_heap c')) ≠ 0 ↔ ∃ c1 c2, rtc cstep c c1 ∧ refused c1 c2 ∧ rtc cstep c2 c'.
Proof.
  intros Hc Hr. split.
  - pose proof (client_start_lock c Hc) as Hl0. revert Hr. apply (rtc_ind_r (λ c', lock (hs_heap (c_heap c')) ≠ 0 → ∃ c1 c2, rtc cstep c c1 ∧ refused c1 c2 ∧ rtc cstep c2 c')); [done|].
    intros c2 c3 Hr Hs IH Hl. pose proof (cstep_lock _ _ (reachable_inv _ _ Hc Hr) Hs) as Hk. destruct (decide (lock (hs_heap (c_heap c2)) = 0)) as [E0|E0].
    + destruct Hk as [Hk|[Hk _]]; [done|]. by exists c2, c3.
    + destruct (IH E0) as (c1 & c1' & H1 & H2 & H3). exists c1, c1'. split; [done|]. split; [done|]. by eapply rtc_r.
  - intros (c1 & c2 & H1 & H2 & H3).
    assert (Hs : cstep c1 c2) by (destruct c1 as [s1 l1], c2 as [s2 l2], H2 as (El & reqd & Hf & Ha); cbn in *; subst; by eapply cs_alloc_null).
    assert (Hl2 : lock (hs_heap (c_heap c2)) ≠ 0).
    { destruct (reachable_inv _ _ Hc H1) as (bs & hs & K & Hinv & _), H2 as (_ & reqd & [Hf0 Hf1] & Ha).
      pose proof (heap_alloc_spec _ _ bs hs reqd Hinv (alloc_unlocked _ _ _ _ _ Ha) Hf0 Hf1 (heap_fuel_enough _ _ _ Hinv)) as Hpost.
      rewrite Ha in Hpost. destruct Hpost as [-> _]. done. }
    assert (Hi2 : client_inv c2) by (eapply reachable_inv; [exact Hc|by eapply rtc_r]). clear Hs H2 H1 Hr.
    revert Hl2 Hi2. induction H3 as [|c2 c3 c4 Hs _ IH]; [done|]. intros Hl2 Hi2. apply IH; [|by eapply cstep_inv].
    pose proof (cstep_lock _ _ Hi2 Hs) as Hk. by rewrite decide_False in Hk.
Qed.

Lemma blocks_nodup start bs stop : tiles start bs stop → NoDup bs.
Proof.
  revert start. induction bs as [|b bs IH]; intros start; simpl; [constructor|].
  intros (<- & Hsz & Ht). constructor; [|by eapply IH].
  intros Hin. destruct (tiles_bounds _ _ _ _ Ht Hin) as (H & _). unfold b_end in H. lia.
Qed.

(** ** What clients rely on *)

(** C1: in every state reachable from [heap_init] by allocations without
    alignment ([kmalloc], not [kmalloc_a] and [kmalloc_ap], which can overwrite
    live blocks: [heap_aligned_alloc_corrupts]), frees of live blocks and writes
    of clients into their own blocks, every live block lies inside the heap and
    two different live blocks do not overlap.  An allocation may return NULL.
    The sizes asked for must not wrap the address space when they are added to
    the end of the heap ([fits_address_space]; compare
    [heap_alloc_size_wraps]). *)
Theorem heap_live_disjoint c c' i j a n b k :
  client_start c → rtc cstep c c' →
  c_live c' !! i = Some (a, n) → c_live c' !! j = Some (b, k) → i ≠ j →
  memstart (hs_heap (c_heap c')) + 16 <= a ∧ a + n + 8 <= memend (hs_heap (c_heap c'))
  ∧ (a + n <= b ∨ b + k <= a).
Proof.
  intros Hc Hr Hi Hj Hne.
  destruct (reachable_inv _ _ Hc Hr) as (bs & hs & K & ((H0 & H1 & H2 & Ht & _) & _) & HK & Hown).
  destruct (Forall2_lookup_r _ _ _ _ _ Hown Hi) as (x & Hx & [Hxa Hxn]).
  destruct (Forall2_lookup_r _ _ _ _ _ Hown Hj) as (y & Hy & [Hya Hyn]). simpl in *.
  assert (NoDup K) as Hnd by (rewrite HK; apply NoDup_filter; by eapply blocks_nodup).
  assert (Hsub : ∀ z i, K !! i = Some z → z ∈ bs).
  { intros z i' Hz%list_elem_of_lookup_2. rewrite HK in Hz. by apply busy_of_sub. }
  pose proof (tiles_bounds _ _ _ _ Ht (Hsub _ _ Hx)) as Hbx. unfold b_end in Hbx.
  destruct (tiles_distinct _ _ _ _ _ Ht (Hsub _ _ Hx) (Hsub _ _ Hy)) as [->|Hap].
  - exfalso. apply Hne. by eapply NoDup_lookup.
  - unfold apart, b_end in Hap. lia.
Qed.

(** C2: the allocator does not write into memory it has handed out: in every
    state reachable by allocations without alignment whose sizes fit the address
    space, frees of live blocks and writes of clients into their own blocks, a
    further such allocation, also one that returns NULL, and a further free
    leave each byte of the live blocks (of the other live blocks, for
    [heap_free]) as it was.  Allocations aligned to a page are excluded: they
    can overwrite a live block ([heap_aligned_alloc_corrupts]). *)
Theorem heap_contents_stable c c' :
  client_start c → rtc cstep c c' →
  (∀ reqd s' r, fits_address_space (c_heap c') reqd →
     heap_alloc (heap_fuel (c_heap c')) (c_heap c') reqd 0 = Ret (s', r) →
     ∀ b n i, (b, n) ∈ c_live c' → 0 <= i < n → ld8 (hs_mem s') (b + i) = ld8 (hs_mem (c_heap c')) (b + i))
  ∧ (∀ l1 a k l2 s', c_live c' = l1 ++ (a, k) :: l2 →
     heap_free (heap_fuel (c_heap c')) (c_heap c') a = Ret s' →
     ∀ b n i, (b, n) ∈ l1 ++ l2 → 0 <= i < n → ld8 (hs_mem s') (b + i) = ld8 (hs_mem (c_heap c')) (b + i)).
Proof.
  intros Hc Hr. destruct (reachable_inv _ _ Hc Hr) as (bs & hs & K & Hinv & HK & Hown).
  pose proof (heap_fuel_enough _ _ _ Hinv) as Hfuel.
  assert (Hpay : ∀ K' L b n i, Forall2 owns K' L → (b, n) ∈ L → 0 <= i < n → ∃ x, x ∈ K' ∧ payload x (b + i)).
  { intros K' L b n i HF [k Hk]%list_elem_of_lookup Hi.
    destruct (Forall2_lookup_r _ _ _ _ _ HF Hk) as (x & Hx & [Ha Hn]). simpl in *.
    exists x. split; [by eapply list_elem_of_lookup_2|]. unfold payload, b_end. lia. }
  split.
  - intros reqd s' r [H0 H1] Hal b n i Hin Hi. pose proof (alloc_unlocked _ _ _ _ _ Hal) as Hlock.
    pose proof (heap_alloc_spec _ _ bs hs reqd Hinv Hlock H0 H1 Hfuel) as Hpost. rewrite Hal in Hpost.
    assert (Hp : pres (busy_of bs) (hs_mem (c_heap c')) (hs_mem s')).
    { destruct r as [a|]; [by destruct Hpost as (l & x & r & hs' & _ & _ & _ & _ & _ & Hp & _)|].
      by destruct Hpost as (_ & _ & (bs' & hs' & _ & _ & Hp) & _). }
    destruct (Hpay _ _ _ _ _ Hown Hin Hi) as (y & Hy & Hya). rewrite HK in Hy. by eapply Hp.
  - intros l1 a k l2 s' Hl Hfr b n i Hin Hi. pose proof (free_unlocked _ _ _ _ Hfr) as Hlock. rewrite Hl in Hown.
    apply Forall2_app_inv_r in Hown as (K1 & K2' & HK1 & HK2 & ->).
    apply Forall2_cons_inv_r in HK2 as (x & K2 & [Ha Hk] & HK2 & ->). simpl in Ha. subst a.
    symmetry in HK. destruct (busy_split _ _ _ _ HK) as (bl & br & -> & Hb & HP).
    destruct (heap_free_spec (heap_fuel (c_heap c')) _ bl x br hs Hinv Hb Hlock ltac:(lia))
      as (s2 & m1 & b' & m2 & hs' & Hs2 & _ & _ & _ & Hp & _).
    rewrite Hs2 in Hfr. injection Hfr as <-.
    destruct (Hpay (K1 ++ K2) (l1 ++ l2) b n i) as (y & Hy & Hya); [by apply Forall2_app|done|done|].
    rewrite HP, <- busy_of_app in Hy. by eapply Hp.
Qed.

(** C21: no heap operation loops: in every state reachable by allocations
    without alignment whose sizes fit the address space, frees of live blocks
    and writes of clients into their own blocks, with the stated bound on
    iterations, such an allocation returns unless a page of the heap cannot be
    mapped, and [heap_free] of a live block returns, as long as the lock is
    free.  The lock is taken exactly from the first allocation that returned
    NULL on; then every call spins on it for ever.  After an allocation aligned
    to a page nothing is said ([heap_aligned_alloc_corrupts]). *)
Theorem heap_ops_terminate c c' :
  client_start c → rtc cstep c c' →
  (lock (hs_heap (c_heap c')) = 0 → ∀ reqd, fits_address_space (c_heap c') reqd →
     (∃ r, heap_alloc (heap_fuel (c_heap c')) (c_heap c') reqd 0 = Ret r)
     ∨ (heap_alloc (heap_fuel (c_heap c')) (c_heap c') reqd 0 = Halt ∧ ∃ e a, map_heap_page e a = None))
  ∧ (lock (hs_heap (c_heap c')) = 0 → ∀ a n, (a, n) ∈ c_live c' → ∃ s', heap_free (heap_fuel (c_heap c')) (c_heap c') a = Ret s')
  ∧ (lock (hs_heap (c_heap c')) ≠ 0 ↔ ∃ c1 c2, rtc cstep c c1 ∧ refused c1 c2 ∧ rtc cstep c2 c')
  ∧ (lock (hs_heap (c_heap c')) ≠ 0 → ∀ fuel reqd align a,
       heap_alloc fuel (c_heap c') reqd align = Halt ∧ heap_free fuel (c_heap c') a = Halt).
Proof.
  intros Hc Hr. destruct (reachable_inv _ _ Hc Hr) as (bs & hs & K & Hinv & HK & Hown).
  pose proof (heap_fuel_enough _ _ _ Hinv) as Hfuel. split_and!.
  - intros Hlock reqd [H0 H1]. pose proof (heap_alloc_spec _ _ bs hs reqd Hinv Hlock H0 H1 Hfuel) as Hpost.
    destruct (heap_alloc _ _ _ _); [left; eauto|right; eauto|done].
  - intros Hlock a n [k Hk]%list_elem_of_lookup.
    destruct (Forall2_lookup_r _ _ _ _ _ Hown Hk) as (x & Hx & [Ha _]). simpl in Ha. subst a.
    apply list_elem_of_lookup_2 in Hx. rewrite HK in Hx.
    apply list_elem_of_filter in Hx as [Hb (bl & br & ->)%list_elem_of_split].
    destruct (heap_free_spec (heap_fuel (c_heap c')) _ bl x br hs Hinv Hb Hlock ltac:(lia))
      as (s2 & m1 & b' & m2 & hs' & Hs2 & _). eauto.
  - by apply locked_refused.
  - intros Hlock fuel reqd align a. unfold heap_alloc, heap_free, spin_lock. by rewrite (proj2 (Z.eqb_neq _ _) Hlock).
Qed.

(** a request some hole can serve is served, without growing the heap,
    from the smallest hole that fits: the block returned starts where that
    hole started and has at least [reqd] and at most [reqd + 24] payload
    bytes, and the blocks busy before are exactly the other busy blocks. *)
Theorem heap_alloc_best_fit (s : hstate E) bs hs reqd c :
  heap_inv s bs hs → lock (hs_heap s) = 0 → 0 <= reqd → reqd + 48 < 4294967296 →
  c ∈ bs → b_free c = true → reqd + 24 <= b_sz c →
  ∃ s' l b r hs', heap_alloc (heap_fuel s) s reqd 0 = Ret (s', Some (b_at b + 16))
    ∧ heap_inv s' (l ++ b :: r) hs' ∧ best_fit bs reqd (b_at b) ∧ b_free b = false
    ∧ reqd <= b_sz b - 24 <= reqd + 24 ∧ busy_of l ++ busy_of r = busy_of bs
    ∧ memend (hs_heap s') = memend (hs_heap s).
Proof.
  intros Hinv Hlock H0 H1 Hc Hfree Hfit. pose proof (heap_fuel_enough _ _ _ Hinv) as Hfuel.
  destruct (heap_alloc_fit _ _ _ _ _ _ Hinv Hlock H0 H1 Hfuel Hc Hfree Hfit)
    as (s' & head & Hal & Hbest & (l & b & r & hs' & Hinv' & Hb & Ha & Hsz & Hbusy & _) & He).
  assert (head = b_at b) as -> by lia.
  exists s', l, b, r, hs'. repeat (split; [done|]). split; [lia|done].
Qed.

(** [heap_free] of a busy block returns, replaces the block and all free
    blocks adjacent to it by one hole, keeps every other busy block and
    restores the invariant (two holes are never adjacent). *)
Theorem heap_free_coalesces (s : hstate E) l b r hs :
  heap_inv s (l ++ b :: r) hs → b_free b = false → lock (hs_heap s) = 0 →
  ∃ s' l1 l2 r1 r2 b' hs', heap_free (heap_fuel s) s (b_at b + 16) = Ret s'
    ∧ l = l1 ++ l2 ∧ r = r1 ++ r2 ∧ Forall is_free (l2 ++ r1) ∧ ends_busy l1 ∧ starts_busy r2
    ∧ b_free b' = true ∧ b_at b' <= b_at b ∧ b_end b <= b_end b'
    ∧ heap_inv s' (l1 ++ b' :: r2) hs' ∧ lock (hs_heap s') = 0.
Proof.
  intros Hinv Hb Hlock. pose proof (heap_fuel_enough _ _ _ Hinv) as Hfuel.
  destruct (heap_free_spec (heap_fuel s) s l b r hs Hinv Hb Hlock ltac:(lia))
    as (s' & l1 & b' & r2 & hs' & Hs' & Hinv' & Habs & _ & _ & (E1 & E2 & E3 & E4 & _) & E5).
  destruct Habs as (l2 & r1 & -> & -> & HF & He & Hs & Hb').
  destruct Hinv as ((_ & _ & _ & Ht & _) & _). pose proof Hinv' as ((_ & _ & _ & Ht' & _) & _).
  apply tiles_split in Ht as (Hl & _ & Hr). apply tiles_split in Ht' as (Hl' & _ & Hr').
  apply tiles_app in Hl as (x & Hx & Hx2%tiles_le). rewrite <- E2 in Hx.
  pose proof (tiles_fun _ _ _ _ Hx Hl') as ->.
  exists s', l1, l2, r1, r2, b', hs'. do 7 (split; [done|]). split; [done|].
  split; [|split; [done|congruence]].
  apply tiles_app in Hr as (y & Hy%tiles_le & Hr). rewrite E5 in Hr'.
  by rewrite (tiles_fun_start _ _ _ _ Hr' Hr).
Qed.

(** on a region of at least one page that does not wrap the address
    space, [heap_init] builds, if the first page can be mapped, a heap of one
    hole of exactly that page, unlocked and satisfying the invariant. *)
Theorem heap_init_establishes fuel m e hd start end_ :
  (0 < fuel)%nat → 0 <= hd → hd + 8 <= start → start + 4096 <= end_ < 4294967296 →
  start + 8192 < 4294967296 → (∀ e a, map_heap_page e a ≠ None) →
  ∃ s hs, heap_init fuel m e hd start end_ = Ret s
    ∧ heap_inv s [mk_blk start 4096 true] hs ∧ lock (hs_heap s) = 0
    ∧ memstart (hs_heap s) = start ∧ memmax (hs_heap s) = end_.
Proof.
  intros Hf H0 H1 H2 H3 Hmap. pose proof (heap_init_spec fuel m e hd start end_ H0 H1 H2 H3 Hf) as Hpost.
  destruct (heap_init _ _ _ _ _ _) as [s| |]; [|by destruct Hpost as (e1 & a & []%Hmap)|done].
  destruct Hpost as (b & hs & Hinv & Hfree & Hat & Hlock & Hst & Hmx & Hme). exists s, hs.
  pose proof Hinv as ((_ & _ & _ & (_ & _ & Hend) & _) & _). simpl in Hend.
  assert (b = mk_blk start 4096 true) as <-; [|done].
  destruct b; unfold b_end in Hend; simpl in *. f_equal; (done || lia).
Qed.

(** ** At the limits *)

(** when the heap is exhausted ([heap_alloc] returns [NULL]: no hole fits
    and the heap cannot grow enough) the lock stays taken, so that every
    later [heap_alloc] or [heap_free] spins forever. *)
Theorem heap_exhausted_deadlock (s s' : hstate E) bs hs reqd fuel' reqd' align' addr' :
  heap_inv s bs hs → lock (hs_heap s) = 0 → fits_address_space s reqd →
  heap_alloc (heap_fuel s) s reqd 0 = Ret (s', None) →
  none_fits bs reqd
  ∧ heap_alloc fuel' s' reqd' align' = Halt ∧ heap_free fuel' s' addr' = Halt.
Proof.
  intros Hinv Hlock [H0 H1] Hal. pose proof (heap_fuel_enough _ _ _ Hinv) as Hfuel.
  pose proof (heap_alloc_spec _ _ bs hs reqd Hinv Hlock H0 H1 Hfuel) as Hpost.
  rewrite Hal in Hpost. destruct Hpost as (Hl & Hnone & _).
  unfold heap_alloc, heap_free, spin_lock. rewrite Hl. done.
Qed.
End Client.

Arguments client E : clear implicits.

(** * Runs *)

(** A mapper that always succeeds. *)
#[export] Instance unit_mapper : PageMapper unit := λ e _, Some e.

Definition run_heap (o : outcome (hstate unit)) : hstate unit :=
  match o with Ret s => s | _ => mk_hstate (mk_heap 0 0 0 0 1) ∅ tt end.
Definition run_alloc (s : hstate unit) (reqd : Z) : hstate unit :=
  run_heap ('(s, _) <~ heap_alloc (heap_fuel s) s reqd 0 ;; Ret s).

Definition demo0 : hstate unit := run_heap (heap_init 1 ∅ tt 4096 8192 40960).
Definition demo1 : hstate unit := run_alloc demo0 100.
Definition demo2 : hstate unit := run_alloc demo1 5000.
Definition demo_client0 : client unit := mk_client demo0 [].
Definition demo_client2 : client unit := mk_client demo2 [(8332, 5000); (8208, 100)].

Lemma demo_start : client_start demo_client0.
Proof.
  exists 1%nat, ∅, tt, 4096, 8192, 40960. do 4 (split; [lia|]). split; [lia|].
  split; [vm_compute; reflexivity|reflexivity].
Qed.

Lemma demo_run : rtc cstep demo_client0 demo_client2.
Proof.
  eapply rtc_l; [apply (cs_alloc demo0 [] 100 demo1 8208)|].
  { split; vm_compute; congruence. }
  { vm_compute. reflexivity. }
  eapply rtc_l; [apply (cs_alloc demo1 _ 5000 demo2 8332)|apply rtc_refl].
  { split; vm_compute; congruence. }
  { vm_compute. reflexivity. }
Qed.

Lemma demo0_inv : ∃ hs, heap_inv demo0 [mk_blk 8192 4096 true] hs.
Proof.
  pose proof (heap_init_spec 1 ∅ tt 4096 8192 40960 ltac:(lia) ltac:(lia) ltac:(lia) ltac:(lia)
    ltac:(lia)) as Hpost.
  assert (heap_init 1 ∅ tt 4096 8192 40960 = Ret demo0) as Hd by (vm_compute; reflexivity).
  rewrite Hd in Hpost. destruct Hpost as (b & hs & Hinv & Hfree & Hat & _ & _ & _ & Hme).
  exists hs. pose proof Hinv as ((_ & _ & _ & (_ & _ & Hend) & _) & _). cbn [tiles] in Hend.
  rewrite Hme in Hend. replace (mk_blk 8192 4096 true) with b; [exact Hinv|].
  clear -Hfree Hat Hend. destruct b; unfold b_end in Hend; simpl in *. f_equal; (done || lia).
Qed.

Lemma heap_live_disjoint_witness :
  memstart (hs_heap demo2) + 16 <= 8332 ∧ 8332 + 5000 + 8 <= memend (hs_heap demo2)
  ∧ (8332 + 5000 <= 8208 ∨ 8208 + 100 <= 8332).
Proof.
  apply (heap_live_disjoint demo_client0 demo_client2 0 1 8332 5000 8208 100);
    [exact demo_start|exact demo_run|reflexivity|reflexivity|lia].
Defined.

Lemma demo_live : (8208, 100) ∈ c_live demo_client2.
Proof. apply list_elem_of_further, list_elem_of_here. Qed.

Definition demo3 : hstate unit := run_heap (heap_free (heap_fuel demo2) demo2 8332).

Lemma demo3_run : heap_free (heap_fuel (c_heap demo_client2)) (c_heap demo_client2) 8332 = Ret demo3.
Proof. vm_compute. reflexivity. Qed.

Lemma heap_contents_stable_witness :
  ld8 (hs_mem demo3) (8208 + 99) = ld8 (hs_mem (c_heap demo_client2)) (8208 + 99).
Proof.
  exact (proj2 (heap_contents_stable demo_client0 demo_client2 demo_start demo_run)
    [] 8332 5000 [(8208, 100)] demo3 eq_refl demo3_run 8208 100 99
    ltac:(set_solver) ltac:(lia)).
Defined.

Lemma heap_ops_terminate_witness :
  ∃ s', heap_free (heap_fuel (c_heap demo_client2)) (c_heap demo_client2) 8208 = Ret s'.
Proof.
  destruct (heap_ops_terminate demo_client0 demo_client2 demo_start demo_run) as (_ & H & _).
  exact (H eq_refl 8208 100 demo_live).
Defined.

Lemma heap_alloc_best_fit_witness :
  ∃ s' b, heap_alloc (heap_fuel demo0) demo0 100 0 = Ret (s', Some (b_at b + 16))
    ∧ best_fit [mk_blk 8192 4096 true] 100 (b_at b).
Proof.
  destruct demo0_inv as [hs Hinv].
  destruct (heap_alloc_best_fit demo0 _ hs 100 (mk_blk 8192 4096 true) Hinv)
    as (s' & l & b & r & hs' & H1 & _ & H2 & _);
    [reflexivity|lia|lia|set_solver|reflexivity|simpl; lia|].
  exact (ex_intro _ s' (ex_intro _ b (conj H1 H2))).
Defined.

Lemma demo1_inv : ∃ l b r hs, heap_inv demo1 (l ++ b :: r) hs ∧ b_free b = false ∧ b_at b = 8192.
Proof.
  destruct demo0_inv as [hs Hinv].
  pose proof (heap_alloc_spec (heap_fuel demo0) demo0 _ hs 100 Hinv eq_refl ltac:(lia)
    ltac:(vm_compute; reflexivity) ltac:(vm_compute; lia)) as Hpost.
  assert (heap_alloc (heap_fuel demo0) demo0 100 0 = Ret (demo1, Some 8208)) as Hd by (vm_compute; reflexivity).
  rewrite Hd in Hpost. destruct Hpost as (l & b & r & hs' & Hinv' & Hb & Ha & _).
  exists l, b, r, hs'. split; [exact Hinv'|]. split; [exact Hb|lia].
Qed.

Lemma heap_free_coalesces_witness : ∃ s', heap_free (heap_fuel demo1) demo1 (8192 + 16) = Ret s'.
Proof.
  destruct demo1_inv as (l & b & r & hs & Hinv & Hb & Hat). rewrite <- Hat.
  destruct (heap_free_coalesces demo1 l b r hs Hinv Hb) as (s' & l1 & l2 & r1 & r2 & b' & hs' & Hs' & _);
    [vm_compute; reflexivity|]. exact (ex_intro _ s' Hs').
Defined.

Lemma heap_init_establishes_witness :
  ∃ s hs, heap_init 1 ∅ tt 4096 8192 40960 = Ret s ∧ heap_inv s [mk_blk 8192 4096 true] hs.
Proof.
  destruct (heap_init_establishes 1 ∅ tt 4096 8192 40960) as (s & hs & H1 & H2 & _);
    [lia|lia|lia|lia|lia|discriminate|]. exact (ex_intro _ s (ex_intro _ hs (conj H1 H2))).
Defined.

(** A heap of one page that may not grow beyond it. *)
Definition small0 : hstate unit := run_heap (heap_init 1 ∅ tt 4096 8192 12288).

Lemma small0_inv : ∃ bs hs, heap_inv small0 bs hs.
Proof.
  pose proof (heap_init_spec 1 ∅ tt 4096 8192 12288 ltac:(lia) ltac:(lia) ltac:(lia) ltac:(lia)
    ltac:(lia)) as Hpost.
  assert (heap_init 1 ∅ tt 4096 8192 12288 = Ret small0) as Hd by (vm_compute; reflexivity).
  rewrite Hd in Hpost. destruct Hpost as (b & hs & Hinv & _). exists [b], hs. exact Hinv.
Qed.

Lemma heap_exhausted_deadlock_witness :
  ∃ s', heap_alloc (heap_fuel small0) small0 5000 0 = Ret (s', None)
    ∧ heap_alloc 10 s' 1 0 = Halt.
Proof.
  destruct small0_inv as (bs & hs & Hinv). eexists. split; [vm_compute; reflexivity|].
  apply (heap_exhausted_deadlock small0 _ bs hs 5000 10 1 0 0 Hinv);
    [vm_compute; reflexivity|split; vm_compute; congruence|vm_compute; reflexivity].
Defined.

(** [heap_expand] tests [memstart + ammnt], not [memend + ammnt], against
    [memmax]: the heap of one page of a two-page region grows by two pages
    and ends one page behind its limit. *)
Theorem heap_grows_past_memmax :
  match heap_init 1 ∅ tt 4096 8192 16384 with
  | Ret s => match heap_alloc (heap_fuel s) s 4090 0 with
             | Ret (s', Some _) => memend (hs_heap s') = memmax (hs_heap s') + 4096
             | _ => False
             end
  | _ => False
  end.
Proof. vm_compute. reflexivity. Qed.

(** the size test of [heap_locate] adds the overhead in 32 bits: a request
    of 4294967290 bytes is answered with a block of the one-page heap. *)
Theorem heap_alloc_size_wraps :
  match heap_alloc (heap_fuel demo0) demo0 4294967290 0 with
  | Ret (s', Some addr) => addr = 8208 ∧ memend (hs_heap s') = 8192 + 4096
  | _ => False
  end.
Proof. vm_compute. split; reflexivity. Qed.

(** The heap after [kmalloc(5000)], its [kfree] and [kmalloc(4061)]: the next
    header is at page offset 4085, too close to the page end for another
    header before the boundary. *)
Definition odd_heap : hstate unit :=
  run_alloc (run_heap (heap_free (heap_fuel (run_alloc demo0 5000)) (run_alloc demo0 5000) 8208)) 4061.

(** [heap_trim] computes the gap before the page boundary in unsigned
    arithmetic: with a hole header in the last 16 bytes of a page a
    page-aligned allocation succeeds but overwrites the last byte and the
    footer of the live block before the hole. *)
Theorem heap_aligned_alloc_corrupts :
  ld8 (hs_mem odd_heap) (8208 + 4060) = 0 ∧ ld32 (hs_mem odd_heap) (8208 + 4061) = KHEAP_MAGIC
  ∧ match heap_alloc (heap_fuel odd_heap) odd_heap 100 1 with
    | Ret (s', Some addr) => addr = 12288 ∧ ld8 (hs_mem s') (8208 + 4060) = 245
        ∧ ld32 (hs_mem s') (8208 + 4061) ≠ KHEAP_MAGIC
    | _ => False
    end.
Proof. vm_compute. repeat split; congruence. Qed.
