(* ===== verification/Paging.v ===== *)
(** Page directories: [src/kernel/src/paging.c].

    A directory has 1024 slots that point to page tables; tables are shared
    between directories (the kernel's), so they live in a store of their own,
    keyed by address, and a directory maps slot numbers to table addresses.
    [supply] tells what the coming calls of [kmalloc_ap] do: the block they
    return (virtual and physical address, or NULL) and the pages by which the
    heap grows for it, which [heap_expand] maps in the tables of the kernel
    directory ([KHeap] has the allocator itself).  [ram] is the contents of the
    physical frames.  The TLB flushes ([invalidate_page]) have no state here. *)

From S2P Require Import Prelude KHeap Pmm.

Definition PAGE_TABLE (addr : Z) : Z := Z.land (Z.shiftr addr 22) 1023.
Definition PAGE_PAGE (addr : Z) : Z := Z.land (Z.shiftr addr 12) 1023.
Definition VADDR (t p o : Z) : Z :=
  Z.lor (Z.lor (Z.shiftl (Z.land 1023 t) 22) (Z.shiftl (Z.land 1023 p) 12)) (Z.land o 4095).

Definition TASK_KSTACK_ADDR : Z := 4294955008.      (* 0xFFFFD000 *)
Definition TASK_KSTACK_SIZE : Z := 8192.
Definition TASK_STACK_START : Z := 3221221376.      (* 0xBFFFF000 *)
Definition TASK_STACK_INIT_BASE : Z := 3221209088.  (* 0xBFFFC000 *)
Definition TEMP_PAGE : Z := 4294963200.             (* 0xFFFFF000 *)

Record page_dir := mk_dir {
  tablePhys : gmap Z Z;
  table : gmap Z Z;        (* a slot without entry is NULL *)
  d_phys : Z;
  d_lock : Z;
}.

Abbreviation ptable := (gmap Z page_t).

Record kmalloc_result := mk_result { kr_block : option (Z * Z); kr_pages : list Z }.

Record paging := mk_paging {
  tables : gmap Z ptable;
  dirs : gmap Z page_dir;
  kerndir : Z;
  curdir : Z;
  supply : list kmalloc_result;
  frames : pmm;
  ram : gmap Z Z;
}.

(** ** Access *)

Definition dir_of (s : paging) (d : Z) : page_dir := default (mk_dir ∅ ∅ 0 0) (dirs s !! d).
Definition tbl_of (s : paging) (t : Z) : ptable := default ∅ (tables s !! t).
Definition page_at (tb : ptable) (p : Z) : page_t := default page_zero (tb !! p).

(** A [page_t*]: table address and index. *)
Definition rd_page (s : paging) (ptr : Z * Z) : page_t := page_at (tbl_of s ptr.1) ptr.2.

Definition set_tables (s : paging) (ts : gmap Z ptable) : paging :=
  mk_paging ts (dirs s) (kerndir s) (curdir s) (supply s) (frames s) (ram s).
Definition wr_page (s : paging) (ptr : Z * Z) (pg : page_t) : paging :=
  set_tables s (<[ptr.1 := <[ptr.2 := pg]> (tbl_of s ptr.1)]> (tables s)).
Definition set_dir (s : paging) (d : Z) (x : page_dir) : paging :=
  mk_paging (tables s) (<[d := x]> (dirs s)) (kerndir s) (curdir s) (supply s) (frames s) (ram s).
Definition set_frames (s : paging) (p : pmm) : paging :=
  mk_paging (tables s) (dirs s) (kerndir s) (curdir s) (supply s) p (ram s).

(** The heap's view of paging: a page of the kernel directory gets a frame.  Its
    table was made at boot; without one, or without a free frame, the code
    faults or stops. *)
#[export] Instance kernel_mapper : PageMapper paging := λ s va,
  match table (dir_of s (kerndir s)) !! PAGE_TABLE va with
  | Some a =>
      match alloc_frame (frames s) (rd_page s (a, PAGE_PAGE va)) 0 1 with
      | Some (f, pg) => Some (wr_page (set_frames s f) (a, PAGE_PAGE va) pg)
      | None => None
      end
  | None => None
  end.
Fixpoint map_heap (s : paging) (l : list Z) : outcome paging :=
  match l with
  | [] => Ret s
  | va :: l => s <~ or_halt (map_heap_page s va) ;; map_heap s l
  end.

(** The pages of the heap are mapped before the block is returned. *)
Definition kmalloc_ap (s : paging) : outcome (paging * option (Z * Z)) :=
  match supply s with
  | [] => Ret (s, None)
  | r :: rest =>
      s <~ map_heap (mk_paging (tables s) (dirs s) (kerndir s) (curdir s) rest (frames s) (ram s)) (kr_pages r) ;;
      Ret (s, kr_block r)
  end.

(** [kmalloc_ap] followed by [memset] of a table. *)
Definition new_table (s : paging) : outcome (paging * option (Z * Z)) :=
  '(s, r) <~ kmalloc_ap s ;;
  Ret (match r with Some (a, _) => set_tables s (<[a := ∅]> (tables s)) | None => s end, r).

Definition dir_set_table (x : page_dir) (t a ph : Z) : page_dir :=
  mk_dir (<[t := ph]> (tablePhys x)) (<[t := a]> (table x)) (d_phys x) (d_lock x).
Definition dir_clear_table (x : page_dir) (t : Z) : page_dir :=
  mk_dir (<[t := 0]> (tablePhys x)) (delete t (table x)) (d_phys x) (d_lock x).

(** * Lookup and mapping *)

Definition get_page (s : paging) (va : Z) (make : bool) (d : Z) : outcome (paging * option (Z * Z)) :=
  let dir_idx := PAGE_TABLE va in
  let tbl_idx := PAGE_PAGE va in
  match table (dir_of s d) !! dir_idx with
  | Some a => Ret (s, Some (a, tbl_idx))
  | None =>
      if make then
        '(s, r) <~ new_table s ;;
        '(a, ph) <~ or_halt r ;;
        let s := set_dir s d (dir_set_table (dir_of s d) dir_idx a (Z.lor ph 7)) in
        Ret (s, Some (a, tbl_idx))
      else Ret (s, None)
  end.

Definition alloc_page (s : paging) (d va user rw : Z) : outcome paging :=
  '(s, r) <~ get_page s va true d ;;
  match r with
  | None => Halt
  | Some ptr =>
      let pg := rd_page s ptr in
      if negb (pg_present pg =? 0) then
        Ret (wr_page s ptr (mk_page (pg_present pg) (if 0 <? rw then 1 else 0) (if 0 <? user then 1 else 0)
               (pg_accessed pg) (pg_dirty pg) (pg_unused pg) (pg_frame pg)))
      else
        '(f, pg) <~ or_halt (alloc_frame (frames s) pg user rw) ;;
        Ret (wr_page (set_frames s f) ptr pg)
  end.

Definition get_physical_addr (s : paging) (d virt : Z) : result Z :=
  match get_page s virt false d with
  | Ret (_, Some ptr) =>
      if pg_present (rd_page s ptr) =? 0 then Err EFAULT
      else Ok (Z.lor (u32 (Z.shiftl (pg_frame (rd_page s ptr)) 12)) (Z.land virt 4095))
  | _ => Err EFAULT
  end.

Definition map_page (s : paging) (d virt phys user rw : Z) : outcome paging :=
  '(s, r) <~ get_page s virt true d ;;
  match r with
  | None => Halt
  | Some ptr =>
      let pg := rd_page s ptr in
      Ret (wr_page s ptr (mk_page 1 (if 0 <? rw then 1 else 0) (if 0 <? user then 1 else 0)
             (pg_accessed pg) (pg_dirty pg) (pg_unused pg) (Z.land (Z.shiftr phys 12) 1048575)))
  end.

Definition unmap_page (s : paging) (d virt : Z) : outcome paging :=
  '(s, r) <~ get_page s virt false d ;;
  match r with
  | None => Ret s
  | Some ptr =>
      let pg := rd_page s ptr in
      Ret (wr_page s ptr (mk_page 0 (pg_rw pg) (pg_user pg) (pg_accessed pg) (pg_dirty pg) (pg_unused pg) 0))
  end.

(** [None] when the other directory has no table there; a current directory
    without a table for the temporary page faults. *)
Definition temporary_map (s : paging) (addr d : Z) : outcome (paging * option Z) :=
  match table (dir_of s d) !! PAGE_TABLE addr with
  | None => Ret (s, None)
  | Some a =>
      let src := page_at (tbl_of s a) (PAGE_PAGE addr) in
      match table (dir_of s (curdir s)) !! PAGE_TABLE TEMP_PAGE with
      | None => Halt
      | Some c =>
          let dst := rd_page s (c, PAGE_PAGE TEMP_PAGE) in
          Ret (wr_page s (c, PAGE_PAGE TEMP_PAGE)
                 (mk_page 1 1 0 (pg_accessed dst) (pg_dirty dst) (pg_unused dst) (pg_frame src)),
               Some TEMP_PAGE)
      end
  end.

Definition temporary_unmap (s : paging) : outcome paging :=
  match table (dir_of s (curdir s)) !! PAGE_TABLE TEMP_PAGE with
  | None => Halt
  | Some c =>
      let dst := rd_page s (c, PAGE_PAGE TEMP_PAGE) in
      Ret (wr_page s (c, PAGE_PAGE TEMP_PAGE)
             (mk_page 0 0 0 (pg_accessed dst) (pg_dirty dst) (pg_unused dst) 0))
  end.

Definition switch_page_dir (s : paging) (d : Z) : paging :=
  mk_paging (tables s) (dirs s) (kerndir s) d (supply s) (frames s) (ram s).

(** A fault that is not handled prints and loops. *)
Definition page_fault (s : paging) (address err : Z) : outcome paging :=
  let t := PAGE_TABLE address in
  match table (dir_of s (kerndir s)) !! t, table (dir_of s (curdir s)) !! t with
  | Some k, Some _ =>
      if Z.land err 1 =? 0 then
        let c := dir_of s (curdir s) in
        Ret (set_dir s (curdir s) (mk_dir (tablePhys c) (<[t := k]> (table c)) (d_phys c) (d_lock c)))
      else Halt
  | _, _ => Halt
  end.

(** * Copying and freeing address spaces *)

Definition copy_physical_frame (s : paging) (dst src : Z) : paging :=
  mk_paging (tables s) (dirs s) (kerndir s) (curdir s) (supply s) (frames s)
    (<[dst := default 0 (ram s !! src)]> (ram s)).

(** The loop over the pages [ps] of the tables at [da] and [sa]. *)
Fixpoint copy_pages (s : paging) (da sa : Z) (ps : list Z) : outcome paging :=
  match ps with
  | [] => Ret s
  | p :: ps =>
      let s := wr_page s (da, p) page_zero in
      let src := rd_page s (sa, p) in
      if pg_present src =? 0 then copy_pages s da sa ps
      else
        '(f, dst) <~ or_halt (alloc_frame (frames s) (rd_page s (da, p)) (pg_user src) (pg_rw src)) ;;
        let s := wr_page (set_frames s f) (da, p) dst in
        copy_pages (copy_physical_frame s (pg_frame dst) (pg_frame src)) da sa ps
  end.

(** Returns -1 when no table can be allocated. *)
Definition copy_page_table (s : paging) (dstdir srcdir t : Z) : outcome (paging * Z) :=
  match table (dir_of s srcdir) !! t with
  | None => Halt
  | Some sa =>
      match table (dir_of s dstdir) !! t with
      | Some da => s <~ copy_pages s da sa (seqZ 0 1024) ;; Ret (s, 0)
      | None =>
          '(s, r) <~ new_table s ;;
          match r with
          | None => Ret (s, -1)
          | Some (da, ph) =>
              let s := set_dir s dstdir (dir_set_table (dir_of s dstdir) t da (Z.lor ph 7)) in
              s <~ copy_pages s da sa (seqZ 0 1024) ;; Ret (s, 0)
          end
      end
  end.

Definition lock_dir (s : paging) (d : Z) : outcome paging :=
  let x := dir_of s d in
  l <~ spin_lock (d_lock x) ;; Ret (set_dir s d (mk_dir (tablePhys x) (table x) (d_phys x) l)).
Definition unlock_dir (s : paging) (d : Z) : paging :=
  let x := dir_of s d in
  set_dir s d (mk_dir (tablePhys x) (table x) (d_phys x) (spin_unlock (d_lock x))).

(** The loop of [copy_page_dir]; [None]: a table could not be copied. *)
Fixpoint copy_tables (s : paging) (dst src : Z) (ts : list Z) : outcome (paging * bool) :=
  match ts with
  | [] => Ret (s, true)
  | t :: ts =>
      match table (dir_of s src) !! t with
      | None => copy_tables (set_dir s dst (dir_clear_table (dir_of s dst) t)) dst src ts
      | Some a =>
          match table (dir_of s (kerndir s)) !! t with
          | Some _ =>
              let ph := default 0 (tablePhys (dir_of s src) !! t) in
              copy_tables (set_dir s dst (dir_set_table (dir_of s dst) t a ph)) dst src ts
          | None =>
              '(s, r) <~ copy_page_table s dst src t ;;
              if negb (r =? 0) then Ret (s, false) else copy_tables s dst src ts
          end
      end
  end.

(** [None] is a NULL directory. *)
Definition copy_page_dir (s : paging) (src : Z) : outcome (paging * option Z) :=
  '(s, r) <~ kmalloc_ap s ;;
  match r with
  | None => Ret (s, None)
  | Some (dst, ph) =>
      if negb (Z.land dst 4095 =? 0) then Halt
      else
        let s := set_dir s dst (mk_dir ∅ ∅ ph 0) in
        s <~ lock_dir s src ;;
        s <~ lock_dir s dst ;;
        '(s, ok) <~ copy_tables s dst src (seqZ 0 1024) ;;
        Ret (unlock_dir (unlock_dir s src) dst, if ok then Some dst else None)
  end.

(** Pages [strip_page_dir] does not free. *)
Definition strip_kept (va : Z) : bool :=
  (TASK_KSTACK_ADDR <=? va) && (va <? TASK_KSTACK_ADDR + TASK_KSTACK_SIZE)
  || (u32 (TASK_STACK_START - TASK_STACK_INIT_BASE) <=? va) && (va <? TASK_STACK_START).

(** The loop over the pages of the table at [a] in slot [t]. *)
Fixpoint strip_pages (s : paging) (t a : Z) (ps : list Z) (erase : bool) : paging * bool :=
  match ps with
  | [] => (s, erase)
  | p :: ps =>
      if strip_kept (VADDR t p 0) then strip_pages s t a ps false
      else
        let '(f, pg) := free_frame (frames s) (rd_page s (a, p)) in
        strip_pages (wr_page (set_frames s f) (a, p) pg) t a ps erase
  end.

Definition drop_table (s : paging) (d t a : Z) : paging :=
  set_dir (set_tables s (delete a (tables s))) d (dir_clear_table (dir_of s d) t).

Fixpoint strip_tables (s : paging) (d : Z) (ts : list Z) : paging :=
  match ts with
  | [] => s
  | t :: ts =>
      match table (dir_of s d) !! t with
      | None => strip_tables s d ts
      | Some a =>
          if bool_decide (table (dir_of s (kerndir s)) !! t = Some a) then strip_tables s d ts
          else
            let '(s, erase) := strip_pages s t a (seqZ 0 1024) true in
            strip_tables (if erase then drop_table s d t a else s) d ts
      end
  end.

Definition strip_page_dir (s : paging) (d : Z) : outcome paging :=
  s <~ lock_dir s d ;; Ret (unlock_dir (strip_tables s d (seqZ 0 1024)) d).

Fixpoint free_pages (s : paging) (a : Z) (ps : list Z) : paging :=
  match ps with
  | [] => s
  | p :: ps =>
      if pg_present (rd_page s (a, p)) =? 0 then free_pages s a ps
      else let '(f, pg) := free_frame (frames s) (rd_page s (a, p)) in
           free_pages (wr_page (set_frames s f) (a, p) pg) a ps
  end.

Fixpoint free_tables (s : paging) (d : Z) (ts : list Z) : paging :=
  match ts with
  | [] => s
  | t :: ts =>
      match table (dir_of s d) !! t, table (dir_of s (kerndir s)) !! t with
      | Some a, None => free_tables (drop_table (free_pages s a (seqZ 0 1024)) d t a) d ts
      | _, _ => free_tables s d ts
      end
  end.

Definition free_page_dir (s : paging) (d : Z) : outcome paging :=
  if d =? curdir s then Ret s
  else
    s <~ lock_dir s d ;;
    let s := free_tables s d (seqZ 0 1024) in
    Ret (mk_paging (tables s) (delete d (dirs s)) (kerndir s) (curdir s) (supply s) (frames s) (ram s)).

(** * Addresses *)

Lemma page_table_div va : 0 <= va < 4294967296 → PAGE_TABLE va = va / 4194304.
Proof.
  intros H. unfold PAGE_TABLE. change 1023 with (Z.ones 10). rewrite Z.land_ones, Z.shiftr_div_pow2 by lia.
  apply Z.mod_small. change (2 ^ 22) with 4194304. change (2 ^ 10) with 1024.
  split; [apply Z.div_pos; lia|apply Z.div_lt_upper_bound; lia].
Qed.

Lemma page_page_div va : PAGE_PAGE va = (va / 4096) mod 1024.
Proof.
  unfold PAGE_PAGE. change 1023 with (Z.ones 10). rewrite Z.land_ones, Z.shiftr_div_pow2 by lia. done.
Qed.

(** Table and page index determine the page of an address. *)
Lemma same_page va va' :
  0 <= va < 4294967296 → 0 <= va' < 4294967296 →
  PAGE_TABLE va = PAGE_TABLE va' ∧ PAGE_PAGE va = PAGE_PAGE va' ↔ va / 4096 = va' / 4096.
Proof.
  intros H H'. rewrite !page_table_div, !page_page_div by done.
  change 4194304 with (4096 * 1024). rewrite <- !Z.div_div by lia. split; [|by intros ->].
  intros [H1 H2]. rewrite (Z.div_mod (va / 4096) 1024), (Z.div_mod (va' / 4096) 1024) by lia. congruence.
Qed.

Lemma lor_page a b : 0 <= b < 4096 → Z.lor (Z.shiftl a 12) b = a * 4096 + b.
Proof.
  intros Hb. assert (Z.land (Z.shiftl a 12) b = 0) as Hl.
  { apply Z.bits_inj'. intros n Hn. rewrite Z.land_spec, Z.bits_0.
    destruct (Z.ltb_spec n 12); [rewrite Z.shiftl_spec_low by lia; done|].
    replace (Z.testbit b n) with false; [apply andb_false_r|]. symmetry.
    destruct (Z.eq_dec b 0) as [->|]; [apply Z.bits_0|]. apply Z.bits_above_log2; [lia|].
    apply Z.lt_le_trans with 12; [apply Z.log2_lt_pow2; lia|lia]. }
  rewrite <- Z.lxor_lor by done. rewrite <- Z.add_nocarry_lxor by done.
  rewrite Z.shiftl_mul_pow2 by lia. done.
Qed.

Lemma phys_of_frame f va : 0 <= f < 1048576 →
  Z.lor (u32 (Z.shiftl f 12)) (Z.land va 4095) = f * 4096 + va mod 4096.
Proof.
  intros Hf. change 4095 with (Z.ones 12). rewrite Z.land_ones by lia. change (2 ^ 12) with 4096.
  rewrite u32_small; [apply lor_page, Z.mod_pos_bound; lia|]. rewrite Z.shiftl_mul_pow2 by lia. lia.
Qed.

Lemma frame_of_phys phys : 0 <= phys < 4294967296 → Z.land (Z.shiftr phys 12) 1048575 = phys / 4096.
Proof.
  intros H. rewrite Z.shiftr_div_pow2 by lia. change 1048575 with (Z.ones 20). rewrite Z.land_ones by lia.
  apply Z.mod_small. split; [apply Z.div_pos; lia|]. apply Z.div_lt_upper_bound; lia.
Qed.

(** * Mapping is translation *)

(** The page table entry of an address, if its table exists. *)
Definition entry (s : paging) (d va : Z) : option page_t :=
  (λ a, page_at (tbl_of s a) (PAGE_PAGE va)) <$> table (dir_of s d) !! PAGE_TABLE va.

Definition translate_entry (e : option page_t) (va : Z) : result Z :=
  match e with
  | Some pg => if pg_present pg =? 0 then Err EFAULT
               else Ok (Z.lor (u32 (Z.shiftl (pg_frame pg) 12)) (Z.land va 4095))
  | None => Err EFAULT
  end.

Lemma get_physical_addr_entry s d va : get_physical_addr s d va = translate_entry (entry s d va) va.
Proof. unfold get_physical_addr, get_page, entry. by destruct (table _ !! _). Qed.

(** The blocks that will be allocated. *)
Definition coming (s : paging) : list Z := omap (λ r, fst <$> kr_block r) (supply s).

(** Slots of a directory point to different tables; a table it shares with the
    kernel directory is in the same slot; tables that will be allocated are
    different and in use in neither; the pages by which the heap will grow are
    addresses. *)
Definition dir_wf (s : paging) (d : Z) : Prop :=
  (∀ t1 t2 a, table (dir_of s d) !! t1 = Some a → table (dir_of s d) !! t2 = Some a → t1 = t2)
  ∧ (∀ t1 t2 a, table (dir_of s d) !! t1 = Some a → table (dir_of s (kerndir s)) !! t2 = Some a → t1 = t2)
  ∧ (∀ a t, a ∈ coming s → table (dir_of s d) !! t ≠ Some a ∧ table (dir_of s (kerndir s)) !! t ≠ Some a)
  ∧ NoDup (coming s) ∧ Forall (λ r, Forall (λ g, 0 <= g < 4294967296) (kr_pages r)) (supply s).

Lemma page_at_insert tb i pg j : page_at (<[i := pg]> tb) j = if decide (i = j) then pg else page_at tb j.
Proof. unfold page_at. case_decide; [subst; by rewrite lookup_insert_eq|by rewrite lookup_insert_ne]. Qed.

Lemma tbl_of_insert s ts a b tb :
  tbl_of (set_tables s (<[a := tb]> ts)) b = if decide (a = b) then tb else default ∅ (ts !! b).
Proof.
  unfold tbl_of, set_tables. cbn [tables].
  case_decide; [subst; by rewrite lookup_insert_eq|by rewrite lookup_insert_ne].
Qed.

Lemma tbl_of_wr s a i pg b :
  tbl_of (wr_page s (a, i) pg) b = if decide (a = b) then <[i := pg]> (tbl_of s a) else tbl_of s b.
Proof. unfold wr_page. cbn [fst snd]. rewrite tbl_of_insert. done. Qed.

Lemma rd_page_wr s a i pg b j :
  rd_page (wr_page s (a, i) pg) (b, j) =
  if decide (a = b ∧ i = j) then pg else rd_page s (b, j).
Proof.
  unfold rd_page. cbn [fst snd]. rewrite tbl_of_wr. destruct (decide (a = b)) as [->|Hne].
  - rewrite page_at_insert. destruct (decide (i = j)) as [->|];
      [by rewrite decide_True|by rewrite decide_False by tauto].
  - by rewrite decide_False by tauto.
Qed.

(** [map_heap] changes nothing but the entries of its pages and the frames. *)
Definition grown (s s' : paging) (l : list Z) : Prop :=
  dirs s' = dirs s ∧ kerndir s' = kerndir s ∧ curdir s' = curdir s ∧ supply s' = supply s
  ∧ (∀ d va, dir_wf s d → 0 <= va < 4294967296 → va / 4096 ∉ (λ g, g / 4096) <$> l → entry s' d va = entry s d va).

Lemma dir_wf_same s s' d : dirs s' = dirs s → kerndir s' = kerndir s → supply s' = supply s → dir_wf s d → dir_wf s' d.
Proof. intros E1 E2 E3. unfold dir_wf, coming, dir_of. by rewrite E1, E2, E3. Qed.

Lemma map_heap_page_entry s va s' d va' :
  dir_wf s d → 0 <= va < 4294967296 → 0 <= va' < 4294967296 → va' / 4096 ≠ va / 4096 → map_heap_page s va = Some s' →
  entry s' d va' = entry s d va' ∧ dirs s' = dirs s ∧ kerndir s' = kerndir s ∧ curdir s' = curdir s ∧ supply s' = supply s.
Proof.
  intros (_ & Hsh & _) Hva Hva' Hne Hmap. unfold map_heap_page, kernel_mapper in Hmap. destruct (table (dir_of s (kerndir s)) !! PAGE_TABLE va) as [a|] eqn:Ea; [|done].
  destruct (alloc_frame _ _ 0 1) as [[f pg]|]; [|done]. injection Hmap as <-. split; [|done].
  unfold entry. change (dir_of (wr_page (set_frames s f) (a, PAGE_PAGE va) pg) d) with (dir_of s d).
  destruct (table (dir_of s d) !! PAGE_TABLE va') as [b|] eqn:Eb; [|done]. cbn [fmap option_fmap option_map].
  change (page_at (tbl_of (wr_page (set_frames s f) (a, PAGE_PAGE va) pg) b) (PAGE_PAGE va'))
    with (rd_page (wr_page (set_frames s f) (a, PAGE_PAGE va) pg) (b, PAGE_PAGE va')).
  rewrite rd_page_wr, decide_False; [done|]. intros [-> E2]. apply Hne. symmetry. apply same_page; [done..|]. split; [|done].
  symmetry. by eapply Hsh.
Qed.

Lemma map_heap_grown l s s' : Forall (λ g, 0 <= g < 4294967296) l → map_heap s l = Ret s' → grown s s' l.
Proof.
  intros Hl. revert s. induction Hl as [|g l Hg _ IH]; intros s Hm; cbn [map_heap] in Hm; [by injection Hm as <-|].
  destruct (map_heap_page s g) as [s1|] eqn:E; [|done]. cbn [or_halt obind] in Hm. destruct (IH s1 Hm) as (D1 & D2 & D3 & D4 & He).
  assert (Hs : dirs s1 = dirs s ∧ kerndir s1 = kerndir s ∧ curdir s1 = curdir s ∧ supply s1 = supply s).
  { unfold map_heap_page, kernel_mapper in E. destruct (table _ !! _); [|done]. destruct (alloc_frame _ _ _ _) as [[f pg]|]; [|done]. by injection E as <-. }
  destruct Hs as (F1 & F2 & F3 & F4). split_and!; try congruence. intros d va Hwf Hva Hn. rewrite fmap_cons in Hn.
  apply not_elem_of_cons in Hn as [Hn1 Hn2]. rewrite He; [|by eapply dir_wf_same|done|done].
  by destruct (map_heap_page_entry s g s1 d va Hwf Hg Hva Hn1 E).
Qed.

(** The pages by which the heap grows if [get_page] has to make a table. *)
Definition grows (s : paging) (d va : Z) : list Z :=
  match table (dir_of s d) !! PAGE_TABLE va with
  | Some _ => []
  | None => match supply s with [] => [] | r :: _ => kr_pages r end
  end.

(** A table in a free slot, from a block that was not in use. *)
Lemma add_table_ok s d t a ph :
  dir_wf s d → table (dir_of s d) !! t = None → a ∉ coming s →
  (∀ t', table (dir_of s d) !! t' ≠ Some a ∧ table (dir_of s (kerndir s)) !! t' ≠ Some a) →
  let s' := set_dir (set_tables s (<[a := ∅]> (tables s))) d (dir_set_table (dir_of s d) t a ph) in
  dir_wf s' d ∧ table (dir_of s' d) !! t = Some a
  ∧ ∀ va, translate_entry (entry s' d va) va = translate_entry (entry s d va) va.
Proof.
  intros (Hinj & Hsh & Hfr & Hnd & Hpg) Ht Ha Hnew s'.
  assert (Hd : table (dir_of s' d) = <[t := a]> (table (dir_of s d))) by (unfold dir_of at 1, s', set_dir; cbn [dirs]; by rewrite lookup_insert_eq).
  assert (Hk : table (dir_of s' (kerndir s)) = if decide (d = kerndir s) then <[t := a]> (table (dir_of s d)) else table (dir_of s (kerndir s))).
  { unfold dir_of at 1, s', set_dir. cbn [dirs set_tables]. case_decide as E; [rewrite <- E, lookup_insert_eq|rewrite lookup_insert_ne by done]; done. }
  assert (Hone : ∀ (m : gmap Z Z) t1 t2 b, (∀ t', m !! t' ≠ Some a) → (∀ u1 u2 c, table (dir_of s d) !! u1 = Some c → m !! u2 = Some c → u1 = u2) →
    <[t := a]> (table (dir_of s d)) !! t1 = Some b → <[t := a]> m !! t2 = Some b → t1 = t2).
  { intros m t1 t2 b Hm Hs H1 H2. apply lookup_insert_Some in H1 as [[<- <-]|[_ H1]]; apply lookup_insert_Some in H2 as [[<- E]|[_ H2]].
    - done.
    - by destruct (Hm t2).
    - subst b. by destruct (Hnew t1).
    - by eapply Hs. }
  split; [|split; [by rewrite Hd, lookup_insert_eq|]].
  - unfold dir_wf. change (kerndir s') with (kerndir s). change (coming s') with (coming s). change (supply s') with (supply s). rewrite Hd, Hk.
    split; [intros t1 t2 b; apply Hone; [apply Hnew|apply Hinj]|].
    split; [|split; [|done]].
    + intros t1 t2 b H1 H2. case_decide as E.
      * eapply (Hone (table (dir_of s d))); [intros t'; apply Hnew|apply Hinj|exact H1|exact H2].
      * apply lookup_insert_Some in H1 as [[<- <-]|[_ H1]]; [by destruct (Hnew t2) as [_ []]|by eapply Hsh].
    + intros b t' Hb. destruct (Hfr b t' Hb) as [N1 N2]. assert (Hab : a ≠ b) by congruence.
      assert (N1' : <[t := a]> (table (dir_of s d)) !! t' ≠ Some b) by (intros [[_ ?]|[_ ?]]%lookup_insert_Some; done).
      split; [done|]. by case_decide.
  - intros va. unfold entry. rewrite Hd. destruct (decide (t = PAGE_TABLE va)) as [<-|Hne].
    + rewrite lookup_insert_eq, Ht. cbn [fmap option_fmap option_map]. unfold tbl_of, s', set_dir. cbn [tables set_tables]. by rewrite lookup_insert_eq.
    + rewrite lookup_insert_ne by done. destruct (table (dir_of s d) !! PAGE_TABLE va) as [b|] eqn:Eb; [|done].
      cbn [fmap option_fmap option_map]. unfold tbl_of, s', set_dir. cbn [tables set_tables]. rewrite lookup_insert_ne; [done|].
      intros ->. by destruct (Hnew (PAGE_TABLE va)).
Qed.

(** [get_page] with creation: the slot exists afterwards, and as translation
    goes nothing has changed but the pages of the heap. *)
Lemma get_page_make s va d s' r :
  dir_wf s d → get_page s va true d = Ret (s', r) →
  ∃ a, r = Some (a, PAGE_PAGE va) ∧ table (dir_of s' d) !! PAGE_TABLE va = Some a ∧ dir_wf s' d
    ∧ (∀ va', 0 <= va' < 4294967296 → va' / 4096 ∉ (λ g, g / 4096) <$> grows s d va →
         translate_entry (entry s' d va') va' = translate_entry (entry s d va') va').
Proof.
  intros Hwf Hget. unfold get_page in Hget. unfold grows. destruct (table (dir_of s d) !! PAGE_TABLE va) as [a|] eqn:Ht.
  { injection Hget as <- <-. by exists a. }
  apply obind_ret in Hget as ([s1 r1] & Hnew & Hget). unfold new_table, kmalloc_ap in Hnew.
  pose proof Hwf as (Hinj & Hsh & Hfr & Hnd & Hpg). unfold coming in Hfr, Hnd. destruct (supply s) as [|[blk pages] rest] eqn:Es.
  { cbn [obind] in Hnew. injection Hnew as <- <-. done. }
  set (s0 := mk_paging (tables s) (dirs s) (kerndir s) (curdir s) rest (frames s) (ram s)) in *.
  apply Forall_cons in Hpg as [Hp Hrest]. cbn [kr_pages kr_block] in *.
  destruct (map_heap s0 pages) as [s2| |] eqn:Em; [|done..]. cbn [obind] in Hnew. injection Hnew as <- <-.
  destruct blk as [[a ph]|]; [|done]. cbn [or_halt obind] in Hget. injection Hget as <- <-. cbn [omap list_omap fmap option_fmap option_map fst] in Hfr, Hnd.
  apply NoDup_cons in Hnd as [Hna Hnd].
  assert (Hwf0 : dir_wf s0 d).
  { split; [done|]. split; [done|]. split; [|done]. intros b t Hb. apply Hfr. by right. }
  destruct (map_heap_grown _ _ _ Hp Em) as (D1 & D2 & D3 & D4 & He).
  assert (Hwf2 : dir_wf s2 d) by (by eapply dir_wf_same).
  assert (Hd2 : ∀ x, dir_of s2 x = dir_of s x) by (intros x; unfold dir_of; by rewrite D1).
  destruct (add_table_ok s2 d (PAGE_TABLE va) a (Z.lor ph 7) Hwf2) as (H1 & H2 & H3).
  - by rewrite Hd2.
  - unfold coming. by rewrite D4.
  - intros t'. rewrite D2, !Hd2. apply Hfr. by left.
  - exists a. split; [done|]. split; [exact H2|]. split; [exact H1|]. intros va' Hva' Hn. rewrite H3, He by done. done.
Qed.

(** Writing one entry of a directory. *)
Lemma entry_wr s d va a pg va' :
  dir_wf s d → table (dir_of s d) !! PAGE_TABLE va = Some a →
  0 <= va < 4294967296 → 0 <= va' < 4294967296 →
  entry (wr_page s (a, PAGE_PAGE va) pg) d va' = if decide (va / 4096 = va' / 4096) then Some pg else entry s d va'.
Proof.
  intros (Hinj & _) Ht Hva Hva'. unfold entry.
  change (dir_of (wr_page s (a, PAGE_PAGE va) pg) d) with (dir_of s d).
  destruct (table (dir_of s d) !! PAGE_TABLE va') as [b|] eqn:Hb.
  - cbn [fmap option_fmap option_map].
    change (page_at (tbl_of (wr_page s (a, PAGE_PAGE va) pg) b) (PAGE_PAGE va'))
      with (rd_page (wr_page s (a, PAGE_PAGE va) pg) (b, PAGE_PAGE va')).
    rewrite rd_page_wr. destruct (decide (va / 4096 = va' / 4096)) as [He|Hne].
    + apply same_page in He as [E1 E2]; [|done..]. rewrite decide_True; [done|]. split; [congruence|done].
    + rewrite decide_False; [done|]. intros [-> E2]. apply Hne. apply same_page; [done..|].
      split; [by eapply Hinj|done].
  - rewrite decide_False; [done|]. intros He. apply same_page in He as [E1 _]; [|done..]. congruence.
Qed.

Lemma map_page_spec s d va phys user rw s' :
  dir_wf s d → 0 <= va < 4294967296 → 0 <= phys < 4294967296 → map_page s d va phys user rw = Ret s' →
  ∀ va', 0 <= va' < 4294967296 → va / 4096 = va' / 4096 ∨ va' / 4096 ∉ (λ g, g / 4096) <$> grows s d va →
  get_physical_addr s' d va' =
    if decide (va / 4096 = va' / 4096) then Ok (phys / 4096 * 4096 + va' mod 4096)
    else get_physical_addr s d va'.
Proof.
  intros Hwf Hva Hph Hmap va' Hva' Hn. unfold map_page in Hmap.
  apply obind_ret in Hmap as ([s1 r] & Hget & Hmap).
  destruct (get_page_make _ _ _ _ _ Hwf Hget) as (a & -> & Ht & Hwf1 & Hsame).
  injection Hmap as <-. rewrite !get_physical_addr_entry.
  rewrite entry_wr by done. case_decide as E; [|destruct Hn as [?|Hn]; [done|by apply Hsame]]. cbn [translate_entry pg_present pg_frame Z.eqb].
  rewrite frame_of_phys by done. rewrite phys_of_frame; [done|].
  split; [apply Z.div_pos; lia|apply Z.div_lt_upper_bound; lia].
Qed.

(** C20: mapping a page makes that page translate to the physical page: after
    [map_page] every address of the virtual page translates to the same offset
    in the physical page, and every other address of the directory as before.
    If the page table had to be created and the kernel heap grew for it, the
    pages by which the heap grew ([grows]) are excepted: growing maps them in
    the tables that the directory shares with the kernel.  The directory is in
    order ([dir_wf]): its slots point to different tables, a table it shares
    with the kernel directory is in the same slot, and blocks the allocator
    returns are not in use. *)
Theorem map_page_translates s d va phys user rw s' :
  dir_wf s d → 0 <= va < 4294967296 → 0 <= phys < 4294967296 → map_page s d va phys user rw = Ret s' →
  ∀ va', 0 <= va' < 4294967296 → va / 4096 = va' / 4096 ∨ va' / 4096 ∉ (λ g, g / 4096) <$> grows s d va →
  get_physical_addr s' d va' =
    if decide (va / 4096 = va' / 4096) then Ok (phys / 4096 * 4096 + va' mod 4096)
    else get_physical_addr s d va'.
Proof. apply map_page_spec. Qed.

(** mapping and unmapping a page takes it out again: every address of the
    page then fails with [-EFAULT] and all others, but for pages by which the
    heap grew, translate as before the mapping. *)
Theorem map_unmap_page s d va phys user rw s1 :
  dir_wf s d → 0 <= va < 4294967296 → 0 <= phys < 4294967296 → map_page s d va phys user rw = Ret s1 →
  ∃ s2, unmap_page s1 d va = Ret s2 ∧ ∀ va', 0 <= va' < 4294967296 →
    va / 4096 = va' / 4096 ∨ va' / 4096 ∉ (λ g, g / 4096) <$> grows s d va →
    get_physical_addr s2 d va' = if decide (va / 4096 = va' / 4096) then Err EFAULT else get_physical_addr s d va'.
Proof.
  intros Hwf Hva Hph Hmap. pose proof (map_page_spec _ _ _ _ _ _ _ Hwf Hva Hph Hmap) as Hspec.
  unfold map_page in Hmap. apply obind_ret in Hmap as ([s0 r] & Hget & Hmap).
  destruct (get_page_make _ _ _ _ _ Hwf Hget) as (a & -> & Ht & Hwf1 & _).
  injection Hmap as Hs1. unfold unmap_page, get_page.
  assert (Ht1 : table (dir_of s1 d) !! PAGE_TABLE va = Some a) by (by rewrite <- Hs1).
  rewrite Ht1. cbn [obind]. eexists. split; [reflexivity|]. intros va' Hva' Hn.
  specialize (Hspec va' Hva' Hn). rewrite get_physical_addr_entry in Hspec |- *.
  rewrite entry_wr; [|by rewrite <- Hs1|done..]. case_decide; [done|]. done.
Qed.

(** * Copying a table *)

(** One entry after [copy_page_table] against the source entry: absent pages
    stay absent, present ones get a frame of their own, unused before, with
    the same rights and the same contents. *)
Definition copied (s0 s' : paging) (sp dp : page_t) : Prop :=
  if pg_present sp =? 0 then dp = page_zero
  else pg_present dp = 1 ∧ pg_user dp = flag (pg_user sp) ∧ pg_rw dp = flag (pg_rw sp)
    ∧ frame_used (frames s0) (pg_frame dp) = false ∧ frame_used (frames s') (pg_frame dp) = true
    ∧ 0 < pg_frame dp
    ∧ default 0 (ram s' !! pg_frame dp) = default 0 (ram s0 !! pg_frame sp).

Definition src_used (s : paging) (sa : Z) (ps : list Z) : Prop :=
  ∀ p, p ∈ ps → pg_present (rd_page s (sa, p)) ≠ 0 →
    0 <= pg_frame (rd_page s (sa, p)) ∧ frame_used (frames s) (pg_frame (rd_page s (sa, p))) = true.

(** What the copying loop leaves alone. *)
Definition copy_frame (s s' : paging) (da : Z) (ps : list Z) : Prop :=
  pmm_ok (frames s') ∧ (∀ k, 0 <= k → frame_used (frames s) k = true → frame_used (frames s') k = true)
  ∧ (∀ b j, b ≠ da ∨ j ∉ ps → rd_page s' (b, j) = rd_page s (b, j))
  ∧ (∀ k, 0 <= k → frame_used (frames s) k = true → ram s' !! k = ram s !! k)
  ∧ dirs s' = dirs s ∧ kerndir s' = kerndir s ∧ curdir s' = curdir s.

Definition copy_result (s s' : paging) (da sa : Z) (ps : list Z) : Prop :=
  (∀ p, p ∈ ps → copied s s' (rd_page s (sa, p)) (rd_page s' (da, p)))
  ∧ (∀ p q, p ∈ ps → q ∈ ps → p ≠ q → pg_present (rd_page s (sa, p)) ≠ 0 →
       pg_present (rd_page s (sa, q)) ≠ 0 → pg_frame (rd_page s' (da, p)) ≠ pg_frame (rd_page s' (da, q))).

(** The state after one page has been given a frame and copied. *)
Lemma copy_one s da sa p f dst :
  da ≠ sa → pmm_ok (frames s) →
  let src := rd_page s (sa, p) in
  pg_present src ≠ 0 → 0 <= pg_frame src → frame_used (frames s) (pg_frame src) = true →
  alloc_frame (frames s) page_zero (pg_user src) (pg_rw src) = Some (f, dst) →
  let s1 := copy_physical_frame (wr_page (set_frames (wr_page s (da, p) page_zero) f) (da, p) dst)
              (pg_frame dst) (pg_frame src) in
  copy_frame s s1 da [p] ∧ rd_page s1 (da, p) = dst ∧ copied s s1 src dst.
Proof.
  intros Hne Hok src Hp Hf0 Hfu Hal s1.
  destruct (alloc_frame_spec _ _ _ _ _ _ Hok Hal) as (Hok' & _ & Hr & Hfree & _ & Hused & _ & Hpres & Hu & Hrw).
  assert (Hneq : pg_frame dst ≠ pg_frame src) by congruence.
  assert (Hrd : ∀ b j, rd_page s1 (b, j) = if decide (da = b ∧ p = j) then dst else rd_page s (b, j)).
  { intros b j. change (rd_page s1 (b, j)) with
      (rd_page (wr_page (set_frames (wr_page s (da, p) page_zero) f) (da, p) dst) (b, j)).
    rewrite rd_page_wr. case_decide; [done|].
    change (rd_page (set_frames _ f) (b, j)) with (rd_page (wr_page s (da, p) page_zero) (b, j)).
    rewrite rd_page_wr, decide_False by done. done. }
  split; [|split; [rewrite Hrd, decide_True by done; done|]].
  - split; [done|]. split; [intros k Hk Hku; change (frames s1) with f; rewrite Hused, Hku by done; done|].
    split; [intros b j Hbj; rewrite Hrd, decide_False; [done|]; intros [<- <-]; destruct Hbj as [?|Hn]; [done|];
            by destruct Hn; left|].
    split; [|done]. intros k Hk Hku. change (ram s1) with (<[pg_frame dst := default 0 (ram s !! pg_frame src)]> (ram s)).
    apply lookup_insert_ne. congruence.
  - unfold copied. rewrite (proj2 (Z.eqb_neq _ _) Hp). change (frames s1) with f.
    rewrite Hused, Z.eqb_refl, orb_true_r by lia. repeat (split; [done || lia|]).
    change (ram s1) with (<[pg_frame dst := default 0 (ram s !! pg_frame src)]> (ram s)).
    by rewrite lookup_insert_eq.
Qed.

Lemma copied_later s s1 s2 sp dp :
  copied s s1 sp dp → (∀ k, 0 <= k → frame_used (frames s1) k = true → frame_used (frames s2) k = true) →
  (∀ k, 0 <= k → frame_used (frames s1) k = true → ram s2 !! k = ram s1 !! k) → copied s s2 sp dp.
Proof.
  unfold copied. intros Hc Hm Hr. case_if; [done|].
  destruct Hc as (H1 & H2 & H3 & H4 & H5 & H6 & H7).
  repeat (split; [done|]). split; [apply Hm; [lia|done]|]. split; [done|]. by rewrite Hr by (lia || done).
Qed.

Lemma copied_earlier s s1 s2 da ps sp dp :
  copy_frame s s1 da ps → (pg_present sp ≠ 0 → 0 <= pg_frame sp ∧ frame_used (frames s) (pg_frame sp) = true) →
  copied s1 s2 sp dp → copied s s2 sp dp.
Proof.
  unfold copied. intros (_ & Hm & _ & Hr & _) Hsp Hc. case_if; [done|].
  destruct Hc as (H1 & H2 & H3 & H4 & H5 & H6 & H7). destruct Hsp as [Hs0 Hsu]; [done|].
  repeat (split; [done|]). split; [|split; [done|split; [done|]]].
  - destruct (frame_used (frames s) (pg_frame dp)) eqn:E; [|done]. rewrite Hm in H4 by (lia || done). done.
  - by rewrite H7, Hr.
Qed.

Lemma copy_frame_trans s s1 s2 da p ps :
  copy_frame s s1 da [p] → copy_frame s1 s2 da ps → copy_frame s s2 da (p :: ps).
Proof.
  intros (_ & Hm & Ht & Hr & D1 & D2 & D3) (Hok & Hm' & Ht' & Hr' & D1' & D2' & D3').
  split; [done|]. split; [auto|]. split; [|split; [|repeat split; congruence]].
  - intros b j Hbj. rewrite Ht', Ht; [done|destruct Hbj; [by left|right; set_solver]|destruct Hbj; [by left|right; set_solver]].
  - intros k Hk Hu. rewrite Hr' by auto. by apply Hr.
Qed.

Lemma copy_pages_spec ps s da sa s' :
  da ≠ sa → NoDup ps → pmm_ok (frames s) → src_used s sa ps → copy_pages s da sa ps = Ret s' →
  copy_frame s s' da ps ∧ copy_result s s' da sa ps.
Proof.
  revert s. induction ps as [|p ps IH]; intros s Hne Hnd Hok Hsrc Hcp.
  - injection Hcp as <-. split; [do 3 (split; [done|]); done|]. split; intros p; set_solver.
  - apply NoDup_cons in Hnd as [Hnp Hnd]. cbn [copy_pages] in Hcp.
    assert (Hs0 : ∀ j, rd_page (wr_page s (da, p) page_zero) (sa, j) = rd_page s (sa, j)).
    { intros j. rewrite rd_page_wr, decide_False by (intros [? _]; done). done. }
    rewrite Hs0 in Hcp. set (src := rd_page s (sa, p)) in *.
    assert (Hstep : ∃ s1, copy_frame s s1 da [p] ∧ copied s s1 src (rd_page s1 (da, p))
                          ∧ copy_pages s1 da sa ps = Ret s').
    { destruct (Z.eqb_spec (pg_present src) 0) as [Hz|Hnz].
      - exists (wr_page s (da, p) page_zero). split; [|split; [|done]].
        + split; [done|]. split; [done|]. split; [|done]. intros b j Hbj.
          rewrite rd_page_wr, decide_False; [done|]. intros [<- <-]. destruct Hbj as [?|Hn]; [done|]. by destruct Hn; left.
        + unfold copied. rewrite Hz. cbn [Z.eqb]. rewrite rd_page_wr, decide_True by done. done.
      - apply obind_ret in Hcp as ([f dst] & Hal & Hcp).
        rewrite rd_page_wr, decide_True in Hal by done.
        destruct (alloc_frame (frames (wr_page s (da, p) page_zero)) page_zero (pg_user src) (pg_rw src))
          as [[f' dst']|] eqn:Ha; [|done]. injection Hal as <- <-.
        destruct (Hsrc p ltac:(left) Hnz) as [Hf0 Hfu].
        destruct (copy_one s da sa p f' dst' Hne Hok Hnz Hf0 Hfu Ha) as (H1 & H2 & H3).
        eexists. split; [exact H1|]. rewrite H2. split; [exact H3|exact Hcp]. }
    destruct Hstep as (s1 & Hf1 & Hc1 & Hcp1). pose proof Hf1 as (Hok1 & Hm1 & Ht1 & Hr1 & _).
    assert (Hsa : ∀ j, rd_page s1 (sa, j) = rd_page s (sa, j)) by (intros j; apply Ht1; left; congruence).
    destruct (IH s1 Hne Hnd Hok1) as [Hf2 [Hc2 Hd2]]; [|done|].
    { intros q Hq. rewrite Hsa. intros Hqp. destruct (Hsrc q ltac:(by right) Hqp). auto. }
    pose proof Hf2 as (_ & Hm2 & Ht2 & Hr2 & _).
    assert (Hdp : rd_page s' (da, p) = rd_page s1 (da, p)) by (apply Ht2; by right).
    assert (Hall : ∀ q, q ∈ ps → copied s s' (rd_page s (sa, q)) (rd_page s' (da, q))).
    { intros q Hq. rewrite <- Hsa. eapply copied_earlier; [exact Hf1| |by apply Hc2].
      rewrite Hsa. apply Hsrc. by right. }
    split; [by eapply copy_frame_trans|]. split.
    + intros q [->|Hq]%elem_of_cons; [|by apply Hall]. rewrite Hdp. by eapply copied_later.
    + assert (Hhd : ∀ q, q ∈ ps → pg_present src ≠ 0 → pg_present (rd_page s (sa, q)) ≠ 0 →
                pg_frame (rd_page s' (da, p)) ≠ pg_frame (rd_page s' (da, q))).
      { intros q Hq Hps Hqs Heq. specialize (Hc2 q Hq). rewrite Hsa in Hc2. unfold copied in Hc1, Hc2.
        rewrite (proj2 (Z.eqb_neq _ _) Hps) in Hc1. rewrite (proj2 (Z.eqb_neq _ _) Hqs) in Hc2.
        destruct Hc1 as (_ & _ & _ & _ & Hu & _), Hc2 as (_ & _ & _ & Hu' & _).
        rewrite <- Heq, Hdp in Hu'. congruence. }
      intros q1 q2 [->|Hq1]%elem_of_cons; intros Hq2%elem_of_cons; destruct Hq2 as [->|Hq2]; intros Hneq Hp1 Hp2.
      * done.
      * by apply Hhd.
      * intros E. by apply (Hhd q1 Hq1 Hp2 Hp1).
      * apply Hd2; rewrite ?Hsa; done.
Qed.

(** copying a page table (what [fork] does for every user table) gives the
    new address space frames of its own: every page present in the source is
    present in the copy with the same rights, in a frame that was free before
    and is different from every other copied page's, and holds the same bytes;
    absent pages stay absent; no page of any other table, no frame in use and
    not the source table changes. *)
Theorem copy_page_table_isolates s dst src t sa da s' r :
  table (dir_of s src) !! t = Some sa → table (dir_of s dst) !! t = Some da → da ≠ sa →
  pmm_ok (frames s) → src_used s sa (seqZ 0 1024) →
  copy_page_table s dst src t = Ret (s', r) →
  r = 0 ∧ copy_result s s' da sa (seqZ 0 1024)
  ∧ (∀ b j, b ≠ da → rd_page s' (b, j) = rd_page s (b, j))
  ∧ (∀ k, 0 <= k → frame_used (frames s) k = true →
       frame_used (frames s') k = true ∧ ram s' !! k = ram s !! k).
Proof.
  intros Hs Hd Hne Hok Hsrc Hcp. unfold copy_page_table in Hcp. rewrite Hs, Hd in Hcp.
  apply obind_ret in Hcp as (s1 & Hcp & [= <- <-]).
  destruct (copy_pages_spec _ _ _ _ _ Hne (NoDup_seqZ 0 1024) Hok Hsrc Hcp) as [(_ & Hm & Ht & Hr & _) Hres].
  split; [done|]. split; [done|]. split; [intros b j Hb; apply Ht; by left|]. intros k Hk Hu. auto.
Qed.

(** * What [strip_page_dir] keeps *)

(** the stack test of [strip_page_dir] spans from the size of the stack
    area to its top: no page of the user address space from 0x3000 up to the
    stack top is ever freed when a program is replaced. *)
Theorem strip_keeps_user_pages va : 12288 <= va < TASK_STACK_START → strip_kept va = true.
Proof.
  intros H. unfold strip_kept, TASK_STACK_START, TASK_STACK_INIT_BASE, TASK_KSTACK_ADDR, TASK_KSTACK_SIZE in *.
  change (u32 (3221221376 - 3221209088)) with 12288. lia.
Qed.

Lemma strip_keeps_user_pages_witness : strip_kept 134512640 = true.
Proof. apply strip_keeps_user_pages. unfold TASK_STACK_START. lia. Defined.

(** * Runs *)

(** The heap is in slot 960, whose table directory 1 shares with the kernel
    directory 9; the first allocation makes it grow by a page. *)
Definition demo_paging : paging :=
  mk_paging {[ 500 := {[ 3 := mk_page 1 1 1 0 0 0 5 ]}; 600 := ∅; 800 := ∅ ]}
    {[ 1 := mk_dir ∅ {[ 0 := 500; 960 := 800 ]} 0 0; 2 := mk_dir ∅ {[ 0 := 600 ]} 0 0; 9 := mk_dir ∅ {[ 960 := 800 ]} 0 0 ]} 9 1
    [mk_result (Some (700, 4096)) [4026531840]] (mk_pmm [63; 0] 64) {[ 5 := 1234 ]}.

Lemma demo_wf : dir_wf demo_paging 1.
Proof.
  assert (Ht : table (dir_of demo_paging 1) = {[ 0 := 500; 960 := 800 ]}) by reflexivity.
  assert (Hk : table (dir_of demo_paging (kerndir demo_paging)) = {[ 960 := 800 ]}) by reflexivity.
  assert (L : ∀ t a, ({[ 0 := 500; 960 := 800 ]} : gmap Z Z) !! t = Some a → t = 0 ∧ a = 500 ∨ t = 960 ∧ a = 800).
  { intros t a [[<- <-]|[_ [<- <-]%lookup_singleton_Some]]%lookup_insert_Some; auto. }
  unfold dir_wf. rewrite Ht, Hk. split_and!.
  - intros t1 t2 a H1%L H2%L. lia.
  - intros t1 t2 a H1%L [<- <-]%lookup_singleton_Some. lia.
  - intros a t Ha%list_elem_of_singleton. simpl in Ha. split; [intros H%L; lia|intros [_ E]%lookup_singleton_Some; lia].
  - apply NoDup_singleton.
  - repeat constructor; cbn; lia.
Qed.

Definition demo_mapped : paging :=
  match map_page demo_paging 1 4198400 8192 1 1 with Ret s => s | _ => demo_paging end.

Lemma demo_map : map_page demo_paging 1 4198400 8192 1 1 = Ret demo_mapped.
Proof. vm_compute. reflexivity. Qed.

(** Address 4198405 is in the page that is mapped, 12290 was mapped before. *)
Lemma map_page_translates_witness :
  grows demo_paging 1 4198400 = [4026531840] ∧ get_physical_addr demo_mapped 1 4198405 = Ok 8197
  ∧ get_physical_addr demo_mapped 1 12290 = Ok 20482.
Proof.
  split; [reflexivity|]. split.
  - exact (map_page_translates demo_paging 1 4198400 8192 1 1 demo_mapped demo_wf ltac:(lia) ltac:(lia)
      demo_map 4198405 ltac:(lia) (or_introl eq_refl)).
  - rewrite (map_page_translates demo_paging 1 4198400 8192 1 1 demo_mapped demo_wf ltac:(lia) ltac:(lia) demo_map 12290 ltac:(lia));
      [reflexivity|]. right. cbn. set_solver by lia.
Defined.

(** The heap has grown: its new page is mapped in directory 1 as well. *)
Theorem map_page_grows_heap :
  get_physical_addr demo_paging 1 4026531840 = Err EFAULT ∧ ∃ f, get_physical_addr demo_mapped 1 4026531840 = Ok (f * 4096).
Proof. split; [reflexivity|]. exists 6. vm_compute. reflexivity. Qed.

Lemma map_unmap_page_witness :
  ∃ s2, unmap_page demo_mapped 1 4198400 = Ret s2 ∧ get_physical_addr s2 1 4198405 = Err EFAULT.
Proof.
  destruct (map_unmap_page demo_paging 1 4198400 8192 1 1 demo_mapped demo_wf ltac:(lia) ltac:(lia) demo_map)
    as (s2 & H1 & H2).
  exists s2. split; [exact H1|]. exact (H2 4198405 ltac:(lia) (or_introl eq_refl)).
Defined.

Definition demo_copied : paging * Z :=
  match copy_page_table demo_paging 2 1 0 with Ret r => r | _ => (demo_paging, -1) end.

Lemma copy_page_table_isolates_witness :
  demo_copied.2 = 0 ∧ copied demo_paging demo_copied.1 (rd_page demo_paging (500, 3)) (rd_page demo_copied.1 (600, 3)).
Proof.
  destruct (copy_page_table_isolates demo_paging 2 1 0 500 600 demo_copied.1 demo_copied.2)
    as (H1 & [H2 _] & _).
  - reflexivity.
  - reflexivity.
  - lia.
  - split; [vm_compute; split; congruence|]. split; [reflexivity|]. repeat constructor; lia.
  - intros p Hp Hpr. destruct (decide (p = 3)) as [->|Hne].
    + vm_compute. split; [congruence|reflexivity].
    + exfalso. apply Hpr. unfold rd_page, page_at. cbn [fst snd].
      change (tbl_of demo_paging 500) with ({[ 3 := mk_page 1 1 1 0 0 0 5 ]} : ptable).
      by rewrite lookup_singleton_ne.
  - vm_compute. reflexivity.
  - split; [exact H1|]. apply H2. apply elem_of_seqZ. lia.
Defined.
