(* ===== verification/Timer.v ===== *)
(** Timer callbacks: [src/kernel/src/timer.c].

    The 128 callback slots form a doubly linked queue through their [next]
    and [prev] fields, kept here as slot numbers ([None] is [NULL]).  The
    queue is meant to be ordered by expiry.  The callbacks themselves, the
    real-time clock and the scheduler hook are parameters: they act on a world
    [W] and do not touch the queue. *)

From S2P Require Import Prelude.

Definition TIMER_MAX_CALLBACKS : nat := 128.
Definition TIMER_CANCEL : Z := 4294967295.

Record callback_info := mk_cb {
  cb_fn : Z;
  cb_context : Z;
  cb_when : Z;
  cb_next : option nat;
  cb_prev : option nat;
}.

#[global] Instance callback_info_eq_dec : EqDecision callback_info.
Proof. solve_decision. Defined.

Definition no_cb : callback_info := mk_cb 0 0 0 None None.
Definition cb_get (cbs : list callback_info) (i : nat) : callback_info := default no_cb (cbs !! i).

Definition set_when (w : Z) (c : callback_info) : callback_info :=
  mk_cb (cb_fn c) (cb_context c) w (cb_next c) (cb_prev c).
Definition set_nx (n : option nat) (c : callback_info) : callback_info :=
  mk_cb (cb_fn c) (cb_context c) (cb_when c) n (cb_prev c).
Definition set_pv (p : option nat) (c : callback_info) : callback_info :=
  mk_cb (cb_fn c) (cb_context c) (cb_when c) (cb_next c) p.

(** The body of both insertion loops: slot [nr] against the queued [i]. *)
Definition link_step (cbs : list callback_info) (nr i : nat) : list callback_info :=
  if cb_when (cb_get cbs nr) <? cb_when (cb_get cbs i) then
    let cbs := match cb_prev (cb_get cbs i) with
               | Some p => alter (set_nx (Some nr)) p cbs
               | None => cbs
               end in
    let cbs := alter (set_pv (cb_prev (cb_get cbs i))) nr cbs in
    let cbs := alter (set_pv (Some nr)) i cbs in
    alter (set_nx (Some i)) nr cbs
  else match cb_next (cb_get cbs i) with
       | None => alter (set_pv (Some i)) nr (alter (set_nx (Some nr)) i cbs)
       | Some _ => cbs
       end.

(** The loop of [timer_callback]. *)
Fixpoint insert_loop (fuel : nat) (cbs : list callback_info) (nr : nat) (iter : option nat) :
    outcome (list callback_info) :=
  match iter with
  | None => Ret cbs
  | Some i =>
      match fuel with
      | O => OutOfFuel
      | S fuel => let cbs := link_step cbs nr i in
                  insert_loop fuel cbs nr (cb_next (cb_get cbs i))
      end
  end.

(** The loop of [timer_interrupt]: [iter] is never advanced. *)
Fixpoint reinsert_loop (fuel : nat) (cbs : list callback_info) (nr : nat) (iter : option nat) :
    outcome (list callback_info) :=
  match iter with
  | None => Ret cbs
  | Some i =>
      match fuel with
      | O => OutOfFuel
      | S fuel => reinsert_loop fuel (link_step cbs nr i) nr (Some i)
      end
  end.

(** If something was linked before the head, it is the new head. *)
Definition fix_head (cbs : list callback_info) (h : nat) : option nat :=
  match cb_prev (cb_get cbs h) with Some p => Some p | None => Some h end.

Section Timer.
Context {W : Type}.
(** Calling a callback at a tick; the clock; the scheduler. *)
Context (call : Z → Z → Z → W → W * Z) (rtc_read : W → Z) (task_preempt : W → W).

Record timer := mk_timer {
  timer_freq : Z;
  current_tick : Z;
  current_time : Z;
  last_sync : Z;
  callbacks : list callback_info;
  next_callback : option nat;
  world : W;
}.

Definition with_queue (t : timer) (cbs : list callback_info) (h : option nat) : timer :=
  mk_timer (timer_freq t) (current_tick t) (current_time t) (last_sync t) cbs h (world t).
Definition with_clock (t : timer) (tick time : Z) : timer :=
  mk_timer (timer_freq t) tick time (last_sync t) (callbacks t) (next_callback t) (world t).
Definition with_world (t : timer) (w : W) : timer :=
  mk_timer (timer_freq t) (current_tick t) (current_time t) (last_sync t) (callbacks t)
    (next_callback t) w.

Definition timer_get_freq (t : timer) : Z := timer_freq t.
Definition timer_get_ticks (t : timer) : Z := current_tick t.
Definition timer_get_time (t : timer) : Z := current_time t.
Definition timer_sync_time (t : timer) : timer := with_clock t (current_tick t) (rtc_read (world t)).

(** The state and the divisor programmed into the interval timer. *)
Definition init_timer (w : W) (cbs : list callback_info) (freq : Z) : timer * Z * Z :=
  let cbs := map (set_when TIMER_CANCEL) cbs in
  let divisor := u32 (1193180 / freq) in
  let low := u8 (Z.land divisor 255) in
  let high := u8 (Z.land (Z.shiftr divisor 8) 255) in
  (timer_sync_time (mk_timer freq 0 0 0 cbs None w), low, high).

(** The first slot not in use. *)
Fixpoint free_slot (cbs : list callback_info) (i : nat) : option nat :=
  match cbs with
  | [] => None
  | c :: cbs => if cb_when c =? TIMER_CANCEL then Some i else free_slot cbs (S i)
  end.

(** Returns -1 when no slot is free. *)
Definition timer_callback (fuel : nat) (t : timer) (when context callback : Z) : outcome (timer * Z) :=
  match free_slot (callbacks t) 0 with
  | None => Ret (t, -1)
  | Some nr =>
      let cbs := <[nr := mk_cb callback context when None None]> (callbacks t) in
      match next_callback t with
      | Some h =>
          cbs <~ insert_loop fuel cbs nr (Some h) ;;
          Ret (with_queue t cbs (fix_head cbs h), 0)
      | None => Ret (with_queue t cbs (Some nr), 0)
      end
  end.

(** One expired callback: call it, unlink it, link it again unless cancelled. *)
Definition fire (fuel : nat) (t : timer) (i : nat) : outcome timer :=
  let c := cb_get (callbacks t) i in
  let '(w, when) := call (cb_fn c) (current_tick t) (cb_context c) (world t) in
  let cbs := alter (set_when when) i (callbacks t) in
  let h := cb_next (cb_get cbs i) in
  let cbs := match h with Some n => alter (set_pv None) n cbs | None => cbs end in
  let cbs := alter (set_pv None) i (alter (set_nx None) i cbs) in
  let t := with_world t w in
  if when =? TIMER_CANCEL then Ret (with_queue t cbs h)
  else match h with
       | Some n =>
           cbs <~ reinsert_loop fuel cbs i (Some n) ;;
           Ret (with_queue t cbs (fix_head cbs n))
       | None => Ret (with_queue t cbs (Some i))
       end.

Fixpoint fire_loop (fuel : nat) (t : timer) : outcome timer :=
  match next_callback t with
  | None => Ret t
  | Some i =>
      if cb_when (cb_get (callbacks t) i) <=? current_tick t then
        match fuel with
        | O => OutOfFuel
        | S fuel => t <~ fire fuel t i ;; fire_loop fuel t
        end
      else Ret t
  end.

Definition timer_interrupt (fuel : nat) (t : timer) : outcome timer :=
  let t := with_clock t (u32 (current_tick t + 1)) (current_time t) in
  let t := if current_tick t mod timer_freq t =? 0 then
             let t := with_clock t (current_tick t) (current_time t + 1) in
             if 60 <? u32 (current_time t - last_sync t) then timer_sync_time t else t
           else t in
  t <~ fire_loop fuel t ;;
  Ret (with_world t (task_preempt (world t))).

(** * The queue *)

(** Slots [q] are linked forward from [h]. *)
Fixpoint queued (cbs : list callback_info) (h : option nat) (q : list nat) : Prop :=
  match q with
  | [] => h = None
  | i :: q => h = Some i ∧ (i < length cbs)%nat ∧ queued cbs (cb_next (cb_get cbs i)) q
  end.

Lemma cb_get_alter f i j cbs :
  cb_get (alter f i cbs) j = if decide (i = j ∧ (j < length cbs)%nat) then f (cb_get cbs j) else cb_get cbs j.
Proof.
  unfold cb_get. destruct (decide (i = j)) as [->|Hne].
  - rewrite list_lookup_alter_eq. destruct (cbs !! j) as [c|] eqn:E; simpl.
    + apply lookup_lt_Some in E. rewrite decide_True by done. done.
    + apply lookup_ge_None in E. rewrite decide_False by lia. done.
  - rewrite list_lookup_alter_ne by done. rewrite decide_False by tauto. done.
Qed.

Lemma queued_same cbs cbs' h q :
  length cbs' = length cbs → (∀ i, i ∈ q → cb_next (cb_get cbs' i) = cb_next (cb_get cbs i)) →
  queued cbs h q → queued cbs' h q.
Proof.
  intros Hl. revert h. induction q as [|i q IH]; intros h Hn; simpl; [done|].
  intros (-> & Hi & Hq). split; [done|]. split; [lia|].
  rewrite Hn by set_solver. apply IH; [|done]. intros j Hj. apply Hn. set_solver.
Qed.

(** Firing a callback that cancels itself removes the head of the queue. *)
Lemma fire_cancel fuel t i q w :
  queued (callbacks t) (next_callback t) (i :: q) → i ∉ q →
  call (cb_fn (cb_get (callbacks t) i)) (current_tick t) (cb_context (cb_get (callbacks t) i)) (world t)
    = (w, TIMER_CANCEL) →
  ∃ t', fire fuel t i = Ret t' ∧ queued (callbacks t') (next_callback t') q
    ∧ world t' = w ∧ current_tick t' = current_tick t ∧ length (callbacks t') = length (callbacks t)
    ∧ (∀ j, j ≠ i → cb_when (cb_get (callbacks t') j) = cb_when (cb_get (callbacks t) j)
          ∧ cb_fn (cb_get (callbacks t') j) = cb_fn (cb_get (callbacks t) j)
          ∧ cb_context (cb_get (callbacks t') j) = cb_context (cb_get (callbacks t) j)).
Proof.
  intros (Hh & Hi & Hq) Hni Hcall. unfold fire. rewrite Hcall, Z.eqb_refl.
  eexists. split; [reflexivity|]. simpl.
  rewrite (cb_get_alter _ i i), decide_True by done. simpl.
  set (h := cb_next (cb_get (callbacks t) i)) in *.
  assert (Hlen : ∀ n, length (match h with Some n => alter (set_pv None) n (alter (set_when TIMER_CANCEL) i (callbacks t))
     | None => alter (set_when TIMER_CANCEL) i (callbacks t) end) = n → n = length (callbacks t)).
  { intros n <-. destruct h; by rewrite !length_alter. }
  specialize (Hlen _ eq_refl).
  split; [|split; [done|split; [done|split; [by rewrite !length_alter, Hlen|]]]].
  - apply (queued_same (callbacks t)); [by rewrite !length_alter, Hlen| |exact Hq]. intros j Hj.
    assert (i ≠ j) by set_solver.
    rewrite !(cb_get_alter _ i j), !decide_False by tauto.
    destruct h as [n|]; rewrite ?cb_get_alter, ?decide_False by tauto; [|done].
    destruct (decide _); rewrite ?cb_get_alter, ?decide_False by tauto; done.
  - intros j Hj. rewrite !(cb_get_alter _ i j), !decide_False by naive_solver.
    destruct h as [n|]; rewrite ?cb_get_alter, ?decide_False by naive_solver; [|done].
    destruct (decide _); rewrite ?cb_get_alter, ?decide_False by naive_solver; done.
Qed.

(** The world after calling the callbacks [due] in order. *)
Definition call_all (cbs : list callback_info) (tick : Z) (due : list nat) (w : W) : W :=
  foldl (λ w i, (call (cb_fn (cb_get cbs i)) tick (cb_context (cb_get cbs i)) w).1) w due.

Lemma call_all_same cbs cbs' tick due w :
  (∀ i, i ∈ due → cb_fn (cb_get cbs' i) = cb_fn (cb_get cbs i)
     ∧ cb_context (cb_get cbs' i) = cb_context (cb_get cbs i)) →
  call_all cbs' tick due w = call_all cbs tick due w.
Proof.
  revert w. induction due as [|i due IH]; intros w Hs; [done|]. unfold call_all in *. simpl.
  destruct (Hs i) as [-> ->]; [set_solver|]. apply IH. intros j Hj. apply Hs. set_solver.
Qed.

Lemma fire_loop_due fuel t due rest :
  queued (callbacks t) (next_callback t) (due ++ rest) → NoDup (due ++ rest) →
  (∀ i, i ∈ due → cb_when (cb_get (callbacks t) i) <= current_tick t) →
  (∀ i, head rest = Some i → current_tick t < cb_when (cb_get (callbacks t) i)) →
  (∀ i w, i ∈ due → (call (cb_fn (cb_get (callbacks t) i)) (current_tick t)
                       (cb_context (cb_get (callbacks t) i)) w).2 = TIMER_CANCEL) →
  (length due <= fuel)%nat →
  ∃ t', fire_loop fuel t = Ret t' ∧ queued (callbacks t') (next_callback t') rest
    ∧ world t' = call_all (callbacks t) (current_tick t) due (world t)
    ∧ current_tick t' = current_tick t.
Proof.
  revert fuel t. induction due as [|i due IH]; intros fuel t Hq Hnd Hdue Hrest Hcan Hf.
  - exists t. split; [|done]. destruct rest as [|i rest]; simpl in Hq.
    + destruct fuel; simpl; by rewrite Hq.
    + destruct Hq as [Hh _]. specialize (Hrest i eq_refl).
      destruct fuel; simpl; rewrite Hh, (proj2 (Z.leb_gt _ _)) by lia; done.
  - destruct fuel as [|fuel]; simpl in Hf; [lia|]. simpl in Hnd. apply NoDup_cons in Hnd as [Hni Hnd].
    pose proof Hq as (Hh & _). cbn [fire_loop]. rewrite Hh, (proj2 (Z.leb_le _ _)) by (apply Hdue; set_solver).
    destruct (call (cb_fn (cb_get (callbacks t) i)) (current_tick t)
                (cb_context (cb_get (callbacks t) i)) (world t)) as [w c] eqn:Hc.
    assert (c = TIMER_CANCEL) as ->.
    { specialize (Hcan i (world t) ltac:(set_solver)). by rewrite Hc in Hcan. }
    destruct (fire_cancel fuel t i (due ++ rest) w Hq Hni Hc) as (t1 & Ht1 & Hq1 & Hw & Htk & _ & Hsame).
    rewrite Ht1. cbn [obind].
    assert (Hne : ∀ j, j ∈ due ++ rest → j ≠ i) by set_solver.
    destruct (IH fuel t1 Hq1 Hnd) as (t' & Ht' & Hq' & Hw' & Htk').
    { intros j Hj. destruct (Hsame j) as (-> & _); [apply Hne; set_solver|]. rewrite Htk. apply Hdue. set_solver. }
    { intros j Hj. destruct (Hsame j) as (-> & _); [apply Hne; destruct rest; [done|injection Hj as ->]; set_solver|].
      rewrite Htk. by apply Hrest. }
    { intros j w' Hj. destruct (Hsame j) as (_ & -> & ->); [apply Hne; set_solver|].
      rewrite Htk. apply Hcan. set_solver. }
    { lia. }
    exists t'. split; [done|]. split; [done|]. split; [|congruence]. rewrite Hw', Htk, Hw.
    assert (call_all (callbacks t) (current_tick t) (i :: due) (world t)
            = call_all (callbacks t) (current_tick t) due w) as -> by (unfold call_all; simpl; by rewrite Hc).
    apply call_all_same.
    intros j Hj. by destruct (Hsame j) as (_ & ? & ?); [apply Hne; set_solver|].
Qed.

(** a timer interrupt calls every due one-shot callback, in queue order
    and exactly once, removes them from the queue, keeps the later ones, and
    returns. *)
Theorem timer_interrupt_fires_due fuel t due rest :
  let tick := u32 (current_tick t + 1) in
  queued (callbacks t) (next_callback t) (due ++ rest) → NoDup (due ++ rest) →
  (∀ i, i ∈ due → cb_when (cb_get (callbacks t) i) <= tick) →
  (∀ i, head rest = Some i → tick < cb_when (cb_get (callbacks t) i)) →
  (∀ i w, i ∈ due → (call (cb_fn (cb_get (callbacks t) i)) tick
                       (cb_context (cb_get (callbacks t) i)) w).2 = TIMER_CANCEL) →
  (length due <= fuel)%nat →
  ∃ t', timer_interrupt fuel t = Ret t' ∧ queued (callbacks t') (next_callback t') rest
    ∧ world t' = task_preempt (call_all (callbacks t) tick due (world t)) ∧ current_tick t' = tick.
Proof.
  intros tick Hq Hnd Hdue Hrest Hcan Hf. unfold timer_interrupt. simpl. fold tick.
  set (t1 := if _ =? 0 then _ else _).
  assert (callbacks t1 = callbacks t ∧ next_callback t1 = next_callback t ∧ world t1 = world t
          ∧ current_tick t1 = tick) as (E1 & E2 & E3 & E4).
  { unfold t1. repeat case_if; done. }
  destruct (fire_loop_due fuel t1 due rest) as (t' & Ht' & Hq' & Hw & Htk);
    rewrite ?E1, ?E2, ?E3, ?E4; try done.
  rewrite Ht'. cbn [obind]. eexists. split; [reflexivity|]. simpl.
  rewrite Hw, E1, E3, E4. split; [done|]. split; [done|congruence].
Qed.

(** ** Where the queue code does not return *)

Lemma insert_loop_self fuel cbs nr :
  (nr < length cbs)%nat → (cb_next (cb_get cbs nr) = None ∨ cb_next (cb_get cbs nr) = Some nr) →
  insert_loop fuel cbs nr (Some nr) = OutOfFuel.
Proof.
  revert cbs. induction fuel as [|fuel IH]; intros cbs Hnr Hn; [done|]. cbn [insert_loop].
  unfold link_step. rewrite Z.ltb_irrefl.
  destruct (cb_next (cb_get cbs nr)) as [n|] eqn:E.
  - destruct Hn as [|[= ->]]; [done|]. rewrite E. apply IH; auto.
  - rewrite cb_get_alter, length_alter, decide_True by done.
    rewrite cb_get_alter, decide_True by done. cbn [set_pv cb_next set_nx].
    apply IH; [by rewrite !length_alter|]. right.
    rewrite cb_get_alter, length_alter, decide_True by done.
    rewrite cb_get_alter, decide_True by done. done.
Qed.

Lemma insert_loop_append fuel cbs nr h i q :
  queued cbs h (i :: q) → nr ∉ i :: q → (nr < length cbs)%nat → cb_next (cb_get cbs nr) = None →
  (∀ j, j ∈ i :: q → cb_when (cb_get cbs j) <= cb_when (cb_get cbs nr)) →
  insert_loop fuel cbs nr h = OutOfFuel.
Proof.
  revert fuel h i. induction q as [|j q IH]; intros fuel h i Hq Hni Hnr Hnn Hle;
    destruct Hq as (-> & Hi & Hq); (destruct fuel as [|fuel]; [done|]);
    cbn [insert_loop]; unfold link_step;
    rewrite (proj2 (Z.ltb_ge _ _)) by (apply Hle; set_solver).
  - simpl in Hq. rewrite Hq. assert (nr ≠ i) by set_solver.
    rewrite !cb_get_alter, !length_alter.
    rewrite (decide_False (P := nr = i ∧ _)), (decide_True (P := i = i ∧ _)) by tauto. simpl.
    apply insert_loop_self; [by rewrite !length_alter|]. left.
    rewrite !cb_get_alter, !length_alter.
    rewrite (decide_True (P := nr = nr ∧ _)), (decide_False (P := i = nr ∧ _)) by naive_solver. done.
  - pose proof Hq as (Hn & _). rewrite Hn.
    apply (IH fuel _ j); [done|set_solver|done|done|]. intros k Hk. apply Hle. set_solver.
Qed.

Lemma free_slot_spec cbs k nr :
  free_slot cbs k = Some nr → (k <= nr < k + length cbs)%nat ∧ cb_when (cb_get cbs (nr - k)) = TIMER_CANCEL.
Proof.
  revert k. induction cbs as [|c cbs IH]; intros k; simpl; [done|]. case_if.
  - intros [= ->]. split; [lia|]. by rewrite Nat.sub_diag.
  - intros H%IH. destruct H as [Hr Hw]. split; [lia|].
    replace (nr - k)%nat with (S (nr - S k)) by lia. done.
Qed.

(** [timer_callback] never returns when the new callback is not earlier
    than the callbacks already queued: the loop links the new slot behind the
    last one, moves on to it and links it to itself, with interrupts off. *)
Theorem timer_callback_append_hangs t i q when context callback :
  queued (callbacks t) (next_callback t) (i :: q) →
  (∀ j, j ∈ i :: q → cb_when (cb_get (callbacks t) j) ≠ TIMER_CANCEL
     ∧ cb_when (cb_get (callbacks t) j) <= when) →
  free_slot (callbacks t) 0 ≠ None →
  ∀ fuel, timer_callback fuel t when context callback = OutOfFuel.
Proof.
  intros Hq Hle Hfree fuel. unfold timer_callback.
  destruct (free_slot (callbacks t) 0) as [nr|] eqn:Hnr; [|done].
  apply free_slot_spec in Hnr as [Hr Hc]. rewrite Nat.sub_0_r in Hc.
  assert (nr ∉ i :: q) as Hni by (intros Hin; by destruct (Hle nr Hin)).
  pose proof Hq as (Hh & _). rewrite Hh.
  set (cbs := <[nr:=_]> (callbacks t)).
  assert (Hget : cb_get cbs nr = mk_cb callback context when None None).
  { unfold cb_get, cbs. rewrite list_lookup_insert_eq by lia. done. }
  assert (Hother : ∀ j, j ≠ nr → cb_get cbs j = cb_get (callbacks t) j).
  { intros j Hj. unfold cb_get, cbs. by rewrite list_lookup_insert_ne by done. }
  rewrite (insert_loop_append fuel cbs nr (Some i) i q); [done| |done| | |].
  - rewrite <- Hh. apply (queued_same (callbacks t)); [by unfold cbs; rewrite length_insert| |done].
    intros j Hj. rewrite Hother by set_solver. done.
  - unfold cbs. rewrite length_insert. lia.
  - by rewrite Hget.
  - intros j Hj. rewrite Hother, Hget by set_solver. by apply Hle.
Qed.

Lemma reinsert_loop_hangs fuel cbs nr i : reinsert_loop fuel cbs nr (Some i) = OutOfFuel.
Proof. revert cbs. induction fuel as [|fuel IH]; intros cbs; [done|apply IH]. Qed.

(** the timer interrupt never returns when a due callback asks to be
    called again while another callback is queued: its insertion loop does
    not advance. *)
Theorem timer_interrupt_periodic_hangs t i n q :
  let tick := u32 (current_tick t + 1) in
  queued (callbacks t) (next_callback t) (i :: n :: q) →
  cb_when (cb_get (callbacks t) i) <= tick →
  (∀ w, (call (cb_fn (cb_get (callbacks t) i)) tick (cb_context (cb_get (callbacks t) i)) w).2
        ≠ TIMER_CANCEL) →
  ∀ fuel, timer_interrupt fuel t = OutOfFuel.
Proof.
  intros tick (Hh & Hi & Hq) Hdue Hcall fuel. unfold timer_interrupt. simpl. fold tick.
  set (t1 := if _ =? 0 then _ else _).
  assert (callbacks t1 = callbacks t ∧ next_callback t1 = next_callback t ∧ world t1 = world t
          ∧ current_tick t1 = tick) as (E1 & E2 & E3 & E4).
  { unfold t1. repeat case_if; done. }
  assert (fire_loop fuel t1 = OutOfFuel) as ->; [|done].
  destruct fuel as [|fuel]; simpl; rewrite E2, Hh, E1, E4, (proj2 (Z.leb_le _ _) Hdue); [done|].
  unfold fire. rewrite E1, E3, E4. specialize (Hcall (world t)).
  destruct (call _ _ _ _) as [w c]. simpl in Hcall.
  rewrite (proj2 (Z.eqb_neq _ _) Hcall). rewrite (cb_get_alter _ i i), decide_True by done.
  cbn [set_when cb_next]. destruct Hq as (-> & _). rewrite reinsert_loop_hangs. done.
Qed.
End Timer.

(** * Runs *)

(** A world that logs the callbacks made; callback 7 is periodic. *)
Definition log_call (fn tick ctx : Z) (w : list Z) : list Z * Z :=
  (w ++ [fn], if fn =? 7 then tick + 10 else TIMER_CANCEL).

Definition run_timer (o : outcome (timer (W := list Z) * Z)) : timer (W := list Z) :=
  match o with Ret (t, _) => t | _ => mk_timer 0 0 0 0 [] None [] end.

Definition blank : timer (W := list Z) :=
  (init_timer (λ _, 0) [] (replicate 128 no_cb) 1000).1.1.

(** Callbacks registered latest first: 30, then 20. *)
Definition two : timer (W := list Z) := run_timer (timer_callback 200 (run_timer (timer_callback 200 blank 30 0 1)) 20 0 2).

Lemma timer_interrupt_fires_due_witness :
  ∃ t', timer_interrupt log_call (λ _, 0) (λ w, w) 5 (with_clock two 19 0) = Ret t'
    ∧ queued (callbacks t') (next_callback t') [0%nat] ∧ world t' = [2].
Proof.
  destruct (timer_interrupt_fires_due log_call (λ _, 0) (λ w, w) 5 (with_clock two 19 0) [1%nat] [0%nat])
    as (t' & H1 & H2 & H3 & _).
  - vm_compute. repeat split; lia.
  - repeat constructor; set_solver.
  - intros i ->%list_elem_of_singleton. vm_compute. congruence.
  - intros i [= <-]. vm_compute. reflexivity.
  - intros i w ->%list_elem_of_singleton. reflexivity.
  - simpl. lia.
  - exists t'. split; [exact H1|]. split; [exact H2|]. rewrite H3. reflexivity.
Defined.

Lemma timer_callback_append_hangs_witness :
  timer_callback 1000 (run_timer (timer_callback 200 blank 30 0 1)) 40 0 2 = OutOfFuel.
Proof.
  apply (timer_callback_append_hangs log_call (run_timer (timer_callback 200 blank 30 0 1)) 0%nat []).
  - vm_compute. repeat split; lia.
  - intros j ->%list_elem_of_singleton. vm_compute. split; congruence.
  - vm_compute. congruence.
Defined.

Lemma timer_interrupt_periodic_hangs_witness :
  timer_interrupt log_call (λ _, 0) (λ w, w) 1000
    (with_clock (run_timer (timer_callback 200 (run_timer (timer_callback 200 blank 30 0 1)) 20 0 7)) 19 0)
  = OutOfFuel.
Proof.
  apply (timer_interrupt_periodic_hangs log_call (λ _, 0) (λ w, w) _ 1%nat 0%nat []).
  - vm_compute. repeat split; lia.
  - vm_compute. congruence.
  - intros w. vm_compute. congruence.
Defined.

(** registering a callback earlier than two or more queued ones loses the
    first of them: with callbacks for ticks 20 and 30 queued, adding one for
    tick 10 leaves a queue of the ones for 10 and 30. *)
Theorem timer_callback_loses_entry :
  queued (callbacks two) (next_callback two) [1%nat; 0%nat]
  ∧ match timer_callback 200 two 10 0 3 with
    | Ret (t', 0) => queued (callbacks t') (next_callback t') [2%nat; 0%nat]
        ∧ map (λ i, cb_when (cb_get (callbacks t') i)) [2%nat; 0%nat] = [10; 30]
    | _ => False
    end.
Proof. vm_compute. repeat split; lia. Qed.
