(* ===== verification/Ring.v ===== *)
(** Ring buffers: a fixed array with a read and a write position, the shape
    of the kernel's pipes and terminal queues.  [contents] is the sequence of
    bytes between the two positions; [advance] is the increment with
    wrap-around both users write out. *)

From S2P Require Import Prelude.

Section Ring.
Context {A : Type} `{!Inhabited A}.
Implicit Types (buf : list A) (r w n : nat) (x : A).

Definition advance (len p : nat) : nat := if decide (S p = len) then 0%nat else S p.

Definition fill (len r w : nat) : nat := if decide (r <= w)%nat then (w - r)%nat else (w + len - r)%nat.

  (** [n] elements from position [r]. *)
Fixpoint contents_n (buf : list A) (r n : nat) : list A :=
    match n with
    | O => []
    | S n => (buf !!! r) :: contents_n buf (advance (length buf) r) n
    end.

Definition contents (buf : list A) (r w : nat) : list A :=
    contents_n buf r (fill (length buf) r w).

Lemma advance_lt len p : (p < len)%nat → (advance len p < len)%nat.
Proof. intros H. unfold advance. case_decide; lia. Qed.

Lemma fill_lt len r w : (r < len)%nat → (w < len)%nat → (fill len r w < len)%nat.
Proof. unfold fill. case_decide; lia. Qed.

Lemma fill_zero len r w : (r < len)%nat → (w < len)%nat → fill len r w = 0%nat ↔ r = w.
Proof. unfold fill. case_decide; lia. Qed.

Lemma contents_n_length buf r n : length (contents_n buf r n) = n.
Proof. revert r. induction n; simpl; auto. Qed.

Lemma contents_length buf r w : length (contents buf r w) = fill (length buf) r w.
Proof. apply contents_n_length. Qed.

  (** Taking one element out. *)
Lemma contents_read buf r w :
    (r < length buf)%nat → (w < length buf)%nat → r ≠ w →
    contents buf r w = (buf !!! r) :: contents buf (advance (length buf) r) w.
Proof.
    intros Hr Hw Hne. unfold contents.
    replace (fill (length buf) r w) with (S (fill (length buf) (advance (length buf) r) w)); [done|].
    unfold fill, advance. repeat case_decide; lia.
Qed.

  (** Writing outside the elements read. *)
Lemma contents_n_insert buf r n p x :
    (r < length buf)%nat → (n <= length buf)%nat → (p < length buf)%nat →
    (∀ i, (i < n)%nat → p ≠ (if decide (r + i < length buf) then r + i else r + i - length buf)%nat) →
    contents_n (<[p := x]> buf) r n = contents_n buf r n.
Proof.
    revert r. induction n as [|n IH]; intros r Hr Hn Hp Hi; [done|]. simpl. f_equal.
    - apply list_lookup_total_insert_ne. specialize (Hi 0%nat ltac:(lia)).
      rewrite decide_True in Hi by lia. lia.
    - rewrite length_insert. apply IH; [by apply advance_lt|lia|done|]. intros i Hin.
      specialize (Hi (S i) ltac:(lia)). unfold advance. repeat case_decide; lia.
Qed.

Lemma contents_n_snoc buf r n :
    (r < length buf)%nat → (n < length buf)%nat →
    contents_n buf r (S n) =
    contents_n buf r n ++ [buf !!! (if decide (r + n < length buf) then r + n else r + n - length buf)%nat].
Proof.
    revert r. induction n as [|n IH]; intros r Hr Hn.
    - simpl. rewrite Nat.add_0_r, decide_True by lia. done.
    - change (contents_n buf r (S (S n))) with
        ((buf !!! r) :: contents_n buf (advance (length buf) r) (S n)).
      rewrite IH by (try apply advance_lt; lia). simpl. do 4 f_equal.
      unfold advance. repeat case_decide; lia.
Qed.

  (** Putting one element in. *)
Lemma contents_write buf r w x :
    (r < length buf)%nat → (w < length buf)%nat →
    (S (length (contents buf r w)) < length buf)%nat →
    contents (<[w := x]> buf) r (advance (length buf) w) = contents buf r w ++ [x].
Proof.
    rewrite contents_length. intros Hr Hw Hfill. unfold contents. rewrite length_insert.
    replace (fill (length buf) r (advance (length buf) w)) with (S (fill (length buf) r w)).
    2: { unfold fill, advance in *. repeat case_decide; lia. }
    rewrite contents_n_snoc by (rewrite ?length_insert; lia).
    rewrite contents_n_insert; [|done|lia|done|].
    - f_equal. f_equal. rewrite length_insert.
      replace (if decide _ then _ else _) with w; [by apply list_lookup_total_insert_eq|].
      unfold fill in *. repeat case_decide; lia.
    - intros i Hi. unfold fill in *. repeat case_decide; lia.
Qed.

  (** The decrement with wrap-around. *)
Definition retreat (len p : nat) : nat := if decide (p = 0%nat) then (len - 1)%nat else (p - 1)%nat.

Lemma retreat_lt len p : (p < len)%nat → (retreat len p < len)%nat.
Proof. intros H. unfold retreat. case_decide; lia. Qed.

  (** Taking the newest element back. *)
Lemma contents_unwrite buf r w :
    (r < length buf)%nat → (w < length buf)%nat → r ≠ w →
    contents buf r w = contents buf r (retreat (length buf) w) ++ [buf !!! retreat (length buf) w].
Proof.
    intros Hr Hw Hne. unfold contents.
    replace (fill (length buf) r w) with (S (fill (length buf) r (retreat (length buf) w))).
    2: { unfold fill, retreat. repeat case_decide; lia. }
    rewrite contents_n_snoc; [|done|apply fill_lt; [done|by apply retreat_lt]].
    do 3 f_equal. unfold fill, retreat. repeat case_decide; lia.
Qed.

  (** Without wrap-around the contents are a slice of the array. *)
Lemma contents_slice buf r w :
    (r <= w)%nat → (w < length buf)%nat → contents buf r w = take (w - r) (drop r buf).
Proof.
    intros Hrw Hw. unfold contents, fill. rewrite decide_True by done.
    remember (w - r)%nat as n eqn:En. revert r Hrw En. induction n as [|n IH]; intros r Hrw En.
    - by rewrite take_0.
    - simpl. unfold advance. rewrite decide_False by lia. rewrite IH by lia.
      assert (r < length buf)%nat as Hr by lia. apply lookup_lt_is_Some in Hr as [x Hx].
      rewrite (drop_S buf x r Hx). simpl. by rewrite (list_lookup_total_correct _ _ _ Hx).
Qed.
End Ring.
