(* ===== verification/Pipe.v ===== *)
(** Pipes: [src/kernel/src/pipe.c].

    A pipe is a ring buffer shared by all opens of one FIFO inode.  The store
    maps pipe addresses to pipes; [pipe_list] is the kernel's list of open
    pipes, the most recent first.  A reader that finds the buffer empty sleeps:
    what other tasks do to the pipe meanwhile is given as a list of state
    changes, one per sleep. *)

From S2P Require Import Prelude Ring.

Definition KERNEL_PIPE_LENGTH : nat := 1024.
Definition O_RDONLY : Z := 0.
Definition O_WRONLY : Z := 1.
Definition O_RDWR : Z := 2.

Record pipe_t := mk_pipe {
  p_buffer : list Z;
  p_read : nat;
  p_write : nat;
  nreaders : Z;
  nwriters : Z;
  wrlock : Z;
  rdlock : Z;
  p_inode : Z;
  p_reader : option Z;
}.

Record pipes := mk_pipes { p_store : gmap Z pipe_t; pipe_list : list Z }.

(** * Opening and closing *)

Fixpoint find_open_pipe (store : gmap Z pipe_t) (l : list Z) (inode : Z) : option Z :=
  match l with
  | [] => None
  | a :: l => match store !! a with
              | Some p => if p_inode p =? inode then Some a else find_open_pipe store l inode
              | None => find_open_pipe store l inode
              end
  end.

Definition has_flag (mode flag : Z) : bool := negb (Z.land mode flag =? 0).

Definition add_counts (mode d : Z) (p : pipe_t) : pipe_t :=
  mk_pipe (p_buffer p) (p_read p) (p_write p)
    (if has_flag mode O_RDONLY || has_flag mode O_RDWR then u32 (nreaders p + d) else nreaders p)
    (if has_flag mode O_WRONLY || has_flag mode O_RDWR then u32 (nwriters p + d) else nwriters p)
    (wrlock p) (rdlock p) (p_inode p) (p_reader p).

(** [palloc] and [balloc] are the results of the two [kmalloc]s: the address
    of the pipe and the (uninitialised) buffer. *)
Definition pipe_open (s : pipes) (inode mode : Z) (palloc : option Z) (balloc : option (list Z)) :
    pipes * result Z :=
  match find_open_pipe (p_store s) (pipe_list s) inode with
  | Some a => (mk_pipes (alter (add_counts mode 1) a (p_store s)) (pipe_list s), Ok a)
  | None =>
      match palloc, balloc with
      | None, _ => (s, Err ENOMEM)
      | Some _, None => (s, Err ENOMEM)
      | Some a, Some buf =>
          let p := mk_pipe buf 0 0 0 0 0 0 inode None in
          (mk_pipes (<[a := add_counts mode 1 p]> (p_store s)) (a :: pipe_list s), Ok a)
      end
  end.

(** [status] is [file->f_status]. *)
Definition pipe_close (s : pipes) (a status : Z) : pipes :=
  let store := alter (add_counts status (-1)) a (p_store s) in
  match store !! a with
  | Some p =>
      if (nwriters p =? 0) && (nreaders p =? 0)
      then mk_pipes (delete a store) (filter (λ b, b ≠ a) (pipe_list s))
      else mk_pipes store (pipe_list s)
  | None => s
  end.

(** * Reading and writing *)

Definition set_wr (p : pipe_t) (buf : list Z) (w : nat) (l : Z) : pipe_t :=
  mk_pipe buf (p_read p) w (nreaders p) (nwriters p) l (rdlock p) (p_inode p) (p_reader p).
Definition set_rd (p : pipe_t) (r : nat) (l : Z) (rd : option Z) : pipe_t :=
  mk_pipe (p_buffer p) r (p_write p) (nreaders p) (nwriters p) (wrlock p) l (p_inode p) rd.

Fixpoint write_loop (buf : list Z) (w : nat) (data : list Z) : list Z * nat :=
  match data with
  | [] => (buf, w)
  | x :: data => write_loop (<[w := x]> buf) (advance (length buf) w) data
  end.

(** Returns the pipe, the count written and the reader to wake; [waiting]
    tells which tasks sleep. *)
Definition pipe_write (waiting : Z → bool) (p : pipe_t) (data : list Z) :
    outcome (pipe_t * Z * option Z) :=
  l <~ spin_lock (wrlock p) ;;
  let '(buf, w) := write_loop (p_buffer p) (p_write p) data in
  let p := set_wr p buf w (spin_unlock l) in
  let wake := match p_reader p with
              | Some t => if waiting t then Some t else None
              | None => None
              end in
  Ret (p, Z.of_nat (length data), wake).

(** The inner loop: copy out while there is data and room for it. *)
Fixpoint read_loop (buf : list Z) (r w room : nat) : list Z * nat :=
  match room with
  | O => ([], r)
  | S room => if decide (r = w) then ([], r)
              else let '(out, r') := read_loop buf (advance (length buf) r) w room in
                   (buf !!! r :: out, r')
  end.

Inductive read_result : Type :=
  | ReadBytes (data : list Z)
  | ReadEof                       (* returns -1 *)
  | ReadBlocked (data : list Z).  (* still asleep after the given events *)

Definition copy_out (p : pipe_t) (count : nat) (got : list Z) : pipe_t * list Z :=
  let '(out, r) := read_loop (p_buffer p) (p_read p) (p_write p) (count - length got) in
  (set_rd p r (rdlock p) (p_reader p), got ++ out).

(** The outer loop; each sleep applies the next of [events] to the pipe. *)
Fixpoint read_outer (fuel : nat) (events : list (pipe_t → pipe_t)) (p : pipe_t) (count : nat)
    (got : list Z) : outcome (pipe_t * read_result) :=
  if decide (count <= length got)%nat
  then Ret (set_rd p (p_read p) (spin_unlock (rdlock p)) None, ReadBytes got)
  else if (nwriters p =? 0) && bool_decide (p_read p = p_write p)
  then Ret (set_rd p (p_read p) (spin_unlock (rdlock p)) (p_reader p),
            match got with [] => ReadEof | _ => ReadBytes got end)
  else match fuel with
  | O => OutOfFuel
  | S fuel =>
      if bool_decide (p_read p = p_write p) then
        match events with
        | [] => Ret (p, ReadBlocked got)
        | e :: events => let '(p, got) := copy_out (e p) count got in read_outer fuel events p count got
        end
      else let '(p, got) := copy_out p count got in read_outer fuel events p count got
  end.

Definition pipe_read (fuel : nat) (events : list (pipe_t → pipe_t)) (p : pipe_t) (current : Z)
    (count : nat) : outcome (pipe_t * read_result) :=
  l <~ spin_lock (rdlock p) ;;
  read_outer fuel events (set_rd p (p_read p) l (Some current)) count [].

(** * The pipe as a queue of bytes *)

Definition pipe_ok (p : pipe_t) : Prop :=
  (p_read p < length (p_buffer p))%nat ∧ (p_write p < length (p_buffer p))%nat.

Definition unread (p : pipe_t) : list Z := contents (p_buffer p) (p_read p) (p_write p).

Lemma write_loop_spec data buf r w :
  (r < length buf)%nat → (w < length buf)%nat →
  (length (contents buf r w) + length data < length buf)%nat →
  let '(buf', w') := write_loop buf w data in
  length buf' = length buf ∧ (w' < length buf)%nat ∧ contents buf' r w' = contents buf r w ++ data.
Proof.
  revert buf w. induction data as [|x data IH]; intros buf w Hr Hw Hlen; simpl.
  - by rewrite app_nil_r.
  - simpl in Hlen. pose proof (contents_write buf r w x Hr Hw ltac:(lia)) as Hc.
    specialize (IH (<[w:=x]> buf) (advance (length buf) w)).
    rewrite length_insert, Hc, length_app in IH.
    destruct (write_loop _ _ _) as [buf' w']. simpl in IH.
    destruct IH as (H1 & H2 & H3); [done|by apply advance_lt|lia|].
    rewrite H3, <- app_assoc. done.
Qed.

Lemma read_loop_spec room buf r w :
  (r < length buf)%nat → (w < length buf)%nat →
  let '(out, r') := read_loop buf r w room in
  (r' < length buf)%nat ∧ out = take room (contents buf r w)
  ∧ contents buf r' w = drop room (contents buf r w).
Proof.
  revert r. induction room as [|room IH]; intros r Hr Hw; simpl; [by rewrite drop_0|].
  destruct (decide (r = w)) as [->|Hne].
  - assert (contents buf w w = []) as ->; [|done].
    apply nil_length_inv. rewrite contents_length. by apply fill_zero.
  - rewrite (contents_read buf r w) by done. specialize (IH (advance (length buf) r)).
    destruct (read_loop _ _ _ _) as [out r']. simpl.
    destruct IH as (H1 & -> & H3); [by apply advance_lt|done|]. done.
Qed.

Lemma pipe_write_spec waiting p data :
  pipe_ok p → wrlock p = 0 → (length (unread p) + length data < length (p_buffer p))%nat →
  ∃ p' wake, pipe_write waiting p data = Ret (p', Z.of_nat (length data), wake)
    ∧ pipe_ok p' ∧ unread p' = unread p ++ data ∧ wrlock p' = 0 ∧ rdlock p' = rdlock p
    ∧ length (p_buffer p') = length (p_buffer p) ∧ nwriters p' = nwriters p
    ∧ wake = (t ← p_reader p; if waiting t then Some t else None).
Proof.
  intros [Hr Hw] Hl Hfit. unfold pipe_write, spin_lock. rewrite Hl. simpl.
  pose proof (write_loop_spec data (p_buffer p) (p_read p) (p_write p) Hr Hw Hfit) as Hspec.
  destruct (write_loop _ _ _) as [buf w]. destruct Hspec as (H1 & H2 & H3).
  eexists _, _. split; [reflexivity|]. unfold pipe_ok, unread. simpl. rewrite H1.
  repeat (split; [done|]). by destruct (p_reader p).
Qed.

Lemma read_enough fuel events p count :
  pipe_ok p → (count <= length (unread p))%nat → (0 < fuel)%nat →
  ∃ p', read_outer fuel events p count [] = Ret (p', ReadBytes (take count (unread p)))
    ∧ pipe_ok p' ∧ unread p' = drop count (unread p) ∧ rdlock p' = 0 ∧ wrlock p' = wrlock p
    ∧ length (p_buffer p') = length (p_buffer p) ∧ nwriters p' = nwriters p.
Proof.
  intros [Hr Hw] Hc Hf. destruct fuel as [|fuel]; [lia|].
  destruct (decide (count = 0%nat)) as [->|Hc0].
  - eexists. split; [reflexivity|]. unfold pipe_ok, unread. simpl. by rewrite drop_0.
  - assert (Hne : p_read p ≠ p_write p).
    { intros He. unfold unread in Hc. rewrite contents_length, (proj2 (fill_zero _ _ _ Hr Hw) He) in Hc. lia. }
    cbn [read_outer length]. rewrite decide_False by lia.
    rewrite (bool_decide_eq_false_2 _ Hne), andb_false_r.
    unfold copy_out. rewrite Nat.sub_0_r.
    pose proof (read_loop_spec count (p_buffer p) (p_read p) (p_write p) Hr Hw) as Hspec.
    destruct (read_loop _ _ _ _) as [out r]. destruct Hspec as (H1 & -> & H3). simpl.
    assert (Hlen : length (take count (contents (p_buffer p) (p_read p) (p_write p))) = count).
    { rewrite length_take. unfold unread in Hc. lia. }
    eexists. split.
    { destruct fuel; simpl; rewrite Hlen, decide_True by lia; reflexivity. }
    unfold pipe_ok, unread. simpl. done.
Qed.

(** ** Streams *)

Inductive pipe_op : Type :=
  | PWrite (data : list Z)
  | PRead (count : nat).

(** A run of writes and reads by one writer and one reader that are never
    asked for more than is there; the bytes read, in order. *)
Fixpoint run_pipe (p : pipe_t) (ops : list pipe_op) : outcome (pipe_t * list Z) :=
  match ops with
  | [] => Ret (p, [])
  | PWrite data :: ops => '(p, _, _) <~ pipe_write (λ _, false) p data ;; run_pipe p ops
  | PRead count :: ops =>
      '(p, r) <~ pipe_read 1 [] p 0 count ;;
      match r with
      | ReadBytes out => '(p, rest) <~ run_pipe p ops ;; Ret (p, out ++ rest)
      | _ => Halt
      end
  end.

Fixpoint written (ops : list pipe_op) : list Z :=
  match ops with
  | [] => []
  | PWrite data :: ops => data ++ written ops
  | PRead _ :: ops => written ops
  end.

(** [ops] never overfills a buffer of [len] bytes holding [n], nor reads more
    than it holds. *)
Fixpoint within_capacity (len n : nat) (ops : list pipe_op) : bool :=
  match ops with
  | [] => true
  | PWrite data :: ops => bool_decide (n + length data < len)%nat && within_capacity len (n + length data) ops
  | PRead count :: ops => bool_decide (count <= n)%nat && within_capacity len (n - count) ops
  end.

(** C35: a pipe delivers the bytes written, each once and in order: for any
    sequence of writes and reads that stays within the buffer's capacity, the
    operations return and the bytes read followed by the bytes still in the
    pipe are the bytes that were in it followed by the bytes written.  Within the
    capacity means that a write finds room for all its bytes and a read as many
    bytes as it asks for, so that no operation blocks. *)
Theorem pipe_fifo p ops :
  pipe_ok p → wrlock p = 0 → rdlock p = 0 →
  within_capacity (length (p_buffer p)) (length (unread p)) ops = true →
  ∃ p' out, run_pipe p ops = Ret (p', out) ∧ out ++ unread p' = unread p ++ written ops.
Proof.
  revert p. induction ops as [|[data|count] ops IH]; intros p Hok Hwl Hrl Hcap; simpl in *.
  - exists p, []. by rewrite app_nil_r.
  - apply andb_true_iff in Hcap as [Hfit%bool_decide_eq_true Hcap].
    destruct (pipe_write_spec (λ _, false) p data Hok Hwl Hfit)
      as (p1 & wake & Hp1 & Hok1 & Hun & Hwl1 & Hrl1 & Hb & _). rewrite Hp1. cbn [obind].
    destruct (IH p1 Hok1 Hwl1) as (p' & out & Hrun & Hout); [congruence| |].
    { by rewrite Hb, Hun, length_app. }
    exists p', out. split; [done|]. by rewrite Hout, Hun, app_assoc.
  - apply andb_true_iff in Hcap as [Hfit%bool_decide_eq_true Hcap].
    unfold pipe_read, spin_lock. rewrite Hrl. cbn [Z.eqb obind].
    set (p0 := set_rd p (p_read p) 1 (Some 0)).
    destruct (read_enough 1 [] p0 count Hok Hfit ltac:(lia))
      as (p1 & Hp1 & Hok1 & Hun & Hrl1 & Hwl1 & Hb & _). rewrite Hp1. cbn [obind].
    change (unread p0) with (unread p) in *.
    destruct (IH p1 Hok1) as (p' & out & Hrun & Hout); [by rewrite Hwl1|done| |].
    { rewrite Hb, Hun, length_drop. done. }
    exists p', (take count (unread p) ++ out). rewrite Hrun. split; [done|].
    by rewrite <- app_assoc, Hout, Hun, app_assoc, take_drop.
Qed.

Definition demo_pipe : pipe_t := mk_pipe (replicate KERNEL_PIPE_LENGTH 0) 1022 1022 1 1 0 0 5 None.

Lemma pipe_fifo_witness :
  ∃ p' out, run_pipe demo_pipe [PWrite [1; 2; 3]; PRead 2; PWrite [4]; PRead 1] = Ret (p', out)
    ∧ out ++ unread p' = [1; 2; 3; 4].
Proof.
  destruct (pipe_fifo demo_pipe [PWrite [1; 2; 3]; PRead 2; PWrite [4]; PRead 1])
    as (p' & out & H1 & H2).
  - split; vm_compute; lia.
  - reflexivity.
  - reflexivity.
  - vm_compute. reflexivity.
  - exists p', out. split; [exact H1|]. rewrite H2. vm_compute. reflexivity.
Defined.

(** a read on an empty pipe without writers returns end of file at once;
    a read of a pipe that holds fewer bytes than asked for and has no writer
    returns those bytes.  The read lock is released in both cases. *)
Theorem pipe_read_no_writer fuel p current count :
  pipe_ok p → rdlock p = 0 → nwriters p = 0 → (length (unread p) < count)%nat → (1 < fuel)%nat →
  ∃ p', pipe_read fuel [] p current count
      = Ret (p', match unread p with [] => ReadEof | data => ReadBytes data end)
    ∧ rdlock p' = 0 ∧ unread p' = [].
Proof.
  intros [Hr Hw] Hl Hnw Hc Hf. unfold pipe_read, spin_lock. rewrite Hl. cbn [Z.eqb obind].
  destruct fuel as [|[|fuel]]; [lia..|]. cbn [read_outer length].
  rewrite decide_False by lia. cbn [nwriters set_rd p_read p_write]. rewrite Hnw, Z.eqb_refl.
  pose proof (fill_zero _ _ _ Hr Hw) as Hz. unfold unread in *.
  case_bool_decide as He; cbn [andb].
  - apply Hz in He. assert (contents (p_buffer p) (p_read p) (p_write p) = []) as ->
      by (apply nil_length_inv; by rewrite contents_length).
    eexists. split; [reflexivity|]. simpl. split; [done|].
    apply nil_length_inv. by rewrite contents_length.
  - unfold copy_out. cbn [p_buffer p_read p_write set_rd length]. rewrite Nat.sub_0_r.
    pose proof (read_loop_spec count (p_buffer p) (p_read p) (p_write p) Hr Hw) as Hspec.
    destruct (read_loop _ _ _ _) as [out r]. destruct Hspec as (H1 & -> & H3).
    rewrite take_ge, drop_ge in * by lia. cbn [app nwriters set_rd p_read p_write rdlock p_reader].
    rewrite decide_False by lia. rewrite Hnw, Z.eqb_refl.
    assert (r = p_write p) as ->.
    { apply (fill_zero (length (p_buffer p)) r (p_write p)); [done|done|].
      rewrite <- contents_length, H3. done. }
    rewrite bool_decide_true by done. cbn [andb].
    eexists. split; [by destruct (contents _ _ _)|]. simpl. split; [done|exact H3].
Qed.

Lemma pipe_read_no_writer_witness :
  ∃ p', pipe_read 2 [] (mk_pipe [7; 8; 9; 0] 1 3 1 0 0 0 5 None) 42 10 = Ret (p', ReadBytes [8; 9]).
Proof.
  destruct (pipe_read_no_writer 2 (mk_pipe [7; 8; 9; 0] 1 3 1 0 0 0 5 None) 42 10)
    as (p' & H & _); [split; simpl; lia|done|done|vm_compute; lia|lia|].
  by exists p'.
Defined.

(** ** At the limits *)

Lemma advance_mod len w : (w < len)%nat → advance len w = (S w mod len)%nat.
Proof.
  intros H. unfold advance. case_decide as He; [rewrite He, Nat.Div0.mod_same; done|].
  rewrite Nat.mod_small; lia.
Qed.

Lemma write_loop_end data buf w :
  (w < length buf)%nat → (write_loop buf w data).2 = ((w + length data) mod length buf)%nat
    ∧ length (write_loop buf w data).1 = length buf.
Proof.
  revert buf w. induction data as [|x data IH]; intros buf w Hw; simpl.
  - rewrite Nat.add_0_r, Nat.mod_small by done. done.
  - destruct (IH (<[w:=x]> buf) (advance (length buf) w)) as [H1 H2];
      rewrite length_insert in *; [by apply advance_lt|].
    rewrite H1, H2. split; [|done]. rewrite advance_mod by done.
    rewrite Nat.Div0.add_mod_idemp_l. f_equal. lia.
Qed.

(** the writer does not look at the read position: filling the buffer of
    an empty pipe exactly makes it look empty again, and all the bytes whose
    count was returned as written are lost. *)
Theorem pipe_write_full_loses waiting p data :
  pipe_ok p → wrlock p = 0 → unread p = [] → length data = length (p_buffer p) →
  ∃ p' wake, pipe_write waiting p data = Ret (p', Z.of_nat (length data), wake) ∧ unread p' = [].
Proof.
  intros [Hr Hw] Hl Hun Hlen. unfold pipe_write, spin_lock. rewrite Hl. simpl.
  destruct (write_loop_end data (p_buffer p) (p_write p) Hw) as [H1 H2].
  destruct (write_loop _ _ _) as [buf w]. simpl in *. eexists _, _. split; [reflexivity|].
  assert (p_read p = p_write p) as He.
  { apply (fill_zero _ _ _ Hr Hw). rewrite <- contents_length. fold (unread p). by rewrite Hun. }
  apply nil_length_inv. unfold unread. simpl. rewrite contents_length, H2. apply fill_zero; [lia| |].
  - rewrite H1. apply Nat.mod_upper_bound. lia.
  - rewrite H1, Hlen, He. rewrite <- (Nat.Div0.add_mod_idemp_r (p_write p)), Nat.Div0.mod_same.
    rewrite Nat.add_0_r, Nat.mod_small; done.
Qed.

Lemma pipe_write_full_loses_witness :
  ∃ p' wake, pipe_write (λ _, false) demo_pipe (replicate 1024 7) = Ret (p', 1024, wake) ∧ unread p' = [].
Proof.
  apply (pipe_write_full_loses (λ _, false) demo_pipe (replicate 1024 7));
    [split; vm_compute; lia|reflexivity|vm_compute; reflexivity|vm_compute; reflexivity].
Defined.

(** [O_RDONLY] is zero, so the tests of [pipe_open] and [pipe_close] never
    count a read-only open: when the writer closes, the pipe is freed while
    the reader still has it open. *)
Theorem pipe_freed_under_reader :
  let '(s1, r) := pipe_open (mk_pipes ∅ []) 5 O_RDONLY (Some 4096) (Some (replicate 1024 0)) in
  let '(s2, w) := pipe_open s1 5 O_WRONLY (Some 8192) (Some (replicate 1024 0)) in
  r = Ok 4096 ∧ w = Ok 4096 ∧ p_store (pipe_close s2 4096 O_WRONLY) !! 4096 = None.
Proof. vm_compute. done. Qed.
