(* ===== verification/Sem.v ===== *)
(** Semaphores and mutexes: [src/kernel/src/sem.c], [sem.h].

    The tasks waiting on a semaphore are a sequence (the [t_semlink] list, the
    longest waiting first).  Of the tasks the code reads and writes the
    timeout and, through [task_wait] and [task_wakeup], whether they sleep.
    [sem_wait] gives up the processor in the middle: it is modelled as the part
    before [task_waitio], the sleep, and the part after it, so that other
    tasks can run in between. *)

From S2P Require Import Prelude.

Definition TIMER_CANCEL : Z := 4294967295.
Definition SEM_FOREVER : Z := 4294967295.
Definition SEM_NOWAIT : Z := 0.

Record sem_t := mk_sem {
  units : Z;
  s_lock : Z;
  s_tasks : list Z;
  earliest_timeout : Z;
}.

(** What semaphores touch of the rest of the kernel: task timeouts, sleeping
    tasks, the clock and the timer callbacks asked for. *)
Record ksys := mk_ksys {
  ks_sem : sem_t;
  t_timeout : gmap Z Z;
  asleep : gset Z;
  ticks : Z;
  timer_reqs : list Z;
}.

Definition timeout_of (s : ksys) (t : Z) : Z := default 0 (t_timeout s !! t).
Definition with_sem (s : ksys) (m : sem_t) : ksys :=
  mk_ksys m (t_timeout s) (asleep s) (ticks s) (timer_reqs s).
Definition set_timeout (s : ksys) (t v : Z) : ksys :=
  mk_ksys (ks_sem s) (<[t := v]> (t_timeout s)) (asleep s) (ticks s) (timer_reqs s).
Definition sem_set (m : sem_t) (u l : Z) (ts : list Z) : sem_t := mk_sem u l ts (earliest_timeout m).

(** [task_wakeup] does nothing to a task that is awake; [task_waitio]. *)
Definition task_wakeup (s : ksys) (t : Z) : ksys :=
  mk_ksys (ks_sem s) (t_timeout s) (asleep s ∖ {[t]}) (ticks s) (timer_reqs s).
Definition task_waitio (s : ksys) (t : Z) : ksys :=
  mk_ksys (ks_sem s) (t_timeout s) ({[t]} ∪ asleep s) (ticks s) (timer_reqs s).

Definition sem_alloc (max_units : Z) : sem_t := mk_sem max_units 0 [] 4294967295.

(** [None] stands for the freed semaphore. *)
Definition sem_free (m : sem_t) : outcome (option sem_t * result unit) :=
  l <~ spin_lock (s_lock m) ;;
  match s_tasks m with
  | [] => Ret (None, Ok tt)
  | _ => Ret (Some (sem_set m (units m) (spin_unlock l) (s_tasks m)), Err EBUSY)
  end.

(** The [list_for_each] of [sem_timeout]: removal steps back, so that every
    task is looked at once. *)
Fixpoint expire (s : ksys) (now : Z) (ts : list Z) (earliest : Z) : ksys * list Z * Z :=
  match ts with
  | [] => (s, [], earliest)
  | t :: ts =>
      if timeout_of s t <=? now then
        expire (task_wakeup (set_timeout s t 0) t) now ts earliest
      else
        let earliest := if timeout_of s t <? earliest then timeout_of s t else earliest in
        let '(s, keep, e) := expire s now ts earliest in (s, t :: keep, e)
  end.

(** Returns the tick of the next call, or [TIMER_CANCEL]. *)
Definition sem_timeout (s : ksys) (now : Z) : outcome (ksys * Z) :=
  l <~ spin_lock (s_lock (ks_sem s)) ;;
  let m := ks_sem s in
  let '(s, keep, earliest) := expire s now (s_tasks m) 4294967295 in
  let s := with_sem s (sem_set m (units m) (spin_unlock l) keep) in
  Ret (s, if earliest =? 4294967295 then TIMER_CANCEL else earliest).

Inductive wait_result : Set :=
  | WAcquired            (* returned 0 *)
  | WTimedOut            (* returned -ETIMEDOUT *)
  | WQueued.             (* about to call task_waitio *)

(** [sem_wait] up to the call of [task_waitio]. *)
Definition sem_wait_enter (s : ksys) (current timeout : Z) : outcome (ksys * wait_result) :=
  let m := ks_sem s in
  l <~ spin_lock (s_lock m) ;;
  if units m =? 0 then
    if timeout =? 0 then Ret (with_sem s (sem_set m (units m) l (s_tasks m)), WTimedOut)
    else
      let at_ := u32 (ticks s + timeout) in
      let s := set_timeout s current at_ in
      let req := at_ <? earliest_timeout m in
      let s := mk_ksys (mk_sem (units m) (spin_unlock l) (s_tasks m ++ [current])
                          (if req then at_ else earliest_timeout m))
                 (t_timeout s) (asleep s) (ticks s)
                 (if req then timer_reqs s ++ [at_] else timer_reqs s) in
      Ret (s, WQueued)
  else Ret (with_sem s (sem_set m (units m - 1) (spin_unlock l) (s_tasks m)), WAcquired).

(** [sem_wait] after [task_waitio] has returned. *)
Definition sem_wait_resume (s : ksys) (current : Z) : wait_result :=
  if timeout_of s current =? 1 then WAcquired else WTimedOut.

Definition sem_signal (s : ksys) : outcome ksys :=
  let m := ks_sem s in
  l <~ spin_lock (s_lock m) ;;
  match s_tasks m with
  | [] => Ret (with_sem s (sem_set m (units m + 1) (spin_unlock l) []))
  | t :: ts =>
      let s := set_timeout s t 1 in
      let s := with_sem s (sem_set m (units m) (spin_unlock l) ts) in
      Ret (task_wakeup s t)
  end.

(** * Tasks using one semaphore *)

(** Where a task is: outside, holding a unit, queued but not yet asleep,
    inside [task_waitio]. *)
Inductive tpc : Set := Out | In | Enq | Slp.

#[global] Instance tpc_eq_dec : EqDecision tpc.
Proof. solve_decision. Defined.

Record ssys := mk_ssys { ss_k : ksys; ss_pc : gmap Z tpc }.
Definition pc_of (s : ssys) (t : Z) : tpc := default Out (ss_pc s !! t).
Definition set_pc (k : ksys) (s : ssys) (t : Z) (p : tpc) : ssys := mk_ssys k (<[t := p]> (ss_pc s)).

Inductive sstep : ssys → ssys → Prop :=
  | ss_enter s t timeout k r :
      pc_of s t = Out → timeout ≠ 0 → sem_wait_enter (ss_k s) t timeout = Ret (k, r) →
      sstep s (set_pc k s t (match r with WAcquired => In | WQueued => Enq | WTimedOut => Out end))
  | ss_sleep s t : pc_of s t = Enq → sstep s (set_pc (task_waitio (ss_k s) t) s t Slp)
  | ss_resume s t :
      pc_of s t = Slp → t ∉ asleep (ss_k s) →
      sstep s (set_pc (ss_k s) s t (match sem_wait_resume (ss_k s) t with WAcquired => In | _ => Out end))
  | ss_signal s t k : pc_of s t = In → sem_signal (ss_k s) = Ret k → sstep s (set_pc k s t Out)
  | ss_timer s now k when : sem_timeout (ss_k s) now = Ret (k, when) → sstep s (mk_ssys k (ss_pc s)).

Definition sem_start (max_units tick : Z) : ssys :=
  mk_ssys (mk_ksys (sem_alloc max_units) ∅ ∅ tick []) ∅.

(** [G]: the tasks a unit has been given to. *)
Definition sem_inv (max : Z) (s : ssys) : Prop :=
  let k := ss_k s in let m := ks_sem k in
  ∃ G : gset Z, 0 <= units m ∧ Z.of_nat (size G) + units m = max ∧ s_lock m = 0
    ∧ (∀ t, pc_of s t = In → t ∈ G)
    ∧ (∀ t, t ∈ G → pc_of s t = In ∨ (pc_of s t = Enq ∨ pc_of s t = Slp) ∧ t ∉ s_tasks m)
    ∧ NoDup (s_tasks m)
    ∧ (∀ t, t ∈ s_tasks m → (pc_of s t = Enq ∨ pc_of s t = Slp)
         ∧ (pc_of s t = Slp → t ∈ asleep k))
    ∧ (∀ t, (pc_of s t = Enq ∨ pc_of s t = Slp) → t ∉ s_tasks m → timeout_of k t = 1 ↔ t ∈ G).

Lemma pc_of_set k s t p u : pc_of (set_pc k s t p) u = if decide (t = u) then p else pc_of s u.
Proof.
  unfold pc_of. simpl. case_decide; [subst; by rewrite lookup_insert_eq|by rewrite lookup_insert_ne].
Qed.

Lemma timeout_of_set s t v u : timeout_of (set_timeout s t v) u = if decide (t = u) then v else timeout_of s u.
Proof.
  unfold timeout_of. simpl. case_decide; [subst; by rewrite lookup_insert_eq|by rewrite lookup_insert_ne].
Qed.

(** ** Each operation keeps the invariant *)

Lemma enter_inv max s t timeout k r :
  sem_inv max s → pc_of s t = Out → timeout ≠ 0 → sem_wait_enter (ss_k s) t timeout = Ret (k, r) →
  sem_inv max (set_pc k s t (match r with WAcquired => In | WQueued => Enq | WTimedOut => Out end)).
Proof.
  intros (G & Hu & Hsz & Hl & HIn & HG & Hnd & Hq & Ht) Hpc Hto Hent.
  unfold sem_wait_enter, spin_lock in Hent. rewrite Hl in Hent. cbn [Z.eqb obind] in Hent.
  assert (HtG : t ∉ G) by (intros Hin; destruct (HG t Hin) as [?|[[?|?] _]]; congruence).
  assert (Htq : t ∉ s_tasks (ks_sem (ss_k s))) by (intros Hin; destruct (Hq t Hin) as [[?|?] _]; congruence).
  destruct (Z.eqb_spec (units (ks_sem (ss_k s))) 0) as [Hz|Hnz].
  - rewrite (proj2 (Z.eqb_neq _ _) Hto) in Hent. injection Hent as <- <-.
    exists G. simpl. do 3 (split; [done|]). split; [|split; [|split; [|split]]].
    + intros u. rewrite pc_of_set. case_decide; [done|auto].
    + intros u Hin. rewrite pc_of_set. assert (t ≠ u) by congruence.
      rewrite decide_False by done. destruct (HG u Hin) as [?|[? ?]]; [by left|right; set_solver].
    + apply NoDup_app. split; [done|]. split; [set_solver|apply NoDup_singleton].
    + intros u [Hu'|Hu']%elem_of_app; rewrite pc_of_set.
      * assert (t ≠ u) by congruence. rewrite decide_False by done. by apply Hq.
      * apply list_elem_of_singleton in Hu' as ->. rewrite decide_True by done. naive_solver.
    + intros u. rewrite pc_of_set. intros Hp Hnin. assert (t ≠ u) by set_solver.
      rewrite decide_False in Hp by done.
      change (timeout_of _ u) with (timeout_of (set_timeout (ss_k s) t (u32 (ticks (ss_k s) + timeout))) u).
      rewrite timeout_of_set, decide_False by done. apply Ht; set_solver.
  - injection Hent as <- <-. exists ({[t]} ∪ G). simpl. split; [lia|]. split.
    { rewrite size_union by set_solver. rewrite size_singleton. lia. }
    split; [done|]. split; [|split; [|split; [done|split]]].
    + intros u. rewrite pc_of_set. case_decide; set_solver.
    + intros u Hin. rewrite pc_of_set. case_decide; [by left|]. apply HG. set_solver.
    + intros u Hin. rewrite pc_of_set. rewrite decide_False by congruence. by apply Hq.
    + intros u. rewrite pc_of_set. case_decide; [naive_solver|]. intros Hp Hn.
      change (timeout_of _ u) with (timeout_of (ss_k s) u). rewrite (Ht u Hp Hn). set_solver.
Qed.

Lemma sleep_inv max s t :
  sem_inv max s → pc_of s t = Enq → sem_inv max (set_pc (task_waitio (ss_k s) t) s t Slp).
Proof.
  intros (G & Hu & Hsz & Hl & HIn & HG & Hnd & Hq & Ht) Hpc. exists G. simpl.
  do 3 (split; [done|]). split; [|split; [|split; [done|split]]]; intros u; rewrite !pc_of_set;
    case_decide as He; subst.
  - done.
  - apply HIn.
  - intros Hin. right. destruct (HG u Hin) as [?|[_ ?]]; [congruence|]. auto.
  - apply HG.
  - intros _. split; [by right|set_solver].
  - intros Hin. destruct (Hq u Hin) as [? Hs]. split; [done|]. intros Hp. specialize (Hs Hp). set_solver.
  - intros _ Hn. apply Ht; auto.
  - apply Ht.
Qed.

Lemma resume_inv max s t :
  sem_inv max s → pc_of s t = Slp → t ∉ asleep (ss_k s) →
  sem_inv max (set_pc (ss_k s) s t (match sem_wait_resume (ss_k s) t with WAcquired => In | _ => Out end)).
Proof.
  intros (G & Hu & Hsz & Hl & HIn & HG & Hnd & Hq & Ht) Hpc Haw.
  assert (Htq : t ∉ s_tasks (ks_sem (ss_k s))) by (intros Hin; destruct (Hq t Hin); auto).
  specialize (Ht t) as Htt. unfold sem_wait_resume.
  exists G. simpl. do 3 (split; [done|]).
  destruct (Z.eqb_spec (timeout_of (ss_k s) t) 1) as [H1|H1];
    (split; [|split; [|split; [done|split]]]); intros u; rewrite !pc_of_set;
    case_decide as He; subst; auto; intros Hin; try done; try (by destruct Htq); try (by destruct Hin).
  - apply Htt; auto.
  - exfalso. apply H1, Htt; auto.
Qed.

Lemma signal_inv max s t k :
  sem_inv max s → pc_of s t = In → sem_signal (ss_k s) = Ret k → sem_inv max (set_pc k s t Out).
Proof.
  intros (G & Hu & Hsz & Hl & HIn & HG & Hnd & Hq & Ht) Hpc Hsig.
  assert (HtG : t ∈ G) by auto.
  assert (Htq : t ∉ s_tasks (ks_sem (ss_k s))) by (intros Hin; destruct (Hq t Hin) as [[?|?] _]; congruence).
  unfold sem_signal, spin_lock in Hsig. rewrite Hl in Hsig. cbn [Z.eqb obind] in Hsig.
  destruct (s_tasks (ks_sem (ss_k s))) as [|w ts] eqn:Hts; injection Hsig as <-; unfold sem_inv; simpl.
  - exists (G ∖ {[t]}). split; [lia|]. split.
    { rewrite size_difference by set_solver. rewrite size_singleton.
      assert (size G ≠ 0%nat) by (intros Hz; apply size_empty_inv in Hz; set_solver). lia. }
    split; [done|]. split; [|split; [|split; [constructor|split]]]; intros u; rewrite ?pc_of_set;
      try case_decide as He; subst; try set_solver.
  - apply NoDup_cons in Hnd as [Hwts Hnd]. assert (t ≠ w) by (clear HIn HG Hq Ht; set_solver).
    assert (Hwq : w ∈ w :: ts) by left.
    destruct (Hq w Hwq) as [Hpw _].
    assert (Hw : w ∉ G) by (intros Hin; destruct (HG w Hin) as [?|[_ Hn]]; [destruct Hpw; congruence|done]).
    exists ({[w]} ∪ (G ∖ {[t]})). split; [lia|]. split.
    { clear HIn HG Hq Ht. rewrite size_union, size_difference by set_solver. rewrite !size_singleton.
      assert (size G ≠ 0%nat) by (intros Hz; apply size_empty_inv in Hz; set_solver). lia. }
    split; [done|].
    split; [|split; [|split; [done|split]]]; intros u; rewrite ?pc_of_set;
      try case_decide as He; subst.
    + done.
    + intros Hin%HIn. clear HIn HG Hq Ht. set_solver.
    + intros Hin. clear HIn HG Hq Ht. set_solver.
    + intros [->%elem_of_singleton|[Hin _]%elem_of_difference]%elem_of_union; [right; auto|].
      destruct (HG u Hin) as [?|[? Hn]]; [by left|right; split; [done|]]. intros Hu2. apply Hn. by right.
    + intros Hin. destruct Htq. by right.
    + intros Hin. assert (u ≠ w) by congruence. destruct (Hq u) as [Hp Hs]; [by right|].
      split; [done|]. intros Hp2. specialize (Hs Hp2). clear HIn HG Hq Ht. set_solver.
    + intros [?|?]; done.
    + intros Hp Hn. change (timeout_of _ u) with (timeout_of (set_timeout (ss_k s) w 1) u).
      rewrite timeout_of_set. case_decide as Hwu; [subst; clear HIn HG Hq Ht; set_solver|].
      rewrite (Ht u Hp) by (intros [->|?]%elem_of_cons; done). clear HIn HG Hq Ht. set_solver.
Qed.

Lemma expire_spec ts : ∀ s now e0 s' keep e,
  NoDup ts → expire s now ts e0 = (s', keep, e) →
  ks_sem s' = ks_sem s ∧ NoDup keep ∧ (∀ t, t ∈ keep → t ∈ ts)
  ∧ (∀ t, t ∉ ts ∨ t ∈ keep → timeout_of s' t = timeout_of s t ∧ (t ∈ asleep s' ↔ t ∈ asleep s))
  ∧ (∀ t, t ∈ ts → t ∉ keep → timeout_of s' t = 0 ∧ t ∉ asleep s').
Proof.
  induction ts as [|t ts IH]; intros s now e0 s' keep e Hnd; simpl; [intros [= <- <- <-]; set_solver|].
  apply NoDup_cons in Hnd as [Hni Hnd]. case_if.
  - intros He. destruct (IH _ _ _ _ _ _ Hnd He) as (H1 & H2 & H3 & H4 & H5).
    assert (Hnk : t ∉ keep) by auto.
    split; [done|]. split; [done|]. split; [set_solver|]. split.
    + intros u Hu. assert (t ≠ u) by set_solver. destruct (H4 u) as [-> ->]; [set_solver|].
      unfold timeout_of at 1. simpl. rewrite lookup_insert_ne by done. split; [done|set_solver].
    + intros u Hu Hn. destruct (decide (u = t)) as [->|]; [|apply H5; set_solver].
      destruct (H4 t) as [-> ->]; [by left|]. simpl. split; [|set_solver].
      unfold timeout_of. simpl. by rewrite lookup_insert_eq.
  - set (e1 := if _ <? _ then _ else _). destruct (expire s now ts e1) as [[s1 k1] e2] eqn:He.
    intros [= <- <- <-]. destruct (IH _ _ _ _ _ _ Hnd He) as (H1 & H2 & H3 & H4 & H5).
    split; [done|]. split; [apply NoDup_cons; split; [|done]; auto|]. split; [set_solver|]. split.
    + intros u Hu. apply H4. set_solver.
    + intros u Hu Hn. apply H5; set_solver.
Qed.

Lemma timer_inv max s now k when :
  sem_inv max s → sem_timeout (ss_k s) now = Ret (k, when) → sem_inv max (mk_ssys k (ss_pc s)).
Proof.
  intros (G & Hu & Hsz & Hl & HIn & HG & Hnd & Hq & Ht) Hto.
  unfold sem_timeout, spin_lock in Hto. rewrite Hl in Hto. cbn [Z.eqb obind] in Hto.
  destruct (expire _ _ _ _) as [[s1 keep] e] eqn:He. injection Hto as <- _.
  destruct (expire_spec _ _ _ _ _ _ _ Hnd He) as (_ & H2 & H3 & H4 & H5).
  exists G. simpl. do 3 (split; [done|]). change (pc_of (mk_ssys _ (ss_pc s))) with (pc_of s).
  split; [done|]. split; [|split; [done|split]].
  - intros t Hin. destruct (HG t Hin) as [?|[? ?]]; [by left|right; split; [done|set_solver]].
  - intros t Hin. destruct (Hq t) as [Hp Hs]; [auto|]. split; [done|]. intros Hp2.
    destruct (H4 t) as [_ Hiff]; [by right|]. simpl. apply Hiff. auto.
  - intros t Hp Hn. change (timeout_of _ t) with (timeout_of s1 t).
    destruct (decide (t ∈ s_tasks (ks_sem (ss_k s)))) as [Hin|Hnin].
    + destruct (H5 t Hin Hn) as [-> _]. split; [done|]. intros HtG.
      destruct (HG t HtG) as [?|[_ ?]]; [destruct Hp; congruence|done].
    + destruct (H4 t) as [-> _]; [by left|]. by apply Ht.
Qed.

Lemma sstep_inv max s s' : sem_inv max s → sstep s s' → sem_inv max s'.
Proof.
  intros Hinv Hstep. destruct Hstep; [by eapply enter_inv|by apply sleep_inv|by apply resume_inv
    |by eapply signal_inv|by eapply timer_inv].
Qed.

Lemma sem_reachable_inv max tick s : 0 <= max → rtc sstep (sem_start max tick) s → sem_inv max s.
Proof.
  intros Hmax Hr. remember (sem_start max tick) as s0 eqn:E0.
  assert (sem_inv max s0) as Hinv.
  { subst. exists ∅. split; [done|]. split; [rewrite size_empty; simpl; lia|].
    split; [done|]. split; [intros t Hp; discriminate|]. split; [set_solver|].
    split; [constructor|]. split; [set_solver|]. intros t [Hp|Hp]; discriminate. }
  clear E0. induction Hr as [|s0 s1 s2 Hs _ IH]; [done|]. apply IH. by eapply sstep_inv.
Qed.

(** C36: a semaphore of [max] units never lets more than [max] tasks in, in
    any interleaving of waits, wake-ups, time-outs and signals of the tasks
    that hold a unit; for a mutex ([max = 1]) this is mutual exclusion. *)
Theorem sem_exclusion max tick s (T : gset Z) :
  0 <= max → rtc sstep (sem_start max tick) s → (∀ t, t ∈ T → pc_of s t = In) →
  Z.of_nat (size T) <= max.
Proof.
  intros Hmax Hr HT. destruct (sem_reachable_inv max tick s Hmax Hr) as (G & Hu & Hsz & _ & HIn & _).
  assert (T ⊆ G) as Hsub by (intros t Ht; auto). apply subseteq_size in Hsub. lia.
Qed.

(** Task 1 takes a mutex, task 2 queues up. *)
Definition contended : ssys :=
  let k1 := mk_ksys (mk_sem 0 0 [] 4294967295) ∅ ∅ 5 [] in
  let k2 := mk_ksys (mk_sem 0 0 [2] 105) {[2 := 105]} ∅ 5 [105] in
  mk_ssys k2 (<[2 := Enq]> (<[1 := In]> ∅)).

Lemma contended_reachable : rtc sstep (sem_start 1 5) contended.
Proof.
  eapply rtc_l; [apply (ss_enter _ 1 100); [done|done|vm_compute; reflexivity]|].
  eapply rtc_l; [apply (ss_enter _ 2 100); [done|done|vm_compute; reflexivity]|]. apply rtc_refl.
Qed.

Lemma sem_exclusion_witness : Z.of_nat (size ({[1]} : gset Z)) <= 1.
Proof.
  apply (sem_exclusion 1 5 contended); [lia|apply contended_reachable|].
  intros t ->%elem_of_singleton. reflexivity.
Defined.

(** ** Where waiting goes wrong *)

(** a unit signalled between the queueing and the sleep of a waiter is
    lost: [task_wakeup] finds the waiter awake, the waiter then goes to sleep
    off the queue, and the mutex is free for nobody: a reachable state with no
    holder, no unit, an empty queue and the granted task asleep. *)
Theorem sem_lost_wakeup :
  ∃ s, rtc sstep (sem_start 1 5) s ∧ units (ks_sem (ss_k s)) = 0 ∧ s_tasks (ks_sem (ss_k s)) = []
    ∧ pc_of s 1 = Out ∧ pc_of s 2 = Slp ∧ 2 ∈ asleep (ss_k s) ∧ timeout_of (ss_k s) 2 = 1.
Proof.
  eexists. split.
  { etrans; [apply contended_reachable|].
    eapply rtc_l; [apply (ss_signal _ 1); [done|vm_compute; reflexivity]|].
    eapply rtc_l; [apply (ss_sleep _ 2); done|]. apply rtc_refl. }
  vm_compute. repeat split; done.
Qed.

(** [sem_wait] with [SEM_NOWAIT] on a semaphore without units returns with
    the spin lock taken: the next operation on the semaphore never returns. *)
Theorem sem_nowait_keeps_lock s t u timeout :
  s_lock (ks_sem s) = 0 → units (ks_sem s) = 0 →
  ∃ s', sem_wait_enter s t SEM_NOWAIT = Ret (s', WTimedOut)
    ∧ sem_wait_enter s' u timeout = Halt ∧ sem_signal s' = Halt ∧ sem_timeout s' (ticks s) = Halt.
Proof.
  intros Hl Hu. unfold sem_wait_enter at 1, spin_lock. rewrite Hl. cbn [Z.eqb obind]. rewrite Hu.
  eexists. split; [reflexivity|]. done.
Qed.

Lemma sem_nowait_keeps_lock_witness :
  ∃ s', sem_wait_enter (mk_ksys (mk_sem 0 0 [] 4294967295) ∅ ∅ 5 []) 1 SEM_NOWAIT = Ret (s', WTimedOut)
    ∧ sem_signal s' = Halt.
Proof.
  destruct (sem_nowait_keeps_lock (mk_ksys (mk_sem 0 0 [] 4294967295) ∅ ∅ 5 []) 1 2 3 eq_refl eq_refl)
    as (s' & H1 & _ & H2 & _).
  exists s'. split; [exact H1|exact H2].
Defined.

(** waiting "forever" times out at once: the deadline [ticks + SEM_FOREVER]
    wraps to the tick before the wait, so the first run of [sem_timeout] takes
    the waiter off the queue and its wait returns [-ETIMEDOUT]. *)
Theorem sem_wait_forever_expires s t now :
  s_lock (ks_sem s) = 0 → units (ks_sem s) = 0 → s_tasks (ks_sem s) = [] →
  1 <= ticks s <= now → now < 4294967296 →
  ∃ s1 s2 when, sem_wait_enter s t SEM_FOREVER = Ret (s1, WQueued)
    ∧ sem_timeout s1 now = Ret (s2, when)
    ∧ s_tasks (ks_sem s2) = [] ∧ t ∉ asleep s2 ∧ sem_wait_resume s2 t = WTimedOut.
Proof.
  intros Hl Hu Hq Ht Hn. unfold sem_wait_enter, spin_lock. rewrite Hl. cbn [Z.eqb obind]. rewrite Hu, Hq.
  eexists _, _, _. split; [reflexivity|].
  assert (Hw : u32 (ticks s + SEM_FOREVER) = ticks s - 1).
  { unfold u32, SEM_FOREVER. replace (ticks s + 4294967295) with (ticks s - 1 + 1 * 4294967296) by lia.
    rewrite Z.mod_add by lia. apply Z.mod_small. lia. }
  unfold sem_timeout, spin_lock. cbn [ks_sem s_lock spin_unlock Z.eqb obind app s_tasks expire].
  set (s1 := mk_ksys _ _ _ _ _).
  assert (timeout_of s1 t = ticks s - 1) as ->.
  { unfold timeout_of, s1. simpl. rewrite lookup_insert_eq. exact Hw. }
  rewrite (proj2 (Z.leb_le _ _)) by lia. split; [reflexivity|]. simpl. split; [done|].
  split; [set_solver|]. unfold sem_wait_resume, timeout_of. simpl. by rewrite lookup_insert_eq.
Qed.

Lemma sem_wait_forever_expires_witness :
  ∃ s1 s2 when, sem_wait_enter (mk_ksys (mk_sem 0 0 [] 4294967295) ∅ ∅ 5 []) 1 SEM_FOREVER = Ret (s1, WQueued)
    ∧ sem_timeout s1 6 = Ret (s2, when)
    ∧ s_tasks (ks_sem s2) = [] ∧ 1 ∉ asleep s2 ∧ sem_wait_resume s2 1 = WTimedOut.
Proof.
  apply (sem_wait_forever_expires (mk_ksys (mk_sem 0 0 [] 4294967295) ∅ ∅ 5 []) 1 6);
    [reflexivity|reflexivity|reflexivity|simpl; lia|lia].
Defined.
