(* ===== verification/Tty.v ===== *)
(** Terminals: [src/kernel/src/tty.c].

    A terminal device has a 1024-character ring of input, a line discipline
    controlled by its [termios] flags, and driver operations.  The driver
    operations act on a world [W] and are parameters; the flags of
    [termios.h] are booleans.  Characters are signed bytes, as [char] is. *)

From S2P Require Import Prelude Ring.

Definition TTY_QUEUELEN : nat := 1024.

Record termios := mk_termios {
  ISTRIP : bool; INLCR : bool; ICRNL : bool; IUCLC : bool;        (* c_iflag *)
  ICANON : bool; ECHO : bool; ECHOE : bool; ECHONL : bool;        (* c_lflag *)
  VERASE : Z; VEOL : Z;                                           (* c_cc *)
}.

Definition default_termios : termios :=
  mk_termios true false true false true true true false 8 10.

Section Tty.
Context {W : Type}.

(** [None] is a missing operation. *)
Record tty_operations := mk_ops {
  op_putchar : option (W → Z → W);
  op_write : W → list Z → W * Z;
  op_has_write : bool;
  op_ioctl : option (W → Z → Z → W * Z);
  op_open : option (W → Z → W * Z);
  op_close : option (W → W * Z);
}.

Record tty_device := mk_dev {
  queue : list Z;
  q_read : nat;
  q_write : nat;
  ops : tty_operations;
  d_task : option Z;
  d_lock : Z;
  d_termios : termios;
  refs : Z;
}.

Definition set_queue (d : tty_device) (q : list Z) (r w : nat) : tty_device :=
  mk_dev q r w (ops d) (d_task d) (d_lock d) (d_termios d) (refs d).
Definition set_state (d : tty_device) (t : option Z) (l n : Z) : tty_device :=
  mk_dev (queue d) (q_read d) (q_write d) (ops d) t l (d_termios d) n.

(** * The input queue *)

Definition tty_queue_empty (d : tty_device) : bool := bool_decide (q_read d = q_write d).

Definition tty_putchar (w : W) (d : tty_device) (c : Z) : W :=
  match op_putchar (ops d) with
  | Some f => f w c
  | None => (op_write (ops d) w [c]).1
  end.

(** The input translations. *)
Definition translate (t : termios) (c : Z) : Z :=
  let c := if ISTRIP t then Z.land c 127 else c in
  let c := if (c =? 10) && INLCR t then 13
           else if (c =? 13) && ICRNL t then 10 else c in
  if IUCLC t && (65 <=? c) && (c <=? 90) then c - 65 + 97 else c.

(** Returns the task to wake up, if any; [waiting] tells which tasks sleep. *)
Definition tty_queue_insert (waiting : Z → bool) (w : W) (d : tty_device) (c : Z) :
    W * tty_device * option Z :=
  let t := d_termios d in
  let c := translate t c in
  let echo (d : tty_device) (w : W) :=
    if ECHO t || (ECHONL t && (c =? 10)) then tty_putchar w d c else w in
  if (c =? VERASE t) && (ICANON t || ECHOE t) then
    if tty_queue_empty d then (w, d, None)
    else let d := set_queue d (queue d) (q_read d) (retreat TTY_QUEUELEN (q_write d)) in
         (echo d w, d, None)
  else
    let q := <[q_write d := c]> (queue d) in
    let d := set_queue d q (q_read d) (advance TTY_QUEUELEN (q_write d)) in
    let wake := if (ICANON t && (c =? VEOL t)) || negb (ICANON t) then
                  match d_task d with
                  | Some k => if waiting k then Some k else None
                  | None => None
                  end
                else None in
    (echo d w, d, wake).

(** Returns -1 on an empty queue. *)
Definition tty_queue_remove (d : tty_device) : tty_device * Z :=
  if tty_queue_empty d then (d, -1)
  else (set_queue d (queue d) (q_read d) (retreat TTY_QUEUELEN (q_write d)), queue d !!! q_write d).

Definition tty_queue_getchar (d : tty_device) : tty_device * Z :=
  if tty_queue_empty d then (d, -1)
  else (set_queue d (queue d) (advance TTY_QUEUELEN (q_read d)) (q_write d), queue d !!! q_read d).

Definition tty_queue_peek (d : tty_device) : Z :=
  if tty_queue_empty d then 0 else queue d !!! retreat TTY_QUEUELEN (q_write d).

Definition tty_end_of_line (d : tty_device) : bool :=
  let c := tty_queue_peek d in (c =? 10) || (c =? VEOL (d_termios d)).

(** [memcpy] of [data] to offset [off] of [buf]. *)
Definition splice (buf : list Z) (off : nat) (data : list Z) : list Z :=
  take off buf ++ data ++ drop (off + length data) buf.

(** [off] is where in the caller's buffer the call's [buffer] points. *)
Definition tty_queue_read (d : tty_device) (buf : list Z) (off count : nat) :
    tty_device * list Z * nat :=
  if tty_queue_empty d then (d, buf, 0%nat)
  else
    let '(d, buf, n) :=
      if decide (q_write d < q_read d)%nat then
        let n := (TTY_QUEUELEN - 1 - q_read d)%nat in
        let n := if decide (count < n)%nat then count else n in
        (set_queue d (queue d) 0 (q_write d), splice buf off (take n (drop (q_read d) (queue d))), n)
      else (d, buf, 0%nat) in
    if decide (n = count) then (d, buf, n)
    else if decide (count - n < q_write d - q_read d)%nat then
      (set_queue d (queue d) (q_read d + (count - n)) (q_write d),
       splice buf off (take (count - n) (drop (q_read d) (queue d))), count)
    else
      (set_queue d (queue d) (q_write d) (q_write d),
       splice buf off (take (q_write d - q_read d) (drop (q_read d) (queue d))),
       (n + (q_write d - q_read d))%nat).

(** * File operations *)

Definition lock_dev (d : tty_device) : outcome tty_device :=
  l <~ spin_lock (d_lock d) ;; Ret (set_state d (d_task d) l (refs d)).
Definition unlock_dev (d : tty_device) : tty_device :=
  set_state d (d_task d) (spin_unlock (d_lock d)) (refs d).

(** Sleeping until input arrives: the device unlocked, then changed by the
    next of [events], then locked again. *)
Definition tty_sleep (current : Z) (d : tty_device) (events : list (tty_device → tty_device)) :
    outcome (option (tty_device * list (tty_device → tty_device))) :=
  let d := unlock_dev (set_state d (Some current) (d_lock d) (refs d)) in
  match events with
  | [] => Ret None
  | e :: events => d <~ lock_dev (e d) ;;
                   Ret (Some (set_state d None (d_lock d) (refs d), events))
  end.

(** The loop of a read outside canonical mode; [None]: still asleep. *)
Fixpoint raw_read (fuel : nat) (current : Z) (d : tty_device) (events : list (tty_device → tty_device))
    (buf : list Z) (n count : nat) : outcome (option (tty_device * list Z * nat)) :=
  if decide (count <= n)%nat then Ret (Some (unlock_dev d, buf, n))
  else match fuel with
  | O => OutOfFuel
  | S fuel =>
      r <~ (if tty_queue_empty d then tty_sleep current d events else Ret (Some (d, events))) ;;
      match r with
      | None => Ret None
      | Some (d, events) =>
          let '(d, buf, k) := tty_queue_read d buf n (count - n) in
          raw_read fuel current d events buf (n + k) count
      end
  end.

Definition tty_file_read (fuel : nat) (current : Z) (d : tty_device)
    (events : list (tty_device → tty_device)) (buf : list Z) (count : nat) :
    outcome (option (tty_device * list Z * nat)) :=
  d <~ lock_dev d ;;
  if ICANON (d_termios d) then
    r <~ (if tty_end_of_line d then Ret (Some (d, events)) else tty_sleep current d events) ;;
    match r with
    | None => Ret None
    | Some (d, _) => let '(d, buf, n) := tty_queue_read d buf 0 count in Ret (Some (unlock_dev d, buf, n))
    end
  else raw_read fuel current d events buf 0 count.

Definition tty_file_write (w : W) (d : tty_device) (data : list Z) : outcome (W * tty_device * Z) :=
  d <~ lock_dev d ;;
  let '(w, r) := if op_has_write (ops d) then op_write (ops d) w data else (w, 0) in
  Ret (w, unlock_dev d, r).

Definition tty_file_ioctl (w : W) (d : tty_device) (cmd arg : Z) : outcome (W * tty_device * Z) :=
  d <~ lock_dev d ;;
  let '(w, r) := match op_ioctl (ops d) with Some f => f w cmd arg | None => (w, 0) end in
  Ret (w, unlock_dev d, r).

Definition tty_file_isatty : Z := 1.

(** Drivers: [nminors] devices per major number. *)
Abbreviation drivers := (gmap Z (list tty_device)).

Definition tty_find_driver (ds : drivers) (major : Z) : option (list tty_device) :=
  if 256 <=? major then None else ds !! major.

Definition fresh_device (o : tty_operations) (q : list Z) : tty_device :=
  mk_dev q 0 0 o None 0 default_termios 0.

(** [alloc]: whether [kmalloc] succeeds; [register] the result of
    [register_chrdev]. *)
Definition tty_alloc_driver (ds : drivers) (major : Z) (nminors : nat) (o : tty_operations)
    (alloc : bool) (register : Z) : drivers * result (option Z) :=
  if 256 <=? major then (ds, Err EINVAL)
  else if negb alloc then (ds, Err ENOMEM)
  else
    let ds := <[major := replicate nminors (fresh_device o (replicate TTY_QUEUELEN 0))]> ds in
    if negb (register =? 0) then (ds, Ok None) else (ds, Ok (Some major)).

Fixpoint all_unused (devs : list tty_device) : outcome bool :=
  match devs with
  | [] => Ret true
  | d :: devs => _ <~ spin_lock (d_lock d) ;;
                 if negb (refs d =? 0) then Ret false else all_unused devs
  end.

Definition tty_free_driver (ds : drivers) (major unregister : Z) : outcome (drivers * result Z) :=
  if 256 <=? major then Ret (ds, Err EINVAL)
  else match ds !! major with
  | None => Halt
  | Some devs =>
      free <~ all_unused devs ;;
      if negb free then Ret (ds, Err EBUSY)
      else if negb (unregister =? 0) then Ret (ds, Ok unregister)
      else Ret (delete major ds, Ok 0)
  end.

(** Opening the device with minor number [minor]; the result code of the
    driver is returned as it is. *)
Definition tty_file_open (w : W) (ds : drivers) (major : Z) (minor : nat) (mode : Z) :
    outcome (W * drivers * result Z) :=
  match ds !! major with
  | None => Ret (w, ds, Err ENXIO)
  | Some devs =>
      match devs !! minor with
      | None => Ret (w, ds, Err ENXIO)
      | Some d =>
          let put d := <[major := <[minor := d]> devs]> ds in
          d <~ lock_dev d ;;
          let d := set_state d (d_task d) (d_lock d) (u32 (refs d + 1)) in
          match op_open (ops d) with
          | Some f =>
              if refs d =? 1 then
                let '(w, r) := f w mode in
                if negb (r =? 0) then
                  let n := u32 (refs d - 1) in
                  let d := set_state d (if n =? 0 then None else d_task d) (d_lock d) n in
                  Ret (w, put (unlock_dev d), Ok r)
                else Ret (w, put (unlock_dev d), Ok 0)
              else Ret (w, put (unlock_dev d), Ok 0)
          | None => Ret (w, put (unlock_dev d), Ok 0)
          end
      end
  end.

Definition tty_file_close (w : W) (d : tty_device) : outcome (W * tty_device * Z) :=
  d <~ lock_dev d ;;
  let '(w, r) := match op_close (ops d) with
                 | Some f => if refs d =? 1 then f w else (w, 0)
                 | None => (w, 0)
                 end in
  if negb (r =? 0) then Ret (w, unlock_dev d, r)
  else
    let n := u32 (refs d - 1) in
    Ret (w, unlock_dev (set_state d (if n =? 0 then None else d_task d) (d_lock d) n), 0).

(** * The line discipline as an editor *)

Definition dev_ok (d : tty_device) : Prop :=
  length (queue d) = TTY_QUEUELEN ∧ (q_read d < TTY_QUEUELEN)%nat ∧ (q_write d < TTY_QUEUELEN)%nat.

Definition pending (d : tty_device) : list Z := contents (queue d) (q_read d) (q_write d).

(** One typed character applied to the line so far. *)
Definition edit (t : termios) (line : list Z) (c : Z) : list Z :=
  let c := translate t c in
  if (c =? VERASE t) && (ICANON t || ECHOE t) then take (length line - 1) line else line ++ [c].

Definition type_chars (waiting : Z → bool) (w : W) (d : tty_device) (cs : list Z) : W * tty_device :=
  foldl (λ '(w, d) c, (tty_queue_insert waiting w d c).1) (w, d) cs.

Lemma empty_pending d : dev_ok d → tty_queue_empty d = true ↔ pending d = [].
Proof.
  intros (Hl & Hr & Hw). unfold tty_queue_empty, pending. rewrite bool_decide_eq_true.
  rewrite <- (fill_zero TTY_QUEUELEN) by done. rewrite <- Hl, <- contents_length.
  split; [apply nil_length_inv|by intros ->].
Qed.

Lemma insert_step waiting w d c :
  dev_ok d → (S (length (pending d)) < TTY_QUEUELEN)%nat →
  let '(w', d', _) := tty_queue_insert waiting w d c in
  dev_ok d' ∧ pending d' = edit (d_termios d) (pending d) c ∧ d_termios d' = d_termios d
  ∧ q_read d' = q_read d ∧ d_lock d' = d_lock d.
Proof.
  intros Hok Hfit. pose proof Hok as (Hl & Hr & Hw). unfold tty_queue_insert, edit.
  set (c' := translate _ _). destruct (_ && _) eqn:Her.
  - destruct (tty_queue_empty d) eqn:He.
    + apply (empty_pending d Hok) in He. rewrite He. done.
    + assert (q_read d ≠ q_write d) as Hne by (unfold tty_queue_empty in He; by apply bool_decide_eq_false in He).
      unfold dev_ok, pending. simpl. split; [|split; [|done]].
      * split; [done|]. split; [done|by apply retreat_lt].
      * pose proof (contents_unwrite (queue d) (q_read d) (q_write d)) as Hc.
        rewrite Hl in Hc. rewrite (Hc Hr Hw Hne).
        rewrite length_app, Nat.add_sub. simpl. by rewrite take_app_length.
  - unfold dev_ok, pending. simpl. split; [|split; [|done]].
    + rewrite length_insert. split; [done|]. split; [done|by apply advance_lt].
    + rewrite <- Hl. apply contents_write; rewrite Hl; done.
Qed.

Lemma edit_length t line c : (length (edit t line c) <= S (length line))%nat.
Proof. unfold edit. case_if; [rewrite length_take; lia|rewrite length_app; simpl; lia]. Qed.

Lemma edits_length t cs line : (length (foldl (edit t) line cs) <= length line + length cs)%nat.
Proof.
  revert line. induction cs as [|c cs IH]; intros line; cbn [foldl length]; [lia|].
  specialize (IH (edit t line c)). pose proof (edit_length t line c). lia.
Qed.

(** Typing that does not reach the end of the array does not wrap the ring. *)
Lemma pending_unwrapped d n :
  dev_ok d → (length (pending d) <= n)%nat → (q_read d + n < TTY_QUEUELEN)%nat → (q_read d <= q_write d)%nat.
Proof. intros (Hl & Hr & Hw). unfold pending. rewrite contents_length, Hl. unfold fill. case_decide; lia. Qed.

Lemma type_chars_spec waiting cs w d :
  dev_ok d → (length (pending d) + length cs < TTY_QUEUELEN)%nat →
  let d' := (type_chars waiting w d cs).2 in
  dev_ok d' ∧ pending d' = foldl (edit (d_termios d)) (pending d) cs ∧ d_termios d' = d_termios d
  ∧ q_read d' = q_read d ∧ d_lock d' = d_lock d.
Proof.
  unfold type_chars. revert w d. induction cs as [|c cs IH]; intros w d Hok Hfit; simpl; [done|].
  simpl in Hfit. pose proof (insert_step waiting w d c Hok ltac:(lia)) as Hs.
  destruct (tty_queue_insert waiting w d c) as [[w1 d1] k]. destruct Hs as (Hok1 & Hp & Ht & Hr & Hl). simpl.
  pose proof (edit_length (d_termios d) (pending d) c) as Hel.
  destruct (IH w1 d1 Hok1) as (H1 & H2 & H3 & H4 & H5); [rewrite Hp; lia|].
  rewrite H2, Hp, Ht, H3, H4, H5. done.
Qed.

(** A read that does not wrap takes the oldest characters. *)
Lemma queue_read_slice d buf off count :
  dev_ok d → (q_read d <= q_write d)%nat →
  let '(d', buf', n) := tty_queue_read d buf off count in
  n = length (take count (pending d)) ∧ buf' = splice buf off (take count (pending d))
  ∧ pending d' = drop count (pending d) ∧ dev_ok d' ∧ d_lock d' = d_lock d.
Proof.
  intros Hok Hrw. pose proof Hok as (Hl & Hr & Hw). unfold tty_queue_read.
  pose proof (contents_slice (queue d) (q_read d) (q_write d) Hrw ltac:(lia)) as Hc.
  pose proof (contents_length (queue d) (q_read d) (q_write d)) as Hlen.
  unfold fill in Hlen. rewrite decide_True in Hlen by done.
  assert (Hsp : splice buf off [] = buf).
  { unfold splice. simpl. by rewrite Nat.add_0_r, take_drop. }
  destruct (tty_queue_empty d) eqn:He.
  - apply (empty_pending d Hok) in He. by rewrite He, take_nil, drop_nil.
  - rewrite decide_False by lia. unfold pending in *. case_decide as H0.
    + subst count. rewrite take_0, drop_0. done.
    + rewrite Nat.sub_0_r. case_decide as Hcount; simpl.
      * rewrite Hc at 2. rewrite take_take, Nat.min_l by lia. rewrite length_take, Hlen.
        split; [lia|]. split; [done|]. split; [|split; [split; simpl; lia|done]].
        rewrite !contents_slice, skipn_firstn_comm, drop_drop by lia. f_equal. lia.
      * rewrite (take_ge (contents (queue d) (q_read d) (q_write d))) by lia.
        rewrite (drop_ge (contents (queue d) (q_read d) (q_write d))) by lia. rewrite Hlen. split; [done|]. rewrite Hc. split; [done|].
        split; [|split; [split; simpl; lia|done]]. apply nil_length_inv. rewrite contents_length.
        apply fill_zero; lia.
Qed.


(** opening and closing a terminal are inverse on the device: an open
    followed by a close restores the reference count and leaves the device
    unlocked; an open the driver refuses changes nothing but the driver's own
    state and returns the driver's code. *)
Theorem tty_open_close w ds major minor mode devs d :
  ds !! major = Some devs → devs !! minor = Some d → d_lock d = 0 → 0 <= refs d < 4294967295 →
  ∃ w' ds' r, tty_file_open w ds major minor mode = Ret (w', ds', Ok r)
    ∧ ∃ d', (devs' ← ds' !! major; devs' !! minor) = Some d' ∧ d_lock d' = 0
      ∧ (r ≠ 0 → refs d' = refs d ∧ pending d' = pending d)
      ∧ (r = 0 → refs d' = refs d + 1
           ∧ (op_close (ops d) = None → ∃ w2 d2, tty_file_close w' d' = Ret (w2, d2, 0)
                ∧ refs d2 = refs d ∧ d_lock d2 = 0 ∧ pending d2 = pending d)).
Proof.
  intros Hds Hdev Hlk Hrefs. unfold tty_file_open. rewrite Hds, Hdev.
  unfold lock_dev, spin_lock. rewrite Hlk. cbn [Z.eqb obind ops set_state refs d_task d_lock].
  set (n1 := u32 (refs d + 1)). assert (Hn1 : n1 = refs d + 1) by (unfold n1; u32s; done).
  assert (Hput : ∀ x : tty_device, ((<[major:=<[minor:=x]> devs]> ds !! major) ≫= λ devs', devs' !! minor) = Some x).
  { intros x. rewrite lookup_insert_eq. simpl. apply list_lookup_insert_eq. by eapply lookup_lt_Some. }
  assert (Hclose : ∀ w' : W, op_close (ops d) = None → ∃ w2 d2,
     tty_file_close w' (unlock_dev (set_state (set_state d (d_task d) 1 (refs d)) (d_task d) 1 n1)) = Ret (w2, d2, 0)
     ∧ refs d2 = refs d ∧ d_lock d2 = 0 ∧ pending d2 = pending d).
  { intros w' Hc. unfold tty_file_close, lock_dev. simpl. rewrite Hc. simpl. eexists _, _.
    split; [reflexivity|]. simpl. rewrite Hn1. u32s. split; [lia|done]. }
  destruct (op_open (ops d)) as [f|]; [|eexists _, _, _; split; [reflexivity|]; eexists; split; [apply Hput|];
    split; [done|]; split; [done|]; split; [done|auto]].
  destruct (n1 =? 1); [|eexists _, _, _; split; [reflexivity|]; eexists; split; [apply Hput|];
    split; [done|]; split; [done|]; split; [done|auto]].
  destruct (f w mode) as [w' r]. destruct (Z.eqb_spec r 0) as [->|Hr]; cbn [negb].
  - eexists _, _, _. split; [reflexivity|]. eexists. split; [apply Hput|]. split; [done|].
    split; [done|]. auto.
  - eexists _, _, _. split; [reflexivity|]. eexists. split; [apply Hput|]. split; [done|].
    split; [|done]. intros _. simpl. rewrite Hn1. u32s. split; [lia|done].
Qed.
End Tty.

Arguments tty_device W : clear implicits.

(** * Runs *)

Definition echo_ops : tty_operations (W := list Z) :=
  mk_ops (Some (λ w c, w ++ [c])) (λ w data, (w ++ data, Z.of_nat (length data))) true None None None.
Definition demo_tty : tty_device (list Z) := fresh_device echo_ops (replicate TTY_QUEUELEN 0).


Lemma tty_open_close_witness :
  ∃ w' ds' r, tty_file_open [] {[ 4 := [demo_tty] ]} 4 0 0 = Ret (w', ds', Ok r).
Proof.
  destruct (tty_open_close [] {[ 4 := [demo_tty] ]} 4 0 0 [demo_tty] demo_tty) as (w' & ds' & r & H & _);
    [reflexivity|reflexivity|reflexivity|vm_compute; split; congruence|].
  exists w', ds', r. exact H.
Defined.

(** a read of input that wraps around the queue's end does not return
    it: of the characters at positions 1022, 1023 and 0 the second is dropped
    and the third is copied over the first. *)
Theorem tty_wrapped_read_loses :
  let d := set_queue demo_tty (<[1022%nat := 97]> (<[1023%nat := 98]> (<[0%nat := 99]> (queue demo_tty)))) 1022 1 in
  pending d = [97; 98; 99]
  ∧ (tty_queue_read d [0; 0; 0; 0] 0 4).1.2 = [99; 0; 0; 0] ∧ (tty_queue_read d [0; 0; 0; 0] 0 4).2 = 2%nat.
Proof. vm_compute. done. Qed.

(** [tty_queue_remove] returns the character at the write position, one
    behind the last inserted one. *)
Theorem tty_queue_remove_stale :
  let d := (type_chars (λ _, false) [] demo_tty [97; 98]).2 in
  pending d = [97; 98] ∧ (tty_queue_remove d).2 = 0 ∧ pending (tty_queue_remove d).1 = [97].
Proof. vm_compute. done. Qed.
