(* ===== verification/Rtc.v ===== *)
(** The real-time clock: [src/kernel/src/cmos.c].

    The clock chip is a register file read through a pair of ports; a reading
    of the six time registers is a [stamp].  [rtc_read] repeats the reading
    until two agree and converts the result to seconds since 1970. *)

From S2P Require Import Prelude.

Definition mon_to_days : list Z := [0; 31; 59; 90; 120; 151; 181; 212; 243; 273; 304; 334; 365].

(** * Ports *)

(** The state of the NMI mask bit and the last register selected. *)
Record cmos := mk_cmos { g_nmi_state : Z; selected : Z; regs : Z → Z }.

Definition cmos_nmi_set (c : cmos) (state : Z) : cmos * Z :=
  let new := if 0 <? state then 1 else 0 in
  (mk_cmos new (u8 (Z.shiftl new 7)) (regs c), g_nmi_state c).

Definition cmos_read (c : cmos) (reg : Z) : cmos * Z :=
  let sel := u8 (Z.lor (Z.shiftl (g_nmi_state c) 7) (Z.land reg 127)) in
  (mk_cmos (g_nmi_state c) sel (regs c), u8 (regs c (Z.land sel 127))).

Definition cmos_write (c : cmos) (reg v : Z) : cmos :=
  let sel := u8 (Z.lor (Z.shiftl (g_nmi_state c) 7) (Z.land reg 127)) in
  mk_cmos (g_nmi_state c) sel (λ r, if r =? Z.land sel 127 then u8 v else regs c r).

(** * Time *)

Record stamp := mk_stamp { t_s : Z; t_m : Z; t_h : Z; t_d : Z; t_mo : Z; t_y : Z }.

#[global] Instance stamp_eq_dec : EqDecision stamp.
Proof. solve_decision. Defined.

(** Read again until a reading equals the one before it; [reads] are the
    successive readings of the chip. *)
Fixpoint settle (reads : list stamp) (last : stamp) : outcome stamp :=
  match reads with
  | [] => OutOfFuel
  | t :: reads => if decide (t = last) then Ret t else settle reads t
  end.

Definition from_bcd (v : Z) : Z := u8 (Z.land v 15 + Z.shiftr v 4 * 10).
Definition hour_from_bcd (h : Z) : Z :=
  u8 (Z.land h 15 + Z.lor (Z.shiftr (Z.land h 112) 4 * 10) (Z.land h 128)).

(** The conversion of a settled reading, [stb] being status register B. *)
Definition to_seconds (stb : Z) (t : stamp) : Z :=
  let bcd := Z.land stb 4 =? 0 in
  let s := if bcd then from_bcd (t_s t) else t_s t in
  let m := if bcd then from_bcd (t_m t) else t_m t in
  let h := if bcd then hour_from_bcd (t_h t) else t_h t in
  let d := if bcd then from_bcd (t_d t) else t_d t in
  let mo := if bcd then from_bcd (t_mo t) else t_mo t in
  let y := if bcd then from_bcd (t_y t) + 100 else t_y t in
  let h := if (Z.land stb 2 =? 0) && negb (Z.land h 8 =? 0)
           then u8 (Z.rem (Z.land h 127 + 12) 24) else h in
  let d := if (2 <? mo) && (Z.rem (y + 1900) 4 =? 0) then u8 (d + 1) else d in
  s32 (s + m * 60 + h * 3600 + (d - 1 + mon_to_days !!! Z.to_nat (mo - 1)) * 86400
       + (y - 70) * 31536000 + Z.quot (y - 69) 4 * 86400 - Z.quot (y - 1) 100 * 86400
       + Z.quot (y + 299) 400 * 86400).

Definition rtc_read (reads : list stamp) (stb : Z) : outcome Z :=
  match reads with
  | [] => OutOfFuel
  | t :: reads => t <~ settle reads t ;; Ret (to_seconds stb t)
  end.

(** * The Gregorian calendar *)

Definition leap (y : Z) : bool :=
  (y mod 4 =? 0) && (negb (y mod 100 =? 0) || (y mod 400 =? 0)).
Definition year_days (y : Z) : Z := if leap y then 366 else 365.
Definition month_days (y mo : Z) : Z :=
  if mo =? 2 then (if leap y then 29 else 28)
  else if (mo =? 4) || (mo =? 6) || (mo =? 9) || (mo =? 11) then 30 else 31.

(** Days from 1 January 1970 to 1 January of year [1970 + n]. *)
Fixpoint days_to_year (n : nat) : Z :=
  match n with O => 0 | S n => days_to_year n + year_days (1970 + Z.of_nat n) end.
(** Days from 1 January to the first of month [1 + n]. *)
Fixpoint days_to_month (y : Z) (n : nat) : Z :=
  match n with O => 0 | S n => days_to_month y n + month_days y (1 + Z.of_nat n) end.

Definition days_of (y mo d : Z) : Z :=
  days_to_year (Z.to_nat (y - 1970)) + days_to_month y (Z.to_nat (mo - 1)) + (d - 1).
Definition unix_time (y mo d h m s : Z) : Z := days_of y mo d * 86400 + h * 3600 + m * 60 + s.

Definition to_bcd (v : Z) : Z := Z.shiftl (v / 10) 4 + v mod 10.

(** Checks over a finite range are evaluated. *)
Lemma range_check (P : Z → bool) (n : nat) :
  forallb P (seqZ 0 (Z.of_nat n)) = true → ∀ v, 0 <= v < Z.of_nat n → P v = true.
Proof.
  intros H v Hv. rewrite forallb_forall in H. apply H. apply list_elem_of_In, elem_of_seqZ. lia.
Qed.

Lemma from_to_bcd v : 0 <= v < 100 → from_bcd (to_bcd v) = v.
Proof.
  intros H. apply Z.eqb_eq. apply (range_check (λ v, from_bcd (to_bcd v) =? v) 100); [|lia].
  vm_compute. reflexivity.
Qed.

Lemma hour_from_to_bcd v : 0 <= v < 24 → hour_from_bcd (to_bcd v) = v.
Proof.
  intros H. apply Z.eqb_eq. apply (range_check (λ v, hour_from_bcd (to_bcd v) =? v) 24); [|lia].
  vm_compute. reflexivity.
Qed.

(** The day count of [rtc_read] for year [1900 + y], month [mo], day 1. *)
Definition code_days (y mo : Z) : Z :=
  mon_to_days !!! Z.to_nat (mo - 1) + (if (2 <? mo) && (Z.rem (y + 1900) 4 =? 0) then 1 else 0)
  + (y - 70) * 365 + Z.quot (y - 69) 4 - Z.quot (y - 1) 100 + Z.quot (y + 299) 400.

(** The month numbered [k] from January 2000, by the code and the calendar. *)
Definition month_check (k : Z) : bool :=
  (code_days (100 + k / 12) (1 + k mod 12) =? days_of (2000 + k / 12) (1 + k mod 12) 1)
  && (0 <=? days_of (2000 + k / 12) (1 + k mod 12) 1).

Lemma month_split y mo :
  1 <= mo <= 12 → ((y - 100) * 12 + (mo - 1)) / 12 = y - 100 ∧ ((y - 100) * 12 + (mo - 1)) mod 12 = mo - 1.
Proof.
  intros H. split; [rewrite Z.div_add_l, (Z.div_small (mo - 1)); lia|].
  rewrite Z.add_comm, Z.mod_add, Z.mod_small; lia.
Qed.

Lemma month_check_all : forallb month_check (seqZ 0 (Z.of_nat 1200)) = true.
Proof. vm_compute. reflexivity. Qed.

Lemma code_days_ok y mo :
  100 <= y < 200 → 1 <= mo <= 12 →
  code_days y mo = days_of (1900 + y) mo 1 ∧ 0 <= days_of (1900 + y) mo 1.
Proof.
  intros Hy Hmo. pose proof (range_check month_check 1200 month_check_all ((y - 100) * 12 + (mo - 1)) ltac:(lia)) as H.
  unfold month_check in H. destruct (month_split y mo Hmo) as [E1 E2]. rewrite E1, E2 in H.
  replace (100 + (y - 100)) with y in H by lia.
  replace (1 + (mo - 1)) with mo in H by lia. replace (2000 + (y - 100)) with (1900 + y) in H by lia.
  apply andb_true_iff in H as [H1 H2]. split; [by apply Z.eqb_eq|by apply Z.leb_le].
Qed.

Lemma days_bound_check : forallb (λ k, days_of (2000 + k / 12) (1 + k mod 12) 1 <=? 24806) (seqZ 0 (Z.of_nat 456)) = true.
Proof. vm_compute. reflexivity. Qed.

Lemma year_bound y mo : 100 <= y <= 137 → 1 <= mo <= 12 → days_of (1900 + y) mo 1 <= 24806.
Proof.
  intros Hy Hmo. pose proof (range_check _ 456 days_bound_check ((y - 100) * 12 + (mo - 1)) ltac:(lia)) as H.
  cbv beta in H. destruct (month_split y mo Hmo) as [E1 E2]. rewrite E1, E2 in H.
  replace (1 + (mo - 1)) with mo in H by lia. replace (2000 + (y - 100)) with (1900 + y) in H by lia.
  by apply Z.leb_le.
Qed.

(** The register contents of a clock in BCD and 24-hour mode. *)
Definition bcd_stamp (y mo d h m s : Z) : stamp :=
  mk_stamp (to_bcd s) (to_bcd m) (to_bcd h) (to_bcd d) (to_bcd mo) (to_bcd (y - 2000)).

Lemma hour_kept stb h : Z.land stb 2 ≠ 0 →
  (if (Z.land stb 2 =? 0) && negb (Z.land h 8 =? 0) then u8 (Z.rem (Z.land h 127 + 12) 24) else h) = h.
Proof. intros H. by rewrite (proj2 (Z.eqb_neq _ _) H). Qed.

(** C39: for a clock in BCD, 24-hour mode showing any valid date and time from
    2000 to 2037, [rtc_read] returns, when its first two readings agree, the
    number of seconds since 1 January 1970 in the Gregorian calendar. *)
Theorem rtc_read_correct rest stb y mo d h m s :
  Z.land stb 4 = 0 → Z.land stb 2 ≠ 0 →
  2000 <= y <= 2037 → 1 <= mo <= 12 → 1 <= d <= month_days y mo →
  0 <= h < 24 → 0 <= m < 60 → 0 <= s < 60 →
  let t := bcd_stamp y mo d h m s in
  rtc_read (t :: t :: rest) stb = Ret (unix_time y mo d h m s).
Proof.
  intros H4 H2 Hy Hmo Hd Hh Hm Hs t. unfold rtc_read, settle. rewrite decide_True by done. simpl obind.
  f_equal. unfold to_seconds. rewrite H4. cbn [Z.eqb t_s t_m t_h t_d t_mo t_y t bcd_stamp].
  assert (Hd31 : d <= 31).
  { unfold month_days in Hd. repeat case_if_in Hd; lia. }
  rewrite !from_to_bcd, hour_from_to_bcd by lia. rewrite hour_kept by done.
  replace (y - 2000 + 100) with (y - 1900) by lia. set (y' := y - 1900).
  assert (Hday : ∀ c : bool, (if c then u8 (d + 1) else d) = d + (if c then 1 else 0)).
  { intros []; [rewrite u8_small by lia|]; lia. }
  rewrite Hday. destruct (code_days_ok y' mo ltac:(lia) Hmo) as [Hc Hpos].
  pose proof (year_bound y' mo ltac:(lia) Hmo) as Hb. unfold code_days in Hc.
  replace (1900 + y') with y in Hc, Hpos, Hb by lia.
  set (ld := if _ && _ then 1 else 0) in *. set (md := mon_to_days !!! _) in *.
  set (q1 := Z.quot (y' - 69) 4) in *. set (q2 := Z.quot (y' - 1) 100) in *.
  set (q3 := Z.quot (y' + 299) 400) in *.
  unfold unix_time. assert (Hdays : days_of y mo d = days_of y mo 1 + (d - 1)) by (unfold days_of; lia).
  rewrite Hdays. replace (_ + _ + _ + _ + _ + _ - _ + _)
    with ((days_of y mo 1 + (d - 1)) * 86400 + h * 3600 + m * 60 + s) by lia.
  apply s32_small. lia.
Qed.

(** 29 February 2016, 12:34:56. *)
Lemma rtc_read_correct_witness :
  rtc_read [bcd_stamp 2016 2 29 12 34 56; bcd_stamp 2016 2 29 12 34 56] 2 = Ret 1456749296.
Proof.
  exact (rtc_read_correct [] 2 2016 2 29 12 34 56 eq_refl ltac:(done) ltac:(lia) ltac:(lia)
    ltac:(vm_compute; split; congruence) ltac:(lia) ltac:(lia) ltac:(lia)).
Defined.

(** in 12-hour mode the afternoon bit (0x80) is not the bit tested (0x08):
    eight in the morning is read as eight in the evening, and one in the
    afternoon as hour 129. *)
Theorem rtc_twelve_hour_wrong :
  to_seconds 0 (mk_stamp 0 0 8 1 1 22) = unix_time 2016 1 1 20 0 0
  ∧ to_seconds 0 (mk_stamp 0 0 129 1 1 22) = unix_time 2016 1 1 0 0 0 + 129 * 3600.
Proof. vm_compute. done. Qed.

(** in binary mode the century is not added to the year: 1 January 2016 is
    returned as a time 36524 days (a century) earlier, before the epoch. *)
Theorem rtc_binary_year_wrong :
  to_seconds 6 (mk_stamp 0 0 0 1 1 16) = unix_time 2016 1 1 0 0 0 - 36524 * 86400
  ∧ to_seconds 6 (mk_stamp 0 0 0 1 1 16) < 0.
Proof. vm_compute. done. Qed.
