(* ===== verification/Message.v ===== *)
(** Messages between tasks: [src/kernel/src/message.c].

    Each task has a locked queue of messages, oldest first.  The size limit
    and the "any" identifier come from the C library's [sys/message.h] and are
    parameters; the flags of a receive are booleans. *)

From S2P Require Import Prelude.

Section Message.
Context (MESG_MAX_LENGTH MESG_ANY : Z).

Record message_t := mk_message { from : Z; id : Z; length_ : Z; data : list Z }.

#[local] Instance message_eq_dec : EqDecision message_t.
Proof. solve_decision. Defined.

Record mtask := mk_mtask {
  mq_lock : Z;
  mq : list message_t;
  wait_mesg : bool;      (* t_flags & TF_WAITMESG *)
}.

(** Tasks by process id. *)
Abbreviation mtasks := (gmap Z mtask).

Definition set_mq (t : mtask) (l : Z) (q : list message_t) : mtask := mk_mtask l q (wait_mesg t).
Definition wake (t : mtask) : mtask := mk_mtask (mq_lock t) (mq t) false.

(** [alloc]: whether [kmalloc] succeeds. *)
Definition sys_message_send (ts : mtasks) (current pid type : Z) (what : list Z) (alloc : bool) :
    outcome (mtasks * result unit) :=
  if MESG_MAX_LENGTH <? Z.of_nat (length what) then Ret (ts, Err E2BIG)
  else match ts !! pid with
  | None => Ret (ts, Err ENOENT)
  | Some who =>
      if negb alloc then Ret (ts, Err ENOMEM)
      else
        let m := mk_message current type (Z.of_nat (length what)) what in
        l <~ spin_lock (mq_lock who) ;;
        let who := set_mq who (spin_unlock l) (mq who ++ [m]) in
        let who := if wait_mesg who then wake who else who in
        Ret (<[pid := who]> ts, Ok tt)
  end.

(** The [list_for_each]: the first message that matches, and the queue
    without it. *)
Fixpoint pick (q : list message_t) (wanted : Z) : option (message_t * list message_t) :=
  match q with
  | [] => None
  | m :: q => if (id m =? wanted) || (wanted =? MESG_ANY) then Some (m, q)
              else match pick q wanted with
                   | Some (x, rest) => Some (x, m :: rest)
                   | None => None
                   end
  end.

Inductive pop_result : Type :=
  | PopNone                      (* returned 0: the queue was empty *)
  | PopGot (m : message_t)       (* returned 1 *)
  | PopErr (e : errno)
  | PopBlocked.                  (* asleep in task_wait *)

(** The part of [sys_message_pop] behind the wait, with the lock held. *)
Definition pop_scan (ts : mtasks) (current wanted : Z) (leave : bool) (me : mtask) : mtasks * pop_result :=
  match pick (mq me) wanted with
  | Some (m, rest) =>
      (<[current := set_mq me (spin_unlock (mq_lock me)) (if leave then mq me else rest)]> ts, PopGot m)
  | None => (<[current := set_mq me (spin_unlock (mq_lock me)) (mq me)]> ts, PopErr ENOENT)
  end.

(** [during]: what other tasks do while this one sleeps; [None] when nobody
    wakes it. *)
Definition sys_message_pop (ts : mtasks) (current wanted : Z) (wait leave : bool)
    (during : option (mtasks → mtasks)) : outcome (mtasks * pop_result) :=
  match ts !! current with
  | None => Halt
  | Some me =>
      l <~ spin_lock (mq_lock me) ;;
      match mq me with
      | [] =>
          let me := set_mq me (spin_unlock l) [] in
          if wait then
            let ts := <[current := mk_mtask (mq_lock me) (mq me) true]> ts in
            match during with
            | None => Ret (ts, PopBlocked)
            | Some f =>
                let ts := f ts in
                match ts !! current with
                | None => Halt
                | Some me => l <~ spin_lock (mq_lock me) ;;
                             Ret (pop_scan ts current wanted leave (set_mq me l (mq me)))
                end
            end
          else Ret (<[current := me]> ts, PopNone)
      | _ => Ret (pop_scan ts current wanted leave (set_mq me l (mq me)))
      end
  end.

(** * What senders and receivers rely on *)

Definition matches (wanted : Z) (m : message_t) : bool := (id m =? wanted) || (wanted =? MESG_ANY).

Lemma pick_spec q wanted m rest :
  pick q wanted = Some (m, rest) →
  ∃ q1 q2, q = q1 ++ m :: q2 ∧ rest = q1 ++ q2 ∧ matches wanted m = true
    ∧ Forall (λ x, matches wanted x = false) q1.
Proof.
  revert rest. induction q as [|x q IH]; intros rest; simpl; [done|].
  fold (matches wanted x). destruct (matches wanted x) eqn:Hm.
  - intros [= -> ->]. by exists [], rest.
  - destruct (pick q wanted) as [[y r]|]; [|done]. simpl. intros [= -> <-].
    destruct (IH r eq_refl) as (q1 & q2 & -> & -> & H1 & H2).
    exists (x :: q1), q2. repeat split; [done|]. by constructor.
Qed.

Lemma pick_None q wanted : pick q wanted = None ↔ Forall (λ x, matches wanted x = false) q.
Proof.
  induction q as [|x q IH]; simpl; [done|]. fold (matches wanted x). rewrite Forall_cons.
  destruct (matches wanted x); [naive_solver|]. destruct (pick q wanted) as [[y r]|]; naive_solver.
Qed.

Lemma send_spec ts current pid type what who :
  Z.of_nat (length what) <= MESG_MAX_LENGTH → ts !! pid = Some who → mq_lock who = 0 →
  sys_message_send ts current pid type what true =
  Ret (<[pid := mk_mtask 0 (mq who ++ [mk_message current type (Z.of_nat (length what)) what]) false]> ts, Ok tt).
Proof.
  intros Hlen Hwho Hlk. unfold sys_message_send. rewrite (proj2 (Z.ltb_ge _ _)), Hwho by lia. simpl.
  unfold spin_lock. rewrite Hlk. simpl.
  destruct (wait_mesg who) eqn:E; [done|]. unfold set_mq. by rewrite E.
Qed.

(** messages are delivered to the addressed task, whole and in order: a
    send of at most the maximal length appends the message, with the sender's
    identity, to the receiver's queue, wakes the receiver and touches no other
    task. *)
Theorem message_send_appends ts current pid type what who :
  Z.of_nat (length what) <= MESG_MAX_LENGTH → ts !! pid = Some who → mq_lock who = 0 →
  ∃ ts', sys_message_send ts current pid type what true = Ret (ts', Ok tt)
    ∧ ts' !! pid = Some (mk_mtask 0 (mq who ++ [mk_message current type (Z.of_nat (length what)) what]) false)
    ∧ ∀ p, p ≠ pid → ts' !! p = ts !! p.
Proof.
  intros Hlen Hwho Hlk. eexists. split; [by apply send_spec|].
  split; [apply lookup_insert_eq|]. intros p Hp. by apply lookup_insert_ne.
Qed.

(** a receive from a non-empty queue returns the oldest message with the
    wanted identifier (the oldest of all for [MESG_ANY]) and removes exactly
    it, keeping the order of the others, or removes nothing with
    [MESG_POP_LEAVE]; without such a message it returns [-ENOENT] and changes
    nothing.  The queue is unlocked in every case. *)
Theorem message_pop_oldest ts current me wanted wait leave during :
  ts !! current = Some me → mq_lock me = 0 → mq me ≠ [] →
  ∃ ts' r me', sys_message_pop ts current wanted wait leave during = Ret (ts', r)
    ∧ ts' !! current = Some me' ∧ mq_lock me' = 0 ∧ (∀ p, p ≠ current → ts' !! p = ts !! p)
    ∧ match r with
      | PopGot m => ∃ q1 q2, mq me = q1 ++ m :: q2 ∧ matches wanted m = true
          ∧ Forall (λ x, matches wanted x = false) q1 ∧ mq me' = if leave then mq me else q1 ++ q2
      | PopErr ENOENT => Forall (λ x, matches wanted x = false) (mq me) ∧ mq me' = mq me
      | _ => False
      end.
Proof.
  intros Hme Hlk Hq. unfold sys_message_pop, spin_lock. rewrite Hme, Hlk. cbn [Z.eqb obind].
  destruct (mq me) as [|m0 q0] eqn:Eq; [done|]. unfold pop_scan. cbn [set_mq mq mq_lock].
  destruct (pick (m0 :: q0) wanted) as [[m rest]|] eqn:Hp; eexists _, _, _; (split; [reflexivity|]);
    (split; [apply lookup_insert_eq|]); (split; [done|]);
    (split; [intros p Hne; by apply lookup_insert_ne|]).
  - apply pick_spec in Hp as (q1 & q2 & H1 & -> & H2 & H3). exists q1, q2. split; [done|].
    split; [done|]. split; [done|]. simpl. by rewrite H1.
  - apply pick_None in Hp. done.
Qed.
End Message.

Lemma message_send_appends_witness :
  ∃ ts', sys_message_send 64 {[ 5 := mk_mtask 0 [] true ]} 3 5 9 [1; 2] true = Ret (ts', Ok tt)
    ∧ ts' !! 5 = Some (mk_mtask 0 [mk_message 3 9 2 [1; 2]] false).
Proof.
  destruct (message_send_appends 64 {[ 5 := mk_mtask 0 [] true ]} 3 5 9 [1; 2] (mk_mtask 0 [] true))
    as (ts' & H1 & H2 & _); [simpl; lia|reflexivity|reflexivity|].
  by exists ts'.
Defined.

Lemma message_pop_oldest_witness :
  ∃ ts' r me', sys_message_pop 99 {[ 5 := mk_mtask 0 [mk_message 3 9 0 []; mk_message 4 8 0 []] false ]} 5 8 false false None
      = Ret (ts', r) ∧ ts' !! 5 = Some me' ∧ mq_lock me' = 0.
Proof.
  destruct (message_pop_oldest 99 {[ 5 := mk_mtask 0 [mk_message 3 9 0 []; mk_message 4 8 0 []] false ]} 5
    (mk_mtask 0 [mk_message 3 9 0 []; mk_message 4 8 0 []] false) 8 false false None)
    as (ts' & r & me' & H1 & H2 & H3 & _); [reflexivity|reflexivity|discriminate|].
  by exists ts', r, me'.
Defined.

(** waiting for a particular message does not wait for it: a task asleep
    in [sys_message_pop] is woken by a message with any identifier and then
    returns [-ENOENT], although a wait was asked for. *)
Theorem message_wait_wrong_id :
  let ts := {[ 5 := mk_mtask 0 [] false ]} in
  let deliver ts := match sys_message_send 64 ts 3 5 9 [1] true with Ret (ts, _) => ts | _ => ts end in
  match sys_message_pop 99 ts 5 8 true false (Some deliver) with
  | Ret (_, r) => r = PopErr ENOENT
  | _ => False
  end.
Proof. vm_compute. done. Qed.
