(* ===== verification/Event.v ===== *)
(** Input events: [src/kernel/src/event.c].

    Raised events wait in a list, the newest first; the monitor task takes
    them from the other end and offers each to the handlers whose mask
    contains its type, the most recently registered handler first.  Handler
    functions act on a world [W]; they are parameters.  The two mutexes are
    uncontended here ([Sem] covers contention). *)

From S2P Require Import Prelude.

Inductive event_result : Set := EVENT_REMOVE | EVENT_CONTINUE | EVENT_OTHER.

Record event_t := mk_event { ev_type : Z; ev_event : Z; ev_value : Z }.

Section Event.
Context {W : Type} (eh_event : Z → event_t → Z → W → W * event_result).

Record event_handler := mk_handler { eh_addr : Z; eh_mask : Z; eh_fn : Z; eh_data : Z }.

Record events := mk_events {
  event_handlers : list event_handler;
  event_list : list event_t;
  monitor_woken : bool;
}.

(** [event_init]: both mutexes must be allocated; the test of the second one
    looks at the first. *)
Definition event_init (mutex1 mutex2 : bool) : result unit :=
  if negb mutex1 then Err ENOMEM
  else if negb mutex1 then Err ENOMEM
  else Ok tt.

(** The number of one bits of a 32-bit value. *)
Definition BITCOUNT (x : Z) : Z :=
  foldr Z.add 0 ((λ i, if Z.testbit x i then 1 else 0) <$> seqZ 0 32).

Definition event_raise (s : events) (type code value : Z) (alloc : bool) : events * result unit :=
  if negb (BITCOUNT type =? 1) then (s, Err EINVAL)
  else if negb alloc then (s, Err ENOMEM)
  else
    let l := mk_event type code value :: event_list s in
    (mk_events (event_handlers s) l (bool_decide (event_list s = []) || monitor_woken s), Ok tt).

Definition event_listen (s : events) (mask fn data : Z) (alloc : option Z) : events * result event_handler :=
  if mask =? 0 then (s, Err EINVAL)
  else match alloc with
  | None => (s, Err ENOMEM)
  | Some a => let h := mk_handler a mask fn data in
              (mk_events (h :: event_handlers s) (event_list s) (monitor_woken s), Ok h)
  end.

(** [None] is a NULL handler. *)
Definition event_unlisten (s : events) (handler : option Z) : events * result unit :=
  match handler with
  | None => (s, Err EINVAL)
  | Some a => (mk_events (filter (λ h, eh_addr h ≠ a) (event_handlers s)) (event_list s) (monitor_woken s), Ok tt)
  end.

(** The loop over the handlers. *)
Fixpoint dispatch (w : W) (ev : event_t) (hs : list event_handler) : W :=
  match hs with
  | [] => w
  | h :: hs =>
      if Z.land (eh_mask h) (ev_type ev) =? 0 then dispatch w ev hs
      else match eh_event (eh_fn h) ev (eh_data h) w with
           | (w, EVENT_REMOVE) => w
           | (w, _) => dispatch w ev hs
           end
  end.

(** One round of [event_monitor] with an event queued: the oldest is taken. *)
Definition event_monitor_step (w : W) (s : events) : option (W * events) :=
  match last (event_list s) with
  | None => None
  | Some ev => Some (dispatch w ev (event_handlers s),
                     mk_events (event_handlers s) (take (length (event_list s) - 1) (event_list s)) (monitor_woken s))
  end.

(** Rounds until the queue is empty. *)
Fixpoint event_monitor (fuel : nat) (w : W) (s : events) : W * events :=
  match fuel with
  | O => (w, s)
  | S fuel => match event_monitor_step w s with
              | Some (w, s) => event_monitor fuel w s
              | None => (w, s)
              end
  end.

(** * Order of delivery *)

Definition raise_all (s : events) (evs : list event_t) : events :=
  foldl (λ s ev, (event_raise s (ev_type ev) (ev_event ev) (ev_value ev) true).1) s evs.

Lemma raise_all_list s evs :
  Forall (λ ev, BITCOUNT (ev_type ev) = 1) evs →
  event_list (raise_all s evs) = rev evs ++ event_list s ∧ event_handlers (raise_all s evs) = event_handlers s.
Proof.
  intros HF. revert s. unfold raise_all. induction HF as [|ev evs Hev _ IH]; intros s; [done|]. simpl.
  destruct (IH (event_raise s (ev_type ev) (ev_event ev) (ev_value ev) true).1) as [H1 H2].
  unfold event_raise in *. rewrite Hev in *. simpl in *. rewrite H1, H2.
  rewrite <- app_assoc. split; [|done]. by destruct ev.
Qed.

Lemma monitor_drains evs w hs k :
  (event_monitor (length evs) w (mk_events hs (rev evs) k))
  = (foldl (λ w ev, dispatch w ev hs) w evs, mk_events hs [] k).
Proof.
  revert w. induction evs as [|ev evs IH]; intros w; [done|]. simpl.
  unfold event_monitor_step. simpl. rewrite last_snoc, length_app, Nat.add_sub. simpl.
  rewrite take_app_length. apply IH.
Qed.

(** events are handled in the order in which they were raised, each
    exactly once, by the handlers listening to their type, and the queue is
    empty after as many rounds of the monitor. *)
Theorem event_order w hs evs :
  Forall (λ ev, BITCOUNT (ev_type ev) = 1) evs →
  let s := raise_all (mk_events hs [] false) evs in
  event_monitor (length evs) w s = (foldl (λ w ev, dispatch w ev hs) w evs,
    mk_events hs [] (monitor_woken s)).
Proof.
  intros HF s. destruct (raise_all_list (mk_events hs [] false) evs HF) as [H1 H2].
  fold s in H1, H2. rewrite app_nil_r in H1. simpl in H2.
  replace s with (mk_events hs (rev evs) (monitor_woken s)) at 1 by (destruct s; simpl in *; congruence).
  apply monitor_drains.
Qed.

(** a handler sees an event exactly when it listens to the event's type
    and no handler registered after it consumed the event first: with the
    later handlers [hs1] letting it pass, dispatching reaches [h], and after
    [h] consumes the event nobody else is called. *)
Theorem event_consumed w ev hs1 h hs2 w1 w2 :
  dispatch w ev hs1 = w1 →
  (∀ x v, x ∈ hs1 → (eh_event (eh_fn x) ev (eh_data x) v).2 ≠ EVENT_REMOVE) →
  Z.land (eh_mask h) (ev_type ev) ≠ 0 →
  eh_event (eh_fn h) ev (eh_data h) w1 = (w2, EVENT_REMOVE) →
  dispatch w ev (hs1 ++ h :: hs2) = w2.
Proof.
  revert w. induction hs1 as [|x hs1 IH]; intros w Hd Hpass Hm Hh; simpl in *.
  - subst w1. rewrite (proj2 (Z.eqb_neq _ _) Hm), Hh. done.
  - assert (Hpass' : ∀ y v, y ∈ hs1 → (eh_event (eh_fn y) ev (eh_data y) v).2 ≠ EVENT_REMOVE)
      by (intros y v Hy; apply Hpass; by right).
    case_if; [by apply IH|]. specialize (Hpass x w ltac:(left)).
    destruct (eh_event (eh_fn x) ev (eh_data x) w) as [w' []]; simpl in *; [done|by apply IH..].
Qed.

(** only events of a single type are accepted, and nothing is queued for
    the others. *)
Theorem event_raise_checks s type code value alloc :
  (event_raise s type code value alloc).2 = Ok tt → BITCOUNT type = 1 ∧ alloc = true
    ∧ event_list (event_raise s type code value alloc).1 = mk_event type code value :: event_list s.
Proof.
  unfold event_raise. destruct (Z.eqb_spec (BITCOUNT type) 1); simpl; [|done].
  by destruct alloc.
Qed.
End Event.

Definition log_handler (fn : Z) (ev : event_t) (data : Z) (w : list (Z * Z)) : list (Z * Z) * event_result :=
  (w ++ [(fn, ev_event ev)], if fn =? 2 then EVENT_REMOVE else EVENT_CONTINUE).

Lemma event_order_witness :
  let evs := [mk_event 1 10 0; mk_event 2 11 0; mk_event 1 12 0] in
  let hs := [mk_handler 100 1 7 0] in
  event_monitor log_handler 3 [] (raise_all (mk_events hs [] false) evs)
  = ([(7, 10); (7, 12)], mk_events hs [] true).
Proof.
  refine (eq_trans (event_order log_handler [] [mk_handler 100 1 7 0]
    [mk_event 1 10 0; mk_event 2 11 0; mk_event 1 12 0] _) _).
  - repeat constructor.
  - vm_compute. reflexivity.
Defined.

Lemma event_consumed_witness :
  dispatch log_handler [] (mk_event 1 10 0)
    ([mk_handler 1 1 1 0] ++ mk_handler 2 1 2 0 :: [mk_handler 3 1 3 0]) = [(1, 10); (2, 10)].
Proof.
  apply (event_consumed log_handler [] (mk_event 1 10 0) [mk_handler 1 1 1 0] (mk_handler 2 1 2 0)
    [mk_handler 3 1 3 0] [(1, 10)]); [reflexivity| |discriminate|reflexivity].
  intros x v ->%list_elem_of_singleton. discriminate.
Defined.

Lemma event_raise_checks_witness : BITCOUNT 4 = 1 ∧ true = true
  ∧ event_list (event_raise (mk_events [] [] false) 4 1 2 true).1 = [mk_event 4 1 2].
Proof. apply (event_raise_checks (mk_events [] [] false) 4 1 2 true). reflexivity. Defined.
