(* ===== verification/Signal.v ===== *)
(** Signals: [src/kernel/src/signal.c], [ksignal.h].

    Of a task, signals use the pending bitmap with its counter, the handler
    table, the saved and the current user registers, the [TF_SIGNAL] flag and
    the two words put on the signal stack.  The default actions kill, wake or
    stop the task; they act on the rest [R] of the task and are parameters, as
    is [schedule].  Signal numbers are those of the C library. *)

From S2P Require Import Prelude.

Definition NSIG : Z := 32.
Definition SIGKILL : Z := 9.
Definition SIGSTOP : Z := 17.
Definition SIG_DFL : Z := 0.
Definition SIG_IGN : Z := 1.

Record uregs := mk_uregs { eflags : Z; eip : Z; esp : Z; ebp : Z; fpu : list Z }.

Inductive default_kind : Set := DTerm | DCore | DCont | DStop | DIgnore.

(** The table [signal_default]; [None] is a null entry. *)
Definition signal_default (sig : Z) : option default_kind :=
  match sig with
  | 1 | 2 | 9 | 13 | 14 | 15 | 30 | 31 => Some DTerm
  | 3 | 4 | 6 | 8 => Some DCore
  | 20 => Some DIgnore
  | 19 => Some DCont
  | 17 => Some DStop
  | _ => None
  end.

Section Signal.
Context {R : Type}.
(** [task_kill], [task_wakeup], [task_wait(.., TF_STOPPED)] and [schedule]. *)
Context (kill wakeup stop resched : R → R).
Context (TASK_SIGNAL_STACK : Z).

Record stask := mk_stask {
  bitmap : list Z;
  nraised : Z;
  handler : list Z;
  handler_return : Z;
  saved : uregs;
  cur : uregs;
  tf_signal : bool;
  sig_stack : Z * Z;     (* the words at the top: signal number, return address *)
  rest : R;
}.

Definition word (t : stask) (sig : Z) : nat := Z.to_nat (Z.quot sig 32).
Definition mask (sig : Z) : Z := Z.shiftl 1 (Z.rem sig 32).

Definition SIGNAL_RAISED (t : stask) (sig : Z) : bool :=
  negb (Z.land (bitmap t !!! word t sig) (mask sig) =? 0).
Definition set_pending (t : stask) (b : list Z) (n : Z) : stask :=
  mk_stask b n (handler t) (handler_return t) (saved t) (cur t) (tf_signal t) (sig_stack t) (rest t).
Definition RAISE_SIGNAL (t : stask) (sig : Z) : stask :=
  set_pending t (alter (λ w, Z.lor w (mask sig)) (word t sig) (bitmap t)) (nraised t + 1).
Definition LOWER_SIGNAL (t : stask) (sig : Z) : stask :=
  set_pending t (alter (λ w, Z.land w (Z.lnot (mask sig))) (word t sig) (bitmap t)) (nraised t - 1).

Definition set_handler (t : stask) (h : list Z) : stask :=
  mk_stask (bitmap t) (nraised t) h (handler_return t) (saved t) (cur t) (tf_signal t) (sig_stack t) (rest t).
Definition set_regs (t : stask) (sv cr : uregs) (f : bool) : stask :=
  mk_stask (bitmap t) (nraised t) (handler t) (handler_return t) sv cr f (sig_stack t) (rest t).
Definition set_rest (t : stask) (r : R) : stask :=
  mk_stask (bitmap t) (nraised t) (handler t) (handler_return t) (saved t) (cur t) (tf_signal t) (sig_stack t) r.

Definition signal_init (t : stask) : stask :=
  let t := foldl (λ t i, let t := LOWER_SIGNAL t i in
                         set_handler t (<[Z.to_nat i := SIG_DFL]> (handler t))) t (seqZ 0 NSIG) in
  set_pending t (bitmap t) 0.

(** [memcpy(&dst->t_signal, &dst->t_signal, ...)] *)
Definition signal_copy (dst src : stask) : stask := dst.

Definition signal_save (t : stask) : stask :=
  if tf_signal t then t else set_regs t (cur t) (cur t) (tf_signal t).

Definition run_default (k : default_kind) (t : stask) : stask :=
  match k with
  | DTerm | DCore => set_rest t (kill (rest t))
  | DCont => set_rest t (wakeup (rest t))
  | DStop => set_rest t (stop (rest t))
  | DIgnore => t
  end.

(** The first raised signal. *)
Fixpoint find_raised (t : stask) (sigs : list Z) : option Z :=
  match sigs with
  | [] => None
  | s :: sigs => if SIGNAL_RAISED t s then Some s else find_raised t sigs
  end.

Fixpoint signal_check (fuel : nat) (t : stask) : outcome (stask * Z) :=
  if nraised t =? 0 then Ret (t, 0)
  else match find_raised t (seqZ 0 NSIG) with
  | None => Ret (set_pending t (bitmap t) 0, 0)
  | Some sig =>
      let t := LOWER_SIGNAL (signal_save t) sig in
      let h := handler t !!! Z.to_nat sig in
      if h =? SIG_DFL then
        match signal_default sig with
        | None => Halt
        | Some k =>
            match fuel with
            | O => OutOfFuel
            | S fuel => '(t, _) <~ signal_check fuel (run_default k t) ;; Ret (t, 0)
            end
        end
      else if h =? SIG_IGN then Ret (t, 0)
      else
        let c := mk_uregs 2097664 h (TASK_SIGNAL_STACK - 8) 0 (fpu (cur t)) in   (* 0x200200 *)
        Ret (mk_stask (bitmap t) (nraised t) (handler t) (handler_return t) (saved t) c true
               (sig, handler_return t) (rest t), 1)
  end.

Definition signal_set_return (t : stask) (userfunc : Z) : stask :=
  mk_stask (bitmap t) (nraised t) (handler t) userfunc (saved t) (cur t) (tf_signal t) (sig_stack t) (rest t).

(** Up to the switch to the task. *)
Definition signal_return (fuel : nat) (t : stask) : outcome stask :=
  if negb (tf_signal t) then Ret t
  else
    '(t, r) <~ signal_check fuel t ;;
    Ret (if r =? 0 then set_regs t (saved t) (saved t) false else t).

Definition signal_kill (t : stask) (is_current : bool) (sig : Z) : stask * result unit :=
  if (sig <? 0) || (NSIG <=? sig) then (t, Err EINVAL)
  else let t := RAISE_SIGNAL t sig in
       (if is_current then set_rest t (resched (rest t)) else t, Ok tt).

(** Returns the old handler. *)
Definition signal_signal (t : stask) (sig h : Z) : stask * result Z :=
  if (sig <? 0) || (NSIG <=? sig) then (t, Err EINVAL)
  else if (sig =? SIGKILL) || (sig =? SIGSTOP) then (t, Err EINVAL)
  else (set_handler t (<[Z.to_nat sig := h]> (handler t)), Ok (handler t !!! Z.to_nat sig)).

(** * Pending signals *)

Lemma word_small t sig : 0 <= sig < 32 → word t sig = 0%nat ∧ Z.rem sig 32 = sig.
Proof. intros H. unfold word. rewrite Z.quot_small, Z.rem_small by lia. done. Qed.

Definition bits (t : stask) : Z := bitmap t !!! 0%nat.

Lemma raised_bit t sig : 0 <= sig < 32 → SIGNAL_RAISED t sig = Z.testbit (bits t) sig.
Proof.
  intros H. unfold SIGNAL_RAISED, mask. destruct (word_small t sig H) as [-> ->].
  rewrite land_shiftl1_testbit by lia. by rewrite negb_involutive.
Qed.

Lemma bits_alter f t n : bitmap t ≠ [] → bits (set_pending t (alter f 0%nat (bitmap t)) n) = f (bits t).
Proof. unfold bits. simpl. by destruct (bitmap t). Qed.

Lemma raised_raise t sig i :
  bitmap t ≠ [] → 0 <= sig < 32 → 0 <= i < 32 →
  SIGNAL_RAISED (RAISE_SIGNAL t sig) i = SIGNAL_RAISED t i || (sig =? i).
Proof.
  intros Hb Hs Hi. rewrite !raised_bit by done. unfold RAISE_SIGNAL, mask.
  destruct (word_small t sig Hs) as [-> ->]. rewrite bits_alter by done. apply testbit_set; lia.
Qed.

Lemma raised_lower t sig i :
  bitmap t ≠ [] → 0 <= sig < 32 → 0 <= i < 32 →
  SIGNAL_RAISED (LOWER_SIGNAL t sig) i = SIGNAL_RAISED t i && negb (sig =? i).
Proof.
  intros Hb Hs Hi. rewrite !raised_bit by done. unfold LOWER_SIGNAL, mask.
  destruct (word_small t sig Hs) as [-> ->]. rewrite bits_alter by done. apply testbit_clear; lia.
Qed.

Lemma bitmap_ne t sig f n : bitmap t ≠ [] → bitmap (set_pending t (alter f (word t sig) (bitmap t)) n) ≠ [].
Proof. simpl. destruct (bitmap t); [done|]. by destruct (word t sig). Qed.

(** The number of signals pending. *)
Definition npending (t : stask) : Z := Z.of_nat (length (filter (λ i, SIGNAL_RAISED t i = true) (seqZ 0 32))).

(** No pending signal is overlooked: the counter bounds their number. *)
Definition sig_inv (t : stask) : Prop := bitmap t ≠ [] ∧ npending t <= nraised t.

Lemma seqZ_split sig : 0 <= sig < 32 → ∃ l1 l2, seqZ 0 32 = l1 ++ sig :: l2 ∧ sig ∉ l1 ∧ sig ∉ l2.
Proof.
  intros H. assert (Hin : sig ∈ seqZ 0 32) by (apply elem_of_seqZ; lia).
  apply list_elem_of_split in Hin as (l1 & l2 & E). exists l1, l2. split; [done|].
  pose proof (NoDup_seqZ 0 32) as Hnd. rewrite E in Hnd.
  apply NoDup_app in Hnd as (_ & Hd & Hnd). apply NoDup_cons in Hnd as [H2 _].
  split; [|done]. intros H1. apply (Hd sig H1). left.
Qed.

Lemma filter_agree (P Q : Z → bool) (l : list Z) :
  (∀ i, i ∈ l → P i = Q i) → filter (λ i, P i = true) l = filter (λ i, Q i = true) l.
Proof.
  induction l as [|x l IH]; intros H; [done|]. rewrite !filter_cons, (H x) by left.
  rewrite IH by (intros i Hi; apply H; by right). done.
Qed.

Lemma npending_change t t' sig :
  0 <= sig < 32 → (∀ i, 0 <= i < 32 → i ≠ sig → SIGNAL_RAISED t' i = SIGNAL_RAISED t i) →
  npending t' = npending t + (if SIGNAL_RAISED t' sig then 1 else 0) - (if SIGNAL_RAISED t sig then 1 else 0).
Proof.
  intros Hs Hag. destruct (seqZ_split sig Hs) as (l1 & l2 & E & H1 & H2). unfold npending. rewrite E.
  assert (Hsub : ∀ i, i ∈ l1 ++ sig :: l2 → 0 <= i < 32) by (intros i Hi; rewrite <- E in Hi; apply elem_of_seqZ in Hi; lia).
  rewrite !filter_app, !filter_cons, !length_app.
  rewrite (filter_agree (SIGNAL_RAISED t') (SIGNAL_RAISED t) l1), (filter_agree (SIGNAL_RAISED t') (SIGNAL_RAISED t) l2).
  - destruct (SIGNAL_RAISED t' sig), (SIGNAL_RAISED t sig); simpl; lia.
  - intros i Hi. apply Hag; [apply Hsub; set_solver|set_solver].
  - intros i Hi. apply Hag; [apply Hsub; set_solver|set_solver].
Qed.

Lemma npending_nonneg t : 0 <= npending t.
Proof. unfold npending. lia. Qed.

Lemma raise_inv t sig : 0 <= sig < 32 → sig_inv t → sig_inv (RAISE_SIGNAL t sig).
Proof.
  intros Hs [Hb Hn]. split; [by apply bitmap_ne|].
  rewrite (npending_change t (RAISE_SIGNAL t sig) sig Hs).
  - simpl. destruct (SIGNAL_RAISED _ _), (SIGNAL_RAISED _ _); lia.
  - intros i Hi Hne. rewrite raised_raise by done. rewrite (proj2 (Z.eqb_neq _ _)) by congruence.
    by rewrite orb_false_r.
Qed.

Lemma lower_inv t sig : 0 <= sig < 32 → SIGNAL_RAISED t sig = true → sig_inv t → sig_inv (LOWER_SIGNAL t sig).
Proof.
  intros Hs Hr [Hb Hn]. split; [by apply bitmap_ne|].
  rewrite (npending_change t (LOWER_SIGNAL t sig) sig Hs).
  - rewrite Hr, raised_lower, Hr, Z.eqb_refl by done. simpl. lia.
  - intros i Hi Hne. rewrite raised_lower by done. rewrite (proj2 (Z.eqb_neq _ _)) by congruence.
    by rewrite andb_true_r.
Qed.

Lemma find_raised_spec t l :
  match find_raised t l with
  | Some s => ∃ l1 l2, l = l1 ++ s :: l2 ∧ SIGNAL_RAISED t s = true ∧ ∀ i, i ∈ l1 → SIGNAL_RAISED t i = false
  | None => ∀ i, i ∈ l → SIGNAL_RAISED t i = false
  end.
Proof.
  induction l as [|x l IH]; simpl; [set_solver|]. destruct (SIGNAL_RAISED t x) eqn:Hx.
  - exists [], l. split; [done|]. split; [done|set_solver].
  - destruct (find_raised t l) as [s|].
    + destruct IH as (l1 & l2 & -> & H1 & H2). exists (x :: l1), l2. split; [done|]. split; [done|].
      intros i Hi. apply elem_of_cons in Hi as [->|Hi]; auto.
    + intros i Hi. apply elem_of_cons in Hi as [->|Hi]; auto.
Qed.

Lemma find_raised_first t sig :
  0 <= sig < 32 → SIGNAL_RAISED t sig = true → (∀ i, 0 <= i < sig → SIGNAL_RAISED t i = false) →
  find_raised t (seqZ 0 NSIG) = Some sig.
Proof.
  intros Hs Hr Hlow. unfold NSIG. pose proof (find_raised_spec t (seqZ 0 32)) as Hf.
  assert (Hin : sig ∈ seqZ 0 32) by (apply elem_of_seqZ; lia).
  destruct (find_raised t (seqZ 0 32)) as [s|]; [|by rewrite Hf in Hr].
  destruct Hf as (l1 & l2 & E & H1 & H2). f_equal.
  assert (Hs0 : s ∈ seqZ 0 32) by (rewrite E; set_solver). apply elem_of_seqZ in Hs0.
  destruct (Z.lt_trichotomy s sig) as [Hlt|[?|Hgt]]; [by rewrite Hlow in H1 by lia|done|].
  exfalso. assert (Hs1 : seqZ 0 32 !! Z.to_nat s = Some s) by (apply lookup_seqZ; lia).
  assert (Hs2 : seqZ 0 32 !! length l1 = Some s) by (rewrite E; apply list_lookup_middle; done).
  assert (length l1 = Z.to_nat s) as Hlen by (eapply NoDup_lookup; [apply (NoDup_seqZ 0 32)|done|done]).
  assert (Hsig : l1 !! Z.to_nat sig = Some sig).
  { assert (seqZ 0 32 !! Z.to_nat sig = Some sig) as Hl by (apply lookup_seqZ; lia).
    rewrite E, lookup_app_l in Hl by lia. done. }
  apply list_elem_of_lookup_2 in Hsig. rewrite (H2 sig Hsig) in Hr. done.
Qed.

Lemma raised_same t t' i : bitmap t' = bitmap t → SIGNAL_RAISED t' i = SIGNAL_RAISED t i.
Proof. intros H. unfold SIGNAL_RAISED, word. by rewrite H. Qed.

Lemma sig_inv_same t t' : bitmap t' = bitmap t → nraised t' = nraised t → sig_inv t → sig_inv t'.
Proof.
  intros Hb Hn [H1 H2]. split; [by rewrite Hb|]. rewrite Hn. unfold npending in *.
  by rewrite (filter_agree (SIGNAL_RAISED t') (SIGNAL_RAISED t)) by (intros; by apply raised_same).
Qed.

Lemma save_same t : bitmap (signal_save t) = bitmap t ∧ nraised (signal_save t) = nraised t.
Proof. unfold signal_save. by destruct (tf_signal t). Qed.

Lemma default_same k t : bitmap (run_default k t) = bitmap t ∧ nraised (run_default k t) = nraised t.
Proof. by destruct k. Qed.

Lemma pending_counted t i : 0 <= i < 32 → sig_inv t → SIGNAL_RAISED t i = true → nraised t ≠ 0.
Proof.
  intros Hi [_ Hn] Hr H0.
  assert (Hin : i ∈ filter (λ i, SIGNAL_RAISED t i = true) (seqZ 0 32)).
  { apply list_elem_of_filter. split; [done|]. apply elem_of_seqZ. lia. }
  unfold npending in Hn. destruct (filter _ _); [set_solver|simpl in Hn; lia].
Qed.

Lemma none_pending t n :
  bitmap t ≠ [] → (∀ i, i ∈ seqZ 0 NSIG → SIGNAL_RAISED t i = false) → 0 <= n →
  sig_inv (set_pending t (bitmap t) n).
Proof.
  intros Hb Hf Hn. split; [done|]. simpl. unfold npending.
  replace (filter _ _) with (@nil Z); [done|]. symmetry. unfold NSIG in Hf.
  induction (seqZ 0 32) as [|x l IH]; [done|]. rewrite filter_cons_False.
  - apply IH. intros i Hi. apply Hf. by right.
  - rewrite (raised_same t) by done. rewrite (Hf x) by left. done.
Qed.

Lemma lowered_inv t sig :
  sig_inv t → find_raised t (seqZ 0 NSIG) = Some sig → sig_inv (LOWER_SIGNAL (signal_save t) sig).
Proof.
  intros Hinv Hf. pose proof (find_raised_spec t (seqZ 0 NSIG)) as Hs. rewrite Hf in Hs.
  destruct Hs as (l1 & l2 & E & Hr & _). destruct (save_same t) as [E1 E2].
  assert (Hin : sig ∈ seqZ 0 NSIG) by (rewrite E; set_solver). apply elem_of_seqZ in Hin. unfold NSIG in Hin.
  apply lower_inv; [lia|by rewrite (raised_same t)|by apply (sig_inv_same t)].
Qed.

Lemma check_inv fuel t t' r : sig_inv t → signal_check fuel t = Ret (t', r) → sig_inv t'.
Proof.
  revert t t' r. induction fuel as [|fuel IH]; intros t t' r Hinv; cbn [signal_check];
    (destruct (Z.eqb_spec (nraised t) 0) as [Hz|Hz]; [by intros [= <- <-]|]);
    pose proof (find_raised_spec t (seqZ 0 NSIG)) as Hf;
    (destruct (find_raised t (seqZ 0 NSIG)) as [sig|] eqn:Hfr;
      [|intros [= <- <-]; apply none_pending; [apply Hinv|done|lia]]);
    pose proof (lowered_inv t sig Hinv Hfr) as Hinv1;
    (case_if; [|case_if; [by intros [= <- <-]|intros [= <- <-]; by eapply sig_inv_same; [| |exact Hinv1]]]);
    (destruct (signal_default sig) as [k|]; [|done]); [done|].
  intros (p & Hc & Hret)%obind_ret. destruct p as [t2 r2]. injection Hret as <- _.
  eapply IH; [|exact Hc]. destruct (default_same k (LOWER_SIGNAL (signal_save t) sig)) as [E3 E4].
  by eapply sig_inv_same; [| |exact Hinv1].
Qed.

(** no pending signal is overlooked: raising and checking keep the counter
    [nraised] at least as large as the number of pending signals, so that
    [signal_check] never takes its early exit while a signal is pending. *)
Theorem signal_pending_seen t sig is_current fuel t' r i :
  sig_inv t → signal_check fuel (signal_kill t is_current sig).1 = Ret (t', r) →
  0 <= i < 32 → SIGNAL_RAISED t' i = true → sig_inv t' ∧ nraised t' ≠ 0.
Proof.
  intros Hinv Hc Hi Hr. assert (sig_inv t') as Hinv'; [|split; [done|by eapply pending_counted]].
  eapply check_inv; [|exact Hc]. unfold signal_kill, NSIG. case_if; [done|].
  assert (sig_inv (RAISE_SIGNAL t sig)) as H1 by (apply raise_inv; [lia|done]).
  destruct is_current; [|done]. by eapply sig_inv_same; [| |exact H1].
Qed.

Lemma check_idle fuel t : nraised t = 0 → signal_check fuel t = Ret (t, 0).
Proof. intros H. destruct fuel; cbn [signal_check]; by rewrite H. Qed.

(** A pending signal with a user handler is the one delivered if it is the
    lowest. *)
Lemma check_delivers fuel t sig :
  sig_inv t → 0 <= sig < 32 → SIGNAL_RAISED t sig = true →
  (∀ i, 0 <= i < sig → SIGNAL_RAISED t i = false) →
  handler t !!! Z.to_nat sig ≠ SIG_DFL → handler t !!! Z.to_nat sig ≠ SIG_IGN →
  let t1 := LOWER_SIGNAL (signal_save t) sig in
  signal_check fuel t = Ret (mk_stask (bitmap t1) (nraised t1) (handler t) (handler_return t) (saved t1)
    (mk_uregs 2097664 (handler t !!! Z.to_nat sig) (TASK_SIGNAL_STACK - 8) 0 (fpu (cur t))) true
    (sig, handler_return t) (rest t), 1).
Proof.
  intros Hinv Hs Hr Hlow Hd Hi t1. pose proof (pending_counted t sig Hs Hinv Hr) as Hn.
  assert (handler t1 = handler t ∧ handler_return t1 = handler_return t ∧ cur t1 = cur t ∧ rest t1 = rest t)
    as (E1 & E2 & E3 & E4) by (unfold t1, signal_save; by destruct (tf_signal t)).
  destruct fuel; cbn [signal_check]; rewrite (proj2 (Z.eqb_neq _ _) Hn), (find_raised_first t sig Hs Hr Hlow);
    fold t1; rewrite E1, (proj2 (Z.eqb_neq _ _) Hd), (proj2 (Z.eqb_neq _ _) Hi), E2, E3, E4; done.
Qed.

(** signals are delivered lowest number first: with several pending, a
    check sets the task up to run the handler of the lowest, with the signal
    number and the return function on the signal stack, and leaves the others
    pending. *)
Theorem signal_lowest_first fuel t sig :
  sig_inv t → 0 <= sig < 32 → SIGNAL_RAISED t sig = true →
  (∀ i, 0 <= i < sig → SIGNAL_RAISED t i = false) →
  handler t !!! Z.to_nat sig ≠ SIG_DFL → handler t !!! Z.to_nat sig ≠ SIG_IGN →
  ∃ t', signal_check fuel t = Ret (t', 1) ∧ eip (cur t') = handler t !!! Z.to_nat sig
    ∧ sig_stack t' = (sig, handler_return t) ∧ tf_signal t' = true
    ∧ (∀ i, 0 <= i < 32 → SIGNAL_RAISED t' i = SIGNAL_RAISED t i && negb (sig =? i))
    ∧ (tf_signal t = false → saved t' = cur t).
Proof.
  intros Hinv Hs Hr Hlow Hd Hi. eexists. split; [by apply check_delivers|]. simpl.
  destruct (save_same t) as [E1 E2]. repeat (split; [done|]). split.
  - intros i Hi'. rewrite <- (raised_same t (signal_save t) i E1).
    rewrite <- raised_lower by (try done; rewrite E1; apply Hinv). by apply raised_same.
  - intros Hf. unfold signal_save. by rewrite Hf.
Qed.

(** * While a handler runs *)

(** What can happen to a task in a handler: its code changes the registers and
    the FPU state in any way, sets handlers and the return function; signals are
    raised; the rest of the task changes; the scheduler checks for signals,
    which may enter another handler; a handler returns into the next one. *)
Inductive handler_step : stask → stask → Prop :=
  | hs_code t regs : handler_step t (set_regs t (saved t) regs (tf_signal t))
  | hs_stack t w : handler_step t (mk_stask (bitmap t) (nraised t) (handler t) (handler_return t) (saved t) (cur t) (tf_signal t) w (rest t))
  | hs_rest t r : handler_step t (set_rest t r)
  | hs_signal t sig h : handler_step t (signal_signal t sig h).1
  | hs_set_return t f : handler_step t (signal_set_return t f)
  | hs_kill t is_current sig : handler_step t (signal_kill t is_current sig).1
  | hs_check fuel t t' r : signal_check fuel t = Ret (t', r) → handler_step t t'
  | hs_return fuel t t' : signal_return fuel t = Ret t' → tf_signal t' = true → handler_step t t'.

Lemma check_keeps_saved fuel t t' r :
  tf_signal t = true → signal_check fuel t = Ret (t', r) → saved t' = saved t ∧ tf_signal t' = true.
Proof.
  revert t t' r. induction fuel as [|fuel IH]; intros t t' r Hf; cbn [signal_check];
    (case_if; [by intros [= <- <-]|]); (destruct (find_raised t (seqZ 0 NSIG)) as [sig|]; [|by intros [= <- <-]]);
    assert (signal_save t = t) as -> by (unfold signal_save; by rewrite Hf);
    (case_if; [|case_if; by intros [= <- <-]]); (destruct (signal_default sig) as [k|]; [|done]); [done|].
  intros ([t2 r2] & Hc & [= <- <-])%obind_ret. apply IH in Hc as [-> ->]; by destruct k.
Qed.

(** The registers of the interrupted program stay where they were saved. *)
Lemma handler_keeps_saved t t' : handler_step t t' → tf_signal t = true → saved t' = saved t ∧ tf_signal t' = true.
Proof.
  intros [?|?|?|? sig h|?|? c sig|fuel ? ? r Hc|fuel ? ? Hr Ht] Hf; try done.
  - unfold signal_signal. repeat case_if; done.
  - unfold signal_kill. case_if; [done|]. by destruct c.
  - by eapply check_keeps_saved.
  - unfold signal_return in Hr. rewrite Hf in Hr. cbn [negb] in Hr. apply obind_ret in Hr as ([t2 r2] & Hc & [= <-]).
    destruct (check_keeps_saved _ _ _ _ Hf Hc). by case_if.
Qed.

Lemma handler_runs_saved t t' : rtc handler_step t t' → tf_signal t = true → saved t' = saved t ∧ tf_signal t' = true.
Proof.
  induction 1 as [|t t1 t' Hs _ IH]; intros Hf; [done|]. destruct (handler_keeps_saved _ _ Hs Hf) as [E Hf1].
  destruct (IH Hf1) as [-> ?]. done.
Qed.

(** C40: a handled signal is transparent to the interrupted program.  Raising a
    signal in a task that has none pending and delivering it enters the handler.
    While the handler runs its code may leave any values in the registers and
    the FPU, change handlers, and be interrupted by further signals, which may
    enter other handlers one inside the other ([handler_step]); when it then
    returns with no signal pending, the user registers (instruction and stack
    pointers, flags, FPU state) are those the task had before the signal, and
    the task is no longer in a handler. *)
Theorem signal_deliver_return fuel1 fuel2 t sig :
  sig_inv t → nraised t = 0 → tf_signal t = false → 0 <= sig < 32 →
  handler t !!! Z.to_nat sig ≠ SIG_DFL → handler t !!! Z.to_nat sig ≠ SIG_IGN →
  ∃ t2, signal_check fuel1 (signal_kill t false sig).1 = Ret (t2, 1)
    ∧ eip (cur t2) = handler t !!! Z.to_nat sig ∧ sig_stack t2 = (sig, handler_return t)
    ∧ (∀ i, 0 <= i < 32 → SIGNAL_RAISED t2 i = false)
    ∧ ∀ t2', rtc handler_step t2 t2' → nraised t2' = 0 →
        ∃ t3, signal_return fuel2 t2' = Ret t3 ∧ cur t3 = cur t ∧ tf_signal t3 = false ∧ nraised t3 = 0.
Proof.
  intros Hinv Hn Hf Hs Hd Hi. pose proof Hinv as [Hb Hnp].
  unfold signal_kill, NSIG. rewrite (proj2 (Z.ltb_ge _ _)), (proj2 (Z.leb_gt _ _)) by lia. cbn [orb fst].
  assert (Hnone : ∀ i, 0 <= i < 32 → SIGNAL_RAISED t i = false).
  { intros i Hi'. destruct (SIGNAL_RAISED t i) eqn:E; [|done]. by destruct (pending_counted t i Hi' Hinv E). }
  destruct (signal_lowest_first fuel1 (RAISE_SIGNAL t sig) sig) as (t2 & Hc & He & Hw & Ht & Hr & Hsave); [by apply raise_inv|done| | |done|done|].
  { by rewrite raised_raise, Z.eqb_refl, orb_true_r by done. }
  { intros i Hi'. rewrite raised_raise, Hnone by (done || lia). apply Z.eqb_neq. lia. }
  exists t2. split; [done|]. split; [done|]. split; [done|]. split.
  { intros i Hi'. rewrite Hr, raised_raise, Hnone by done. by destruct (sig =? i). }
  intros t2' Hrun Hn2. destruct (handler_runs_saved _ _ Hrun Ht) as [Hsv Hf2]. unfold signal_return. rewrite Hf2. cbn [negb].
  rewrite check_idle by done. eexists. split; [reflexivity|]. cbn [Z.eqb set_regs cur tf_signal nraised]. rewrite Hsv, Hsave by done. done.
Qed.

(** the actions for [SIGKILL] and [SIGSTOP] cannot be changed; any other
    valid signal gets the new handler and the old one is returned; an invalid
    signal number is refused.  No other handler changes. *)
Theorem signal_signal_spec t sig h :
  length (handler t) = Z.to_nat NSIG →
  match (signal_signal t sig h).2 with
  | Ok old => 0 <= sig < 32 ∧ sig ≠ SIGKILL ∧ sig ≠ SIGSTOP ∧ old = handler t !!! Z.to_nat sig
      ∧ handler (signal_signal t sig h).1 !!! Z.to_nat sig = h
      ∧ ∀ j, 0 <= j → j ≠ sig → handler (signal_signal t sig h).1 !!! Z.to_nat j = handler t !!! Z.to_nat j
  | Err e => e = EINVAL ∧ (signal_signal t sig h).1 = t ∧ (sig < 0 ∨ 32 <= sig ∨ sig = SIGKILL ∨ sig = SIGSTOP)
  end.
Proof.
  intros Hlen. unfold signal_signal, NSIG, SIGKILL, SIGSTOP in *.
  destruct ((sig <? 0) || (32 <=? sig)) eqn:E1; [simpl; do 2 (split; [done|]); lia|].
  destruct ((sig =? 9) || (sig =? 17)) eqn:E2; [simpl; do 2 (split; [done|]); lia|]. zbool. simpl.
  split; [lia|]. split; [lia|]. split; [lia|]. split; [done|]. split.
  - apply list_lookup_total_insert_eq. lia.
  - intros j Hj Hne. apply list_lookup_total_insert_ne. lia.
Qed.
End Signal.

Arguments stask R : clear implicits.

(** * Runs *)

Definition some_regs : uregs := mk_uregs 512 4096 8192 8200 [1; 2; 3].
Definition demo_task : stask Z :=
  mk_stask [0; 0] 0 (<[15%nat := 1048576]> (replicate 32 0)) 77 (mk_uregs 0 0 0 0 []) some_regs false (0, 0) 0.

Lemma demo_inv : sig_inv demo_task.
Proof. split; [discriminate|]. vm_compute. congruence. Qed.

Definition idR : Z → Z := λ r, r.

Lemma signal_pending_seen_witness :
  ∃ t', signal_check idR idR idR 65536 0 (signal_kill idR (RAISE_SIGNAL demo_task 15) false 20).1 = Ret (t', 1)
    ∧ sig_inv t' ∧ nraised t' ≠ 0.
Proof.
  eexists. split; [vm_compute; reflexivity|].
  apply (signal_pending_seen idR idR idR idR 65536 (RAISE_SIGNAL demo_task 15) 20 false 0 _ 1 20).
  - apply raise_inv; [lia|apply demo_inv].
  - vm_compute. reflexivity.
  - lia.
  - vm_compute. reflexivity.
Defined.

Lemma signal_lowest_first_witness :
  ∃ t', signal_check idR idR idR 65536 0 (RAISE_SIGNAL (RAISE_SIGNAL demo_task 20) 15) = Ret (t', 1)
    ∧ eip (cur t') = 1048576.
Proof.
  destruct (signal_lowest_first idR idR idR 65536 0 (RAISE_SIGNAL (RAISE_SIGNAL demo_task 20) 15) 15)
    as (t' & H1 & H2 & _).
  - apply raise_inv; [lia|]. apply raise_inv; [lia|apply demo_inv].
  - lia.
  - reflexivity.
  - intros i Hi. rewrite !raised_raise by (discriminate || lia).
    rewrite raised_bit, (proj2 (Z.eqb_neq 20 i)), (proj2 (Z.eqb_neq 15 i)) by lia.
    change (bits demo_task) with 0. by rewrite Z.bits_0.
  - discriminate.
  - discriminate.
  - by exists t'.
Defined.

(** The handler leaves other values in the registers and in the FPU, and
    another signal is taken inside it. *)
Lemma signal_deliver_return_witness :
  ∃ t2 t2' t3, signal_check idR idR idR 65536 0 (signal_kill idR demo_task false 15).1 = Ret (t2, 1)
    ∧ signal_check idR idR idR 65536 0 (signal_kill idR (set_regs t2 (saved t2) (mk_uregs 7 7 7 7 [9; 9; 9]) true) false 15).1 = Ret (t2', 1)
    ∧ signal_return idR idR idR 65536 0 (set_regs t2' (saved t2') (mk_uregs 8 8 8 8 [8; 8; 8]) true) = Ret t3 ∧ cur t3 = some_regs.
Proof.
  destruct (signal_deliver_return idR idR idR idR 65536 0 0 demo_task 15 demo_inv)
    as (t2 & H1 & _ & _ & _ & H2); [reflexivity|reflexivity|lia|discriminate|discriminate|].
  exists t2. assert (E2 : t2 = match signal_check idR idR idR 65536 0 (signal_kill idR demo_task false 15).1 with Ret (x, _) => x | _ => t2 end) by (by rewrite H1).
  vm_compute in E2. subst t2. eexists.
  match goal with |- context [set_regs ?x (saved ?x) (mk_uregs 7 7 7 7 _) true] => set (t2 := x) in * end.
  set (busy := set_regs t2 (saved t2) (mk_uregs 7 7 7 7 [9; 9; 9]) true).
  set (t2' := match signal_check idR idR idR 65536 0 (signal_kill idR busy false 15).1 with Ret (x, _) => x | _ => t2 end).
  assert (E : signal_check idR idR idR 65536 0 (signal_kill idR busy false 15).1 = Ret (t2', 1)) by (vm_compute; reflexivity).
  destruct (H2 (set_regs t2' (saved t2') (mk_uregs 8 8 8 8 [8; 8; 8]) true)) as (t3 & Hr & Hc & _).
  - eapply rtc_l; [exact (hs_code _ _ _ _ _ t2 (mk_uregs 7 7 7 7 [9; 9; 9]))|].
    eapply rtc_l; [exact (hs_kill _ _ _ _ _ busy false 15)|].
    eapply rtc_l; [exact (hs_check _ _ _ _ _ 0 _ _ _ E)|].
    eapply rtc_l; [exact (hs_code _ _ _ _ _ t2' (mk_uregs 8 8 8 8 [8; 8; 8]))|]. apply rtc_refl.
  - vm_compute. reflexivity.
  - exists t3. split; [exact H1|]. split; [exact E|]. split; [exact Hr|exact Hc].
Defined.

Lemma signal_signal_spec_witness :
  9 < 32 ∧ (signal_signal demo_task 9 4096).1 = demo_task.
Proof.
  split; [lia|]. exact (proj1 (proj2 (signal_signal_spec demo_task 9 4096 eq_refl))).
Defined.

(** [signal_copy] copies the destination onto itself: a handler of the
    source task is not inherited. *)
Theorem signal_copy_keeps_dst :
  let child := mk_stask [0; 0] 0 (replicate 32 0) 0 some_regs some_regs false (0, 0) 0 in
  handler demo_task !!! 15%nat = 1048576 ∧ handler (signal_copy child demo_task) !!! 15%nat = SIG_DFL.
Proof. vm_compute. done. Qed.

(** the default table has no entry for, among others, [SIGSEGV] (11): a
    check with that signal pending and no handler calls a null function. *)
Theorem signal_default_null :
  signal_check idR idR idR 65536 5 (signal_kill idR demo_task false 11).1 = Halt.
Proof. vm_compute. done. Qed.
