(* ===== verification/Bytes.v ===== *)
(** Byte buffers: a slice of a buffer, overwriting part of a buffer
    ([memcpy]), and the laws by which a transfer made of several pieces is one
    transfer.  Used by the block layer and by the ext2 driver.

    [memcpy] to a buffer is stdpp's [list_inserts]; bytes that fall beyond the
    end of the destination have no place in the model, and every use below has
    room for what it copies. *)

From S2P Require Import Prelude.

Section Bytes.
Context {A : Type}.
Implicit Types (l k : list A).

Definition slice (p n : nat) l : list A := take n (drop p l).

Lemma slice_lookup p n l i :
    slice p n l !! i = if decide (i < n)%nat then l !! (p + i)%nat else None.
Proof.
    unfold slice. case_decide.
    - rewrite lookup_take_lt by lia. apply lookup_drop.
    - by rewrite lookup_take_ge by lia.
Qed.

Lemma slice_length p n l : (p + n <= length l)%nat → length (slice p n l) = n.
Proof. intros H. unfold slice. rewrite length_take, length_drop. lia. Qed.

Lemma inserts_lookup p k l i :
    list_inserts p k l !! i =
    if decide (p <= i < p + length k ∧ i < length l)%nat then k !! (i - p)%nat else l !! i.
Proof.
    case_decide as H; [by apply list_lookup_inserts; lia|].
    destruct (decide (i < p)%nat); [by apply list_lookup_inserts_lt|].
    destruct (decide (p + length k <= i)%nat); [by apply list_lookup_inserts_ge|].
    rewrite !lookup_ge_None_2; rewrite ?length_inserts; [done|lia..].
Qed.

  (** Two adjacent pieces copied one after the other are one copy. *)
Lemma inserts_slice_app p o a b l k :
    (p + a + b <= length l)%nat → (o + a + b <= length k)%nat →
    list_inserts (p + a) (slice (o + a) b k) (list_inserts p (slice o a k) l) =
    list_inserts p (slice o (a + b) k) l.
Proof.
    intros Hl Hk. apply list_eq. intros i. rewrite !inserts_lookup, !length_inserts, !slice_length by lia.
    rewrite !slice_lookup. repeat case_decide; try lia; try done; f_equal; lia.
Qed.

  (** Read a region, change part of it, write the region back: only that part
      changes. *)
Lemma inserts_rmw p n o k l :
    (p + n <= length l)%nat → (o + length k <= n)%nat →
    list_inserts p (list_inserts o k (slice p n l)) l = list_inserts (p + o) k l.
Proof.
    intros Hl Hk. apply list_eq. intros i.
    rewrite !inserts_lookup, !length_inserts, !slice_length, slice_lookup by lia.
    repeat case_decide; try lia; f_equal; lia.
Qed.

  (** A slice of a slice. *)
Lemma slice_slice p n o m l : (o + m <= n)%nat → slice o m (slice p n l) = slice (p + o) m l.
Proof.
    intros H. apply list_eq. intros i. rewrite !slice_lookup. repeat case_decide; try lia; f_equal; lia.
Qed.

Lemma slice_inserts_same p k l : (p + length k <= length l)%nat → slice p (length k) (list_inserts p k l) = k.
Proof.
    intros H. apply list_eq. intros i. rewrite slice_lookup. case_decide.
    - rewrite inserts_lookup, decide_True by lia. f_equal. lia.
    - by rewrite lookup_ge_None_2 by lia.
Qed.

Lemma slice_inserts_disjoint p n q k l :
    (q + length k <= p ∨ p + n <= q)%nat → slice p n (list_inserts q k l) = slice p n l.
Proof.
    intros H. apply list_eq. intros i. rewrite !slice_lookup. case_decide; [|done].
    by rewrite inserts_lookup, decide_False by lia.
Qed.

Lemma inserts_whole k l : length k = length l → list_inserts 0 k l = k.
Proof.
    intros H. apply list_eq. intros i. rewrite inserts_lookup. case_decide.
    - f_equal. lia.
    - rewrite !lookup_ge_None_2; [done|lia..].
Qed.

Lemma inserts_nil p l : list_inserts p [] l = l.
Proof. done. Qed.
End Bytes.
