(* ===== verification/Block.v ===== *)
(** Block devices: [src/kernel/src/block.c].

    [vfs_dev] is the table of 256 registered devices; a driver is a record of
    optional operations on a world [W] that holds the state of the hardware
    and of the drivers.  Every operation returns a C [int]: [Ok z] is the
    number, [Err e] is [-e].  [block_read] and [block_write] cut a byte range
    into a partial first sector, whole sectors, and a partial last sector;
    partial sectors go through the device's one-sector buffer.

    The class [BlockDriver] is what the layer asks of a driver, and
    [block_read]/[block_write] are proved to read and overwrite exactly the
    bytes asked for on any driver that meets it.  [ram_driver] is an instance.
    [major], [minor] and [makedev] are macros of the C library. *)

From S2P Require Import Prelude Bytes.

Section Block.
Context {W : Type} (major minor : Z → Z) (makedev : Z → Z → Z).

Record block_operations := mk_block_operations {
  op_read : option (W → Z → Z → Z → outcome (W * result Z * list Z));   (* world, device, lba, sectors: what is stored in the buffer *)
  op_write : option (W → Z → Z → Z → list Z → outcome (W * result Z));
  op_ioctl : option (W → Z → Z → Z → W * result Z);
  op_open : option (W → Z → W * result Z);
  op_close : option (W → Z → W * result Z);
  op_exist : option (W → Z → bool);
  op_attach : option (W → W * result Z);
  op_detach : option (W → W * result Z);
}.

Record block_device := mk_block_device {
  ops : block_operations;
  blksz : Z;
  nminors : Z;
  refs : Z;
  block : option (list Z);   (* None: the allocation failed *)
  lock : Z;
}.

Record kblock := mk_kblock { vfs_dev : gmap Z block_device; world : W }.

Definition is_zero (r : result Z) : bool := match r with Ok z => z =? 0 | Err _ => false end.

Definition with_world (s : kblock) (w : W) : kblock := mk_kblock (vfs_dev s) w.
Definition set_block (d : block_device) (b : option (list Z)) : block_device :=
  mk_block_device (ops d) (blksz d) (nminors d) (refs d) b (lock d).
Definition set_lock (d : block_device) (l : Z) : block_device :=
  mk_block_device (ops d) (blksz d) (nminors d) (refs d) (block d) l.
Definition unlock (s : kblock) (m : Z) : kblock :=
  mk_kblock (alter (λ d, set_lock d (spin_unlock (lock d))) m (vfs_dev s)) (world s).

(** * The device table *)

Definition get_block_device (s : kblock) (devid : Z) : option block_device :=
  match vfs_dev s !! major devid with
  | None => None
  | Some device =>
      if nminors device <=? minor devid then None
      else match op_exist (ops device) with
           | Some check => if check (world s) devid then Some device else None
           | None => Some device
           end
  end.

Definition block_attach (s : kblock) (devid : Z) : kblock * result Z :=
  match get_block_device s devid with
  | None => (s, Err ENODEV)
  | Some device => match op_attach (ops device) with
                   | Some attach => let '(w, r) := attach (world s) in (with_world s w, r)
                   | None => (s, Ok 0)
                   end
  end.

Definition block_detach (s : kblock) (devid : Z) : kblock * result Z :=
  match get_block_device s devid with
  | None => (s, Ok (-1))
  | Some device => match op_detach (ops device) with
                   | Some detach => let '(w, r) := detach (world s) in (with_world s w, r)
                   | None => (s, Ok 0)
                   end
  end.

(** The search for a free major number: 256 when there is none. *)
Fixpoint find_major (vfs : gmap Z block_device) (n : nat) (m : Z) : Z :=
  match n with
  | O => m
  | S n => match vfs !! m with
           | None => m
           | Some _ => find_major vfs n (m + 1)
           end
  end.

(** [alloc_dev], [alloc_block]: whether the two [kmalloc] calls succeed;
    [junk]: what the new sector buffer holds. *)
Definition register_block_device (s : kblock) (mj nmin : Z) (o : block_operations)
    (alloc_dev alloc_block : bool) (junk : list Z) : kblock * result Z :=
  let mj := if 256 <=? mj then find_major (vfs_dev s) 256 0 else mj in
  if 256 <=? mj then (s, Err EINVAL)
  else match vfs_dev s !! mj with
  | Some _ => (s, Err EBUSY)
  | None =>
      if negb alloc_dev then (s, Err ENOMEM)
      else
        let dev := mk_block_device o 512 nmin 0 (if alloc_block then Some junk else None) 0 in
        let s := mk_kblock (<[mj := dev]> (vfs_dev s)) (world s) in
        let '(s, result) := block_attach s (makedev mj 0) in
        if is_zero result then (s, Ok 0)
        else (mk_kblock (delete mj (vfs_dev s)) (world s), result)
  end.

Definition unregister_block_device (s : kblock) (mj : Z) : kblock * result Z :=
  if 256 <=? mj then (s, Ok 0)
  else match vfs_dev s !! mj with
  | None => (s, Ok 0)
  | Some dev =>
      if negb (refs dev =? 0) then (s, Err EBUSY)
      else
        let s := mk_kblock (delete mj (vfs_dev s)) (world s) in
        let '(s, result) := block_detach s (makedev mj 0) in
        if is_zero result then (s, Ok 0)
        else (mk_kblock (<[mj := dev]> (vfs_dev s)) (world s), result)
  end.

(** * Transfers *)

(** [device->ops->read(device, devid, lba, 1, device->block)]; a call through
    a null operation or into a buffer that was not allocated faults. *)
Definition bounce_in (s : kblock) (m devid lba : Z) : outcome (kblock * list Z * result Z) :=
  match vfs_dev s !! m with
  | None => Halt
  | Some d =>
      match op_read (ops d), block d with
      | Some read, Some b =>
          ' (w, r, bytes) <~ read (world s) devid lba 1 ;;
          let b := list_inserts 0 bytes b in
          Ret (mk_kblock (<[m := set_block d (Some b)]> (vfs_dev s)) w, b, r)
      | _, _ => Halt
      end
  end.

(** [memcpy] into the sector buffer at [at], then
    [device->ops->write(device, devid, lba, 1, device->block)]. *)
Definition bounce_out (s : kblock) (m devid lba : Z) (at_ : nat) (bytes : list Z) :
    outcome (kblock * result Z) :=
  match vfs_dev s !! m with
  | None => Halt
  | Some d =>
      match op_write (ops d), block d with
      | Some write, Some b =>
          let b := list_inserts at_ bytes b in
          ' (w, r) <~ write (world s) devid lba 1 b ;;
          Ret (mk_kblock (<[m := set_block d (Some b)]> (vfs_dev s)) w, r)
      | _, _ => Halt
      end
  end.

(** The partial last sector of a read.  [pos] is where the bytes go in the
    caller's buffer. *)
Definition read_tail (s : kblock) (m devid lba count : Z) (pos : nat) (buffer : list Z)
    (requested : Z) : outcome (kblock * list Z * result Z) :=
  if negb (count =? 0) then
    ' (s, b, r) <~ bounce_in s m devid lba ;;
    if negb (is_zero r) then Ret (unlock s m, buffer, r)
    else Ret (unlock s m, list_inserts pos (slice 0 (Z.to_nat count) b) buffer, Ok (s32 requested))
  else Ret (unlock s m, buffer, Ok (s32 requested)).

(** The whole sectors of a read. *)
Definition read_sectors (s : kblock) (d : block_device) (m devid lba count : Z) (pos : nat)
    (buffer : list Z) (requested : Z) : outcome (kblock * list Z * result Z) :=
  if blksz d <=? count then
    match op_read (ops d) with
    | None => Halt
    | Some read =>
        let n := count / blksz d in
        ' (w, r, bytes) <~ read (world s) devid lba n ;;
        let s := with_world s w in
        let buffer := list_inserts pos bytes buffer in
        if negb (is_zero r) then Ret (unlock s m, buffer, r)
        else read_tail s m devid (lba + n) (count - n * blksz d) (pos + Z.to_nat (n * blksz d)) buffer requested
    end
  else read_tail s m devid lba count pos buffer requested.

Definition block_read (s : kblock) (devid off count : Z) (buffer : list Z) :
    outcome (kblock * list Z * result Z) :=
  match get_block_device s devid with
  | None => Ret (s, buffer, Err ENODEV)
  | Some device =>
      match op_read (ops device) with
      | None => Ret (s, buffer, Err ENOSYS)
      | Some _ =>
          if blksz device =? 0 then Halt else
          let m := major devid in
          let off := u32 off in
          let lba := off / blksz device in
          let skip := off mod blksz device in
          if negb (skip =? 0) then
            ' (s, b, r) <~ bounce_in s m devid lba ;;
            if negb (is_zero r) then Ret (unlock s m, buffer, r)
            else
              let head := blksz device - skip in
              if head <? count then
                read_sectors s device m devid (lba + 1) (count - head) (Z.to_nat head)
                  (list_inserts 0 (slice (Z.to_nat skip) (Z.to_nat head) b) buffer) count
              else
                Ret (unlock s m, list_inserts 0 (slice (Z.to_nat skip) (Z.to_nat count) b) buffer, Ok (s32 count))
          else read_sectors s device m devid lba count 0 buffer count
      end
  end.

(** The partial last sector of a write. *)
Definition write_tail (s : kblock) (m devid lba count : Z) (pos : nat) (buffer : list Z)
    (requested : Z) : outcome (kblock * result Z) :=
  if negb (count =? 0) then
    ' (s, b, r) <~ bounce_in s m devid lba ;;
    if negb (is_zero r) then Ret (unlock s m, r)
    else
      ' (s, r) <~ bounce_out s m devid lba 0 (slice pos (Z.to_nat count) buffer) ;;
      if negb (is_zero r) then Ret (unlock s m, r)
      else Ret (unlock s m, Ok (s32 requested))
  else Ret (unlock s m, Ok (s32 requested)).

(** The whole sectors of a write. *)
Definition write_sectors (s : kblock) (d : block_device) (m devid lba count : Z) (pos : nat)
    (buffer : list Z) (requested : Z) : outcome (kblock * result Z) :=
  if blksz d <=? count then
    match op_write (ops d) with
    | None => Halt
    | Some write =>
        let n := count / blksz d in
        ' (w, r) <~ write (world s) devid lba n (slice pos (Z.to_nat (n * blksz d)) buffer) ;;
        let s := with_world s w in
        if negb (is_zero r) then Ret (unlock s m, r)
        else write_tail s m devid (lba + n) (count - n * blksz d) (pos + Z.to_nat (n * blksz d)) buffer requested
    end
  else write_tail s m devid lba count pos buffer requested.

Definition block_write (s : kblock) (devid off count : Z) (buffer : list Z) :
    outcome (kblock * result Z) :=
  match get_block_device s devid with
  | None => Ret (s, Err ENODEV)
  | Some device =>
      match op_write (ops device) with
      | None => Ret (s, Err ENOSYS)
      | Some _ =>
          let m := major devid in
          if count =? 0 then Ret (unlock s m, Ok 0) else
          if blksz device =? 0 then Halt else
          let off := u32 off in
          let lba := off / blksz device in
          let skip := off mod blksz device in
          if negb (skip =? 0) then
            ' (s, b, r) <~ bounce_in s m devid lba ;;
            if negb (is_zero r) then Ret (unlock s m, r)
            else
              let head := blksz device - skip in
              let n := if head <? count then head else count in
              ' (s, r) <~ bounce_out s m devid lba (Z.to_nat skip) (slice 0 (Z.to_nat n) buffer) ;;
              if negb (is_zero r) then Ret (unlock s m, r)
              else write_sectors s device m devid (lba + 1) (if head <? count then count - head else 0)
                     (if head <? count then Z.to_nat head else 0%nat) buffer count
          else write_sectors s device m devid lba count 0 buffer count
      end
  end.

(** * The other entry points, and a block device as a file *)

Definition block_ioctl (s : kblock) (devid cmd argp : Z) : kblock * result Z :=
  match get_block_device s devid with
  | None => (s, Ok (-1))
  | Some device => match op_ioctl (ops device) with
                   | Some ioctl => let '(w, r) := ioctl (world s) devid cmd argp in (with_world s w, r)
                   | None => (s, Ok (-1))
                   end
  end.

Definition block_open (s : kblock) (devid : Z) : kblock * result Z :=
  match get_block_device s devid with
  | None => (s, Err ENODEV)
  | Some device => match op_open (ops device) with
                   | Some open => let '(w, r) := open (world s) devid in (with_world s w, r)
                   | None => (s, Ok 0)
                   end
  end.

Definition block_close (s : kblock) (devid : Z) : kblock * result Z :=
  match get_block_device s devid with
  | None => (s, Err ENODEV)
  | Some device => match op_close (ops device) with
                   | Some close => let '(w, r) := close (world s) devid in (with_world s w, r)
                   | None => (s, Ok 0)
                   end
  end.

(** The part of [struct file] the block layer uses: the device number of the
    inode and the offset. *)
Record bfile := mk_bfile { i_dev : Z; f_off : Z }.

Definition block_file_ioctl (s : kblock) (f : bfile) (cmd parm : Z) : kblock * result Z :=
  block_ioctl s (i_dev f) cmd parm.

Definition block_file_open (s : kblock) (dentry_dev : Z) : kblock * result Z :=
  let '(s, result) := block_open s dentry_dev in
  if is_zero result then (s, Ok 0) else (s, result).

Definition block_file_close (s : kblock) (f : bfile) : kblock * result Z := block_close s (i_dev f).

Definition advance_off (f : bfile) (r : result Z) : bfile :=
  match r with
  | Ok n => if 0 <? n then mk_bfile (i_dev f) (s32 (f_off f + n)) else f
  | Err _ => f
  end.

Definition block_file_read (s : kblock) (f : bfile) (buffer : list Z) (count : Z) :
    outcome (kblock * bfile * list Z * result Z) :=
  ' (s, buffer, r) <~ block_read s (i_dev f) (f_off f) count buffer ;;
  Ret (s, advance_off f r, buffer, r).

Definition block_file_write (s : kblock) (f : bfile) (buffer : list Z) (count : Z) :
    outcome (kblock * bfile * result Z) :=
  ' (s, r) <~ block_write s (i_dev f) (f_off f) count buffer ;;
  Ret (s, advance_off f r, r).

(** * What a driver promises *)

(** [disk w]: the bytes of device [devid] in world [w]; a transfer of at most
    [max] sectors inside the device succeeds. *)
Class BlockDriver (o : block_operations) (devid blk max : Z) (disk : W → list Z) : Prop := {
  drv_blk : 0 < blk;
  drv_max : 1 <= max;
  drv_exist w check : op_exist o = Some check → (0 < length (disk w))%nat → check w devid = true;
  drv_read w lba n :
    0 <= lba → 1 <= n <= max → (lba + n) * blk <= Z.of_nat (length (disk w)) →
    ∃ read w', op_read o = Some read
      ∧ read w devid lba n = Ret (w', Ok 0, slice (Z.to_nat (lba * blk)) (Z.to_nat (n * blk)) (disk w))
      ∧ disk w' = disk w;
  drv_write w lba n data :
    0 <= lba → 1 <= n <= max → (lba + n) * blk <= Z.of_nat (length (disk w)) →
    Z.of_nat (length data) = n * blk →
    ∃ write w', op_write o = Some write
      ∧ write w devid lba n data = Ret (w', Ok 0)
      ∧ disk w' = list_inserts (Z.to_nat (lba * blk)) data (disk w);
}.

(** The device at [m] is registered with driver [o], answers for [nm] minors
    and has its sector buffer. *)
Definition ready (o : block_operations) (blk nm : Z) (s : kblock) (m : Z) : Prop :=
  ∃ d b, vfs_dev s !! m = Some d ∧ ops d = o ∧ blksz d = blk ∧ nminors d = nm
    ∧ block d = Some b ∧ Z.of_nat (length b) = blk.

(** Two results that differ in the buffer only. *)
Ltac same_buffer :=
  match goal with |- Ret (?a, ?x, ?r) = Ret (?a, ?y, ?r) => enough (x = y) as -> by done end.

Section Transfer.
Context {o : block_operations} {devid blk max nm : Z} {disk : W → list Z}.
Context `{!BlockDriver o devid blk max disk}.
Local Abbreviation m := (major devid).
Local Abbreviation rdy s := (ready o blk nm s m).

Lemma ready_get s :
    rdy s → minor devid < nm → (0 < length (disk (world s)))%nat →
    ∃ d, get_block_device s devid = Some d ∧ ops d = o ∧ blksz d = blk.
Proof.
    intros (d & b & Hd & Ho & Hblk & Hnm & _) Hmin Hlen. exists d. split; [|done].
    unfold get_block_device. rewrite Hd, Hnm, (proj2 (Z.leb_gt _ _)) by lia. rewrite Ho.
    destruct (op_exist o) as [ex|] eqn:E; [|done]. by rewrite (drv_exist _ _ E Hlen).
Qed.

Lemma ready_unlock s : rdy s → rdy (unlock s m).
Proof.
    intros (d & b & Hd & H). exists (set_lock d 0), b. split; [|by destruct d].
    simpl. by rewrite lookup_alter_eq, Hd.
Qed.

Lemma ready_with_world s w : rdy s → rdy (with_world s w).
Proof. done. Qed.

Lemma bounce_in_spec s lba :
    rdy s → 0 <= lba → (lba + 1) * blk <= Z.of_nat (length (disk (world s))) →
    ∃ s', bounce_in s m devid lba =
        Ret (s', slice (Z.to_nat (lba * blk)) (Z.to_nat blk) (disk (world s)), Ok 0)
      ∧ (∃ d, vfs_dev s' !! m = Some d ∧ ops d = o ∧ blksz d = blk ∧ nminors d = nm
           ∧ block d = Some (slice (Z.to_nat (lba * blk)) (Z.to_nat blk) (disk (world s))))
      ∧ disk (world s') = disk (world s).
Proof.
    intros (d & b & Hd & Ho & Hblk & Hnm & Hb & Hlen) Hlba Hend.
    pose proof drv_blk. pose proof drv_max.
    destruct (drv_read (world s) lba 1) as (rd & w' & Hrd & Hcall & Hw); [lia..|].
    unfold bounce_in. rewrite Hd, Ho, Hrd, Hb, Hcall.
    rewrite Z.mul_1_l. cbn [obind]. rewrite inserts_whole by (rewrite slice_length; lia).
    eexists. split; [done|]. split; [|done]. simpl. rewrite lookup_insert_eq. by eexists.
Qed.

Lemma block_ready s d b :
    vfs_dev s !! m = Some d → ops d = o → blksz d = blk → nminors d = nm → block d = Some b →
    Z.of_nat (length b) = blk → rdy s.
Proof. intros. by exists d, b. Qed.

Lemma bounce_out_spec s lba at_ bytes d :
    let old := slice (Z.to_nat (lba * blk)) (Z.to_nat blk) (disk (world s)) in
    vfs_dev s !! m = Some d → ops d = o → blksz d = blk → nminors d = nm → block d = Some old →
    0 <= lba → (lba + 1) * blk <= Z.of_nat (length (disk (world s))) →
    (at_ + length bytes <= Z.to_nat blk)%nat →
    ∃ s', bounce_out s m devid lba at_ bytes = Ret (s', Ok 0) ∧ rdy s'
      ∧ disk (world s') = list_inserts (Z.to_nat (lba * blk) + at_) bytes (disk (world s)).
Proof.
    intros old Hd Ho Hblk Hnm Hb Hlba Hend Hat. pose proof drv_blk. pose proof drv_max.
    assert (Hold : length old = Z.to_nat blk) by (apply slice_length; lia).
    destruct (drv_write (world s) lba 1 (list_inserts at_ bytes old)) as (wr & w' & Hwr & Hcall & Hw);
      [lia..|rewrite length_inserts; lia|].
    unfold bounce_out. rewrite Hd, Ho, Hwr, Hb, Hcall. eexists. split; [done|]. split.
    - eapply block_ready; [simpl; apply lookup_insert_eq|simpl; try done..]. rewrite length_inserts. lia.
    - cbn [world]. rewrite Hw. apply inserts_rmw; [lia|done].
Qed.

  (** Whole sectors: what ends inside the device has its last sector there. *)
Lemma last_sector len lba count :
    0 < blk → (blk | len) → 0 < count < blk → lba * blk + count <= len → (lba + 1) * blk <= len.
Proof. intros Hb [k ->] Hc H. assert (lba < k) by nia. nia. Qed.

Lemma first_sector len : 0 < blk → (blk | len) → 0 < len → (0 + 1) * blk <= len.
Proof. intros Hb [k ->] H. assert (0 < k) by nia. nia. Qed.

Lemma driver_reads w :
    (blk | Z.of_nat (length (disk w))) → (0 < length (disk w))%nat → is_Some (op_read o).
Proof.
    intros Hsec Hpos. pose proof drv_blk as Hb. pose proof drv_max. pose proof (first_sector _ Hb Hsec ltac:(lia)).
    destruct (drv_read w 0 1) as (rd & _ & -> & _); [lia..|done].
Qed.

Lemma driver_writes w :
    (blk | Z.of_nat (length (disk w))) → (0 < length (disk w))%nat → is_Some (op_write o).
Proof.
    intros Hsec Hpos. pose proof drv_blk as Hb. pose proof drv_max. pose proof (first_sector _ Hb Hsec ltac:(lia)).
    destruct (drv_write w 0 1 (slice 0 (Z.to_nat blk) (disk w))) as (wr & _ & -> & _);
      [lia..|rewrite slice_length; lia|done].
Qed.

Lemma read_tail_spec s lba count pos buffer req :
    rdy s → (blk | Z.of_nat (length (disk (world s)))) → 0 <= lba → 0 <= count < blk →
    lba * blk + count <= Z.of_nat (length (disk (world s))) →
    ∃ s', read_tail s m devid lba count pos buffer req =
        Ret (s', list_inserts pos (slice (Z.to_nat (lba * blk)) (Z.to_nat count) (disk (world s))) buffer, Ok (s32 req))
      ∧ rdy s' ∧ disk (world s') = disk (world s).
Proof.
    intros Hr Hsec Hlba Hc Hend. pose proof drv_blk. unfold read_tail.
    destruct (Z.eqb_spec count 0) as [->|Hne]; cbn [negb].
    { eexists. split; [done|]. split; [by apply ready_unlock|done]. }
    assert (Hl : (lba + 1) * blk <= Z.of_nat (length (disk (world s)))) by (eapply last_sector; eauto; lia).
    destruct (bounce_in_spec s lba) as (s1 & -> & (d & ? & ? & ? & ? & Hb) & Hw); [done..|].
    cbn [obind is_zero Z.eqb negb]. rewrite slice_slice, Nat.add_0_r by lia. eexists. split; [done|].
    split; [|done]. apply ready_unlock. eapply block_ready; [done..|]. rewrite slice_length; lia.
Qed.

Lemma read_sectors_spec s d lba count pos buffer req :
    rdy s → ops d = o → blksz d = blk →
    (blk | Z.of_nat (length (disk (world s)))) → 0 <= lba → 0 <= count → count / blk <= max →
    lba * blk + count <= Z.of_nat (length (disk (world s))) → (pos + Z.to_nat count <= length buffer)%nat →
    ∃ s', read_sectors s d m devid lba count pos buffer req =
        Ret (s', list_inserts pos (slice (Z.to_nat (lba * blk)) (Z.to_nat count) (disk (world s))) buffer, Ok (s32 req))
      ∧ rdy s' ∧ disk (world s') = disk (world s).
Proof.
    intros Hr Ho Hblk Hsec Hlba Hc Hmax Hend Hbuf. pose proof drv_blk as Hb. unfold read_sectors.
    rewrite Hblk, Ho. destruct (Z.leb_spec blk count) as [Hle|Hgt]; [|apply read_tail_spec; lia || done].
    pose proof (Z.div_mod count blk ltac:(lia)) as Hdm. pose proof (Z.mod_pos_bound count blk Hb) as Hm.
    remember (count / blk) as n eqn:En. assert (Hn : 1 <= n) by (subst n; apply Z.div_le_lower_bound; lia).
    destruct (drv_read (world s) lba n) as (rd & w' & -> & -> & Hw); [lia..|nia|].
    cbn [obind is_zero Z.eqb negb].
    destruct (read_tail_spec (with_world s w') (lba + n) (count - n * blk) (pos + Z.to_nat (n * blk))
      (list_inserts pos (slice (Z.to_nat (lba * blk)) (Z.to_nat (n * blk)) (disk (world s))) buffer) req)
      as (s' & -> & Hr' & Hw'); cbn [world with_world] in *; rewrite ?Hw; try done; try nia.
    eexists. split; [|split; [done|congruence]]. same_buffer.
    replace (Z.to_nat ((lba + n) * blk)) with (Z.to_nat (lba * blk) + Z.to_nat (n * blk))%nat by nia.
    rewrite inserts_slice_app by nia. f_equal. f_equal. nia.
Qed.

Lemma block_read_spec s off count buffer :
    rdy s → minor devid < nm → (blk | Z.of_nat (length (disk (world s)))) →
    (0 < length (disk (world s)))%nat → 0 <= off < 4294967296 → 0 <= count → count / blk <= max →
    off + count <= Z.of_nat (length (disk (world s))) → count <= Z.of_nat (length buffer) →
    ∃ s', block_read s devid off count buffer =
        Ret (s', list_inserts 0 (slice (Z.to_nat off) (Z.to_nat count) (disk (world s))) buffer, Ok (s32 count))
      ∧ rdy s' ∧ disk (world s') = disk (world s).
Proof.
    intros Hr Hmin Hsec Hpos Ho Hc Hmax Hend Hbuf. pose proof drv_blk as Hb. pose proof drv_max as Hx.
    destruct (ready_get s Hr Hmin Hpos) as (d & Hget & Hops & Hblk).
    destruct (driver_reads (world s) Hsec Hpos) as [rd Hrd].
    unfold block_read. rewrite Hget, Hops, Hrd, Hblk, (proj2 (Z.eqb_neq _ _)), u32_small by lia. cbv zeta.
    pose proof (Z.div_mod off blk ltac:(lia)) as Hdm. pose proof (Z.mod_pos_bound off blk Hb) as Hm.
    pose proof (Z.div_pos off blk ltac:(lia) Hb) as Hdp.
    remember (off / blk) as lba eqn:El. remember (off mod blk) as skip eqn:Es.
    destruct (Z.eqb_spec skip 0) as [Hz|Hnz]; cbn [negb].
    { destruct (read_sectors_spec s d lba count 0 buffer count) as (s' & -> & H); try done; try lia.
      exists s'. split; [|done]. same_buffer. do 2 f_equal. lia. }
    assert (Hl : (lba + 1) * blk <= Z.of_nat (length (disk (world s))))
      by (eapply (last_sector _ lba skip); [done..|lia|lia]).
    destruct (bounce_in_spec s lba) as (s1 & -> & (d1 & ? & ? & ? & ? & Hb1) & Hw); [done..|].
    cbn [obind is_zero Z.eqb negb]. rewrite !slice_slice by lia.
    replace (Z.to_nat (lba * blk) + Z.to_nat skip)%nat with (Z.to_nat off) by nia.
    assert (Hr1 : rdy s1) by (eapply block_ready; [done..|]; rewrite slice_length; nia).
    destruct (Z.ltb_spec (blk - skip) count) as [Hlt|Hge].
    2: { rewrite slice_slice by lia. replace (Z.to_nat (lba * blk) + Z.to_nat skip)%nat with (Z.to_nat off) by nia.
         eexists. split; [done|]. split; [by apply ready_unlock|done]. }
    assert (Hdl : (count - (blk - skip)) / blk <= max) by (etrans; [apply Z.div_le_mono|]; eauto; lia).
    edestruct (read_sectors_spec s1 d (lba + 1) (count - (blk - skip))) as (s' & -> & Hr' & Hw');
      [done..|by rewrite Hw|lia|lia|done|rewrite Hw; lia|rewrite length_inserts; lia|].
    eexists. split; [|split; [done|congruence]]. same_buffer. rewrite Hw.
    replace (Z.to_nat ((lba + 1) * blk)) with (Z.to_nat off + Z.to_nat (blk - skip))%nat by nia.
    pose proof (inserts_slice_app 0 (Z.to_nat off) (Z.to_nat (blk - skip)) (Z.to_nat (count - (blk - skip)))
      buffer (disk (world s))) as Happ. rewrite Nat.add_0_l in Happ. rewrite Happ by lia. f_equal. f_equal. lia.
Qed.

Lemma write_tail_spec s lba count pos buffer req :
    rdy s → (blk | Z.of_nat (length (disk (world s)))) → 0 <= lba → 0 <= count < blk →
    lba * blk + count <= Z.of_nat (length (disk (world s))) → (pos + Z.to_nat count <= length buffer)%nat →
    ∃ s', write_tail s m devid lba count pos buffer req = Ret (s', Ok (s32 req))
      ∧ rdy s'
      ∧ disk (world s') = list_inserts (Z.to_nat (lba * blk)) (slice pos (Z.to_nat count) buffer) (disk (world s)).
Proof.
    intros Hr Hsec Hlba Hc Hend Hbuf. pose proof drv_blk. unfold write_tail.
    destruct (Z.eqb_spec count 0) as [->|Hne]; cbn [negb].
    { eexists. split; [done|]. split; [by apply ready_unlock|done]. }
    assert (Hl : (lba + 1) * blk <= Z.of_nat (length (disk (world s)))) by (eapply last_sector; eauto; lia).
    destruct (bounce_in_spec s lba) as (s1 & -> & (d & ? & ? & ? & ? & Hb) & Hw); [done..|].
    cbn [obind is_zero Z.eqb negb].
    destruct (bounce_out_spec s1 lba 0 (slice pos (Z.to_nat count) buffer) d) as (s2 & -> & Hr2 & Hw2);
      rewrite ?Hw, ?slice_length; try done; try lia.
    cbn [obind is_zero Z.eqb negb]. eexists. split; [done|]. split; [by apply ready_unlock|].
    cbn [unlock world]. by rewrite Hw2, Hw, Nat.add_0_r.
Qed.

Lemma write_sectors_spec s d lba count pos buffer req :
    rdy s → ops d = o → blksz d = blk →
    (blk | Z.of_nat (length (disk (world s)))) → 0 <= lba → 0 <= count → count / blk <= max →
    lba * blk + count <= Z.of_nat (length (disk (world s))) → (pos + Z.to_nat count <= length buffer)%nat →
    ∃ s', write_sectors s d m devid lba count pos buffer req = Ret (s', Ok (s32 req))
      ∧ rdy s'
      ∧ disk (world s') = list_inserts (Z.to_nat (lba * blk)) (slice pos (Z.to_nat count) buffer) (disk (world s)).
Proof.
    intros Hr Ho Hblk Hsec Hlba Hc Hmax Hend Hbuf. pose proof drv_blk as Hb. unfold write_sectors.
    rewrite Hblk, Ho. destruct (Z.leb_spec blk count) as [Hle|Hgt]; [|apply write_tail_spec; lia || done].
    pose proof (Z.div_mod count blk ltac:(lia)) as Hdm. pose proof (Z.mod_pos_bound count blk Hb) as Hm.
    remember (count / blk) as n eqn:En. assert (Hn : 1 <= n) by (subst n; apply Z.div_le_lower_bound; lia).
    destruct (drv_write (world s) lba n (slice pos (Z.to_nat (n * blk)) buffer)) as (wr & w' & -> & -> & Hw);
      [lia..|nia|rewrite slice_length; nia|].
    cbn [obind is_zero Z.eqb negb].
    destruct (write_tail_spec (with_world s w') (lba + n) (count - n * blk) (pos + Z.to_nat (n * blk)) buffer req)
      as (s' & -> & Hr' & Hw'); cbn [world with_world] in *; rewrite ?Hw, ?length_inserts; try done; try nia.
    eexists. split; [done|]. split; [done|]. rewrite Hw', Hw.
    replace (Z.to_nat ((lba + n) * blk)) with (Z.to_nat (lba * blk) + Z.to_nat (n * blk))%nat by nia.
    rewrite inserts_slice_app by nia. f_equal. f_equal. nia.
Qed.

Lemma block_write_spec s off count buffer :
    rdy s → minor devid < nm → (blk | Z.of_nat (length (disk (world s)))) →
    (0 < length (disk (world s)))%nat → 0 <= off < 4294967296 → 0 <= count → count / blk <= max →
    off + count <= Z.of_nat (length (disk (world s))) → count <= Z.of_nat (length buffer) →
    ∃ s', block_write s devid off count buffer = Ret (s', Ok (s32 count))
      ∧ rdy s'
      ∧ disk (world s') = list_inserts (Z.to_nat off) (slice 0 (Z.to_nat count) buffer) (disk (world s)).
Proof.
    intros Hr Hmin Hsec Hpos Ho Hc Hmax Hend Hbuf. pose proof drv_blk as Hb. pose proof drv_max as Hx.
    destruct (ready_get s Hr Hmin Hpos) as (d & Hget & Hops & Hblk).
    destruct (driver_writes (world s) Hsec Hpos) as [wr Hwr].
    unfold block_write. rewrite Hget, Hops, Hwr, Hblk. cbv zeta.
    destruct (Z.eqb_spec count 0) as [->|Hne].
    { eexists. split; [done|]. split; [by apply ready_unlock|done]. }
    rewrite (proj2 (Z.eqb_neq _ _)), u32_small by lia.
    pose proof (Z.div_mod off blk ltac:(lia)) as Hdm. pose proof (Z.mod_pos_bound off blk Hb) as Hm.
    pose proof (Z.div_pos off blk ltac:(lia) Hb) as Hdp.
    remember (off / blk) as lba eqn:El. remember (off mod blk) as skip eqn:Es.
    destruct (Z.eqb_spec skip 0) as [Hz|Hnz]; cbn [negb].
    { destruct (write_sectors_spec s d lba count 0 buffer count) as (s' & -> & Hr' & Hw'); try done; try lia.
      exists s'. do 2 (split; [done|]). rewrite Hw'. f_equal. lia. }
    assert (Hl : (lba + 1) * blk <= Z.of_nat (length (disk (world s))))
      by (eapply (last_sector _ lba skip); [done..|lia|lia]).
    destruct (bounce_in_spec s lba) as (s1 & -> & (d1 & ? & ? & ? & ? & Hb1) & Hw); [done..|].
    cbn [obind is_zero Z.eqb negb]. set (n := if _ <? _ then _ else _).
    assert (Hn : 0 <= n <= blk - skip ∧ n <= count) by (subst n; case_if; lia).
    destruct (bounce_out_spec s1 lba (Z.to_nat skip) (slice 0 (Z.to_nat n) buffer) d1)
      as (s2 & -> & Hr2 & Hw2); rewrite ?Hw, ?slice_length; try done; try lia.
    cbn [obind is_zero Z.eqb negb].
    set (rest := if blk - skip <? count then count - (blk - skip) else 0).
    set (pos := if blk - skip <? count then Z.to_nat (blk - skip) else 0%nat).
    assert (Hrest : rest = count - n) by (subst n rest; case_if; lia).
    assert (Hpos' : (pos + Z.to_nat rest <= length buffer)%nat) by (subst pos rest; case_if; lia).
    assert (Hfit : 0 < rest → pos = Z.to_nat n ∧ n = blk - skip) by (subst pos rest n; case_if; lia).
    assert (Hdl : rest / blk <= max) by (etrans; [apply Z.div_le_mono|]; eauto; lia).
    clearbody n rest pos. destruct (Z.eq_dec rest 0) as [Hz|Hnz'].
    - destruct (write_sectors_spec s2 d (lba + 1) rest pos buffer count) as (s' & -> & Hr' & Hw');
        rewrite ?Hw2, ?Hw, ?length_inserts; try done; try lia.
      exists s'. do 2 (split; [done|]). rewrite Hw', Hw2, Hw, Hz. simpl. f_equal; [lia|]. f_equal. lia.
    - destruct Hfit as [-> Hn']; [lia|].
      destruct (write_sectors_spec s2 d (lba + 1) rest (Z.to_nat n) buffer count) as (s' & -> & Hr' & Hw');
        rewrite ?Hw2, ?Hw, ?length_inserts; try done; try lia.
      exists s'. do 2 (split; [done|]). rewrite Hw', Hw2, Hw.
      replace (Z.to_nat (lba * blk) + Z.to_nat skip)%nat with (Z.to_nat off) by nia.
      replace (Z.to_nat ((lba + 1) * blk)) with (Z.to_nat off + Z.to_nat n)%nat by nia.
      pose proof (inserts_slice_app (Z.to_nat off) 0 (Z.to_nat n) (Z.to_nat rest) (disk (world s)) buffer) as Happ.
      rewrite Nat.add_0_l in Happ. rewrite Happ by lia. f_equal. f_equal. lia.
Qed.

  (** [block_read] returns exactly the bytes of the device: for every
      offset and length inside a device whose driver meets its contract,
      aligned to sectors or not, the first [count] bytes of the caller's
      buffer become the [count] bytes of the device from [off], the rest of the
      buffer is untouched, [count] is returned and the device does not change. *)
Theorem block_read_bytes s off count buffer :
    rdy s → minor devid < nm → (blk | Z.of_nat (length (disk (world s)))) →
    (0 < length (disk (world s)))%nat → 0 <= off < 4294967296 → 0 <= count < 2147483648 → count / blk <= max →
    off + count <= Z.of_nat (length (disk (world s))) → count <= Z.of_nat (length buffer) →
    ∃ s' buffer', block_read s devid off count buffer = Ret (s', buffer', Ok count)
      ∧ take (Z.to_nat count) buffer' = slice (Z.to_nat off) (Z.to_nat count) (disk (world s))
      ∧ drop (Z.to_nat count) buffer' = drop (Z.to_nat count) buffer
      ∧ disk (world s') = disk (world s) ∧ rdy s'.
Proof.
    intros Hr Hmin Hsec Hpos Ho Hc Hmax Hend Hbuf.
    destruct (block_read_spec s off count buffer) as (s' & -> & Hr' & Hw); [done || lia..|].
    rewrite s32_small by lia. eexists s', _. split; [done|]. split; [|split; [|done]].
    - pose proof (slice_length (Z.to_nat off) (Z.to_nat count) (disk (world s)) ltac:(lia)) as Hl.
      pose proof (slice_inserts_same 0 (slice (Z.to_nat off) (Z.to_nat count) (disk (world s))) buffer) as H.
      rewrite Hl in H. apply H. lia.
    - apply list_eq. intros i. rewrite !lookup_drop, inserts_lookup, decide_False; [done|].
      rewrite slice_length; lia.
Qed.

  (** C22: what is written is what is read: after [block_write] of [count]
      bytes at [off], a [block_read] of any range of the device returns the
      old contents with those [count] bytes replaced; in particular the same
      range reads back the data and a disjoint range reads what it held. *)
Theorem block_write_read s off count data off2 count2 buffer :
    rdy s → minor devid < nm → (blk | Z.of_nat (length (disk (world s)))) →
    (0 < length (disk (world s)))%nat →
    0 <= off < 4294967296 → 0 <= count < 2147483648 → count / blk <= max →
    off + count <= Z.of_nat (length (disk (world s))) → count <= Z.of_nat (length data) →
    0 <= off2 < 4294967296 → 0 <= count2 < 2147483648 → count2 / blk <= max →
    off2 + count2 <= Z.of_nat (length (disk (world s))) → count2 = Z.of_nat (length buffer) →
    ∃ s1 s2 bytes, block_write s devid off count data = Ret (s1, Ok count)
      ∧ block_read s1 devid off2 count2 buffer = Ret (s2, bytes, Ok count2)
      ∧ bytes = slice (Z.to_nat off2) (Z.to_nat count2)
                  (list_inserts (Z.to_nat off) (slice 0 (Z.to_nat count) data) (disk (world s)))
      ∧ (off2 = off → count2 = count → bytes = slice 0 (Z.to_nat count) data)
      ∧ (off2 + count2 <= off ∨ off + count <= off2 →
         bytes = slice (Z.to_nat off2) (Z.to_nat count2) (disk (world s))).
Proof.
    intros Hr Hmin Hsec Hpos Ho Hc Hmax Hend Hbuf Ho2 Hc2 Hmax2 Hend2 Hbuf2.
    destruct (block_write_spec s off count data) as (s1 & -> & Hr1 & Hw1); [done || lia..|].
    rewrite s32_small by lia. exists s1.
    destruct (block_read_spec s1 off2 count2 buffer) as (s2 & -> & Hr2 & Hw2);
      rewrite ?Hw1, ?length_inserts; try done; try lia.
    rewrite s32_small by lia. set (new := list_inserts _ (slice 0 _ data) _).
    assert (Hnew : length new = length (disk (world s))) by apply length_inserts.
    rewrite inserts_whole by (rewrite slice_length; lia).
    eexists s2, _. do 3 (split; [done|]). unfold new.
    assert (Hd : length (slice 0 (Z.to_nat count) data) = Z.to_nat count) by (apply slice_length; lia).
    split.
    - intros -> ->. rewrite <- Hd at 1. apply slice_inserts_same. lia.
    - intros H. apply slice_inserts_disjoint. lia.
Qed.

  (** a block device read as a file is read sequentially: two reads of [a]
      and then [b] bytes return the [a + b] bytes from the file's offset and
      leave the offset behind them. *)
Theorem block_file_read_sequential s f a b buf1 buf2 :
    i_dev f = devid → rdy s → minor devid < nm → (blk | Z.of_nat (length (disk (world s)))) →
    (0 < length (disk (world s)))%nat → 0 < a → 0 < b → 0 <= f_off f → f_off f + a + b < 2147483648 →
    a / blk <= max → b / blk <= max → f_off f + a + b <= Z.of_nat (length (disk (world s))) →
    Z.of_nat (length buf1) = a → Z.of_nat (length buf2) = b →
    ∃ s1 f1 bytes1 s2 f2 bytes2,
      block_file_read s f buf1 a = Ret (s1, f1, bytes1, Ok a)
      ∧ block_file_read s1 f1 buf2 b = Ret (s2, f2, bytes2, Ok b)
      ∧ bytes1 ++ bytes2 = slice (Z.to_nat (f_off f)) (Z.to_nat (a + b)) (disk (world s))
      ∧ f2 = mk_bfile devid (f_off f + a + b).
Proof.
    intros Hf Hr Hmin Hsec Hpos Ha Hb Ho Hlim Hma Hmb Hend Hb1 Hb2. unfold block_file_read. rewrite Hf.
    destruct (block_read_spec s (f_off f) a buf1) as (s1 & -> & Hr1 & Hw1); [done || lia..|].
    cbn [obind advance_off]. rewrite (s32_small a), (proj2 (Z.ltb_lt _ _)), Hf, s32_small by lia.
    exists s1, (mk_bfile devid (f_off f + a)). eexists. cbn [i_dev f_off].
    destruct (block_read_spec s1 (f_off f + a) b buf2) as (s2 & -> & Hr2 & Hw2);
      rewrite ?Hw1; try done; try lia.
    cbn [obind advance_off i_dev f_off]. rewrite (s32_small b), (proj2 (Z.ltb_lt _ _)), s32_small by lia.
    do 3 eexists. split; [done|]. split; [done|]. split; [|done].
    rewrite !inserts_whole by (rewrite slice_length; lia). apply list_eq. intros i.
    rewrite lookup_app, !slice_lookup, slice_length by lia.
    repeat case_decide; try lia; try done.
    - destruct (_ !! _) eqn:E; [done|]. apply lookup_ge_None in E. lia.
    - f_equal. lia.
Qed.
End Transfer.

(** * Registration *)

Section Registration.
Context (major_makedev : ∀ a b, 0 <= a < 256 → 0 <= b < 256 → major (makedev a b) = a).
Context (minor_makedev : ∀ a b, 0 <= a < 256 → 0 <= b < 256 → minor (makedev a b) = b).

  (** registering a driver with no attach hook under a free major number
      makes its device answer for every minor below [nmin] with 512-byte
      sectors, and leaves the other devices alone; a taken number is refused
      with [-EBUSY] and changes nothing. *)
Theorem block_register s mj nmin o junk :
    0 <= mj < 256 → 0 < nmin → op_exist o = None → op_attach o = None → length junk = 512%nat →
    (vfs_dev s !! mj = None →
       ∃ s', register_block_device s mj nmin o true true junk = (s', Ok 0)
         ∧ ready o 512 nmin s' mj ∧ world s' = world s
         ∧ (∀ mn, 0 <= mn < 256 → mn < nmin → is_Some (get_block_device s' (makedev mj mn)))
         ∧ (∀ m', m' ≠ mj → vfs_dev s' !! m' = vfs_dev s !! m'))
    ∧ (is_Some (vfs_dev s !! mj) → register_block_device s mj nmin o true true junk = (s, Err EBUSY)).
Proof.
    intros Hmj Hn He Hat Hj. unfold register_block_device. assert ((256 <=? mj) = false) as Hlt by lia.
    rewrite Hlt, Hlt. split; [|by intros [d ->]]. intros ->.
    unfold block_attach, get_block_device. cbn [vfs_dev]. rewrite major_makedev, minor_makedev by lia.
    rewrite lookup_insert_eq. cbn [nminors ops negb]. rewrite (proj2 (Z.leb_gt _ _)), He by lia. cbn [ops].
    rewrite Hat. cbn [is_zero Z.eqb]. eexists. split; [done|]. split; [|split; [done|split]].
    - eexists _, _. cbn [vfs_dev]. rewrite lookup_insert_eq. repeat split; try done. simpl. lia.
    - intros mn Hmn Hlt2. rewrite major_makedev, minor_makedev by lia. cbn [vfs_dev]. rewrite lookup_insert_eq.
      cbn [nminors]. rewrite (proj2 (Z.leb_gt _ _)) by lia. cbn [ops]. by rewrite He.
    - intros m' Hne. by apply lookup_insert_ne.
Qed.

  (** a registered device can never be unregistered: its table entry is
      cleared before [block_detach] looks the device up there, so the detach
      fails, the entry is put back and -1 is returned, whatever the driver. *)
Theorem block_unregister_fails s mj dev :
    0 <= mj < 256 → vfs_dev s !! mj = Some dev → refs dev = 0 →
    unregister_block_device s mj = (s, Ok (-1)).
Proof.
    intros Hmj Hdev Hrefs. unfold unregister_block_device. rewrite (proj2 (Z.leb_gt _ _)), Hdev, Hrefs by lia.
    cbn [Z.eqb negb]. unfold block_detach, get_block_device. cbn [vfs_dev].
    rewrite major_makedev, lookup_delete_eq by lia. cbn [is_zero Z.eqb vfs_dev world].
    rewrite insert_delete_eq, insert_id by done. by destruct s.
Qed.
End Registration.
End Block.

(** * A driver that meets the contract: a disk in memory *)

Definition ram_read (blk : Z) (w : list Z) (devid lba n : Z) : outcome (list Z * result Z * list Z) :=
  if (lba + n) * blk <=? Z.of_nat (length w)
  then Ret (w, Ok 0, slice (Z.to_nat (lba * blk)) (Z.to_nat (n * blk)) w)
  else Ret (w, Err EFAULT, []).

Definition ram_write (blk : Z) (w : list Z) (devid lba n : Z) (data : list Z) : outcome (list Z * result Z) :=
  if (lba + n) * blk <=? Z.of_nat (length w)
  then Ret (list_inserts (Z.to_nat (lba * blk)) data w, Ok 0)
  else Ret (w, Err EFAULT).

Definition ram_driver (blk : Z) : block_operations :=
  mk_block_operations (Some (ram_read blk)) (Some (ram_write blk)) None None None None None None.

#[global] Instance ram_block_driver blk devid :
  0 < blk → BlockDriver (ram_driver blk) devid blk 4294967296 id.
Proof.
  intros Hb. constructor; [done|done|done| |]; unfold id.
  - intros w lba n Hl Hn Hend. exists (ram_read blk), w. unfold ram_read. by rewrite (proj2 (Z.leb_le _ _)).
  - intros w lba n data Hl Hn Hend Hd. exists (ram_write blk). eexists. unfold ram_write.
    by rewrite (proj2 (Z.leb_le _ _)).
Qed.

(** The C library's encoding of device numbers. *)
Definition lib_major (d : Z) : Z := Z.land (Z.shiftr d 8) 255.
Definition lib_minor (d : Z) : Z := Z.land d 255.
Definition lib_makedev (a b : Z) : Z := Z.lor (Z.shiftl (Z.land a 255) 8) (Z.land b 255).

Lemma lib_makedev_add a b : 0 <= a < 256 → 0 <= b < 256 → lib_makedev a b = a * 256 + b.
Proof.
  intros Ha Hb. unfold lib_makedev. change 255 with (Z.ones 8). rewrite !Z.land_ones by lia.
  rewrite !Z.mod_small by (change (2 ^ 8) with 256; lia). rewrite <- Z.add_nocarry_lor.
  - rewrite Z.shiftl_mul_pow2 by lia. done.
  - apply Z.bits_inj'. intros j Hj. rewrite Z.land_spec, Z.bits_0. destruct (Z.ltb_spec j 8).
    + by rewrite Z.shiftl_spec_low by lia.
    + rewrite (Z.bits_above_log2 b j), andb_false_r; [done|lia|].
      destruct (Z.eq_dec b 0) as [->|]; [simpl; lia|]. apply Z.log2_lt_pow2; [lia|].
      apply Z.lt_le_trans with (2 ^ 8); [change (2 ^ 8) with 256; lia|]. apply Z.pow_le_mono_r; lia.
Qed.

Lemma lib_major_makedev a b : 0 <= a < 256 → 0 <= b < 256 → lib_major (lib_makedev a b) = a.
Proof.
  intros Ha Hb. rewrite lib_makedev_add by done. unfold lib_major. change 255 with (Z.ones 8).
  rewrite Z.land_ones, Z.shiftr_div_pow2 by lia. change (2 ^ 8) with 256.
  rewrite Z.div_add_l, (Z.div_small b), Z.add_0_r by lia. by apply Z.mod_small.
Qed.

Lemma lib_minor_makedev a b : 0 <= a < 256 → 0 <= b < 256 → lib_minor (lib_makedev a b) = b.
Proof.
  intros Ha Hb. rewrite lib_makedev_add by done. unfold lib_minor. change 255 with (Z.ones 8).
  rewrite Z.land_ones by lia. change (2 ^ 8) with 256. rewrite Z.add_comm, Z_mod_plus_full.
  by apply Z.mod_small.
Qed.

(** A three-sector disk holding 0, 1, 2, ... registered under major 3. *)
Definition demo_disk : list Z := Z.of_nat <$> seq 0 1536.
Definition demo_block : kblock :=
  mk_kblock {[ 3 := mk_block_device (ram_driver 512) 512 4 0 (Some (replicate 512 0)) 0 ]} demo_disk.

Lemma demo_disk_length : length demo_disk = 1536%nat.
Proof. unfold demo_disk. by rewrite length_fmap, length_seq. Qed.

Lemma demo_block_ready : ready (ram_driver 512) 512 4 demo_block (lib_major 769).
Proof.
  change (lib_major 769) with 3. eexists _, _. unfold demo_block. cbn [vfs_dev]. rewrite lookup_singleton_eq.
  by repeat split.
Qed.

(** An unaligned read of 700 bytes from offset 500 that touches all three
    sectors. *)
Lemma block_read_bytes_witness :
  ∃ s' buffer', block_read lib_major lib_minor demo_block 769 500 700 (replicate 800 0) = Ret (s', buffer', Ok 700)
    ∧ take (Z.to_nat 700) buffer' = slice (Z.to_nat 500) (Z.to_nat 700) demo_disk
    ∧ drop (Z.to_nat 700) buffer' = drop (Z.to_nat 700) (replicate 800 0)
    ∧ id (world s') = id (world demo_block) ∧ ready (ram_driver 512) 512 4 s' (lib_major 769).
Proof.
  apply (block_read_bytes (disk := id) (BlockDriver0 := ram_block_driver 512 769 eq_refl) (nm := 4) lib_major lib_minor demo_block 500 700 (replicate 800 0));
    change (world demo_block) with demo_disk; unfold id; rewrite ?demo_disk_length, ?length_replicate;
    try done; try lia; [apply demo_block_ready|by exists 3].
Defined.

Lemma block_write_read_witness :
  ∃ s1 s2 bytes, block_write lib_major lib_minor demo_block 769 510 4 [7; 8; 9; 10] = Ret (s1, Ok 4)
    ∧ block_read lib_major lib_minor s1 769 510 4 [0; 0; 0; 0] = Ret (s2, bytes, Ok 4)
    ∧ bytes = slice (Z.to_nat 510) (Z.to_nat 4) (list_inserts (Z.to_nat 510) (slice 0 (Z.to_nat 4) [7; 8; 9; 10]) demo_disk)
    ∧ (510 = 510 → 4 = 4 → bytes = slice 0 (Z.to_nat 4) [7; 8; 9; 10])
    ∧ (510 + 4 <= 510 ∨ 510 + 4 <= 510 → bytes = slice (Z.to_nat 510) (Z.to_nat 4) demo_disk).
Proof.
  apply (block_write_read (disk := id) (BlockDriver0 := ram_block_driver 512 769 eq_refl) (nm := 4) lib_major lib_minor demo_block 510 4 [7; 8; 9; 10] 510 4 [0; 0; 0; 0]);
    change (world demo_block) with demo_disk; unfold id; rewrite ?demo_disk_length;
    try done; try lia; [apply demo_block_ready|by exists 3].
Defined.

Lemma block_file_read_sequential_witness :
  ∃ s1 f1 bytes1 s2 f2 bytes2,
    block_file_read lib_major lib_minor demo_block (mk_bfile 769 10) [0; 0] 2 = Ret (s1, f1, bytes1, Ok 2)
    ∧ block_file_read lib_major lib_minor s1 f1 [0; 0; 0] 3 = Ret (s2, f2, bytes2, Ok 3)
    ∧ bytes1 ++ bytes2 = slice (Z.to_nat 10) (Z.to_nat (2 + 3)) demo_disk ∧ f2 = mk_bfile 769 (10 + 2 + 3).
Proof.
  apply (block_file_read_sequential (disk := id) (BlockDriver0 := ram_block_driver 512 769 eq_refl) (nm := 4) lib_major lib_minor demo_block (mk_bfile 769 10) 2 3 [0; 0] [0; 0; 0]);
    change (world demo_block) with demo_disk; unfold id; rewrite ?demo_disk_length; cbn [f_off];
    try done; try lia; [apply demo_block_ready|by exists 3].
Defined.

Lemma block_register_witness :
  (vfs_dev demo_block !! 5 = None →
     ∃ s', register_block_device lib_major lib_minor lib_makedev demo_block 5 2 (ram_driver 512) true true (replicate 512 0) = (s', Ok 0)
       ∧ ready (ram_driver 512) 512 2 s' 5 ∧ world s' = world demo_block
       ∧ (∀ mn, 0 <= mn < 256 → mn < 2 → is_Some (get_block_device lib_major lib_minor s' (lib_makedev 5 mn)))
       ∧ (∀ m', m' ≠ 5 → vfs_dev s' !! m' = vfs_dev demo_block !! m'))
  ∧ (is_Some (vfs_dev demo_block !! 5) →
     register_block_device lib_major lib_minor lib_makedev demo_block 5 2 (ram_driver 512) true true (replicate 512 0) = (demo_block, Err EBUSY)).
Proof.
  apply (block_register lib_major lib_minor lib_makedev lib_major_makedev lib_minor_makedev); done || lia.
Defined.

Lemma block_unregister_fails_witness :
  unregister_block_device lib_major lib_minor lib_makedev demo_block 3 = (demo_block, Ok (-1)).
Proof.
  eapply (block_unregister_fails lib_major lib_minor lib_makedev lib_major_makedev demo_block 3); [lia|done|done].
Defined.

(** [register_block_device] is documented to return the major number it
    chose; asked for any free number it answers 0 while the device sits at
    another one. *)
Lemma register_hides_major :
  ∃ s', register_block_device lib_major lib_minor lib_makedev
      (mk_kblock {[ 0 := mk_block_device (ram_driver 512) 512 4 0 None 0 ]} demo_disk)
      256 4 (ram_driver 512) true true [] = (s', Ok 0)
    ∧ is_Some (vfs_dev s' !! 1).
Proof. eexists. split; [reflexivity|]. vm_compute. eauto. Qed.
