(* ===== verification/Dcache.v ===== *)
(** Inodes, directory entries, mounts and paths: [src/kernel/src/dentry.c]
    and the parts of [src/kernel/src/fs.c] that count references and resolve
    path names.

    Structures live at addresses; [pool] is the sequence of addresses the next
    calls of [kmalloc] return (empty: out of memory).  [None] as a pointer is
    NULL and using it faults ([Halt]).  A file-system driver is given by three
    functions: [fs_find] (what its [lookup] operation finds in a directory),
    [fs_read_inode] and [fs_put_inode]; [W] is its state.  A dentry that is
    freed leaves the map before its parent is released; nothing reads it in
    between. *)

From Stdlib Require Import Ascii.
From stdpp Require Import strings.
From S2P Require Import Prelude.

Record iattr := mk_iattr { i_mode : Z; i_uid : Z; i_gid : Z; i_size : Z; i_dev : Z; i_lookup : bool }.

Record inode := mk_inode { i_ino : Z; i_super : Z; i_ref : Z; i_attr : iattr }.

Record dentry := mk_dentry {
  d_name : string;
  d_inode : option Z;
  d_ref : Z;
  d_parent : option Z;
  d_children : list Z;
  d_mountpoint : option Z;
}.

Record superblock := mk_superblock { s_refs : Z; s_root : Z; s_inode_list : list Z; s_dev : Z }.
Record mount := mk_mount { m_super : Z; m_flags : Z; m_refs : Z }.
Record path := mk_path { p_dentry : Z; p_mount : option Z }.
Record mountpoint := mk_mountpoint { mp_point : path; mp_mounts : list Z }.

Definition MAXNAMELEN : nat := 256.

Section Dcache.
Context {W : Type}.
Context (fs_find : W → Z → Z → string → result Z).
Context (fs_read_inode : W → Z → Z → W * result iattr).
Context (fs_put_inode : W → Z → Z → W).

Record vfs := mk_vfs {
  inodes : gmap Z inode;
  dentries : gmap Z dentry;
  supers : gmap Z superblock;
  mounts : gmap Z mount;
  mpoints : gmap Z mountpoint;
  pool : list Z;
  fsw : W;
}.

Definition with_inodes (s : vfs) (x : gmap Z inode) : vfs :=
  mk_vfs x (dentries s) (supers s) (mounts s) (mpoints s) (pool s) (fsw s).
Definition with_dentries (s : vfs) (x : gmap Z dentry) : vfs :=
  mk_vfs (inodes s) x (supers s) (mounts s) (mpoints s) (pool s) (fsw s).
Definition with_supers (s : vfs) (x : gmap Z superblock) : vfs :=
  mk_vfs (inodes s) (dentries s) x (mounts s) (mpoints s) (pool s) (fsw s).
Definition with_mounts (s : vfs) (x : gmap Z mount) : vfs :=
  mk_vfs (inodes s) (dentries s) (supers s) x (mpoints s) (pool s) (fsw s).
Definition with_pool (s : vfs) (x : list Z) : vfs :=
  mk_vfs (inodes s) (dentries s) (supers s) (mounts s) (mpoints s) x (fsw s).
Definition with_fsw (s : vfs) (x : W) : vfs :=
  mk_vfs (inodes s) (dentries s) (supers s) (mounts s) (mpoints s) (pool s) x.

Definition set_iref (n : Z) (i : inode) : inode := mk_inode (i_ino i) (i_super i) n (i_attr i).
Definition set_dref (n : Z) (d : dentry) : dentry :=
  mk_dentry (d_name d) (d_inode d) n (d_parent d) (d_children d) (d_mountpoint d).
Definition set_children (l : list Z) (d : dentry) : dentry :=
  mk_dentry (d_name d) (d_inode d) (d_ref d) (d_parent d) l (d_mountpoint d).
Definition set_dinode (i : option Z) (d : dentry) : dentry :=
  mk_dentry (d_name d) i (d_ref d) (d_parent d) (d_children d) (d_mountpoint d).
Definition set_srefs (n : Z) (b : superblock) : superblock := mk_superblock n (s_root b) (s_inode_list b) (s_dev b).
Definition set_slist (l : list Z) (b : superblock) : superblock := mk_superblock (s_refs b) (s_root b) l (s_dev b).
Definition set_mrefs (n : Z) (m : mount) : mount := mk_mount (m_super m) (m_flags m) n.

(** * Superblocks and inodes *)

Definition super_get (s : vfs) (b : Z) : vfs :=
  with_supers s (alter (λ x, set_srefs (u32 (s_refs x + 1)) x) b (supers s)).

Definition super_put (s : vfs) (b : Z) : vfs :=
  with_supers s (alter (λ x, set_srefs (u32 (s_refs x - 1)) x) b (supers s)).

Definition i_getref (s : vfs) (i : Z) : vfs :=
  with_inodes s (alter (λ x, set_iref (u32 (i_ref x + 1)) x) i (inodes s)).

(** The inode with number [ino] among those of a superblock in memory. *)
Fixpoint find_inode (m : gmap Z inode) (l : list Z) (ino : Z) : option Z :=
  match l with
  | [] => None
  | a :: l => match m !! a with
              | Some i => if i_ino i =? ino then Some a else find_inode m l ino
              | None => find_inode m l ino
              end
  end.

Definition i_get (s : vfs) (b ino : Z) : outcome (vfs * result Z) :=
  match supers s !! b with
  | None => Halt
  | Some super =>
      match find_inode (inodes s) (s_inode_list super) ino with
      | Some a => Ret (i_getref s a, Ok a)
      | None =>
          match pool s with
          | [] => Halt
          | a :: rest =>
              let s := super_get (with_pool s rest) b in
              let '(w, r) := fs_read_inode (fsw s) b ino in
              let s := with_fsw s w in
              match r with
              | Err e => Ret (s, Err e)
              | Ok attr =>
                  let s := with_inodes s (<[a := mk_inode ino b 1 attr]> (inodes s)) in
                  Ret (with_supers s (alter (λ x, set_slist (a :: s_inode_list x) x) b (supers s)), Ok a)
              end
          end
      end
  end.

Definition i_free (s : vfs) (a : Z) : outcome vfs :=
  match inodes s !! a with
  | None => Halt
  | Some i =>
      let s := with_fsw s (fs_put_inode (fsw s) (i_super i) (i_ino i)) in
      let s := with_supers s (alter (λ x, set_slist (filter (λ y, y ≠ a) (s_inode_list x)) x) (i_super i) (supers s)) in
      let s := super_put s (i_super i) in
      Ret (with_inodes s (delete a (inodes s)))
  end.

Definition i_put (s : vfs) (a : Z) : outcome vfs :=
  match inodes s !! a with
  | None => Halt
  | Some i => if i_ref i =? 1 then i_free s a
              else Ret (with_inodes s (<[a := set_iref (u32 (i_ref i - 1)) i]> (inodes s)))
  end.

(** * Directory entries *)

Definition d_get (s : vfs) (d : option Z) : vfs :=
  match d with
  | None => s
  | Some d => with_dentries s (alter (λ x, set_dref (u32 (d_ref x + 1)) x) d (dentries s))
  end.

(** [d_put], with the body of [d_free] in place: the two functions call each
    other up the chain of parents.  [list_rem] unlinks the entry from its
    parent's list of children. *)
Fixpoint d_put (fuel : nat) (s : vfs) (d : option Z) : outcome vfs :=
  match fuel with
  | O => OutOfFuel
  | S fuel =>
      match d with
      | None => Halt
      | Some a =>
          match dentries s !! a with
          | None => Halt
          | Some e =>
              if d_ref e =? 1 then
                let s := match d_parent e with
                         | Some p => with_dentries s (alter (λ x, set_children (filter (λ y, y ≠ a) (d_children x)) x) p (dentries s))
                         | None => s
                         end in
                let s := with_dentries s (delete a (dentries s)) in
                s <~ match d_inode e with
                     | Some i => i_put s i
                     | None => Ret s
                     end ;;
                d_put fuel s (d_parent e)
              else Ret (with_dentries s (<[a := set_dref (u32 (d_ref e - 1)) e]> (dentries s)))
          end
      end
  end.

(** The result is NULL when memory is short.  [strncpy] keeps at most
    [MAXNAMELEN] bytes of the name. *)
Definition d_alloc (s : vfs) (name : string) (parent : option Z) : vfs * option Z :=
  match pool s with
  | [] => (s, None)
  | a :: rest =>
      let s := d_get (with_pool s rest) parent in
      let s := with_dentries s (<[a := mk_dentry (String.substring 0 MAXNAMELEN name) None 1 parent [] None]> (dentries s)) in
      (match parent with
       | Some p => with_dentries s (alter (λ x, set_children (a :: d_children x) x) p (dentries s))
       | None => s
       end, Some a)
  end.

Definition d_alloc_root (s : vfs) (i : Z) : outcome (vfs * Z) :=
  let '(s, r) := d_alloc s "" None in
  match r with
  | None => Halt
  | Some root =>
      let s := i_getref s i in
      Ret (with_dentries s (alter (set_dinode (Some i)) root (dentries s)), root)
  end.

Fixpoint find_child (m : gmap Z dentry) (l : list Z) (name : string) : option Z :=
  match l with
  | [] => None
  | a :: l => match m !! a with
              | Some e => if String.eqb name (d_name e) then Some a else find_child m l name
              | None => find_child m l name
              end
  end.

(** The [lookup] operation of a driver: search the directory for the name of
    the new entry and attach the inode found. *)
Definition fs_lookup (s : vfs) (dir : inode) (entry : Z) (name : string) : outcome (vfs * result unit) :=
  match fs_find (fsw s) (i_super dir) (i_ino dir) name with
  | Err e => Ret (s, Err e)
  | Ok ino =>
      ' (s, r) <~ i_get s (i_super dir) ino ;;
      match r with
      | Err e => Ret (s, Err EIO)
      | Ok i => Ret (with_dentries s (alter (set_dinode (Some i)) entry (dentries s)), Ok tt)
      end
  end.

Definition d_lookup (fuel : nat) (s : vfs) (dir : Z) (name : string) : outcome (vfs * result Z) :=
  match dentries s !! dir with
  | None => Halt
  | Some e =>
      match find_child (dentries s) (d_children e) name with
      | Some c => Ret (d_get s (Some c), Ok c)
      | None =>
          match d_inode e with
          | None => Ret (s, Err ENOENT)
          | Some i =>
              match inodes s !! i with
              | None => Halt
              | Some node =>
                  if negb (i_lookup (i_attr node)) then Ret (s, Err ENOENT)
                  else
                    let '(s, r) := d_alloc s name (Some dir) in
                    match r with
                    | None => Halt       (* IS_ERR does not catch NULL *)
                    | Some c =>
                        ' (s, r) <~ fs_lookup s node c (String.substring 0 MAXNAMELEN name) ;;
                        match r with
                        | Err err => s <~ d_put fuel s (Some c) ;; Ret (s, Err err)
                        | Ok tt => Ret (s, Ok c)
                        end
                    end
              end
          end
      end
  end.

(** * Mounts and paths *)

Definition mnt_get (s : vfs) (m : option Z) : vfs :=
  match m with
  | None => s
  | Some m => with_mounts s (alter (λ x, set_mrefs (u32 (m_refs x + 1)) x) m (mounts s))
  end.

Definition mnt_put (s : vfs) (m : option Z) : vfs :=
  match m with
  | None => s
  | Some m => with_mounts s (alter (λ x, set_mrefs (u32 (m_refs x - 1)) x) m (mounts s))
  end.

Definition path_put (fuel : nat) (s : vfs) (p : path) : outcome vfs :=
  s <~ d_put fuel s (Some (p_dentry p)) ;; Ret (mnt_put s (p_mount p)).

Definition path_copy (s : vfs) (p : path) : vfs * path :=
  (mnt_get (d_get s (Some (p_dentry p))) (p_mount p), p).

Definition path_get_parent (fuel : nat) (s : vfs) (p : path) : outcome (vfs * path) :=
  match dentries s !! p_dentry p with
  | None => Halt
  | Some e =>
      match d_parent e with
      | Some parent =>
          let s := d_get s (Some parent) in
          s <~ d_put fuel s (Some (p_dentry p)) ;;
          Ret (s, mk_path parent (p_mount p))
      | None =>
          match d_mountpoint e with
          | None => Halt
          | Some mp =>
              match mpoints s !! mp with
              | None => Halt
              | Some point =>
                  let '(s, parent) := path_copy s (mp_point point) in
                  s <~ path_put fuel s p ;;
                  let '(s, p) := path_copy s parent in
                  s <~ path_put fuel s parent ;;
                  Ret (s, p)
              end
          end
      end
  end.

(** * Access rights and path names *)

(** The mount flags are those of the C library's [sys/mount.h]; the mode bits
    and access modes are POSIX's. *)
Context (MS_RDONLY MS_NOEXEC : Z).

Definition X_OK : Z := 1.
Definition W_OK : Z := 2.
Definition R_OK : Z := 4.
Definition WP_PARENT : Z := 1.

Definition has (flags bit : Z) : bool := negb (Z.land flags bit =? 0).

(** The bit that applies to this user: owner, group or others. *)
Definition allowed (uid gid : Z) (a : iattr) (usr grp oth : Z) : bool :=
  if uid =? i_uid a then has (i_mode a) usr
  else if gid =? i_gid a then has (i_mode a) grp
  else has (i_mode a) oth.

Definition mount_has (s : vfs) (m : option Z) (flag : Z) : bool :=
  match m with
  | None => false
  | Some m => match mounts s !! m with
              | Some x => has (m_flags x) flag
              | None => false
              end
  end.

(** [path->p_dentry->d_inode]. *)
Definition inode_of (s : vfs) (d : Z) : option inode :=
  match dentries s !! d with
  | None => None
  | Some e => match d_inode e with
              | None => None
              | Some i => inodes s !! i
              end
  end.

(** [vfs_root], and the user and group of the running task. *)
Context (vfs_root uid gid : Z).

Definition path_access (s : vfs) (p : path) (mode : Z) : outcome (result unit) :=
  if negb (mode =? 0) && negb (Z.land mode (Z.lnot 7) =? 0) then Ret (Err EINVAL)
  else if mode =? 0 then Ret (Ok tt)
  else if (p_dentry p =? vfs_root) && bool_decide (p_mount p = None) then Ret (Ok tt)
  else match inode_of s (p_dentry p) with
  | None => Halt
  | Some node =>
      let a := i_attr node in
      if uid =? 0 then
        if mount_has s (p_mount p) MS_RDONLY && has mode W_OK then Ret (Err EROFS)
        else if has mode X_OK && negb (has (i_mode a) 73) then Ret (Err EACCES)
        else Ret (Ok tt)
      else if has mode W_OK && mount_has s (p_mount p) MS_RDONLY then Ret (Err EACCES)
      else if has mode W_OK && negb (allowed uid gid a 128 16 2) then Ret (Err EACCES)
      else if has mode R_OK && negb (allowed uid gid a 256 32 4) then Ret (Err EACCES)
      else if has mode X_OK && mount_has s (p_mount p) MS_NOEXEC then Ret (Err EACCES)
      else if has mode X_OK && negb (allowed uid gid a 64 8 1) then Ret (Err EACCES)
      else Ret (Ok tt)
  end.

(** [strchr(iter, '/')]: the text before the slash and the text behind it. *)
Fixpoint cut (iter : string) : string * option string :=
  match iter with
  | EmptyString => (EmptyString, None)
  | String c rest =>
      if Ascii.eqb c "/"%char then (EmptyString, Some rest)
      else let '(name, r) := cut rest in (String c name, r)
  end.

Definition char_at (n : nat) (s : string) (c : Ascii.ascii) : bool :=
  match String.get n s with Some x => Ascii.eqb x c | None => false end.

Definition ends_at (n : nat) (s : string) : bool :=
  match String.get n s with Some _ => false | None => true end.

(** The newest mount on a mount point and its superblock. *)
Definition top_mount (s : vfs) (mp : Z) : option (Z * superblock) :=
  match mpoints s !! mp with
  | None => None
  | Some point =>
      match mp_mounts point with
      | [] => None
      | m :: _ => match mounts s !! m with
                  | None => None
                  | Some x => match supers s !! m_super x with
                              | None => None
                              | Some b => Some (m, b)
                              end
                  end
      end
  end.

(** Step from a mount point to the root of the topmost mount. *)
Definition enter_mount (fuel : nat) (s : vfs) (p : path) : outcome (vfs * path) :=
  match dentries s !! p_dentry p with
  | None => Halt
  | Some e =>
      match d_mountpoint e with
      | None => Ret (s, p)
      | Some mp =>
          match top_mount s mp with
          | None => Halt
          | Some (m, b) =>
              if s_root b =? p_dentry p then Ret (s, p)
              else
                s <~ path_put fuel s p ;;
                Ret (mnt_get (d_get s (Some (s_root b))) (Some m), mk_path (s_root b) (Some m))
          end
      end
  end.

(** What the tests at the top of the loop decide: leave the loop, or go on
    with this path and this text. *)
Inductive dot_step : Type := Leave (s : vfs) (p : path) | Go (s : vfs) (p : path) (iter : string).

Definition dots (fuel : nat) (s : vfs) (p : path) (iter : string) : outcome dot_step :=
  if char_at 0 iter "." then
    if char_at 1 iter "/" then Ret (Go s p (String.substring 2 (String.length iter - 2) iter))
    else if char_at 1 iter "." then
      ' (s, p) <~ path_get_parent fuel s p ;;
      if ends_at 2 iter then Ret (Leave s p) else Ret (Go s p iter)
    else if ends_at 1 iter then Ret (Leave s p)
    else Ret (Go s p iter)
  else if ends_at 0 iter then Ret (Leave s p)
  else Ret (Go s p iter).

Fixpoint walk (n fuel : nat) (s : vfs) (p : path) (iter : string) (flags : Z) : outcome (vfs * result path) :=
  match n with
  | O => OutOfFuel
  | S n =>
      ' (s, p) <~ enter_mount fuel s p ;;
      d <~ dots fuel s p iter ;;
      match d with
      | Leave s p =>
          if has flags WP_PARENT then ' (s, p) <~ path_get_parent fuel s p ;; Ret (s, Ok p)
          else Ret (s, Ok p)
      | Go s p iter =>
          r <~ path_access s p X_OK ;;
          match r with
          | Err _ => s <~ path_put fuel s p ;; Ret (s, Err EACCES)
          | Ok tt =>
              match cut iter with
              | (name, None) =>
                  if ends_at 0 iter then
                    if has flags WP_PARENT then ' (s, p) <~ path_get_parent fuel s p ;; Ret (s, Ok p)
                    else Ret (s, Ok p)
                  else if has flags WP_PARENT then Ret (s, Ok p)
                  else
                    ' (s, r) <~ d_lookup fuel s (p_dentry p) name ;;
                    s <~ d_put fuel s (Some (p_dentry p)) ;;
                    match r with
                    | Err e => Ret (mnt_put s (p_mount p), Err e)
                    | Ok c => Ret (s, Ok (mk_path c (p_mount p)))
                    end
              | (name, Some rest) =>
                  ' (s, r) <~ d_lookup fuel s (p_dentry p) name ;;
                  match r with
                  | Err e => s <~ path_put fuel s p ;; Ret (s, Err e)
                  | Ok c =>
                      s <~ d_put fuel s (Some (p_dentry p)) ;;
                      walk n fuel s (mk_path c (p_mount p)) rest flags
                  end
              end
          end
      end
  end.

Definition path_lookup (fuel : nat) (s : vfs) (cwd : path) (name : option string) (flags : Z) :
    outcome (vfs * result path) :=
  match name with
  | None => Ret (s, Err ENOENT)
  | Some name =>
      if (511 <? Z.of_nat (String.length name)) then Ret (s, Err ENAMETOOLONG)
      else if char_at 0 name "/" then
        walk (S (String.length name)) fuel (d_get s (Some vfs_root)) (mk_path vfs_root None)
          (String.substring 1 (String.length name - 1) name) flags
      else
        let '(s, p) := path_copy s cwd in
        walk (S (String.length name)) fuel s p name flags
  end.

End Dcache.
