(* ===== verification/DcacheInv.v ===== *)
(** Reference counting in the directory cache: the invariant that every
    count equals the number of references that exist, and that each operation
    keeps it.  [hd], [hi] and [hm] list the references to dentries, inodes and
    mounts that are held from outside (open files, working directories, mount
    structures, the caller of an operation): an operation that returns a new
    reference adds one element, one that releases a reference takes one. *)

From stdpp Require Import strings.
From S2P Require Import Prelude Dcache.

(** * Counting *)

Definition occ (x : Z) (l : list Z) : nat := length (filter (λ y, y = x) l).

Lemma occ_nil x : occ x [] = 0%nat.
Proof. done. Qed.

Lemma occ_cons x y l : occ x (y :: l) = (if decide (y = x) then S (occ x l) else occ x l).
Proof. unfold occ. rewrite filter_cons. by case_decide. Qed.

Lemma occ_app x l k : occ x (l ++ k) = (occ x l + occ x k)%nat.
Proof. unfold occ. by rewrite filter_app, length_app. Qed.

Lemma occ_elem x l : x ∈ l ↔ (0 < occ x l)%nat.
Proof.
  induction l as [|y l IH]; [split; [by intros ?%elem_of_nil|rewrite occ_nil; lia]|].
  rewrite elem_of_cons, IH, occ_cons. case_decide; naive_solver lia.
Qed.

#[global] Instance occ_perm x : Proper ((≡ₚ) ==> eq) (occ x).
Proof. intros l k H. unfold occ. by rewrite H. Qed.

Section Count.
Context {A : Type}.
Implicit Types (m : gmap Z A) (P : A → bool).

(** The number of entries of a map that satisfy a test. *)
Definition cnt P m : nat := size (filter (λ kv, P kv.2 = true) m).

Lemma cnt_delete P m k e :
  m !! k = Some e → cnt P m = (cnt P (delete k m) + (if P e then 1 else 0))%nat.
Proof.
  intros Hk. unfold cnt. rewrite map_filter_delete. destruct (P e) eqn:E.
  - assert (filter (λ kv : Z * A, P kv.2 = true) m !! k = Some e) as Hf by by apply map_lookup_filter_Some.
    rewrite map_size_delete_Some by eauto.
    assert (0 < size (filter (λ kv : Z * A, P kv.2 = true) m))%nat; [|lia].
    destruct (decide (size (filter (λ kv : Z * A, P kv.2 = true) m) = 0%nat)) as [H0|]; [|lia].
    apply map_size_empty_inv in H0. rewrite H0 in Hf. done.
  - rewrite map_size_delete_None; [lia|]. apply map_lookup_filter_None. right. simpl. intros x Hx.
    rewrite Hk in Hx. injection Hx as <-. by rewrite E.
Qed.

Lemma cnt_insert_new P m k e :
  m !! k = None → cnt P (<[k := e]> m) = (cnt P m + (if P e then 1 else 0))%nat.
Proof.
  intros Hk. rewrite (cnt_delete P _ k e) by apply lookup_insert_eq.
  by rewrite delete_insert_id.
Qed.

Lemma cnt_update P m k e e' :
  m !! k = Some e → P e = P e' → cnt P (<[k := e']> m) = cnt P m.
Proof.
  intros Hk HP. rewrite (cnt_delete P _ k e') by apply lookup_insert_eq.
  rewrite (cnt_delete P m k e) by done. by rewrite delete_insert_eq, HP.
Qed.

Lemma cnt_le P m : (cnt P m <= size m)%nat.
Proof. apply map_subseteq_size, map_filter_subseteq. Qed.

Lemma cnt_pos P m k e : m !! k = Some e → P e = true → (0 < cnt P m)%nat.
Proof. intros Hk HP. rewrite (cnt_delete P m k e Hk), HP. lia. Qed.

Lemma cnt_zero P m : (∀ k e, m !! k = Some e → P e = false) → cnt P m = 0%nat.
Proof.
  intros H. unfold cnt. apply map_size_empty_iff, map_empty. intros k. apply map_lookup_filter_None.
  right. intros x Hx. simpl. by rewrite (H k x Hx).
Qed.
End Count.

(** * The invariant *)

Section Inv.
Context {W : Type} (fs_put_inode : W → Z → Z → W).
Implicit Types (s : vfs (W := W)) (hd hi hm : list Z).

Definition child_of (p : Z) (e : dentry) : bool := bool_decide (d_parent e = Some p).
Definition refers_to (i : Z) (e : dentry) : bool := bool_decide (d_inode e = Some i).

(** Entries in memory and entries that can still be allocated. *)
Definition capacity s : nat := (size (dentries s) + length (pool s))%nat.

(** The counts of entries and inodes are the numbers of references to them; [hd]
    and [hi] are the references held from outside.  The counts of superblocks are
    not part of this: the code leaks them when an inode cannot be read. *)
Record counted s hd hi : Prop := {
  ct_dref : ∀ d e, dentries s !! d = Some e → d_ref e = Z.of_nat (cnt (child_of d) (dentries s) + occ d hd);
  ct_held : ∀ d, d ∈ hd → is_Some (dentries s !! d);
  ct_parent : ∀ d e p, dentries s !! d = Some e → d_parent e = Some p → is_Some (dentries s !! p);
  ct_children : ∀ p e, dentries s !! p = Some e →
    ∀ c, c ∈ d_children e ↔ ∃ e', dentries s !! c = Some e' ∧ d_parent e' = Some p;
  ct_inode : ∀ d e i, dentries s !! d = Some e → d_inode e = Some i → is_Some (inodes s !! i);
  ct_iref : ∀ i n, inodes s !! i = Some n → i_ref n = Z.of_nat (cnt (refers_to i) (dentries s) + occ i hi);
  ct_iheld : ∀ i, i ∈ hi → is_Some (inodes s !! i);
  ct_super : ∀ i n, inodes s !! i = Some n →
    ∃ b, supers s !! i_super n = Some b ∧ i ∈ s_inode_list b;
  ct_list : ∀ a b i, supers s !! a = Some b → i ∈ s_inode_list b →
    ∃ n, inodes s !! i = Some n ∧ i_super n = a;
  ct_pool : NoDup (pool s) ∧ ∀ a, a ∈ pool s → dentries s !! a = None ∧ inodes s !! a = None;
  ct_size : Z.of_nat (capacity s) < 2147483648;
}.

(** Every tree of entries hangs on an entry somebody holds. *)
Definition rooted s hd : Prop := ∀ d e, dentries s !! d = Some e → d_parent e = None → d ∈ hd.

(** No counter is near overflow. *)
Definition few (k : Z) (l : list Z) : Prop := Z.of_nat (length l) + k < 2147483640.

Lemma occ_length x l : (occ x l <= length l)%nat.
Proof. apply length_filter. Qed.

(** ** Inodes *)

(** What the directory cache sees of an operation on inodes only. *)
Definition same_dentries s s' : Prop :=
  dentries s' = dentries s ∧ mounts s' = mounts s ∧ mpoints s' = mpoints s
  ∧ s_root <$> supers s' = s_root <$> supers s.

Lemma counted_perm s hd hi hd' hi' : hd ≡ₚ hd' → hi ≡ₚ hi' → counted s hd hi → counted s hd' hi'.
Proof.
  intros Hd Hi []. constructor; try done.
  - intros d e H. rewrite <- Hd. auto.
  - intros d H. rewrite <- Hd in H. auto.
  - intros d e H. rewrite <- Hi. auto.
  - intros d H. rewrite <- Hi in H. auto.
Qed.

Lemma super_root_alter f (a : Z) (m : gmap Z superblock) :
  (∀ x, s_root (f x) = s_root x) → s_root <$> alter f a m = s_root <$> m.
Proof.
  intros H. apply map_eq. intros k. rewrite !lookup_fmap. destruct (decide (k = a)) as [->|].
  - rewrite lookup_alter_eq. by destruct (m !! a); simpl; rewrite ?H.
  - by rewrite lookup_alter_ne.
Qed.

Lemma alter_Some {A} (f : A → A) (k : Z) (m : gmap Z A) x : m !! k = Some x → alter f k m = <[k := f x]> m.
Proof.
  intros H. apply map_eq. intros j. rewrite lookup_insert, lookup_alter. case_decide; [|done].
  subst. by rewrite H.
Qed.

Lemma alter_None {A} (f : A → A) (k : Z) (m : gmap Z A) : m !! k = None → alter f k m = m.
Proof.
  intros H. apply map_eq. intros j. rewrite lookup_alter. case_decide; [|done]. subst j. by rewrite H.
Qed.

Lemma size_alter {A} (f : A → A) (k : Z) (m : gmap Z A) : size (alter f k m) = size m.
Proof.
  destruct (m !! k) as [x|] eqn:E; [|by rewrite alter_None].
  rewrite (alter_Some _ _ _ x) by done. by rewrite map_size_insert_Some.
Qed.

(** One inode is replaced by another of the same superblock, and the
    references held to it change. *)
Lemma counted_inode s hd hi hi' i n n' :
  counted s hd hi → inodes s !! i = Some n → i_super n' = i_super n → (∀ j, j ≠ i → occ j hi' = occ j hi) →
  i_ref n' = Z.of_nat (cnt (refers_to i) (dentries s) + occ i hi') →
  counted (with_inodes s (<[i := n']> (inodes s))) hd hi'.
Proof.
  intros [] Hn Hsup Ho Hk. constructor; simpl; try done.
  - intros d e j Hd Hj. rewrite lookup_insert_is_Some'. eauto.
  - intros j x. rewrite lookup_insert. case_decide as E.
    + intros [= <-]. by subst j.
    + intros Hj. by rewrite (ct_iref0 j x Hj), Ho.
  - intros j Hj. rewrite lookup_insert_is_Some'. destruct (decide (i = j)) as [|Hne]; [by left|right].
    apply ct_iheld0. rewrite occ_elem in *. by rewrite <- Ho.
  - intros j x. rewrite lookup_insert. case_decide as E; [|by apply ct_super0].
    intros [= <-]. subst j. rewrite Hsup. by apply (ct_super0 i n).
  - intros a b j Ha Hj. destruct (ct_list0 a b j Ha Hj) as (x & Hx & Hs). rewrite lookup_insert.
    case_decide as E; [|eauto]. subst j. eexists. split; [done|]. congruence.
  - split; [apply ct_pool0|]. intros a Ha. destruct ct_pool0 as [_ Hp]. destruct (Hp a Ha) as [-> Hi].
    split; [done|]. rewrite lookup_insert. case_decide; [|done]. subst a. by rewrite Hn in Hi.
Qed.

(** Only the count of one inode and the references held to it change. *)
Lemma counted_iref s hd hi hi' i n k :
  counted s hd hi → inodes s !! i = Some n → (∀ j, j ≠ i → occ j hi' = occ j hi) →
  k = Z.of_nat (cnt (refers_to i) (dentries s) + occ i hi') →
  counted (with_inodes s (<[i := set_iref k n]> (inodes s))) hd hi'.
Proof. intros H Hn Ho Hk. by apply (counted_inode s hd hi hi' i n). Qed.

Lemma iref_bound s hd hi i n :
  counted s hd hi → inodes s !! i = Some n → few 0 hi → 0 <= i_ref n < 4294967290.
Proof.
  intros [] Hn Hf. rewrite (ct_iref0 i n Hn). pose proof (cnt_le (refers_to i) (dentries s)).
  pose proof (occ_length i hi). unfold capacity, few in *. lia.
Qed.

Lemma i_getref_counted s hd hi i :
  counted s hd hi → is_Some (inodes s !! i) → few 0 hi →
  counted (i_getref s i) hd (i :: hi) ∧ same_dentries s (i_getref s i).
Proof.
  intros H [n Hn] Hf. split; [|done]. pose proof (iref_bound _ _ _ _ _ H Hn Hf). unfold i_getref.
  rewrite (alter_Some _ _ _ n), u32_small by (done || lia). apply (counted_iref s hd hi); [done..| |].
  - intros j Hj. rewrite occ_cons. by rewrite decide_False.
  - rewrite (ct_iref _ _ _ H i n Hn), occ_cons, decide_True by done. lia.
Qed.

(** Removing an inode nobody refers to. *)
Lemma i_free_counted s hd hi i n :
  counted s hd (i :: hi) → inodes s !! i = Some n → i_ref n = 1 →
  ∃ s', i_free fs_put_inode s i = Ret s' ∧ counted s' hd hi ∧ same_dentries s s' ∧ pool s' = pool s.
Proof.
  intros [] Hn H1. pose proof (ct_iref0 i n Hn) as Hr. rewrite occ_cons, decide_True in Hr by done.
  assert (Hno : ∀ d e, dentries s !! d = Some e → d_inode e ≠ Some i).
  { intros d e Hd Hj. pose proof (cnt_pos (refers_to i) (dentries s) d e Hd) as Hp. unfold refers_to at 1 in Hp.
    rewrite bool_decide_eq_true in Hp. specialize (Hp Hj). lia. }
  assert (Hni : i ∉ hi) by (rewrite occ_elem; lia).
  unfold i_free. rewrite Hn. eexists. split; [done|]. split; [|split; [|done]].
  2: { unfold same_dentries, super_put. simpl. by rewrite !super_root_alter. }
  constructor; simpl; try done.
  - intros d e j Hd Hj. rewrite lookup_delete_ne; [eauto|]. intros <-. by destruct (Hno d e Hd).
  - intros j x. rewrite lookup_delete. case_decide; [done|]. intros Hj. rewrite (ct_iref0 j x Hj), occ_cons.
    by rewrite decide_False.
  - intros j Hj. rewrite lookup_delete_ne by congruence. apply ct_iheld0. by right.
  - intros j x. rewrite lookup_delete. case_decide as E; [done|]. intros Hj.
    destruct (ct_super0 j x Hj) as (b & Hb & Hin). destruct (decide (i_super n = i_super x)) as [E2|].
    + rewrite <- E2 in *. rewrite !lookup_alter_eq, Hb. simpl. eexists. split; [done|]. simpl.
      apply list_elem_of_filter. naive_solver.
    + rewrite !lookup_alter_ne by done. eauto.
  - intros a b j Ha Hj.
    assert (∃ b0, supers s !! a = Some b0 ∧ j ∈ s_inode_list b0 ∧ j ≠ i) as (b0 & Hb0 & Hj0 & Hji).
    { destruct (decide (i_super n = a)) as [<-|E].
      - rewrite !lookup_alter_eq in Ha. destruct (supers s !! i_super n) as [b0|] eqn:E0; [|done].
        injection Ha as <-. simpl in Hj. apply list_elem_of_filter in Hj. naive_solver.
      - rewrite !lookup_alter_ne in Ha by done. exists b. split; [done|]. split; [done|]. intros ->.
        destruct (ct_list0 a b i Ha Hj) as (n' & Hn' & ?). naive_solver. }
    rewrite lookup_delete_ne by done. eauto.
  - split; [apply ct_pool0|]. intros a Ha. destruct ct_pool0 as [_ Hp]. destruct (Hp a Ha) as [-> Hi].
    split; [done|]. rewrite lookup_delete. by case_decide.
Qed.

Lemma i_put_counted s hd hi i :
  counted s hd (i :: hi) → few 1 hi →
  ∃ s', i_put fs_put_inode s i = Ret s' ∧ counted s' hd hi ∧ same_dentries s s' ∧ pool s' = pool s.
Proof.
  intros H Hf. destruct (ct_iheld _ _ _ H i) as [n Hn]; [by left|]. unfold i_put. rewrite Hn.
  pose proof (ct_iref _ _ _ H i n Hn) as Hr. rewrite occ_cons, decide_True in Hr by done.
  destruct (Z.eqb_spec (i_ref n) 1) as [H1|H1]; [by eapply i_free_counted|].
  assert (Hf' : few 0 (i :: hi)) by (unfold few in *; simpl; lia).
  pose proof (iref_bound _ _ _ _ _ H Hn Hf'). eexists. split; [done|]. split; [|done].
  rewrite u32_small by lia. apply (counted_iref s hd (i :: hi)); [done..| |lia].
  intros j Hj. rewrite occ_cons. by rewrite decide_False.
Qed.

(** ** Directory entries *)

(** What never changes in an entry that stays in memory. *)
Definition shape (e : dentry) : string * option Z * option Z * option Z :=
  (d_name e, d_inode e, d_parent e, d_mountpoint e).

Definition shrinks s s' : Prop :=
  (∀ d e', dentries s' !! d = Some e' → ∃ e, dentries s !! d = Some e ∧ shape e' = shape e)
  ∧ mounts s' = mounts s ∧ mpoints s' = mpoints s ∧ s_root <$> supers s' = s_root <$> supers s.

#[global] Instance shrinks_preorder : PreOrder shrinks.
Proof.
  split.
  - intros s. split; [eauto|done].
  - intros s1 s2 s3 (H1 & Ha & Hb & Hc) (H2 & Ha' & Hb' & Hc'). split; [|split; [congruence|split; congruence]].
    intros d e3 H3. destruct (H2 d e3 H3) as (e2 & He2 & E2). destruct (H1 d e2 He2) as (e1 & He1 & E1).
    exists e1. split; [done|]. congruence.
Qed.

Lemma same_dentries_shrinks s s' : same_dentries s s' → shrinks s s'.
Proof. intros (H & Ha & Hb & Hc). split; [rewrite H; eauto|done]. Qed.

Lemma dref_bound s hd hi d e :
  counted s hd hi → dentries s !! d = Some e → few 0 hd → 0 <= d_ref e < 4294967290.
Proof.
  intros [] Hd Hf. rewrite (ct_dref0 d e Hd). pose proof (cnt_le (child_of d) (dentries s)).
  pose proof (occ_length d hd). unfold capacity, few in *. lia.
Qed.

(** Only the count of one entry and the references held to it change. *)
Lemma counted_dref s hd hd' hi d e k :
  counted s hd hi → dentries s !! d = Some e → (∀ j, j ≠ d → occ j hd' = occ j hd) →
  k = Z.of_nat (cnt (child_of d) (dentries s) + occ d hd') →
  counted (with_dentries s (<[d := set_dref k e]> (dentries s))) hd' hi.
Proof.
  intros [] Hd Ho Hk.
  assert (Hcnt : ∀ P, P e = P (set_dref k e) → cnt P (<[d := set_dref k e]> (dentries s)) = cnt P (dentries s))
    by (intros P HP; by apply (cnt_update P _ d e)).
  constructor; simpl; try done.
  - intros j x. rewrite lookup_insert, Hcnt by done. case_decide as E.
    + intros [= <-]. by subst j.
    + intros Hj. by rewrite (ct_dref0 j x Hj), Ho.
  - intros j Hj. rewrite lookup_insert_is_Some'. destruct (decide (d = j)) as [|Hne]; [by left|right].
    apply ct_held0. rewrite occ_elem in *. by rewrite <- Ho.
  - intros j x p. rewrite lookup_insert, lookup_insert_is_Some'. case_decide as E; [|eauto].
    intros [= <-] Hp. right. by apply (ct_parent0 d e).
  - intros p x Hp c.
    assert (∃ x0, dentries s !! p = Some x0 ∧ d_children x = d_children x0) as (x0 & Hx0 & ->).
    { rewrite lookup_insert in Hp. case_decide as E; [|eauto]. injection Hp as <-. subst p. eauto. }
    rewrite (ct_children0 p x0 Hx0 c). split; intros (y & Hy & Hyp).
    + rewrite lookup_insert. case_decide as E; [|eauto]. subst c. exists (set_dref k e). naive_solver.
    + rewrite lookup_insert in Hy. case_decide as E; [|eauto]. subst c. injection Hy as <-. eauto.
  - intros j x i. rewrite lookup_insert. case_decide as E; [|eauto]. intros [= <-]. by apply (ct_inode0 d e).
  - intros i n Hi. rewrite Hcnt by done. auto.
  - split; [apply ct_pool0|]. intros a Ha. destruct ct_pool0 as [_ Hp]. destruct (Hp a Ha) as [Hn ->].
    split; [|done]. rewrite lookup_insert. case_decide; [|done]. subst a. by rewrite Hd in Hn.
  - unfold capacity in *. simpl. by rewrite map_size_insert_Some.
Qed.

Lemma shrinks_dref s d e k :
  dentries s !! d = Some e → shrinks s (with_dentries s (<[d := set_dref k e]> (dentries s))).
Proof.
  intros Hd. split; [|done]. simpl. intros j x. rewrite lookup_insert. case_decide as E; [|eauto].
  intros [= <-]. subst j. eauto.
Qed.

Lemma d_get_counted s hd hi d :
  counted s hd hi → is_Some (dentries s !! d) → few 0 hd →
  counted (d_get s (Some d)) (d :: hd) hi ∧ shrinks s (d_get s (Some d)).
Proof.
  intros H [e Hd] Hf. pose proof (dref_bound _ _ _ _ _ H Hd Hf). unfold d_get.
  rewrite (alter_Some _ _ _ e), u32_small by (done || lia). split; [|by apply shrinks_dref].
  apply (counted_dref s hd); [done..| |].
  - intros j Hj. rewrite occ_cons. by rewrite decide_False.
  - rewrite (ct_dref _ _ _ H d e Hd), occ_cons, decide_True by done. lia.
Qed.

(** An entry without references disappears: its parent and its inode lose
    one. *)
Definition unlink_entry s (d : Z) (e : dentry) : vfs :=
  let s := match d_parent e with
           | Some p => with_dentries s (alter (λ x, set_children (filter (λ y, y ≠ d) (d_children x)) x) p (dentries s))
           | None => s
           end in
  with_dentries s (delete d (dentries s)).

Lemma unlink_lookup s d e x e2 :
  dentries (unlink_entry s d e) !! x = Some e2 →
  x ≠ d ∧ ∃ e0, dentries s !! x = Some e0 ∧ shape e2 = shape e0 ∧ d_ref e2 = d_ref e0
    ∧ d_children e2 = (if decide (d_parent e = Some x) then filter (λ y, y ≠ d) (d_children e0) else d_children e0).
Proof.
  unfold unlink_entry. destruct (d_parent e) as [p|]; simpl; rewrite lookup_delete; case_decide as E; try done.
  - rewrite lookup_alter. intros H. split; [congruence|]. case_decide as E2.
    + subst x. destruct (dentries s !! p) as [e0|] eqn:Hp; [|done]. injection H as <-. exists e0.
      rewrite decide_True by done. done.
    + exists e2. rewrite decide_False by congruence. done.
  - intros H. split; [congruence|]. exists e2. done.
Qed.

Lemma unlink_lookup_is_Some s d e x :
  is_Some (dentries (unlink_entry s d e) !! x) ↔ x ≠ d ∧ is_Some (dentries s !! x).
Proof.
  unfold unlink_entry. destruct (d_parent e) as [p|]; simpl; rewrite lookup_delete_is_Some, ?lookup_alter_is_Some;
    naive_solver.
Qed.

Lemma unlink_cnt P s d e :
  (∀ l x, P (set_children l x) = P x) → dentries s !! d = Some e → d_parent e ≠ Some d →
  cnt P (dentries s) = (cnt P (dentries (unlink_entry s d e)) + (if P e then 1 else 0))%nat.
Proof.
  intros HP Hd Hne. unfold unlink_entry. destruct (d_parent e) as [p|] eqn:Ep; simpl; [|by apply cnt_delete].
  set (D1 := alter _ p _). assert (HD1 : D1 !! d = Some e) by (unfold D1; rewrite lookup_alter_ne; congruence).
  rewrite <- (cnt_delete P D1 d e HD1). unfold D1. destruct (dentries s !! p) as [x|] eqn:Hp.
  - rewrite (alter_Some _ _ _ x) by done. symmetry. apply (cnt_update P _ p x); [done|]. by rewrite HP.
  - by rewrite alter_None.
Qed.

Lemma shape_fields e e' :
  shape e = shape e' →
  d_name e = d_name e' ∧ d_inode e = d_inode e' ∧ d_parent e = d_parent e' ∧ d_mountpoint e = d_mountpoint e'.
Proof. unfold shape. intros [= ? ? ? ?]. done. Qed.

Lemma occ_option_list x (o : option Z) l :
  occ x (option_list o ++ l) = ((if bool_decide (o = Some x) then 1 else 0) + occ x l)%nat.
Proof.
  destruct o as [y|]; [|done]. change (option_list (Some y) ++ l) with (y :: l). rewrite occ_cons.
  case_decide; case_bool_decide; naive_solver.
Qed.

Lemma no_child s hd hi d e c x :
  counted s (d :: hd) hi → dentries s !! d = Some e → d_ref e = 1 →
  dentries s !! c = Some x → d_parent x ≠ Some d.
Proof.
  intros [] Hd H1 Hc Hp. pose proof (ct_dref0 d e Hd) as Hr. rewrite occ_cons, decide_True in Hr by done.
  pose proof (cnt_pos (child_of d) (dentries s) c x Hc) as Hpos. unfold child_of at 1 in Hpos.
  rewrite bool_decide_eq_true in Hpos. specialize (Hpos Hp). lia.
Qed.

Lemma unlink_size s d e :
  is_Some (dentries s !! d) → S (size (dentries (unlink_entry s d e))) = size (dentries s).
Proof.
  intros Hd. unfold unlink_entry.
  assert (Hs : ∀ D : gmap Z dentry, is_Some (D !! d) → S (size (delete d D)) = size D).
  { intros D HD. rewrite map_size_delete_Some by done. assert (size D ≠ 0%nat); [|lia].
    intros H0%map_size_empty_inv. subst D. destruct HD. done. }
  destruct (d_parent e); simpl; rewrite Hs; rewrite ?lookup_alter_is_Some; try done. by rewrite size_alter.
Qed.

Lemma unlink_counted s hd hi d e :
  counted s (d :: hd) hi → dentries s !! d = Some e → d_ref e = 1 →
  counted (unlink_entry s d e) (option_list (d_parent e) ++ hd) (option_list (d_inode e) ++ hi).
Proof.
  intros H Hd H1. pose proof (λ c x, no_child s hd hi d e c x H Hd H1) as Hleaf. destruct H.
  pose proof (ct_dref0 d e Hd) as Hr. rewrite occ_cons, decide_True in Hr by done.
  assert (Hni : d ∉ hd) by (rewrite occ_elem; lia).
  assert (Hpd : d_parent e ≠ Some d) by by apply (Hleaf d).
  assert (Hin : inodes (unlink_entry s d e) = inodes s ∧ supers (unlink_entry s d e) = supers s
    ∧ pool (unlink_entry s d e) = pool s) by (unfold unlink_entry; by destruct (d_parent e)).
  destruct Hin as (Ei & Es & Ep).
  constructor; rewrite ?Ei, ?Es, ?Ep; try done.
  - intros x e2 Hx. apply unlink_lookup in Hx as (Hxd & e0 & He0 & _ & -> & _).
    rewrite (ct_dref0 x e0 He0), occ_cons, decide_False by congruence.
    rewrite (unlink_cnt (child_of x) s d e) by done. rewrite occ_option_list. unfold child_of at 2. lia.
  - intros x Hx. rewrite elem_of_app in Hx. rewrite unlink_lookup_is_Some. destruct Hx as [Hx|Hx].
    + destruct (d_parent e) as [p|] eqn:E; simpl in Hx; [|by apply elem_of_nil in Hx].
      apply list_elem_of_singleton in Hx as ->. split; [congruence|]. by apply (ct_parent0 d e).
    + split; [congruence|]. apply ct_held0. by right.
  - intros x e2 p Hx Hp. apply unlink_lookup in Hx as (Hxd & e0 & He0 & Hsh & _).
    apply shape_fields in Hsh as (_ & _ & Hsh & _). rewrite Hsh in Hp. rewrite unlink_lookup_is_Some.
    split; [intros ->; by apply (Hleaf x e0)|by apply (ct_parent0 x e0)].
  - intros p e2 Hp c. apply unlink_lookup in Hp as (Hpd2 & e0 & He0 & _ & _ & ->).
    assert (Hc : (∃ e', dentries (unlink_entry s d e) !! c = Some e' ∧ d_parent e' = Some p)
      ↔ c ≠ d ∧ c ∈ d_children e0).
    { rewrite (ct_children0 p e0 He0 c). split.
      - intros (e' & He' & Hpar). apply unlink_lookup in He' as (Hcd & e1 & He1 & Hsh & _).
        apply shape_fields in Hsh as (_ & _ & Hsh & _). split; [done|]. exists e1. split; congruence.
      - intros (Hcd & e1 & He1 & Hpar).
        destruct (proj2 (unlink_lookup_is_Some s d e c)) as [e' He']; [split; [done|by exists e1]|].
        exists e'. split; [done|]. apply unlink_lookup in He' as (_ & e3 & He3 & Hsh & _).
        apply shape_fields in Hsh as (_ & _ & Hsh & _). congruence. }
    rewrite Hc. case_decide as E; [by rewrite list_elem_of_filter|]. split; [|naive_solver].
    intros Hin. split; [|done]. intros ->. apply (ct_children0 p e0 He0) in Hin as (e' & He' & Hpar). congruence.
  - intros x e2 i Hx Hi. apply unlink_lookup in Hx as (_ & e0 & He0 & Hsh & _).
    apply shape_fields in Hsh as (_ & Hsh & _). apply (ct_inode0 x e0); congruence.
  - intros i n Hi. rewrite (ct_iref0 i n Hi), (unlink_cnt (refers_to i) s d e) by done.
    rewrite occ_option_list. unfold refers_to at 2. lia.
  - intros i Hi. rewrite elem_of_app in Hi. destruct Hi as [Hi|Hi]; [|by apply ct_iheld0].
    destruct (d_inode e) as [j|] eqn:E; simpl in Hi; [|by apply elem_of_nil in Hi].
    apply list_elem_of_singleton in Hi as ->. by apply (ct_inode0 d e).
  - split; [apply ct_pool0|]. intros a Ha. destruct ct_pool0 as [_ Hp]. destruct (Hp a Ha) as [Hn ->]. split; [|done].
    apply eq_None_not_Some. rewrite unlink_lookup_is_Some. intros [_ Hs]. rewrite Hn in Hs. by destruct Hs.
  - unfold capacity in *. rewrite Ep. pose proof (unlink_size s d e (mk_is_Some _ _ Hd)). lia.
Qed.

Lemma unlink_shrinks s d e : shrinks s (unlink_entry s d e).
Proof.
  split; [|unfold unlink_entry; by destruct (d_parent e)].
  intros x e2 Hx. apply unlink_lookup in Hx as (_ & e0 & He0 & Hsh & _). eauto.
Qed.

Lemma d_put_S fuel s d e :
  dentries s !! d = Some e → d_ref e = 1 →
  d_put fs_put_inode (S fuel) s (Some d) =
  (s <~ match d_inode e with
        | Some i => i_put fs_put_inode (unlink_entry s d e) i
        | None => Ret (unlink_entry s d e)
        end ;;
   d_put fs_put_inode fuel s (d_parent e)).
Proof. intros Hd H1. cbn [d_put]. rewrite Hd, H1. done. Qed.

(** Releasing the inode of an entry that is gone. *)
Lemma release_inode s hd hi o :
  counted s hd (option_list o ++ hi) → few 1 hi →
  ∃ s', match o with Some i => i_put fs_put_inode s i | None => Ret s end = Ret s'
    ∧ counted s' hd hi ∧ same_dentries s s' ∧ pool s' = pool s.
Proof.
  destruct o as [i|]; intros H Hf; [by apply i_put_counted|]. by exists s.
Qed.

(** [d_put] gives one reference back: it returns, faults nowhere, and leaves
    every count right. *)
Lemma d_put_counted fuel s hd hi d :
  counted s (d :: hd) hi → rooted s hd → few 1 hd → few 1 hi → (size (dentries s) < fuel)%nat →
  ∃ s', d_put fs_put_inode fuel s (Some d) = Ret s' ∧ counted s' hd hi ∧ rooted s' hd ∧ shrinks s s'
    ∧ pool s' = pool s ∧ (capacity s' <= capacity s)%nat
    ∧ (∀ e, dentries s !! d = Some e → d_ref e = 1 → dentries s' !! d = None).
Proof.
  revert s d. induction fuel as [|fuel IH]; intros s d H Hroot Hfd Hfi Hfuel; [lia|].
  destruct (ct_held _ _ _ H d) as [e Hd]; [by left|].
  pose proof (ct_dref _ _ _ H d e Hd) as Hr. rewrite occ_cons, decide_True in Hr by done.
  destruct (decide (d_ref e = 1)) as [H1|H1].
  - rewrite (d_put_S fuel s d e) by done.
    assert (Hni : d ∉ hd) by (rewrite occ_elem; lia).
    destruct (d_parent e) as [p|] eqn:Ep; [|by destruct Hni; apply (Hroot d e)].
    pose proof (unlink_counted s hd hi d e H Hd H1) as Hc. rewrite Ep in Hc.
    pose proof (unlink_size s d e (mk_is_Some _ _ Hd)) as Hsz.
    assert (Hpool : pool (unlink_entry s d e) = pool s) by (unfold unlink_entry; by rewrite Ep).
    destruct (release_inode (unlink_entry s d e) (p :: hd) hi (d_inode e) Hc Hfi) as (s2 & -> & Hc2 & Hsd & Hp2).
    cbn [obind]. pose proof (same_dentries_shrinks _ _ Hsd) as Hsh.
    pose proof (unlink_shrinks s d e) as Hsh1. destruct Hsd as (Ed & _).
    assert (Hroot2 : rooted s2 hd).
    { intros x ex Hx Hpx. rewrite Ed in Hx. apply unlink_lookup in Hx as (_ & e0 & He0 & Hse & _).
      apply shape_fields in Hse as (_ & _ & Hse & _). apply (Hroot x e0); congruence. }
    destruct (IH s2 p) as (s3 & -> & Hc3 & Hr3 & Hsh3 & Hp3 & Hcap3 & _); [done..|rewrite Ed; lia|].
    exists s3. split; [done|]. split; [done|]. split; [done|]. split; [by etrans; [|etrans]|].
    split; [congruence|]. split; [unfold capacity in *; rewrite Hp3, Hp2, Hpool, Ed in *; lia|].
    intros _ _ _. apply eq_None_not_Some. intros [x Hx]. destruct Hsh3 as (Hsh3 & _).
    destruct (Hsh3 d x Hx) as (y & Hy & _). rewrite Ed in Hy. by apply unlink_lookup in Hy as [? _].
  - assert (Hf0 : few 0 (d :: hd)) by (unfold few in *; simpl; lia).
    pose proof (dref_bound _ _ _ _ _ H Hd Hf0). cbn [d_put]. rewrite Hd, (proj2 (Z.eqb_neq _ _)) by done.
    rewrite u32_small by lia. eexists. split; [done|]. split.
    { apply (counted_dref s (d :: hd)); [done..| |lia]. intros j Hj. rewrite occ_cons. by rewrite decide_False. }
    pose proof (shrinks_dref s d e (d_ref e - 1) Hd) as Hsh.
    split; [|split; [done|split; [done|split; [|by intros e' [= <-]]]]].
    + intros x ex Hx Hpx. destruct Hsh as (Hsh & _). destruct (Hsh x ex Hx) as (e0 & He0 & Hse).
      apply shape_fields in Hse as (_ & _ & Hse & _). apply (Hroot x e0); congruence.
    + unfold capacity. simpl. by rewrite map_size_insert_Some.
Qed.

(** ** New inodes and new entries *)

Lemma find_inode_Some (m : gmap Z inode) l ino a :
  find_inode m l ino = Some a → a ∈ l ∧ ∃ n, m !! a = Some n ∧ i_ino n = ino.
Proof.
  induction l as [|x l IH]; simpl; [done|]. destruct (m !! x) as [n|] eqn:Hx.
  - destruct (Z.eqb_spec (i_ino n) ino).
    + intros [= ->]. split; [by left|eauto].
    + intros H. destruct (IH H). split; [by right|done].
  - intros H. destruct (IH H). split; [by right|done].
Qed.

Lemma new_inode_counted s hd hi a rest b sb w ino attr :
  counted s hd hi → pool s = a :: rest → supers s !! b = Some sb →
  let s1 := with_fsw (super_get (with_pool s rest) b) w in
  let s2 := with_inodes s1 (<[a := mk_inode ino b 1 attr]> (inodes s1)) in
  counted (with_supers s2 (alter (λ x, set_slist (a :: s_inode_list x) x) b (supers s2))) hd (a :: hi).
Proof.
  intros [] Hp Hb. destruct ct_pool0 as [Hnd Hfree]. rewrite Hp in *. apply NoDup_cons in Hnd as [Hna Hnd].
  destruct (Hfree a) as [Hda Hia]; [by left|].
  assert (Hun : ∀ d e, dentries s !! d = Some e → d_inode e ≠ Some a).
  { intros d e Hd Hj. destruct (ct_inode0 d e a Hd Hj) as [n Hn]. congruence. }
  assert (Hc0 : cnt (refers_to a) (dentries s) = 0%nat).
  { apply cnt_zero. intros d e Hd. unfold refers_to. rewrite bool_decide_eq_false. by apply (Hun d). }
  assert (Ho0 : occ a hi = 0%nat).
  { destruct (occ a hi) eqn:E; [done|]. destruct (ct_iheld0 a) as [x Hx]; [apply occ_elem; lia|congruence]. }
  constructor; simpl; try done.
  - intros d e i Hd Hi. rewrite lookup_insert_is_Some'. eauto.
  - intros i n. rewrite lookup_insert, occ_cons. case_decide as E.
    + intros [= <-]. subst i. simpl. lia.
    + intros Hi. by rewrite (ct_iref0 i n Hi).
  - intros i Hi. rewrite lookup_insert_is_Some'. apply elem_of_cons in Hi as [->|Hi]; auto.
  - intros i n. rewrite lookup_insert. case_decide as E.
    + intros [= <-]. subst i. simpl. rewrite !lookup_alter_eq, Hb. simpl. eexists. split; [done|]. simpl. by left.
    + intros Hi. destruct (ct_super0 i n Hi) as (x & Hx & Hin). destruct (decide (i_super n = b)) as [Eb|].
      * rewrite Eb in *. rewrite !lookup_alter_eq, Hx. simpl. eexists. split; [done|]. simpl. by right.
      * rewrite !lookup_alter_ne by done. eauto.
  - intros x y i Hx Hi. destruct (decide (x = b)) as [->|].
    + rewrite !lookup_alter_eq, Hb in Hx. injection Hx as <-. simpl in Hi. rewrite lookup_insert.
      case_decide as E; [subst i; eauto|]. apply elem_of_cons in Hi as [->|Hi]; [done|]. by apply (ct_list0 b sb).
    + rewrite !lookup_alter_ne in Hx by done. destruct (ct_list0 x y i Hx Hi) as (k & Hk & Hs).
      exists k. rewrite lookup_insert. case_decide; [congruence|done].
  - split; [done|]. intros x Hx. destruct (Hfree x) as [Hd Hi]; [by right|]. split; [done|].
    rewrite lookup_insert. case_decide; [congruence|done].
  - unfold capacity in *. simpl in *. rewrite Hp in ct_size0. simpl in ct_size0. lia.
Qed.

Lemma drop_pool_counted s hd hi a rest b w :
  counted s hd hi → pool s = a :: rest → counted (with_fsw (super_get (with_pool s rest) b) w) hd hi.
Proof.
  intros [] Hp. destruct ct_pool0 as [Hnd Hfree]. rewrite Hp in *. apply NoDup_cons in Hnd as [Hna Hnd].
  constructor; simpl; try done.
  - intros i n Hi. destruct (ct_super0 i n Hi) as (x & Hx & Hin). rewrite lookup_alter. case_decide as E; [|eauto].
    rewrite E, Hx. simpl. eexists. split; [done|done].
  - intros x y i. rewrite lookup_alter. case_decide as E; [|eauto]. subst x.
    destruct (supers s !! b) as [sb|] eqn:Hb; [|done]. intros [= <-]. simpl. eauto.
  - split; [done|]. intros x Hx. apply Hfree. by right.
  - unfold capacity in *. simpl in *. rewrite Hp in ct_size0. simpl in ct_size0. lia.
Qed.

Lemma i_get_counted fs_read_inode s hd hi b ino :
  counted s hd hi → is_Some (supers s !! b) → few 0 hi → pool s ≠ [] →
  ∃ s' r, i_get fs_read_inode s b ino = Ret (s', r) ∧ same_dentries s s'
    ∧ (pool s' = pool s ∨ pool s' = tail (pool s))
    ∧ match r with Ok i => counted s' hd (i :: hi) | Err _ => counted s' hd hi end.
Proof.
  intros H [sb Hb] Hf Hpool. unfold i_get. rewrite Hb.
  destruct (find_inode (inodes s) (s_inode_list sb) ino) as [a|] eqn:E.
  - apply find_inode_Some in E as (_ & n & Hn & _). eexists _, _. split; [done|].
    destruct (i_getref_counted s hd hi a H (mk_is_Some _ _ Hn) Hf). auto.
  - destruct (pool s) as [|a rest] eqn:Ep; [done|]. destruct (fs_read_inode _ b ino) as [w r].
    destruct r as [attr|e]; (eexists _, _; split; [done|]; split; [|split; [by right|]]).
    + unfold same_dentries. simpl. by rewrite !super_root_alter.
    + by eapply new_inode_counted.
    + unfold same_dentries. simpl. by rewrite !super_root_alter.
    + by eapply drop_pool_counted.
Qed.

(** A new entry below [dir]. *)
Definition add_entry s (a dir : Z) (rest : list Z) (name : string) (e : dentry) : vfs :=
  with_pool (with_dentries s
    (<[dir := set_children (a :: d_children e) (set_dref (d_ref e + 1) e)]>
      (<[a := mk_dentry (String.substring 0 MAXNAMELEN name) None 1 (Some dir) [] None]> (dentries s)))) rest.

Lemma d_alloc_child s hd hi dir e name a rest :
  counted s hd hi → few 0 hd → dentries s !! dir = Some e → pool s = a :: rest →
  d_alloc s name (Some dir) = (add_entry s a dir rest name e, Some a).
Proof.
  intros H Hf Hdir Hp. pose proof (dref_bound _ _ _ _ _ H Hdir Hf).
  destruct (ct_pool _ _ _ H) as [_ Hfree]. rewrite Hp in Hfree. destruct (Hfree a) as [Hda _]; [by left|].
  assert (a ≠ dir) by congruence. unfold d_alloc. rewrite Hp. cbn [d_get with_pool dentries with_dentries].
  rewrite (alter_Some _ dir (dentries s) e), u32_small by (done || lia).
  rewrite (insert_insert_ne _ a dir) by done.
  rewrite (alter_Some _ dir _ (set_dref (d_ref e + 1) e)) by apply lookup_insert_eq.
  rewrite insert_insert_eq. done.
Qed.

Lemma add_entry_lookup s a dir rest name e x ex :
  a ≠ dir → dentries s !! dir = Some e →
  dentries (add_entry s a dir rest name e) !! x = Some ex →
  (x = a ∧ ex = mk_dentry (String.substring 0 MAXNAMELEN name) None 1 (Some dir) [] None)
  ∨ (x ≠ a ∧ ∃ e0, dentries s !! x = Some e0 ∧ shape ex = shape e0
       ∧ d_ref ex = d_ref e0 + (if decide (x = dir) then 1 else 0)
       ∧ d_children ex = if decide (x = dir) then a :: d_children e0 else d_children e0).
Proof.
  intros Hne Hdir. simpl. rewrite lookup_insert. case_decide as E.
  - intros [= <-]. right. subst x. split; [done|]. exists e. rewrite decide_True by done. rewrite !decide_True by done. done.
  - rewrite lookup_insert. case_decide as E2; intros H.
    + injection H as <-. left. done.
    + right. split; [congruence|]. exists ex. rewrite !decide_False by congruence. split; [done|]. split; [done|]. split; [lia|done].
Qed.

Lemma add_entry_counted s hd hi a dir rest name e :
  counted s hd hi → dentries s !! dir = Some e → pool s = a :: rest →
  counted (add_entry s a dir rest name e) (a :: hd) hi.
Proof.
  intros H Hdir Hp. destruct H. destruct ct_pool0 as [Hnd Hfree]. rewrite Hp in *.
  apply NoDup_cons in Hnd as [Hna Hnd]. destruct (Hfree a) as [Hda Hia]; [by left|].
  assert (Hne : a ≠ dir) by congruence.
  set (new := mk_dentry (String.substring 0 MAXNAMELEN name) None 1 (Some dir) [] None).
  assert (Hcnt : ∀ P, P (set_children (a :: d_children e) (set_dref (d_ref e + 1) e)) = P e →
    cnt P (dentries (add_entry s a dir rest name e)) = (cnt P (dentries s) + (if P new then 1 else 0))%nat).
  { intros P HP. simpl. rewrite (cnt_update P _ dir e); [by apply cnt_insert_new|by rewrite lookup_insert_ne|done]. }
  assert (Hlk := λ x ex, add_entry_lookup s a dir rest name e x ex Hne Hdir).
  assert (Hsome : ∀ x, is_Some (dentries (add_entry s a dir rest name e) !! x) ↔ x = a ∨ is_Some (dentries s !! x)).
  { intros x. simpl. rewrite !lookup_insert_is_Some'. naive_solver. }
  assert (Hc0 : cnt (child_of a) (dentries s) = 0%nat).
  { apply cnt_zero. intros d x Hd. unfold child_of. rewrite bool_decide_eq_false. intros Hpar.
    destruct (ct_parent0 d x a Hd Hpar). congruence. }
  assert (Ho0 : occ a hd = 0%nat).
  { destruct (occ a hd) eqn:E; [done|]. destruct (ct_held0 a) as [x Hx]; [apply occ_elem; lia|congruence]. }
  constructor; try done.
  - intros d x Hx. rewrite Hcnt by done. rewrite occ_cons. unfold child_of at 2.
    destruct (Hlk d x Hx) as [[-> ->]|(Hd & e0 & He0 & _ & -> & _)].
    + simpl. rewrite bool_decide_false by congruence. rewrite decide_True by done. lia.
    + rewrite (ct_dref0 d e0 He0). simpl. rewrite (decide_False (P := a = d)) by congruence.
      case_decide; case_bool_decide; try congruence; lia.
  - intros d Hd. rewrite Hsome. apply elem_of_cons in Hd as [->|Hd]; auto.
  - intros d x p Hx Hpar. rewrite Hsome. destruct (Hlk d x Hx) as [[-> ->]|(Hd & e0 & He0 & Hsh & _)].
    + injection Hpar as <-. right. eauto.
    + apply shape_fields in Hsh as (_ & _ & Hsh & _). right. apply (ct_parent0 d e0); congruence.
  - intros p x Hx c.
    assert (Hch : (∃ e', dentries (add_entry s a dir rest name e) !! c = Some e' ∧ d_parent e' = Some p)
      ↔ (c = a ∧ p = dir) ∨ (∃ e', dentries s !! c = Some e' ∧ d_parent e' = Some p)).
    { split.
      - intros (e' & He' & Hpar). destruct (Hlk c e' He') as [[-> ->]|(Hd & e0 & He0 & Hsh & _)].
        + left. by injection Hpar as <-.
        + right. apply shape_fields in Hsh as (_ & _ & Hsh & _). exists e0. split; congruence.
      - intros [[-> ->]|(e0 & He0 & Hpar)].
        + exists new. split; [|done]. simpl. rewrite lookup_insert_ne by done. apply lookup_insert_eq.
        + destruct (proj2 (Hsome c)) as [e' He']; [right; eauto|]. exists e'. split; [done|].
          destruct (Hlk c e' He') as [[-> ->]|(Hd & e1 & He1 & Hsh & _)]; [congruence|].
          apply shape_fields in Hsh as (_ & _ & Hsh & _). congruence. }
    rewrite Hch. destruct (Hlk p x Hx) as [[-> ->]|(Hd & e0 & He0 & _ & _ & ->)].
    + simpl. split; [by intros ?%elem_of_nil|]. intros [[_ ?]|(e' & He' & Hpar)]; [done|].
      destruct (ct_parent0 c e' a He' Hpar). congruence.
    + rewrite <- (ct_children0 p e0 He0 c). case_decide; [rewrite elem_of_cons|]; naive_solver.
  - intros d x i Hx Hi. destruct (Hlk d x Hx) as [[-> ->]|(Hd & e0 & He0 & Hsh & _)]; [done|].
    apply shape_fields in Hsh as (_ & Hsh & _). apply (ct_inode0 d e0); congruence.
  - intros i n Hi. rewrite Hcnt by done. rewrite (ct_iref0 i n Hi). unfold refers_to at 3. simpl. lia.
  - split; [done|]. intros x Hx. destruct (Hfree x) as [Hd Hi]; [by right|]. split; [|done].
    apply eq_None_not_Some. rewrite Hsome. intros [->|Hs]; [done|]. rewrite Hd in Hs. by destruct Hs.
  - unfold capacity in *. rewrite Hp in ct_size0. simpl in *.
    rewrite map_size_insert_Some by (rewrite lookup_insert_ne by done; eauto).
    rewrite map_size_insert_None by done. lia.
Qed.

(** A held reference to an inode becomes the reference of an entry. *)
Lemma attach_counted s hd hi c e i :
  counted s hd (i :: hi) → dentries s !! c = Some e → d_inode e = None →
  counted (with_dentries s (alter (set_dinode (Some i)) c (dentries s))) hd hi.
Proof.
  intros H Hc He. rewrite (alter_Some _ _ _ e) by done. set (e' := set_dinode (Some i) e).
  assert (Hcnt : ∀ p, cnt (child_of p) (<[c := e']> (dentries s)) = cnt (child_of p) (dentries s))
    by (intros p; by apply (cnt_update _ _ c e)).
  assert (Hcnt2 : ∀ j, cnt (refers_to j) (<[c := e']> (dentries s)) =
    (cnt (refers_to j) (dentries s) + (if decide (i = j) then 1 else 0))%nat).
  { intros j. rewrite (cnt_delete _ _ c e') by apply lookup_insert_eq. rewrite delete_insert_eq.
    rewrite (cnt_delete (refers_to j) (dentries s) c e) by done. unfold refers_to at 2 4. rewrite He. simpl.
    case_decide; case_bool_decide; try congruence; lia. }
  assert (Hlk : ∀ x ex, <[c := e']> (dentries s) !! x = Some ex →
    ∃ e0, dentries s !! x = Some e0 ∧ d_ref ex = d_ref e0 ∧ d_parent ex = d_parent e0 ∧ d_children ex = d_children e0
      ∧ (d_inode ex = d_inode e0 ∨ d_inode ex = Some i)).
  { intros x ex. rewrite lookup_insert. case_decide; [|eauto 10]. intros [= <-]. subst x. exists e. naive_solver. }
  destruct H. constructor; simpl; try done.
  - intros d x Hx. destruct (Hlk d x Hx) as (e0 & He0 & -> & _). rewrite Hcnt. auto.
  - intros d Hd. rewrite lookup_insert_is_Some'. auto.
  - intros d x p Hx Hp. destruct (Hlk d x Hx) as (e0 & He0 & _ & Hpar & _). rewrite lookup_insert_is_Some'.
    right. apply (ct_parent0 d e0); congruence.
  - intros p x Hx k. destruct (Hlk p x Hx) as (e0 & He0 & _ & _ & -> & _). rewrite (ct_children0 p e0 He0 k).
    split; intros (y & Hy & Hyp).
    + rewrite lookup_insert. case_decide as E; [|eauto]. subst k. exists e'. split; [done|]. simpl. congruence.
    + destruct (Hlk k y Hy) as (y0 & Hy0 & _ & Hpar & _). exists y0. split; [done|congruence].
  - intros d x j Hx Hj. destruct (Hlk d x Hx) as (e0 & He0 & _ & _ & _ & [Hi|Hi]).
    + apply (ct_inode0 d e0); congruence.
    + assert (j = i) as -> by congruence. apply ct_iheld0. by left.
  - intros j n Hj. rewrite Hcnt2, (ct_iref0 j n Hj), occ_cons. case_decide; lia.
  - intros j Hj. apply ct_iheld0. by right.
  - split; [apply ct_pool0|]. intros a Ha. destruct ct_pool0 as [_ Hfree]. destruct (Hfree a Ha) as [Hd Hi].
    split; [|done]. rewrite lookup_insert. case_decide; [congruence|done].
  - unfold capacity in *. simpl. by rewrite map_size_insert_Some.
Qed.

(** ** Looking up a name *)

Section Lookup.
Context (fs_find : W → Z → Z → string → result Z) (fs_read_inode : W → Z → Z → W * result iattr).
Context (root : Z).

(** Old entries keep their shape; new ones have an inode, are no mount points
    and do not hang below [root]. *)
Definition evolves s s' : Prop :=
  (∀ d e', dentries s' !! d = Some e' →
     (∃ e, dentries s !! d = Some e ∧ shape e' = shape e)
     ∨ (d ≠ root ∧ d_mountpoint e' = None ∧ is_Some (d_inode e') ∧ ∃ p, d_parent e' = Some p ∧ p ≠ root))
  ∧ mounts s' = mounts s ∧ mpoints s' = mpoints s ∧ s_root <$> supers s' = s_root <$> supers s.

Lemma shrinks_evolves s s' : shrinks s s' → evolves s s'.
Proof. intros (H & ?). split; [|done]. intros d e' Hd. left. auto. Qed.

#[global] Instance evolves_trans : Transitive evolves.
Proof.
  intros s1 s2 s3 (H1 & Ha & Hb & Hc) (H2 & Ha' & Hb' & Hc'). split; [|split; [congruence|split; congruence]].
  intros d e3 H3. destruct (H2 d e3 H3) as [(e2 & He2 & E2)|?]; [|auto].
  destruct (H1 d e2 He2) as [(e1 & He1 & E1)|(Hdr & Hm & Hi & p & Hp & Hpr)].
  - left. exists e1. split; [done|congruence].
  - right. apply shape_fields in E2 as (_ & -> & -> & ->). eauto 10.
Qed.

Lemma evolves_rooted s s' hd : evolves s s' → rooted s hd → rooted s' hd.
Proof.
  intros (H & _) Hr d e Hd Hp. destruct (H d e Hd) as [(e0 & He0 & Hs)|(_ & _ & _ & p & Hp' & _)]; [|congruence].
  apply shape_fields in Hs as (_ & _ & Hs & _). apply (Hr d e0); congruence.
Qed.

Lemma find_child_Some (m : gmap Z dentry) l name c :
  find_child m l name = Some c → c ∈ l ∧ ∃ e, m !! c = Some e ∧ d_name e = name.
Proof.
  induction l as [|x l IH]; simpl; [done|]. destruct (m !! x) as [e|] eqn:Hx.
  - destruct (String.eqb_spec name (d_name e)).
    + intros [= ->]. split; [by left|eauto].
    + intros H. destruct (IH H). split; [by right|done].
  - intros H. destruct (IH H). split; [by right|done].
Qed.

Lemma fs_lookup_counted s hd hi node c e name :
  counted s hd hi → dentries s !! c = Some e → d_inode e = None → is_Some (supers s !! i_super node) →
  few 0 hi → pool s ≠ [] →
  ∃ s' r, fs_lookup fs_find fs_read_inode s node c name = Ret (s', r) ∧ counted s' hd hi
    ∧ mounts s' = mounts s ∧ mpoints s' = mpoints s ∧ s_root <$> supers s' = s_root <$> supers s
    ∧ (pool s' = pool s ∨ pool s' = tail (pool s))
    ∧ match r with
      | Ok _ => ∃ i, dentries s' = <[c := set_dinode (Some i) e]> (dentries s)
      | Err _ => dentries s' = dentries s
      end.
Proof.
  intros H Hc He Hsup Hf Hp. unfold fs_lookup. destruct (fs_find _ _ _ _) as [ino|err].
  2: { eexists _, _. split; [done|]. repeat (split; [done|]). split; [by left|done]. }
  destruct (i_get_counted fs_read_inode s hd hi (i_super node) ino H Hsup Hf Hp)
    as (s1 & r & -> & (Ed & Em & Emp & Er) & Hpool & Hr). cbn [obind].
  destruct r as [i|err].
  - eexists _, _. split; [done|]. split; [apply (attach_counted s1 hd hi c e i); [done|by rewrite Ed|done]|].
    simpl. repeat (split; [done|]). exists i. rewrite Ed. by apply alter_Some.
  - eexists _, _. split; [done|]. repeat (split; [done|]). done.
Qed.

(** What a lookup of [name] in [dir] leaves behind. *)
Definition looked_up s hd hi (dir : Z) (name : string) s' (r : result Z) : Prop :=
  evolves s s' ∧ (capacity s' <= capacity s)%nat ∧ (length (pool s) <= 2 + length (pool s'))%nat
  ∧ match r with
    | Ok c => counted s' (c :: hd) hi ∧ ∃ e, dentries s' !! c = Some e ∧ d_parent e = Some dir
        ∧ (d_name e = name ∨ d_name e = String.substring 0 MAXNAMELEN name)
    | Err _ => counted s' hd hi
    end.

(** An entry that is found gets its inode; the new entry of a name that is
    not found goes again. *)
Lemma add_entry_found s s2 hd hi a dir rest name e i :
  let s1 := add_entry s a dir rest name e in
  dentries s !! dir = Some e → dentries s !! a = None → dir ≠ root → a ≠ root → pool s = a :: rest →
  counted s2 (a :: hd) hi → mounts s2 = mounts s1 → mpoints s2 = mpoints s1 →
  s_root <$> supers s2 = s_root <$> supers s1 → (pool s2 = rest ∨ pool s2 = tail rest) →
  dentries s2 = <[a := mk_dentry (String.substring 0 MAXNAMELEN name) (Some i) 1 (Some dir) [] None]> (dentries s1) →
  looked_up s hd hi dir name s2 (Ok a).
Proof.
  intros s1 He Hda Hrd Har Ep H2 Em Emp Er Hp2 Ed. assert (Had : a ≠ dir) by congruence.
  split; [split; [|done]|split; [|split]].
  - intros x ex. rewrite Ed, lookup_insert. case_decide as E.
    + intros [= <-]. right. split; [congruence|]. split; [done|]. split; [by eexists|]. by exists dir.
    + intros Hx. destruct (add_entry_lookup s a dir rest name e x ex Had He Hx) as [[-> _]|(_ & e0 & He0 & Hsh & _)];
        [done|]. left. eauto.
  - unfold capacity. rewrite Ed, Ep. unfold s1. simpl.
    rewrite map_size_insert_Some by (rewrite lookup_insert_ne by done; rewrite lookup_insert_eq; eauto).
    rewrite map_size_insert_Some by (rewrite lookup_insert_ne by done; eauto).
    rewrite map_size_insert_None by done. destruct Hp2 as [->| ->]; rewrite ?length_tl; lia.
  - rewrite Ep. simpl. destruct Hp2 as [->| ->]; rewrite ?length_tl; lia.
  - split; [done|]. rewrite Ed, lookup_insert_eq. eexists. split; [done|]. simpl. auto.
Qed.

Lemma add_entry_dropped fuel s s2 hd hi a dir rest name e err :
  let s1 := add_entry s a dir rest name e in
  dentries s !! dir = Some e → dentries s !! a = None → pool s = a :: rest → rooted s hd →
  few 1 hd → few 1 hi → (capacity s < fuel)%nat →
  counted s2 (a :: hd) hi → mounts s2 = mounts s1 → mpoints s2 = mpoints s1 →
  s_root <$> supers s2 = s_root <$> supers s1 → (pool s2 = rest ∨ pool s2 = tail rest) →
  dentries s2 = dentries s1 →
  ∃ s', d_put fs_put_inode fuel s2 (Some a) = Ret s' ∧ looked_up s hd hi dir name s' (Err err).
Proof.
  intros s1 He Hda Ep Hroot Hfd Hfi Hfuel H2 Em Emp Er Hp2 Ed. assert (Had : a ≠ dir) by congruence.
  assert (Hsz : size (dentries s2) = S (size (dentries s))).
  { rewrite Ed. unfold s1. simpl. rewrite map_size_insert_Some by (rewrite lookup_insert_ne by done; eauto).
    by rewrite map_size_insert_None. }
  assert (Hroot2 : rooted s2 hd).
  { intros x ex Hx Hpx. rewrite Ed in Hx.
    destruct (add_entry_lookup s a dir rest name e x ex Had He Hx) as [[-> ->]|(_ & e0 & He0 & Hsh & _)]; [done|].
    apply shape_fields in Hsh as (_ & _ & Hsh & _). apply (Hroot x e0); congruence. }
  unfold capacity in *. rewrite Ep in *. simpl in *.
  destruct (d_put_counted fuel s2 hd hi a H2 Hroot2 Hfd Hfi) as (s3 & -> & H3 & _ & Hsh & Hp3 & Hcap & Hgone); [lia|].
  specialize (Hgone (mk_dentry (String.substring 0 MAXNAMELEN name) None 1 (Some dir) [] None)).
  exists s3. split; [done|]. destruct Hsh as (Hsh & Em3 & Emp3 & Er3).
  split; [split; [|split; [congruence|split; congruence]]|split; [|split; [|done]]].
  - intros x ex Hx. left. destruct (Hsh x ex Hx) as (e1 & He1 & Hs1). rewrite Ed in He1.
    destruct (add_entry_lookup s a dir rest name e x e1 Had He He1) as [[-> _]|(_ & e0 & He0 & Hs0 & _)].
    + rewrite Hgone in Hx; [done| |done]. rewrite Ed. unfold s1. simpl. rewrite lookup_insert_ne by done.
      apply lookup_insert_eq.
    + exists e0. split; [done|congruence].
  - unfold capacity in *. rewrite Ep. simpl. destruct Hp2 as [E| E]; rewrite E, ?length_tl in *; lia.
  - rewrite Ep, Hp3. simpl. destruct Hp2 as [->| ->]; rewrite ?length_tl; lia.
Qed.

(** [d_lookup] of a held directory returns; it adds one reference to the
    entry it returns, a child of the directory with the wanted name, and no
    reference at all when it fails. *)
Lemma d_lookup_counted fuel s hd hi dir name :
  counted s hd hi → dir ∈ hd → rooted s hd → few 3 hd → few 2 hi → (capacity s < fuel)%nat →
  (2 <= length (pool s))%nat → (∃ e, dentries s !! root = Some e ∧ d_inode e = None) →
  ∃ s' r, d_lookup fs_find fs_read_inode fs_put_inode fuel s dir name = Ret (s', r)
    ∧ looked_up s hd hi dir name s' r.
Proof.
  intros H Hdir Hroot Hfd Hfi Hfuel Hpool (er & Her & Hnoi). destruct (ct_held _ _ _ H dir Hdir) as [e He].
  assert (Hfd0 : few 0 hd ∧ few 1 hd) by (unfold few in *; lia). destruct Hfd0 as [Hfd0 Hfd1].
  assert (Hfi0 : few 0 hi ∧ few 1 hi) by (unfold few in *; lia). destruct Hfi0 as [Hfi0 Hfi1].
  unfold d_lookup. rewrite He. destruct (find_child _ _ name) as [c|] eqn:Ec.
  - apply find_child_Some in Ec as (Hin & x & Hx & Hn). eexists _, _. split; [done|].
    destruct (d_get_counted s hd hi c H (mk_is_Some _ _ Hx) Hfd0) as [Hc Hs].
    split; [by apply shrinks_evolves|]. unfold capacity. simpl. rewrite size_alter. split; [lia|]. split; [lia|].
    split; [done|]. apply (ct_children _ _ _ H dir e He) in Hin as (x' & Hx' & Hpar).
    rewrite lookup_alter_eq, Hx. simpl. eexists. split; [done|]. simpl. split; [congruence|auto].
  - assert (Hfail : ∀ err, looked_up s hd hi dir name s (Err err)).
    { intros err. split; [by apply shrinks_evolves|]. auto with lia. }
    destruct (d_inode e) as [i|] eqn:Ei; [|by eexists _, _; split; [|apply Hfail]].
    destruct (ct_inode _ _ _ H dir e i He Ei) as [node Hnode]. rewrite Hnode.
    destruct (i_lookup (i_attr node)); cbn [negb]; [|by eexists _, _; split; [|apply Hfail]]. clear Hfail.
    destruct (pool s) as [|a rest] eqn:Ep; [simpl in Hpool; lia|].
    rewrite (d_alloc_child s hd hi dir e name a rest) by done.
    pose proof (add_entry_counted s hd hi a dir rest name e H He Ep) as H1.
    assert (Hda : dentries s !! a = None).
    { destruct (ct_pool _ _ _ H) as [_ Hfree]. apply Hfree. rewrite Ep. by left. }
    assert (Had : a ≠ dir) by congruence.
    assert (Hrd : dir ≠ root ∧ a ≠ root) by (split; [intros ->; congruence|congruence]). destruct Hrd as [Hrd Har].
    assert (Hs1a : dentries (add_entry s a dir rest name e) !! a =
      Some (mk_dentry (String.substring 0 MAXNAMELEN name) None 1 (Some dir) [] None)).
    { simpl. rewrite lookup_insert_ne by done. apply lookup_insert_eq. }
    destruct (fs_lookup_counted _ (a :: hd) hi node a _ (String.substring 0 MAXNAMELEN name) H1 Hs1a)
      as (s2 & r & -> & H2 & Em & Emp & Er & Hp2 & Hr); [done|..].
    { destruct (ct_super _ _ _ H i node Hnode) as (b & Hb & _). by exists b. }
    { done. }
    { simpl. destruct rest; [simpl in Hpool; lia|done]. }
    cbn [obind]. destruct r as [[]|err].
    + destruct Hr as [j Ed]. eexists _, _. split; [done|]. by eapply add_entry_found.
    + destruct (add_entry_dropped fuel s s2 hd hi a dir rest name e err) as (s3 & -> & Hs3); try done.
      eexists _, _. split; [done|done].
Qed.
End Lookup.
End Inv.

(** * Bounds on the number of references *)

Lemma option_list_le (o : option Z) : (length (option_list o) <= 1)%nat.
Proof. destruct o; simpl; lia. Qed.

Ltac fewer :=
  unfold few in *; cbn [length] in *; rewrite ?length_app in *;
  repeat match goal with
  | |- context [length (option_list ?o)] =>
      lazymatch goal with
      | _ : (length (option_list o) <= 1)%nat |- _ => fail
      | _ => pose proof (option_list_le o)
      end
  end; lia.

