(* ===== verification/PathLookup.v ===== *)
(** Path resolution keeps every reference count: mounts, paths and
    [path_lookup] of [src/kernel/src/fs.c], on top of the directory-cache
    invariant.  The main result is that [path_lookup] returns for every name
    and flag, holds exactly one reference to what it returns, and holds none
    when it fails. *)

From stdpp Require Import strings.
From S2P Require Import Prelude Dcache DcacheInv.

Section Walk.
Context {W : Type}.
Context (fs_find : W → Z → Z → string → result Z).
Context (fs_read_inode : W → Z → Z → W * result iattr).
Context (fs_put_inode : W → Z → Z → W).
Context (MS_RDONLY MS_NOEXEC root uid gid : Z).
Implicit Types (s : vfs (W := W)) (hd hi hm : list Z) (p : path).

(** * Mount counts and the shape of the tree *)

Record good s hd hi hm : Prop := {
  gd_counted : counted s hd hi;
  gd_mref : ∀ m x, mounts s !! m = Some x → m_refs x = Z.of_nat (occ m hm);
  gd_mheld : ∀ m, m ∈ hm → is_Some (mounts s !! m);
}.

Definition mount_data (x : mount) : Z * Z := (m_super x, m_flags x).

(** How a state may change during a lookup. *)
Definition steps s s' : Prop :=
  (∀ d e', dentries s' !! d = Some e' →
     (∃ e, dentries s !! d = Some e ∧ shape e' = shape e)
     ∨ (d ≠ root ∧ d_mountpoint e' = None ∧ is_Some (d_inode e') ∧ ∃ q, d_parent e' = Some q ∧ q ≠ root))
  ∧ mount_data <$> mounts s' = mount_data <$> mounts s ∧ mpoints s' = mpoints s
  ∧ s_root <$> supers s' = s_root <$> supers s.

Lemma evolves_steps s s' : evolves root s s' → steps s s'.
Proof. intros (H & Hm & Hp & Hr). split; [done|]. rewrite Hm. done. Qed.

#[global] Instance steps_preorder : PreOrder steps.
Proof.
  split.
  - intros s. split; [eauto|done].
  - intros s1 s2 s3 (H1 & Ha & Hb & Hc) (H2 & Ha' & Hb' & Hc'). split; [|split; [congruence|split; congruence]].
    intros d e3 H3. destruct (H2 d e3 H3) as [(e2 & He2 & E2)|?]; [|auto].
    destruct (H1 d e2 He2) as [(e1 & He1 & E1)|(Hdr & Hm & Hi & p & Hp & Hpr)].
    + left. exists e1. split; [done|congruence].
    + right. apply shape_fields in E2 as (_ & -> & -> & ->). eauto 10.
Qed.

Definition path_fine s p : Prop :=
  (p_dentry p = root → p_mount p = None) ∧ ∀ m, p_mount p = Some m → is_Some (mounts s !! m).

(** The mounted tree: every mount point leads to a mounted root that is held,
    every entry without a parent is held and is a mount point, every entry but
    the first root has an inode. *)
Record env_ok s (base : list Z) : Prop := {
  eo_mount : ∀ d e mp, dentries s !! d = Some e → d_mountpoint e = Some mp →
    ∃ point m b, mpoints s !! mp = Some point ∧ top_mount s mp = Some (m, b)
      ∧ s_root b ∈ base ∧ s_root b ≠ root ∧ p_dentry (mp_point point) ∈ base ∧ path_fine s (mp_point point);
  eo_rooted : ∀ d e, dentries s !! d = Some e → d_parent e = None → d ∈ base ∧ is_Some (d_mountpoint e);
  eo_inode : ∀ d e, dentries s !! d = Some e → d ≠ root → is_Some (d_inode e);
  eo_root : ∀ e, dentries s !! root = Some e → d_inode e = None ∧ d_parent e = None;
  eo_child : ∀ d e, dentries s !! d = Some e → d_parent e ≠ Some root;
  eo_mounts : ∀ m x, mounts s !! m = Some x → is_Some (supers s !! m_super x);
}.

Lemma fmap_lookup_Some {A B} (f : A → B) (m1 m2 : gmap Z A) k x :
  f <$> m1 = f <$> m2 → m2 !! k = Some x → ∃ y, m1 !! k = Some y ∧ f y = f x.
Proof.
  intros H Hx. assert (Hk : (f <$> m1) !! k = Some (f x)) by by rewrite H, lookup_fmap, Hx.
  rewrite lookup_fmap in Hk. destruct (m1 !! k) as [y|]; [|done]. exists y. split; [done|]. by injection Hk.
Qed.

Lemma steps_mounts s s' m : steps s s' → is_Some (mounts s !! m) → is_Some (mounts s' !! m).
Proof. intros (_ & H & _) [x Hx]. destruct (fmap_lookup_Some _ _ _ _ _ H Hx) as (y & Hy & _). eauto. Qed.

Lemma steps_path_fine s s' p : steps s s' → path_fine s p → path_fine s' p.
Proof. intros H [Hr Hm]. split; [done|]. intros m Hp. eapply steps_mounts; eauto. Qed.

Lemma steps_top_mount s s' mp m b :
  steps s s' → top_mount s mp = Some (m, b) → ∃ b', top_mount s' mp = Some (m, b') ∧ s_root b' = s_root b.
Proof.
  intros (_ & Hm & Hmp & Hr). unfold top_mount. rewrite Hmp. destruct (mpoints s !! mp) as [point|]; [|done].
  destruct (mp_mounts point) as [|m0 rest]; [done|]. destruct (mounts s !! m0) as [x|] eqn:Hx; [|done].
  destruct (supers s !! m_super x) as [b0|] eqn:Hb; [|done]. intros [= -> ->].
  destruct (fmap_lookup_Some _ _ _ _ _ Hm Hx) as (y & -> & Hy). injection Hy as Hs _. rewrite Hs.
  destruct (fmap_lookup_Some _ _ _ _ _ Hr Hb) as (b' & -> & Hb'). eauto.
Qed.

Lemma steps_env s s' base : steps s s' → env_ok s base → env_ok s' base.
Proof.
  intros Hs []. pose proof Hs as (Hd & Hm & Hmp & Hr). constructor.
  - intros d e mp He Hmpe. destruct (Hd d e He) as [(e0 & He0 & Hsh)|(_ & Hn & _)]; [|congruence].
    apply shape_fields in Hsh as (_ & _ & _ & Hsh). rewrite Hsh in Hmpe.
    destruct (eo_mount0 d e0 mp He0 Hmpe) as (point & m & b & Hpt & Htop & Hb1 & Hb2 & Hb3 & Hb4).
    destruct (steps_top_mount s s' mp m b Hs Htop) as (b' & Htop' & Eb). exists point, m, b'. rewrite Hmp, Eb.
    split; [done|]. split; [done|]. split; [done|]. split; [done|]. split; [done|]. by eapply steps_path_fine.
  - intros d e He Hp. destruct (Hd d e He) as [(e0 & He0 & Hsh)|(_ & _ & _ & p & Hp' & _)]; [|congruence].
    apply shape_fields in Hsh as (_ & _ & Hsp & ->). apply (eo_rooted0 d e0); congruence.
  - intros d e He Hne. destruct (Hd d e He) as [(e0 & He0 & Hsh)|(_ & _ & Hi & _)]; [|done].
    apply shape_fields in Hsh as (_ & -> & _). by apply (eo_inode0 d e0).
  - intros e He. destruct (Hd root e He) as [(e0 & He0 & Hsh)|(? & _)]; [|done].
    apply shape_fields in Hsh as (_ & -> & -> & _). auto.
  - intros d e He. destruct (Hd d e He) as [(e0 & He0 & Hsh)|(_ & _ & _ & p & Hp & Hpr)]; [|congruence].
    apply shape_fields in Hsh as (_ & _ & -> & _). by apply (eo_child0 d e0).
  - intros m x Hx. destruct (fmap_lookup_Some _ _ _ _ _ (eq_sym Hm) Hx) as (y & Hy & Ey). injection Ey as Es _.
    destruct (eo_mounts0 m y Hy) as [b Hb]. rewrite <- Es.
    destruct (fmap_lookup_Some _ _ _ _ _ Hr Hb) as (b' & -> & _). eauto.
Qed.

(** A change that needs no more room. *)
Definition moves s s' : Prop := steps s s' ∧ (capacity s' <= capacity s)%nat.

#[global] Instance moves_preorder : PreOrder moves.
Proof. split; [by intros s|]. intros s1 s2 s3 [H1 ?] [H2 ?]. split; [by etrans|lia]. Qed.

(** * Taking and releasing references *)

Lemma counted_mounts s hd hi x : counted s hd hi → counted (with_mounts s x) hd hi.
Proof. intros []. by constructor. Qed.

(** The count of one mount and the references held to it change. *)
Lemma good_mref s hd hi hm hm' m x k :
  good s hd hi hm → mounts s !! m = Some x → (∀ j, j ≠ m → occ j hm' = occ j hm) →
  k = Z.of_nat (occ m hm') →
  good (with_mounts s (<[m := set_mrefs k x]> (mounts s))) hd hi hm'
  ∧ moves s (with_mounts s (<[m := set_mrefs k x]> (mounts s))).
Proof.
  intros [Hc Hm Hh] Hx Ho Hk. split.
  - constructor; [by apply counted_mounts|..]; simpl.
    + intros j y. rewrite lookup_insert. case_decide as E; [intros [= <-]; by subst j|].
      intros Hy. by rewrite (Hm j y Hy), Ho.
    + intros j Hj. rewrite lookup_insert_is_Some'. destruct (decide (m = j)); [by left|right].
      apply Hh. rewrite occ_elem in *. by rewrite <- Ho.
  - split; [|done]. split; [eauto|]. split; [|done]. simpl. rewrite fmap_insert. apply insert_id.
    by rewrite lookup_fmap, Hx.
Qed.

Lemma mnt_get_good s hd hi hm o :
  good s hd hi hm → (∀ m, o = Some m → is_Some (mounts s !! m)) → few 0 hm →
  good (mnt_get s o) hd hi (option_list o ++ hm) ∧ moves s (mnt_get s o).
Proof.
  intros H Ho Hf. destruct o as [m|]; [|done]. destruct (Ho m eq_refl) as [x Hx]. unfold mnt_get.
  pose proof (gd_mref _ _ _ _ H m x Hx) as Hr. pose proof (occ_length m hm). unfold few in Hf.
  rewrite (alter_Some _ _ _ x), u32_small by (done || lia). apply (good_mref s hd hi hm); [done..| |].
  - intros j Hj. rewrite occ_option_list, bool_decide_false; [done|congruence].
  - rewrite occ_option_list, bool_decide_true by done. lia.
Qed.

Lemma mnt_put_good s hd hi hm o :
  good s hd hi (option_list o ++ hm) → few 1 hm →
  good (mnt_put s o) hd hi hm ∧ moves s (mnt_put s o).
Proof.
  intros H Hf. destruct o as [m|]; [|done].
  destruct (gd_mheld _ _ _ _ H m) as [x Hx]; [by left|]. unfold mnt_put.
  pose proof (gd_mref _ _ _ _ H m x Hx) as Hr. rewrite occ_option_list, bool_decide_true in Hr by done.
  pose proof (occ_length m hm). unfold few in Hf.
  rewrite (alter_Some _ _ _ x), u32_small by (done || lia).
  apply (good_mref s hd hi (option_list (Some m) ++ hm)); [done..| |].
  - intros j Hj. rewrite occ_option_list, bool_decide_false; [done|congruence].
  - lia.
Qed.

Lemma good_mounts_eq s s' hd hi hd' hi' hm :
  good s hd hi hm → counted s' hd' hi' → mounts s' = mounts s → good s' hd' hi' hm.
Proof. intros [Hc Hm Hh] H' E. constructor; [done|by rewrite E..]. Qed.

Lemma good_perm s hd hd' hi hm hm' : hd ≡ₚ hd' → hm ≡ₚ hm' → good s hd hi hm → good s hd' hi hm'.
Proof.
  intros Hp Hm []. constructor; [by eapply counted_perm|..].
  - intros m x Hx. rewrite <- Hm. auto.
  - intros m. rewrite <- Hm. auto.
Qed.

Lemma d_get_good s hd hi hm d :
  good s hd hi hm → is_Some (dentries s !! d) → few 0 hd →
  good (d_get s (Some d)) (d :: hd) hi hm ∧ moves s (d_get s (Some d)).
Proof.
  intros H Hd Hf. destruct (d_get_counted s hd hi d (gd_counted _ _ _ _ H) Hd Hf) as [Hc Hs].
  split; [by eapply good_mounts_eq|]. split; [by apply evolves_steps, shrinks_evolves|].
  unfold capacity. simpl. by rewrite size_alter.
Qed.

Lemma env_rooted s base hd : env_ok s base → base ⊆ hd → rooted s hd.
Proof. intros H Hb d e Hd Hp. apply Hb. by eapply eo_rooted. Qed.

Lemma d_put_good fuel s base hd hi hm d :
  good s (d :: hd) hi hm → env_ok s base → base ⊆ hd → few 1 hd → few 1 hi → (capacity s < fuel)%nat →
  ∃ s', d_put fs_put_inode fuel s (Some d) = Ret s' ∧ good s' hd hi hm ∧ moves s s' ∧ pool s' = pool s.
Proof.
  intros H He Hb Hfd Hfi Hfuel. unfold capacity in Hfuel.
  destruct (d_put_counted fs_put_inode fuel s hd hi d (gd_counted _ _ _ _ H) (env_rooted _ _ _ He Hb) Hfd Hfi)
    as (s' & -> & Hc & _ & Hs & Hp & Hcap & _); [lia|].
  exists s'. split; [done|]. pose proof Hs as (_ & Hm & _). split; [by eapply good_mounts_eq|].
  split; [|done]. split; [by apply evolves_steps, shrinks_evolves|done].
Qed.

Lemma path_put_good fuel s base hd hi hm p :
  good s (p_dentry p :: hd) hi (option_list (p_mount p) ++ hm) → env_ok s base → base ⊆ hd →
  few 1 hd → few 1 hi → few 1 hm → (capacity s < fuel)%nat →
  ∃ s', path_put fs_put_inode fuel s p = Ret s' ∧ good s' hd hi hm ∧ moves s s' ∧ pool s' = pool s.
Proof.
  intros H He Hb Hfd Hfi Hfm Hfuel. unfold path_put.
  destruct (d_put_good fuel s base hd hi _ (p_dentry p) H He Hb Hfd Hfi Hfuel) as (s1 & -> & H1 & Hmv & Hp).
  cbn [obind]. eexists. split; [done|]. destruct (mnt_put_good s1 hd hi hm (p_mount p) H1 Hfm) as [H2 Hmv2].
  split; [done|]. split; [by etrans|]. by destruct (p_mount p).
Qed.

Lemma path_copy_good s hd hi hm p :
  good s hd hi hm → p_dentry p ∈ hd → path_fine s p → few 0 hd → few 0 hm →
  ∃ s', path_copy s p = (s', p) ∧ good s' (p_dentry p :: hd) hi (option_list (p_mount p) ++ hm) ∧ moves s s'
    ∧ pool s' = pool s.
Proof.
  intros H Hd [_ Hpf] Hfd Hfm. unfold path_copy. eexists. split; [done|].
  destruct (d_get_good s hd hi hm (p_dentry p) H) as [H1 Hmv1]; [by apply (ct_held _ _ _ (gd_counted _ _ _ _ H))|done|].
  destruct (mnt_get_good (d_get s (Some (p_dentry p))) (p_dentry p :: hd) hi hm (p_mount p) H1) as [H2 Hmv2]; [|done|].
  { intros m Hm. destruct Hmv1 as [Hs _]. eapply steps_mounts; eauto. }
  split; [done|]. split; [by etrans|]. by destruct (p_mount p).
Qed.

(** * The walk *)

Section Resolve.
Context (fuel : nat) (env base hi hm : list Z) (Henv : env ⊆ base).
Context (Hbase : few 9 base) (Hhi : few 9 hi) (Hhm : few 9 hm) (Hroot : root ∈ base).

(** The walk stands at [p] and holds one reference to its entry and one to
    its mount, besides those of [base], [hi] and [hm]. *)
Record at_path s p : Prop := {
  ap_good : good s (p_dentry p :: base) hi (option_list (p_mount p) ++ hm);
  ap_env : env_ok s env;
  ap_fine : path_fine s p;
  ap_fuel : (capacity s < fuel)%nat;
}.

(** The walk holds nothing. *)
Record at_rest s : Prop := {
  ar_good : good s base hi hm;
  ar_env : env_ok s env;
  ar_fuel : (capacity s < fuel)%nat;
}.

Definition at_result s (r : result path) : Prop :=
  match r with Ok p => at_path s p | Err _ => at_rest s end.

Lemma at_path_moves s s' p p' :
  env_ok s env → (capacity s < fuel)%nat → moves s s' →
  good s' (p_dentry p' :: base) hi (option_list (p_mount p') ++ hm) → path_fine s' p' → at_path s' p'.
Proof. intros He Hf [Hs Hc] Hg Hp. constructor; [done|by eapply steps_env|done|lia]. Qed.

Lemma at_path_entry s p : at_path s p → is_Some (dentries s !! p_dentry p).
Proof. intros H. apply (ct_held _ _ _ (gd_counted _ _ _ _ (ap_good _ _ H))). by left. Qed.

(** Moving the walk's reference from one entry to another one it holds too. *)
Lemma d_put_old s d c o :
  good s (c :: d :: base) hi (option_list o ++ hm) → env_ok s env → (capacity s < fuel)%nat →
  path_fine s (mk_path c o) →
  ∃ s', d_put fs_put_inode fuel s (Some d) = Ret s' ∧ at_path s' (mk_path c o) ∧ pool s' = pool s.
Proof.
  intros Hg He Hf Hp. apply (good_perm _ _ (d :: c :: base) _ _ _ (Permutation_swap _ _ _) (reflexivity _)) in Hg.
  destruct (d_put_good fuel s env (c :: base) hi _ d Hg He) as (s' & -> & Hg' & Hmv & Hpool);
    [set_solver|fewer|fewer|done|].
  exists s'. split; [done|]. split; [|done]. eapply at_path_moves; [done..|]. eapply steps_path_fine; [apply Hmv|done].
Qed.

Lemma path_put_at s p : at_path s p →
  ∃ s', path_put fs_put_inode fuel s p = Ret s' ∧ at_rest s' ∧ moves s s' ∧ pool s' = pool s.
Proof.
  intros [Hg He Hp Hf].
  destruct (path_put_good fuel s env base hi hm p Hg He) as (s' & -> & Hg' & Hmv & Hpool); [done|fewer..|done|].
  exists s'. split; [done|]. split; [|done]. destruct Hmv as [Hs Hc].
  constructor; [done|by eapply steps_env|lia].
Qed.

Lemma path_copy_at s p : at_rest s → p_dentry p ∈ base → path_fine s p →
  ∃ s', path_copy s p = (s', p) ∧ at_path s' p ∧ pool s' = pool s.
Proof.
  intros [Hg He Hf] Hd Hp.
  destruct (path_copy_good s base hi hm p Hg Hd Hp) as (s' & -> & Hg' & Hmv & Hpool); [fewer..|].
  exists s'. split; [done|]. split; [|done]. eapply at_path_moves; [done..|].
  eapply steps_path_fine; [apply Hmv|done].
Qed.

(** Stepping to the parent, also across a mount point. *)
Lemma path_get_parent_at s p : at_path s p →
  ∃ s' p', path_get_parent fs_put_inode fuel s p = Ret (s', p') ∧ at_path s' p' ∧ pool s' = pool s.
Proof.
  intros H. destruct (at_path_entry s p H) as [e Hd]. destruct H as [Hg He [Hpr Hpm] Hf].
  unfold path_get_parent. rewrite Hd. destruct (d_parent e) as [q|] eqn:Eq.
  - destruct (d_get_good s _ hi _ q Hg) as [Hg1 Hmv1];
      [by apply (ct_parent _ _ _ (gd_counted _ _ _ _ Hg) (p_dentry p) e)|fewer|].
    destruct Hmv1 as [Hs1 Hc1].
    destruct (d_put_old (d_get s (Some q)) (p_dentry p) q (p_mount p)) as (s2 & -> & Hat & Hpool);
      [done|by eapply steps_env|lia| |].
    { split; simpl; [|exact Hpm].
      intros ->. by destruct (eo_child _ _ He (p_dentry p) e Hd). }
    cbn [obind]. eauto 10.
  - destruct (eo_rooted _ _ He _ e Hd Eq) as [Hin [mp Hmp]]. rewrite Hmp.
    destruct (eo_mount _ _ He _ e mp Hd Hmp) as (point & m & b & -> & _ & _ & _ & Hpb & Hpf).
    destruct (path_copy_good s _ hi _ (mp_point point) Hg) as (s1 & -> & Hg1 & Hmv1 & Hp1);
      [by right; apply Henv|done|fewer..|].
    destruct Hmv1 as [Hs1 Hc1].
    assert (Hg1' : good s1 (p_dentry p :: p_dentry (mp_point point) :: base) hi
      (option_list (p_mount p) ++ option_list (p_mount (mp_point point)) ++ hm)).
    { eapply good_perm; [apply Permutation_swap| |done]. rewrite !(assoc (++)). by rewrite (Permutation_app_comm (option_list _)). }
    destruct (path_put_good fuel s1 env _ hi _ p Hg1') as (s2 & -> & Hg2 & Hmv2 & Hp2);
      [by eapply steps_env|set_solver|fewer..|lia|].
    cbn [obind].
    destruct Hmv2 as [Hs2 Hc2].
    destruct (path_copy_good s2 _ hi _ (mp_point point) Hg2) as (s3 & -> & Hg3 & Hmv3 & Hp3); 
      [by left|do 2 (eapply steps_path_fine; [done|]); done|fewer..|].
    destruct Hmv3 as [Hs3 Hc3].
    destruct (path_put_good fuel s3 env _ hi _ (mp_point point) Hg3) as (s4 & -> & Hg4 & Hmv4 & Hp4);
      [do 3 (eapply steps_env; [done|]); done|set_solver|fewer..|lia|].
    cbn [obind]. exists s4, (mp_point point). split; [done|]. split; [|congruence].
    assert (Hmv : moves s s4) by (etrans; [|exact Hmv4]; split; [by do 2 (etrans; [done|])|lia]).
    eapply at_path_moves; [done..|]. eapply steps_path_fine; [apply Hmv|done].
Qed.

(** Entering the newest mount at a mount point. *)
Lemma enter_mount_at s p : at_path s p →
  ∃ s' p', enter_mount fs_put_inode fuel s p = Ret (s', p') ∧ at_path s' p' ∧ pool s' = pool s.
Proof.
  intros H. destruct (at_path_entry s p H) as [e Hd]. unfold enter_mount. rewrite Hd.
  destruct (d_mountpoint e) as [mp|] eqn:Em; [|by eauto 10].
  destruct (eo_mount _ _ (ap_env _ _ H) _ e mp Hd Em) as (point & m & b & _ & Ht & Hb & Hbr & _). rewrite Ht.
  case_if; [by eauto 10|]. destruct (path_put_at s p H) as (s1 & -> & [Hg1 He1 Hf1] & [Hs1 _] & Hp1). cbn [obind].
  assert (Hm : is_Some (mounts s1 !! m)).
  { apply (steps_mounts s); [done|]. revert Ht. unfold top_mount. destruct (mpoints s !! mp) as [q|]; [|done].
    destruct (mp_mounts q) as [|m' l]; [done|]. destruct (mounts s !! m') eqn:E; [|done].
    destruct (supers s !! _); [|done]. intros [= -> _]. by eexists. }
  destruct (d_get_good s1 _ hi _ (s_root b) Hg1) as [Hg2 Hmv2];
    [by apply (ct_held _ _ _ (gd_counted _ _ _ _ Hg1)), Henv|fewer|].
  destruct (mnt_get_good (d_get s1 (Some (s_root b))) _ hi _ (Some m) Hg2) as [Hg3 Hmv3]; [by intros ? [= <-]|fewer|].
  eexists _, (mk_path (s_root b) (Some m)). split; [done|]. split; [|done].
  assert (Hmv : moves s1 (mnt_get (d_get s1 (Some (s_root b))) (Some m))) by (by etrans; [exact Hmv2|]).
  eapply at_path_moves; [done..|]. split; [done|]. intros ? [= <-]. by apply (steps_mounts s1); [apply Hmv|].
Qed.

(** The permission test faults nowhere. *)
Lemma path_access_returns s p mode : at_path s p →
  ∃ r, path_access MS_RDONLY MS_NOEXEC root uid gid s p mode = Ret r.
Proof.
  intros H. unfold path_access. do 2 (case_if; [eauto|]).
  destruct ((p_dentry p =? root) && bool_decide (p_mount p = None)) eqn:Er; [eauto|].
  destruct (at_path_entry s p H) as [e Hd]. destruct H as [Hg He [Hpr _] Hf].
  destruct (eo_inode _ _ He _ e Hd) as [i Hi].
  { intros E. rewrite E, Z.eqb_refl, bool_decide_true in Er by auto. done. }
  destruct (ct_inode _ _ _ (gd_counted _ _ _ _ Hg) _ e i Hd Hi) as [node Hn].
  unfold inode_of. rewrite Hd, Hi, Hn. repeat case_if; eauto.
Qed.

(** Looking a name up in the directory the walk stands at. *)
Lemma d_lookup_at s p name : at_path s p → (2 <= length (pool s))%nat →
  ∃ s' r, d_lookup fs_find fs_read_inode fs_put_inode fuel s (p_dentry p) name = Ret (s', r)
    ∧ (length (pool s) <= 2 + length (pool s'))%nat
    ∧ match r with
      | Err _ => at_path s' p
      | Ok c => ∃ s'', d_put fs_put_inode fuel s' (Some (p_dentry p)) = Ret s''
          ∧ at_path s'' (mk_path c (p_mount p)) ∧ pool s'' = pool s'
      end.
Proof.
  intros [Hg He [Hpr Hpm] Hf] Hpool. pose proof (gd_counted _ _ _ _ Hg) as Hc.
  destruct (ct_held _ _ _ Hc root) as [er Her]; [by right|]. destruct (eo_root _ _ He er Her) as [Hri Hrp].
  destruct (d_lookup_counted fs_put_inode fs_find fs_read_inode root fuel s _ hi (p_dentry p) name Hc)
    as (s1 & r & -> & Hev & Hcap & Hlen & Hr); [by left|eapply env_rooted; [done|set_solver]|fewer..|done|done|by eauto|].
  eexists _, _. split; [done|]. split; [done|].
  pose proof (evolves_steps _ _ Hev) as Hs. pose proof Hev as (_ & Hm & _).
  assert (He1 : env_ok s1 env) by by eapply steps_env.
  destruct r as [c|err].
  - destruct Hr as (Hc1 & ec & Hec & Hpc & _).
    destruct (d_put_old s1 (p_dentry p) c (p_mount p)) as (s2 & -> & Hat & Hp2);
      [by eapply good_mounts_eq|done|lia| |by eauto].
    split; simpl; [|intros m Hmm; eapply steps_mounts; eauto].
    intros ->. destruct (eo_root _ _ He1 ec Hec). congruence.
  - constructor; [by eapply good_mounts_eq|done| |lia]. eapply steps_path_fine; [done|done].
Qed.

Lemma substring_length n m (t : string) : (String.length (String.substring n m t) <= String.length t - n)%nat.
Proof.
  revert n m. induction t as [|c t IH]; intros n m; [by destruct n, m|].
  destruct n, m; simpl; [lia| |rewrite IH; lia..]. specialize (IH 0%nat m). lia.
Qed.

Lemma cut_length iter name rest : cut iter = (name, Some rest) → (String.length rest < String.length iter)%nat.
Proof.
  revert name rest. induction iter as [|c iter IH]; intros name rest; simpl; [done|].
  case_if; [intros [= _ <-]; lia|]. destruct (cut iter) as [n [r|]] eqn:E; [|done]. intros [= _ <-].
  specialize (IH n r eq_refl). lia.
Qed.

Definition dot_ok s (iter : string) (d : dot_step) : Prop :=
  match d with
  | Leave s' p' => at_path s' p' ∧ pool s' = pool s
  | Go s' p' iter' => at_path s' p' ∧ pool s' = pool s ∧ (String.length iter' <= String.length iter)%nat
  end.

Lemma dots_at s p iter : at_path s p → ∃ d, dots fs_put_inode fuel s p iter = Ret d ∧ dot_ok s iter d.
Proof.
  intros H. unfold dots. case_if; [|by case_if; eexists].
  case_if; [eexists; split; [done|]; split; [done|]; split; [done|]; rewrite substring_length; lia|].
  case_if; [|by case_if; eexists].
  destruct (path_get_parent_at s p H) as (s1 & p1 & -> & H1 & Hp1). cbn [obind]. by case_if; eexists.
Qed.

(** Leaving the loop, with the step to the parent where it is asked for. *)
Lemma leave_at s p flags : at_path s p →
  ∃ s' r, (if has flags WP_PARENT then ' (s, p) <~ path_get_parent fs_put_inode fuel s p ;; Ret (s, Ok p)
           else Ret (s, Ok p)) = Ret (s', r) ∧ at_result s' r ∧ pool s' = pool s.
Proof.
  intros H. case_if; [|by eauto]. destruct (path_get_parent_at s p H) as (s1 & p1 & -> & H1 & Hp1). cbn [obind]. eauto.
Qed.

Lemma walk_at n s p iter flags :
  at_path s p → (String.length iter < n)%nat → (2 * n <= length (pool s))%nat →
  ∃ s' r, walk fs_find fs_read_inode fs_put_inode MS_RDONLY MS_NOEXEC root uid gid n fuel s p iter flags = Ret (s', r)
    ∧ at_result s' r ∧ (length (pool s) <= 2 * n + length (pool s'))%nat.
Proof.
  revert s p iter. induction n as [|n IH]; intros s p iter H Hlen Hpool; [lia|]. cbn [walk].
  destruct (enter_mount_at s p H) as (s1 & p1 & -> & H1 & Hp1). cbn [obind].
  destruct (dots_at s1 p1 iter H1) as (d & -> & Hd). cbn [obind].
  assert (Hleave : ∀ s2 p2, at_path s2 p2 → pool s2 = pool s1 → ∃ s' r,
    (if has flags WP_PARENT then ' (s, p) <~ path_get_parent fs_put_inode fuel s2 p2 ;; Ret (s, Ok p)
     else Ret (s2, Ok p2)) = Ret (s', r) ∧ at_result s' r ∧ (length (pool s) <= 2 * S n + length (pool s'))%nat).
  { intros s2 p2 H2 Hp2. destruct (leave_at s2 p2 flags H2) as (s3 & r & -> & Hr & Hp3).
    exists s3, r. rewrite Hp3, Hp2, Hp1. auto with lia. }
  destruct d as [s2 p2|s2 p2 iter2]; simpl in Hd; [by apply Hleave; apply Hd|]. destruct Hd as (H2 & Hp2 & Hl2).
  destruct (path_access_returns s2 p2 X_OK H2) as ([[]|err] & ->); cbn [obind].
  2: { destruct (path_put_at s2 p2 H2) as (s3 & -> & H3 & _ & Hp3). cbn [obind]. eexists _, _.
       split; [done|]. split; [done|]. rewrite Hp3, Hp2, Hp1. lia. }
  destruct (cut iter2) as [name [rest|]] eqn:Ecut.
  - destruct (d_lookup_at s2 p2 name H2) as (s3 & [c|err] & -> & Hp3 & H3); [rewrite Hp2, Hp1; lia|..]; cbn [obind];
      rewrite Hp2, Hp1 in Hp3.
    + destruct H3 as (s4 & -> & H4 & Hp4). cbn [obind]. apply cut_length in Ecut. rewrite <- Hp4 in Hp3.
      destruct (IH s4 (mk_path c (p_mount p2)) rest H4) as (s5 & r & -> & Hr & Hp5); [lia..|].
      exists s5, r. auto with lia.
    + destruct (path_put_at s3 p2 H3) as (s4 & -> & H4 & _ & Hp4). cbn [obind]. eexists _, _.
      split; [done|]. split; [done|]. rewrite Hp4. lia.
  - case_if; [by apply Hleave|].
    case_if; [eexists _, _; split; [done|]; split; [done|]; rewrite Hp2, Hp1; lia|].
    destruct (d_lookup_at s2 p2 name H2) as (s3 & [c|err] & -> & Hp3 & H3); [rewrite Hp2, Hp1; lia|..]; cbn [obind];
      rewrite Hp2, Hp1 in Hp3.
    + destruct H3 as (s4 & -> & H4 & Hp4). cbn [obind]. eexists _, _. split; [done|]. split; [done|]. rewrite Hp4. lia.
    + destruct (path_put_at s3 p2 H3) as (s4 & Hput & H4 & _ & Hp4). unfold path_put in Hput.
      destruct (d_put _ _ _ _) as [s5| |]; try done. cbn [obind] in Hput |- *. injection Hput as Hput.
      eexists _, _. split; [done|]. rewrite Hput. split; [done|]. rewrite Hp4. lia.
Qed.
End Resolve.

(** What a path lookup from a state in order returns. *)
Lemma path_lookup_at fuel s env base hi hm cwd name flags :
  at_rest fuel env base hi hm s → env ⊆ base → few 9 base → few 9 hi → few 9 hm →
  root ∈ base → p_dentry cwd ∈ base → path_fine s cwd → (1024 <= length (pool s))%nat →
  ∃ s' r, path_lookup fs_find fs_read_inode fs_put_inode MS_RDONLY MS_NOEXEC root uid gid fuel s cwd name flags
      = Ret (s', r)
    ∧ at_result fuel env base hi hm s' r ∧ (length (pool s) <= 1024 + length (pool s'))%nat.
Proof.
  intros Hs Henv Hb Hi Hm Hr Hcwd Hfine Hpool. unfold path_lookup.
  assert (Hrest : ∀ e : errno, at_result fuel env base hi hm s (Err e)) by done.
  destruct name as [name|]; [|by eexists _, _; split; [|split; [apply Hrest|lia]]].
  case_if; [by eexists _, _; split; [|split; [apply Hrest|lia]]|].
  assert (Hn : (String.length name <= 511)%nat) by lia.
  case_if.
  - destruct Hs as [Hg He Hf].
    destruct (d_get_good s base hi hm root Hg) as [Hg1 Hmv]; [by apply (ct_held _ _ _ (gd_counted _ _ _ _ Hg))|fewer|].
    assert (at_path fuel env base hi hm (d_get s (Some root)) (mk_path root None)) as Hat
      by (by eapply at_path_moves).
    edestruct (walk_at fuel env base hi hm Henv Hb Hi Hm Hr (S (String.length name)) _ _
      (String.substring 1 (String.length name - 1) name) flags Hat) as (s' & r & -> & H & Hl).
    { eapply Nat.le_lt_trans; [apply substring_length|]. lia. }
    { simpl. lia. }
    exists s', r. split; [done|]. split; [done|]. simpl in Hl. lia.
  - destruct (path_copy_at fuel env base hi hm Hb Hm s cwd Hs) as (s1 & -> & Hat & Hp); [done..|].
    edestruct (walk_at fuel env base hi hm Henv Hb Hi Hm Hr (S (String.length name)) _ _ name flags Hat) as (s' & r & -> & H & Hl).
    { lia. }
    { rewrite Hp. lia. }
    exists s', r. split; [done|]. split; [done|]. rewrite Hp in Hl. lia.
Qed.

(** C4: [path_lookup] returns for every name and every flag, faults nowhere, and
    keeps the reference counts of directory entries, inodes and mounts right.
    When it succeeds it has added exactly one reference to the entry and one to
    the mount of the path it returns; when it fails it has added none.  The
    hypotheses say that the counts are right before, that the tree of mounts is
    in order, that the counters are not near overflow, and that there is memory
    for two new objects per component (without it the code uses a NULL entry).
    The counts of superblocks are not part of this: reading an inode that the
    driver refuses keeps one ([i_get_leaks_superblock]). *)
Theorem path_lookup_balanced fuel s base hi hm cwd name flags :
  good s base hi hm → env_ok s base → few 9 base → few 9 hi → few 9 hm →
  root ∈ base → p_dentry cwd ∈ base → path_fine s cwd →
  (capacity s < fuel)%nat → (1024 <= length (pool s))%nat →
  ∃ s' r, path_lookup fs_find fs_read_inode fs_put_inode MS_RDONLY MS_NOEXEC root uid gid fuel s cwd name flags
      = Ret (s', r)
    ∧ env_ok s' base
    ∧ match r with
      | Ok p => good s' (p_dentry p :: base) hi (option_list (p_mount p) ++ hm) ∧ path_fine s' p
      | Err _ => good s' base hi hm
      end.
Proof.
  intros Hg He Hb Hi Hm Hr Hcwd Hfine Hf Hpool.
  destruct (path_lookup_at fuel s base base hi hm cwd name flags) as (s' & [p|e] & -> & Hres & _); [by constructor|done..| |];
    destruct Hres; eauto 10.
Qed.
End Walk.

(** * A small file system *)

Module Demo.

(** Directories 2 ([/]), 11 ([/a]) and 12 ([/a/b]); [f] is a file of [/]. *)
Definition find (_ : unit) (_ dir : Z) (name : string) : result Z :=
  if (dir =? 2) && String.eqb name "a" then Ok 11
  else if (dir =? 2) && String.eqb name "f" then Ok 13
  else if (dir =? 11) && String.eqb name "b" then Ok 12
  else if String.eqb name ".." then Ok (if dir =? 12 then 11 else 2)
  else Err ENOENT.

Definition read (w : unit) (_ ino : Z) : unit * result iattr :=
  (w, Ok (mk_iattr 493 0 0 0 0 (negb (ino =? 13)))).

Definition put (w : unit) (_ _ : Z) : unit := w.

Definition root_dentry : dentry := mk_dentry "" None 2 None [] (Some 5).
Definition fs_root : dentry := mk_dentry "" (Some 9) 2 None [] (Some 5).

(** The file system of superblock 7, mounted at the root. *)
Definition state (n : nat) : vfs (W := unit) :=
  mk_vfs (<[9 := mk_inode 2 7 1 (mk_iattr 493 0 0 0 0 true)]> ∅)
    (<[1 := root_dentry]> (<[8 := fs_root]> ∅))
    (<[7 := mk_superblock 2 8 [9] 0]> ∅) (<[6 := mk_mount 7 0 1]> ∅)
    (<[5 := mk_mountpoint (mk_path 1 None) [6]]> ∅) (seqZ 100 (Z.of_nat n)) tt.

Definition base : list Z := [1; 8; 1; 8].

Definition lookup (s : vfs) (cwd : path) (name : string) (flags : Z) :=
  path_lookup find read put 1 8 1 1000 1000 2000 s cwd (Some name) flags.

Lemma dentry_cases n d e : dentries (state n) !! d = Some e → d = 1 ∧ e = root_dentry ∨ d = 8 ∧ e = fs_root.
Proof. simpl. rewrite !lookup_insert_Some, lookup_empty. naive_solver. Qed.

Lemma state_counted n : Z.of_nat n < 2147483640 → counted (state n) base [].
Proof.
  intros Hn. constructor.
  - intros d e [[-> ->]|[-> ->]]%dentry_cases; vm_compute; reflexivity.
  - intros d Hd. unfold base in Hd. rewrite !elem_of_cons, elem_of_nil in Hd.
    destruct Hd as [->|[->|[->|[->|[]]]]]; vm_compute; eauto.
  - by intros d e p [[-> ->]|[-> ->]]%dentry_cases.
  - intros p e Hp c. transitivity False.
    + destruct (dentry_cases n p e Hp) as [[-> ->]|[-> ->]]; simpl; by rewrite elem_of_nil.
    + split; [done|]. by intros (e' & [[-> ->]|[-> ->]]%dentry_cases & Hq).
  - intros d e i [[-> ->]|[-> ->]]%dentry_cases; simpl; [done|]. intros [= <-]. eauto.
  - intros i x. simpl. rewrite lookup_insert_Some, lookup_empty. intros [[<- <-]|[_ ?]]; [|done].
    vm_compute; reflexivity.
  - by intros i Hi%elem_of_nil.
  - intros i x. simpl. rewrite lookup_insert_Some, lookup_empty. intros [[<- <-]|[_ ?]]; [|done].
    eexists. split; [done|]. by left.
  - intros a b i. simpl. rewrite lookup_insert_Some, lookup_empty. intros [[<- <-]|[_ ?]]; [|done].
    intros ->%list_elem_of_singleton. eauto.
  - split; [apply NoDup_seqZ|]. intros a Ha%elem_of_seqZ. simpl.
    by rewrite !lookup_insert_ne by lia.
  - unfold capacity. simpl. rewrite length_seqZ, Nat2Z.id. change (size _) with 2%nat. lia.
Qed.

Lemma state_good n : Z.of_nat n < 2147483640 → good (state n) base [] [6].
Proof.
  intros Hn. constructor; [by apply state_counted|..].
  - intros m x. simpl. rewrite lookup_insert_Some, lookup_empty. by intros [[<- <-]|[_ ?]].
  - intros m ->%list_elem_of_singleton. eauto.
Qed.

Lemma state_env n : env_ok 1 (state n) base.
Proof.
  constructor.
  - intros d e mp Hd Hmp. assert (mp = 5) as ->
      by (destruct (dentry_cases n d e Hd) as [[-> ->]|[-> ->]]; by injection Hmp).
    exists (mk_mountpoint (mk_path 1 None) [6]), 6, (mk_superblock 2 8 [9] 0).
    split; [done|]. split; [done|]. unfold base, path_fine. simpl. set_solver.
  - intros d e [[-> ->]|[-> ->]]%dentry_cases _; (split; [unfold base; set_solver|simpl; eauto]).
  - intros d e [[-> ->]|[-> ->]]%dentry_cases ?; [done|simpl; eauto].
  - by intros e [[_ ->]|[? _]]%dentry_cases.
  - by intros d e [[-> ->]|[-> ->]]%dentry_cases.
  - intros m x. simpl. rewrite lookup_insert_Some, lookup_empty. intros [[<- <-]|[_ ?]]; [|done]. eauto.
Qed.
End Demo.

(** [path_lookup_balanced] at the small file system. *)
Lemma path_lookup_balanced_witness :
  ∃ s' r, path_lookup Demo.find Demo.read Demo.put 1 8 1 1000 1000 2000 (Demo.state 1024) (mk_path 8 (Some 6))
      (Some "a/../b") 0 = Ret (s', r)
    ∧ env_ok 1 s' Demo.base
    ∧ match r with
      | Ok p => good s' (p_dentry p :: Demo.base) [] (option_list (p_mount p) ++ [6]) ∧ path_fine 1 s' p
      | Err _ => good s' Demo.base [] [6]
      end.
Proof.
  apply (path_lookup_balanced Demo.find Demo.read Demo.put 1 8 1 1000 1000 2000 (Demo.state 1024) Demo.base [] [6]).
  - apply Demo.state_good. lia.
  - apply Demo.state_env.
  - unfold few. simpl. lia.
  - unfold few. simpl. lia.
  - unfold few. simpl. lia.
  - by left.
  - right. by left.
  - split; [done|]. intros m [= <-]. simpl. eauto.
  - unfold capacity. simpl pool. rewrite length_seqZ. change (size _) with 2%nat. lia.
  - simpl pool. rewrite length_seqZ. lia.
Defined.

(** When the driver cannot read an inode, [i_get] fails and keeps the reference
    to the superblock that it took for the inode. *)
Theorem i_get_leaks_superblock {W} (read : W → Z → Z → W * result iattr) s b super ino a rest e :
  supers s !! b = Some super → find_inode (inodes s) (s_inode_list super) ino = None → pool s = a :: rest →
  (read (fsw s) b ino).2 = Err e →
  ∃ s' super', i_get read s b ino = Ret (s', Err e) ∧ inodes s' = inodes s ∧ dentries s' = dentries s
    ∧ supers s' !! b = Some super' ∧ s_refs super' = u32 (s_refs super + 1) ∧ s_inode_list super' = s_inode_list super.
Proof.
  intros Hb Hf Hp He. unfold i_get. rewrite Hb, Hf, Hp. cbn [super_get with_pool with_supers fsw].
  destruct (read (fsw s) b ino) as [w r]. cbn [snd] in He. subst r. eexists _, _. split; [reflexivity|].
  cbn. rewrite lookup_alter_eq, Hb. done.
Qed.

(** The number of the inode a path name resolves to, by two lookups: first the
    working directory, then the name. *)
Definition resolve_from (cwd name : string) : result Z :=
  match Demo.lookup (Demo.state 40) (mk_path 8 (Some 6)) cwd 0 with
  | Ret (s, Ok p) =>
      match Demo.lookup s p name 0 with
      | Ret (s, Ok q) => match inode_of s (p_dentry q) with Some i => Ok (i_ino i) | None => Err EINVAL end
      | Ret (_, Err e) => Err e
      | _ => Err EINVAL
      end
  | _ => Err EINVAL
  end.

(** A leading [..] followed by more text is applied twice: [path_lookup] steps
    to the parent and then looks [..] up in it.  From [/a/b] the name [../f]
    finds the file [f] of [/], though [/a] has no entry [f]. *)
Theorem path_lookup_dotdot_twice :
  resolve_from "/a" "f" = Err ENOENT ∧ resolve_from "/a/b" "../f" = Ok 13
  ∧ resolve_from "/a/b" ".." = Ok 11 ∧ resolve_from "/a/b" "../." = Ok 2.
Proof. vm_compute. done. Qed.
