(* ===== verification/File.v ===== *)
(** Open files: [src/kernel/src/file.c] and the table of character devices of
    [src/kernel/src/chrdev.c].

    A [struct file] is shared by every descriptor that refers to it, so files
    live at addresses in the kernel state and [f_refs] counts the references.
    [fpool] is the sequence of addresses [kmalloc] returns for them.  The
    operations a driver provides are functions on the driver's state [W], the
    inode of the file and the fields of the file a driver owns (the offset and
    the private pointer).  The constants are those of the C library's
    [fcntl.h], [unistd.h] and [sys/stat.h]. *)

From stdpp Require Import strings.
From S2P Require Import Prelude Dcache.

Definition FREAD : Z := 1.
Definition FWRITE : Z := 2.
Definition O_APPEND : Z := 8.
Definition O_CREAT : Z := 512.
Definition O_TRUNC : Z := 1024.
Definition O_EXCL : Z := 2048.
Definition SEEK_SET : Z := 0.
Definition SEEK_CUR : Z := 1.
Definition SEEK_END : Z := 2.
Definition S_IFMT : Z := 61440.
Definition S_IFIFO : Z := 4096.
Definition S_IFCHR : Z := 8192.
Definition S_IFDIR : Z := 16384.
Definition S_IFBLK : Z := 24576.
Definition S_IFREG : Z := 32768.
Definition is_type (mode type : Z) : bool := Z.land mode S_IFMT =? type.

(** * Character devices *)

Definition register_chrdev (t : gmap Z Z) (major fops : Z) (memory : bool) : gmap Z Z * result unit :=
  if 256 <=? major then (t, Err EEXIST)
  else match t !! major with
       | Some _ => (t, Err EEXIST)
       | None => if memory then (<[major := fops]> t, Ok tt) else (t, Err ENOMEM)
       end.

Definition unregister_chrdev (t : gmap Z Z) (major : Z) : gmap Z Z * result unit :=
  if 256 <=? major then (t, Err EEXIST) else (delete major t, Ok tt).

Definition get_chrdev_fops (t : gmap Z Z) (major : Z) : option Z :=
  if 256 <=? major then None else t !! major.

(** * Files *)

Record fstate := mk_fstate { f_off : Z; f_private : Z }.
Record file := mk_file { f_path : path; f_ops : Z; f_io : fstate; f_status : Z; f_refs : Z }.

Record stat := mk_stat {
  st_dev : Z; st_ino : Z; st_mode : Z; st_uid : Z; st_gid : Z; st_rdev : Z; st_size : Z;
}.

Section File.
Context {W : Type}.

(** A driver's operation: with the driver's state, the inode and the file's
    fields it gives the new ones and a result. *)
Definition meth (A B : Type) : Type := W → inode → fstate → A → W * iattr * fstate * result B.

Record file_operations := mk_fops {
  fo_open : option (meth Z unit);
  fo_close : option (meth unit unit);
  fo_read : option (meth Z (list Z));
  fo_write : option (meth (list Z) Z);
  fo_readdir : option (meth Z (list Z));
  fo_lseek : option (meth (Z * Z) Z);
  fo_ioctl : option (meth (Z * Z) Z);
  fo_fstat : option (meth unit stat);
  fo_isatty : option (meth unit Z);
}.

Record kern := mk_kern { kv : vfs (W := W); files : gmap Z file; chrdev : gmap Z Z; fpool : list Z }.

Definition with_kv (k : kern) (s : vfs) : kern := mk_kern s (files k) (chrdev k) (fpool k).
Definition with_files (k : kern) (x : gmap Z file) : kern := mk_kern (kv k) x (chrdev k) (fpool k).
Definition with_fpool (k : kern) (x : list Z) : kern := mk_kern (kv k) (files k) (chrdev k) x.

Definition set_io (io : fstate) (f : file) : file := mk_file (f_path f) (f_ops f) io (f_status f) (f_refs f).
Definition set_off (off : Z) (f : file) : file := set_io (mk_fstate off (f_private (f_io f))) f.
Definition set_frefs (n : Z) (f : file) : file := mk_file (f_path f) (f_ops f) (f_io f) (f_status f) n.
Definition set_status (n : Z) (f : file) : file := mk_file (f_path f) (f_ops f) (f_io f) n (f_refs f).
Definition set_attr (a : iattr) (i : inode) : inode := mk_inode (i_ino i) (i_super i) (i_ref i) a.

(** The driver side: [fops] gives the structure at an address; a file system
    may give its inodes default operations and the operations [truncate] and
    [flush]. *)
Context (fs_put_inode : W → Z → Z → W).
Context (MS_RDONLY MS_NOEXEC vfs_root uid gid : Z) (major : Z → Z).
Context (fops : Z → file_operations) (default_fops : inode → option Z).
Context (block_device_fops pipe_operations : Z).
Context (fs_truncate : inode → option (W → W * iattr * result unit)) (fs_flush : inode → option (W → W * result unit)).

(** The address of the inode of a directory entry. *)
Definition inode_ptr (s : vfs (W := W)) (d : Z) : option Z :=
  match dentries s !! d with None => None | Some e => d_inode e end.

Definition put_attr (s : vfs) (i : Z) (w : W) (a : iattr) : vfs :=
  with_fsw (with_inodes s (alter (set_attr a) i (inodes s))) w.

(** Calling an operation of a driver for the file at an address. *)
Definition call {A B} (k : kern) (a : Z) (m : meth A B) (x : A) : outcome (kern * result B) :=
  match files k !! a with
  | None => Halt
  | Some f =>
      match inode_ptr (kv k) (p_dentry (f_path f)) with
      | None => Halt
      | Some i =>
          match inodes (kv k) !! i with
          | None => Halt
          | Some node =>
              let '(w, attr, io, r) := m (fsw (kv k)) node (f_io f) x in
              Ret (with_files (with_kv k (put_attr (kv k) i w attr)) (<[a := set_io io f]> (files k)), r)
          end
      end
  end.

Definition inode_trunc (k : kern) (i : Z) (node : inode) : kern * result unit :=
  match fs_truncate node with
  | None => (k, Err EACCES)
  | Some tr => let '(w, attr, r) := tr (fsw (kv k)) in (with_kv k (put_attr (kv k) i w attr), r)
  end.

Definition choose_fops (k : kern) (node : inode) : option Z :=
  let mode := i_mode (i_attr node) in
  if is_type mode S_IFBLK then Some block_device_fops
  else if is_type mode S_IFCHR then get_chrdev_fops (chrdev k) (major (i_dev (i_attr node)))
  else if is_type mode S_IFIFO then Some pipe_operations
  else default_fops node.

(** The access a set of open flags asks for. *)
Definition access_mode (flags : Z) : Z :=
  Z.lor (if has (flags + 1) FWRITE then W_OK else 0) (if has (flags + 1) FREAD then R_OK else 0).

(** The second half of [file_open]: the new structure, its operations and the
    driver's [open]. *)
Definition file_new (fuel : nat) (k : kern) (p : path) (i flags : Z) : outcome (kern * result Z) :=
  match fpool k with
  | [] => Ret (k, Err ENOMEM)
  | a :: rest =>
      let '(s, q) := path_copy (kv k) p in
      let k := with_fpool (with_kv k s) rest in
      match inodes (kv k) !! i with
      | None => Halt
      | Some node =>
          match choose_fops k node with
          | None => s <~ path_put fs_put_inode fuel (kv k) q ;; Ret (with_kv k s, Err ENXIO)
          | Some o =>
              let k := with_files k (<[a := mk_file q o (mk_fstate 0 0) 0 0]> (files k)) in
              ' (k, r) <~ match fo_open (fops o) with
                          | None => Ret (k, Ok tt)
                          | Some m => call k a m flags
                          end ;;
              match r with
              | Err e =>
                  s <~ path_put fs_put_inode fuel (kv k) q ;;
                  Ret (with_files (with_kv k s) (delete a (files k)), Err e)
              | Ok tt => Ret (with_files k (alter (λ f, set_frefs 1 (set_status flags f)) a (files k)), Ok a)
              end
          end
      end
  end.

Definition file_open (fuel : nat) (k : kern) (p : path) (flags : Z) : outcome (kern * result Z) :=
  r <~ path_access MS_RDONLY MS_NOEXEC vfs_root uid gid (kv k) p (access_mode flags) ;;
  match r with
  | Err e => Ret (k, Err e)
  | Ok tt =>
      match inode_ptr (kv k) (p_dentry p) with
      | None => Halt
      | Some i =>
          match inodes (kv k) !! i with
          | None => Halt
          | Some node =>
              if is_type (i_mode (i_attr node)) S_IFDIR && has (flags + 1) FWRITE then Ret (k, Err EISDIR)
              else if has flags O_TRUNC then
                if negb (has (access_mode flags) W_OK) then Ret (k, Err EACCES)
                else match inode_trunc k i node with
                     | (k, Err e) => Ret (k, Err e)
                     | (k, Ok tt) => file_new fuel k p i flags
                     end
              else file_new fuel k p i flags
          end
      end
  end.

(** The inode of an open file. *)
Definition file_inode (k : kern) (f : file) : option inode :=
  match inode_ptr (kv k) (p_dentry (f_path f)) with
  | None => None
  | Some i => inodes (kv k) !! i
  end.

Definition file_flush (k : kern) (a : Z) : outcome (kern * result unit) :=
  match files k !! a with
  | None => Halt
  | Some f =>
      match file_inode k f with
      | None => Halt
      | Some node => match fs_flush node with
                     | None => Ret (k, Ok tt)
                     | Some fl => let '(w, r) := fl (fsw (kv k)) in Ret (with_kv k (with_fsw (kv k) w), r)
                     end
      end
  end.

Definition file_get (k : kern) (o : option Z) : kern :=
  match o with
  | None => k
  | Some a => with_files k (alter (λ f, set_frefs (s32 (f_refs f + 1)) f) a (files k))
  end.

Definition file_close (fuel : nat) (k : kern) (o : option Z) : outcome (kern * result unit) :=
  match o with
  | None => Ret (k, Ok tt)
  | Some a =>
      match files k !! a with
      | None => Halt
      | Some f =>
          let n := s32 (f_refs f - 1) in
          let k := with_files k (<[a := set_frefs n f]> (files k)) in
          if 0 <? n then Ret (k, Ok tt)
          else
            ' (k, r) <~ match fo_close (fops (f_ops f)) with
                        | None => Ret (k, Ok tt)
                        | Some m => call k a m tt
                        end ;;
            match r with
            | Err e => Ret (k, Err e)
            | Ok tt =>
                s <~ path_put fs_put_inode fuel (kv k) (f_path f) ;;
                Ret (with_files (with_kv k s) (delete a (files k)), Ok tt)
            end
      end
  end.

Definition file_read (k : kern) (a count : Z) : outcome (kern * result (list Z)) :=
  match files k !! a with
  | None => Halt
  | Some f => if negb (has (f_status f + 1) FREAD) then Ret (k, Err EINVAL)
              else match fo_read (fops (f_ops f)) with
                   | None => Ret (k, Err EINVAL)
                   | Some m => call k a m count
                   end
  end.

(** [S_ISDIR] is applied to the mode masked with [S_IFDIR]. *)
Definition file_readdir (k : kern) (a count : Z) : outcome (kern * result (list Z)) :=
  match files k !! a with
  | None => Halt
  | Some f =>
      match file_inode k f with
      | None => Halt
      | Some node =>
          if negb (is_type (Z.land (i_mode (i_attr node)) S_IFDIR) S_IFDIR) then Ret (k, Err ENOTDIR)
          else if negb (has (f_status f + 1) FREAD) then Ret (k, Err EINVAL)
          else match fo_readdir (fops (f_ops f)) with
               | None => Ret (k, Err EINVAL)
               | Some m => call k a m count
               end
      end
  end.

Definition update (k : kern) (a : Z) (g : file → file) : kern := with_files k (alter g a (files k)).

Definition file_write (k : kern) (a : Z) (buf : list Z) : outcome (kern * result Z) :=
  match files k !! a with
  | None => Halt
  | Some f =>
      if negb (has (f_status f + 1) FWRITE) then Ret (k, Err EINVAL)
      else match fo_write (fops (f_ops f)) with
           | None => Ret (k, Err EINVAL)
           | Some m =>
               let old_pos := f_off (f_io f) in
               if has (f_status f + 1) O_APPEND then
                 match file_inode k f with
                 | None => Halt
                 | Some node =>
                     ' (k, r) <~ call (update k a (set_off (i_size (i_attr node)))) a m buf ;;
                     Ret (update k a (set_off old_pos), r)
                 end
               else call k a m buf
           end
  end.

(** The offset is a signed 32-bit integer. *)
Definition file_seek (k : kern) (a offset whence : Z) : outcome (kern * result Z) :=
  match files k !! a with
  | None => Halt
  | Some f =>
      match fo_lseek (fops (f_ops f)) with
      | Some m => call k a m (offset, whence)
      | None =>
          if whence =? SEEK_SET then Ret (update k a (set_off offset), Ok 0)
          else if whence =? SEEK_CUR then Ret (update k a (set_off (s32 (f_off (f_io f) + offset))), Ok 0)
          else if whence =? SEEK_END then
            match file_inode k f with
            | None => Halt
            | Some node => Ret (update k a (set_off (s32 (i_size (i_attr node) + offset))), Ok 0)
            end
          else Ret (k, Err EINVAL)
      end
  end.

Definition file_ioctl (k : kern) (a request argp : Z) : outcome (kern * result Z) :=
  match files k !! a with
  | None => Halt
  | Some f => match fo_ioctl (fops (f_ops f)) with
              | None => Ret (k, Err EINVAL)
              | Some m => call k a m (request, argp)
              end
  end.

(** The fields the model keeps of an inode; the times and block counts are
    copied in the same way. *)
Definition file_stat (k : kern) (a : Z) : outcome (kern * result stat) :=
  match files k !! a with
  | None => Halt
  | Some f =>
      match file_inode k f with
      | None => Ret (k, Err EINVAL)
      | Some node =>
          match fo_fstat (fops (f_ops f)) with
          | Some m => call k a m tt
          | None =>
              match supers (kv k) !! i_super node with
              | None => Halt
              | Some b =>
                  let x := i_attr node in
                  Ret (k, Ok (mk_stat (s_dev b) (i_ino node) (i_mode x) (i_uid x) (i_gid x) (i_dev x) (i_size x)))
              end
          end
      end
  end.

Definition file_isatty (k : kern) (a : Z) : outcome (kern * result Z) :=
  match files k !! a with
  | None => Halt
  | Some f => match fo_isatty (fops (f_ops f)) with
              | None => Ret (k, Err ENOTTY)
              | Some m => call k a m tt
              end
  end.
End File.
