(* ===== verification/FileInv.v ===== *)
(** The references of open files.  [kgood k refs base hi hm] says that every
    count in the kernel is right when [refs] lists the references to open
    files (the descriptors of all tasks) and [base], [hi], [hm] the references
    to directory entries, inodes and mounts held by everything but open
    files: each open file is referred to, [f_refs] counts how often, and it
    holds exactly one reference to its directory entry and one to its mount. *)

From stdpp Require Import strings.
From S2P Require Import Prelude Dcache DcacheInv PathLookup File.

(** * The paths of open files *)

Definition fdents (m : gmap Z file) : list Z := (λ x, p_dentry (f_path x.2)) <$> map_to_list m.
Definition fmounts (m : gmap Z file) : list Z := map_to_list m ≫= λ x, option_list (p_mount (f_path x.2)).

Lemma fdents_insert m a f : m !! a = None → fdents (<[a := f]> m) ≡ₚ p_dentry (f_path f) :: fdents m.
Proof. intros H. unfold fdents. by rewrite map_to_list_insert. Qed.

Lemma fmounts_insert m a f :
  m !! a = None → fmounts (<[a := f]> m) ≡ₚ option_list (p_mount (f_path f)) ++ fmounts m.
Proof. intros H. unfold fmounts. by rewrite map_to_list_insert. Qed.

Lemma fdents_delete m a f : m !! a = Some f → fdents m ≡ₚ p_dentry (f_path f) :: fdents (delete a m).
Proof.
  intros H. rewrite <- (insert_delete_id m a f H) at 1. apply fdents_insert. apply lookup_delete_eq.
Qed.

Lemma fmounts_delete m a f :
  m !! a = Some f → fmounts m ≡ₚ option_list (p_mount (f_path f)) ++ fmounts (delete a m).
Proof.
  intros H. rewrite <- (insert_delete_id m a f H) at 1. apply fmounts_insert. apply lookup_delete_eq.
Qed.

Lemma fdents_update m a f f' : m !! a = Some f → f_path f' = f_path f → fdents (<[a := f']> m) ≡ₚ fdents m.
Proof.
  intros H E. rewrite (fdents_delete _ a f') by apply lookup_insert_eq. rewrite (fdents_delete m a f H).
  by rewrite delete_insert_eq, E.
Qed.

Lemma fmounts_update m a f f' : m !! a = Some f → f_path f' = f_path f → fmounts (<[a := f']> m) ≡ₚ fmounts m.
Proof.
  intros H E. rewrite (fmounts_delete _ a f') by apply lookup_insert_eq. rewrite (fmounts_delete m a f H).
  by rewrite delete_insert_eq, E.
Qed.

Lemma fdents_length m : length (fdents m) = size m.
Proof. unfold fdents. by rewrite length_fmap, length_map_to_list. Qed.

Lemma fmounts_length m : (length (fmounts m) <= size m)%nat.
Proof.
  unfold fmounts. rewrite <- length_map_to_list. induction (map_to_list m) as [|x l IH]; [done|].
  cbn [mbind list_bind length]. rewrite length_app. pose proof (option_list_le (p_mount (f_path x.2))). lia.
Qed.

(** * The invariant *)

Section Inv.
Context {W : Type} (fs_put_inode : W → Z → Z → W) (root : Z) (fuel : nat).
Implicit Types (s : vfs (W := W)) (k : kern (W := W)) (refs env base hi hm : list Z).

Record kgood k refs env base hi hm : Prop := {
  kg_good : good (kv k) (fdents (files k) ++ base) hi (fmounts (files k) ++ hm);
  kg_env : env_ok root (kv k) env;
  kg_sub : root ∈ env ∧ env ⊆ base;
  kg_fuel : (capacity (kv k) < fuel)%nat;
  kg_refs : ∀ a f, files k !! a = Some f → f_refs f = Z.of_nat (occ a refs) ∧ a ∈ refs;
  kg_held : ∀ a, a ∈ refs → is_Some (files k !! a);
  kg_file : ∀ a f, files k !! a = Some f → p_dentry (f_path f) ≠ root;
  kg_pool : NoDup (fpool k) ∧ ∀ a, a ∈ fpool k → files k !! a = None;
}.

(** No counter is near overflow: [n] more references fit. *)
Record roomy (n : Z) k refs base hi hm : Prop := {
  rm_refs : few n refs;
  rm_dentries : few (Z.of_nat (size (files k)) + n) base;
  rm_inodes : few n hi;
  rm_mounts : few (Z.of_nat (size (files k)) + n) hm;
}.

Definition room k refs base hi hm : Prop := roomy 20 k refs base hi hm.

Lemma roomy_push k refs base hi hm p :
  roomy 30 k refs base hi hm → room k refs (p_dentry p :: base) hi (option_list (p_mount p) ++ hm).
Proof. intros []. constructor; fewer. Qed.

Lemma roomy_kv n k refs base hi hm s : roomy n k refs base hi hm → roomy n (with_kv k s) refs base hi hm.
Proof. by intros []. Qed.

Lemma roomy_mono n m k refs base hi hm : roomy n k refs base hi hm → m <= n → roomy m k refs base hi hm.
Proof. intros []. constructor; fewer. Qed.

Lemma roomy_room k refs base hi hm : roomy 30 k refs base hi hm → room k refs base hi hm.
Proof. intros []. constructor; fewer. Qed.

Lemma room_few k refs base hi hm : room k refs base hi hm →
  few 20 refs ∧ few 20 (fdents (files k) ++ base) ∧ few 20 hi ∧ few 20 (fmounts (files k) ++ hm).
Proof.
  intros []. unfold few in *. rewrite !length_app, fdents_length. pose proof (fmounts_length (files k)). lia.
Qed.

(** ** Calls of a driver *)

(** A change of the attributes of an inode and of the driver's state. *)
Lemma put_attr_good s hd hi hm i w x :
  good s hd hi hm → is_Some (inodes s !! i) →
  good (put_attr s i w x) hd hi hm ∧ moves root s (put_attr s i w x) ∧ pool (put_attr s i w x) = pool s.
Proof.
  intros [Hc Hm Hh] [n Hn]. split; [|split; [split; [split; [eauto|done]|done]|done]].
  constructor; [|done..]. unfold put_attr. rewrite (alter_Some _ _ _ n) by done.
  assert (Hx : counted (with_inodes s (<[i := set_attr x n]> (inodes s))) hd hi).
  { apply (counted_inode s hd hi hi i n); [done..|]. exact (ct_iref _ _ _ Hc i n Hn). }
  destruct Hx. by constructor.
Qed.

Lemma env_mono s env base : env_ok root s env → env ⊆ base → env_ok root s base.
Proof.
  intros [] Hs. constructor; try done.
  - intros d e mp Hd Hm. destruct (eo_mount d e mp Hd Hm) as (point & m & b & H). exists point, m, b. naive_solver.
  - intros d e Hd Hp. destruct (eo_rooted d e Hd Hp). auto.
Qed.

(** The inode of an entry other than the first root. *)
Lemma entry_inode s hd hi hm env d :
  good s hd hi hm → env_ok root s env → d ∈ hd → d ≠ root →
  ∃ i node, inode_ptr s d = Some i ∧ inodes s !! i = Some node.
Proof.
  intros Hg He Hd Hr. destruct (ct_held _ _ _ (gd_counted _ _ _ _ Hg) d Hd) as [e Hde].
  destruct (eo_inode _ _ _ He d e Hde Hr) as [i Hi].
  destruct (ct_inode _ _ _ (gd_counted _ _ _ _ Hg) d e i Hde Hi) as [node Hn].
  exists i, node. unfold inode_ptr. by rewrite Hde.
Qed.

Lemma call_spec {A B} k a f (m : meth A B) x hd hi hm env :
  files k !! a = Some f → good (kv k) hd hi hm → env_ok root (kv k) env →
  p_dentry (f_path f) ∈ hd → p_dentry (f_path f) ≠ root →
  ∃ s io r, call k a m x = Ret (with_files (with_kv k s) (<[a := set_io io f]> (files k)), r)
    ∧ good s hd hi hm ∧ moves root (kv k) s ∧ pool s = pool (kv k)
    ∧ ∃ w i node x', (w, x', io, r) = m (fsw (kv k)) node (f_io f) x ∧ inode_ptr (kv k) (p_dentry (f_path f)) = Some i
        ∧ inodes (kv k) !! i = Some node ∧ s = put_attr (kv k) i w x'.
Proof.
  intros Hf Hg He Hd Hr. destruct (entry_inode (kv k) hd hi hm env _ Hg He Hd Hr) as (i & node & Hi & Hn).
  unfold call. rewrite Hf, Hi, Hn. destruct (m _ _ _ _) as [[[w x'] io] r] eqn:Em. eexists _, _, _. split; [done|].
  destruct (put_attr_good (kv k) hd hi hm i w x' Hg) as (H1 & H2 & H3); [by eexists|].
  split; [done|]. split; [done|]. split; [done|]. by exists w, i, node, x'.
Qed.

(** ** References to files *)

(** The count of one file and the references to it change. *)
Lemma kgood_refs k refs refs' env base hi hm a f f' :
  kgood k refs env base hi hm → files k !! a = Some f → f_path f' = f_path f →
  (∀ j, j ≠ a → occ j refs' = occ j refs) → f_refs f' = Z.of_nat (occ a refs') → a ∈ refs' →
  kgood (with_files k (<[a := f']> (files k))) refs' env base hi hm.
Proof.
  intros [] Hf Hp Ho Hn Ha. constructor; simpl; try done.
  - eapply good_perm; [| |done]; [by rewrite (fdents_update _ _ f)|by rewrite (fmounts_update _ _ f)].
  - intros j x. rewrite lookup_insert. case_decide as E; [intros [= <-]; by subst|]. intros Hj.
    rewrite occ_elem, Ho by done. rewrite <- occ_elem. auto.
  - intros j Hj. rewrite lookup_insert_is_Some'. destruct (decide (a = j)) as [|Hne]; [by left|right].
    apply kg_held0. rewrite occ_elem in *. by rewrite <- Ho.
  - intros j x. rewrite lookup_insert. case_decide as E; [|eauto]. intros [= <-]. rewrite Hp. eauto.
  - split; [apply kg_pool0|]. intros j Hj. destruct kg_pool0 as [_ Hpool]. rewrite lookup_insert.
    case_decide as E; [|auto]. subst j. rewrite Hpool in Hf by done. done.
Qed.

Lemma kgood_perm k refs refs' env base base' hi hm hm' :
  refs ≡ₚ refs' → base ≡ₚ base' → hm ≡ₚ hm' → kgood k refs env base hi hm → kgood k refs' env base' hi hm'.
Proof.
  intros Hr Hb Hm []. constructor; try done.
  - eapply good_perm; [| |done]; by rewrite ?Hb, ?Hm.
  - split; [apply kg_sub0|]. intros x Hx. rewrite <- Hb. by apply kg_sub0.
  - intros a f Hf. rewrite <- Hr. auto.
  - intros a Ha. rewrite <- Hr in Ha. auto.
Qed.

Lemma kgood_file k refs env base hi hm a :
  kgood k refs env base hi hm → a ∈ refs → ∃ f, files k !! a = Some f ∧ p_dentry (f_path f) ≠ root
    ∧ p_dentry (f_path f) ∈ fdents (files k) ++ base ∧ f_refs f = Z.of_nat (occ a refs).
Proof.
  intros [] Ha. destruct (kg_held0 a Ha) as [f Hf]. exists f. split; [done|]. split; [eauto|].
  split; [|by apply kg_refs0]. rewrite (fdents_delete _ a f Hf). by left.
Qed.

Lemma file_get_ok k refs env base hi hm a :
  kgood k refs env base hi hm → few 9 refs → a ∈ refs → kgood (file_get k (Some a)) (a :: refs) env base hi hm.
Proof.
  intros H Hfew Ha. destruct (kgood_file _ _ _ _ _ _ a H Ha) as (f & Hf & _ & _ & Hn). unfold file_get.
  rewrite (alter_Some _ _ _ f) by done. pose proof (occ_length a refs). unfold few in Hfew.
  apply (kgood_refs k refs _ _ _ _ _ a f); [done..| | |by left].
  - intros j Hj. rewrite occ_cons. by rewrite decide_False.
  - simpl. rewrite Hn, s32_small, occ_cons, decide_True by (done || lia). lia.
Qed.

(** The state changes below the files: same files, same references. *)
Lemma kgood_kv_env k refs env base hi hm s base' hm' :
  kgood k refs env base hi hm → good s (fdents (files k) ++ base') hi (fmounts (files k) ++ hm') →
  env_ok root s env → (capacity s < fuel)%nat → env ⊆ base' → kgood (with_kv k s) refs env base' hi hm'.
Proof. intros [] Hg He Hc Hb. constructor; simpl; try done. by split; [apply kg_sub0|]. Qed.

Lemma kgood_kv k refs env base hi hm s base' hm' :
  kgood k refs env base hi hm → good s (fdents (files k) ++ base') hi (fmounts (files k) ++ hm') →
  moves root (kv k) s → env ⊆ base' → kgood (with_kv k s) refs env base' hi hm'.
Proof.
  intros H Hg [Hs Hc] Hb. eapply kgood_kv_env; [done|done| | |done].
  - eapply steps_env; [done|apply H].
  - pose proof (kg_fuel _ _ _ _ _ _ H). lia.
Qed.

(** Taking and giving back a path. *)
Lemma kgood_path_copy k refs env base hi hm p :
  kgood k refs env base hi hm → room k refs base hi hm → p_dentry p ∈ base → path_fine root (kv k) p →
  ∃ s, path_copy (kv k) p = (s, p)
    ∧ kgood (with_kv k s) refs env (p_dentry p :: base) hi (option_list (p_mount p) ++ hm) ∧ pool s = pool (kv k).
Proof.
  intros H (Hr & Hd & Hi & Hm)%room_few Hp Hf.
  destruct (path_copy_good root (kv k) _ hi _ p (kg_good _ _ _ _ _ _ H)) as (s & -> & Hg & Hmv & Hpool);
    [set_solver|done|fewer..|]. exists s. split; [done|]. split; [|done].
  eapply kgood_kv; [done| |done|].
  - eapply good_perm; [| |done]; solve_Permutation.
  - pose proof (kg_sub _ _ _ _ _ _ H). set_solver.
Qed.

Lemma kgood_path_put k refs env base hi hm p :
  kgood k refs env (p_dentry p :: base) hi (option_list (p_mount p) ++ hm) → env ⊆ base → room k refs base hi hm →
  ∃ s, path_put fs_put_inode fuel (kv k) p = Ret s ∧ kgood (with_kv k s) refs env base hi hm ∧ pool s = pool (kv k).
Proof.
  intros H Hsub (Hr & Hd & Hi & Hm)%room_few.
  destruct (path_put_good fs_put_inode root fuel (kv k) env (fdents (files k) ++ base) hi (fmounts (files k) ++ hm) p)
    as (s & -> & Hg & Hmv & Hpool).
  - eapply good_perm; [| |apply H]; solve_Permutation.
  - apply H.
  - set_solver.
  - fewer.
  - fewer.
  - fewer.
  - apply H.
  - exists s. split; [done|]. split; [|done]. by eapply kgood_kv.
Qed.

(** Removing a file nobody refers to, with the references it held. *)
Lemma kgood_remove k refs env base hi hm a f s :
  kgood k (a :: refs) env base hi hm → files k !! a = Some f → a ∉ refs →
  good s (fdents (delete a (files k)) ++ base) hi (fmounts (delete a (files k)) ++ hm) → moves root (kv k) s →
  kgood (with_files (with_kv k s) (delete a (files k))) refs env base hi hm.
Proof.
  intros [] Hf Ha Hg [Hs Hc]. constructor; simpl; try done.
  - by eapply steps_env.
  - lia.
  - intros j x. rewrite lookup_delete. case_decide as E; [done|]. intros Hj. destruct (kg_refs0 j x Hj) as [Hr Hin].
    rewrite occ_cons, decide_False in Hr by done. split; [done|]. set_solver.
  - intros j Hj. rewrite lookup_delete_ne by congruence. apply kg_held0. by right.
  - intros j x. rewrite lookup_delete. case_decide; [done|eauto].
  - split; [apply kg_pool0|]. intros j Hj. destruct kg_pool0 as [_ Hpool]. rewrite lookup_delete. case_decide; auto.
Qed.

Context (fops : Z → file_operations (W := W)).

(** The drivers' [close] operations do not fail.  [file_close] lowers the count
    before it calls them, so that a failing one leaves a file with count 0. *)
Definition closes : Prop := ∀ o m w n io, fo_close (fops o) = Some m → (m w n io tt).2 = Ok tt.

(** Releasing the path of a file that goes. *)
Lemma file_drop_ok k refs env base hi hm a f s :
  kgood k (a :: refs) env base hi hm → files k !! a = Some f → a ∉ refs → room k refs base hi hm →
  good s (fdents (files k) ++ base) hi (fmounts (files k) ++ hm) → moves root (kv k) s →
  ∃ s', path_put fs_put_inode fuel s (f_path f) = Ret s'
    ∧ kgood (with_files (with_kv k s') (delete a (files k))) refs env base hi hm.
Proof.
  intros H Hf Ha (Hr & Hd & Hi & Hm)%room_few Hg [Hs Hc].
  destruct (path_put_good fs_put_inode root fuel s env (fdents (delete a (files k)) ++ base) hi
    (fmounts (delete a (files k)) ++ hm) (f_path f)) as (s' & -> & Hg' & Hmv' & _).
  - eapply good_perm; [| |done]; [by rewrite (fdents_delete _ a f)|by rewrite (fmounts_delete _ a f), (assoc (++))].
  - eapply steps_env; [done|]. by apply (kg_env _ _ _ _ _ _ H).
  - intros x Hx. apply elem_of_app. right. by apply (kg_sub _ _ _ _ _ _ H).
  - revert Hd. unfold few. rewrite (fdents_delete _ a f) by done. simpl. lia.
  - unfold few in *. lia.
  - revert Hm. unfold few. rewrite (fmounts_delete _ a f) by done. rewrite !length_app. lia.
  - pose proof (kg_fuel _ _ _ _ _ _ H). lia.
  - exists s'. split; [done|]. assert (moves root (kv k) s') by (etrans; [split|]; done).
    by apply (kgood_remove k refs _ _ _ _ a f).
Qed.

(** [file_close] gives one reference back; with the last one the file and the
    references it held go. *)
Lemma file_close_ok k refs env base hi hm a :
  closes → kgood k (a :: refs) env base hi hm → room k refs base hi hm →
  ∃ k', file_close fs_put_inode fops fuel k (Some a) = Ret (k', Ok tt) ∧ kgood k' refs env base hi hm
    ∧ (size (files k') <= size (files k))%nat.
Proof.
  intros Hclose H Hroom. destruct (kgood_file _ _ _ _ _ _ a H) as (f & Hf & Hnr & Hin & Hn); [by left|].
  pose proof (rm_refs _ _ _ _ _ _ Hroom) as Hr. unfold few in Hr.
  rewrite occ_cons, decide_True in Hn by done. pose proof (occ_length a refs). unfold file_close. rewrite Hf, s32_small
    by lia. case_if.
  - eexists. split; [done|]. split; [|simpl; by rewrite map_size_insert_Some]. apply (kgood_refs k (a :: refs) _ _ _ _ _ a f); [done..| | |].
    + intros j Hj. rewrite occ_cons. by rewrite decide_False.
    + simpl. lia.
    + rewrite occ_elem. lia.
  - assert (Ha : a ∉ refs) by (rewrite occ_elem; lia).
    set (f0 := set_frefs (f_refs f - 1) f). set (k0 := with_files k (<[a := f0]> (files k))).
    assert (Hf0 : files k0 !! a = Some f0) by apply lookup_insert_eq.
    destruct (fo_close (fops (f_ops f))) as [m|] eqn:Em.
    + destruct (call_spec k0 a f0 m tt (fdents (files k) ++ base) hi (fmounts (files k) ++ hm) env Hf0)
        as (s & io & r & -> & Hg & Hmv & _ & w & i & node & x' & Hcall & _); [apply H..|done|done|].
      assert (r = Ok tt) as ->.
      { specialize (Hclose _ m (fsw (kv k0)) node (f_io f0) Em). by rewrite <- Hcall in Hclose. }
      destruct (file_drop_ok k refs env base hi hm a f s H Hf Ha Hroom Hg Hmv) as (s' & Hs' & Hk).
      unfold k0. cbn [obind kv with_files with_kv files]. rewrite Hs'. cbn [obind with_files files]. eexists. split; [done|].
      rewrite !delete_insert_eq. split; [done|]. apply map_subseteq_size, delete_subseteq.
    + destruct (file_drop_ok k refs env base hi hm a f (kv k) H Hf Ha Hroom) as (s' & Hs' & Hk); [apply H|done|].
      unfold k0. cbn [obind kv with_files]. rewrite Hs'. cbn [obind with_kv with_files files]. eexists. split; [done|].
      rewrite delete_insert_eq. split; [done|]. apply map_subseteq_size, delete_subseteq.
Qed.

(** ** Reading, writing and seeking *)

Lemma call_ok {A B} k refs env base hi hm a (m : meth A B) x :
  kgood k refs env base hi hm → a ∈ refs →
  ∃ k' r, call k a m x = Ret (k', r) ∧ kgood k' refs env base hi hm ∧ size (files k') = size (files k).
Proof.
  intros H Ha. destruct (kgood_file _ _ _ _ _ _ a H Ha) as (f & Hf & Hnr & Hin & Hn).
  destruct (call_spec k a f m x _ hi _ env Hf (kg_good _ _ _ _ _ _ H) (kg_env _ _ _ _ _ _ H) Hin Hnr)
    as (s & io & r & -> & Hg & Hmv & _). eexists _, _. split; [done|]. split; [|simpl; by rewrite map_size_insert_Some].
  apply (kgood_refs (with_kv k s) refs _ _ _ _ _ a f); [|done..].
  eapply kgood_kv; [done|done|done|]. apply (kg_sub _ _ _ _ _ _ H).
Qed.

Lemma update_ok k refs env base hi hm a z :
  kgood k refs env base hi hm → a ∈ refs →
  kgood (update k a (set_off z)) refs env base hi hm ∧ size (files (update k a (set_off z))) = size (files k).
Proof.
  intros H Ha. destruct (kgood_file _ _ _ _ _ _ a H Ha) as (f & Hf & Hnr & Hin & Hn).
  split; [|simpl; apply size_alter]. unfold update. rewrite (alter_Some _ _ _ f) by done.
  by apply (kgood_refs k refs _ _ _ _ _ a f).
Qed.

Lemma file_inode_ok k refs env base hi hm a f :
  kgood k refs env base hi hm → files k !! a = Some f → a ∈ refs → ∃ node, file_inode k f = Some node.
Proof.
  intros H Hf Ha. destruct (kgood_file _ _ _ _ _ _ a H Ha) as (f' & Hf' & Hnr & Hin & Hn).
  rewrite Hf in Hf'. injection Hf' as <-.
  destruct (entry_inode (kv k) _ hi _ env _ (kg_good _ _ _ _ _ _ H) (kg_env _ _ _ _ _ _ H) Hin Hnr) as (i & node & Hi & Hn').
  exists node. unfold file_inode. by rewrite Hi.
Qed.

(** An operation on an open file returns and keeps all references. *)
Definition serves {A} k refs env base hi hm (c : outcome (kern * result A)) : Prop :=
  ∃ k' r, c = Ret (k', r) ∧ kgood k' refs env base hi hm ∧ size (files k') = size (files k).

Lemma file_read_ok k refs env base hi hm a n :
  kgood k refs env base hi hm → a ∈ refs → serves k refs env base hi hm (file_read fops k a n).
Proof.
  intros H Ha. destruct (kgood_file _ _ _ _ _ _ a H Ha) as (f & Hf & _). unfold file_read. rewrite Hf.
  case_if; [by eexists _, _|]. destruct (fo_read _); [by apply call_ok|by eexists _, _].
Qed.

Lemma file_write_ok k refs env base hi hm a buf :
  kgood k refs env base hi hm → a ∈ refs → serves k refs env base hi hm (file_write fops k a buf).
Proof.
  intros H Ha. destruct (kgood_file _ _ _ _ _ _ a H Ha) as (f & Hf & _). unfold file_write. rewrite Hf.
  case_if; [by eexists _, _|]. destruct (fo_write _) as [m|]; [|by eexists _, _]. case_if; [|by apply call_ok].
  destruct (file_inode_ok _ _ _ _ _ _ a f H Hf Ha) as [node ->].
  destruct (update_ok k refs env base hi hm a (i_size (i_attr node)) H Ha) as [H1 Hs1].
  destruct (call_ok _ refs env base hi hm a m buf H1 Ha) as (k2 & r & -> & H2 & Hs2). cbn [obind].
  destruct (update_ok k2 refs env base hi hm a (f_off (f_io f)) H2 Ha) as [H3 Hs3].
  eexists _, _. split; [done|]. split; [done|congruence].
Qed.

Lemma file_seek_ok k refs env base hi hm a offset whence :
  kgood k refs env base hi hm → a ∈ refs → serves k refs env base hi hm (file_seek fops k a offset whence).
Proof.
  intros H Ha. destruct (kgood_file _ _ _ _ _ _ a H Ha) as (f & Hf & _). unfold file_seek. rewrite Hf.
  destruct (fo_lseek _) as [m|]; [by apply call_ok|].
  repeat case_if; try (eexists _, _; split; [done|]; by apply update_ok).
  - destruct (file_inode_ok _ _ _ _ _ _ a f H Hf Ha) as [node ->]. eexists _, _. split; [done|]. by apply update_ok.
  - by eexists _, _.
Qed.

(** ** Opening a file *)

Context (MS_RDONLY MS_NOEXEC uid gid : Z) (major : Z → Z) (default_fops : inode → option Z).
Context (block_device_fops pipe_operations : Z).
Context (fs_truncate : inode → option (W → W * iattr * result unit)).

Lemma path_access_inode s p mode node :
  inode_of s (p_dentry p) = Some node → ∃ r, path_access MS_RDONLY MS_NOEXEC root uid gid s p mode = Ret r.
Proof. intros H. unfold path_access. rewrite H. repeat case_if; eauto. Qed.

(** A new file with one reference, holding a reference to its path. *)
Lemma kgood_add k refs env base hi hm a rest f s :
  kgood k refs env base hi hm → fpool k = a :: rest → f_refs f = 1 → p_dentry (f_path f) ≠ root →
  good s (p_dentry (f_path f) :: fdents (files k) ++ base) hi (option_list (p_mount (f_path f)) ++ fmounts (files k) ++ hm) →
  moves root (kv k) s →
  kgood (mk_kern s (<[a := f]> (files k)) (chrdev k) rest) (a :: refs) env base hi hm.
Proof.
  intros [] Ep Hf1 Hfr Hg [Hs Hc]. destruct kg_pool0 as [Hnd Hfree].
  assert (Ha : files k !! a = None) by (apply Hfree; rewrite Ep; by left).
  assert (Har : a ∉ refs) by (intros [x Hx]%kg_held0; congruence).
  rewrite Ep in Hnd. apply NoDup_cons in Hnd as [Hna Hnd].
  constructor; simpl; try done.
  - eapply good_perm; [| |done]; [by rewrite fdents_insert|by rewrite fmounts_insert, (assoc (++))].
  - by eapply steps_env.
  - lia.
  - intros j x. rewrite lookup_insert, occ_cons. case_decide as E.
    + intros [= <-]. subst j. rewrite occ_elem in Har. split; [lia|by left].
    + intros Hj. destruct (kg_refs0 j x Hj). split; [done|by right].
  - intros j. rewrite lookup_insert_is_Some', elem_of_cons. intros [->|Hj]; [by left|right; auto].
  - intros j x. rewrite lookup_insert. case_decide; [by intros [= <-]|eauto].
  - split; [done|]. intros j Hj. rewrite lookup_insert_ne by (by intros ->). apply Hfree. rewrite Ep. by right.
Qed.

Lemma kgood_fpool k refs env base hi hm a rest :
  kgood k refs env base hi hm → fpool k = a :: rest → kgood (with_fpool k rest) refs env base hi hm.
Proof.
  intros [] Ep. constructor; try done. simpl. rewrite Ep in kg_pool0. destruct kg_pool0 as [Hnd Hfree].
  apply NoDup_cons in Hnd as [_ Hnd]. split; [done|]. intros j Hj. apply Hfree. by right.
Qed.

(** What opening leaves behind. *)
Definition opened k refs env base hi hm p flags k' (r : result Z) : Prop :=
  pool (kv k') = pool (kv k) ∧ moves root (kv k) (kv k') ∧
  match r with
  | Ok a => kgood k' (a :: refs) env base hi hm ∧ files k !! a = None ∧ size (files k') = S (size (files k))
      ∧ ∃ f, files k' !! a = Some f ∧ f_path f = p ∧ f_status f = flags ∧ f_refs f = 1
  | Err _ => kgood k' refs env base hi hm ∧ files k' = files k
  end.

Lemma path_copy_inodes s p : inodes (path_copy s p).1 = inodes s.
Proof. unfold path_copy. by destruct (p_mount p). Qed.

(** The driver's [open], for a file whose path is held. *)
Lemma open_call k a f flags hd hi hm env :
  files k !! a = Some f → good (kv k) hd hi hm → env_ok root (kv k) env →
  p_dentry (f_path f) ∈ hd → p_dentry (f_path f) ≠ root →
  ∃ s io r, match fo_open (fops (f_ops f)) with
            | None => Ret (k, Ok tt)
            | Some m => call k a m flags
            end = Ret (with_files (with_kv k s) (<[a := set_io io f]> (files k)), r)
    ∧ good s hd hi hm ∧ moves root (kv k) s ∧ pool s = pool (kv k).
Proof.
  intros Hf Hg He Hd Hr. destruct (fo_open (fops (f_ops f))) as [m|].
  - destruct (call_spec k a f m flags hd hi hm env) as (s & io & r & -> & ? & ? & ? & _); [done..|]. eauto 10.
  - exists (kv k), (f_io f), (Ok tt). split; [|done]. rewrite insert_id; [by destruct k|]. by destruct f.
Qed.

(** The error path of [file_open]: the path goes, the address is used up. *)
Lemma file_undo_ok k refs env base hi hm p flags a rest :
  kgood k refs env base hi hm → room k refs base hi hm → fpool k = a :: rest →
  ∀ s, good s (p_dentry p :: fdents (files k) ++ base) hi (option_list (p_mount p) ++ fmounts (files k) ++ hm) →
    moves root (kv k) s → pool s = pool (kv k) →
    ∃ s', path_put fs_put_inode fuel s p = Ret s'
      ∧ ∀ e, opened k refs env base hi hm p flags (mk_kern s' (files k) (chrdev k) rest) (Err e).
Proof.
  intros H (Hr & Hd & Hi & Hm)%room_few Ep s2 Hg2 [Hs2 Hc2] Hp2.
  destruct (path_put_good fs_put_inode root fuel s2 env _ hi _ p Hg2)
    as (s3 & -> & Hg3 & Hmv3 & Hp3); [eapply steps_env; [done|apply H]| |fewer..| |].
  - intros x Hx. apply elem_of_app. right. by apply (kg_sub _ _ _ _ _ _ H).
  - pose proof (kg_fuel _ _ _ _ _ _ H). lia.
  - assert (moves root (kv k) s3) by (etrans; [split|]; done). exists s3. split; [done|].
    intros e. split; [simpl; congruence|]. split; [done|]. split; [|done].
    apply (kgood_kv _ _ _ _ _ _ s3 base hm (kgood_fpool k refs env base hi hm a rest H Ep)); [done..|].
    apply (kg_sub _ _ _ _ _ _ H).
Qed.

Lemma file_new_ok k refs env base hi hm p i flags :
  kgood k refs env base hi hm → room k refs base hi hm → p_dentry p ∈ base → path_fine root (kv k) p →
  p_dentry p ≠ root → is_Some (inodes (kv k) !! i) →
  ∃ k' r, file_new fs_put_inode major fops default_fops block_device_fops pipe_operations fuel k p i flags = Ret (k', r)
    ∧ opened k refs env base hi hm p flags k' r.
Proof.
  intros H Hroom Hp Hfine Hnr [node Hn]. pose proof (room_few _ _ _ _ _ Hroom) as (Hr & Hd & Hi & Hm). unfold file_new.
  destruct (fpool k) as [|a rest] eqn:Ep; [by eexists _, _|].
  destruct (path_copy_good root (kv k) _ hi _ p (kg_good _ _ _ _ _ _ H)) as (s & Hcopy & Hg & Hmv & Hpool);
    [set_solver|done|fewer..|].
  pose proof (path_copy_inodes (kv k) p) as Hin. rewrite Hcopy in Hin |- *. simpl in Hin.
  assert (He : env_ok root s env) by (eapply steps_env; [apply Hmv|apply H]).
  assert (Ha : files k !! a = None) by (apply (kg_pool _ _ _ _ _ _ H); rewrite Ep; by left).
  pose proof (file_undo_ok k refs env base hi hm p flags a rest H Hroom Ep) as Hput.
  cbn [kv with_fpool with_kv]. rewrite Hin, Hn. destruct (choose_fops _ _ _ _ _ _) as [o|].
  2: { destruct (Hput s Hg Hmv Hpool) as (s3 & -> & Ho). eexists _, _. by split. }
  set (f0 := mk_file p o (mk_fstate 0 0) 0 0).
  destruct (open_call (with_files (with_fpool (with_kv k s) rest) (<[a := f0]> (files k))) a f0 flags
    (p_dentry p :: fdents (files k) ++ base) hi (option_list (p_mount p) ++ fmounts (files k) ++ hm) env) as
    (s2 & io & r & Hopen & Hg2 & Hmv2 & Hp2); [apply lookup_insert_eq|exact Hg|done|by left|done|].
  cbn [with_files with_fpool with_kv files chrdev fpool kv f_ops f0] in *. fold f0. rewrite Hopen. cbn [obind].
  assert (Hmv' : moves root (kv k) s2) by (by etrans). rewrite insert_insert_eq.
  destruct r as [[]|e]; cbn [kv with_files with_kv files chrdev fpool].
  - eexists _, _. split; [done|]. rewrite (alter_Some _ _ _ (set_io io f0)) by apply lookup_insert_eq.
    rewrite insert_insert_eq. split; [simpl; congruence|]. split; [done|].
    split; [by apply (kgood_add k refs env base hi hm a rest (set_frefs 1 (set_status flags (set_io io f0))) s2)|].
    split; [done|]. simpl. split; [by apply map_size_insert_None|]. rewrite lookup_insert_eq. by eexists.
  - destruct (Hput s2 Hg2 Hmv') as (s3 & -> & Ho); [congruence|]. eexists _, _. split; [done|].
    simpl. rewrite delete_insert_id by done. by apply Ho.
Qed.

(** [file_open] of a held path other than the bare root returns: with a new
    file that has one reference, or with an error and nothing changed in the
    table of files. *)
Lemma file_open_ok k refs env base hi hm p flags :
  kgood k refs env base hi hm → room k refs base hi hm → p_dentry p ∈ base → path_fine root (kv k) p →
  p_dentry p ≠ root →
  ∃ k' r, file_open fs_put_inode MS_RDONLY MS_NOEXEC root uid gid major fops default_fops block_device_fops
      pipe_operations fs_truncate fuel k p flags = Ret (k', r)
    ∧ opened k refs env base hi hm p flags k' r.
Proof.
  intros H Hroom Hp Hfine Hnr. assert (Hin : p_dentry p ∈ fdents (files k) ++ base) by set_solver.
  destruct (entry_inode (kv k) _ hi _ env (p_dentry p) (kg_good _ _ _ _ _ _ H) (kg_env _ _ _ _ _ _ H) Hin Hnr)
    as (i & node & Hi & Hn).
  assert (Ho : ∀ e, opened k refs env base hi hm p flags k (Err e)) by done.
  unfold file_open. destruct (path_access_inode (kv k) p (access_mode flags) node) as [[[]|e] ->].
  { unfold inode_of. unfold inode_ptr in Hi. destruct (dentries (kv k) !! p_dentry p); [|done]. by rewrite Hi. }
  2: { cbn [obind]. eexists _, _. by split. }
  cbn [obind]. rewrite Hi, Hn. case_if; [eexists _, _; by split|].
  case_if; [|by apply file_new_ok; eauto]. case_if; [eexists _, _; by split|].
  unfold inode_trunc. destruct (fs_truncate node) as [tr|]; [|eexists _, _; by split].
  destruct (tr (fsw (kv k))) as [[w x] r].
  destruct (put_attr_good (kv k) _ hi _ i w x (kg_good _ _ _ _ _ _ H)) as (Hg1 & Hmv1 & Hp1); [by eexists|].
  assert (H1 : kgood (with_kv k (put_attr (kv k) i w x)) refs env base hi hm).
  { apply (kgood_kv k refs env base hi hm _ base hm); [done..|]. apply (kg_sub _ _ _ _ _ _ H). }
  destruct r as [[]|e].
  - destruct (file_new_ok _ refs env base hi hm p i flags H1) as (k' & r & -> & Hp2 & Hmv2 & Hr).
    + by destruct Hroom.
    + done.
    + eapply steps_path_fine; [apply Hmv1|done].
    + done.
    + simpl. rewrite lookup_alter_eq, Hn. simpl. eauto.
    + eexists _, _. split; [done|]. split; [simpl in Hp2; congruence|]. split; [by etrans|]. done.
  - eexists _, _. split; [done|]. by split.
Qed.
End Inv.
