(* ===== verification/FdTable.v ===== *)
(** File descriptors: the table of open files of a task and the system calls
    of [src/kernel/src/fs.c] that use it.

    A task's [struct vfs] is [tvfs].  The table has [TASK_MAX_OPEN_FILES]
    slots; using a slot outside it is a fault ([Halt]).  The driver's [mknod]
    is a parameter like the other inode operations. *)

From Stdlib Require Import Ascii.
From stdpp Require Import strings.
From S2P Require Import Prelude Dcache File.

Definition FD_OCCUPIED : Z := 65536.
Definition FD_INVALID : Z := 131072.
Definition TASK_MAX_OPEN_FILES : Z := 1024.
Definition WP_DEFAULT : Z := 0.

Record file_descr := mk_descr { fd_file : option Z; fd_flags : Z }.
Record tvfs := mk_tvfs { v_cwd : path; v_openvect : list file_descr }.

Definition occupied (d : file_descr) : bool := has (fd_flags d) FD_OCCUPIED.
Definition invalid (d : file_descr) : bool := has (fd_flags d) FD_INVALID.

(** The descriptor in a slot, when the slot exists. *)
Definition slot (t : tvfs) (fd : Z) : option file_descr :=
  if (0 <=? fd) && (fd <? TASK_MAX_OPEN_FILES) then v_openvect t !! Z.to_nat fd else None.

Definition set_slot (t : tvfs) (fd : Z) (d : file_descr) : tvfs :=
  mk_tvfs (v_cwd t) (<[Z.to_nat fd := d]> (v_openvect t)).

(** The macro [FD_VALID], with the file it finds. *)
Definition valid_fd (t : tvfs) (fd : Z) : option file_descr :=
  match slot t fd with
  | Some d => if occupied d && negb (invalid d) then Some d else None
  | None => None
  end.

(** The first slot that passes a test. *)
Fixpoint first_slot (test : file_descr → bool) (l : list file_descr) (i : Z) : option Z :=
  match l with
  | [] => None
  | d :: l => if test d then Some i else first_slot test l (i + 1)
  end.

Definition free_slot (t : tvfs) : option Z := first_slot (λ d, negb (occupied d)) (v_openvect t) 0.

Definition reserve (t : tvfs) (fd : Z) : tvfs :=
  match slot t fd with
  | None => t
  | Some d => set_slot t fd (mk_descr (fd_file d) (Z.lor FD_OCCUPIED FD_INVALID))
  end.

(** [flags = 0] in a slot. *)
Definition clear_flags (t : tvfs) (fd : Z) : tvfs :=
  match slot t fd with
  | None => t
  | Some d => set_slot t fd (mk_descr (fd_file d) 0)
  end.

(** The result [-1] of [sys_resfd] is [None]. *)
Definition sys_resfd (t : tvfs) : tvfs * option Z :=
  match free_slot t with
  | None => (t, None)
  | Some i => (reserve t i, Some i)
  end.

Definition sys_relfd (t : tvfs) (fd : Z) : outcome tvfs :=
  match slot t fd with
  | None => Halt
  | Some _ => Ret (clear_flags t fd)
  end.

(** The last component of a path name: repeated [strchr]. *)
Fixpoint last_slash (n : nat) (path : string) : string :=
  match n with
  | O => path
  | S n => match cut path with
           | (_, Some rest) => last_slash n rest
           | (_, None) => path
           end
  end.

Definition basename (path : string) : string := last_slash (String.length path) path.

Section Fd.
Context {W : Type}.
Context (fs_find : W → Z → Z → string → result Z).
Context (fs_read_inode : W → Z → Z → W * result iattr).
Context (fs_put_inode : W → Z → Z → W).
Context (MS_RDONLY MS_NOEXEC vfs_root uid gid : Z) (major : Z → Z).
Context (fops : Z → file_operations (W := W)) (default_fops : inode → option Z).
Context (block_device_fops pipe_operations : Z).
Context (fs_truncate : inode → option (W → W * iattr * result unit)).
Context (fs_mknod : inode → option (string → Z → Z → W → W * iattr * result unit)).
Context (fuel : nat).

Local Notation file_close := (file_close fs_put_inode fops fuel).
Local Notation path_put := (path_put fs_put_inode fuel).
Local Notation path_access := (path_access MS_RDONLY MS_NOEXEC vfs_root uid gid).
Local Notation path_lookup := (path_lookup fs_find fs_read_inode fs_put_inode MS_RDONLY MS_NOEXEC vfs_root uid gid fuel).
Local Notation file_open :=
  (file_open fs_put_inode MS_RDONLY MS_NOEXEC vfs_root uid gid major fops default_fops block_device_fops
     pipe_operations fs_truncate fuel).

(** * The table of a task *)

Definition init_task_vfs (k : kern (W := W)) : kern * tvfs :=
  (with_kv k (d_get (kv k) (Some vfs_root)),
   mk_tvfs (mk_path vfs_root None) (replicate (Z.to_nat TASK_MAX_OPEN_FILES) (mk_descr None 0))).

(** Copy the descriptors that are open; the new table starts zeroed. *)
Fixpoint copy_fds (k : kern (W := W)) (l : list file_descr) : kern * list file_descr :=
  match l with
  | [] => (k, [])
  | d :: l =>
      if occupied d && negb (invalid d) then
        let '(k, l) := copy_fds (file_get k (fd_file d)) l in (k, d :: l)
      else let '(k, l) := copy_fds k l in (k, mk_descr None 0 :: l)
  end.

Definition copy_task_vfs (k : kern) (t : tvfs) : kern * tvfs :=
  let '(s, cwd) := path_copy (kv k) (v_cwd t) in
  let '(k, l) := copy_fds (with_kv k s) (v_openvect t) in
  (k, mk_tvfs cwd l).

(** What [file_close] returns is ignored. *)
Fixpoint close_fds (k : kern (W := W)) (l : list file_descr) : outcome (kern * list file_descr) :=
  match l with
  | [] => Ret (k, [])
  | d :: l =>
      if occupied d then
        ' (k, _) <~ file_close k (fd_file d) ;;
        ' (k, l) <~ close_fds k l ;; Ret (k, mk_descr None 0 :: l)
      else ' (k, l) <~ close_fds k l ;; Ret (k, d :: l)
  end.

Definition free_task_vfs (k : kern) (t : tvfs) : outcome (kern * tvfs) :=
  s <~ path_put (kv k) (v_cwd t) ;;
  ' (k, l) <~ close_fds (with_kv k s) (v_openvect t) ;;
  Ret (k, mk_tvfs (v_cwd t) l).

(** * System calls on descriptors *)

Definition sys_close (k : kern) (t : tvfs) (fd : Z) : outcome (kern * tvfs * result Z) :=
  match valid_fd t fd with
  | None => Ret (k, t, Err EBADF)
  | Some d =>
      ' (k, r) <~ file_close k (fd_file d) ;;
      match r with
      | Err e => Ret (k, t, Err e)
      | Ok tt => Ret (k, set_slot t fd (mk_descr None 0), Ok 0)
      end
  end.

(** The end of [sys_dup2]: both slots are read after the close. *)
Definition dup_into (k : kern (W := W)) (t : tvfs) (fd otherfd : Z) : outcome (kern * tvfs * result Z) :=
  match slot t fd with
  | None => Halt
  | Some d => Ret (file_get k (fd_file d), set_slot t otherfd d, Ok otherfd)
  end.

Definition sys_dup2 (k : kern) (t : tvfs) (fd otherfd : Z) : outcome (kern * tvfs * result Z) :=
  match valid_fd t fd with
  | None => Ret (k, t, Err EBADF)
  | Some _ =>
      if otherfd =? -1 then
        match first_slot (λ d, negb (occupied d && negb (invalid d))) (v_openvect t) 0 with
        | None => Ret (k, t, Err EMFILE)
        | Some i => dup_into k t fd i
        end
      else if (TASK_MAX_OPEN_FILES <=? otherfd) || (otherfd <? 0) then Ret (k, t, Err EBADF)
      else match valid_fd t otherfd with
           | Some _ =>
               ' (k, t, r) <~ sys_close k t otherfd ;;
               match r with
               | Err _ => Ret (k, t, Err EIO)
               | Ok _ => dup_into k t fd otherfd
               end
           | None => dup_into k t fd otherfd
           end
  end.

Definition sys_dup (k : kern (W := W)) (t : tvfs) (old_fd : Z) : outcome (kern * tvfs * result Z) :=
  match valid_fd t old_fd with
  | None => Ret (k, t, Err EBADF)
  | Some d =>
      match free_slot t with
      | None => Ret (k, t, Err EMFILE)
      | Some new_fd =>
          match fd_file d with
          | None => Halt
          | Some a => Ret (file_get k (Some a), set_slot t new_fd (mk_descr (Some a) FD_OCCUPIED), Ok new_fd)
          end
      end
  end.

(** The calls that only use the file of a descriptor. *)
Definition with_file {A} (k : kern (W := W)) (t : tvfs) (fd : Z) (op : Z → outcome (kern (W := W) * result A)) :
    outcome (kern * result A) :=
  match valid_fd t fd with
  | None => Ret (k, Err EBADF)
  | Some d => match fd_file d with
              | None => Halt
              | Some a => op a
              end
  end.

Definition sys_read (k : kern) (t : tvfs) (fd count : Z) := with_file k t fd (λ a, file_read fops k a count).
Definition sys_write (k : kern) (t : tvfs) (fd : Z) (buf : list Z) := with_file k t fd (λ a, file_write fops k a buf).
Definition sys_readdir (k : kern) (t : tvfs) (fd count : Z) := with_file k t fd (λ a, file_readdir fops k a count).
Definition sys_lseek (k : kern) (t : tvfs) (fd offset whence : Z) := with_file k t fd (λ a, file_seek fops k a offset whence).
Definition sys_fstat (k : kern) (t : tvfs) (fd : Z) := with_file k t fd (λ a, file_stat fops k a).
Definition sys_isatty (k : kern) (t : tvfs) (fd : Z) := with_file k t fd (λ a, file_isatty fops k a).

(** No test of the range or of the flags: only of the pointer. *)
Definition sys_ioctl (k : kern) (t : tvfs) (fd request argp : Z) : outcome (kern * result Z) :=
  match slot t fd with
  | None => Halt
  | Some d => match fd_file d with
              | None => Ret (k, Err EBADF)
              | Some a => file_ioctl fops k a request argp
              end
  end.

(** * Opening by name *)

(** Releasing a path and returning an error. *)
Definition put_err {A} (k : kern) (p : path) (e : errno) : outcome (kern * result A) :=
  s <~ path_put (kv k) p ;; Ret (with_kv k s, Err e).

(** [sys_mknod] once the directory is found. *)
Definition mknod_in (k : kern) (parent : path) (name : option string) (mode dev : Z) : outcome (kern * result unit) :=
  r <~ path_access (kv k) parent W_OK ;;
  match r with
  | Err e => put_err k parent e
  | Ok tt =>
      match inode_ptr (kv k) (p_dentry parent) with
      | None => Halt
      | Some i =>
          match inodes (kv k) !! i with
          | None => Halt
          | Some node =>
              match fs_mknod node with
              | None => put_err k parent EPERM
              | Some op =>
                  let '(w, attr, r) := op (basename (default "" name)) mode dev (fsw (kv k)) in
                  s <~ path_put (put_attr (kv k) i w attr) parent ;;
                  Ret (with_kv k s, r)
              end
          end
      end
  end.

Definition sys_mknod (k : kern) (cwd : path) (name : option string) (mode dev : Z) : outcome (kern * result unit) :=
  ' (s, r) <~ path_lookup (kv k) cwd name WP_DEFAULT ;;
  let k := with_kv k s in
  match r with
  | Ok p => put_err k p EEXIST
  | Err _ =>
      ' (s, r) <~ path_lookup (kv k) cwd name WP_PARENT ;;
      let k := with_kv k s in
      match r with
      | Err e => Ret (k, Err e)
      | Ok parent => mknod_in k parent name mode dev
      end
  end.

(** The end of [sys_open]: the path is found. *)
Definition open_path (k : kern) (t : tvfs) (fd : Z) (p : path) (flags : Z) : outcome (kern * tvfs * result Z) :=
  ' (k, r) <~ file_open k p flags ;;
  s <~ path_put (kv k) p ;;
  let k := with_kv k s in
  match r with
  | Err e => Ret (k, set_slot t fd (mk_descr None 0), Err e)
  | Ok a => Ret (k, set_slot t fd (mk_descr (Some a) FD_OCCUPIED), Ok fd)
  end.

Definition sys_open (k : kern) (t : tvfs) (filename : option string) (flags mode : Z) :
    outcome (kern * tvfs * result Z) :=
  match free_slot t with
  | None => Ret (k, t, Err EMFILE)
  | Some fd =>
      let t := reserve t fd in
      ' (s, r) <~ path_lookup (kv k) (v_cwd t) filename WP_DEFAULT ;;
      let k := with_kv k s in
      match r with
      | Err e =>
          if has flags O_CREAT then
            ' (k, r) <~ sys_mknod k (v_cwd t) filename (Z.lor (Z.land mode (Z.lnot S_IFMT)) S_IFREG) 0 ;;
            match r with
            | Err e => Ret (k, clear_flags t fd, Err e)
            | Ok tt =>
                ' (s, r) <~ path_lookup (kv k) (v_cwd t) filename WP_DEFAULT ;;
                let k := with_kv k s in
                match r with
                | Err e => Ret (k, clear_flags t fd, Err e)
                | Ok p => open_path k t fd p flags
                end
            end
          else Ret (k, clear_flags t fd, Err e)
      | Ok p =>
          if has flags O_EXCL then
            s <~ path_put (kv k) p ;; Ret (with_kv k s, clear_flags t fd, Err EEXIST)
          else open_path k t fd p flags
      end
  end.
End Fd.
