(* ===== verification/FdInv.v ===== *)
(** Descriptors and open files: every call keeps the count of each open file
    equal to the number of descriptors that refer to it, in all tasks
    together.  [hf] lists the descriptors of the other tasks. *)

From stdpp Require Import strings.
From S2P Require Import Prelude Dcache DcacheInv PathLookup File FileInv FdTable.

(** * The table *)

Definition is_open (d : file_descr) : bool := occupied d && negb (invalid d).

(** Open slots have a file; reserved and free ones have none. *)
Definition descr_ok (d : file_descr) : Prop := if is_open d then is_Some (fd_file d) else fd_file d = None.

Definition table_ok (t : tvfs) : Prop :=
  Z.of_nat (length (v_openvect t)) = TASK_MAX_OPEN_FILES ∧ Forall descr_ok (v_openvect t).

(** The references a table holds. *)
Definition frefs (l : list file_descr) : list Z := omap fd_file l.

Lemma frefs_app l k : frefs (l ++ k) = frefs l ++ frefs k.
Proof. apply omap_app. Qed.

Lemma frefs_cons d l : frefs (d :: l) = option_list (fd_file d) ++ frefs l.
Proof. unfold frefs. simpl. by destruct (fd_file d). Qed.

Lemma frefs_insert l i d d' : l !! i = Some d →
  option_list (fd_file d) ++ frefs (<[i := d']> l) ≡ₚ option_list (fd_file d') ++ frefs l.
Proof.
  intros H. pose proof (lookup_lt_Some _ _ _ H). rewrite insert_take_drop by done.
  rewrite <- (take_drop_middle l i d H) at 3. rewrite !frefs_app, !frefs_cons.
  generalize (option_list (fd_file d)) as x, (option_list (fd_file d')) as y. intros x y. solve_Permutation.
Qed.

Lemma slot_Some t fd d : slot t fd = Some d → 0 <= fd < TASK_MAX_OPEN_FILES ∧ v_openvect t !! Z.to_nat fd = Some d.
Proof. unfold slot. case_if; [|done]. intros Hd. split; [lia|done]. Qed.

Lemma slot_in t fd : table_ok t → 0 <= fd < TASK_MAX_OPEN_FILES → ∃ d, slot t fd = Some d ∧ descr_ok d.
Proof.
  intros [Hl Hf] Hfd. unfold slot. rewrite (proj2 (Z.leb_le _ _)), (proj2 (Z.ltb_lt _ _)) by lia. simpl.
  destruct (lookup_lt_is_Some_2 (v_openvect t) (Z.to_nat fd)) as [d Hd]; [lia|]. exists d. split; [done|].
  by eapply Forall_lookup_1.
Qed.

Lemma slot_set t fd d d' : slot t fd = Some d → slot (set_slot t fd d') fd = Some d'.
Proof.
  intros H. pose proof H as [Hr Hl]%slot_Some. unfold slot in *. case_if; [|done]. simpl.
  apply list_lookup_insert_eq. by apply lookup_lt_Some in Hl.
Qed.

Lemma slot_set_ne t fd fd' d : 0 <= fd → fd ≠ fd' → slot (set_slot t fd d) fd' = slot t fd'.
Proof.
  intros H0 Hne. unfold slot. case_if; [|done]. simpl. apply list_lookup_insert_ne. zbool. lia.
Qed.

Lemma valid_Some t fd d : valid_fd t fd = Some d → slot t fd = Some d ∧ is_open d = true.
Proof. unfold valid_fd, is_open. destruct (slot t fd); [|done]. destruct (_ && _) eqn:E; [|done]. by intros [= <-]. Qed.

Lemma table_set t fd d : table_ok t → descr_ok d → table_ok (set_slot t fd d).
Proof. intros [Hl Hf] Hd. split; simpl; [by rewrite length_insert|by apply Forall_insert]. Qed.

Lemma first_slot_spec test l i j : first_slot test l i = Some j →
  ∃ n d, j = i + Z.of_nat n ∧ l !! n = Some d ∧ test d = true ∧ ∀ m e, (m < n)%nat → l !! m = Some e → test e = false.
Proof.
  revert i. induction l as [|d l IH]; intros i; simpl; [done|]. destruct (test d) eqn:Et.
  - intros [= <-]. exists 0%nat, d. split; [lia|]. split; [done|]. split; [done|]. lia.
  - intros (n & e & -> & Hn & Ht & Hmin)%IH. exists (S n), e. split; [lia|]. split; [done|]. split; [done|].
    intros [|m] x Hm; simpl; [by intros [= <-]|]. apply Hmin. lia.
Qed.

Lemma first_slot_none test l i : first_slot test l i = None → Forall (λ d, test d = false) l.
Proof.
  revert i. induction l as [|d l IH]; intros i; simpl; [constructor|]. case_if; [done|]. intros H.
  constructor; [done|by eapply IH].
Qed.

Lemma first_slot_slot test t j : table_ok t → first_slot test (v_openvect t) 0 = Some j →
  ∃ d, slot t j = Some d ∧ test d = true ∧ descr_ok d.
Proof.
  intros [Hl Hf] (n & d & -> & Hn & Ht & _)%first_slot_spec. exists d.
  pose proof (lookup_lt_Some _ _ _ Hn). split; [|split; [done|by eapply Forall_lookup_1]].
  unfold slot. rewrite (proj2 (Z.leb_le _ _)), (proj2 (Z.ltb_lt _ _)) by lia. simpl. by rewrite Z.add_0_l, Nat2Z.id.
Qed.

(** * Looking names up *)

Section Lookup.
Context {W : Type} (fs_put_inode : W → Z → Z → W) (root : Z) (fuel : nat).
Implicit Types (k : kern (W := W)) (t : tvfs) (refs hf env base hi hm : list Z).

(** A working directory that its owner holds. *)
Definition cwd_ok t base hm : Prop :=
  p_dentry (v_cwd t) ∈ base ∧ (∀ m, p_mount (v_cwd t) = Some m → m ∈ hm)
  ∧ (p_dentry (v_cwd t) = root → p_mount (v_cwd t) = None).

Lemma cwd_fine k t refs env base hi hm :
  kgood root fuel k refs env base hi hm → cwd_ok t base hm → path_fine root (kv k) (v_cwd t).
Proof.
  intros Hk (Hd & Hm & Hr). split; [done|]. intros m Hp.
  apply (gd_mheld _ _ _ _ (kg_good _ _ _ _ _ _ _ _ Hk)). apply elem_of_app. right. auto.
Qed.

Context (fs_find : W → Z → Z → string → result Z) (fs_read_inode : W → Z → Z → W * result iattr).
Context (MS_RDONLY MS_NOEXEC uid gid : Z).

Local Notation path_lookup := (path_lookup fs_find fs_read_inode fs_put_inode MS_RDONLY MS_NOEXEC root uid gid fuel).

(** What a lookup leaves behind: the kernel in order, with the path held. *)
Definition found k refs env base hi hm s (r : result path) : Prop :=
  match r with
  | Ok p => kgood root fuel (with_kv k s) refs env (p_dentry p :: base) hi (option_list (p_mount p) ++ hm)
      ∧ path_fine root s p
  | Err _ => kgood root fuel (with_kv k s) refs env base hi hm
  end.

Lemma lookup_ok k refs env base hi hm t name flags :
  kgood root fuel k refs env base hi hm → room k refs base hi hm → cwd_ok t base hm →
  (1024 <= length (pool (kv k)))%nat →
  ∃ s r, path_lookup (kv k) (v_cwd t) name flags = Ret (s, r) ∧ found k refs env base hi hm s r
    ∧ (length (pool (kv k)) <= 1024 + length (pool s))%nat.
Proof.
  intros Hk Hr Hcwd Hp. pose proof (cwd_fine _ _ _ _ _ _ _ Hk Hcwd) as Hfine. pose proof Hk as [].
  apply room_few in Hr as (Hr & Hd & Hi & Hm).
  destruct (path_lookup_at fs_find fs_read_inode fs_put_inode MS_RDONLY MS_NOEXEC root uid gid fuel (kv k) env
    (fdents (files k) ++ base) hi (fmounts (files k) ++ hm) (v_cwd t) name flags) as (s & r & -> & Hres & Hpool).
  - by constructor.
  - set_solver.
  - fewer.
  - fewer.
  - fewer.
  - set_solver.
  - apply elem_of_app. right. apply Hcwd.
  - done.
  - done.
  - exists s, r. split; [done|]. split; [|done]. destruct r as [p|e]; destruct Hres as [Hg He].
    + split; [|done]. eapply kgood_kv_env; [done| |done|done|set_solver]. eapply good_perm; [| |done]; solve_Permutation.
    + by eapply kgood_kv_env; [done|done|done|done|set_solver].
Qed.

(** The name leads to the bare root entry, which has no inode. *)
Definition at_root t name flags : Prop :=
  ∃ s s' p, path_lookup s (v_cwd t) name flags = Ret (s', Ok p) ∧ p_dentry p = root.

Lemma path_access_found (s : vfs (W := W)) hd env hi hm p mode :
  good s hd hi hm → env_ok root s env → p_dentry p ∈ hd → path_fine root s p →
  ∃ r, path_access MS_RDONLY MS_NOEXEC root uid gid s p mode = Ret r.
Proof.
  intros Hg He Hd [Hr _]. destruct (decide (p_dentry p = root)) as [E|E].
  - unfold path_access. do 2 (case_if; [eauto|]). rewrite E, Z.eqb_refl, (bool_decide_true _ (Hr E)). simpl. eauto.
  - destruct (entry_inode root s hd hi hm env (p_dentry p) Hg He Hd E) as (i & node & Hi & Hn).
    apply (path_access_inode root MS_RDONLY MS_NOEXEC uid gid s p mode node). unfold inode_of.
    unfold inode_ptr in Hi. destruct (dentries s !! p_dentry p); [|done]. by rewrite Hi.
Qed.

(** Releasing a path that was found. *)
Lemma put_found k s refs env base hi hm p :
  found k refs env base hi hm s (Ok p) → env ⊆ base → roomy 30 k refs base hi hm →
  ∃ s', Dcache.path_put fs_put_inode fuel s p = Ret s' ∧ kgood root fuel (with_kv k s') refs env base hi hm
    ∧ pool s' = pool s.
Proof.
  intros [Hk _] Hsub Hr.
  apply (kgood_path_put fs_put_inode root fuel (with_kv k s) refs env base hi hm p Hk Hsub).
  by apply roomy_kv, roomy_room.
Qed.

(** The state of a driver and the attributes of one inode change. *)
Lemma found_attr k refs env base hi hm s p i w x :
  found k refs env base hi hm s (Ok p) → is_Some (inodes s !! i) → found k refs env base hi hm (put_attr s i w x) (Ok p).
Proof.
  intros [Hk Hf] Hi. destruct (put_attr_good root s _ hi _ i w x (kg_good _ _ _ _ _ _ _ _ Hk) Hi) as (Hg & Hmv & _).
  split; [|eapply steps_path_fine; [apply Hmv|done]].
  apply (kgood_kv root fuel (with_kv k s) refs env _ hi _ (put_attr s i w x) _ _ Hk Hg Hmv).
  apply (kg_sub _ _ _ _ _ _ _ _ Hk).
Qed.

End Lookup.

(** * The calls *)

Section Calls.
Context {W : Type} (fs_put_inode : W → Z → Z → W) (root : Z) (fuel : nat).
Context (fops : Z → file_operations (W := W)) (Hclose : closes fops).
Implicit Types (k : kern (W := W)) (t : tvfs) (hf env base hi hm : list Z).

(** The kernel and the table of one task are in order. *)
Record tgood k t hf env base hi hm : Prop := {
  tg_kern : kgood root fuel k (frefs (v_openvect t) ++ hf) env base hi hm;
  tg_table : table_ok t;
}.

Definition troom k t hf base hi hm : Prop := room k (frefs (v_openvect t) ++ hf) base hi hm.

(** One slot changes, and with it the references. *)
Lemma tgood_set k k' t fd d d' hf env base hi hm refs :
  table_ok t → slot t fd = Some d → descr_ok d' →
  kgood root fuel k' refs env base hi hm →
  option_list (fd_file d) ++ refs ≡ₚ option_list (fd_file d') ++ frefs (v_openvect t) ++ hf →
  tgood k' (set_slot t fd d') hf env base hi hm.
Proof.
  intros Ht [Hr Hs]%slot_Some Hd' Hk Hp. split; [|by apply table_set].
  eapply kgood_perm; [|done|done|done]. pose proof (frefs_insert _ _ d d' Hs) as Hi.
  apply (Permutation_app_inv_l (option_list (fd_file d))). rewrite Hp. simpl.
  by rewrite !(assoc (++)), Hi.
Qed.

Lemma sys_close_ok k t fd hf env base hi hm :
  tgood k t hf env base hi hm → troom k t hf base hi hm →
  ∃ k' t' r, sys_close fs_put_inode fops fuel k t fd = Ret (k', t', r) ∧ tgood k' t' hf env base hi hm
    ∧ (size (files k') <= size (files k))%nat
    ∧ match r with
      | Ok _ => ∃ d, valid_fd t fd = Some d ∧ t' = set_slot t fd (mk_descr None 0)
      | Err e => e = EBADF ∧ valid_fd t fd = None ∧ k' = k ∧ t' = t
      end.
Proof.
  intros [Hk Ht] [Hr Hd Hi Hm]. unfold sys_close. destruct (valid_fd t fd) as [d|] eqn:Ev.
  2: { eexists _, _, _. split; [done|]. split; [done|]. done. }
  pose proof Ev as [Hs Ho]%valid_Some. pose proof Hs as [Hfd Hl]%slot_Some. pose proof Ht as [_ Hall].
  pose proof (Forall_lookup_1 _ _ _ _ Hall Hl) as Hok. unfold descr_ok in Hok. rewrite Ho in Hok.
  destruct Hok as [a Ha]. pose proof (frefs_insert _ _ d (mk_descr None 0) Hl) as Hi'. rewrite Ha in *. simpl in Hi'.
  set (t' := set_slot t fd (mk_descr None 0)).
  destruct (file_close_ok fs_put_inode root fuel fops k (frefs (v_openvect t') ++ hf) env base hi hm a Hclose)
    as (k' & -> & Hk' & Hsz).
  - eapply kgood_perm; [|done|done|done]. simpl. by rewrite <- Hi'.
  - constructor; try done. unfold few in *. rewrite length_app in *. rewrite <- Hi' in Hr. simpl in *. lia.
  - cbn [obind]. eexists _, _, _. split; [done|]. split; [|eauto]. split; [done|]. by apply table_set.
Qed.

Lemma dup_slot k t fd d other o d' hf env base hi hm :
  tgood k t hf env base hi hm → troom k t hf base hi hm → slot t fd = Some d → slot t other = Some o →
  fd_file o = None → fd_file d' = fd_file d → descr_ok d' →
  tgood (file_get k (fd_file d)) (set_slot t other d') hf env base hi hm.
Proof.
  intros [Hk Ht] [Hr _ _ _] Hs Ho Hn Hf Hd'. destruct (fd_file d) as [a|] eqn:Ea.
  - eapply (tgood_set k); [done|done|done| |].
    + apply file_get_ok; [done|unfold few in *; lia|]. apply elem_of_app. left. apply slot_Some in Hs as [_ Hs].
      apply list_elem_of_omap. exists d. split; [by eapply list_elem_of_lookup_2|done].
    + by rewrite Hn, Hf.
  - eapply (tgood_set k); [done|done|done|done|]. by rewrite Hn, Hf.
Qed.

Lemma slot_descr_ok t fd d : table_ok t → slot t fd = Some d → descr_ok d.
Proof. intros [_ Hf] [_ Hs]%slot_Some. by eapply Forall_lookup_1. Qed.

Lemma closed_none d : descr_ok d → is_open d = false → fd_file d = None.
Proof. unfold descr_ok. intros H E. by rewrite E in H. Qed.

Lemma open_some d : descr_ok d → is_open d = true → ∃ a, fd_file d = Some a.
Proof. unfold descr_ok. intros H E. by rewrite E in H. Qed.

Lemma sys_dup_ok k t fd hf env base hi hm :
  tgood k t hf env base hi hm → troom k t hf base hi hm →
  ∃ k' t' r, sys_dup k t fd = Ret (k', t', r) ∧ tgood k' t' hf env base hi hm
    ∧ match r with
      | Ok n => ∃ d o, valid_fd t fd = Some d ∧ slot t n = Some o ∧ occupied o = false
          ∧ slot t' n = Some (mk_descr (fd_file d) FD_OCCUPIED) ∧ ∀ m, m ≠ n → slot t' m = slot t m
      | Err e => (e = EBADF ∧ valid_fd t fd = None ∨ e = EMFILE ∧ Forall (λ d, occupied d = true) (v_openvect t))
          ∧ k' = k ∧ t' = t
      end.
Proof.
  intros H Hr. pose proof H as [Hk Ht]. unfold sys_dup. destruct (valid_fd t fd) as [d|] eqn:Ev; [|by eauto 10].
  pose proof Ev as [Hs Ho]%valid_Some. destruct (open_some d) as [a Ha]; [by eapply slot_descr_ok|done|].
  unfold free_slot. destruct (first_slot _ _ _) as [n|] eqn:Ef.
  - destruct (first_slot_slot _ t n Ht Ef) as (o & Hn & Hfree & Hook). apply negb_true_iff in Hfree.
    rewrite Ha. eexists _, _, _. split; [done|]. split.
    + rewrite <- Ha. eapply (dup_slot k t fd d n o); try done.
      * apply closed_none; [done|]. unfold is_open. by rewrite Hfree.
      * rewrite Ha. by eexists.
    + exists d, o. rewrite Ha. split; [done|]. split; [done|]. split; [done|]. split; [by eapply slot_set|].
      intros m Hm. apply slot_set_ne; [|done]. apply slot_Some in Hn. lia.
  - eexists _, _, _. split; [done|]. split; [done|]. split; [|done]. right. split; [done|].
    apply first_slot_none in Ef. eapply Forall_impl; [done|]. simpl. intros x. by destruct (occupied x).
Qed.

Lemma dup_into_ok k t fd d other o hf env base hi hm :
  tgood k t hf env base hi hm → troom k t hf base hi hm → slot t fd = Some d → slot t other = Some o →
  fd_file o = None →
  dup_into k t fd other = Ret (file_get k (fd_file d), set_slot t other d, Ok other)
  ∧ tgood (file_get k (fd_file d)) (set_slot t other d) hf env base hi hm.
Proof.
  intros H Hr Hs Ho Hn. unfold dup_into. rewrite Hs. split; [done|]. eapply dup_slot; try done.
  eapply slot_descr_ok; [apply H|done].
Qed.

(** What a successful [sys_dup2] of [fd], a valid descriptor [d], leaves. *)
Definition dup2_done t fd (d : file_descr) t' n : Prop :=
  (if n =? fd then valid_fd t' n = None else slot t' n = Some d) ∧ ∀ m, m ≠ n → slot t' m = slot t m.

Lemma troom_close k k' t fd o hf base hi hm :
  troom k t hf base hi hm → slot t fd = Some o → (size (files k') <= size (files k))%nat →
  troom k' (set_slot t fd (mk_descr None 0)) hf base hi hm.
Proof.
  intros [Hr1 Hr2 Hr3 Hr4] [_ Hl]%slot_Some Hsz. constructor; [|unfold few in *; lia|done|unfold few in *; lia].
  pose proof (frefs_insert _ _ o (mk_descr None 0) Hl) as Hp. apply Permutation_length in Hp.
  unfold few in *. simpl in *. rewrite !length_app in *. lia.
Qed.

(** Duplicating onto a descriptor that is open. *)
Lemma dup_over_ok k t fd d other o hf env base hi hm :
  tgood k t hf env base hi hm → troom k t hf base hi hm → slot t fd = Some d → valid_fd t other = Some o →
  ∃ k' t' r, (' (k, t, r) <~ sys_close fs_put_inode fops fuel k t other ;;
              match r with Err _ => Ret (k, t, Err EIO) | Ok _ => dup_into k t fd other end) = Ret (k', t', r)
    ∧ tgood k' t' hf env base hi hm
    ∧ match r with Ok n => other = n ∧ dup2_done t fd d t' n | Err _ => False end.
Proof.
  intros H Hr Hs Ev. pose proof Ev as [Hot Hop]%valid_Some. pose proof Hot as [Hrange _]%slot_Some.
  destruct (sys_close_ok k t other hf env base hi hm H Hr) as (k1 & t1 & r1 & -> & Hg1 & Hsz & Hr1). cbn [obind].
  destruct r1 as [z|e]; [|by destruct Hr1 as (_ & ? & _); congruence]. destruct Hr1 as (_ & _ & ->).
  pose proof (slot_set t other o (mk_descr None 0) Hot) as Ho1.
  pose proof (troom_close k k1 t other o hf base hi hm Hr Hot Hsz) as Hr1. unfold dup2_done.
  destruct (Z.eqb_spec other fd) as [->|Hne].
  - destruct (dup_into_ok k1 _ fd _ fd _ hf env base hi hm Hg1 Hr1 Ho1 Ho1 eq_refl) as [-> Hg].
    eexists _, _, _. split; [done|]. split; [done|]. rewrite Z.eqb_refl. split; [done|].
    split; [|intros m Hm; rewrite !slot_set_ne by (done || lia); done].
    unfold valid_fd. by rewrite (slot_set _ fd (mk_descr None 0)).
  - destruct (dup_into_ok k1 _ fd d other (mk_descr None 0) hf env base hi hm Hg1 Hr1) as [-> Hg];
      [by rewrite slot_set_ne by (done || lia)|done|done|].
    eexists _, _, _. split; [done|]. split; [done|]. rewrite (proj2 (Z.eqb_neq other fd)) by done.
    split; [done|]. split; [by eapply slot_set|]. intros m Hm. by rewrite !slot_set_ne by (done || lia).
Qed.

(** The result of [sys_dup2]: both descriptors name the same file, except that
    a descriptor duplicated onto itself is closed. *)
Lemma sys_dup2_ok k t fd other hf env base hi hm :
  tgood k t hf env base hi hm → troom k t hf base hi hm →
  ∃ k' t' r, sys_dup2 fs_put_inode fops fuel k t fd other = Ret (k', t', r) ∧ tgood k' t' hf env base hi hm
    ∧ match r with
      | Ok n => ∃ d, valid_fd t fd = Some d ∧ (other = n ∨ other = -1) ∧ dup2_done t fd d t' n
      | Err _ => k' = k ∧ t' = t
      end.
Proof.
  intros H Hr. pose proof H as [Hk Ht]. unfold sys_dup2. destruct (valid_fd t fd) as [d|] eqn:Ev; [|by eauto 10].
  pose proof Ev as [Hs Ho]%valid_Some. pose proof (slot_descr_ok _ _ _ Ht Hs) as Hok.
  assert (Hfresh : ∀ n o, slot t n = Some o → is_open o = false →
    ∃ k' t', dup_into k t fd n = Ret (k', t', Ok n) ∧ tgood k' t' hf env base hi hm ∧ dup2_done t fd d t' n).
  { intros n o Hn Hc. destruct (dup_into_ok k t fd d n o hf env base hi hm) as [-> Hg]; [done..| |].
    { apply closed_none; [by eapply slot_descr_ok|done]. }
    eexists _, _. split; [done|]. split; [done|]. assert (n ≠ fd) by (intros ->; congruence).
    unfold dup2_done. rewrite (proj2 (Z.eqb_neq n fd)) by done.
    split; [by eapply slot_set|]. intros m Hm. apply slot_set_ne; [|done]. apply slot_Some in Hn. lia. }
  case_if.
  - destruct (first_slot _ _ _) as [n|] eqn:Ef; [|by eauto 10].
    destruct (first_slot_slot _ t n Ht Ef) as (o & Hn & Hfree & _). apply negb_true_iff in Hfree.
    destruct (Hfresh n o Hn Hfree) as (k' & t' & -> & Hg & Hd). eexists _, _, _. split; [done|]. split; [done|]. exists d. auto.
  - case_if; [by eauto 10|]. destruct (slot_in t other Ht) as (o & Hot & Hook); [lia|].
    destruct (valid_fd t other) as [o'|] eqn:Eo.
    + destruct (dup_over_ok k t fd d other o' hf env base hi hm H Hr Hs Eo) as (k' & t' & [n|e] & -> & Hg & Hd); [|done].
      eexists _, _, _. split; [done|]. split; [done|]. naive_solver.
    + assert (is_open o = false) as Hclosed by (revert Eo; unfold valid_fd, is_open; rewrite Hot; by destruct (_ && _)).
      destruct (Hfresh other o Hot Hclosed) as (k' & t' & -> & Hg & Hd). eexists _, _, _. split; [done|]. split; [done|]. exists d. auto.
Qed.

(** ** Copying and freeing a table *)

Lemma copy_fds_ok k l hf env base hi hm :
  kgood root fuel k hf env base hi hm → few (9 + Z.of_nat (length l)) hf → Forall descr_ok l →
  (∀ a, a ∈ frefs l → a ∈ hf) →
  ∃ k' l', copy_fds k l = (k', l') ∧ kgood root fuel k' (frefs l' ++ hf) env base hi hm ∧ Forall descr_ok l'
    ∧ length l' = length l ∧ frefs l' = frefs l ∧ kv k' = kv k ∧ size (files k') = size (files k).
Proof.
  intros Hk Hf Hl Hin. revert k hf Hk Hf Hin. induction Hl as [|d l Hd Hl IH]; intros k hf Hk Hf Hin; simpl; [by eauto 10|].
  rewrite frefs_cons in Hin. fold (is_open d). destruct (is_open d) eqn:Eo.
  - destruct (open_some d Hd Eo) as [a Ha]. rewrite Ha in *.
    destruct (IH (file_get k (Some a)) (a :: hf)) as (k' & l' & -> & Hk' & Hl' & Hlen & Hrefs & Hkv & Hsz).
    + apply file_get_ok; [done|unfold few in *; lia|set_solver].
    + unfold few in *. simpl in *. lia.
    + set_solver.
    + exists k', (d :: l'). split; [done|]. rewrite !frefs_cons, Ha, Hrefs.
      split; [eapply kgood_perm; [|done|done|done]; rewrite Hrefs; simpl; solve_Permutation|].
      split; [by constructor|]. split; [simpl; lia|]. split; [done|]. split; [done|]. rewrite Hsz. simpl. apply size_alter.
  - pose proof (closed_none d Hd Eo) as Hn. rewrite Hn in *.
    destruct (IH k hf) as (k' & l' & -> & Hk' & Hl' & Hlen & Hrefs & Hkv & Hsz); [done|unfold few in *; simpl in *; lia|done|].
    exists k', (mk_descr None 0 :: l'). split; [done|].
    split; [done|]. split; [by constructor|]. simpl. auto.
Qed.

Lemma close_fds_ok l k hf env base hi hm :
  Forall descr_ok l → kgood root fuel k (frefs l ++ hf) env base hi hm → room k (frefs l ++ hf) base hi hm →
  ∃ k' l', close_fds fs_put_inode fops fuel k l = Ret (k', l') ∧ kgood root fuel k' hf env base hi hm
    ∧ Forall descr_ok l' ∧ length l' = length l ∧ frefs l' = [].
Proof.
  intros Hl. revert k. induction Hl as [|d l Hd Hl IH]; intros k Hk Hr; simpl; [by eauto 10|].
  rewrite frefs_cons in *. destruct (occupied d) eqn:Eo.
  - assert (∃ k1, File.file_close fs_put_inode fops fuel k (fd_file d) = Ret (k1, Ok tt)
      ∧ kgood root fuel k1 (frefs l ++ hf) env base hi hm ∧ (size (files k1) <= size (files k))%nat) as (k1 & -> & Hk1 & Hs1).
    { destruct (fd_file d) as [a|]; [|by exists k]. apply file_close_ok; [done|done|].
      destruct Hr as [Hr ? ? ?]. constructor; try done. unfold few in *. simpl in Hr. lia. }
    destruct (IH k1 Hk1) as (k' & l' & Hc & Hk' & Hl' & Hlen & Hn).
    { destruct Hr as [Hr ? ? ?]. constructor; try done; unfold few in *; rewrite ?length_app in *; lia. }
    cbn [obind]. rewrite Hc. cbn [obind]. eexists _, _. split; [done|]. split; [done|].
    split; [by constructor|]. simpl. auto.
  - assert (Hn : fd_file d = None) by (apply closed_none; [done|]; unfold is_open; by rewrite Eo). rewrite Hn in *.
    destruct (IH k Hk Hr) as (k' & l' & -> & Hk' & Hl' & Hlen & Hn').
    cbn [obind]. eexists _, _. split; [done|]. rewrite frefs_cons, Hn. split; [done|]. split; [by constructor|].
    simpl. auto.
Qed.

Lemma copy_task_vfs_ok k t hf env base hi hm :
  tgood k t hf env base hi hm → troom k t hf base hi hm → few 2000 (frefs (v_openvect t) ++ hf) → cwd_ok root t base hm →
  ∃ k' d, copy_task_vfs k t = (k', d)
    ∧ kgood root fuel k' (frefs (v_openvect d) ++ frefs (v_openvect t) ++ hf) env
        (p_dentry (v_cwd t) :: base) hi (option_list (p_mount (v_cwd t)) ++ hm)
    ∧ table_ok d ∧ v_cwd d = v_cwd t ∧ frefs (v_openvect d) = frefs (v_openvect t)
    ∧ size (files k') = size (files k).
Proof.
  intros [Hk [Hlen Hall]] Hr Hf Hcwd. pose proof (cwd_fine _ _ _ _ _ _ _ _ _ Hk Hcwd) as Hfine. unfold copy_task_vfs.
  destruct (kgood_path_copy root fuel k _ env base hi hm (v_cwd t) Hk Hr) as (s & -> & Hk1 & _); [apply Hcwd|done|].
  destruct (copy_fds_ok _ (v_openvect t) _ env _ hi _ Hk1) as (k' & l & -> & Hk' & Hl & Hll & Hrefs & _ & Hsz).
  - unfold few, TASK_MAX_OPEN_FILES in *. lia.
  - done.
  - set_solver.
  - exists k', (mk_tvfs (v_cwd t) l). split; [done|]. split; [done|]. split; [|done]. split; simpl; [lia|done].
Qed.

Lemma free_task_vfs_ok k t hf env base hi hm :
  kgood root fuel k (frefs (v_openvect t) ++ hf) env (p_dentry (v_cwd t) :: base) hi
    (option_list (p_mount (v_cwd t)) ++ hm) →
  table_ok t → env ⊆ base → troom k t hf base hi hm →
  ∃ k' t', free_task_vfs fs_put_inode fops fuel k t = Ret (k', t') ∧ kgood root fuel k' hf env base hi hm
    ∧ frefs (v_openvect t') = [] ∧ table_ok t'.
Proof.
  intros Hk [Hlen Hall] Hsub Hr. unfold free_task_vfs.
  destruct (kgood_path_put fs_put_inode root fuel k _ env base hi hm (v_cwd t) Hk Hsub Hr) as (s & -> & Hk1 & _).
  cbn [obind]. destruct (close_fds_ok (v_openvect t) (with_kv k s) hf env base hi hm Hall Hk1) as
    (k' & l & -> & Hk' & Hl & Hll & Hrefs); [by destruct Hr|].
  cbn [obind]. eexists _, _. split; [done|]. split; [done|]. split; [done|]. split; simpl; [lia|done].
Qed.

(** ** Opening by name *)

Context (fs_find : W → Z → Z → string → result Z) (fs_read_inode : W → Z → Z → W * result iattr).
Context (MS_RDONLY MS_NOEXEC uid gid : Z) (major : Z → Z) (default_fops : inode → option Z).
Context (block_device_fops pipe_operations : Z).
Context (fs_truncate : inode → option (W → W * iattr * result unit)).
Context (fs_mknod : inode → option (string → Z → Z → W → W * iattr * result unit)).

Local Notation path_lookup := (path_lookup fs_find fs_read_inode fs_put_inode MS_RDONLY MS_NOEXEC root uid gid fuel).
Local Notation at_root := (at_root fs_put_inode root fuel fs_find fs_read_inode MS_RDONLY MS_NOEXEC uid gid).
Local Notation sys_mknod :=
  (sys_mknod fs_find fs_read_inode fs_put_inode MS_RDONLY MS_NOEXEC root uid gid fs_mknod fuel).
Local Notation open_path :=
  (open_path fs_put_inode MS_RDONLY MS_NOEXEC root uid gid major fops default_fops block_device_fops pipe_operations
     fs_truncate fuel).
Local Notation sys_open :=
  (sys_open fs_find fs_read_inode fs_put_inode MS_RDONLY MS_NOEXEC root uid gid major fops default_fops
     block_device_fops pipe_operations fs_truncate fs_mknod fuel).

(** What [sys_mknod] leaves behind. *)
Definition noded k refs env base hi hm k' : Prop :=
  kgood root fuel k' refs env base hi hm ∧ files k' = files k
  ∧ (length (pool (kv k)) <= 2048 + length (pool (kv k')))%nat.

(** [sys_mknod] once the directory is found. *)
Lemma mknod_at k refs env base hi hm t name s p mode dev :
  found root fuel k refs env base hi hm s (Ok p) → env ⊆ base → roomy 30 k refs base hi hm →
  at_root t name WP_PARENT ∨ p_dentry p ≠ root → (length (pool (kv k)) <= 2048 + length (pool s))%nat →
  let body := mknod_in fs_put_inode MS_RDONLY MS_NOEXEC root uid gid fs_mknod fuel (with_kv k s) p name mode dev in
  (∃ k' r, body = Ret (k', r) ∧ noded k refs env base hi hm k') ∨ body = Halt ∧ at_root t name WP_PARENT.
Proof.
  intros Hs Hsub Hr Hroot Hpool body.
  assert (Hput : ∀ s', found root fuel k refs env base hi hm s' (Ok p) → pool s' = pool s →
    ∃ s'', Dcache.path_put fs_put_inode fuel s' p = Ret s'' ∧ noded k refs env base hi hm (with_kv k s'')).
  { intros s' Hf Hp. destruct (put_found fs_put_inode root fuel k s' refs env base hi hm p Hf Hsub Hr) as (s'' & -> & Hk & Hp').
    exists s''. split; [done|]. split; [done|]. split; [done|]. cbn [kv with_kv]. by rewrite Hp', Hp. }
  assert (Herr : ∀ e, ∃ k', put_err (A := unit) fs_put_inode fuel (with_kv k s) p e = Ret (k', Err e) ∧ noded k refs env base hi hm k').
  { intros e. unfold put_err. destruct (Hput s Hs eq_refl) as (s' & E & Hn). cbn [kv with_kv]. rewrite E. eauto. }
  pose proof Hs as [Hk Hfine]. pose proof Hk as [Hg He _ _ _ _ _ _]. cbn [kv with_kv] in Hg, He.
  destruct (path_access_found root MS_RDONLY MS_NOEXEC uid gid s _ env hi _ p W_OK Hg He) as [r Er]; [set_solver|done|]. unfold body, mknod_in.
  cbn [kv with_kv]. rewrite Er. cbn [obind].
  destruct r as [[]|e]; [|left; destruct (Herr e) as (k' & -> & ?); eauto].
  destruct (decide (p_dentry p = root)) as [E|E].
  - right. split; [|by destruct Hroot]. unfold inode_ptr. rewrite E.
    destruct (dentries s !! root) as [er|] eqn:Eer; [|done]. by destruct (eo_root _ _ _ He er Eer) as [-> _].
  - left. destruct (entry_inode root s _ hi _ env (p_dentry p) Hg He) as (i & node & -> & Hn); [set_solver|done|].
    rewrite Hn. destruct (fs_mknod node) as [op|]; [|destruct (Herr EPERM) as (k' & -> & ?); eauto].
    destruct (op _ _ _ _) as [[w x] r]. destruct (Hput (put_attr s i w x)) as (s' & -> & Hnd); [|done|].
    { apply found_attr; [done|]. by eexists. }
    cbn [obind]. eauto.
Qed.

Lemma sys_mknod_ok k refs env base hi hm t name mode dev :
  kgood root fuel k refs env base hi hm → roomy 30 k refs base hi hm → cwd_ok root t base hm →
  (2048 <= length (pool (kv k)))%nat →
  (∃ k' r, sys_mknod k (v_cwd t) name mode dev = Ret (k', r) ∧ noded k refs env base hi hm k')
  ∨ sys_mknod k (v_cwd t) name mode dev = Halt ∧ at_root t name WP_PARENT.
Proof.
  intros Hk Hr Hcwd Hpool. pose proof (kg_sub _ _ _ _ _ _ _ _ Hk) as [_ Hsub]. unfold FdTable.sys_mknod.
  destruct (lookup_ok fs_put_inode root fuel fs_find fs_read_inode MS_RDONLY MS_NOEXEC uid gid k refs env base hi hm t name WP_DEFAULT Hk (roomy_room _ _ _ _ _ Hr) Hcwd) as
    (s1 & [p|e] & -> & H1 & Hp1); [lia|..]; cbn [obind].
  { unfold put_err. destruct (put_found fs_put_inode root fuel k s1 refs env base hi hm p H1 Hsub Hr) as (s2 & Hput & Hk2 & Hp2).
    cbn [kv with_kv]. rewrite Hput. left. eexists _, _. split; [done|]. split; [done|].
    split; [done|]. cbn [kv with_kv]. rewrite Hp2. lia. }
  simpl in H1. destruct (lookup_ok fs_put_inode root fuel fs_find fs_read_inode MS_RDONLY MS_NOEXEC uid gid _ refs env base hi hm t name WP_PARENT H1) as (s2 & [p|e'] & El & H2 & Hp2);
    [by apply roomy_kv, roomy_room|done|cbn [kv with_kv]; lia|..]; cbn [kv with_kv] in *; rewrite El; cbn [obind].
  2: { left. eexists _, _. split; [done|]. split; [done|]. split; [done|]. cbn [kv with_kv]. lia. }
  apply (mknod_at k refs env base hi hm t name s2 p mode dev H2 Hsub Hr); [|lia].
  destruct (decide (p_dentry p = root)); [left; by exists s1, s2, p|by right].
Qed.


(** What a call of [sys_open] that gave descriptor [fd] leaves behind. *)
Definition opened_fd k t flags k' t' fd : Prop :=
  ∃ a f, slot t' fd = Some (mk_descr (Some a) FD_OCCUPIED) ∧ files k !! a = None ∧ files k' !! a = Some f
    ∧ f_refs f = 1 ∧ f_status f = flags ∧ ∀ m, m ≠ fd → slot t' m = slot t m.

Lemma open_path_ok k t s p fd o flags hf env base hi hm :
  found root fuel k (frefs (v_openvect t) ++ hf) env base hi hm s (Ok p) → table_ok t → p_dentry p ≠ root → env ⊆ base →
  roomy 30 k (frefs (v_openvect t) ++ hf) base hi hm → slot t fd = Some o → fd_file o = None →
  ∃ k' t' r, open_path (with_kv k s) t fd p flags = Ret (k', t', r) ∧ tgood k' t' hf env base hi hm
    ∧ match r with Ok n => n = fd ∧ opened_fd k t flags k' t' n | Err _ => True end.
Proof.
  intros [Hk Hfine] Ht Hne Hsub Hr Hs Ho. unfold FdTable.open_path.
  destruct (file_open_ok fs_put_inode root fuel fops MS_RDONLY MS_NOEXEC uid gid major default_fops block_device_fops
    pipe_operations fs_truncate (with_kv k s) _ env _ hi _ p flags Hk) as (k1 & r & -> & _ & _ & Hres);
    [by apply roomy_kv, roomy_push|by left|done|done|].
  cbn [obind]. destruct Hr as [Hr1 Hr2 Hr3 Hr4]. destruct r as [a|e].
  - destruct Hres as (Hk1 & Hnew & Hsz & f & Hf & _ & Hst & Href). cbn [files with_kv] in Hnew, Hsz.
    destruct (kgood_path_put fs_put_inode root fuel k1 _ env base hi hm p Hk1 Hsub) as (s2 & -> & Hk2 & _).
    { constructor; unfold few in *; cbn [length]; lia. }
    cbn [obind]. eexists _, _, _. split; [done|]. split.
    + eapply (tgood_set k); [done|done|by eexists|exact Hk2|]. by rewrite Ho.
    + split; [done|]. exists a, f. split; [by eapply slot_set|]. split; [done|]. split; [done|]. split; [done|].
      split; [done|]. intros m Hm. apply slot_set_ne; [|done]. apply slot_Some in Hs. lia.
  - destruct Hres as [Hk1 Hfs].
    destruct (kgood_path_put fs_put_inode root fuel k1 _ env base hi hm p Hk1 Hsub) as (s2 & -> & Hk2 & _).
    { constructor; rewrite ?Hfs; unfold few in *; cbn [files with_kv]; lia. }
    cbn [obind]. eexists _, _, _. split; [done|]. split; [|done].
    eapply (tgood_set k); [done|done|done|exact Hk2|]. by rewrite Ho.
Qed.

Lemma open_path_root k t s p fd flags refs env base hi hm :
  found root fuel k refs env base hi hm s (Ok p) → p_dentry p = root → open_path (with_kv k s) t fd p flags = Halt.
Proof.
  intros [Hk [Hm _]] E. unfold FdTable.open_path, file_open, path_access. cbn [kv with_kv].
  assert (Hland : Z.land (access_mode flags) (Z.lnot 7) = 0) by (unfold access_mode; by do 2 case_if).
  rewrite Hland, andb_false_r. simpl.
  rewrite E, Z.eqb_refl, (bool_decide_true _ (Hm E)). simpl.
  assert (Hp : inode_ptr s root = None).
  { unfold inode_ptr. destruct (dentries s !! root) as [er|] eqn:Eer; [|done].
    by destruct (eo_root _ _ _ (kg_env _ _ _ _ _ _ _ _ Hk) er Eer) as [-> _]. }
  case_if; cbn [obind]; by rewrite Hp.
Qed.

(** A slot that is reserved, and cleared again. *)
Lemma reserve_ok k t fd o refs hf env base hi hm :
  tgood k t hf env base hi hm → slot t fd = Some o → fd_file o = None → refs = frefs (v_openvect t) ++ hf →
  let t' := reserve t fd in
  tgood k t' hf env base hi hm ∧ slot t' fd = Some (mk_descr None (Z.lor FD_OCCUPIED FD_INVALID))
  ∧ frefs (v_openvect t') ++ hf ≡ₚ refs ∧ v_cwd t' = v_cwd t ∧ (∀ m, m ≠ fd → slot t' m = slot t m).
Proof.
  intros [Hk Ht] Hs Ho ->. unfold reserve. rewrite Hs, Ho. simpl. split.
  { eapply (tgood_set k); [done|done|done|exact Hk|]. by rewrite Ho. }
  split; [by eapply slot_set|]. apply slot_Some in Hs as [Hr Hs].
  split; [pose proof (frefs_insert _ _ o (mk_descr None (Z.lor FD_OCCUPIED FD_INVALID)) Hs) as Hp;
    rewrite Ho in Hp; simpl in Hp; by rewrite Hp|].
  split; [done|]. intros m Hm. apply slot_set_ne; [lia|done].
Qed.

Lemma clear_ok k t fd o hf env base hi hm :
  tgood k t hf env base hi hm → slot t fd = Some o → fd_file o = None → tgood k (clear_flags t fd) hf env base hi hm.
Proof.
  intros [Hk Ht] Hs Ho. unfold clear_flags. rewrite Hs, Ho.
  eapply (tgood_set k); [done|done|done|exact Hk|]. by rewrite Ho.
Qed.

Definition open_result k t flags k' t' (r : result Z) : Prop :=
  match r with
  | Ok fd => free_slot t = Some fd ∧ opened_fd k t flags k' t' fd
  | Err _ => True
  end.

(** How [sys_open] may end: it returns with all counts right, or it faults on
    the bare root entry. *)
Definition open_ends k t name flags hf env base hi hm (c : outcome (kern * tvfs * result Z)) : Prop :=
  (∃ k' t' r, c = Ret (k', t', r) ∧ tgood k' t' hf env base hi hm ∧ open_result k t flags k' t' r)
  ∨ c = Halt ∧ (at_root t name WP_DEFAULT ∨ at_root t name WP_PARENT).

(** The reserved slot [fd] of the table [t1] made from [t]. *)
Record reserved k t t1 fd hf env base hi hm : Prop := {
  rs_free : free_slot t = Some fd;
  rs_table : table_ok t1;
  rs_slot : slot t1 fd = Some (mk_descr None (Z.lor FD_OCCUPIED FD_INVALID));
  rs_room : roomy 30 k (frefs (v_openvect t1) ++ hf) base hi hm;
  rs_cwd : v_cwd t1 = v_cwd t;
  rs_other : ∀ m, m ≠ fd → slot t1 m = slot t m;
}.

Lemma open_clears k t t1 fd k' name flags e hf env base hi hm :
  reserved k t t1 fd hf env base hi hm → kgood root fuel k' (frefs (v_openvect t1) ++ hf) env base hi hm →
  open_ends k t name flags hf env base hi hm (Ret (k', clear_flags t1 fd, Err e)).
Proof.
  intros [] Hk. left. eexists _, _, _. split; [done|]. split; [|done]. by eapply clear_ok; [split|done|done].
Qed.

Lemma open_found k t t1 fd k1 s p name flags hf env base hi hm :
  reserved k t t1 fd hf env base hi hm → files k1 = files k →
  found root fuel k1 (frefs (v_openvect t1) ++ hf) env base hi hm s (Ok p) → env ⊆ base →
  at_root t name WP_DEFAULT ∨ p_dentry p ≠ root →
  open_ends k t name flags hf env base hi hm (open_path (with_kv k1 s) t1 fd p flags).
Proof.
  intros [] Hfs Hf Hsub Hroot. destruct (decide (p_dentry p = root)) as [E|E].
  - right. split; [by eapply open_path_root|]. left. by destruct Hroot.
  - left. destruct (open_path_ok k1 t1 s p fd _ flags hf env base hi hm Hf rs_table0 E Hsub
      (ltac:(destruct rs_room0; constructor; rewrite ?Hfs; done)) rs_slot0) as (k' & t' & r & -> & Hg & Hr); [done|].
    eexists _, _, _. split; [done|]. split; [done|]. destruct r as [n|]; [|done]. destruct Hr as [-> (a & f & Hr)].
    rewrite Hfs in Hr. split; [done|]. exists a, f. destruct Hr as (? & ? & ? & ? & ? & Hm).
    repeat (split; [done|]). intros m Hne. rewrite Hm by done. auto.
Qed.

Lemma sys_open_ok k t name flags mode hf env base hi hm :
  tgood k t hf env base hi hm → roomy 30 k (frefs (v_openvect t) ++ hf) base hi hm → cwd_ok root t base hm →
  (4096 <= length (pool (kv k)))%nat →
  open_ends k t name flags hf env base hi hm (sys_open k t name flags mode).
Proof.
  intros H Hr Hcwd Hpool. pose proof H as [Hk Ht]. pose proof (kg_sub _ _ _ _ _ _ _ _ Hk) as [_ Hsub].
  unfold FdTable.sys_open. destruct (free_slot t) as [fd|] eqn:Ef; [|by left; eexists _, _, _].
  destruct (first_slot_slot _ t fd Ht Ef) as (o & Ho & Hocc & Hook). apply negb_true_iff in Hocc.
  assert (Hn : fd_file o = None) by (apply closed_none; [done|unfold is_open; by rewrite Hocc]).
  destruct (reserve_ok k t fd o _ hf env base hi hm H Ho Hn eq_refl) as ([Hk1 Ht1] & Ho1 & Hp1 & Hcw & Hsl).
  set (t1 := reserve t fd) in *.
  assert (Hres : reserved k t t1 fd hf env base hi hm).
  { constructor; try done. destruct Hr as [Hr ? ? ?]. constructor; [|done..]. unfold few in *. by rewrite Hp1. }
  pose proof (rs_room _ _ _ _ _ _ _ _ _ Hres) as Hr1. rewrite Hcw.
  destruct (lookup_ok fs_put_inode root fuel fs_find fs_read_inode MS_RDONLY MS_NOEXEC uid gid k _ env base hi hm t name WP_DEFAULT Hk1 (roomy_room _ _ _ _ _ Hr1) Hcwd) as
    (s1 & [p|e] & El1 & H1 & Hl1); [lia|..]; rewrite El1; cbn [obind].
  - case_if.
    + destruct (put_found fs_put_inode root fuel k s1 _ env base hi hm p H1 Hsub Hr1) as (s2 & Hput & Hk2 & _).
      cbn [kv with_kv]. rewrite Hput. cbn [obind]. by eapply open_clears.
    + eapply open_found; [done|done|done|done|].
      destruct (decide (p_dentry p = root)); [left; by exists (kv k), s1, p|by right].
  - simpl in H1. case_if; [|by eapply open_clears].
    destruct (sys_mknod_ok _ _ env base hi hm t name (Z.lor (Z.land mode (Z.lnot S_IFMT)) S_IFREG) 0 H1)
      as [(k2 & r & -> & Hk2 & Hf2 & Hl2)|[-> Hat]]; [by apply roomy_kv|done|cbn [kv with_kv]; lia| |];
      [|right; by split; [|right]].
    cbn [obind]. cbn [files kv with_kv] in Hf2, Hl2. destruct r as [[]|e']; [|by eapply open_clears].
    assert (Hr2 : room k2 (frefs (v_openvect t1) ++ hf) base hi hm).
    { apply roomy_room. destruct Hr1. constructor; rewrite ?Hf2; done. }
    destruct (lookup_ok fs_put_inode root fuel fs_find fs_read_inode MS_RDONLY MS_NOEXEC uid gid k2 _ env base hi hm t name WP_DEFAULT Hk2 Hr2 Hcwd) as (s3 & [p|e'] & El3 & H3 & _); [lia|..];
      rewrite El3; cbn [obind]; [|by eapply open_clears].
    eapply open_found; [done|done|done|done|].
    destruct (decide (p_dentry p = root)); [left; by exists (kv k2), s3, p|by right].
Qed.
End Calls.
