(* ===== verification/FdSystem.v ===== *)
(** Several tasks with descriptor tables over the shared table of open files.
    Tasks run the system calls on descriptors, fork and exit in any order;
    the invariant says that every count is right and that no descriptor
    refers to a file that is gone. *)

From stdpp Require Import strings.
From S2P Require Import Prelude Dcache DcacheInv PathLookup File FileInv FdTable FdInv.

(** * What all tasks together refer to *)

Section Collect.
Context {B : Type} (g : tvfs → list B).

Definition collect (m : gmap Z tvfs) : list B := map_to_list m ≫= λ x, g x.2.

Lemma collect_insert m i t : m !! i = None → collect (<[i := t]> m) ≡ₚ g t ++ collect m.
Proof. intros H. unfold collect. by rewrite map_to_list_insert. Qed.

Lemma collect_delete m i t : m !! i = Some t → collect m ≡ₚ g t ++ collect (delete i m).
Proof.
  intros H. rewrite <- (insert_delete_id m i t H) at 1. apply collect_insert. apply lookup_delete_eq.
Qed.

Lemma collect_update m i t : collect (<[i := t]> m) ≡ₚ g t ++ collect (delete i m).
Proof. rewrite <- insert_delete_eq. apply collect_insert. apply lookup_delete_eq. Qed.
End Collect.

Definition t_refs (t : tvfs) : list Z := frefs (v_openvect t).
Definition t_cwd (t : tvfs) : list Z := [p_dentry (v_cwd t)].
Definition t_mount (t : tvfs) : list Z := option_list (p_mount (v_cwd t)).

Section System.
Context {W : Type} (fs_put_inode : W → Z → Z → W) (root : Z).
Context (fops : Z → file_operations (W := W)) (fuel : nat).
Context (fs_find : W → Z → Z → string → result Z) (fs_read_inode : W → Z → Z → W * result iattr).
Context (MS_RDONLY MS_NOEXEC uid gid : Z) (major : Z → Z) (default_fops : inode → option Z).
Context (block_device_fops pipe_operations : Z).
Context (fs_truncate : inode → option (W → W * iattr * result unit)).
Context (fs_mknod : inode → option (string → Z → Z → W → W * iattr * result unit)).

Record system := mk_system { y_kern : kern (W := W); y_tasks : gmap Z tvfs }.
Implicit Types (y : system) (env base hi hm : list Z).

(** The calls a task can make. *)
Inductive request : Type :=
  | ROpen (name : option string) (flags mode : Z)
  | RClose (fd : Z)
  | RDup (fd : Z)
  | RDup2 (fd other : Z)
  | RRead (fd count : Z)
  | RWrite (fd : Z) (buf : list Z)
  | RSeek (fd offset whence : Z).

(** A call that leaves the table as it is. *)
Definition keep {A} (t : tvfs) (c : outcome (kern (W := W) * result A)) : outcome (kern (W := W) * tvfs) :=
  ' (k, _) <~ c ;; Ret (k, t).

Definition drop_result {A} (c : outcome (kern (W := W) * tvfs * result A)) : outcome (kern (W := W) * tvfs) :=
  ' (k, t, _) <~ c ;; Ret (k, t).

Definition serve (k : kern) (t : tvfs) (q : request) : outcome (kern * tvfs) :=
  match q with
  | ROpen name flags mode =>
      drop_result (sys_open fs_find fs_read_inode fs_put_inode MS_RDONLY MS_NOEXEC root uid gid major fops default_fops
        block_device_fops pipe_operations fs_truncate fs_mknod fuel k t name flags mode)
  | RClose fd => drop_result (sys_close fs_put_inode fops fuel k t fd)
  | RDup fd => drop_result (sys_dup k t fd)
  | RDup2 fd other => drop_result (sys_dup2 fs_put_inode fops fuel k t fd other)
  | RRead fd count => keep t (sys_read fops k t fd count)
  | RWrite fd buf => keep t (sys_write fops k t fd buf)
  | RSeek fd offset whence => keep t (sys_lseek fops k t fd offset whence)
  end.

(** One step of the system: a call of task [i], a fork into the new task [j],
    an exit. *)
Inductive move : Type := MCall (i : Z) (q : request) | MFork (i j : Z) | MExit (i : Z).

Definition advance (y : system) (v : move) : outcome system :=
  match v with
  | MCall i q =>
      match y_tasks y !! i with
      | None => Ret y
      | Some t => ' (k, t) <~ serve (y_kern y) t q ;; Ret (mk_system k (<[i := t]> (y_tasks y)))
      end
  | MFork i j =>
      match y_tasks y !! i, y_tasks y !! j with
      | Some t, None => let '(k, d) := copy_task_vfs (y_kern y) t in Ret (mk_system k (<[j := d]> (y_tasks y)))
      | _, _ => Ret y
      end
  | MExit i =>
      match y_tasks y !! i with
      | None => Ret y
      | Some t => ' (k, _) <~ free_task_vfs fs_put_inode fops fuel (y_kern y) t ;; Ret (mk_system k (delete i (y_tasks y)))
      end
  end.

(** * The invariant *)

Record sys_inv env base hi hm y : Prop := {
  si_kern : kgood root fuel (y_kern y) (collect t_refs (y_tasks y)) env (collect t_cwd (y_tasks y) ++ base) hi
    (collect t_mount (y_tasks y) ++ hm);
  si_base : env ⊆ base;
  si_table : ∀ i t, y_tasks y !! i = Some t → table_ok t ∧ (p_dentry (v_cwd t) = root → p_mount (v_cwd t) = None);
}.

(** Memory for the lookups of one call, and no counter near overflow. *)
Record ample base hi hm y : Prop := {
  am_room : roomy 2000 (y_kern y) (collect t_refs (y_tasks y)) (collect t_cwd (y_tasks y) ++ base) hi
    (collect t_mount (y_tasks y) ++ hm);
  am_pool : (4096 <= length (pool (kv (y_kern y))))%nat;
}.

(** The view of one task. *)
Lemma task_view env base hi hm y i t :
  sys_inv env base hi hm y → y_tasks y !! i = Some t →
  let m := delete i (y_tasks y) in
  tgood root fuel (y_kern y) t (collect t_refs m) env (collect t_cwd (y_tasks y) ++ base) hi (collect t_mount (y_tasks y) ++ hm)
  ∧ cwd_ok root t (collect t_cwd (y_tasks y) ++ base) (collect t_mount (y_tasks y) ++ hm)
  ∧ frefs (v_openvect t) ++ collect t_refs m ≡ₚ collect t_refs (y_tasks y).
Proof.
  intros [Hk Hb Ht] Hi m. destruct (Ht i t Hi) as [Htab Hroot].
  pose proof (collect_delete t_refs _ i t Hi) as Hp.
  split; [|split; [|done]].
  - split; [|done]. by eapply kgood_perm; [exact Hp|done|done|].
  - split; [|split; [|done]].
    + rewrite (collect_delete t_cwd _ i t Hi). by left.
    + intros x Hx. rewrite (collect_delete t_mount _ i t Hi). unfold t_mount. rewrite Hx. by left.
Qed.

(** The table of one task changes, its working directory stays. *)
Lemma task_update env base hi hm y i t k' t' :
  sys_inv env base hi hm y → y_tasks y !! i = Some t → v_cwd t' = v_cwd t →
  tgood root fuel k' t' (collect t_refs (delete i (y_tasks y))) env (collect t_cwd (y_tasks y) ++ base) hi
    (collect t_mount (y_tasks y) ++ hm) →
  sys_inv env base hi hm (mk_system k' (<[i := t']> (y_tasks y))).
Proof.
  intros [Hk Hb Ht] Hi Hc [Hk' Ht']. constructor; simpl; [|done|].
  - eapply kgood_perm; [..|exact Hk'].
    + by rewrite collect_update.
    + rewrite (collect_update t_cwd), (collect_delete t_cwd _ i t Hi). unfold t_cwd at 1 3. by rewrite Hc.
    + rewrite (collect_update t_mount), (collect_delete t_mount _ i t Hi). unfold t_mount at 1 3. by rewrite Hc.
  - intros j x. rewrite lookup_insert. case_decide; [|eauto]. intros [= <-]. rewrite Hc. split; [done|]. by eapply Ht.
Qed.

(** * The calls keep the working directory *)

Lemma reserve_cwd t fd : v_cwd (reserve t fd) = v_cwd t.
Proof. unfold reserve. by case_match. Qed.

Lemma clear_flags_cwd t fd : v_cwd (clear_flags t fd) = v_cwd t.
Proof. unfold clear_flags. by case_match. Qed.

Ltac follow H :=
  repeat match type of H with
  | obind _ _ = Ret _ => let x := fresh "x" in let E := fresh "E" in apply obind_ret in H as (x & E & H)
  | Ret _ = Ret _ => injection H as H; subst
  | (_, _) = (_, _) => injection H as H; subst
  | context [match ?x with _ => _ end] => destruct x eqn:?; try done
  end.

Lemma sys_close_cwd k t fd k' t' r : sys_close fs_put_inode fops fuel k t fd = Ret (k', t', r) → v_cwd t' = v_cwd t.
Proof. unfold sys_close. intros H. follow H; done. Qed.

Lemma dup_into_cwd k t fd n k' t' r : dup_into (W := W) k t fd n = Ret (k', t', r) → v_cwd t' = v_cwd t.
Proof. unfold dup_into. intros H. follow H; done. Qed.

Lemma sys_dup_cwd k t fd k' t' r : sys_dup (W := W) k t fd = Ret (k', t', r) → v_cwd t' = v_cwd t.
Proof. unfold sys_dup. intros H. follow H; done. Qed.

Lemma sys_dup2_cwd k t fd other k' t' r :
  sys_dup2 fs_put_inode fops fuel k t fd other = Ret (k', t', r) → v_cwd t' = v_cwd t.
Proof.
  unfold sys_dup2. destruct (valid_fd t fd); [|by intros [= _ <- _]]. case_match; [case_match|case_match; [|case_match]].
  - apply dup_into_cwd.
  - by intros [= _ <- _].
  - by intros [= _ <- _].
  - intros (([k1 t1] & r1) & Hc & Hd)%obind_ret. apply sys_close_cwd in Hc. destruct r1; [|by injection Hd as <- <- _].
    apply dup_into_cwd in Hd. congruence.
  - apply dup_into_cwd.
Qed.

Local Notation open_path :=
  (open_path fs_put_inode MS_RDONLY MS_NOEXEC root uid gid major fops default_fops block_device_fops pipe_operations
     fs_truncate fuel).
Local Notation sys_open :=
  (sys_open fs_find fs_read_inode fs_put_inode MS_RDONLY MS_NOEXEC root uid gid major fops default_fops
     block_device_fops pipe_operations fs_truncate fs_mknod fuel).

Lemma open_path_cwd k t fd p flags k' t' r : open_path k t fd p flags = Ret (k', t', r) → v_cwd t' = v_cwd t.
Proof. unfold FdTable.open_path. intros H. follow H; done. Qed.

Lemma sys_open_cwd k t name flags mode k' t' r : sys_open k t name flags mode = Ret (k', t', r) → v_cwd t' = v_cwd t.
Proof.
  unfold FdTable.sys_open. destruct (free_slot t) as [fd|]; [|by intros [= _ <- _]].
  rewrite <- (reserve_cwd t fd). generalize (reserve t fd) as t1. intros t1.
  intros ((s & [p|e]) & _ & H)%obind_ret; cbv beta iota in H.
  - case_match; [|by apply open_path_cwd in H]. apply obind_ret in H as (s' & _ & [= _ <- _]). apply clear_flags_cwd.
  - case_match; [|injection H as _ <- _; apply clear_flags_cwd].
    apply obind_ret in H as ((k1 & [[]|e']) & _ & H); [|injection H as _ <- _; apply clear_flags_cwd].
    apply obind_ret in H as ((s' & [p|e']) & _ & H); [by apply open_path_cwd in H|].
    injection H as _ <- _. apply clear_flags_cwd.
Qed.

Lemma serve_cwd k t q k' t' : serve k t q = Ret (k', t') → v_cwd t' = v_cwd t.
Proof.
  intros H. destruct q; unfold serve, drop_result, keep in H; apply obind_ret in H as (x & E & H).
  1-4: destruct x as [[k1 t1] r]; injection H as <- <-.
  - by eapply sys_open_cwd.
  - by eapply sys_close_cwd.
  - by eapply sys_dup_cwd.
  - by eapply sys_dup2_cwd.
  - destruct x. by injection H as _ <-.
  - destruct x. by injection H as _ <-.
  - destruct x. by injection H as _ <-.
Qed.

(** * Preservation *)

Context (Hclose : closes fops).

Lemma with_file_ok {A} k t fd (op : Z → outcome (kern * result A)) hf env base hi hm :
  tgood root fuel k t hf env base hi hm →
  (∀ a, a ∈ frefs (v_openvect t) ++ hf → serves root fuel k (frefs (v_openvect t) ++ hf) env base hi hm (op a)) →
  ∃ k', keep t (with_file k t fd op) = Ret (k', t) ∧ tgood root fuel k' t hf env base hi hm.
Proof.
  intros H Hop. pose proof H as [Hk Ht]. unfold with_file, keep. destruct (valid_fd t fd) as [d|] eqn:Ev; [|by exists k].
  apply valid_Some in Ev as [Hs Ho]. destruct (open_some d) as [a Ha]; [by eapply slot_descr_ok|done|]. rewrite Ha.
  destruct (Hop a) as (k' & r & -> & Hk' & _); [|by exists k'].
  apply elem_of_app. left. apply slot_Some in Hs as [_ Hs]. apply list_elem_of_omap. exists d.
  split; [by eapply list_elem_of_lookup_2|done].
Qed.

(** A call of [open] with a name that leads to the bare root entry, or to a
    new entry in it. *)
Definition opens_root (t : tvfs) (q : request) : Prop :=
  ∃ name flags mode, q = ROpen name flags mode ∧
    (at_root fs_put_inode root fuel fs_find fs_read_inode MS_RDONLY MS_NOEXEC uid gid t name WP_DEFAULT
     ∨ at_root fs_put_inode root fuel fs_find fs_read_inode MS_RDONLY MS_NOEXEC uid gid t name WP_PARENT).

(** Every call of a task returns, and keeps the task's view of the kernel in
    order; only opening a name that leads to the bare root faults. *)
Lemma serve_ok k t q hf env base hi hm :
  tgood root fuel k t hf env base hi hm → roomy 30 k (frefs (v_openvect t) ++ hf) base hi hm → cwd_ok root t base hm →
  (4096 <= length (pool (kv k)))%nat →
  (∃ k' t', serve k t q = Ret (k', t') ∧ tgood root fuel k' t' hf env base hi hm)
  ∨ serve k t q = Halt ∧ opens_root t q.
Proof.
  intros H Hr Hcwd Hp. pose proof (roomy_room _ _ _ _ _ Hr) as Hr'. pose proof H as [Hk Ht].
  destruct q as [name flags mode|fd|fd|fd other|fd count|fd buf|fd offset whence]; unfold serve, drop_result.
  - destruct (sys_open_ok fs_put_inode root fuel fops Hclose fs_find fs_read_inode MS_RDONLY MS_NOEXEC uid gid major default_fops
      block_device_fops pipe_operations fs_truncate fs_mknod k t name flags mode hf env base hi hm H Hr Hcwd Hp)
      as [(k' & t' & r & -> & Hg & _)|[-> Hat]]; cbn [obind]; [by eauto|right].
    split; [done|]. by exists name, flags, mode.
  - left. destruct (sys_close_ok fs_put_inode root fuel fops Hclose k t fd hf env base hi hm H Hr') as (k' & t' & r & -> & Hg & _).
    cbn [obind]. eauto.
  - left. destruct (sys_dup_ok root fuel k t fd hf env base hi hm H Hr') as (k' & t' & r & -> & Hg & _).
    cbn [obind]. eauto.
  - left. destruct (sys_dup2_ok fs_put_inode root fuel fops Hclose k t fd other hf env base hi hm H Hr') as (k' & t' & r & -> & Hg & _).
    cbn [obind]. eauto.
  - left. destruct (with_file_ok k t fd (λ a, file_read fops k a count) hf env base hi hm H) as (k' & E & Hg);
      [intros a Ha; by apply file_read_ok|]. unfold sys_read. rewrite E. eauto.
  - left. destruct (with_file_ok k t fd (λ a, file_write fops k a buf) hf env base hi hm H) as (k' & E & Hg);
      [intros a Ha; by apply file_write_ok|]. unfold sys_write. rewrite E. eauto.
  - left. destruct (with_file_ok k t fd (λ a, file_seek fops k a offset whence) hf env base hi hm H) as (k' & E & Hg);
      [intros a Ha; by apply file_seek_ok|]. unfold sys_lseek. rewrite E. eauto.
Qed.

(** The one way a move can fault. *)
Definition faulty y (v : move) : Prop :=
  ∃ i q t, v = MCall i q ∧ y_tasks y !! i = Some t ∧ opens_root t q.

Lemma fork_ok env base hi hm y i j t :
  sys_inv env base hi hm y → ample base hi hm y → y_tasks y !! i = Some t → y_tasks y !! j = None →
  ∃ k d, copy_task_vfs (y_kern y) t = (k, d) ∧ sys_inv env base hi hm (mk_system k (<[j := d]> (y_tasks y)))
    ∧ t_refs d = t_refs t ∧ v_cwd d = v_cwd t.
Proof.
  intros H [Hr _] Hi Hj. destruct (task_view env base hi hm y i t H Hi) as (Ht & Hcwd & Hp).
  destruct (copy_task_vfs_ok root fuel fops Hclose (y_kern y) t _ env _ hi _ Ht) as (k & d & -> & Hk & Htab & Hcw & Hrefs & _).
  { destruct Hr as [Hr ? ? ?]. constructor; [unfold few in *; rewrite Hp|..]; fewer. }
  { destruct Hr as [Hr ? ? ?]. unfold few in *. by rewrite Hp. }
  { done. }
  exists k, d. split; [done|]. split; [|done]. destruct H as [Hk0 Hb Ht0]. constructor; simpl; [|done|].
  - eapply kgood_perm; [..|exact Hk].
    + rewrite collect_insert by done. by rewrite Hp.
    + rewrite collect_insert by done. unfold t_cwd at 2. by rewrite Hcw.
    + rewrite collect_insert by done. unfold t_mount at 2. rewrite Hcw. by rewrite (assoc (++)).
  - intros x tx. rewrite lookup_insert. case_decide; [|eauto]. intros [= <-]. rewrite Hcw. split; [done|]. by eapply Ht0.
Qed.

Lemma exit_ok env base hi hm y i t :
  sys_inv env base hi hm y → ample base hi hm y → y_tasks y !! i = Some t →
  ∃ k t', free_task_vfs fs_put_inode fops fuel (y_kern y) t = Ret (k, t')
    ∧ sys_inv env base hi hm (mk_system k (delete i (y_tasks y))).
Proof.
  intros [Hk Hb Ht] [Hr _] Hi. destruct (Ht i t Hi) as [Htab _].
  destruct (free_task_vfs_ok fs_put_inode root fuel fops Hclose (y_kern y) t (collect t_refs (delete i (y_tasks y))) env
    (collect t_cwd (delete i (y_tasks y)) ++ base) hi (collect t_mount (delete i (y_tasks y)) ++ hm)) as (k & t' & -> & Hk' & _).
  - eapply kgood_perm; [..|exact Hk].
    + by rewrite (collect_delete t_refs _ i t Hi).
    + by rewrite (collect_delete t_cwd _ i t Hi).
    + by rewrite (collect_delete t_mount _ i t Hi), (assoc (++)).
  - done.
  - set_solver.
  - destruct Hr as [H1 H2 H3 H4]. unfold few in *. rewrite !length_app in *.
    rewrite (collect_delete t_refs _ i t Hi), length_app in H1. rewrite (collect_delete t_cwd _ i t Hi) in H2.
    rewrite (collect_delete t_mount _ i t Hi), length_app in H4. unfold t_refs at 1 in H1. simpl in H2.
    constructor; unfold few; rewrite ?length_app; lia.
  - exists k, t'. split; [done|]. constructor; simpl; [done|done|].
    intros x tx. rewrite lookup_delete. case_decide; [done|eauto].
Qed.

Lemma call_sys_ok env base hi hm y i t q :
  sys_inv env base hi hm y → ample base hi hm y → y_tasks y !! i = Some t →
  (∃ k t', serve (y_kern y) t q = Ret (k, t') ∧ sys_inv env base hi hm (mk_system k (<[i := t']> (y_tasks y))))
  ∨ serve (y_kern y) t q = Halt ∧ opens_root t q.
Proof.
  intros H [Hr Hp] Hi. destruct (task_view env base hi hm y i t H Hi) as (Ht & Hcwd & Hperm).
  destruct (serve_ok (y_kern y) t q _ env _ hi _ Ht) with (2 := Hcwd) as [(k & t' & Hs & Hg)|Hh]; [|done| |by right].
  { eapply (roomy_mono 2000); [|lia]. destruct Hr as [Hr ? ? ?]. constructor; try done. unfold few in *. by rewrite Hperm. }
  left. exists k, t'. split; [done|]. eapply task_update; [done|done|by eapply serve_cwd|done].
Qed.

(** ** Consequences for descriptors *)

(** The number of open descriptors of all tasks that name the file at [a]. *)
Definition descriptors y (a : Z) : nat := occ a (collect t_refs (y_tasks y)).

Lemma elem_collect {B} (g : tvfs → list B) m i t x : m !! i = Some t → x ∈ g t → x ∈ collect g m.
Proof. intros Hi Hx. rewrite (collect_delete g m i t Hi). set_solver. Qed.

Lemma advance_ok env base hi hm y v :
  sys_inv env base hi hm y → ample base hi hm y →
  (∃ y', advance y v = Ret y' ∧ sys_inv env base hi hm y') ∨ advance y v = Halt ∧ faulty y v.
Proof.
  intros H Ha. destruct v as [i q|i j|i]; simpl.
  - destruct (y_tasks y !! i) as [t|] eqn:Ei; [|by eauto].
    destruct (call_sys_ok env base hi hm y i t q H Ha Ei) as [(k & t' & -> & Hy)|[-> Hf]]; cbn [obind]; [by eauto|].
    right. split; [done|]. by exists i, q, t.
  - destruct (y_tasks y !! i) as [t|] eqn:Ei; [|by eauto]. destruct (y_tasks y !! j) eqn:Ej; [by eauto|].
    destruct (fork_ok env base hi hm y i j t H Ha Ei Ej) as (k & d & -> & Hy & _). by eauto.
  - destruct (y_tasks y !! i) as [t|] eqn:Ei; [|by eauto].
    destruct (exit_ok env base hi hm y i t H Ha Ei) as (k & t' & -> & Hy). cbn [obind]. by eauto.
Qed.

(** States reached by moves from states with enough memory. *)
Inductive reaches base hi hm y : system → Prop :=
  | reaches_refl : reaches base hi hm y y
  | reaches_move y1 v y2 : reaches base hi hm y y1 → ample base hi hm y1 → advance y1 v = Ret y2 → reaches base hi hm y y2.

Lemma reaches_inv env base hi hm y y' : sys_inv env base hi hm y → reaches base hi hm y y' → sys_inv env base hi hm y'.
Proof.
  intros H. induction 1 as [|y1 v y2 _ IH Ha Hv]; [done|].
  destruct (advance_ok env base hi hm y1 v IH Ha) as [(y' & E & Hy)|[E _]]; congruence.
Qed.

Lemma inv_file env base hi hm y i t fd d :
  sys_inv env base hi hm y → y_tasks y !! i = Some t → valid_fd t fd = Some d →
  ∃ a f, fd_file d = Some a ∧ files (y_kern y) !! a = Some f ∧ f_refs f = Z.of_nat (descriptors y a).
Proof.
  intros [Hk Hb Ht] Hi [Hs Ho]%valid_Some. destruct (Ht i t Hi) as [Htab _].
  destruct (open_some d) as [a Ha]; [by eapply slot_descr_ok|done|].
  assert (Hin : a ∈ collect t_refs (y_tasks y)).
  { eapply elem_collect; [done|]. apply slot_Some in Hs as [_ Hs]. apply list_elem_of_omap. exists d.
    split; [by eapply list_elem_of_lookup_2|done]. }
  destruct (kg_held _ _ _ _ _ _ _ _ Hk a Hin) as [f Hf]. exists a, f.
  split; [done|]. split; [done|]. by destruct (kg_refs _ _ _ _ _ _ _ _ Hk a f Hf).
Qed.

(** * The theorems *)


(** C17: Provided that no [close] operation of a driver fails ([closes]) and that
    every move starts with memory for its objects and no counter near overflow
    ([ample]), in every state tasks can reach by opening, closing, duplicating,
    reading, writing, seeking, forking and exiting a valid descriptor names a
    file that exists, whose count is the number of descriptors that name it,
    and a file that exists is named by some descriptor: files are freed exactly
    when their last descriptor goes. *)
Theorem fd_no_dangling env base hi hm y y' :
  sys_inv env base hi hm y → reaches base hi hm y y' →
  (∀ i t fd d, y_tasks y' !! i = Some t → valid_fd t fd = Some d →
     ∃ a f, fd_file d = Some a ∧ files (y_kern y') !! a = Some f ∧ f_refs f = Z.of_nat (descriptors y' a))
  ∧ ∀ a f, files (y_kern y') !! a = Some f → (0 < descriptors y' a)%nat.
Proof.
  intros H Hr. pose proof (reaches_inv _ _ _ _ _ _ H Hr) as H'. split.
  - intros i t fd d Hi Hv. by eapply inv_file.
  - intros a f Hf. destruct H' as [Hk _ _]. apply occ_elem. by apply (kg_refs _ _ _ _ _ _ _ _ Hk a f Hf).
Qed.

(** A fork followed by the exit of the child undoes the child's references:
    the tasks are the same and every open file has the count it had. *)
Theorem fork_exit_roundtrip env base hi hm y i j t y1 :
  sys_inv env base hi hm y → ample base hi hm y → y_tasks y !! i = Some t → y_tasks y !! j = None →
  advance y (MFork i j) = Ret y1 → ample base hi hm y1 →
  ∃ y2, advance y1 (MExit j) = Ret y2 ∧ y_tasks y2 = y_tasks y ∧ sys_inv env base hi hm y2
    ∧ ∀ a, f_refs <$> files (y_kern y2) !! a = f_refs <$> files (y_kern y) !! a.
Proof.
  intros H Ha Hi Hj Hf Ha1. simpl in Hf. rewrite Hi, Hj in Hf.
  destruct (fork_ok env base hi hm y i j t H Ha Hi Hj) as (k & d & Hc & Hy1 & _). rewrite Hc in Hf. injection Hf as <-.
  simpl. rewrite lookup_insert_eq.
  destruct (exit_ok env base hi hm _ j d Hy1 Ha1) as (k2 & t2 & E & Hy2); [apply lookup_insert_eq|].
  simpl in E, Hy2. rewrite E. cbn [obind]. rewrite delete_insert_id in * by done.
  eexists. split; [done|]. split; [done|]. split; [done|]. intros a. simpl.
  pose proof (si_kern _ _ _ _ _ H) as K1. pose proof (si_kern _ _ _ _ _ Hy2) as K2. simpl in K2.
  destruct (files (y_kern y) !! a) as [f|] eqn:E1, (files k2 !! a) as [f2|] eqn:E2; simpl; [..|done].
  - destruct (kg_refs _ _ _ _ _ _ _ _ K1 a f E1) as [-> _], (kg_refs _ _ _ _ _ _ _ _ K2 a f2 E2) as [-> _]. done.
  - destruct (kg_refs _ _ _ _ _ _ _ _ K1 a f E1) as [_ Hin].
    destruct (kg_held _ _ _ _ _ _ _ _ K2 a Hin). congruence.
  - destruct (kg_refs _ _ _ _ _ _ _ _ K2 a f2 E2) as [_ Hin].
    destruct (kg_held _ _ _ _ _ _ _ _ K1 a Hin). congruence.
Qed.
End System.

(** * A small system *)

Module FdDemo.
(** Operations with nothing but the defaults, for every file. *)
Definition ops (_ : Z) : file_operations (W := unit) := mk_fops None None None None None None None None None.
Definition default (_ : inode) : option Z := Some 7.
Definition trunc (_ : inode) : option (unit → unit * iattr * result unit) := None.
Definition mknod (_ : inode) : option (string → Z → Z → unit → unit * iattr * result unit) := None.
Definition major (d : Z) : Z := Z.shiftr d 8.

Definition table : list file_descr := replicate 1024 (mk_descr None 0).
Definition task : tvfs := mk_tvfs (mk_path 8 (Some 6)) table.
Definition kernel (n : nat) : kern (W := unit) := mk_kern (Demo.state n) ∅ ∅ (seqZ 10000 100).
Definition start (n : nat) : system := mk_system (kernel n) {[ 1 := task ]}.

Definition step (fuel : nat) (y : system) (v : move) : outcome system :=
  advance Demo.put 1 ops fuel Demo.find Demo.read 1 8 1000 1000 major default 3 4 trunc mknod y v.

Lemma ops_close : closes ops.
Proof. by intros o m w n io. Qed.

Lemma table_refs n : frefs (replicate n (mk_descr None 0)) = [].
Proof. induction n as [|n IH]; [done|]. simpl. by rewrite <- IH. Qed.

Lemma collect_task {B} (g : tvfs → list B) : collect g {[ 1 := task ]} = g task.
Proof. unfold collect. rewrite map_to_list_singleton. simpl. by rewrite app_nil_r. Qed.

Lemma start_inv n fuel : (n + 2 < fuel)%nat → Z.of_nat n < 2147483000 → sys_inv 1 fuel [1; 8] [1; 8; 1] [] [] (start n).
Proof.
  intros Hfuel Hn. constructor; simpl.
  - rewrite !collect_task. unfold t_refs, t_cwd, t_mount, task, table. cbn [v_openvect v_cwd p_dentry p_mount option_list app].
    rewrite table_refs. constructor; simpl; try done.
    + eapply good_perm; [| |apply Demo.state_good; lia]; [|done]. unfold Demo.base. solve_Permutation.
    + constructor; intros; try by eapply (Demo.state_env n).
      * destruct (eo_mount _ _ _ (Demo.state_env n) d e mp) as (point & m & b & H1); [done..|].
        exists point, m, b. unfold Demo.base in H1. set_solver.
      * destruct (eo_rooted _ _ _ (Demo.state_env n) d e) as [H1 H2]; [done..|]. unfold Demo.base in H1. set_solver.
    + split; [by left|set_solver].
    + unfold capacity. simpl pool. rewrite length_seqZ, Nat2Z.id. change (size _) with 2%nat. lia.
    + intros a. by rewrite elem_of_nil.
    + split; [apply NoDup_seqZ|]. intros a _. apply lookup_empty.
  - set_solver.
  - intros i t. rewrite lookup_singleton_Some. intros [<- <-]. split; [|done]. split; simpl.
    + done.
    + apply Forall_replicate. done.
Qed.

Lemma start_ample n : (4096 <= n)%nat → ample [1; 8; 1] [] [] (start n).
Proof.
  intros Hn. constructor; simpl.
  - rewrite !collect_task. unfold t_refs, t_cwd, t_mount, task, table. cbn [v_openvect v_cwd p_dentry p_mount option_list app].
    rewrite table_refs. constructor; vm_compute; done.
  - simpl pool. rewrite length_seqZ. lia.
Qed.
End FdDemo.

(** That a computation returns is seen without its state. *)
Definition returns {A} (c : outcome A) : bool := match c with Ret _ => true | _ => false end.
Definition state_or {A} (d : A) (c : outcome A) : A := match c with Ret a => a | _ => d end.
Lemma returns_state {A} (d : A) (c : outcome A) : returns c = true → c = Ret (state_or d c).
Proof. by destruct c. Qed.
Lemma some_default {A} (d : A) (o : option A) : bool_decide (is_Some o) = true → o = Some (default d o).
Proof. intros [x ->]%bool_decide_eq_true. done. Qed.

Module FdForked.
Definition fuel : nat := Z.to_nat 6000.
Definition before : system := FdDemo.start (Z.to_nat 5000).

(** The small system after task 1 forked task 2. *)
Definition after : system :=
  match FdDemo.step fuel before (MFork 1 2) with Ret y => y | _ => before end.

Lemma forks : FdDemo.step fuel before (MFork 1 2) = Ret after.
Proof. vm_cast_no_check (eq_refl (Ret after)). Qed.

Lemma before_ample : ample [1; 8; 1] [] [] before.
Proof. apply FdDemo.start_ample. lia. Qed.

Lemma before_inv : sys_inv 1 fuel [1; 8] [1; 8; 1] [] [] before.
Proof. apply FdDemo.start_inv; unfold fuel; lia. Qed.

Lemma after_ample : ample [1; 8; 1] [] [] after.
Proof.
  constructor.
  - constructor; unfold few; apply Z.ltb_lt; vm_cast_no_check (eq_refl true).
  - apply Nat.leb_le. vm_cast_no_check (eq_refl true).
Qed.
End FdForked.

(** Task 1 opens [f] and forks task 2. *)
Module FdShared.
Definition opened : system := state_or FdForked.before (FdDemo.step FdForked.fuel FdForked.before (MCall 1 (ROpen (Some "f") 0 0))).
Definition shared : system := state_or opened (FdDemo.step FdForked.fuel opened (MFork 1 2)).
Definition child : tvfs := default FdDemo.task (y_tasks shared !! 2).
Definition descr0 : file_descr := default (mk_descr None 0) (valid_fd child 0).

Lemma opens : FdDemo.step FdForked.fuel FdForked.before (MCall 1 (ROpen (Some "f") 0 0)) = Ret opened.
Proof. apply returns_state. vm_cast_no_check (eq_refl true). Qed.
Lemma shares : FdDemo.step FdForked.fuel opened (MFork 1 2) = Ret shared.
Proof. apply returns_state. vm_cast_no_check (eq_refl true). Qed.
Lemma opened_ample : ample [1; 8; 1] [] [] opened.
Proof.
  constructor.
  - constructor; unfold few; apply Z.ltb_lt; vm_cast_no_check (eq_refl true).
  - apply Nat.leb_le. vm_cast_no_check (eq_refl true).
Qed.
Lemma child_there : y_tasks shared !! 2 = Some child.
Proof. apply some_default. vm_cast_no_check (eq_refl true). Qed.
Lemma descr_valid : valid_fd child 0 = Some descr0.
Proof. apply some_default. vm_cast_no_check (eq_refl true). Qed.
Lemma two_names : match fd_file descr0 with Some a => Z.of_nat (descriptors shared a) | None => 0 end = 2.
Proof. vm_cast_no_check (eq_refl 2). Qed.
End FdShared.


(** [fd_no_dangling] there: the descriptor of the child names the file the
    parent opened, whose count is 2. *)
Lemma fd_no_dangling_witness :
  ∃ a f, fd_file FdShared.descr0 = Some a ∧ files (y_kern FdShared.shared) !! a = Some f ∧ f_refs f = 2
    ∧ (0 < descriptors FdShared.shared a)%nat.
Proof.
  destruct (fd_no_dangling Demo.put 1 FdDemo.ops FdForked.fuel Demo.find Demo.read 1 8 1000 1000 FdDemo.major FdDemo.default
    3 4 FdDemo.trunc FdDemo.mknod FdDemo.ops_close [1; 8] [1; 8; 1] [] [] FdForked.before FdShared.shared) as [H1 H2].
  - apply FdForked.before_inv.
  - eapply reaches_move with (v := MFork 1 2); [|apply FdShared.opened_ample|exact FdShared.shares].
    eapply reaches_move; [apply reaches_refl|apply FdForked.before_ample|exact FdShared.opens].
  - destruct (H1 2 FdShared.child 0 FdShared.descr0 FdShared.child_there FdShared.descr_valid) as (a & f & Ha & Hf & Hr).
    exists a, f. split; [exact Ha|]. split; [exact Hf|]. split; [|exact (H2 a f Hf)].
    pose proof FdShared.two_names as H. rewrite Ha in H. rewrite Hr. exact H.
Defined.

(** [fork_exit_roundtrip] for the small system. *)
Lemma fork_exit_roundtrip_witness :
  ∃ y2, FdDemo.step FdForked.fuel FdForked.after (MExit 2) = Ret y2 ∧ y_tasks y2 = y_tasks FdForked.before
    ∧ sys_inv 1 FdForked.fuel [1; 8] [1; 8; 1] [] [] y2
    ∧ ∀ a, f_refs <$> files (y_kern y2) !! a = f_refs <$> files (y_kern FdForked.before) !! a.
Proof.
  apply (fork_exit_roundtrip Demo.put 1 FdDemo.ops FdForked.fuel Demo.find Demo.read 1 8 1000 1000 FdDemo.major
    FdDemo.default 3 4 FdDemo.trunc FdDemo.mknod FdDemo.ops_close [1; 8] [1; 8; 1] [] [] FdForked.before 1 2 FdDemo.task
    FdForked.after).
  - apply FdForked.before_inv.
  - apply FdForked.before_ample.
  - reflexivity.
  - reflexivity.
  - apply FdForked.forks.
  - apply FdForked.after_ample.
Defined.

(** * What the calls do wrong *)

(** Opening [/..] uses the inode of the bare root entry, which has none. *)
Theorem open_parent_of_root_faults :
  FdDemo.step 200 (FdDemo.start 20) (MCall 1 (ROpen (Some "/..") 0 0)) = Halt.
Proof. vm_compute. reflexivity. Qed.

(** The count of a file is lowered before the driver is asked to close it: when
    it refuses, the file stays with count 0, and so does the descriptor. *)
Theorem failed_close_dangles {W} (put : W → Z → Z → W) (fops : Z → file_operations (W := W)) (fuel : nat) k t fd d a f m e i node :
  valid_fd t fd = Some d → fd_file d = Some a → files k !! a = Some f → f_refs f = 1 →
  fo_close (fops (f_ops f)) = Some m → (∀ w n io, (m w n io tt).2 = Err e) → inode_ptr (kv k) (p_dentry (f_path f)) = Some i → inodes (kv k) !! i = Some node →
  ∃ k' f', sys_close put fops fuel k t fd = Ret (k', t, Err e)
    ∧ files k' !! a = Some f' ∧ f_refs f' = 0 ∧ valid_fd t fd = Some d.
Proof.
  intros Hv Hd Hf Hr Hc He Hi Hn. unfold sys_close. rewrite Hv, Hd. unfold file_close. rewrite Hf, Hr, Hc. change (s32 (1 - 1)) with 0.
  cbn [Z.ltb Z.compare]. unfold call. cbn [with_files files kv]. rewrite lookup_insert_eq. cbn [set_frefs f_path]. rewrite Hi, Hn.
  specialize (He (fsw (kv k)) node (f_io (set_frefs 0 f))). destruct (m _ _ _ _) as [[[w attr] io] r]. cbn [snd] in He. subst r.
  cbn [obind]. eexists _, _. split; [reflexivity|]. cbn [files with_files with_kv]. split; [apply lookup_insert_eq|]. done.
Qed.

(** A descriptor duplicated onto itself is closed; [sys_dup2] still returns it. *)
Theorem dup2_self_closes {W} (put : W → Z → Z → W) (root : Z) (fops : Z → file_operations) (fuel : nat)
    k t fd hf env base hi hm d :
  closes fops → tgood root fuel k t hf env base hi hm → troom k t hf base hi hm → valid_fd t fd = Some d →
  ∃ k' t', sys_dup2 put fops fuel k t fd fd = Ret (k', t', Ok fd) ∧ valid_fd t' fd = None.
Proof.
  intros Hc H Hr Hv. pose proof Hv as [Hs _]%valid_Some. apply slot_Some in Hs as [Hrange _].
  unfold sys_dup2. rewrite Hv, (proj2 (Z.eqb_neq fd (-1))) by lia.
  rewrite (proj2 (Z.leb_gt _ _)), (proj2 (Z.ltb_ge _ _)) by lia. cbn [orb].
  destruct (dup_over_ok put root fuel fops Hc k t fd d fd d hf env base hi hm H Hr) as (k' & t' & [n|e] & -> & _ & Hd);
    [by apply valid_Some|done| |done].
  destruct Hd as [<- [Hd _]]. rewrite Z.eqb_refl in Hd. eauto.
Qed.

(** Without an operation of the driver, seeking sets the offset but returns 0,
    not the new offset. *)
Theorem seek_returns_zero {W} (fops : Z → file_operations (W := W)) k a f offset :
  files k !! a = Some f → fo_lseek (fops (f_ops f)) = None →
  file_seek fops k a offset SEEK_SET = Ret (update k a (set_off offset), Ok 0).
Proof. intros Hf Hl. unfold file_seek. by rewrite Hf, Hl. Qed.

(** [file_readdir] takes a block device for a directory: its type bits contain
    those of a directory. *)
Theorem readdir_accepts_block_device : is_type (Z.land S_IFBLK S_IFDIR) S_IFDIR = true.
Proof. reflexivity. Qed.
