(* ===== verification/VfsCalls.v ===== *)
(** System calls on path names: [sys_access], [sys_chmod], [sys_chown],
    [sys_unlink], [sys_chdir] and [sys_getcwd] of [src/kernel/src/fs.c].  Each
    resolves a name, works on the inode found and releases the path; the
    theorems say that no reference is lost or added, and that a working
    directory name fits its buffer.  [NOID] is the value [(uid_t)-1]. *)

From Stdlib Require Import Ascii.
From stdpp Require Import strings.
From S2P Require Import Prelude Dcache DcacheInv PathLookup File FileInv FdTable FdInv.

Section Calls.
Context {W : Type} (fs_put_inode : W → Z → Z → W) (root : Z) (fuel : nat).
Context (fs_find : W → Z → Z → string → result Z) (fs_read_inode : W → Z → Z → W * result iattr).
Context (MS_RDONLY MS_NOEXEC uid gid NOID : Z).
Context (fs_chmod : inode → option (Z → W → W * iattr * result unit)).
Context (fs_chown : inode → option (Z → Z → W → W * iattr * result unit)).
Context (fs_unlink : inode → option (Z → W → W * iattr * result unit)).

Local Notation path_put := (path_put fs_put_inode fuel).
Local Notation path_access := (path_access MS_RDONLY MS_NOEXEC root uid gid).
Local Notation path_lookup := (path_lookup fs_find fs_read_inode fs_put_inode MS_RDONLY MS_NOEXEC root uid gid fuel).

(** Looking a name up, working on the path, releasing it. *)
Definition on_path {A} (k : kern (W := W)) (t : tvfs) (name : option string)
    (work : vfs (W := W) → path → outcome (vfs (W := W) * result A)) : outcome (kern (W := W) * result A) :=
  ' (s, r) <~ path_lookup (kv k) (v_cwd t) name WP_DEFAULT ;;
  match r with
  | Err e => Ret (with_kv k s, Err e)
  | Ok p =>
      ' (s, r) <~ work s p ;;
      s <~ path_put s p ;;
      Ret (with_kv k s, r)
  end.

(** The inode of a path; using the one of an entry that has none faults. *)
Definition on_inode {A} (s : vfs (W := W)) (d : Z) (work : Z → inode → vfs (W := W) * result A) :
    outcome (vfs (W := W) * result A) :=
  match inode_ptr s d with
  | None => Halt
  | Some i => match inodes s !! i with
              | None => Halt
              | Some node => Ret (work i node)
              end
  end.

Definition sys_access (k : kern) (t : tvfs) (name : option string) (mode : Z) : outcome (kern * result unit) :=
  on_path k t name (λ s p, r <~ path_access s p mode ;; Ret (s, r)).

Definition set_mode (mode : Z) (a : iattr) : iattr :=
  mk_iattr (Z.lor (Z.land (i_mode a) S_IFMT) (Z.land mode (Z.lnot S_IFMT))) (i_uid a) (i_gid a) (i_size a) (i_dev a) (i_lookup a).

Definition set_owner (owner group : Z) (a : iattr) : iattr :=
  mk_iattr (i_mode a) (if owner =? NOID then i_uid a else owner) (if group =? NOID then i_gid a else group)
    (i_size a) (i_dev a) (i_lookup a).

Definition sys_chmod (k : kern) (t : tvfs) (name : option string) (mode : Z) : outcome (kern * result unit) :=
  on_path k t name (λ s p, on_inode s (p_dentry p) (λ i node,
    match fs_chmod node with
    | Some op => let '(w, a, r) := op mode (fsw s) in (put_attr s i w a, r)
    | None => (put_attr s i (fsw s) (set_mode mode (i_attr node)), Ok tt)
    end)).

Definition sys_chown (k : kern) (t : tvfs) (name : option string) (owner group : Z) : outcome (kern * result unit) :=
  if negb (owner =? NOID) && negb (uid =? 0) then Ret (k, Err EPERM)
  else on_path k t name (λ s p, on_inode s (p_dentry p) (λ i node,
    match fs_chown node with
    | Some op => let '(w, a, r) := op owner group (fsw s) in (put_attr s i w a, r)
    | None => (put_attr s i (fsw s) (set_owner owner group (i_attr node)), Ok tt)
    end)).

(** The operation of the parent's inode gets the entry to remove. *)
Definition sys_unlink (k : kern) (t : tvfs) (name : option string) : outcome (kern * result unit) :=
  on_path k t name (λ s p,
    match dentries s !! p_dentry p with
    | None => Halt
    | Some e =>
        match d_parent e with
        | None => Ret (s, Err EINVAL)
        | Some parent =>
            match inode_ptr s parent with
            | None => Ret (s, Err EINVAL)
            | Some _ => on_inode s parent (λ i node,
                match fs_unlink node with
                | None => (s, Err ENOSYS)
                | Some op => let '(w, a, r) := op (p_dentry p) (fsw s) in (put_attr s i w a, r)
                end)
            end
        end
    end).

(** The new working directory is copied from the path that was found; that
    path is not released. *)
Definition sys_chdir (k : kern) (t : tvfs) (name : option string) : outcome (kern * tvfs * result unit) :=
  ' (s, r) <~ path_lookup (kv k) (v_cwd t) name WP_DEFAULT ;;
  match r with
  | Err e => Ret (with_kv k s, t, Err e)
  | Ok p =>
      match inode_of s (p_dentry p) with
      | None => Halt
      | Some node =>
          if negb (is_type (i_mode (i_attr node)) S_IFDIR) then
            s <~ path_put s p ;; Ret (with_kv k s, t, Err ENOTDIR)
          else
            s <~ path_put s (v_cwd t) ;;
            let '(s, cwd) := path_copy s p in
            Ret (with_kv k s, mk_tvfs cwd (v_openvect t), Ok tt)
      end
  end.

(** Whether [_build_path] adds a slash behind a name: an entry without an
    inode, or a directory. *)
Definition slash_after (s : vfs (W := W)) (e : dentry) : option bool :=
  match d_inode e with
  | None => Some true
  | Some i => match inodes s !! i with
              | None => None
              | Some node => Some (is_type (i_mode (i_attr node)) S_IFDIR)
              end
  end.

(** The memory behind the buffer of [sys_getcwd]: a byte per address.  [strcpy]
    stores a name and its terminating zero. *)
Definition code (c : ascii) : Z := Z.of_nat (nat_of_ascii c).
Definition put_byte (m : Z → Z) (a v : Z) : Z → Z := λ x, if x =? u32 a then v else m x.

Fixpoint strcpy (m : Z → Z) (a : Z) (text : string) : Z → Z :=
  match text with
  | EmptyString => put_byte m a 0
  | String c text => strcpy (put_byte m a (code c)) (a + 1) text
  end.

(** The second half of [_build_path]: the name goes to [buf] if the bytes up to
    [last] suffice; the result has the memory and [buf] behind the name, on the
    error paths too. *)
Definition write_name (s : vfs (W := W)) (e : dentry) (m : Z → Z) (buf last : Z) : outcome ((Z → Z) * Z * result unit) :=
  let len := Z.of_nat (String.length (d_name e)) in
  if u32 (last - buf) <? len then Ret (m, buf, Err ENAMETOOLONG)
  else
    let m := strcpy m buf (d_name e) in
    let buf := u32 (buf + len) in
    match slash_after s e with
    | None => Halt
    | Some true =>
        if u32 (last - buf) =? 0 then Ret (m, buf, Err ENAMETOOLONG)
        else Ret (put_byte m buf (code "/"), u32 (buf + 1), Ok tt)
    | Some false => Ret (m, buf, Ok tt)
    end.

Fixpoint build_path (n : nat) (s : vfs (W := W)) (dotdot : bool) (m : Z → Z) (buf last : Z) (d : Z) :
    outcome ((Z → Z) * Z * result unit) :=
  match n with
  | O => OutOfFuel
  | S n =>
      match dentries s !! d with
      | None => Halt
      | Some e =>
          match d_parent e with
          | None => write_name s e m buf last
          | Some parent =>
              ' (m, buf, r) <~ build_path n s (String.eqb (d_name e) "..") m buf last parent ;;
              match r with
              | Err err => Ret (m, buf, Err err)
              | Ok _ =>
                  if String.eqb (d_name e) "." || dotdot || String.eqb (d_name e) ".." then Ret (m, buf, Ok tt)
                  else write_name s e m buf last
              end
          end
      end
  end.

(** [last] is [&buf[len-2]]. *)
Definition sys_getcwd (k : kern (W := W)) (t : tvfs) (m : Z → Z) (buf len : Z) : outcome ((Z → Z) * result unit) :=
  ' (m, buf, r) <~ build_path fuel (kv k) false m buf (u32 (buf + len - 2)) (p_dentry (v_cwd t)) ;;
  match r with
  | Err e => Ret (m, Err e)
  | Ok _ => Ret (put_byte m buf 0, Ok tt)
  end.

(** * References *)

Implicit Types (k : kern (W := W)) (t : tvfs) (refs env base hi hm : list Z).
Local Notation at_root := (at_root fs_put_inode root fuel fs_find fs_read_inode MS_RDONLY MS_NOEXEC uid gid).
Local Notation found := (found root fuel).

(** A call returns with all references as before, or faults at the bare root. *)
Definition balanced {A} k t name refs env base hi hm (c : outcome (kern (W := W) * result A)) : Prop :=
  (∃ k' r, c = Ret (k', r) ∧ kgood root fuel k' refs env base hi hm ∧ files k' = files k)
  ∨ c = Halt ∧ at_root t name WP_DEFAULT.

Lemma on_path_ok {A} k t name (work : vfs → path → outcome (vfs * result A)) refs env base hi hm :
  kgood root fuel k refs env base hi hm → roomy 30 k refs base hi hm → cwd_ok root t base hm →
  (1024 <= length (pool (kv k)))%nat →
  (∀ s p, found k refs env base hi hm s (Ok p) →
     (∃ s' r, work s p = Ret (s', r) ∧ found k refs env base hi hm s' (Ok p)) ∨ work s p = Halt ∧ p_dentry p = root) →
  balanced k t name refs env base hi hm (on_path k t name work).
Proof.
  intros Hk Hr Hcwd Hp Hw. pose proof (kg_sub _ _ _ _ _ _ _ _ Hk) as [_ Hsub]. unfold on_path.
  destruct (lookup_ok fs_put_inode root fuel fs_find fs_read_inode MS_RDONLY MS_NOEXEC uid gid k refs env base
    hi hm t name WP_DEFAULT Hk (roomy_room _ _ _ _ _ Hr) Hcwd Hp) as (s & [p|e] & El & Hf & _); rewrite El; cbn [obind].
  2: { left. eexists _, _. by split. }
  destruct (Hw s p Hf) as [(s' & r & -> & Hf')|[-> Hroot]]; cbn [obind].
  - destruct (put_found fs_put_inode root fuel k s' refs env base hi hm p Hf' Hsub Hr) as (s'' & -> & Hk' & _).
    cbn [obind]. left. eexists _, _. by split.
  - right. split; [done|]. by exists (kv k), s, p.
Qed.

(** Working on the inode of the path or of its parent. *)
Lemma on_inode_ok {A} k s p d (work : Z → inode → vfs * result A) refs env base hi hm :
  found k refs env base hi hm s (Ok p) → is_Some (dentries s !! d) → d ≠ root →
  (∀ i node, inodes s !! i = Some node → ∃ w a r, work i node = (s, r) ∨ work i node = (put_attr s i w a, r)) →
  ∃ s' r, on_inode s d work = Ret (s', r) ∧ found k refs env base hi hm s' (Ok p).
Proof.
  intros Hf [e Hd] Hne Hw. pose proof Hf as [Hk _]. pose proof Hk as [Hg He _ _ _ _ _ _]. cbn [kv with_kv] in Hg, He.
  destruct (eo_inode _ _ _ He d e Hd Hne) as [i Hi].
  destruct (ct_inode _ _ _ (gd_counted _ _ _ _ Hg) d e i Hd Hi) as [node Hn].
  unfold on_inode, inode_ptr. rewrite Hd, Hi, Hn. destruct (Hw i node Hn) as (w & a & r & [->| ->]); [by eauto|].
  eexists _, _. split; [done|]. apply found_attr; [done|]. by eexists.
Qed.

Lemma found_entry k s p refs env base hi hm :
  found k refs env base hi hm s (Ok p) → is_Some (dentries s !! p_dentry p).
Proof.
  intros [Hk _]. apply (ct_held _ _ _ (gd_counted _ _ _ _ (kg_good _ _ _ _ _ _ _ _ Hk))). set_solver.
Qed.

Lemma found_root k s refs env base hi hm p :
  found k refs env base hi hm s (Ok p) → p_dentry p = root → inode_ptr s (p_dentry p) = None.
Proof.
  intros [Hk _] ->. unfold inode_ptr. destruct (dentries s !! root) as [e|] eqn:E; [|done].
  by destruct (eo_root _ _ _ (kg_env _ _ _ _ _ _ _ _ Hk) e E) as [-> _].
Qed.

(** The calls that change nothing but an inode. *)
Inductive path_call : Type :=
  | PAccess (mode : Z)
  | PChmod (mode : Z)
  | PChown (owner group : Z)
  | PUnlink.

Definition run_call k t (name : option string) (c : path_call) : outcome (kern (W := W) * result unit) :=
  match c with
  | PAccess mode => sys_access k t name mode
  | PChmod mode => sys_chmod k t name mode
  | PChown owner group => sys_chown k t name owner group
  | PUnlink => sys_unlink k t name
  end.

(** Work on the inode of the path itself. *)
Lemma on_own_inode {A} k s p (work : Z → inode → vfs * result A) refs env base hi hm :
  found k refs env base hi hm s (Ok p) →
  (∀ i node, inodes s !! i = Some node → ∃ w a r, work i node = (s, r) ∨ work i node = (put_attr s i w a, r)) →
  (∃ s' r, on_inode s (p_dentry p) work = Ret (s', r) ∧ found k refs env base hi hm s' (Ok p))
  ∨ on_inode s (p_dentry p) work = Halt ∧ p_dentry p = root.
Proof.
  intros Hf Hw. destruct (decide (p_dentry p = root)) as [E|E].
  - right. split; [|done]. unfold on_inode. by rewrite (found_root _ _ _ _ _ _ _ _ Hf E).
  - left. apply (on_inode_ok k s p); [done|by eapply found_entry|done|done].
Qed.

(** [access], [chmod], [chown] and [unlink] return for every name and argument
    and leave every reference count as it was: each releases the path it
    resolved on every way out.  Only [chmod] and [chown] of the bare root
    entry fault, on the inode it does not have. *)
Theorem path_calls_balanced k t name c refs env base hi hm :
  kgood root fuel k refs env base hi hm → roomy 30 k refs base hi hm → cwd_ok root t base hm →
  (1024 <= length (pool (kv k)))%nat →
  balanced k t name refs env base hi hm (run_call k t name c).
Proof.
  intros Hk Hr Hcwd Hp. destruct c as [mode|mode|owner group|]; simpl.
  - apply on_path_ok; [done..|]. intros s p Hf. left. pose proof Hf as [Hk' Hfine].
    destruct (path_access_found root MS_RDONLY MS_NOEXEC uid gid s _ env hi _ p mode (kg_good _ _ _ _ _ _ _ _ Hk')
      (kg_env _ _ _ _ _ _ _ _ Hk')) as [r ->]; [set_solver|done|]. cbn [obind]. eauto.
  - apply on_path_ok; [done..|]. intros s p Hf. apply on_own_inode; [done|]. intros i node Hn.
    destruct (fs_chmod node) as [op|]; [|by eauto 10]. destruct (op mode (fsw s)) as [[w a] r]. eauto 10.
  - unfold sys_chown. case_if; [by left; eexists _, _|]. apply on_path_ok; [done..|]. intros s p Hf.
    apply on_own_inode; [done|]. intros i node Hn.
    destruct (fs_chown node) as [op|]; [|by eauto 10]. destruct (op owner group (fsw s)) as [[w a] r]. eauto 10.
  - apply on_path_ok; [done..|]. intros s p Hf. left. destruct (found_entry _ _ _ _ _ _ _ _ Hf) as [e He]. rewrite He.
    destruct (d_parent e) as [q|] eqn:Eq; [|by eauto]. destruct (inode_ptr s q) as [iq|] eqn:Ei; [|by eauto].
    apply (on_inode_ok k s p); [done| | |].
    + unfold inode_ptr in Ei. destruct (dentries s !! q); [by eexists|done].
    + intros ->. destruct Hf as [Hk' _]. by apply (eo_child _ _ _ (kg_env _ _ _ _ _ _ _ _ Hk') (p_dentry p) e).
    + intros i node Hn. destruct (fs_unlink node) as [op|]; [|exists (fsw s), (i_attr node), (Err ENOSYS); by left].
      destruct (op (p_dentry p) (fsw s)) as [[w a] r]. eauto 10.
Qed.

(** * The working directory *)

(** [sys_chdir] copies the path it resolved into the working directory but
    does not release it: after a change of directory the entry and its mount
    are held twice for the one working directory that names them. *)
Theorem chdir_leaks k t name refs env base hi hm k' t' :
  kgood root fuel k refs env (p_dentry (v_cwd t) :: base) hi (option_list (p_mount (v_cwd t)) ++ hm) →
  env ⊆ base → roomy 60 k refs base hi hm → (p_dentry (v_cwd t) = root → p_mount (v_cwd t) = None) →
  (1024 <= length (pool (kv k)))%nat → sys_chdir k t name = Ret (k', t', Ok tt) →
  let p := v_cwd t' in
  kgood root fuel k' refs env (p_dentry p :: p_dentry p :: base) hi (option_list (p_mount p) ++ option_list (p_mount p) ++ hm).
Proof.
  intros Hk Hsub Hr Hroot Hp Hc. unfold sys_chdir in Hc.
  assert (Hr' : roomy 30 k refs (p_dentry (v_cwd t) :: base) hi (option_list (p_mount (v_cwd t)) ++ hm))
    by (destruct Hr; constructor; fewer).
  destruct (lookup_ok fs_put_inode root fuel fs_find fs_read_inode MS_RDONLY MS_NOEXEC uid gid k refs env _ hi _
    t name WP_DEFAULT Hk (roomy_room _ _ _ _ _ Hr')) as (s & [p|e] & El & Hf & _).
  { split; [by left|]. split; [|done]. intros m ->. by left. }
  { done. }
  2: { rewrite El in Hc. done. }
  rewrite El in Hc. cbn [obind] in Hc. destruct Hf as [Hk1 Hfine].
  destruct (inode_of s (p_dentry p)) as [node|]; [|done]. case_match; [by apply obind_ret in Hc as (? & _ & ?)|].
  destruct (kgood_path_put fs_put_inode root fuel (with_kv k s) refs env (p_dentry p :: base) hi (option_list (p_mount p) ++ hm) (v_cwd t))
    as (s2 & Hput & Hk2 & _).
  { eapply kgood_perm; [| | |done]; solve_Permutation. }
  { set_solver. }
  { destruct Hr. constructor; cbn [files with_kv]; fewer. }
  cbn [kv with_kv] in Hput. rewrite Hput in Hc. cbn [obind] in Hc.
  assert (Hfine2 : path_fine root s2 p).
  { split; [apply Hfine|]. intros m Hm. apply (gd_mheld _ _ _ _ (kg_good _ _ _ _ _ _ _ _ Hk2)). rewrite Hm. set_solver. }
  destruct (kgood_path_copy root fuel _ refs env _ hi _ p Hk2) as (s3 & Hcp & Hk3 & _).
  { destruct Hr. constructor; cbn [files with_kv]; fewer. }
  { by left. }
  { done. }
  cbn [kv with_kv] in Hcp. rewrite Hcp in Hc. injection Hc as <- <-. exact Hk3.
Qed.

(** The entries from [d] up to one without a parent. *)
Inductive chain (s : vfs (W := W)) : Z → list dentry → Prop :=
  | chain_last d e : dentries s !! d = Some e → d_parent e = None →
      (∀ i, d_inode e = Some i → is_Some (inodes s !! i)) → chain s d [e]
  | chain_next d e p l : dentries s !! d = Some e → d_parent e = Some p →
      (∀ i, d_inode e = Some i → is_Some (inodes s !! i)) → chain s p l → chain s d (e :: l).

(** The name of a directory, as a pure text: the names from the top down, each
    directory with a slash, without [.] and [..] and without a name right
    below which [..] was taken. *)
Definition name_text (s : vfs (W := W)) (e : dentry) : string :=
  if decide (slash_after s e = Some true) then String.append (d_name e) "/" else d_name e.

Fixpoint cwd_text (s : vfs (W := W)) (below : string) (l : list dentry) : string :=
  match l with
  | [] => ""
  | [e] => name_text s e
  | e :: l =>
      String.append (cwd_text s (d_name e) l)
        (if String.eqb (d_name e) "." || String.eqb below ".." || String.eqb (d_name e) ".." then "" else name_text s e)
  end.

(** A text in memory, without the zero behind it. *)
Fixpoint text_at (m : Z → Z) (a : Z) (text : string) : Prop :=
  match text with
  | EmptyString => True
  | String c text => m a = code c ∧ text_at m (a + 1) text
  end.

Local Abbreviation len text := (Z.of_nat (String.length text)).

Lemma len_append (a b : string) : len (String.append a b) = len a + len b.
Proof. rewrite <- Nat2Z.inj_add. f_equal. induction a as [|c a IH]; [done|]. simpl. by rewrite IH. Qed.

Lemma text_at_frame m m' a text : (∀ x, a <= x < a + len text → m' x = m x) → text_at m a text → text_at m' a text.
Proof.
  revert a. induction text as [|c text IH]; intros a Hm; [done|]. cbn [text_at String.length] in *. intros [Hc Ht].
  split; [rewrite Hm by lia; done|]. apply IH; [|done]. intros x Hx. apply Hm. lia.
Qed.

Lemma text_at_append m a (t u : string) : text_at m a t → text_at m (a + len t) u → text_at m a (String.append t u).
Proof.
  revert a. induction t as [|c t IH]; intros a Ht Hu; [by rewrite Z.add_0_r in Hu|].
  change (String.append (String c t) u) with (String c (String.append t u)). cbn [text_at String.length] in *.
  destruct Ht as [? Ht]. split; [done|]. apply IH; [done|]. by replace (a + 1 + len t) with (a + Z.of_nat (S (String.length t))) by lia.
Qed.

Lemma put_byte_ne m a v x : 0 <= a < 4294967296 → x ≠ a → put_byte m a v x = m x.
Proof. intros Ha Hx. unfold put_byte. rewrite u32_small by done. by destruct (Z.eqb_spec x a). Qed.

Lemma put_byte_eq m a v : 0 <= a < 4294967296 → put_byte m a v a = v.
Proof. intros Ha. unfold put_byte. by rewrite u32_small, Z.eqb_refl. Qed.

Lemma strcpy_frame m a text x : 0 <= a → a + len text < 4294967296 → ¬ (a <= x <= a + len text) → strcpy m a text x = m x.
Proof.
  revert m a. induction text as [|c text IH]; intros m a Ha Hl Hx; cbn [strcpy String.length] in *; [apply put_byte_ne; lia|].
  rewrite IH by lia. apply put_byte_ne; lia.
Qed.

Lemma strcpy_text m a text : 0 <= a → a + len text < 4294967296 → text_at (strcpy m a text) a text.
Proof.
  revert m a. induction text as [|c text IH]; intros m a Ha Hl; [done|]. cbn [strcpy text_at String.length] in *.
  split; [|apply IH; lia]. rewrite strcpy_frame by lia. apply put_byte_eq. lia.
Qed.

(** Writing [text] between [buf] and [last]: it is there when there is room, and
    no other byte is touched either way. *)
Definition wrote (m : Z → Z) (buf last : Z) (text : string) (c : outcome ((Z → Z) * Z * result unit)) : Prop :=
  ∃ m' buf', (∀ x, ¬ (buf <= x <= last) → m' x = m x)
    ∧ if len text <=? last - buf then c = Ret (m', buf', Ok tt) ∧ buf' = buf + len text ∧ text_at m' buf text
      else c = Ret (m', buf', Err ENAMETOOLONG).

Lemma write_name_ok (s : vfs (W := W)) e m buf last :
  0 <= buf <= last → last < 4294967296 → (∀ i, d_inode e = Some i → is_Some (inodes s !! i)) →
  wrote m buf last (name_text s e) (write_name s e m buf last).
Proof.
  intros Hb Hl Hi. assert (∃ b, slash_after s e = Some b) as [b Eb].
  { unfold slash_after. destruct (d_inode e) as [i|]; [|by eexists]. destruct (Hi i eq_refl) as [node ->]. by eexists. }
  unfold wrote, write_name, name_text. rewrite Eb, (u32_small (last - buf)) by lia. destruct (Z.ltb_spec (last - buf) (len (d_name e))).
  { exists m, buf. split; [done|]. assert (len (d_name e) <= len (if decide (Some b = Some true) then String.append (d_name e) "/" else d_name e))
      by (case_decide; rewrite ?len_append; lia). case_if; [lia|done]. }
  rewrite (u32_small (buf + len (d_name e))), (u32_small (last - _)) by lia. destruct b; [rewrite decide_True by done|rewrite decide_False by done].
  - rewrite len_append. destruct (Z.eqb_spec (last - (buf + len (d_name e))) 0).
    + exists (strcpy m buf (d_name e)), (buf + len (d_name e)). split; [intros x Hx; apply strcpy_frame; lia|]. case_if; [cbn [String.length] in *; lia|done].
    + exists (put_byte (strcpy m buf (d_name e)) (buf + len (d_name e)) (code "/")), (u32 (buf + len (d_name e) + 1)). split; [intros x Hx; rewrite put_byte_ne by lia; apply strcpy_frame; lia|]. cbn [String.length].
      case_if; [|lia]. split; [done|]. split; [rewrite u32_small; lia|]. apply text_at_append.
      * eapply text_at_frame; [|apply strcpy_text; lia]. intros x Hx. apply put_byte_ne; lia.
      * split; [apply put_byte_eq; lia|done].
  - exists (strcpy m buf (d_name e)), (buf + len (d_name e)). split; [intros x Hx; apply strcpy_frame; lia|]. case_if; [|lia]. split; [done|]. split; [done|]. apply strcpy_text; lia.
Qed.

(** One text behind another. *)
Lemma wrote_append m buf last (t u : string) c (k : (Z → Z) * Z * result unit → outcome ((Z → Z) * Z * result unit)) :
  wrote m buf last t c → (∀ m1, 0 <= len t <= last - buf → wrote m1 (buf + len t) last u (k (m1, buf + len t, Ok tt))) →
  (∀ m1 b e, k (m1, b, Err e) = Ret (m1, b, Err e)) → wrote m buf last (String.append t u) (obind c k).
Proof.
  intros (m1 & b1 & Hf1 & H1) Hk He. unfold wrote. rewrite len_append. case_if_in H1.
  - destruct H1 as (-> & -> & Ht). destruct (Hk m1) as (m2 & b2 & Hf2 & H2); [lia|]. exists m2, b2.
    split; [intros x Hx; rewrite Hf2 by lia; apply Hf1; lia|]. cbn [obind]. case_if_in H2; case_if; try lia; [|done].
    destruct H2 as (-> & -> & Hu). split; [done|]. split; [lia|]. apply text_at_append; [|done]. eapply text_at_frame; [|done].
    intros x Hx. apply Hf2. lia.
  - exists m1, b1. split; [done|]. rewrite H1. case_if; [lia|]. apply He.
Qed.

Lemma build_path_ok s d l n dotdot below m buf last :
  chain s d l → (length l <= n)%nat → 0 <= buf <= last → last < 4294967296 → dotdot = String.eqb below ".." →
  wrote m buf last (cwd_text s below l) (build_path n s dotdot m buf last d).
Proof.
  intros Hc. revert n dotdot below m buf. induction Hc as [d e Hd Hp Hi|d e p l Hd Hp Hi Hc IH]; intros n dotdot below m buf Hn Hb Hl ->;
    cbn [length] in Hn; (destruct n as [|n]; [lia|]); cbn [build_path]; rewrite Hd, Hp.
  - by apply write_name_ok.
  - replace (cwd_text s below (e :: l)) with (String.append (cwd_text s (d_name e) l)
      (if String.eqb (d_name e) "." || String.eqb below ".." || String.eqb (d_name e) ".." then "" else name_text s e)) by (by destruct Hc).
    apply wrote_append; [apply IH; (done || lia)| |done]. intros m1 H1. case_if; [|apply write_name_ok; (done || lia)].
    exists m1, (buf + len (cwd_text s (d_name e) l)). split; [done|]. cbn [String.length]. case_if; [|lia]. split; [done|]. split; [lia|done].
Qed.

(** C29: [sys_getcwd] with a buffer of at least two bytes, for every entry whose
    chain of parents ends.  If the name of the working directory (the pure text
    [cwd_text]: the names from the top down with their slashes) has at most
    [len - 2] characters, the call succeeds and the buffer holds the text and a
    zero; otherwise it returns [ENAMETOOLONG].  In both cases, so also on the
    error path, no byte outside the buffer changes.  With a length of 0 or 1 the
    end pointer lies before the buffer and the code writes behind it
    ([getcwd_short_buffer_overflows]). *)
Theorem getcwd_fits k t l m buf size :
  chain (kv k) (p_dentry (v_cwd t)) l → (length l <= fuel)%nat → 0 <= buf → 2 <= size → buf + size <= 4294967296 →
  let text := cwd_text (kv k) "" l in
  ∃ m', sys_getcwd k t m buf size = Ret (m', if len text <=? size - 2 then Ok tt else Err ENAMETOOLONG)
    ∧ (∀ x, ¬ (buf <= x < buf + size) → m' x = m x)
    ∧ (len text <= size - 2 → text_at m' buf text ∧ m' (buf + len text) = 0).
Proof.
  intros Hc Hf Hb Hs Ht text. unfold sys_getcwd. rewrite u32_small by lia.
  destruct (build_path_ok (kv k) _ l fuel false "" m buf (buf + size - 2) Hc Hf) as (m' & b & Hm & H); [lia..|done|].
  fold text in H. replace (buf + size - 2 - buf) with (size - 2) in H by lia. case_if.
  - destruct H as (-> & -> & Htext). cbn [obind]. eexists. split; [done|]. split.
    + intros x Hx. rewrite put_byte_ne by lia. apply Hm. lia.
    + intros _. split; [|apply put_byte_eq; lia]. eapply text_at_frame; [|done]. intros x Hx. apply put_byte_ne; lia.
  - rewrite H. cbn [obind]. exists m'. split; [done|]. split; [|lia]. intros x Hx. apply Hm. lia.
Qed.
End Calls.

(** The directory [/home/me]: the text of its entry, and a buffer that is large
    enough beside one that is not. *)
Definition cwd_state : vfs (W := unit) :=
  let dir := mk_inode 2 7 1 (mk_iattr (S_IFDIR + 493) 0 0 0 0 true) in
  mk_vfs (<[9 := dir]> ∅)
    (<[8 := mk_dentry "" (Some 9) 2 None [] None]> (<[10 := mk_dentry "home" (Some 9) 2 (Some 8) [] None]>
      (<[11 := mk_dentry "me" (Some 9) 2 (Some 10) [] None]> ∅))) ∅ ∅ ∅ [] tt.
Definition cwd_kern : kern (W := unit) := mk_kern cwd_state ∅ ∅ [].
Definition cwd_task : tvfs := mk_tvfs (mk_path 11 (Some 6)) [].

Lemma getcwd_fits_witness :
  (∃ m', sys_getcwd 20 cwd_kern cwd_task (λ _, 255) 1000 11 = Ret (m', Ok tt)
    ∧ text_at m' 1000 "/home/me/" ∧ m' 1009 = 0 ∧ ∀ x, ¬ (1000 <= x < 1011) → m' x = 255)
  ∧ ∃ m', sys_getcwd 20 cwd_kern cwd_task (λ _, 255) 1000 10 = Ret (m', Err ENAMETOOLONG) ∧ ∀ x, ¬ (1000 <= x < 1010) → m' x = 255.
Proof.
  assert (Hc : chain cwd_state 11 [mk_dentry "me" (Some 9) 2 (Some 10) [] None; mk_dentry "home" (Some 9) 2 (Some 8) [] None; mk_dentry "" (Some 9) 2 None [] None]).
  { repeat (eapply chain_next; [reflexivity|reflexivity|intros i [= <-]; by eexists|]).
    eapply chain_last; [reflexivity|reflexivity|intros i [= <-]; by eexists]. }
  split.
  - destruct (getcwd_fits 20 cwd_kern cwd_task _ (λ _, 255) 1000 11 Hc) as (m' & Hrun & Hout & Hin); [cbn; lia|lia..|].
    exists m'. split; [exact Hrun|]. destruct Hin as [Ht H0]; [by vm_compute|]. split; [exact Ht|]. split; [exact H0|exact Hout].
  - destruct (getcwd_fits 20 cwd_kern cwd_task _ (λ _, 255) 1000 10 Hc) as (m' & Hrun & Hout & _); [cbn; lia|lia..|].
    exists m'. split; [exact Hrun|exact Hout].
Defined.

(** With a length of 1 the room is computed as 4294967295 bytes: the whole name
    is written into a buffer of one byte and behind it. *)
Theorem getcwd_short_buffer_overflows :
  match sys_getcwd 20 cwd_kern cwd_task (λ _, 255) 1000 1 with
  | Ret (m', r) => r = Ok tt ∧ text_at m' 1000 "/home/me/" ∧ m' 1009 = 0
  | _ => False
  end.
Proof. vm_compute. by repeat split. Qed.

(** [path_calls_balanced]: a change of mode in the small file system. *)
Lemma path_calls_balanced_witness :
  let k := mk_kern (Demo.state 1024) ∅ ∅ [] in
  let t := mk_tvfs (mk_path 8 (Some 6)) [] in
  balanced Demo.put 1 2000 Demo.find Demo.read 1 8 0 0 k t (Some "a") [] Demo.base Demo.base [] [6]
    (run_call Demo.put 1 2000 Demo.find Demo.read 1 8 0 0 65535 (λ _, None) (λ _, None) (λ _, None) k t (Some "a") (PChmod 420)).
Proof.
  intros k t. apply (path_calls_balanced Demo.put 1 2000 Demo.find Demo.read 1 8 0 0 65535 (λ _, None) (λ _, None) (λ _, None)).
  - constructor; simpl; try done.
    + apply Demo.state_good. lia.
    + apply Demo.state_env.
    + split; [by left|done].
    + unfold capacity. simpl pool. rewrite length_seqZ. change (size _) with 2%nat. lia.
    + intros a Ha. by apply elem_of_nil in Ha.
    + split; [constructor|]. intros a Ha. by apply elem_of_nil in Ha.
  - constructor; vm_compute; reflexivity.
  - split; [right; by left|]. split; [|done]. intros m [= <-]. by left.
  - simpl pool. rewrite length_seqZ. lia.
Defined.
