(* ===== verification/E2Alloc.v ===== *)
(** The block allocator of the ext2 driver: [src/kernel/src/ext2fs/block.c].

    The device is the list of its bytes, as in [Block]: [e2_read_block] and
    [e2_write_block] are [block_read] and [block_write] at multiples of the
    block size (their results are ignored; a block outside the device leaves
    the buffer unfilled and is a fault here).  A bitmap is an array of
    little-endian 32-bit words.  [memory] says whether [kmalloc] succeeds. *)

From S2P Require Import Prelude Bytes.

(** * Words in a buffer *)

Definition rd32 (l : list Z) (i : Z) : Z :=
  let n := Z.to_nat (4 * i) in
  (l !!! n) + 256 * (l !!! S n) + 65536 * (l !!! S (S n)) + 16777216 * (l !!! S (S (S n))).

Definition le32 (w : Z) : list Z :=
  [w mod 256; (w / 256) mod 256; (w / 65536) mod 256; (w / 16777216) mod 256].

Definition wr32 (l : list Z) (i w : Z) : list Z := list_inserts (Z.to_nat (4 * i)) (le32 w) l.

Definition byte_ok (x : Z) : Prop := 0 <= x < 256.

Lemma le32_bytes w : Forall byte_ok (le32 w).
Proof. unfold le32, byte_ok. repeat constructor; apply Z.mod_pos_bound; lia. Qed.

Lemma rd32_lookup l l' i j :
  (∀ k, (k < 4)%nat → l !! (Z.to_nat (4 * i) + k)%nat = l' !! (Z.to_nat (4 * j) + k)%nat) → rd32 l i = rd32 l' j.
Proof.
  intros H. unfold rd32.
  pose proof (H 0%nat ltac:(lia)) as H0. pose proof (H 1%nat ltac:(lia)) as H1. pose proof (H 2%nat ltac:(lia)) as H2.
  pose proof (H 3%nat ltac:(lia)) as H3. rewrite !Nat.add_0_r in H0. rewrite !Nat.add_1_r in H1.
  rewrite !(Nat.add_comm _ 2) in H2. rewrite !(Nat.add_comm _ 3) in H3. simpl in H2, H3.
  rewrite !list_lookup_total_alt. by rewrite H0, H1, H2, H3.
Qed.

Lemma le32_join a b c d : byte_ok a → byte_ok b → byte_ok c → byte_ok d →
  le32 (a + 256 * b + 65536 * c + 16777216 * d) = [a; b; c; d].
Proof. unfold byte_ok, le32. intros. repeat f_equal; Z.to_euclidean_division_equations; lia. Qed.

Lemma le32_rd32 l i k :
  Forall byte_ok l → 0 <= i → 4 * i + 4 <= Z.of_nat (length l) → (k < 4)%nat →
  le32 (rd32 l i) !! k = l !! (Z.to_nat (4 * i) + k)%nat.
Proof.
  intros Hl Hi Hlen Hk. unfold rd32.
  assert (H : ∀ j, (j < 4)%nat → l !! (Z.to_nat (4 * i) + j)%nat = Some (l !!! (Z.to_nat (4 * i) + j)%nat)).
  { intros j Hj. apply list_lookup_lookup_total_lt. lia. }
  assert (Hb : ∀ j, (j < 4)%nat → byte_ok (l !!! (Z.to_nat (4 * i) + j)%nat)).
  { intros j Hj. by apply (Forall_lookup_1 _ _ _ _ Hl (H j Hj)). }
  rewrite H by done. rewrite <- (Nat.add_0_r (Z.to_nat (4 * i))), <- !Nat.add_succ_r, !Nat.add_0_r.
  pose proof (Hb 0%nat ltac:(lia)) as Hb0. rewrite Nat.add_0_r in Hb0. rewrite le32_join by (done || (apply Hb; lia)).
  destruct k as [|[|[|[|k]]]]; simpl; [by rewrite Nat.add_0_r|done..|lia].
Qed.

Lemma wr32_length l i w : length (wr32 l i w) = length l.
Proof. apply length_inserts. Qed.

Lemma rd32_wr32_eq l i w :
  0 <= i → 4 * i + 4 <= Z.of_nat (length l) → 0 <= w < 4294967296 → rd32 (wr32 l i w) i = w.
Proof.
  intros Hi Hl Hw. unfold rd32, wr32. rewrite !list_lookup_total_alt, !inserts_lookup.
  rewrite !decide_True by (simpl; lia).
  replace (Z.to_nat (4 * i) - Z.to_nat (4 * i))%nat with 0%nat by lia.
  replace (S (Z.to_nat (4 * i)) - Z.to_nat (4 * i))%nat with 1%nat by lia.
  replace (S (S (Z.to_nat (4 * i))) - Z.to_nat (4 * i))%nat with 2%nat by lia.
  replace (S (S (S (Z.to_nat (4 * i)))) - Z.to_nat (4 * i))%nat with 3%nat by lia. simpl.
  rewrite (Z.mod_small (w / 16777216)) by (split; [by apply Z.div_pos; lia|apply Z.div_lt_upper_bound; lia]).
  pose proof (Z.div_mod w 256 ltac:(lia)). pose proof (Z.div_mod (w / 256) 256 ltac:(lia)).
  pose proof (Z.div_mod (w / 65536) 256 ltac:(lia)).
  rewrite !Z.div_div in * by lia. change (256 * 256) with 65536 in *. change (65536 * 256) with 16777216 in *. lia.
Qed.

Lemma rd32_wr32_ne l i j w : 0 <= i → 0 <= j → i ≠ j → rd32 (wr32 l i w) j = rd32 l j.
Proof.
  intros Hi Hj Hne. apply rd32_lookup. intros k Hk. unfold wr32. rewrite inserts_lookup, decide_False; [done|]. simpl. lia.
Qed.

Lemma rd32_range l i : Forall byte_ok l → 0 <= rd32 l i < 4294967296.
Proof.
  intros Hl. unfold rd32. assert (H : ∀ n, 0 <= l !!! n < 256).
  { intros n. rewrite list_lookup_total_alt. destruct (l !! n) as [x|] eqn:E; simpl; [|done].
    by apply (Forall_lookup_1 _ _ _ _ Hl E). }
  pose proof (H (Z.to_nat (4 * i))). pose proof (H (S (Z.to_nat (4 * i)))).
  pose proof (H (S (S (Z.to_nat (4 * i))))). pose proof (H (S (S (S (Z.to_nat (4 * i)))))). lia.
Qed.

Lemma inserts_Forall {A} (P : A → Prop) p k l : Forall P k → Forall P l → Forall P (list_inserts p k l).
Proof.
  intros Hk Hl. apply Forall_lookup. intros i x. rewrite inserts_lookup. case_decide; [|by apply Forall_lookup].
  by apply Forall_lookup.
Qed.

(** * The file system *)

Record e2_bg_descr := mk_bg {
  bg_block_bitmap : Z; bg_inode_bitmap : Z; bg_inode_table : Z;
  bg_free_blocks_count : Z; bg_free_inodes_count : Z;
}.

Record e2fs := mk_e2fs {
  s_blocks_count : Z;
  s_free_blocks_count : Z;
  s_free_inodes_count : Z;
  s_blocks_per_group : Z;
  s_inodes_per_group : Z;
  s_blocksize : Z;
  bgtable : list e2_bg_descr;
  dirty : bool;
  rw_lock : Z;
  dev : list Z;
}.

Definition with_dev (s : e2fs) (d : list Z) : e2fs :=
  mk_e2fs (s_blocks_count s) (s_free_blocks_count s) (s_free_inodes_count s) (s_blocks_per_group s)
    (s_inodes_per_group s) (s_blocksize s) (bgtable s) (dirty s) (rw_lock s) d.
Definition with_lock (s : e2fs) (l : Z) : e2fs :=
  mk_e2fs (s_blocks_count s) (s_free_blocks_count s) (s_free_inodes_count s) (s_blocks_per_group s)
    (s_inodes_per_group s) (s_blocksize s) (bgtable s) (dirty s) l (dev s).
Definition set_free_blocks (n : Z) (g : e2_bg_descr) : e2_bg_descr :=
  mk_bg (bg_block_bitmap g) (bg_inode_bitmap g) (bg_inode_table g) n (bg_free_inodes_count g).

(** The counts of the superblock and of one group change by [d]. *)
Definition account_blocks (s : e2fs) (bg d : Z) : e2fs :=
  mk_e2fs (s_blocks_count s) (u32 (s_free_blocks_count s + d)) (s_free_inodes_count s) (s_blocks_per_group s)
    (s_inodes_per_group s) (s_blocksize s)
    (alter (λ g, set_free_blocks (u16 (bg_free_blocks_count g + d)) g) (Z.to_nat bg) (bgtable s))
    true (rw_lock s) (dev s).

Definition EXT2_BGCOUNT (s : e2fs) : Z := s_blocks_count s / s_blocks_per_group s.

(** The offset of a block is a 32-bit product. *)
Definition block_pos (s : e2fs) (block : Z) : nat := Z.to_nat (u32 (block * s_blocksize s)).
Definition block_len (s : e2fs) : nat := Z.to_nat (s_blocksize s).
Definition in_dev (s : e2fs) (block : Z) : bool :=
  u32 (block * s_blocksize s) + s_blocksize s <=? Z.of_nat (length (dev s)).

Definition e2_read_block (s : e2fs) (block : Z) : outcome (list Z) :=
  if in_dev s block then Ret (slice (block_pos s block) (block_len s) (dev s)) else Halt.

Definition e2_write_block (s : e2fs) (block : Z) (buffer : list Z) : outcome e2fs :=
  if in_dev s block then Ret (with_dev s (list_inserts (block_pos s block) buffer (dev s))) else Halt.

(** * Allocation *)

Definition set_bit (bitmap : list Z) (b : Z) : list Z :=
  wr32 bitmap (b / 32) (Z.lor (rd32 bitmap (b / 32)) (Z.shiftl 1 (b mod 32))).
Definition clear_bit (bitmap : list Z) (b : Z) : list Z :=
  wr32 bitmap (b / 32) (Z.land (rd32 bitmap (b / 32)) (Z.lnot (Z.shiftl 1 (b mod 32)))).
Definition bit_clear (bitmap : list Z) (b : Z) : bool := Z.land (rd32 bitmap (b / 32)) (Z.shiftl 1 (b mod 32)) =? 0.

Fixpoint scan_bits (bitmap : list Z) (n : nat) (b : Z) : option Z :=
  match n with
  | O => None
  | S n => if bit_clear bitmap b then Some b else scan_bits bitmap n (b + 1)
  end.

(** The loop over the block groups; [None] when no group has a clear bit. *)
Fixpoint scan_groups (s : e2fs) (l : list e2_bg_descr) (bg : Z) : outcome (option (Z * Z * e2_bg_descr * list Z)) :=
  match l with
  | [] => Ret None
  | g :: l =>
      if bg_free_blocks_count g =? 0 then scan_groups s l (bg + 1)
      else
        bitmap <~ e2_read_block s (bg_block_bitmap g) ;;
        match scan_bits bitmap (Z.to_nat (s_blocks_per_group s)) 0 with
        | Some b => Ret (Some (bg, b, g, bitmap))
        | None => scan_groups s l (bg + 1)
        end
  end.

(** Out of memory is returned as the block number [(u32)-ENOMEM]. *)
Definition e2_alloc_block (s : e2fs) (memory : bool) : outcome (e2fs * Z) :=
  if s_free_blocks_count s =? 0 then Ret (s, 0)
  else if negb memory then Ret (s, u32 (-12))
  else
    l <~ spin_lock (rw_lock s) ;;
    let s := with_lock s l in
    r <~ scan_groups s (take (Z.to_nat (EXT2_BGCOUNT s)) (bgtable s)) 0 ;;
    match r with
    | None => Ret (with_lock s (spin_unlock (rw_lock s)), 0)
    | Some (bg, b, g, bitmap) =>
        s <~ e2_write_block s (bg_block_bitmap g) (set_bit bitmap b) ;;
        let s := account_blocks s bg (-1) in
        Ret (with_lock s (spin_unlock (rw_lock s)), u32 (b + bg * s_blocks_per_group s))
    end.

Definition e2_free_block (s : e2fs) (block : Z) (memory : bool) : outcome (e2fs * result unit) :=
  if negb memory then Ret (s, Err ENOMEM)
  else
    l <~ spin_lock (rw_lock s) ;;
    let s := with_lock s l in
    let bg := block / s_blocks_per_group s in
    let local := block mod s_blocks_per_group s in
    match bgtable s !! Z.to_nat bg with
    | None => Halt
    | Some g =>
        bitmap <~ e2_read_block s (bg_block_bitmap g) ;;
        s <~ e2_write_block s (bg_block_bitmap g) (clear_bit bitmap local) ;;
        let s := account_blocks s bg 1 in
        Ret (with_lock s (spin_unlock (rw_lock s)), Ok tt)
    end.

(** * Bits of a bitmap *)

Lemma wr32_bytes l i w : Forall byte_ok l → Forall byte_ok (wr32 l i w).
Proof. intros Hl. apply inserts_Forall; [apply le32_bytes|done]. Qed.

Lemma low_bits w : (∀ j, 32 <= j → Z.testbit w j = false) → 0 <= w → w < 4294967296.
Proof.
  intros Hb Hw. destruct (Z.eq_dec w 0) as [->|]; [lia|]. change 4294967296 with (2 ^ 32).
  apply Z.log2_lt_pow2; [lia|]. apply Z.lt_nge. intros Hlog.
  specialize (Hb _ Hlog). rewrite Z.bit_log2 in Hb by lia. done.
Qed.

Lemma high_bits w j : 0 <= w < 4294967296 → 32 <= j → Z.testbit w j = false.
Proof.
  intros Hw Hj. rewrite <- (u32_small w Hw), testbit_u32 by lia. destruct (Z.ltb_spec j 32); [lia|]. apply andb_false_r.
Qed.

Lemma set_word_range w i : 0 <= w < 4294967296 → 0 <= i < 32 → 0 <= Z.lor w (Z.shiftl 1 i) < 4294967296.
Proof.
  intros Hw Hi. assert (0 <= Z.lor w (Z.shiftl 1 i)) as H0 by (apply Z.lor_nonneg; split; [lia|apply Z.shiftl_nonneg; lia]).
  split; [done|]. apply low_bits; [|done]. intros j Hj. rewrite testbit_set by lia.
  rewrite high_bits by lia. destruct (Z.eqb_spec i j); [lia|done].
Qed.

Lemma clear_word_range w i : 0 <= w < 4294967296 → 0 <= i < 32 → 0 <= Z.land w (Z.lnot (Z.shiftl 1 i)) < 4294967296.
Proof.
  intros Hw Hi. assert (0 <= Z.land w (Z.lnot (Z.shiftl 1 i))) as H0 by (apply Z.land_nonneg; lia).
  split; [done|]. apply low_bits; [|done]. intros j Hj. rewrite testbit_clear by lia. by rewrite high_bits by lia.
Qed.

(** A bitmap that has a bit for every number below [n]. *)
Definition bitmap_ok (bm : list Z) (n : Z) : Prop := Forall byte_ok bm ∧ n <= 8 * Z.of_nat (length bm) ∧ (Z.of_nat (length bm)) mod 4 = 0.

Lemma word_in bm n b : bitmap_ok bm n → 0 <= b < n → 0 <= b / 32 ∧ 4 * (b / 32) + 4 <= Z.of_nat (length bm).
Proof.
  intros (_ & Hn & Hm) Hb. pose proof (Z.div_mod (Z.of_nat (length bm)) 4 ltac:(lia)).
  split; [apply Z.div_pos; lia|]. assert (b / 32 < Z.of_nat (length bm) / 4); [|lia]. apply Z.div_lt_upper_bound; lia.
Qed.

Lemma bit_clear_testbit bm b : bit_clear bm b = negb (Z.testbit (rd32 bm (b / 32)) (b mod 32)).
Proof. unfold bit_clear. apply land_shiftl1_testbit. apply Z.mod_pos_bound. lia. Qed.

Lemma same_word_bit b c : b / 32 = c / 32 → (b mod 32 =? c mod 32) = (b =? c).
Proof.
  intros H. pose proof (Z.div_mod b 32 ltac:(lia)). pose proof (Z.div_mod c 32 ltac:(lia)).
  destruct (Z.eqb_spec (b mod 32) (c mod 32)), (Z.eqb_spec b c); lia || congruence.
Qed.

Lemma bit_clear_set bm n b c :
  bitmap_ok bm n → 0 <= b < n → 0 <= c → bit_clear (set_bit bm b) c = bit_clear bm c && negb (b =? c).
Proof.
  intros Hbm Hb Hc. destruct (word_in _ _ _ Hbm Hb) as [Hw0 Hw]. pose proof (Z.mod_pos_bound b 32 ltac:(lia)).
  pose proof (Z.mod_pos_bound c 32 ltac:(lia)). rewrite !bit_clear_testbit. unfold set_bit.
  destruct (Z.eq_dec (b / 32) (c / 32)) as [E|E].
  - rewrite <- E, rd32_wr32_eq, testbit_set, same_word_bit, negb_orb; try lia; [done|].
    apply set_word_range; [apply rd32_range, Hbm|lia].
  - rewrite rd32_wr32_ne; [|lia|apply Z.div_pos; lia|done]. destruct (Z.eqb_spec b c); [congruence|]. by rewrite andb_true_r.
Qed.

Lemma bit_clear_clear bm n b c :
  bitmap_ok bm n → 0 <= b < n → 0 <= c → bit_clear (clear_bit bm b) c = bit_clear bm c || (b =? c).
Proof.
  intros Hbm Hb Hc. destruct (word_in _ _ _ Hbm Hb) as [Hw0 Hw]. pose proof (Z.mod_pos_bound b 32 ltac:(lia)).
  pose proof (Z.mod_pos_bound c 32 ltac:(lia)). rewrite !bit_clear_testbit. unfold clear_bit.
  destruct (Z.eq_dec (b / 32) (c / 32)) as [E|E].
  - rewrite <- E, rd32_wr32_eq, testbit_clear, same_word_bit, negb_andb, negb_involutive; try lia; [done|].
    apply clear_word_range; [apply rd32_range, Hbm|lia].
  - rewrite rd32_wr32_ne; [|lia|apply Z.div_pos; lia|done]. destruct (Z.eqb_spec b c); [congruence|]. by rewrite orb_false_r.
Qed.

(** Clearing a bit that was clear before it was set restores the bitmap. *)
Lemma clear_set_bit bm n b : bitmap_ok bm n → 0 <= b < n → bit_clear bm b = true → clear_bit (set_bit bm b) b = bm.
Proof.
  intros Hbm Hb Hclr. destruct (word_in _ _ _ Hbm Hb) as [Hw0 Hw]. pose proof (Z.mod_pos_bound b 32 ltac:(lia)).
  rewrite bit_clear_testbit in Hclr. apply negb_true_iff in Hclr. unfold clear_bit, set_bit.
  pose proof (rd32_range bm (b / 32) ltac:(apply Hbm)) as Hr.
  rewrite rd32_wr32_eq by (try lia; apply set_word_range; lia).
  assert (Z.land (Z.lor (rd32 bm (b / 32)) (Z.shiftl 1 (b mod 32))) (Z.lnot (Z.shiftl 1 (b mod 32))) = rd32 bm (b / 32)) as ->.
  { apply Z.bits_inj'. intros j Hj. rewrite testbit_clear, testbit_set by lia.
    destruct (Z.eqb_spec (b mod 32) j) as [<-|]; simpl; [by rewrite Hclr|by rewrite orb_false_r, andb_true_r]. }
  apply list_eq. intros k. unfold wr32. rewrite !inserts_lookup, length_inserts. case_decide as Hk; [|by case_decide].
  simpl in Hk. rewrite le32_rd32; [f_equal; lia|apply Hbm|lia..].
Qed.

(** * The invariant *)

(** The bits [0 <= b < n] that are clear. *)
Definition free_bits (bm : list Z) (n : Z) : list Z := filter (λ b, bit_clear bm b = true) (seqZ 0 n).
Definition free_count (bm : list Z) (n : Z) : Z := Z.of_nat (length (free_bits bm n)).

Definition bitmap_of (s : e2fs) (g : e2_bg_descr) : list Z := slice (block_pos s (bg_block_bitmap g)) (block_len s) (dev s).

(** Block numbers as the allocator hands them out: they start at 0 with the
    first bit of the first group.  On a volume the first bit stands for block
    [s_first_data_block], which the code does not read (block.c:62); the two
    agree where it is 0, that is for blocks of 2048 bytes and more, and
    [e2_first_data_block_ignored] shows the difference. *)
Definition block_free (s : e2fs) (block : Z) : bool :=
  match bgtable s !! Z.to_nat (block / s_blocks_per_group s) with
  | Some g => bit_clear (bitmap_of s g) (block mod s_blocks_per_group s)
  | None => false
  end.

(** The groups are those of [EXT2_BGCOUNT], which rounds down: the blocks of a
    partial last group are unknown to the driver. *)
Record e2_geometry (s : e2fs) : Prop := {
  geo_size : 0 < s_blocksize s /\ s_blocksize s mod 4 = 0;
  geo_group : 0 < s_blocks_per_group s < 65536 /\ s_blocks_per_group s <= 8 * s_blocksize s;
  geo_count : 0 <= s_blocks_count s < 4294967296;
  geo_table : Z.of_nat (length (bgtable s)) = EXT2_BGCOUNT s;
  geo_dev : Z.of_nat (length (dev s)) <= 4294967296;
  geo_bytes : Forall byte_ok (dev s);
  geo_bitmaps : Forall (λ g, 0 <= bg_block_bitmap g /\ (bg_block_bitmap g + 1) * s_blocksize s <= Z.of_nat (length (dev s))) (bgtable s);
  geo_apart : NoDup (bg_block_bitmap <$> bgtable s);
}.

Definition sum_free (l : list e2_bg_descr) : Z := foldr Z.add 0 (bg_free_blocks_count <$> l).

(** The counts agree with the bitmaps.  As the superblock counts the free blocks
    of all groups, [ok_sum] asks that a partial last group has none (or that
    there is no such group). *)
Record e2_ok (s : e2fs) : Prop := {
  ok_geo : e2_geometry s;
  ok_lock : rw_lock s = 0;
  ok_group : Forall (λ g, bg_free_blocks_count g = free_count (bitmap_of s g) (s_blocks_per_group s)) (bgtable s);
  ok_sum : s_free_blocks_count s = sum_free (bgtable s);
}.

Lemma free_count_range bm n : 0 <= n → 0 <= free_count bm n <= n.
Proof.
  intros Hn. unfold free_count, free_bits. pose proof (length_filter (λ b, bit_clear bm b = true) (seqZ 0 n)).
  rewrite length_seqZ in H. lia.
Qed.

Lemma free_bits_elem bm n b : b ∈ free_bits bm n ↔ 0 <= b < n ∧ bit_clear bm b = true.
Proof. unfold free_bits. rewrite list_elem_of_filter, elem_of_seqZ. intuition lia. Qed.

Lemma free_bits_nodup bm n : NoDup (free_bits bm n).
Proof. apply NoDup_filter, NoDup_seqZ. Qed.

Lemma free_count_zero bm n b : free_count bm n = 0 → 0 <= b < n → bit_clear bm b = false.
Proof.
  intros H Hb. destruct (bit_clear bm b) eqn:E; [|done]. assert (b ∈ free_bits bm n) as He by (by apply free_bits_elem).
  unfold free_count in H. destruct (free_bits bm n); [by apply elem_of_nil in He|simpl in H; lia].
Qed.

(** A clear bit that becomes set, all others as they were. *)
Lemma free_count_take bm bm' n b :
  0 <= b < n → bit_clear bm b = true → (∀ c, 0 <= c → bit_clear bm' c = bit_clear bm c && negb (b =? c)) →
  free_count bm' n = free_count bm n - 1.
Proof.
  intros Hb Hclr Hbits. unfold free_count.
  assert (free_bits bm n ≡ₚ b :: free_bits bm' n) as ->; [|simpl; lia].
  apply NoDup_Permutation; [apply free_bits_nodup| |].
  - apply NoDup_cons. split; [|apply free_bits_nodup]. rewrite free_bits_elem, Hbits, Z.eqb_refl by lia.
    intros [_ H]. by rewrite andb_false_r in H.
  - intros c. rewrite elem_of_cons, !free_bits_elem. destruct (Z.eqb_spec b c) as [->|Hne]; [naive_solver|].
    split; [intros [Hc H]; right|intros [->|[Hc H]]; [done|]]; (split; [done|]); rewrite Hbits in * by lia;
      destruct (Z.eqb_spec b c); try congruence; by rewrite ?andb_true_r in *.
Qed.

Lemma scan_bits_spec bm n b :
  match scan_bits bm n b with
  | Some r => b <= r < b + Z.of_nat n ∧ bit_clear bm r = true ∧ ∀ c, b <= c < r → bit_clear bm c = false
  | None => ∀ c, b <= c < b + Z.of_nat n → bit_clear bm c = false
  end.
Proof.
  revert b. induction n as [|n IH]; intros b; simpl; [lia|]. case_if; [repeat split; [lia..|done|lia]|].
  specialize (IH (b + 1)). assert (Hfirst : ∀ c, b <= c → c < b + 1 → bit_clear bm c = false).
  { intros c ? ?. by replace c with b by lia. }
  destruct (scan_bits bm n (b + 1)) as [r|].
  - destruct IH as (Hr & Hclr & Hlt). repeat split; [lia..|done|]. intros c Hc.
    destruct (Z.eq_dec c b); [apply Hfirst; lia|apply Hlt; lia].
  - intros c Hc. destruct (Z.eq_dec c b); [apply Hfirst; lia|apply IH; lia].
Qed.

(** * Writing the bitmap of one group *)

Definition write_bitmap (s : e2fs) (g : e2_bg_descr) (bm : list Z) : e2fs :=
  with_dev s (list_inserts (block_pos s (bg_block_bitmap g)) bm (dev s)).

Section Group.
Context (s : e2fs) (geo : e2_geometry s).

Lemma bitmap_pos g : g ∈ bgtable s →
  block_pos s (bg_block_bitmap g) = Z.to_nat (bg_block_bitmap g * s_blocksize s)
  ∧ (block_pos s (bg_block_bitmap g) + block_len s <= length (dev s))%nat
  ∧ in_dev s (bg_block_bitmap g) = true.
Proof.
  intros Hg. destruct (proj1 (Forall_forall _ _) (geo_bitmaps s geo) _ Hg) as [H0 H1].
  destruct (geo_size s geo) as [Hs _]. pose proof (geo_dev s geo).
  assert (0 <= bg_block_bitmap g * s_blocksize s < 4294967296) by nia.
  unfold block_pos, in_dev, block_len. rewrite u32_small by done. repeat split; [lia|]. apply Z.leb_le. lia.
Qed.

Lemma bitmap_of_ok g : g ∈ bgtable s →
  bitmap_ok (bitmap_of s g) (s_blocks_per_group s) ∧ length (bitmap_of s g) = block_len s.
Proof.
  intros Hg. destruct (bitmap_pos g Hg) as (_ & Hin & _). destruct (geo_size s geo) as [Hs Hm].
  pose proof (geo_group s geo). unfold bitmap_of, bitmap_ok. rewrite slice_length by done.
  unfold block_len in *. rewrite Z2Nat.id by lia. repeat split; [|lia..].
  apply Forall_take, Forall_drop, (geo_bytes s geo).
Qed.

Lemma read_bitmap g : g ∈ bgtable s → e2_read_block s (bg_block_bitmap g) = Ret (bitmap_of s g).
Proof. intros Hg. unfold e2_read_block. by destruct (bitmap_pos g Hg) as (_ & _ & ->). Qed.

Lemma bitmaps_disjoint i j g h : bgtable s !! i = Some g → bgtable s !! j = Some h → i ≠ j →
  (block_pos s (bg_block_bitmap g) + block_len s <= block_pos s (bg_block_bitmap h)
   ∨ block_pos s (bg_block_bitmap h) + block_len s <= block_pos s (bg_block_bitmap g))%nat.
Proof.
  intros Hi Hj Hne. pose proof (list_elem_of_lookup_2 _ _ _ Hi) as Hgi. pose proof (list_elem_of_lookup_2 _ _ _ Hj) as Hgj.
  destruct (bitmap_pos g Hgi) as [-> _]. destruct (bitmap_pos h Hgj) as [-> _].
  destruct (proj1 (Forall_forall _ _) (geo_bitmaps s geo) _ Hgi) as [G0 _].
  destruct (proj1 (Forall_forall _ _) (geo_bitmaps s geo) _ Hgj) as [H0 _]. destruct (geo_size s geo) as [Hs _].
  assert (bg_block_bitmap g ≠ bg_block_bitmap h).
  { intros E. apply Hne. apply (NoDup_lookup _ _ _ (bg_block_bitmap g) (geo_apart s geo)); rewrite list_lookup_fmap.
    - by rewrite Hi.
    - by rewrite Hj, E. }
  unfold block_len. destruct (Z.lt_total (bg_block_bitmap g) (bg_block_bitmap h)) as [?|[?|?]]; [left|done|right];
    rewrite <- Z2Nat.inj_add by nia; apply Z2Nat.inj_le; nia.
Qed.

Lemma bitmap_of_write i j g h bm :
  bgtable s !! i = Some g → bgtable s !! j = Some h → length bm = block_len s →
  bitmap_of (write_bitmap s g bm) h = if decide (i = j) then bm else bitmap_of s h.
Proof.
  intros Hi Hj Hlen. unfold bitmap_of, write_bitmap. change (block_len (with_dev _ _)) with (block_len s).
  change (block_pos (with_dev _ _)) with (block_pos s). cbn [dev with_dev].
  case_decide as E; [subst j; simplify_eq|].
  - rewrite <- Hlen. apply slice_inserts_same. rewrite Hlen. apply bitmap_pos. by eapply list_elem_of_lookup_2.
  - apply slice_inserts_disjoint. rewrite Hlen. pose proof (bitmaps_disjoint i j g h Hi Hj E). lia.
Qed.
End Group.

Lemma sum_free_alter d l i g :
  l !! i = Some g → 0 <= bg_free_blocks_count g + d < 65536 →
  sum_free (alter (λ g, set_free_blocks (u16 (bg_free_blocks_count g + d)) g) i l) = sum_free l + d.
Proof.
  unfold sum_free. revert i. induction l as [|h l IH]; intros [|i] Hi Hd; simplify_eq/=.
  - rewrite u16_small by done. lia.
  - setoid_rewrite IH; [|done..]. lia.
Qed.

Lemma sum_free_bound n l : Forall (λ g, 0 <= bg_free_blocks_count g <= n) l → 0 <= sum_free l <= n * Z.of_nat (length l).
Proof. unfold sum_free. induction 1 as [|g l Hg Hl IH]; [simpl; lia|]. rewrite fmap_cons. cbn [foldr length]. rewrite Nat2Z.inj_succ. lia. Qed.

Lemma geometry_account s i g bm d :
  e2_geometry s → bgtable s !! i = Some g → length bm = block_len s → Forall byte_ok bm →
  e2_geometry (account_blocks (write_bitmap s g bm) (Z.of_nat i) d).
Proof.
  intros geo Hi Hlen Hbm. destruct geo as [H1 H2 H3 H4 H5 H6 H7 H8].
  constructor; unfold EXT2_BGCOUNT in *; cbn [account_blocks write_bitmap with_dev s_blocksize s_blocks_per_group s_blocks_count bgtable dev];
    rewrite ?length_alter, ?length_inserts; try done.
  - by apply inserts_Forall.
  - rewrite Nat2Z.id. apply Forall_alter; [done|]. by intros h Hh.
  - rewrite (list_fmap_alter _ _ id), list_alter_id; [done|by intros|by apply Forall_true].
Qed.

Lemma sum_free_range s :
  e2_geometry s → Forall (λ g, bg_free_blocks_count g = free_count (bitmap_of s g) (s_blocks_per_group s)) (bgtable s) →
  0 <= sum_free (bgtable s) < 4294967296.
Proof.
  intros geo Hgrp. pose proof (geo_group s geo) as [Hbpg _].
  assert (Forall (λ g, 0 <= bg_free_blocks_count g <= s_blocks_per_group s) (bgtable s)) as HF.
  { eapply Forall_impl; [exact Hgrp|]. intros h ->. apply free_count_range. lia. }
  apply sum_free_bound in HF. rewrite (geo_table s geo) in HF. unfold EXT2_BGCOUNT in HF.
  pose proof (geo_count s geo). pose proof (Z.mul_div_le (s_blocks_count s) (s_blocks_per_group s) ltac:(lia)). lia.
Qed.

(** The new bitmap of a group, its count and the superblock's move together. *)
Lemma regroup_ok s i g bm d :
  e2_ok s → bgtable s !! i = Some g → length bm = block_len s → Forall byte_ok bm →
  free_count bm (s_blocks_per_group s) = bg_free_blocks_count g + d →
  let s' := account_blocks (write_bitmap s g bm) (Z.of_nat i) d in
  e2_ok s' ∧ s_free_blocks_count s' = s_free_blocks_count s + d.
Proof.
  intros [geo Hlk Hgrp Hsum] Hi Hlen Hbm Hcnt s'. pose proof (geo_group s geo) as [Hbpg _].
  pose proof (geometry_account s i g bm d geo Hi Hlen Hbm) as geo'. fold s' in geo'.
  assert (Hd : 0 <= bg_free_blocks_count g + d < 65536)
    by (pose proof (free_count_range bm (s_blocks_per_group s) ltac:(lia)); lia).
  assert (Hgrp' : Forall (λ g, bg_free_blocks_count g = free_count (bitmap_of s' g) (s_blocks_per_group s')) (bgtable s')).
  { apply Forall_lookup. intros j h' Hj. subst s'. cbn [account_blocks bgtable s_blocks_per_group write_bitmap with_dev] in *.
    rewrite Nat2Z.id, list_lookup_alter in Hj.
    assert (Hbits : ∀ h, bgtable s !! j = Some h → ∀ k, bitmap_of (account_blocks (write_bitmap s g bm) (Z.of_nat i) d) (set_free_blocks k h)
      = (if decide (i = j) then bm else bitmap_of s h)).
    { intros h Hh k. rewrite <- (bitmap_of_write s geo i j g h bm Hi Hh Hlen). done. }
    destruct (decide (i = j)) as [<-|Hne]; [rewrite Hi in Hj; simplify_eq/=|].
    - rewrite (Hbits g Hi), u16_small by done. done.
    - replace h' with (set_free_blocks (bg_free_blocks_count h') h') at 2 by (by destruct h').
      rewrite (Hbits h' Hj). by apply (Forall_lookup_1 _ _ _ _ Hgrp Hj). }
  assert (Hs' : sum_free (bgtable s') = s_free_blocks_count s + d).
  { subst s'. cbn [account_blocks bgtable]. rewrite Nat2Z.id, Hsum. by apply (sum_free_alter _ _ _ g). }
  assert (Hb : 0 <= sum_free (bgtable s') < 4294967296) by (by apply sum_free_range).
  assert (Hfree : s_free_blocks_count s' = s_free_blocks_count s + d).
  { subst s'. cbn [account_blocks s_free_blocks_count]. change (s_free_blocks_count (write_bitmap s g bm)) with (s_free_blocks_count s).
    apply u32_small. lia. }
  split; [|done]. constructor; [done|done|done|congruence].
Qed.

(** What the search over the groups [l], the first of which is number [bg],
    has found: the first clear bit of the first group that has one. *)
Definition found (s : e2fs) (l : list e2_bg_descr) (bg : Z) (r : option (Z * Z * e2_bg_descr * list Z)) : Prop :=
  match r with
  | None => sum_free l = 0
  | Some (n, b, g, bm) =>
      bm = bitmap_of s g ∧ 0 <= b < s_blocks_per_group s ∧ bit_clear bm b = true
      ∧ (∀ c, 0 <= c < b → bit_clear bm c = false)
      ∧ ∃ k, l !! k = Some g ∧ n = bg + Z.of_nat k
             ∧ ∀ j h, (j < k)%nat → l !! j = Some h → bg_free_blocks_count h = 0
  end.

Lemma found_skip s g l bg r : bg_free_blocks_count g = 0 → found s l (bg + 1) r → found s (g :: l) bg r.
Proof.
  intros Hz. destruct r as [[[[n b] h] bm]|]; cbn [found].
  - intros (? & ? & ? & ? & k & Hk & -> & Hj). do 4 (split; [done|]). exists (S k). split; [done|]. split; [lia|].
    intros [|j] h' Hlt Hh'; simplify_eq/=; [done|]. apply (Hj j); [lia|done].
  - unfold sum_free. rewrite fmap_cons. cbn [foldr]. lia.
Qed.

Lemma scan_groups_spec s l bg :
  e2_geometry s → l ⊆ bgtable s →
  Forall (λ g, bg_free_blocks_count g = free_count (bitmap_of s g) (s_blocks_per_group s)) l →
  ∃ r, scan_groups s l bg = Ret r ∧ found s l bg r.
Proof.
  intros geo. pose proof (geo_group s geo) as [Hbpg _]. revert bg.
  induction l as [|g l IH]; intros bg Hsub Hgrp; cbn [scan_groups]; [by exists None|].
  apply Forall_cons in Hgrp as [Hg Hgrp].
  destruct (IH (bg + 1) ltac:(set_solver) Hgrp) as (r & Hr & Hspec).
  case_if; [exists r; by split; [|apply found_skip]|].
  rewrite (read_bitmap s geo) by set_solver. cbn [obind].
  pose proof (scan_bits_spec (bitmap_of s g) (Z.to_nat (s_blocks_per_group s)) 0) as Hscan.
  destruct (scan_bits _ _ _) as [b|].
  - destruct Hscan as (Hb & Hclr & Hlt). eexists. split; [done|]. cbn [found].
    split; [done|]. split; [lia|]. do 2 (split; [done|]). exists 0%nat. split; [done|]. split; lia.
  - exfalso. rewrite Hg in *. assert (free_bits (bitmap_of s g) (s_blocks_per_group s) = []) as E.
    { apply elem_of_nil_inv. intros b [Hb Hc]%free_bits_elem. rewrite Hscan in Hc; [done|lia]. }
    unfold free_count in *. by rewrite E in *.
Qed.

(** * The allocator *)

Lemma block_div_mod n i b : 0 < n → 0 <= b < n → (b + i * n) / n = i ∧ (b + i * n) mod n = b.
Proof. intros Hn Hb. rewrite Z.div_add, Z.mod_add by lia. by rewrite Z.div_small, Z.mod_small by lia. Qed.

Lemma same_block n i b c : 0 < n → 0 <= b < n → (c =? b + i * n) = (c / n =? i) && (b =? c mod n).
Proof.
  intros Hn Hb. pose proof (Z.div_mod c n ltac:(lia)). destruct (Z.eqb_spec c (b + i * n)) as [->|Hne].
  - destruct (block_div_mod n i b Hn Hb) as [-> ->]. by rewrite !Z.eqb_refl.
  - symmetry. apply andb_false_iff. destruct (Z.eqb_spec (c / n) i) as [<-|]; [right|by left]. apply Z.eqb_neq. lia.
Qed.

(** Blocks of the other groups keep their bits, those of group [i] have the
    bits of the new bitmap. *)
Lemma block_free_write s i g bm d c :
  e2_geometry s → bgtable s !! i = Some g → length bm = block_len s → 0 <= c →
  block_free (account_blocks (write_bitmap s g bm) (Z.of_nat i) d) c
  = if c / s_blocks_per_group s =? Z.of_nat i then bit_clear bm (c mod s_blocks_per_group s) else block_free s c.
Proof.
  intros geo Hi Hlen Hc. pose proof (geo_group s geo) as [Hbpg _]. unfold block_free.
  change (s_blocks_per_group (account_blocks _ _ _)) with (s_blocks_per_group s).
  set (q := c / s_blocks_per_group s). assert (Hq : 0 <= q) by (apply Z.div_pos; lia).
  cbn [account_blocks bgtable]. change (bgtable (write_bitmap s g bm)) with (bgtable s). rewrite Nat2Z.id, list_lookup_alter.
  destruct (bgtable s !! Z.to_nat q) as [h|] eqn:Hh.
  - pose proof (bitmap_of_write s geo i (Z.to_nat q) g h bm Hi Hh Hlen) as Hw.
    destruct (decide (i = Z.to_nat q)) as [E|E]; destruct (Z.eqb_spec q (Z.of_nat i)); try lia.
    + rewrite Hi. cbn [fmap option_fmap option_map]. assert (h = g) as -> by congruence. rewrite <- Hw at 2. done.
    + rewrite <- Hw at 1. done.
  - rewrite decide_False; [|intros E; congruence]. destruct (Z.eqb_spec q (Z.of_nat i)) as [E|E]; [|done].
    rewrite E, Nat2Z.id in Hh. congruence.
Qed.

Lemma set_bit_length bm b : length (set_bit bm b) = length bm.
Proof. apply wr32_length. Qed.
Lemma clear_bit_length bm b : length (clear_bit bm b) = length bm.
Proof. apply wr32_length. Qed.

(** The bytes that hold no block bitmap. *)
Definition outside_bitmaps (s : e2fs) (p : nat) : Prop :=
  Forall (λ g, (p < block_pos s (bg_block_bitmap g) ∨ block_pos s (bg_block_bitmap g) + block_len s <= p)%nat) (bgtable s).

Definition with_dirty (s : e2fs) : e2fs :=
  mk_e2fs (s_blocks_count s) (s_free_blocks_count s) (s_free_inodes_count s) (s_blocks_per_group s)
    (s_inodes_per_group s) (s_blocksize s) (bgtable s) true (rw_lock s) (dev s).

Lemma relock s bg d l : with_lock (account_blocks (with_lock s l) bg d) (rw_lock s) = account_blocks s bg d.
Proof. done. Qed.

(** Freeing block [b] of group [i]. *)
Lemma free_block_run s i g b :
  e2_ok s → bgtable s !! i = Some g → 0 <= b < s_blocks_per_group s →
  e2_free_block s (b + Z.of_nat i * s_blocks_per_group s) true
  = Ret (account_blocks (write_bitmap s g (clear_bit (bitmap_of s g) b)) (Z.of_nat i) 1, Ok tt).
Proof.
  intros [geo Hlk _ _] Hi Hb. pose proof (geo_group s geo) as [Hbpg _].
  pose proof (list_elem_of_lookup_2 _ _ _ Hi) as Hg. destruct (bitmap_pos s geo g Hg) as (_ & _ & Hin).
  unfold e2_free_block, spin_lock. rewrite Hlk. cbn [negb Z.eqb obind].
  change (s_blocks_per_group (with_lock s 1)) with (s_blocks_per_group s). change (bgtable (with_lock s 1)) with (bgtable s).
  destruct (block_div_mod (s_blocks_per_group s) (Z.of_nat i) b ltac:(lia) Hb) as [-> ->].
  rewrite Nat2Z.id, Hi. unfold e2_read_block, e2_write_block. change (in_dev (with_lock s 1)) with (in_dev s).
  rewrite Hin. cbn [obind]. unfold spin_unlock. rewrite <- Hlk at 1. done.
Qed.

(** Freeing a block in use gives exactly that block back. *)
Lemma e2_free_block_ok s i g b :
  e2_ok s → bgtable s !! i = Some g → 0 <= b < s_blocks_per_group s → bit_clear (bitmap_of s g) b = false →
  ∃ s', e2_free_block s (b + Z.of_nat i * s_blocks_per_group s) true = Ret (s', Ok tt) ∧ e2_ok s'
    ∧ s_free_blocks_count s' = s_free_blocks_count s + 1
    ∧ ∀ c, 0 <= c → block_free s' c = block_free s c || (c =? b + Z.of_nat i * s_blocks_per_group s).
Proof.
  intros Hok Hi Hb Hused. eexists. split; [by apply free_block_run|].
  destruct Hok as [geo Hlk Hgrp Hsum] eqn:E; clear E. pose proof (list_elem_of_lookup_2 _ _ _ Hi) as Hg.
  destruct (bitmap_of_ok s geo g Hg) as [Hbm Hlen]. pose proof (geo_group s geo) as [Hbpg _].
  assert (Hbits := λ c, bit_clear_clear _ _ b c Hbm Hb).
  assert (Hcnt : free_count (clear_bit (bitmap_of s g) b) (s_blocks_per_group s) = bg_free_blocks_count g + 1).
  { rewrite (Forall_lookup_1 _ _ _ _ Hgrp Hi). cbn beta.
    rewrite (free_count_take (clear_bit (bitmap_of s g) b) (bitmap_of s g) (s_blocks_per_group s) b Hb); [lia| |].
    - rewrite Hbits, Z.eqb_refl by lia. apply orb_true_r.
    - intros c Hc. rewrite Hbits by done. destruct (Z.eqb_spec b c) as [<-|]; [by rewrite Hused|].
      by rewrite orb_false_r, andb_true_r. }
  destruct (regroup_ok s i g (clear_bit (bitmap_of s g) b) 1) as [Hok' Hfree]; try done.
  { by rewrite clear_bit_length. }
  { apply wr32_bytes, Hbm. }
  split; [done|]. split; [done|]. intros c Hc. rewrite block_free_write; [|done|done|by rewrite clear_bit_length|done].
  pose proof (Z.mod_pos_bound c (s_blocks_per_group s) ltac:(lia)). rewrite (same_block _ (Z.of_nat i) b c) by lia.
  destruct (Z.eqb_spec (c / s_blocks_per_group s) (Z.of_nat i)) as [E|E]; [|by rewrite orb_false_r].
  unfold block_free. by rewrite E, Nat2Z.id, Hi, Hbits by lia.
Qed.

(** The new bitmap and counts after a clear bit was taken, and what freeing
    the block makes of them. *)
Lemma take_block s i g b :
  e2_ok s → bgtable s !! i = Some g → 0 <= b < s_blocks_per_group s → bit_clear (bitmap_of s g) b = true →
  let s' := account_blocks (write_bitmap s g (set_bit (bitmap_of s g) b)) (Z.of_nat i) (-1) in
  e2_ok s' ∧ s_free_blocks_count s' = s_free_blocks_count s - 1
  ∧ (∀ c, 0 <= c → block_free s' c = block_free s c && negb (c =? b + Z.of_nat i * s_blocks_per_group s)).
Proof.
  intros Hok Hi Hb Hclr s'. pose proof Hok as [geo Hlk Hgrp Hsum]. pose proof (list_elem_of_lookup_2 _ _ _ Hi) as Hg.
  destruct (bitmap_of_ok s geo g Hg) as [Hbm Hlen]. pose proof (geo_group s geo) as [Hbpg _].
  assert (Hbits := λ c, bit_clear_set _ _ b c Hbm Hb).
  assert (Hcnt : free_count (set_bit (bitmap_of s g) b) (s_blocks_per_group s) = bg_free_blocks_count g + -1).
  { rewrite (Forall_lookup_1 _ _ _ _ Hgrp Hi). cbn beta. by apply free_count_take with b. }
  destruct (regroup_ok s i g (set_bit (bitmap_of s g) b) (-1)) as [Hok' Hfree]; try done.
  { by rewrite set_bit_length. }
  { apply wr32_bytes, Hbm. }
  split; [done|]. split; [done|]. intros c Hc. unfold s'. rewrite block_free_write; [|done|done|by rewrite set_bit_length|done].
  pose proof (Z.mod_pos_bound c (s_blocks_per_group s) ltac:(lia)). rewrite (same_block _ (Z.of_nat i) b c) by lia.
  destruct (Z.eqb_spec (c / s_blocks_per_group s) (Z.of_nat i)) as [E|E]; [|by rewrite andb_true_r].
  unfold block_free. by rewrite E, Nat2Z.id, Hi, Hbits by lia.
Qed.

Lemma inserts_back {A} p (k l : list A) : list_inserts p (slice p (length k) l) (list_inserts p k l) = l.
Proof.
  apply list_eq. intros i. rewrite inserts_lookup, length_inserts. case_decide as H.
  - unfold slice in H. rewrite length_take, length_drop in H. rewrite slice_lookup, decide_True by lia. f_equal. lia.
  - rewrite inserts_lookup. case_decide as H'; [|done]. exfalso. apply H. split; [|lia].
    unfold slice. rewrite length_take, length_drop. lia.
Qed.

Lemma free_after_take s i g b :
  e2_ok s → bgtable s !! i = Some g → 0 <= b < s_blocks_per_group s → bit_clear (bitmap_of s g) b = true →
  e2_free_block (account_blocks (write_bitmap s g (set_bit (bitmap_of s g) b)) (Z.of_nat i) (-1))
    (b + Z.of_nat i * s_blocks_per_group s) true = Ret (with_dirty s, Ok tt).
Proof.
  intros Hok Hi Hb Hclr. destruct (take_block s i g b Hok Hi Hb Hclr) as (Hok' & Hfree & _).
  pose proof Hok as [geo Hlk Hgrp Hsum]. pose proof (list_elem_of_lookup_2 _ _ _ Hi) as Hg.
  destruct (bitmap_of_ok s geo g Hg) as [Hbm Hlen]. pose proof (geo_group s geo) as [Hbpg _].
  set (s' := account_blocks _ _ _) in *. set (bm := bitmap_of s g) in *.
  set (g' := set_free_blocks (u16 (bg_free_blocks_count g + -1)) g).
  assert (Hi' : bgtable s' !! i = Some g').
  { unfold s'. cbn [account_blocks bgtable]. rewrite Nat2Z.id, list_lookup_alter_eq.
    change (bgtable (write_bitmap s g _)) with (bgtable s). by rewrite Hi. }
  change (s_blocks_per_group s) with (s_blocks_per_group s') at 1.
  rewrite (free_block_run s' i g' b Hok' Hi' Hb). f_equal. f_equal.
  assert (Hbm' : bitmap_of s' g' = set_bit bm b).
  { pose proof (bitmap_of_write s geo i i g g (set_bit bm b) Hi Hi ltac:(by rewrite set_bit_length)) as H.
    by rewrite decide_True in H by done. }
  rewrite Hbm', (clear_set_bit bm (s_blocks_per_group s)) by done.
  assert (Hc : 1 <= bg_free_blocks_count g <= s_blocks_per_group s).
  { rewrite (Forall_lookup_1 _ _ _ _ Hgrp Hi). fold bm. pose proof (free_count_range bm (s_blocks_per_group s) ltac:(lia)).
    split; [|lia]. destruct (Z.eq_dec (free_count bm (s_blocks_per_group s)) 0) as [E|]; [|lia].
    rewrite (free_count_zero _ _ b E Hb) in Hclr. done. }
  unfold account_blocks, write_bitmap, with_dirty. cbn [with_dev s_blocks_count s_free_blocks_count s_free_inodes_count
    s_blocks_per_group s_inodes_per_group s_blocksize bgtable dirty rw_lock dev].
  pose proof (sum_free_range s geo Hgrp). rewrite Hfree. f_equal.
  - rewrite Z.sub_add. apply u32_small. lia.
  - apply list_eq. intros j. rewrite Nat2Z.id, list_lookup_alter. case_decide as Hj; [subst j|].
    + rewrite Hi', Hi. cbn. unfold g', set_free_blocks. cbn. rewrite (u16_small (_ + -1)), u16_small by lia.
      destruct g. cbn. do 2 f_equal. lia.
    + unfold s'. cbn [account_blocks bgtable]. rewrite Nat2Z.id. by apply list_lookup_alter_ne.
  - change (dev s') with (list_inserts (block_pos s (bg_block_bitmap g)) (set_bit bm b) (dev s)).
    rewrite <- (inserts_back (block_pos s (bg_block_bitmap g)) (set_bit bm b) (dev s)) at 2.
    rewrite set_bit_length, Hlen. done.
Qed.

Lemma write_outside s g bm p :
  g ∈ bgtable s → length bm = block_len s → outside_bitmaps s p → dev (write_bitmap s g bm) !! p = dev s !! p.
Proof.
  intros Hg Hlen Hp. apply (proj1 (Forall_forall _ _) Hp) in Hg. cbn [write_bitmap with_dev dev].
  rewrite inserts_lookup, decide_False; [done|]. rewrite Hlen. lia.
Qed.

(** Blocks before [b] of group [k] are in use when the groups before it have
    none free and neither has the group below [b]. *)
Lemma lower_used s k g b c :
  e2_ok s → bgtable s !! k = Some g → 0 <= b < s_blocks_per_group s →
  (∀ c, 0 <= c < b → bit_clear (bitmap_of s g) c = false) →
  (∀ j h, (j < k)%nat → bgtable s !! j = Some h → bg_free_blocks_count h = 0) →
  0 <= c < b + Z.of_nat k * s_blocks_per_group s → block_free s c = false.
Proof.
  intros [geo _ Hgrp _] Hk Hb Hlow Hbefore Hc. pose proof (geo_group s geo) as [Hbpg _]. unfold block_free.
  pose proof (Z.div_mod c (s_blocks_per_group s) ltac:(lia)) as Hdm.
  pose proof (Z.mod_pos_bound c (s_blocks_per_group s) ltac:(lia)).
  assert (0 <= c / s_blocks_per_group s) by (apply Z.div_pos; lia).
  assert (c / s_blocks_per_group s <= Z.of_nat k) by nia.
  destruct (bgtable s !! Z.to_nat (c / s_blocks_per_group s)) as [h|] eqn:Hh; [|done].
  destruct (Z.eq_dec (c / s_blocks_per_group s) (Z.of_nat k)) as [E|E].
  - rewrite E, Nat2Z.id, Hk in Hh. simplify_eq. apply Hlow. nia.
  - apply (free_count_zero _ (s_blocks_per_group s)); [|lia].
    rewrite <- (Forall_lookup_1 _ _ _ _ Hgrp Hh). apply (Hbefore (Z.to_nat (c / s_blocks_per_group s))); [lia|done].
Qed.

(** The block that is taken, and the state of the file system afterwards. *)
Lemma e2_alloc_block_run s :
  e2_ok s → s_free_blocks_count s ≠ 0 →
  ∃ i g b, bgtable s !! i = Some g ∧ 0 <= b < s_blocks_per_group s ∧ bit_clear (bitmap_of s g) b = true
    ∧ (∀ c, 0 <= c < b + Z.of_nat i * s_blocks_per_group s → block_free s c = false)
    ∧ 0 <= b + Z.of_nat i * s_blocks_per_group s < EXT2_BGCOUNT s * s_blocks_per_group s
    ∧ e2_alloc_block s true
      = Ret (account_blocks (write_bitmap s g (set_bit (bitmap_of s g) b)) (Z.of_nat i) (-1), b + Z.of_nat i * s_blocks_per_group s).
Proof.
  intros Hok Hne. pose proof Hok as [geo Hlk Hgrp Hsum]. pose proof (geo_group s geo) as [Hbpg _]. unfold e2_alloc_block.
  case_if; [done|]. unfold spin_lock. rewrite Hlk. cbn [negb Z.eqb obind].
  change (EXT2_BGCOUNT (with_lock s 1)) with (EXT2_BGCOUNT s). change (bgtable (with_lock s 1)) with (bgtable s).
  rewrite take_ge by (rewrite <- (geo_table s geo); lia).
  destruct (scan_groups_spec (with_lock s 1) (bgtable s) 0) as (r & -> & Hfound); [by destruct geo; constructor|done|done|].
  cbn [obind]. destruct r as [[[[n b] g] bm]|]; cbn [found] in Hfound; [|congruence].
  change (s_blocks_per_group (with_lock s 1)) with (s_blocks_per_group s) in *.
  destruct Hfound as (-> & Hb & Hclr & Hlow & k & Hk & -> & Hbefore). rewrite Z.add_0_l.
  change (bitmap_of (with_lock s 1) g) with (bitmap_of s g) in *. pose proof (list_elem_of_lookup_2 _ _ _ Hk) as Hg.
  destruct (bitmap_pos s geo g Hg) as (_ & _ & Hin). exists k, g, b.
  unfold e2_write_block. change (in_dev (with_lock s 1)) with (in_dev s). rewrite Hin. cbn [obind].
  pose proof (geo_table s geo) as Htab. pose proof (lookup_lt_Some _ _ _ Hk). pose proof (geo_count s geo).
  pose proof (Z.mul_div_le (s_blocks_count s) (s_blocks_per_group s) ltac:(lia)).
  assert (0 <= b + Z.of_nat k * s_blocks_per_group s < EXT2_BGCOUNT s * s_blocks_per_group s) as Hr by nia.
  do 3 (split; [done|]). split; [intros c; by apply (lower_used s k g b)|]. split; [done|].
  unfold EXT2_BGCOUNT in Hr. cbn [account_blocks with_dev with_lock s_blocks_per_group]. rewrite u32_small by lia.
  f_equal. f_equal. unfold spin_unlock. rewrite <- Hlk. done.
Qed.

Lemma block_free_at s i g b : bgtable s !! i = Some g → 0 <= b < s_blocks_per_group s → 
  block_free s (b + Z.of_nat i * s_blocks_per_group s) = bit_clear (bitmap_of s g) b.
Proof.
  intros Hi Hb. unfold block_free. destruct (block_div_mod (s_blocks_per_group s) (Z.of_nat i) b ltac:(lia) Hb) as [-> ->].
  by rewrite Nat2Z.id, Hi.
Qed.

(** C25: [e2_alloc_block] with memory for its buffer, on a consistent file
    system whose blocks fill its groups: when the superblock counts a free block
    the call returns the lowest block whose bit is clear, sets exactly this bit,
    lowers the counts of its group and of the superblock by one, leaves every
    byte outside the block bitmaps alone and keeps the file system consistent;
    freeing the block restores the file system but for its dirty mark.  When no
    block is free it returns 0 and changes nothing.  Two limits of the code are
    limits of the statement: blocks are numbered from 0, the code's way, which is
    the volume's numbering only where [s_first_data_block] is 0 (blocks of 2048
    bytes and more; [e2_first_data_block_ignored] is the other case), and the
    groups are those of [EXT2_BGCOUNT], which rounds down: a volume with free
    blocks in a partial last group is not consistent in this sense, and
    [e2_partial_group_unused] shows the call returning 0 there. *)
Theorem e2_alloc_block_sound s :
  e2_ok s →
  if s_free_blocks_count s =? 0 then e2_alloc_block s true = Ret (s, 0)
  else ∃ s' r, e2_alloc_block s true = Ret (s', r) ∧ e2_ok s'
    ∧ 0 <= r < EXT2_BGCOUNT s * s_blocks_per_group s
    ∧ block_free s r = true ∧ (∀ c, 0 <= c < r → block_free s c = false)
    ∧ (∀ c, 0 <= c → block_free s' c = block_free s c && negb (c =? r))
    ∧ s_free_blocks_count s' = s_free_blocks_count s - 1
    ∧ (∀ p, outside_bitmaps s p → dev s' !! p = dev s !! p)
    ∧ e2_free_block s' r true = Ret (with_dirty s, Ok tt).
Proof.
  intros Hok. case_if; [unfold e2_alloc_block; case_if; [done|lia]|]. pose proof Hok as [geo Hlk Hgrp Hsum].
  destruct (e2_alloc_block_run s Hok ltac:(done)) as (i & g & b & Hi & Hb & Hclr & Hlow & Hr & Hrun).
  pose proof (list_elem_of_lookup_2 _ _ _ Hi) as Hg. destruct (bitmap_of_ok s geo g Hg) as [Hbm Hlen].
  destruct (take_block s i g b Hok Hi Hb Hclr) as (Hok' & Hfree & Hbits).
  eexists _, _. split; [exact Hrun|]. split; [done|]. split; [done|]. split; [by rewrite (block_free_at s i g b)|].
  do 3 (split; [done|]). split; [|by apply free_after_take].
  intros p. apply write_outside; [done|by rewrite set_bit_length].
Qed.

(** Two groups of eight blocks of four bytes, their bitmaps in blocks 2 and
    10: the first group is full, three blocks of the second are in use. *)
Definition demo_fs : e2fs :=
  mk_e2fs 16 5 0 8 8 4 [mk_bg 2 3 4 0 0; mk_bg 10 11 12 5 0] false 0
    (list_inserts 40 [7] (list_inserts 8 [255] (replicate 64 0))).

Lemma demo_fs_ok : e2_ok demo_fs.
Proof.
  repeat split; try done; repeat constructor; (done || set_solver).
Qed.

Lemma e2_alloc_block_sound_witness :
  e2_ok demo_fs ∧ ∃ s', e2_alloc_block demo_fs true = Ret (s', 11) ∧ e2_ok s' ∧ s_free_blocks_count s' = 4.
Proof.
  split; [exact demo_fs_ok|].
  pose proof (e2_alloc_block_sound demo_fs demo_fs_ok) as H. cbn [s_free_blocks_count demo_fs Z.eqb Pos.eqb] in H.
  destruct H as (s' & r & Hrun & Hok & _ & _ & _ & _ & Hfree & _). exists s'.
  assert (r = 11) as -> by (vm_compute in Hrun; by inversion Hrun). split; [done|]. by split.
Defined.

(** Freeing a block that is free already counts it again: the superblock's count no longer
    agrees with the bitmaps. *)
Lemma e2_double_free :
  match e2_free_block demo_fs 12 true with
  | Ret (s', Ok tt) => s_free_blocks_count s' = 6 ∧ foldr Z.add 0 ((λ g, free_count (bitmap_of s' g) 8) <$> bgtable s') = 5
  | _ => False
  end.
Proof. vm_compute. done. Qed.

(** The same volume read as the format has it when the first data block is 1:
    bit [b] of group [i] stands for block [1 + i * 8 + b]. *)
Definition disk_free (first : Z) (s : e2fs) (block : Z) : bool := (first <=? block) && block_free s (block - first).

(** There the call marks block 12 and returns block 11, which is in use. *)
Theorem e2_first_data_block_ignored :
  match e2_alloc_block demo_fs true with
  | Ret (s', r) => r = 11 ∧ disk_free 1 demo_fs 11 = false ∧ disk_free 1 demo_fs 12 = true ∧ disk_free 1 s' 12 = false
  | _ => False
  end.
Proof. vm_compute. by repeat split. Qed.

(** Twenty blocks in groups of eight: the last four are a group of their own
    that the driver does not load.  Its free blocks are in the superblock's
    count, but the call finds none and returns 0. *)
Definition partial_fs : e2fs :=
  mk_e2fs 20 4 0 8 8 4 [mk_bg 2 3 4 0 0; mk_bg 10 11 12 0 0] false 0
    (list_inserts 40 [255] (list_inserts 8 [255] (replicate 80 0))).

Theorem e2_partial_group_unused :
  e2_geometry partial_fs ∧ s_free_blocks_count partial_fs = 4 ∧ e2_alloc_block partial_fs true = Ret (partial_fs, 0).
Proof.
  split; [|by split; vm_compute].
  repeat split; try done; repeat constructor; (done || set_solver).
Qed.
