(* ===== verification/E2Super.v ===== *)
(** The superblock and the table of block groups of the ext2 driver:
    [src/kernel/src/ext2fs/super.c], over the device of [E2Alloc].

    Of the superblock and the group descriptors only the counts of free blocks
    and inodes change while the file system is mounted.  [e2_static] keeps the
    rest: the fields that are used, and the bytes of both structures as they
    were read, from which the bytes to write back are made.  The entry of the
    root directory, which [e2_read_super] also makes, belongs to [Dcache]. *)

From S2P Require Import Prelude Bytes E2Alloc.

(** * Half words, bytes of the device *)

Definition rd16 (l : list Z) (off : nat) : Z := (l !!! off) + 256 * (l !!! S off).
Definition le16 (w : Z) : list Z := [w mod 256; (w / 256) mod 256].
Definition wr16 (l : list Z) (off : nat) (w : Z) : list Z := list_inserts off (le16 w) l.

(** [block_read] and [block_write] on the device of the file system; as in
    [E2Alloc] a range outside the device is a fault. *)
Definition dev_read (s : e2fs) (pos len : Z) : outcome (list Z) :=
  if u32 pos + len <=? Z.of_nat (length (dev s)) then Ret (slice (Z.to_nat (u32 pos)) (Z.to_nat len) (dev s)) else Halt.

Definition dev_write (s : e2fs) (pos : Z) (buffer : list Z) : outcome e2fs :=
  if u32 pos + Z.of_nat (length buffer) <=? Z.of_nat (length (dev s))
  then Ret (with_dev s (list_inserts (Z.to_nat (u32 pos)) buffer (dev s))) else Halt.

(** * The two structures *)

Definition EXT2_SUPER_MAGIC : Z := 61267.
Definition SUPER_SIZE : Z := 268.      (* sizeof(e2_superblock_t) *)
Definition BG_SIZE : Z := 32.          (* sizeof(e2_bg_descr_t) *)

Record e2_static := mk_static {
  s_inodes_count : Z;
  s_inode_size : Z;
  super_image : list Z;
  table_image : list Z;
}.

(** Descriptor number [k] of a table. *)
Definition bg_read (table : list Z) (k : nat) : e2_bg_descr :=
  let w := 8 * Z.of_nat k in
  mk_bg (rd32 table w) (rd32 table (w + 1)) (rd32 table (w + 2)) (rd16 table (32 * k + 12)) (rd16 table (32 * k + 14)).

(** The counts of the descriptors [l], the first of which is number [k], in
    the table. *)
Fixpoint bg_write (table : list Z) (k : nat) (l : list e2_bg_descr) : list Z :=
  match l with
  | [] => table
  | g :: l =>
      bg_write (wr16 (wr16 table (32 * k + 12) (bg_free_blocks_count g)) (32 * k + 14) (bg_free_inodes_count g)) (S k) l
  end.

Definition super_bytes (st : e2_static) (s : e2fs) : list Z :=
  wr32 (wr32 (super_image st) 3 (s_free_blocks_count s)) 4 (s_free_inodes_count s).
Definition table_bytes (st : e2_static) (s : e2fs) : list Z := bg_write (table_image st) 0 (bgtable s).

(** Where the table starts: the block behind the superblock. *)
Definition table_pos (blocksize : Z) : Z := (if blocksize =? 1024 then 2 else 1) * blocksize.

(** * Operations *)

(** A file system whose structures are not yet read, on a device. *)
Definition raw_fs (d : list Z) : e2fs := mk_e2fs 0 0 0 0 0 0 [] false 0 d.

Definition e2_read_super (d : list Z) (memory : bool) : outcome (result (e2_static * e2fs)) :=
  if negb memory then Ret (Err ENOMEM)
  else
    sup <~ dev_read (raw_fs d) 1024 SUPER_SIZE ;;
    if negb (rd16 sup 56 =? EXT2_SUPER_MAGIC) then Ret (Err EINVAL)
    else
      let blocksize := u32 (Z.shiftl 1024 (rd32 sup 6)) in
      if rd32 sup 8 =? 0 then Halt
      else
        let count := rd32 sup 1 / rd32 sup 8 in
        table <~ dev_read (raw_fs d) (table_pos blocksize) (u32 (BG_SIZE * count)) ;;
        Ret (Ok (mk_static (rd32 sup 0) (rd16 sup 88) sup table,
          mk_e2fs (rd32 sup 1) (rd32 sup 3) (rd32 sup 4) (rd32 sup 8) (rd32 sup 10) blocksize
            (bg_read table <$> seq 0 (Z.to_nat count)) false 0 d)).

Definition set_dirty (s : e2fs) (b : bool) : e2fs :=
  mk_e2fs (s_blocks_count s) (s_free_blocks_count s) (s_free_inodes_count s) (s_blocks_per_group s)
    (s_inodes_per_group s) (s_blocksize s) (bgtable s) b (rw_lock s) (dev s).

Definition e2_super_flush (st : e2_static) (s : e2fs) : outcome e2fs :=
  if negb (dirty s) then Ret s
  else
    s <~ dev_write (set_dirty s false) 1024 (super_bytes st s) ;;
    dev_write s (table_pos (s_blocksize s)) (table_bytes st s).

(** The device after the file system was released. *)
Definition e2_put_super (st : e2_static) (s : e2fs) : outcome (list Z) :=
  s <~ e2_super_flush st s ;; Ret (dev s).

(** * Words and half words at different places *)

Lemma rd16_lookup l l' i j :
  (∀ k, (k < 2)%nat → l !! (i + k)%nat = l' !! (j + k)%nat) → rd16 l i = rd16 l' j.
Proof.
  intros H. unfold rd16. pose proof (H 0%nat ltac:(lia)) as H0. pose proof (H 1%nat ltac:(lia)) as H1.
  rewrite !Nat.add_0_r in H0. rewrite !Nat.add_1_r in H1. rewrite !list_lookup_total_alt. by rewrite H0, H1.
Qed.

Lemma rd16_wr16_eq l o w : (o + 2 <= length l)%nat → 0 <= w < 65536 → rd16 (wr16 l o w) o = w.
Proof.
  intros Hl Hw. unfold rd16, wr16. rewrite !list_lookup_total_alt, !inserts_lookup. rewrite !decide_True by (simpl; lia).
  replace (o - o)%nat with 0%nat by lia. replace (S o - o)%nat with 1%nat by lia. cbn.
  Z.to_euclidean_division_equations; lia.
Qed.

Lemma rd16_wr16_ne l o p w : (o + 2 <= p ∨ p + 2 <= o)%nat → rd16 (wr16 l o w) p = rd16 l p.
Proof. intros H. apply rd16_lookup. intros k Hk. unfold wr16. rewrite inserts_lookup, decide_False; [done|]. simpl. lia. Qed.

Lemma rd16_wr32_ne l i p w : (p + 2 <= Z.to_nat (4 * i) ∨ Z.to_nat (4 * i) + 4 <= p)%nat → rd16 (wr32 l i w) p = rd16 l p.
Proof. intros H. apply rd16_lookup. intros k Hk. unfold wr32. rewrite inserts_lookup, decide_False; [done|]. simpl. lia. Qed.

Lemma rd32_wr16_ne l i p w : (p + 2 <= Z.to_nat (4 * i) ∨ Z.to_nat (4 * i) + 4 <= p)%nat → rd32 (wr16 l p w) i = rd32 l i.
Proof. intros H. apply rd32_lookup. intros k Hk. unfold wr16. rewrite inserts_lookup, decide_False; [done|]. simpl. lia. Qed.

Lemma le16_bytes w : Forall byte_ok (le16 w).
Proof. unfold le16, byte_ok. repeat constructor; apply Z.mod_pos_bound; lia. Qed.

Lemma wr16_length l o w : length (wr16 l o w) = length l.
Proof. apply length_inserts. Qed.

Lemma wr16_bytes l o w : Forall byte_ok l → Forall byte_ok (wr16 l o w).
Proof. intros. apply inserts_Forall; [apply le16_bytes|done]. Qed.

Lemma rd16_range l o : Forall byte_ok l → 0 <= rd16 l o < 65536.
Proof.
  intros Hl. unfold rd16. assert (H : ∀ n, 0 <= l !!! n < 256).
  { intros n. rewrite list_lookup_total_alt. destruct (l !! n) as [x|] eqn:E; simpl; [|done].
    by apply (Forall_lookup_1 _ _ _ _ Hl E). }
  pose proof (H o). pose proof (H (S o)). lia.
Qed.

(** * The table of groups *)

Lemma bg_write_length t k l : length (bg_write t k l) = length t.
Proof. revert t k. induction l as [|g l IH]; intros t k; simpl; [done|]. by rewrite IH, !wr16_length. Qed.

Lemma bg_write_bytes t k l : Forall byte_ok t → Forall byte_ok (bg_write t k l).
Proof. revert t k. induction l as [|g l IH]; intros t k Ht; simpl; [done|]. by apply IH, wr16_bytes, wr16_bytes. Qed.

(** Bytes of earlier descriptors, and bytes that are not counts, stay. *)
Lemma bg_write_other t k l p :
  (p < 32 * k ∨ p `mod` 32 < 12 ∨ 16 <= p `mod` 32)%nat → bg_write t k l !! p = t !! p.
Proof.
  revert t k. induction l as [|g l IH]; intros t k Hp; simpl; [done|].
  pose proof (Nat.div_mod_eq p 32). rewrite IH by lia. unfold wr16. rewrite !inserts_lookup.
  rewrite !decide_False; [done|cbn [length le16]..]; intros [? _];
    assert (p / 32 = k)%nat by (symmetry; apply (Nat.div_unique p 32 k (p - 32 * k)); lia); lia.
Qed.

Lemma bg_write_read t k l i g :
  (32 * (k + length l) <= length t)%nat → l !! i = Some g →
  0 <= bg_free_blocks_count g < 65536 → 0 <= bg_free_inodes_count g < 65536 →
  let j := (k + i)%nat in
  rd16 (bg_write t k l) (32 * j + 12) = bg_free_blocks_count g ∧ rd16 (bg_write t k l) (32 * j + 14) = bg_free_inodes_count g.
Proof.
  intros Ht Hi Hb Hn. revert t k i Ht Hi. induction l as [|h l IH]; intros t k i Ht Hi; [done|]. cbv zeta.
  cbn [bg_write length] in *. destruct i as [|i]; cbn in Hi.
  - injection Hi as ->. rewrite Nat.add_0_r.
    set (t' := wr16 (wr16 t (32 * k + 12) _) (32 * k + 14) _).
    assert (Hsame : ∀ o, (o = 12 ∨ o = 14)%nat → rd16 (bg_write t' (S k) l) (32 * k + o) = rd16 t' (32 * k + o)).
    { intros o Ho. apply rd16_lookup. intros m Hm. apply bg_write_other. lia. }
    rewrite !Hsame by lia. unfold t'.
    split; [rewrite rd16_wr16_ne by lia|]; apply rd16_wr16_eq; rewrite ?wr16_length; first [done|lia].
  - replace (k + S i)%nat with (S k + i)%nat by lia. apply IH; [rewrite !wr16_length; lia|done].
Qed.

(** The words of a descriptor that are not counts. *)
Lemma bg_write_static t k l j i : (i < 3)%nat →
  rd32 (bg_write t k l) (8 * Z.of_nat j + Z.of_nat i) = rd32 t (8 * Z.of_nat j + Z.of_nat i).
Proof.
  intros Hi. apply rd32_lookup. intros m Hm. apply bg_write_other. right. left.
  replace (Z.to_nat _ + m)%nat with (4 * i + m + j * 32)%nat by lia. rewrite Nat.Div0.mod_add, Nat.mod_small; lia.
Qed.

Lemma bg_read_write t l j g :
  (32 * length l <= length t)%nat → l !! j = Some g →
  0 <= bg_free_blocks_count g < 65536 → 0 <= bg_free_inodes_count g < 65536 →
  bg_block_bitmap (bg_read t j) = bg_block_bitmap g → bg_inode_bitmap (bg_read t j) = bg_inode_bitmap g →
  bg_inode_table (bg_read t j) = bg_inode_table g →
  bg_read (bg_write t 0 l) j = g.
Proof.
  intros Ht Hj Hb Hn H1 H2 H3. destruct (bg_write_read t 0 l j g ltac:(lia) Hj Hb Hn) as [E1 E2]. cbv zeta in E1, E2.
  rewrite Nat.add_0_l in E1, E2. unfold bg_read in *. cbn [bg_block_bitmap bg_inode_bitmap bg_inode_table] in *.
  rewrite E1, E2. pose proof (bg_write_static t 0 l j 0 ltac:(lia)) as S0. pose proof (bg_write_static t 0 l j 1 ltac:(lia)) as S1.
  pose proof (bg_write_static t 0 l j 2 ltac:(lia)) as S2. rewrite Z.add_0_r in S0. change (Z.of_nat 1) with 1 in S1. change (Z.of_nat 2) with 2 in S2.
  rewrite S0, S1, S2, H1, H2, H3. by destruct g.
Qed.

(** * Mounting *)

(** The structures in memory agree with the bytes they were read from, but
    for the counts. *)
Record mounted (st : e2_static) (s : e2fs) : Prop := {
  mt_image : Z.of_nat (length (super_image st)) = SUPER_SIZE ∧ Forall byte_ok (super_image st);
  mt_magic : rd16 (super_image st) 56 = EXT2_SUPER_MAGIC;
  mt_inodes : s_inodes_count st = rd32 (super_image st) 0 ∧ s_inode_size st = rd16 (super_image st) 88;
  mt_blocks : s_blocks_count s = rd32 (super_image st) 1;
  mt_bpg : s_blocks_per_group s = rd32 (super_image st) 8 ∧ 0 < s_blocks_per_group s;
  mt_ipg : s_inodes_per_group s = rd32 (super_image st) 10;
  mt_size : s_blocksize s = u32 (Z.shiftl 1024 (rd32 (super_image st) 6)) ∧ 0 < s_blocksize s;
  mt_table : Z.of_nat (length (bgtable s)) = EXT2_BGCOUNT s
    ∧ Z.of_nat (length (table_image st)) = BG_SIZE * EXT2_BGCOUNT s ∧ Forall byte_ok (table_image st);
  mt_groups : ∀ j g, bgtable s !! j = Some g →
    bg_block_bitmap g = bg_block_bitmap (bg_read (table_image st) j)
    ∧ bg_inode_bitmap g = bg_inode_bitmap (bg_read (table_image st) j)
    ∧ bg_inode_table g = bg_inode_table (bg_read (table_image st) j)
    ∧ 0 <= bg_free_blocks_count g < 65536 ∧ 0 <= bg_free_inodes_count g < 65536;
  mt_counts : 0 <= s_free_blocks_count s < 4294967296 ∧ 0 <= s_free_inodes_count s < 4294967296;
  mt_dev : Z.of_nat (length (dev s)) <= 4294967296 ∧ table_pos (s_blocksize s) + BG_SIZE * EXT2_BGCOUNT s <= Z.of_nat (length (dev s));
}.

(** The images after the file system was written and read again. *)
Definition rewritten (st : e2_static) (s : e2fs) : e2_static :=
  mk_static (s_inodes_count st) (s_inode_size st) (super_bytes st s) (table_bytes st s).

Lemma slice_bytes p n l : Forall byte_ok l → Forall byte_ok (slice p n l).
Proof. intros H. by apply Forall_take, Forall_drop. Qed.

Lemma dev_read_inv s pos len b :
  dev_read s pos len = Ret b → b = slice (Z.to_nat (u32 pos)) (Z.to_nat len) (dev s) ∧ u32 pos + len <= Z.of_nat (length (dev s)).
Proof. unfold dev_read. case_if; [|done]. intros [= <-]. done. Qed.

Lemma blocksize_cases k : 0 <= k → let bs := u32 (Z.shiftl 1024 k) in bs = 0 ∨ bs = 1024 ∨ 2048 <= bs.
Proof.
  intros Hk bs. unfold bs. rewrite Z.shiftl_mul_pow2 by done. destruct (Z.le_gt_cases 22 k) as [H|H].
  - left. unfold u32. replace k with (22 + (k - 22)) by lia. rewrite Z.pow_add_r by lia.
    replace (1024 * (2 ^ 22 * 2 ^ (k - 22))) with (2 ^ (k - 22) * 4294967296) by lia. apply Z.mod_mul. lia.
  - right. assert (2 ^ k <= 2 ^ 21) by (apply Z.pow_le_mono_r; lia). assert (0 < 2 ^ k) by (apply Z.pow_pos_nonneg; lia).
    rewrite u32_small by lia. destruct (Z.eq_dec k 0) as [->|]; [by left|right].
    assert (2 ^ 1 <= 2 ^ k) by (apply Z.pow_le_mono_r; lia). lia.
Qed.

Lemma table_pos_range k : 0 <= k → 0 < u32 (Z.shiftl 1024 k) → 1292 <= table_pos (u32 (Z.shiftl 1024 k)).
Proof. intros Hk H. destruct (blocksize_cases k Hk) as [|[|]]; unfold table_pos; case_if; lia. Qed.

Lemma e2_read_super_mounted d st s :
  Forall byte_ok d → Z.of_nat (length d) <= 4294967296 → e2_read_super d true = Ret (Ok (st, s)) →
  0 < s_blocksize s → table_pos (s_blocksize s) < 4294967296 → BG_SIZE * EXT2_BGCOUNT s < 4294967296 → mounted st s.
Proof.
  intros Hd Hlen. unfold e2_read_super. cbn [negb]. destruct (dev_read _ _ SUPER_SIZE) as [sup| |] eqn:Es; [|done..].
  cbn [obind]. case_if; [done|]. case_if; [done|]. destruct (dev_read _ (table_pos _) _) as [tab| |] eqn:Et; [|done..]. cbn [obind].
  intros [= <- <-]. cbn [s_blocksize]. intros Hbs Hp Ht. unfold EXT2_BGCOUNT in *. cbn [s_blocks_count s_blocks_per_group] in *.
  apply dev_read_inv in Es as [-> Hs]. apply dev_read_inv in Et as [-> Ht']. cbn [raw_fs dev] in *.
  set (sup := slice (Z.to_nat (u32 1024)) (Z.to_nat SUPER_SIZE) d) in *.
  assert (Hsup : Forall byte_ok sup) by (by apply slice_bytes).
  assert (Hw := λ i, rd32_range sup i Hsup). pose proof (Hw 1). pose proof (Hw 3). pose proof (Hw 4). pose proof (Hw 8).
  pose proof (table_pos_range _ (proj1 (Hw 6)) Hbs). assert (0 <= rd32 sup 1 / rd32 sup 8) by (apply Z.div_pos; lia).
  rewrite (u32_small (table_pos _)), (u32_small (BG_SIZE * _)) in * by (unfold BG_SIZE in *; lia).
  assert (Forall byte_ok (slice (Z.to_nat (table_pos (u32 (1024 ≪ rd32 sup 6)))) (Z.to_nat (BG_SIZE * (rd32 sup 1 / rd32 sup 8))) d)) as Htab
    by (by apply slice_bytes).
  set (tab := slice (Z.to_nat (table_pos _)) _ d) in *.
  constructor; unfold EXT2_BGCOUNT; cbn [super_image table_image s_inodes_count s_inode_size s_blocks_count s_blocks_per_group s_inodes_per_group
    s_blocksize bgtable s_free_blocks_count s_free_inodes_count dev]; try done.
  - split; [|done]. unfold sup. rewrite slice_length; [done|]. change (u32 1024) with 1024 in *. unfold SUPER_SIZE in *. lia.
  - split; [done|lia].
  - rewrite length_fmap, length_seq. split; [lia|]. split; [|done]. unfold tab, BG_SIZE in *. rewrite slice_length; lia.
  - intros j g Hg. rewrite list_lookup_fmap in Hg. destruct (seq 0 _ !! j) as [k|] eqn:Ek; [|done].
    apply lookup_seq in Ek as [-> _]. injection Hg as <-. repeat split; by apply rd16_range.
Qed.

Lemma super_bytes_length st s : length (super_bytes st s) = length (super_image st).
Proof. unfold super_bytes. by rewrite !wr32_length. Qed.

Lemma super_bytes_word st s i : mounted st s → 0 <= i → 4 * i + 4 <= SUPER_SIZE →
  rd32 (super_bytes st s) i = if i =? 3 then s_free_blocks_count s else if i =? 4 then s_free_inodes_count s else rd32 (super_image st) i.
Proof.
  intros [Him _ _ _ _ _ _ _ _ [Hfb Hfi] _] Hi Hlt. destruct Him as [Him _]. unfold super_bytes.
  destruct (Z.eqb_spec i 3) as [->|H3]; [rewrite rd32_wr32_ne, rd32_wr32_eq by lia; done|].
  destruct (Z.eqb_spec i 4) as [->|H4]; [rewrite rd32_wr32_eq by (rewrite ?wr32_length; lia); done|].
  by rewrite !rd32_wr32_ne by lia.
Qed.

Lemma super_bytes_half st s p : (p + 2 <= 12 ∨ 20 <= p)%nat → rd16 (super_bytes st s) p = rd16 (super_image st) p.
Proof. intros Hp. unfold super_bytes. by rewrite !rd16_wr32_ne by lia. Qed.

Lemma dev_write_ok s pos b :
  0 <= pos → pos + Z.of_nat (length b) <= Z.of_nat (length (dev s)) → Z.of_nat (length (dev s)) <= 4294967296 → (0 < length b)%nat →
  dev_write s pos b = Ret (with_dev s (list_inserts (Z.to_nat pos) b (dev s))).
Proof. intros H0 H1 H2 H3. unfold dev_write. rewrite u32_small by lia. case_if; [done|lia]. Qed.

Lemma dev_read_ok s pos len :
  0 <= pos < 4294967296 → pos + len <= Z.of_nat (length (dev s)) → dev_read s pos len = Ret (slice (Z.to_nat pos) (Z.to_nat len) (dev s)).
Proof. intros H0 H1. unfold dev_read. rewrite u32_small by lia. case_if; [done|lia]. Qed.

Lemma with_dev_twice s d d' : with_dev (with_dev s d) d' = with_dev s d'.
Proof. done. Qed.

(** The bytes a flush leaves on the device. *)
Definition flushed (st : e2_static) (s : e2fs) : list Z :=
  list_inserts (Z.to_nat (table_pos (s_blocksize s))) (table_bytes st s) (list_inserts 1024 (super_bytes st s) (dev s)).

Lemma e2_super_flush_run st s : mounted st s → dirty s = true → (0 < length (bgtable s))%nat →
  e2_super_flush st s = Ret (with_dev (set_dirty s false) (flushed st s)).
Proof.
  intros Hm Hd Hg. pose proof Hm as [[Him _] _ _ _ _ _ [Hbs Hb0] (Hn & Htab & _) _ _ [Hdev Hfit]].
  pose proof (table_pos_range _ (proj1 (rd32_range (super_image st) 6 ltac:(apply Hm)))) as Hpos. rewrite <- Hbs in Hpos. specialize (Hpos Hb0).
  unfold e2_super_flush. rewrite Hd. cbn [negb]. unfold SUPER_SIZE, BG_SIZE in *.
  rewrite dev_write_ok; cbn [dev set_dirty]; rewrite ?super_bytes_length; [|lia..]. cbn [obind].
  rewrite dev_write_ok; cbn [dev with_dev set_dirty s_blocksize]; unfold table_bytes;
    rewrite ?bg_write_length, ?length_inserts; [|lia..]. done.
Qed.

Lemma read_back st s : mounted st s → 
  slice 1024 268 (flushed st s) = super_bytes st s
  ∧ slice (Z.to_nat (table_pos (s_blocksize s))) (Z.to_nat (BG_SIZE * EXT2_BGCOUNT s)) (flushed st s) = table_bytes st s.
Proof.
  intros Hm. pose proof Hm as [[Him _] _ _ _ _ _ [Hbs Hb0] (Hn & Htab & _) _ _ [Hdev Hfit]].
  pose proof (table_pos_range _ (proj1 (rd32_range (super_image st) 6 ltac:(apply Hm)))) as Hpos. rewrite <- Hbs in Hpos. specialize (Hpos Hb0).
  unfold flushed, SUPER_SIZE in *. assert (length (table_bytes st s) = Z.to_nat (BG_SIZE * EXT2_BGCOUNT s)) as Hl.
  { unfold table_bytes. rewrite bg_write_length. lia. }
  split.
  - rewrite slice_inserts_disjoint by (right; lia). rewrite <- (slice_inserts_same 1024 (super_bytes st s) (dev s)) at 2.
    + rewrite super_bytes_length. f_equal. lia.
    + rewrite super_bytes_length. unfold BG_SIZE in *. lia.
  - rewrite <- Hl. apply slice_inserts_same. rewrite length_inserts, Hl. unfold BG_SIZE in *. lia.
Qed.

Lemma remount st s : mounted st s → rw_lock s = 0 → (0 < length (bgtable s))%nat →
  e2_read_super (flushed st s) true = Ret (Ok (rewritten st s, with_dev (set_dirty s false) (flushed st s))).
Proof.
  intros Hm Hlock Hgt. destruct (read_back st s Hm) as [Hsup Htab].
  pose proof Hm as [[Him _] Hmag [Hin His] Hbl [Hbpg Hbpg0] Hipg [Hbs Hb0] (Hn & Htl & _) Hgr _ [Hdev Hfit]].
  pose proof (table_pos_range _ (proj1 (rd32_range (super_image st) 6 ltac:(apply Hm)))) as Hpos. rewrite <- Hbs in Hpos. specialize (Hpos Hb0).
  assert (Hfl : length (flushed st s) = length (dev s)) by (unfold flushed; by rewrite !length_inserts).
  unfold SUPER_SIZE, BG_SIZE in *. assert (Hw := λ i, super_bytes_word st s i Hm).
  unfold e2_read_super. cbn [negb]. rewrite dev_read_ok by (cbn [dev raw_fs]; unfold SUPER_SIZE; lia). cbn [obind dev raw_fs].
  change (Z.to_nat 1024) with 1024%nat. change (Z.to_nat SUPER_SIZE) with 268%nat. rewrite Hsup.
  rewrite !super_bytes_half, Hmag, Z.eqb_refl by lia. unfold SUPER_SIZE in Hw. cbn [negb].
  rewrite (Hw 0), (Hw 1), (Hw 3), (Hw 4), (Hw 6), (Hw 8), (Hw 10) by lia. cbn [Z.eqb Pos.eqb].
  rewrite <- Hbs, <- Hbl, <- Hbpg, <- Hipg, <- Hin, <- His.
  case_if; [lia|]. fold (EXT2_BGCOUNT s). assert (0 <= EXT2_BGCOUNT s) by lia.
  rewrite (u32_small (BG_SIZE * _)) by (unfold BG_SIZE; lia).
  rewrite dev_read_ok by (cbn [dev raw_fs]; unfold BG_SIZE in *; lia). cbn [obind dev raw_fs]. unfold BG_SIZE. rewrite Htab.
  unfold rewritten, with_dev, set_dirty. cbn [s_blocks_count s_free_blocks_count s_free_inodes_count s_blocks_per_group
    s_inodes_per_group s_blocksize bgtable dirty rw_lock]. rewrite Hlock. do 3 f_equal. f_equal.
  apply list_eq. intros j. rewrite list_lookup_fmap. destruct (bgtable s !! j) as [g|] eqn:Ej.
  - pose proof (lookup_lt_Some _ _ _ Ej). rewrite lookup_seq_lt by lia. cbn [fmap option_fmap option_map]. f_equal.
    destruct (Hgr j g Ej) as (? & ? & ? & ? & ?). apply bg_read_write; [lia|done..].
  - apply lookup_ge_None in Ej. by rewrite lookup_seq_ge by lia.
Qed.

(** C28: mounting, flushing and mounting again is the identity.  What
    [e2_read_super] reads from a device satisfies [mounted]; from any such
    state (the counts of free blocks and inodes may have changed in the
    meantime) [e2_super_flush] returns, clears the dirty mark and changes only
    the bytes of the superblock and of the group table, and reading the device
    again gives the same file system: geometry, group descriptors and counts. *)
Theorem e2_super_persists d st s0 s :
  Forall byte_ok d → Z.of_nat (length d) <= 4294967296 → e2_read_super d true = Ret (Ok (st, s0)) →
  0 < s_blocksize s0 → table_pos (s_blocksize s0) < 4294967296 → BG_SIZE * EXT2_BGCOUNT s0 < 4294967296 →
  mounted st s0 ∧
  (mounted st s → dirty s = true → rw_lock s = 0 → bgtable s ≠ [] →
   ∃ s', e2_super_flush st s = Ret s' ∧ e2_read_super (dev s') true = Ret (Ok (rewritten st s, s'))
     ∧ s' = with_dev (set_dirty s false) (dev s')
     ∧ ∀ p, (p < 1024 ∨ 1292 <= p)%nat →
         (p < Z.to_nat (table_pos (s_blocksize s)) ∨ Z.to_nat (table_pos (s_blocksize s)) + length (table_image st) <= p)%nat →
         dev s' !! p = dev s !! p).
Proof.
  intros Hd Hlen Hr Hb Hp Ht. split; [by eapply e2_read_super_mounted|]. intros Hm Hdirty Hlock Hne.
  assert (0 < length (bgtable s))%nat by (destruct (bgtable s); [done|simpl; lia]).
  eexists. split; [by apply e2_super_flush_run|]. cbn [dev with_dev].
  split; [|split; [done|]].
  - by apply remount.
  - intros p Hp1 Hp2. unfold flushed. pose proof (mt_image _ _ Hm) as [Him _]. unfold SUPER_SIZE in Him.
    rewrite !inserts_lookup, !decide_False; [done|..]; unfold table_bytes; rewrite ?super_bytes_length, ?bg_write_length; lia.
Qed.

(** Two groups on a device of twelve blocks of 1024 bytes; the table is in
    block 2. *)
Definition demo_image : list Z :=
  let sup := replicate 268 0 in
  let sup := wr32 (wr32 (wr32 (wr32 (wr32 sup 0 16) 1 12) 3 5) 4 9) 8 6 in
  let sup := wr16 (wr16 (wr32 sup 10 8) 56 61267) 88 128 in
  let tab := wr16 (wr32 (wr32 (wr32 (replicate 64 0) 0 3) 1 4) 2 5) 12 2 in
  let tab := wr16 (wr32 (wr32 (wr32 tab 8 8) 9 9) 10 10) 44 3 in
  list_inserts 2048 tab (list_inserts 1024 sup (replicate 12288 0)).

Definition mount_of (d : list Z) : option (e2_static * e2fs) :=
  match e2_read_super d true with Ret (Ok x) => Some x | _ => None end.

Definition demo_static : e2_static := default (mk_static 0 0 [] []) (fst <$> mount_of demo_image).
Definition demo_mounted : e2fs := default (raw_fs []) (snd <$> mount_of demo_image).

(** The same file system with a block of the first group and an inode less. *)
Definition demo_changed : e2fs :=
  mk_e2fs 12 4 8 6 8 1024 [mk_bg 3 4 5 1 7; mk_bg 8 9 10 3 0] true 0 demo_image.

Lemma bytes_compute l : forallb (λ x, (0 <=? x) && (x <? 256)) l = true → Forall byte_ok l.
Proof. rewrite forallb_forall. intros H. apply Forall_forall. intros x Hx%list_elem_of_In. specialize (H x Hx). zbool. done. Qed.

Lemma demo_changed_mounted : mounted demo_static demo_changed.
Proof.
  constructor.
  - split; [vm_compute; reflexivity|apply bytes_compute; vm_compute; reflexivity].
  - vm_compute. reflexivity.
  - vm_compute. split; reflexivity.
  - vm_compute. reflexivity.
  - vm_compute. split; reflexivity.
  - vm_compute. reflexivity.
  - vm_compute. split; reflexivity.
  - split; [vm_compute; reflexivity|]. split; [vm_compute; reflexivity|]. apply bytes_compute. vm_compute. reflexivity.
  - intros [|[|j]] g Hg; cbn in Hg; [injection Hg as <-..|done]; vm_compute; repeat split; (reflexivity || discriminate).
  - vm_compute. repeat split; (reflexivity || discriminate).
  - vm_compute. split; discriminate.
Qed.

Lemma e2_super_persists_witness :
  ∃ s', e2_super_flush demo_static demo_changed = Ret s'
    ∧ e2_read_super (dev s') true = Ret (Ok (rewritten demo_static demo_changed, s')) ∧ s_free_blocks_count s' = 4.
Proof.
  destruct (e2_super_persists demo_image demo_static demo_mounted demo_changed) as [_ H].
  - apply bytes_compute. vm_compute. reflexivity.
  - vm_compute. discriminate.
  - vm_compute. reflexivity.
  - vm_compute. reflexivity.
  - vm_compute. reflexivity.
  - vm_compute. reflexivity.
  - destruct (H demo_changed_mounted eq_refl eq_refl ltac:(discriminate)) as (s' & H1 & H2 & H3 & _).
    exists s'. split; [exact H1|]. split; [exact H2|]. rewrite H3. reflexivity.
Defined.
