(* ===== verification/E2Inode.v ===== *)
(** Files of the ext2 driver: [src/kernel/src/ext2fs/inode.c], the block map
    of an inode, its size and the transfer of bytes.

    An inode in memory ([e2_inode_private_t]) keeps the bytes of the inode on
    the disk; the fields are words of these bytes.  [block] is the cached block
    map: the entries of [priv->block] that were set (reading another entry is a
    fault here).  [memory] says whether [kmalloc] succeeds during a call; the
    lock [rw_lock] of an inode is held only within a call, so that only a call
    made with the lock held can hang. *)

From S2P Require Import Prelude Bytes E2Alloc E2Super.

Record e2_inode_private := mk_priv {
  i_ino : Z;
  inode_data : list Z;
  block : list Z;
  idirty : bool;
  ilock : Z;
}.

Definition with_data (p : e2_inode_private) (d : list Z) : e2_inode_private :=
  mk_priv (i_ino p) d (block p) (idirty p) (ilock p).
Definition with_block (p : e2_inode_private) (b : list Z) : e2_inode_private :=
  mk_priv (i_ino p) (inode_data p) b (idirty p) (ilock p).
Definition with_idirty (p : e2_inode_private) (b : bool) : e2_inode_private :=
  mk_priv (i_ino p) (inode_data p) (block p) b (ilock p).
Definition with_ilock (p : e2_inode_private) (l : Z) : e2_inode_private :=
  mk_priv (i_ino p) (inode_data p) (block p) (idirty p) l.

Definition i_mode (p : e2_inode_private) : Z := rd16 (inode_data p) 0.
Definition i_size (p : e2_inode_private) : Z := rd32 (inode_data p) 1.
Definition i_links_count (p : e2_inode_private) : Z := rd16 (inode_data p) 26.
Definition i_blocks (p : e2_inode_private) : Z := rd32 (inode_data p) 7.
Definition i_block (p : e2_inode_private) (k : nat) : Z := rd32 (inode_data p) (10 + Z.of_nat k).

Definition set_size (p : e2_inode_private) (n : Z) : e2_inode_private := with_data p (wr32 (inode_data p) 1 n).
Definition set_blocks (p : e2_inode_private) (n : Z) : e2_inode_private := with_data p (wr32 (inode_data p) 7 n).
Definition set_block (p : e2_inode_private) (k : nat) (b : Z) : e2_inode_private :=
  with_data p (wr32 (inode_data p) (10 + Z.of_nat k) b).
Definition set_links (p : e2_inode_private) (n : Z) : e2_inode_private := with_data p (wr16 (inode_data p) 26 n).

(** The file type of a mode. *)
Definition EXT2_S_IFBLK : Z := 24576.
Definition EXT2_S_IFCHR : Z := 8192.
Definition EXT2_S_IFIFO : Z := 4096.
Definition file_type (mode : Z) : Z := Z.land mode 61440.

Section Inode.
Context (st : e2_static).

(** What lies in memory behind the array of the block map. *)
Context (behind : nat → Z).

(** The number of data blocks: [(i_blocks * 512) / s_blocksize]. *)
Definition nblocks (s : e2fs) (p : e2_inode_private) : nat := Z.to_nat (u32 (i_blocks p * 512) / s_blocksize s).

(** Addresses in one block. *)
Definition per_block (s : e2fs) : nat := Z.to_nat (s_blocksize s / 4).

Definition words (s : e2fs) (buffer : list Z) : list Z := (λ i, rd32 buffer (Z.of_nat i)) <$> seq 0 (per_block s).
Definition unwords (l : list Z) : list Z := concat (le32 <$> l).

(** * Reading the block map *)

(** The first [room] addresses of an indirect block. *)
Definition read_layer (s : e2fs) (b : Z) (room : nat) : outcome (list Z) :=
  buffer <~ e2_read_block s b ;; Ret (take room (words s buffer)).

Fixpoint read_doubly (s : e2fs) (layers : list Z) (room : nat) : outcome (list Z) :=
  match layers with
  | [] => Ret []
  | b :: layers =>
      if decide (room = 0%nat) then Ret []
      else
        l <~ read_layer s b room ;;
        r <~ read_doubly s layers (room - length l) ;;
        Ret (l ++ r)
  end.

(** [top]: the triply indirect block.  The doubly indirect block [b] is read
    but the indirect ones are taken from [top]. *)
Fixpoint read_triply (s : e2fs) (top layers : list Z) (room : nat) : outcome (list Z) :=
  match layers with
  | [] => Ret []
  | b :: layers =>
      if decide (room = 0%nat) then Ret []
      else
        _ <~ e2_read_block s b ;;
        l <~ read_doubly s top room ;;
        r <~ read_triply s top layers (room - length l) ;;
        Ret (l ++ r)
  end.

(** The map, and whether memory ran out.  For an empty file the first entry
    is cleared. *)
Definition e2_inode_read_block_map (s : e2fs) (p : e2_inode_private) (memory : bool) : outcome (list Z * result unit) :=
  let n := nblocks s p in
  if decide (n = 0%nat) then Ret ([0], Ok tt)
  else
    let direct := i_block p <$> seq 0 (Nat.min 12 n) in
    if decide (n <= 12)%nat then Ret (direct, Ok tt)
    else
      _ <~ spin_lock (ilock p) ;;
      l <~ read_layer s (i_block p 12) (n - 12) ;;
      let map := direct ++ l in
      if decide (length map = n) then Ret (map, Ok tt)
      else if negb memory then Ret (map, Err ENOMEM)
      else
        buffer <~ e2_read_block s (i_block p 13) ;;
        l <~ read_doubly s (words s buffer) (n - length map) ;;
        let map := map ++ l in
        if decide (length map = n) then Ret (map, Ok tt)
        else
          buffer <~ e2_read_block s (i_block p 14) ;;
          l <~ read_triply s (words s buffer) (words s buffer) (n - length map) ;;
          Ret (map ++ l, Ok tt).

(** * Writing the block map *)

(** One block of addresses from entry [idx] on. *)
Definition map_bytes (s : e2fs) (map : list Z) (idx : nat) : list Z :=
  unwords ((λ i, default (behind i) (map !! i)) <$> seq idx (per_block s)).

(** The block [b], or a new one if there is none. *)
Definition ensure_block (s : e2fs) (b : Z) (memory : bool) : outcome (e2fs * Z) :=
  if b =? 0 then e2_alloc_block s memory else Ret (s, b).

(** Fill the indirect blocks [layers] from entry [idx] on, allocating those
    that do not exist.  Also returns the layers, the next entry and whether
    there was space. *)
Fixpoint write_layers (s : e2fs) (map : list Z) (n idx : nat) (layers : list Z) (memory : bool) :
    outcome (e2fs * list Z * nat * bool) :=
  match layers with
  | [] => Ret (s, [], idx, true)
  | b :: layers =>
      if decide (n <= idx)%nat then Ret (s, b :: layers, idx, true)
      else
        '(s, b) <~ ensure_block s b memory ;;
        if b =? 0 then Ret (s, b :: layers, idx, false)
        else
          s <~ e2_write_block s b (map_bytes s map idx) ;;
          '(s, layers, idx, ok) <~ write_layers s map n (idx + per_block s) layers memory ;;
          Ret (s, b :: layers, idx, ok)
  end.

(** The loop over the triply indirect block, [k] entries from entry [t] on;
    the inner loop takes and stores the indirect blocks in [top]. *)
Fixpoint write_triply (s : e2fs) (map : list Z) (n idx : nat) (top : list Z) (t k : nat) (memory : bool) :
    outcome (e2fs * list Z * nat * bool) :=
  match k with
  | O => Ret (s, top, idx, true)
  | S k =>
      if decide (n <= idx)%nat then Ret (s, top, idx, true)
      else
        let b := top !!! t in
        '(s, b) <~ ensure_block s b memory ;;
        if b =? 0 then Ret (s, top, idx, false)
        else
          doubly <~ (if top !!! t =? 0 then Ret (replicate (block_len s) 0) else e2_read_block s b) ;;
          '(s, top, idx, ok) <~ write_layers s map n idx (<[t := b]> top) memory ;;
          if ok then
            s <~ e2_write_block s (top !!! t) doubly ;;
            write_triply s map n idx top (S t) k memory
          else Ret (s, top, idx, false)
  end.

Fixpoint set_direct (p : e2_inode_private) (k : nat) (l : list Z) : e2_inode_private :=
  match l with
  | [] => p
  | b :: l => set_direct (set_block p k b) (S k) l
  end.

(** The block of the second or third level: read, or new and cleared. *)
Definition open_level (s : e2fs) (b : Z) (memory : bool) : outcome (e2fs * Z * list Z) :=
  if b =? 0 then
    '(s, b) <~ e2_alloc_block s memory ;; Ret (s, b, replicate (per_block s) 0)
  else
    buffer <~ e2_read_block s b ;; Ret (s, b, words s buffer).

Definition e2_inode_write_block_map (s : e2fs) (p : e2_inode_private) (map : list Z) (memory : bool) :
    outcome (e2fs * e2_inode_private * result unit) :=
  let n := nblocks s p in
  if bool_decide (file_type (i_mode p) ∈ [EXT2_S_IFBLK; EXT2_S_IFCHR; EXT2_S_IFIFO]) then Ret (s, p, Ok tt)
  else if decide (n = 0%nat) then Ret (s, set_direct p 0 (replicate 15 0), Ok tt)
  else
    let p := with_idirty (set_direct p 0 ((λ i, default (behind i) (map !! i)) <$> seq 0 (Nat.min 12 n))) true in
    if decide (n <= 12)%nat then Ret (s, set_direct p 12 [0; 0; 0], Ok tt)
    else
      _ <~ spin_lock (ilock p) ;;
      '(s, b) <~ ensure_block s (i_block p 12) memory ;;
      let p := set_block p 12 b in
      s <~ e2_write_block s b (map_bytes s map 12) ;;
      let idx := (12 + per_block s)%nat in
      if decide (n <= idx)%nat then Ret (s, p, Ok tt)
      else if negb memory then Ret (s, p, Err ENOMEM)
      else
        '(s, b, layers) <~ open_level s (i_block p 13) memory ;;
        let p := set_block p 13 b in
        if b =? 0 then Ret (s, p, Err ENOSPC)
        else
          '(s, layers, idx, ok) <~ write_layers s map n idx layers memory ;;
          if negb ok then Ret (s, p, Err ENOSPC)
          else
            s <~ e2_write_block s b (unwords layers) ;;
            if decide (idx = n) then Ret (s, p, Ok tt)
            else
              '(s, b, top) <~ open_level s (i_block p 14) memory ;;
              let p := set_block p 14 b in
              if b =? 0 then Ret (s, p, Err ENOSPC)
              else
                '(s, top, idx, ok) <~ write_triply s map n idx top 0 (per_block s) memory ;;
                if negb ok then Ret (s, p, Err ENOSPC)
                else
                  s <~ e2_write_block s b (unwords top) ;;
                  Ret (s, p, Ok tt).

(** * Inodes on the disk *)

(** The place of inode [ino]. *)
Definition inode_pos (s : e2fs) (ino : Z) : outcome Z :=
  let bg := (ino - 1) / s_inodes_per_group s in
  let local := (ino - 1) mod s_inodes_per_group s in
  g <~ or_halt (bgtable s !! Z.to_nat bg) ;;
  Ret (u32 (bg_inode_table g * s_blocksize s + local * s_inode_size st)).

Definition e2_inode_flush (s : e2fs) (p : e2_inode_private) (memory : bool) : outcome (e2fs * e2_inode_private) :=
  if negb (idirty p) then Ret (s, p)
  else
    '(s, p, _) <~ e2_inode_write_block_map s p (block p) memory ;;
    s <~ e2_super_flush st s ;;
    let p := with_idirty p false in
    pos <~ inode_pos s (i_ino p) ;;
    s <~ dev_write s pos (inode_data p) ;;
    Ret (s, p).

Definition EXT2_BAD_INO : Z := 1.

(** The block map is read even when memory runs out for it. *)
Definition e2_read_inode (s : e2fs) (ino : Z) (memory : bool) : outcome (result e2_inode_private) :=
  if (ino =? 0) || (ino =? EXT2_BAD_INO) || (s_inodes_count st <? ino) then Ret (Err ENOENT)
  else if negb memory then Ret (Err ENOMEM)
  else
    pos <~ inode_pos s ino ;;
    data <~ dev_read s pos (s_inode_size st) ;;
    let p := mk_priv ino data [] false 0 in
    '(map, _) <~ e2_inode_read_block_map s p memory ;;
    Ret (Ok (with_block p map)).

(** * Changing the size *)

Fixpoint free_blocks (s : e2fs) (l : list Z) (memory : bool) : outcome e2fs :=
  match l with
  | [] => Ret s
  | b :: l => '(s, _) <~ e2_free_block s b memory ;; free_blocks s l memory
  end.

(** [k] new blocks at the end of the map; whether all were found. *)
Fixpoint add_blocks (s : e2fs) (p : e2_inode_private) (k : nat) (memory : bool) : outcome (e2fs * e2_inode_private * bool) :=
  match k with
  | O => Ret (s, p, true)
  | S k =>
      '(s, b) <~ e2_alloc_block s memory ;;
      let p := with_block p (block p ++ [b]) in
      if b =? 0 then Ret (s, p, false)
      else
        let p := set_blocks p (u32 (i_blocks p + s_blocksize s / 512)) in
        add_blocks s (set_size p (u32 (i_size p + s_blocksize s))) k memory
  end.

(** The number of blocks for so many bytes. *)
Definition blocks_for (s : e2fs) (n : Z) : Z := n / s_blocksize s + (if n mod s_blocksize s =? 0 then 0 else 1).

Definition e2_inode_resize (s : e2fs) (p : e2_inode_private) (newsize : Z) (memory : bool) :
    outcome (e2fs * e2_inode_private * result Z) :=
  let n := nblocks s p in
  if newsize =? i_size p then Ret (s, p, Ok newsize)
  else if newsize <? i_size p then
    let m := Z.to_nat (blocks_for s newsize) in
    if decide (m = n) then
      '(s, p) <~ e2_inode_flush s (with_idirty (set_size p newsize) true) memory ;; Ret (s, p, Ok newsize)
    else if negb memory then Ret (s, p, Err ENOMEM)
    else
      kept <~ or_halt (if decide (m <= length (block p))%nat then Some (take m (block p)) else None) ;;
      old <~ or_halt (if decide (n <= length (block p))%nat then Some (drop m (take n (block p))) else None) ;;
      s <~ free_blocks s old memory ;;
      let p := with_idirty (with_block p (kept ++ replicate (15 - m) 0)) true in
      let p := set_blocks (set_size p newsize) (u32 (Z.of_nat m * s_blocksize s) / 512) in
      '(s, p) <~ e2_inode_flush s p memory ;; Ret (s, p, Ok 0)
  else if (i_size p / s_blocksize s =? newsize / s_blocksize s) && negb (i_size p =? 0) then
    '(s, p) <~ e2_inode_flush s (with_idirty (set_size p newsize) true) memory ;; Ret (s, p, Ok newsize)
  else
    let extra := Z.to_nat (blocks_for s (newsize - i_size p)) in
    if negb memory then Ret (s, p, Err ENOMEM)
    else
      kept <~ or_halt (if decide (n <= length (block p))%nat then Some (take n (block p)) else None) ;;
      '(s, p, ok) <~ add_blocks s (with_idirty (with_block p kept) true) extra memory ;;
      if ok then
        '(s, p) <~ e2_inode_flush s (set_size p newsize) memory ;; Ret (s, p, Ok 0)
      else
        '(s, p) <~ e2_inode_flush s p memory ;; Ret (s, p, Ok (i_size p)).

Definition e2_inode_truncate (s : e2fs) (p : e2_inode_private) (memory : bool) : outcome (e2fs * e2_inode_private) :=
  '(s, p, _) <~ e2_inode_resize s p 0 memory ;;
  e2_inode_flush s (with_idirty p true) memory.

(** * Transfers *)

Inductive e2_cmd : Set := EXT2_READ | EXT2_WRITE.

(** Bytes [o .. o + n) of block number [k] of the file and the bytes from
    [pos] on of the caller's buffer. *)
Definition io_part (s : e2fs) (p : e2_inode_private) (cmd : e2_cmd) (k o n pos : nat) (buffer : list Z) : outcome (e2fs * list Z) :=
  b <~ or_halt (block p !! k) ;;
  rw <~ e2_read_block s b ;;
  match cmd with
  | EXT2_READ => Ret (s, list_inserts pos (slice o n rw) buffer)
  | EXT2_WRITE => s <~ e2_write_block s b (list_inserts o (slice pos n buffer) rw) ;; Ret (s, buffer)
  end.

(** [m] whole blocks. *)
Fixpoint io_blocks (s : e2fs) (p : e2_inode_private) (cmd : e2_cmd) (k m pos : nat) (buffer : list Z) : outcome (e2fs * list Z) :=
  match m with
  | O => Ret (s, buffer)
  | S m =>
      b <~ or_halt (block p !! k) ;;
      '(s, buffer) <~
        match cmd with
        | EXT2_READ => rw <~ e2_read_block s b ;; Ret (s, list_inserts pos rw buffer)
        | EXT2_WRITE => s <~ e2_write_block s b (slice pos (block_len s) buffer) ;; Ret (s, buffer)
        end ;;
      io_blocks s p cmd (S k) m (pos + block_len s) buffer
  end.

(** The bytes behind the first, partial block. *)
Definition io_rest (s : e2fs) (p : e2_inode_private) (cmd : e2_cmd) (k size pos : nat) (buffer : list Z) : outcome (e2fs * list Z) :=
  let m := (size / block_len s)%nat in
  let last := (size mod block_len s)%nat in
  '(s, buffer) <~ io_blocks s p cmd k m pos buffer ;;
  if decide (last = 0%nat) then Ret (s, buffer)
  else io_part s p cmd (k + m) 0 last (pos + m * block_len s) buffer.

(** [size] bytes from [offset] on, which the map has blocks for. *)
Definition io_transfer (s : e2fs) (p : e2_inode_private) (cmd : e2_cmd) (offset size : nat) (buffer : list Z) : outcome (e2fs * list Z) :=
  let o := (offset mod block_len s)%nat in
  let k := (offset / block_len s)%nat in
  if decide (o = 0%nat) then io_rest s p cmd k size 0 buffer
  else
    let n := (block_len s - o)%nat in
    if decide (size <= n)%nat then io_part s p cmd k o size 0 buffer
    else
      '(s, buffer) <~ io_part s p cmd k o n 0 buffer ;;
      io_rest s p cmd (S k) (size - n) n buffer.

(** The number of bytes transferred and the caller's buffer. *)
Definition e2_inode_io (s : e2fs) (p : e2_inode_private) (cmd : e2_cmd) (offset size : Z) (buffer : list Z) (memory : bool) :
    outcome (e2fs * e2_inode_private * Z * list Z) :=
  match cmd with
  | EXT2_READ =>
      if i_size p <=? offset then Ret (s, p, 0, buffer)
      else
        let size := if i_size p <? u32 (offset + size) then i_size p - offset else size in
        '(s, buffer) <~ io_transfer s p cmd (Z.to_nat offset) (Z.to_nat size) buffer ;;
        Ret (s, p, size, buffer)
  | EXT2_WRITE =>
      '(s, p) <~
        (if i_size p <? u32 (offset + size) then
           '(s, p, _) <~ e2_inode_resize s p (u32 (offset + size)) memory ;; Ret (s, p)
         else Ret (s, p)) ;;
      '(s, buffer) <~ io_transfer s p cmd (Z.to_nat offset) (Z.to_nat size) buffer ;;
      Ret (s, p, size, buffer)
  end.
End Inode.
