(* ===== verification/E2File.v ===== *)
(** The bytes of an ext2 file: transfers by [e2_inode_io] refine reading and
    writing a list of bytes, the concatenation of the file's blocks. *)

From S2P Require Import Prelude Bytes E2Alloc E2Super E2Inode.

(** * Blocks *)

(** Block [b] lies on the device, at an offset that does not wrap. *)
Definition good_block (s : e2fs) (b : Z) : Prop := 0 <= b ∧ (b + 1) * s_blocksize s <= Z.of_nat (length (dev s)).

(** Whole blocks on a device that 32-bit offsets can address. *)
Definition addressable (s : e2fs) : Prop := 0 < s_blocksize s ∧ Z.of_nat (length (dev s)) <= 4294967296.

Definition blocks_ok (s : e2fs) (l : list Z) : Prop := addressable s ∧ Forall (good_block s) l ∧ NoDup l.

Definition block_data (s : e2fs) (b : Z) : list Z := slice (block_pos s b) (block_len s) (dev s).
Definition data_of (s : e2fs) (l : list Z) : list Z := concat (block_data s <$> l).

(** Byte [q] of the device belongs to none of the blocks [l]. *)
Definition outside (s : e2fs) (l : list Z) (q : nat) : Prop :=
  ∀ b, b ∈ l → (q < block_pos s b ∨ block_pos s b + block_len s <= q)%nat.

Lemma good_block_pos s b : addressable s → good_block s b →
  block_pos s b = (Z.to_nat b * block_len s)%nat ∧ (block_pos s b + block_len s <= length (dev s))%nat ∧ in_dev s b = true.
Proof.
  intros [Hs Hd] [H0 H1]. assert (0 <= b * s_blocksize s < 4294967296) by nia.
  unfold block_pos, in_dev, block_len. rewrite u32_small by done. split; [rewrite Z2Nat.inj_mul by lia; done|].
  split; [|apply Z.leb_le; lia]. lia.
Qed.

Lemma block_len_pos s : addressable s → (0 < block_len s)%nat.
Proof. intros [H _]. unfold block_len. lia. Qed.

Lemma good_apart s b c : addressable s → good_block s b → good_block s c → b ≠ c →
  (block_pos s b + block_len s <= block_pos s c ∨ block_pos s c + block_len s <= block_pos s b)%nat.
Proof.
  intros Ha Hb Hc Hne. destruct (good_block_pos s b Ha Hb) as [-> _]. destruct (good_block_pos s c Ha Hc) as [-> _].
  destruct Hb as [? _], Hc as [? _]. destruct (Z.lt_total b c) as [?|[?|?]]; [left|done|right]; nia.
Qed.

Lemma block_data_length s b : addressable s → good_block s b → length (block_data s b) = block_len s.
Proof. intros Ha Hb. apply slice_length, good_block_pos; done. Qed.

Lemma read_good s b : addressable s → good_block s b → e2_read_block s b = Ret (block_data s b).
Proof. intros Ha Hb. unfold e2_read_block. by destruct (good_block_pos s b Ha Hb) as (_ & _ & ->). Qed.

(** The device after a block was written. *)
Definition put_block (s : e2fs) (b : Z) (c : list Z) : e2fs := with_dev s (list_inserts (block_pos s b) c (dev s)).

Lemma write_good s b c : addressable s → good_block s b → e2_write_block s b c = Ret (put_block s b c).
Proof. intros Ha Hb. unfold e2_write_block. by destruct (good_block_pos s b Ha Hb) as (_ & _ & ->). Qed.

Lemma block_data_put s b c x : addressable s → good_block s b → good_block s x → length c = block_len s →
  block_data (put_block s b c) x = if decide (x = b) then c else block_data s x.
Proof.
  intros Ha Hb Hx Hc. unfold block_data, put_block. change (block_pos (with_dev _ _)) with (block_pos s).
  change (block_len (with_dev _ _)) with (block_len s). cbn [dev with_dev]. case_decide as E; [subst x|].
  - rewrite <- Hc. apply slice_inserts_same. rewrite Hc. by apply good_block_pos.
  - apply slice_inserts_disjoint. rewrite Hc. pose proof (good_apart s b x Ha Hb Hx ltac:(congruence)). lia.
Qed.

(** * Lists of blocks *)

Lemma data_of_lookup s l k i : blocks_ok s l → (i < block_len s)%nat →
  data_of s l !! (k * block_len s + i)%nat = b ← l !! k; block_data s b !! i.
Proof.
  intros (Ha & Hg & _) Hi. revert k. induction Hg as [|b l Hb Hg IH]; intros k; [done|].
  unfold data_of in *. cbn [fmap list_fmap concat]. pose proof (block_data_length s b Ha Hb) as Hl. destruct k as [|k].
  - rewrite lookup_app_l by lia. done.
  - rewrite lookup_app_r by lia. rewrite Hl. replace (S k * block_len s + i - block_len s)%nat with (k * block_len s + i)%nat by lia.
    apply IH.
Qed.

Lemma data_of_length s l : blocks_ok s l → length (data_of s l) = (length l * block_len s)%nat.
Proof.
  intros (Ha & Hg & _). induction Hg as [|b l Hb Hg IH]; [done|]. unfold data_of in *. cbn [fmap list_fmap concat length].
  rewrite length_app, IH, block_data_length by done. done.
Qed.

(** Block number [k] is the bytes from [k * block_len] on. *)
Lemma data_of_block s l k b : blocks_ok s l → l !! k = Some b → slice (k * block_len s) (block_len s) (data_of s l) = block_data s b.
Proof.
  intros H Hk. pose proof H as (Ha & Hg & _). pose proof (Forall_lookup_1 _ _ _ _ Hg Hk) as Hb.
  apply list_eq. intros i. rewrite slice_lookup. case_decide as Hi.
  - rewrite data_of_lookup, Hk by done. done.
  - symmetry. apply lookup_ge_None_2. rewrite block_data_length by done. lia.
Qed.

Lemma blocks_ok_dev s l d : length d = length (dev s) → blocks_ok s l → blocks_ok (with_dev s d) l.
Proof.
  intros Hd ([Hs Hl] & Hg & Hn). split; [split; cbn [dev with_dev]; [done|by rewrite Hd]|]. split; [|done].
  eapply Forall_impl; [exact Hg|]. intros b [? ?]. split; [done|]. cbn [dev with_dev]. by rewrite Hd.
Qed.

Lemma put_block_ok s l b c : blocks_ok s l → blocks_ok (put_block s b c) l.
Proof. apply blocks_ok_dev. apply length_inserts. Qed.

Lemma div_mod_lookup s q : addressable s → ∃ k i, q = (k * block_len s + i)%nat ∧ (i < block_len s)%nat.
Proof.
  intros Ha. pose proof (block_len_pos s Ha). exists (q / block_len s)%nat, (q mod block_len s)%nat.
  pose proof (Nat.div_mod_eq q (block_len s)). split; [lia|]. apply Nat.mod_upper_bound. lia.
Qed.

Lemma data_of_put s l k b c : blocks_ok s l → l !! k = Some b → length c = block_len s →
  data_of (put_block s b c) l = list_inserts (k * block_len s) c (data_of s l).
Proof.
  intros H Hk Hc. pose proof H as (Ha & Hg & Hn). pose proof (Forall_lookup_1 _ _ _ _ Hg Hk) as Hb.
  pose proof (put_block_ok s l b c H) as H'. apply list_eq. intros q. destruct (div_mod_lookup s q Ha) as (k' & i & -> & Hi).
  pose proof (data_of_lookup (put_block s b c) l k' i H' Hi) as E. change (block_len (put_block s b c)) with (block_len s) in E.
  rewrite E, inserts_lookup, data_of_length, data_of_lookup by done. pose proof (lookup_lt_Some _ _ _ Hk).
  destruct (decide (k' = k)) as [->|Hne].
  - rewrite Hk. cbn [mbind option_bind]. rewrite block_data_put, !decide_True by (done || nia). f_equal. lia.
  - rewrite decide_False by (rewrite Hc; nia). destruct (l !! k') as [x|] eqn:Hx; [|done]. cbn [mbind option_bind].
    rewrite block_data_put, decide_False; [done| |done..|by eapply Forall_lookup_1|done].
    intros ->. apply Hne. by eapply NoDup_lookup.
Qed.

Lemma outside_put s l b c q : blocks_ok s l → b ∈ l → length c = block_len s → outside s l q →
  dev (put_block s b c) !! q = dev s !! q.
Proof.
  intros _ Hb Hc Hq. specialize (Hq b Hb). cbn [put_block dev with_dev]. rewrite inserts_lookup, decide_False; [done|]. lia.
Qed.

(** * Transfers *)

(** [n] bytes from [off] on of the blocks [l] and from [pos] on of the
    caller's buffer were transferred; nothing else changed. *)
Definition moved (cmd : e2_cmd) (s s' : e2fs) (l : list Z) (off pos n : nat) (buf buf' : list Z) : Prop :=
  match cmd with
  | EXT2_READ => s' = s ∧ buf' = list_inserts pos (slice off n (data_of s l)) buf
  | EXT2_WRITE => buf' = buf ∧ s' = with_dev s (dev s') ∧ length (dev s') = length (dev s)
      ∧ data_of s' l = list_inserts off (slice pos n buf) (data_of s l)
      ∧ (Forall byte_ok (dev s) → Forall byte_ok buf → Forall byte_ok (dev s'))
      ∧ ∀ q, outside s l q → dev s' !! q = dev s !! q
  end.

Lemma moved_ok cmd s s' l off pos n buf buf' : blocks_ok s l → moved cmd s s' l off pos n buf buf' →
  blocks_ok s' l ∧ block_len s' = block_len s ∧ length buf' = length buf.
Proof.
  intros H. destruct cmd; [intros [-> ->]; by rewrite length_inserts|]. intros (-> & Hs & Hl & _). rewrite Hs.
  split; [by apply blocks_ok_dev|done].
Qed.

Lemma slice_inserts_other {A} (p n q : nat) (k l : list A) : (q + length k <= p ∨ p + n <= q)%nat →
  slice p n (list_inserts q k l) = slice p n l.
Proof. apply slice_inserts_disjoint. Qed.

(** Two adjacent transfers are one. *)
Lemma moved_app cmd s s1 s2 l off pos a b buf buf1 buf2 :
  blocks_ok s l → (off + a + b <= length l * block_len s)%nat → (pos + a + b <= length buf)%nat →
  moved cmd s s1 l off pos a buf buf1 → moved cmd s1 s2 l (off + a) (pos + a) b buf1 buf2 →
  moved cmd s s2 l off pos (a + b) buf buf2.
Proof.
  intros H Ho Hp. pose proof (data_of_length s l H) as Hl. destruct cmd; cbn [moved].
  - intros [-> ->] [-> ->]. split; [done|]. apply inserts_slice_app; lia.
  - intros (-> & Hs1 & L1 & D1 & B1 & O1) (-> & Hs2 & L2 & D2 & B2 & O2). split; [done|].
    split; [rewrite Hs2, Hs1; done|]. split; [congruence|]. split; [|split].
    + rewrite D2, D1. apply inserts_slice_app; lia.
    + auto.
    + intros q Hq. rewrite O2; [by apply O1|]. rewrite Hs1. done.
Qed.

Lemma moved_nil cmd s l off pos buf : moved cmd s s l off pos 0 buf buf.
Proof. destruct cmd; cbn [moved]; unfold slice; rewrite take_0; [done|]. by destruct s. Qed.

(** One block, or part of one. *)
Lemma moved_block cmd s l k b o n pos buf buf' s' :
  blocks_ok s l → l !! k = Some b → (o + n <= block_len s)%nat → (pos + n <= length buf)%nat →
  match cmd with
  | EXT2_READ => s' = s ∧ buf' = list_inserts pos (slice o n (block_data s b)) buf
  | EXT2_WRITE => buf' = buf ∧ s' = put_block s b (list_inserts o (slice pos n buf) (block_data s b))
  end →
  moved cmd s s' l (k * block_len s + o) pos n buf buf'.
Proof.
  intros H Hk Hn Hp. pose proof H as (Ha & Hg & _). pose proof (Forall_lookup_1 _ _ _ _ Hg Hk) as Hb.
  pose proof (block_data_length s b Ha Hb) as Hl. pose proof (data_of_block s l k b H Hk) as Hd.
  pose proof (data_of_length s l H). pose proof (lookup_lt_Some _ _ _ Hk).
  destruct cmd; cbn [moved]; intros [-> ->].
  - split; [done|]. rewrite <- Hd, slice_slice by done. done.
  - split; [done|]. split; [done|]. split; [apply length_inserts|]. split; [|split].
    + rewrite (data_of_put s l k) by (done || by rewrite length_inserts). rewrite <- Hd. apply inserts_rmw; [nia|].
      rewrite slice_length; lia.
    + intros Hdev Hbuf. cbn [dev put_block with_dev]. apply inserts_Forall; [|done]. apply inserts_Forall.
      * by apply slice_bytes.
      * unfold block_data. by apply slice_bytes.
    + intros q. apply outside_put; [done|by eapply list_elem_of_lookup_2|]. by rewrite length_inserts.
Qed.

Section Transfer.
Context (p : e2_inode_private) (cmd : e2_cmd) (l : list Z).

(** [l] is the used part of the block map. *)
Context (Hmap : ∀ k, (k < length l)%nat → block p !! k = l !! k).

Lemma io_part_spec s k o n pos buf :
  blocks_ok s l → (k < length l)%nat → (o + n <= block_len s)%nat → (pos + n <= length buf)%nat →
  ∃ s' buf', io_part s p cmd k o n pos buf = Ret (s', buf') ∧ moved cmd s s' l (k * block_len s + o) pos n buf buf'.
Proof.
  intros H Hk Hn Hp. pose proof H as (Ha & Hg & _). destruct (lookup_lt_is_Some_2 _ _ Hk) as [b Hb].
  pose proof (Forall_lookup_1 _ _ _ _ Hg Hb) as Hgood. unfold io_part. rewrite Hmap, Hb by done. cbn [or_halt obind].
  rewrite read_good by done. cbn [obind]. destruct cmd.
  - eexists _, _. split; [done|]. by eapply (moved_block EXT2_READ).
  - rewrite write_good by done. cbn [obind]. eexists _, _. split; [done|]. by eapply (moved_block EXT2_WRITE).
Qed.

(** A whole block is a part that fills it. *)
Lemma io_block_spec s k pos buf :
  blocks_ok s l → (k < length l)%nat → (pos + block_len s <= length buf)%nat →
  ∃ b s' buf', block p !! k = Some b ∧
    match cmd with
    | EXT2_READ => rw <~ e2_read_block s b ;; Ret (s, list_inserts pos rw buf)
    | EXT2_WRITE => s <~ e2_write_block s b (slice pos (block_len s) buf) ;; Ret (s, buf)
    end = Ret (s', buf') ∧ moved cmd s s' l (k * block_len s) pos (block_len s) buf buf'.
Proof.
  intros H Hk Hp. pose proof H as (Ha & Hg & _). destruct (lookup_lt_is_Some_2 _ _ Hk) as [b Hb].
  pose proof (Forall_lookup_1 _ _ _ _ Hg Hb) as Hgood. pose proof (block_data_length s b Ha Hgood) as Hl.
  exists b. rewrite Hmap by done. rewrite <- (Nat.add_0_r (k * block_len s)). destruct cmd.
  - rewrite read_good by done. cbn [obind]. eexists _, _. split; [done|]. split; [done|].
    eapply (moved_block EXT2_READ); [done..|]. split; [done|]. f_equal. unfold slice. by rewrite drop_0, take_ge by lia.
  - rewrite write_good by done. cbn [obind]. eexists _, _. split; [done|]. split; [done|].
    eapply (moved_block EXT2_WRITE); [done..|]. split; [done|]. f_equal. symmetry. apply inserts_whole. rewrite slice_length by lia. done.
Qed.

Lemma io_blocks_spec m s k pos buf :
  blocks_ok s l → (k + m <= length l)%nat → (pos + m * block_len s <= length buf)%nat →
  ∃ s' buf', io_blocks s p cmd k m pos buf = Ret (s', buf') ∧ moved cmd s s' l (k * block_len s) pos (m * block_len s) buf buf'.
Proof.
  revert s k pos buf. induction m as [|m IH]; intros s k pos buf H Hk Hp; cbn [io_blocks].
  { eexists _, _. split; [done|]. apply moved_nil. }
  destruct (io_block_spec s k pos buf H) as (b & s1 & buf1 & -> & Hrun & Hm1); [lia..|]. cbn [or_halt obind]. rewrite Hrun. cbn [obind].
  destruct (moved_ok _ _ _ _ _ _ _ _ _ H Hm1) as (H1 & Hbl & Hlen).
  destruct (IH s1 (S k) (pos + block_len s)%nat buf1 H1) as (s2 & buf2 & Hrun2 & Hm2); [lia|rewrite Hbl; lia|].
  rewrite Hbl in Hm2 |- *. eexists _, _. split; [exact Hrun2|].
  pose proof (Nat.mul_le_mono_r _ _ (block_len s) Hk). change (S m * block_len s)%nat with (block_len s + m * block_len s)%nat.
  eapply moved_app; [done|lia|lia|done|].
  replace (k * block_len s + block_len s)%nat with (S k * block_len s)%nat by lia. done.
Qed.

Lemma io_rest_spec s k size pos buf :
  blocks_ok s l → (k * block_len s + size <= length l * block_len s)%nat → (pos + size <= length buf)%nat →
  ∃ s' buf', io_rest s p cmd k size pos buf = Ret (s', buf') ∧ moved cmd s s' l (k * block_len s) pos size buf buf'.
Proof.
  intros H Hk Hp. pose proof (block_len_pos s ltac:(apply H)) as Hbl. unfold io_rest.
  pose proof (Nat.div_mod_eq size (block_len s)) as Hdm. pose proof (Nat.mod_upper_bound size (block_len s) ltac:(lia)) as Hlt.
  set (m := (size / block_len s)%nat) in *. set (r := (size mod block_len s)%nat) in *.
  destruct (io_blocks_spec m s k pos buf H) as (s1 & buf1 & -> & Hm1); [nia|nia|]. cbn [obind].
  case_decide as Hr; [eexists _, _; split; [done|]; replace size with (m * block_len s)%nat by lia; done|].
  destruct (moved_ok _ _ _ _ _ _ _ _ _ H Hm1) as (H1 & Hbl1 & Hlen).
  destruct (io_part_spec s1 (k + m) 0 r (pos + m * block_len s) buf1 H1) as (s2 & buf2 & Hrun & Hm2); [nia|lia|nia|].
  rewrite Hbl1 in Hm2 |- *. eexists _, _. split; [exact Hrun|]. replace size with (m * block_len s + r)%nat by lia.
  eapply moved_app; [done|nia|nia|done|]. replace (k * block_len s + m * block_len s)%nat with ((k + m) * block_len s + 0)%nat by lia. done.
Qed.

Lemma io_transfer_spec s off size buf :
  blocks_ok s l → (off + size <= length l * block_len s)%nat → (0 < size)%nat → (size <= length buf)%nat →
  ∃ s' buf', io_transfer s p cmd off size buf = Ret (s', buf') ∧ moved cmd s s' l off 0 size buf buf'.
Proof.
  intros H Hoff Hsz Hp. pose proof (block_len_pos s ltac:(apply H)) as Hbl. unfold io_transfer.
  pose proof (Nat.div_mod_eq off (block_len s)) as Hdm. pose proof (Nat.mod_upper_bound off (block_len s) ltac:(lia)) as Hlt.
  set (k := (off / block_len s)%nat) in *. set (o := (off mod block_len s)%nat) in *.
  case_decide as Ho.
  { destruct (io_rest_spec s k size 0 buf H) as (s1 & buf1 & Hrun & Hm1); [lia..|].
    eexists _, _. split; [exact Hrun|]. replace off with (k * block_len s)%nat by lia. done. }
  case_decide as Hs.
  { destruct (io_part_spec s k o size 0 buf H) as (s1 & buf1 & Hrun & Hm1); [nia|lia..|].
    eexists _, _. split; [exact Hrun|]. replace off with (k * block_len s + o)%nat by lia. done. }
  destruct (io_part_spec s k o (block_len s - o) 0 buf H) as (s1 & buf1 & -> & Hm1); [nia|lia..|]. cbn [obind].
  destruct (moved_ok _ _ _ _ _ _ _ _ _ H Hm1) as (H1 & Hbl1 & Hlen).
  destruct (io_rest_spec s1 (S k) (size - (block_len s - o)) (block_len s - o) buf1 H1) as (s2 & buf2 & Hrun & Hm2); [rewrite Hbl1; nia|lia|].
  eexists _, _. split; [exact Hrun|]. replace size with ((block_len s - o) + (size - (block_len s - o)))%nat by lia.
  replace off with (k * block_len s + o)%nat by lia. rewrite Hbl1 in Hm2.
  eapply moved_app; [done|nia|lia|done|]. replace (k * block_len s + o + (block_len s - o))%nat with (S k * block_len s)%nat by nia. done.
Qed.
End Transfer.
