(* ===== verification/E2Volume.v ===== *)
(** A mounted ext2 volume: where its structures lie, and that allocating and
    freeing blocks and writing to blocks of files keep them apart. *)

From S2P Require Import Prelude Bytes E2Alloc E2Super E2Inode E2File.

(** * Geometry *)

(** What the group descriptors say about places. *)
Definition layout (s : e2fs) : list (Z * Z * Z) := (λ g, (bg_block_bitmap g, bg_inode_bitmap g, bg_inode_table g)) <$> bgtable s.

(** Two states of the same volume. *)
Record same_geo (s s' : e2fs) : Prop := {
  sg_size : s_blocksize s = s_blocksize s';
  sg_bpg : s_blocks_per_group s = s_blocks_per_group s';
  sg_ipg : s_inodes_per_group s = s_inodes_per_group s';
  sg_count : s_blocks_count s = s_blocks_count s';
  sg_layout : layout s = layout s';
  sg_len : length (dev s) = length (dev s');
}.

#[global] Instance same_geo_equiv : Equivalence same_geo.
Proof.
  split.
  - by intros s.
  - intros s s' []. by constructor.
  - intros s s' s'' [] []. constructor; congruence.
Qed.

Definition in_block (s : e2fs) (b : Z) (q : nat) : Prop := (block_pos s b <= q < block_pos s b + block_len s)%nat.

(** The block bitmaps. *)
Definition bitmaps (s : e2fs) (q : nat) : Prop := ∃ bb ib it, (bb, ib, it) ∈ layout s ∧ in_block s bb q.

(** The table of inodes that starts at block [it]. *)
Definition in_itable (st : e2_static) (s : e2fs) (it : Z) (q : nat) : Prop :=
  (Z.to_nat (it * s_blocksize s) <= q < Z.to_nat (it * s_blocksize s + s_inodes_per_group s * s_inode_size st))%nat.

(** Superblock, group table, inode bitmaps and inode tables. *)
Definition in_super (q : nat) : Prop := (1024 <= q < 1292)%nat.
Definition in_table (st : e2_static) (s : e2fs) (q : nat) : Prop :=
  (Z.to_nat (table_pos (s_blocksize s)) <= q < Z.to_nat (table_pos (s_blocksize s)) + length (table_image st))%nat.
Definition fixed (st : e2_static) (s : e2fs) (q : nat) : Prop :=
  in_super q ∨ in_table st s q ∨ ∃ bb ib it, (bb, ib, it) ∈ layout s ∧ (in_block s ib q ∨ in_itable st s it q).

(** A block that can hold data. *)
Definition data_block (st : e2_static) (s : e2fs) (b : Z) : Prop :=
  good_block s b ∧ ∀ q, in_block s b q → ¬ fixed st s q ∧ ¬ bitmaps s q.

Section Geo.
Context (st : e2_static) (s s' : e2fs) (sg : same_geo s s').

Lemma geo_block_pos b : block_pos s b = block_pos s' b.
Proof. unfold block_pos. by rewrite (sg_size _ _ sg). Qed.
Lemma geo_block_len : block_len s = block_len s'.
Proof. unfold block_len. by rewrite (sg_size _ _ sg). Qed.
Lemma geo_in_block b q : in_block s b q ↔ in_block s' b q.
Proof. unfold in_block. by rewrite geo_block_pos, geo_block_len. Qed.
Lemma geo_bitmaps q : bitmaps s q ↔ bitmaps s' q.
Proof. unfold bitmaps. rewrite (sg_layout _ _ sg). by setoid_rewrite geo_in_block. Qed.
Lemma geo_fixed q : fixed st s q ↔ fixed st s' q.
Proof.
  unfold fixed, in_itable, in_table. rewrite (sg_layout _ _ sg), (sg_size _ _ sg), (sg_ipg _ _ sg). by setoid_rewrite geo_in_block.
Qed.
Lemma geo_good b : good_block s b ↔ good_block s' b.
Proof. unfold good_block. by rewrite (sg_size _ _ sg), (sg_len _ _ sg). Qed.
Lemma geo_data b : data_block st s b ↔ data_block st s' b.
Proof. unfold data_block. rewrite geo_good. by setoid_rewrite geo_in_block; setoid_rewrite geo_fixed; setoid_rewrite geo_bitmaps. Qed.
Lemma geo_addressable : addressable s ↔ addressable s'.
Proof. unfold addressable. by rewrite (sg_size _ _ sg), (sg_len _ _ sg). Qed.
Lemma geo_blocks_ok l : blocks_ok s l ↔ blocks_ok s' l.
Proof. unfold blocks_ok. rewrite geo_addressable. setoid_rewrite Forall_forall. by setoid_rewrite geo_good. Qed.
Lemma geo_nblocks p : nblocks s p = nblocks s' p.
Proof. unfold nblocks. by rewrite (sg_size _ _ sg). Qed.
Lemma geo_per_block : per_block s = per_block s'.
Proof. unfold per_block. by rewrite (sg_size _ _ sg). Qed.
End Geo.

Lemma same_geo_dev s d : length d = length (dev s) → same_geo s (with_dev s d).
Proof. by constructor. Qed.

Lemma same_geo_account s i g bm d : length bm = block_len s → same_geo s (account_blocks (write_bitmap s g bm) (Z.of_nat i) d).
Proof.
  intros Hl. constructor; try done.
  - unfold layout. cbn [account_blocks bgtable]. change (bgtable (write_bitmap s g bm)) with (bgtable s). rewrite Nat2Z.id.
    rewrite (list_fmap_alter _ _ id), list_alter_id; [done|by intros|by apply Forall_true].
  - cbn [account_blocks write_bitmap with_dev dev]. by rewrite length_inserts.
Qed.

Lemma layout_lookup s j g : bgtable s !! j = Some g → layout s !! j = Some (bg_block_bitmap g, bg_inode_bitmap g, bg_inode_table g).
Proof. intros H. unfold layout. by rewrite list_lookup_fmap, H. Qed.

Lemma layout_elem s g : g ∈ bgtable s → (bg_block_bitmap g, bg_inode_bitmap g, bg_inode_table g) ∈ layout s.
Proof. intros H. apply list_elem_of_fmap. by eexists. Qed.

Lemma outside_bitmaps_iff s q : outside_bitmaps s q ↔ ¬ bitmaps s q.
Proof.
  unfold outside_bitmaps, bitmaps, layout, in_block. rewrite Forall_forall. split.
  - intros H (bb & ib & it & Hin & Hq). apply list_elem_of_fmap in Hin as (g & [= -> -> ->] & Hg). specialize (H g Hg). lia.
  - intros H g Hg. destruct (decide (block_pos s (bg_block_bitmap g) <= q < block_pos s (bg_block_bitmap g) + block_len s)%nat); [|lia].
    exfalso. apply H. eexists _, _, _. split; [by apply layout_elem|done].
Qed.

(** * The volume *)

Record vol_ok (st : e2_static) (s : e2fs) : Prop := {
  v_ok : e2_ok s;
  v_mounted : mounted st s;
  v_groups : (0 < length (bgtable s))%nat;
  (* what can be allocated is a block for data, never the first *)
  v_free : ∀ b, 0 <= b → block_free s b = true → 0 < b ∧ data_block st s b;
  v_apart : ∀ q, fixed st s q → ¬ bitmaps s q;
  v_inodes : 0 < s_inodes_per_group s ∧ 128 <= s_inode_size st;
  v_itables : ∀ bb ib it, (bb, ib, it) ∈ layout s → 0 <= it ∧
    it * s_blocksize s + s_inodes_per_group s * s_inode_size st <= Z.of_nat (length (dev s));
}.

Lemma vol_addressable st s : vol_ok st s → addressable s.
Proof. intros H. pose proof (ok_geo _ (v_ok _ _ H)) as geo. split; [apply (geo_size s geo)|apply (geo_dev s geo)]. Qed.

Lemma mounted_geo st s s' : mounted st s → same_geo s s' →
  (∀ g, g ∈ bgtable s' → 0 <= bg_free_blocks_count g < 65536 ∧ 0 <= bg_free_inodes_count g < 65536) →
  0 <= s_free_blocks_count s' < 4294967296 → 0 <= s_free_inodes_count s' < 4294967296 → mounted st s'.
Proof.
  intros [? ? ? ? ? ? ? ? Hgr ? ?] [Hs Hb Hi Hc Hl Hd] Hg Hfb Hfi. unfold EXT2_BGCOUNT in *.
  assert (Hlen : length (bgtable s) = length (bgtable s')) by (apply (f_equal length) in Hl; unfold layout in Hl; by rewrite !length_fmap in Hl).
  constructor; unfold EXT2_BGCOUNT; rewrite <- ?Hs, <- ?Hb, <- ?Hi, <- ?Hc, <- ?Hd, <- ?Hlen; try done.
  intros j g' Hj. pose proof (layout_lookup _ _ _ Hj) as Hlj. rewrite <- Hl in Hlj. unfold layout in Hlj. rewrite list_lookup_fmap in Hlj.
  destruct (bgtable s !! j) as [g|] eqn:Ej; [|done]. injection Hlj as <- <- <-. destruct (Hgr j g Ej) as (? & ? & ? & _).
  destruct (Hg g' (list_elem_of_lookup_2 _ _ _ Hj)). done.
Qed.

(** The counts of blocks of a consistent volume are in range. *)
Lemma block_counts_range s : e2_ok s →
  0 <= s_free_blocks_count s < 4294967296 ∧ ∀ g, g ∈ bgtable s → 0 <= bg_free_blocks_count g < 65536.
Proof.
  intros [geo _ Hg Hs]. pose proof (geo_group s geo) as [Hbpg _]. split; [rewrite Hs; by apply sum_free_range|].
  intros g Hin. rewrite (proj1 (Forall_forall _ _) Hg g Hin). pose proof (free_count_range (bitmap_of s g) (s_blocks_per_group s)). lia.
Qed.

(** Counts of inodes are untouched. *)
Lemma vol_step st s s' : vol_ok st s → same_geo s s' → e2_ok s' →
  (∀ b, 0 <= b → block_free s' b = true → 0 < b ∧ data_block st s b) →
  (∀ g', g' ∈ bgtable s' → ∃ g, g ∈ bgtable s ∧ bg_free_inodes_count g' = bg_free_inodes_count g) →
  s_free_inodes_count s' = s_free_inodes_count s → vol_ok st s'.
Proof.
  intros [Hok Hm Hg Hf Ha Hi Ht] sg Hok' Hfree Hino Hcnt. destruct (block_counts_range s' Hok') as [Hfb Hgb].
  assert (Hlen : length (bgtable s) = length (bgtable s')).
  { pose proof (sg_layout _ _ sg) as Hl. apply (f_equal length) in Hl. unfold layout in Hl. by rewrite !length_fmap in Hl. }
  constructor; [done| |by rewrite <- Hlen| | | |].
  - apply (mounted_geo st s); [done..| |done|rewrite Hcnt; apply (mt_counts _ _ Hm)]. intros g' Hin. split; [by apply Hgb|].
    destruct (Hino g' Hin) as (g & Hg' & ->). apply list_elem_of_lookup_1 in Hg' as [j Hj]. by apply (mt_groups _ _ Hm j g Hj).
  - intros b Hb Hbf. rewrite <- (geo_data st s s' sg). by apply Hfree.
  - intros q. rewrite <- (geo_fixed st s s' sg), <- (geo_bitmaps s s' sg). apply Ha.
  - by rewrite <- (sg_ipg _ _ sg).
  - intros bb ib it. rewrite <- (sg_layout _ _ sg), <- (sg_size _ _ sg), <- (sg_ipg _ _ sg), <- (sg_len _ _ sg). apply Ht.
Qed.

(** ** Writing outside the bitmaps *)

Lemma e2_ok_dev s d b : e2_ok s → length d = length (dev s) → Forall byte_ok d → (∀ q, bitmaps s q → d !! q = dev s !! q) →
  e2_ok (with_dev (set_dirty s b) d) ∧ ∀ c, block_free (with_dev (set_dirty s b) d) c = block_free s c.
Proof.
  intros [geo Hlk Hgrp Hsum] Hl Hd Hq.
  assert (Hbm : ∀ g, g ∈ bgtable s → bitmap_of (with_dev (set_dirty s b) d) g = bitmap_of s g).
  { intros g Hg. apply list_eq. intros i. unfold bitmap_of. rewrite !slice_lookup. change (block_len (with_dev _ _)) with (block_len s).
    change (block_pos (with_dev _ _)) with (block_pos s). case_decide; [|done]. cbn [dev with_dev]. apply Hq.
    eexists _, _, _. split; [by apply layout_elem|]. unfold in_block. lia. }
  split.
  - constructor; [|done| |done].
    + destruct geo. constructor; cbn [dev with_dev set_dirty]; rewrite ?Hl; done.
    + apply Forall_forall. intros g Hg. rewrite Hbm by done. by apply (proj1 (Forall_forall _ _) Hgrp).
  - intros c. unfold block_free. cbn [bgtable with_dev set_dirty s_blocks_per_group]. destruct (bgtable s !! _) as [g|] eqn:E; [|done].
    by rewrite Hbm by (by eapply list_elem_of_lookup_2).
Qed.

Lemma vol_write st s d b : vol_ok st s → length d = length (dev s) → Forall byte_ok d → (∀ q, bitmaps s q → d !! q = dev s !! q) →
  vol_ok st (with_dev (set_dirty s b) d) ∧ (∀ c, block_free (with_dev (set_dirty s b) d) c = block_free s c)
  ∧ same_geo s (with_dev (set_dirty s b) d).
Proof.
  intros Hv Hl Hd Hq. destruct (e2_ok_dev s d b (v_ok _ _ Hv) Hl Hd Hq) as [Hok Hfree].
  assert (same_geo s (with_dev (set_dirty s b) d)) by (by constructor). split; [|done].
  eapply vol_step; [done..| | |done].
  - intros c Hc. rewrite Hfree. by apply (v_free _ _ Hv).
  - intros g Hg. by exists g.
Qed.

(** ** Allocation *)

Lemma alloc_vol st s : vol_ok st s → s_free_blocks_count s ≠ 0 →
  ∃ s' b, e2_alloc_block s true = Ret (s', b) ∧ vol_ok st s' ∧ same_geo s s' ∧ dirty s' = true
    ∧ 0 < b < 4294967296 ∧ block_free s b = true ∧ data_block st s b
    ∧ (∀ c, 0 <= c → block_free s' c = block_free s c && negb (c =? b))
    ∧ s_free_blocks_count s' = s_free_blocks_count s - 1
    ∧ ∀ q, ¬ bitmaps s q → dev s' !! q = dev s !! q.
Proof.
  intros Hv Hne. pose proof (v_ok _ _ Hv) as Hok. pose proof (ok_geo _ Hok) as geo.
  destruct (e2_alloc_block_run s Hok Hne) as (i & g & b & Hi & Hb & Hclr & _ & Hr & Hrun).
  pose proof (list_elem_of_lookup_2 _ _ _ Hi) as Hg. destruct (bitmap_of_ok s geo g Hg) as [Hbm Hlen].
  destruct (take_block s i g b Hok Hi Hb Hclr) as (Hok' & Hfree & Hbits).
  assert (Hbf : block_free s (b + Z.of_nat i * s_blocks_per_group s) = true) by (by rewrite (block_free_at s i g b)).
  destruct (v_free _ _ Hv _ (proj1 Hr) Hbf) as [Hpos Hdb].
  assert (sg : same_geo s (account_blocks (write_bitmap s g (set_bit (bitmap_of s g) b)) (Z.of_nat i) (-1)))
    by (apply same_geo_account; by rewrite set_bit_length).
  eexists _, _. split; [exact Hrun|]. split; [|split; [done|]].
  - eapply vol_step; [done..| | |done].
    + intros c Hc. rewrite Hbits by done. intros [Hc' _]%andb_true_iff. by apply (v_free _ _ Hv).
    + intros g' Hg'. cbn [account_blocks bgtable] in Hg'. change (bgtable (write_bitmap _ _ _)) with (bgtable s) in Hg'.
      apply list_elem_of_lookup_1 in Hg' as [j Hj]. rewrite list_lookup_alter in Hj. case_decide; [|by eexists; split; [eapply list_elem_of_lookup_2|]].
      destruct (bgtable s !! Z.to_nat (Z.of_nat i)) as [h|] eqn:Eh; [|done]. injection Hj as <-. exists h. split; [by eapply list_elem_of_lookup_2|done].
  - split; [done|]. split; [split; [done|]|].
    + destruct Hdb as [[? ?] _]. pose proof (geo_dev s geo). pose proof (geo_size s geo). nia.
    + do 4 (split; [done|]). intros q Hq%outside_bitmaps_iff. apply write_outside; [done|by rewrite set_bit_length|done].
Qed.
