(* ===== verification/E2Flush.v ===== *)
(** Writing an ext2 inode to the disk: after [e2_inode_flush] the inode and its
    block map can be read back, the bytes of the file and of all other files
    stay, and the volume is consistent. *)

From S2P Require Import Prelude Bytes E2Alloc E2Super E2Inode E2File E2Volume.

(** * Fields of an inode *)

Definition data_ok (p : e2_inode_private) : Prop := 128 <= Z.of_nat (length (inode_data p)) ∧ Forall byte_ok (inode_data p).

Lemma with_data_ok p l i : data_ok p → Forall byte_ok l → data_ok (with_data p (list_inserts i l (inode_data p))).
Proof. intros [Hl Hb] H. split; cbn [inode_data with_data]; [by rewrite length_inserts|by apply inserts_Forall]. Qed.

Lemma set_block_ok p k b : data_ok p → data_ok (set_block p k b).
Proof. intros H. apply with_data_ok, le32_bytes. done. Qed.
Lemma set_size_ok p n : data_ok p → data_ok (set_size p n).
Proof. intros H. apply with_data_ok, le32_bytes. done. Qed.
Lemma set_blocks_ok p n : data_ok p → data_ok (set_blocks p n).
Proof. intros H. apply with_data_ok, le32_bytes. done. Qed.

Lemma i_block_set_block p k b j : data_ok p → (k < 15)%nat → (j < 15)%nat → 0 <= b < 4294967296 →
  i_block (set_block p k b) j = if decide (j = k) then b else i_block p j.
Proof.
  intros [Hl _] Hk Hj Hb. unfold i_block, set_block. cbn [inode_data with_data].
  case_decide as E; [subst; apply rd32_wr32_eq; lia|apply rd32_wr32_ne; lia].
Qed.
Lemma i_size_set_size p n : data_ok p → 0 <= n < 4294967296 → i_size (set_size p n) = n.
Proof. intros [Hl _] H. apply rd32_wr32_eq; lia. Qed.
Lemma i_blocks_set_blocks p n : data_ok p → 0 <= n < 4294967296 → i_blocks (set_blocks p n) = n.
Proof. intros [Hl _] H. apply rd32_wr32_eq; lia. Qed.
Lemma i_size_set_block p k b : i_size (set_block p k b) = i_size p.
Proof. apply rd32_wr32_ne; lia. Qed.
Lemma i_blocks_set_block p k b : i_blocks (set_block p k b) = i_blocks p.
Proof. apply rd32_wr32_ne; lia. Qed.
Lemma i_mode_set_block p k b : i_mode (set_block p k b) = i_mode p.
Proof. apply rd16_wr32_ne; lia. Qed.
Lemma i_links_set_block p k b : i_links_count (set_block p k b) = i_links_count p.
Proof. apply rd16_wr32_ne; lia. Qed.
Lemma i_blocks_set_size p n : i_blocks (set_size p n) = i_blocks p.
Proof. by apply rd32_wr32_ne. Qed.
Lemma i_size_set_blocks p n : i_size (set_blocks p n) = i_size p.
Proof. by apply rd32_wr32_ne. Qed.
Lemma i_mode_set_size p n : i_mode (set_size p n) = i_mode p.
Proof. apply rd16_wr32_ne; lia. Qed.
Lemma i_mode_set_blocks p n : i_mode (set_blocks p n) = i_mode p.
Proof. apply rd16_wr32_ne; lia. Qed.
Lemma i_block_set_size p n j : i_block (set_size p n) j = i_block p j.
Proof. apply rd32_wr32_ne; lia. Qed.
Lemma i_block_set_blocks p n j : i_block (set_blocks p n) j = i_block p j.
Proof. apply rd32_wr32_ne; lia. Qed.

#[export] Hint Rewrite i_links_set_block i_size_set_block i_blocks_set_block i_mode_set_block i_blocks_set_size i_size_set_blocks i_mode_set_size
  i_mode_set_blocks i_block_set_size i_block_set_blocks : e2field.
#[export] Hint Resolve set_block_ok set_size_ok set_blocks_ok : stewie.

(** What no change of a field touches. *)
Definition same_file (p p' : e2_inode_private) : Prop :=
  i_ino p' = i_ino p ∧ block p' = block p ∧ ilock p' = ilock p ∧ length (inode_data p') = length (inode_data p)
  ∧ i_size p' = i_size p ∧ i_blocks p' = i_blocks p ∧ i_mode p' = i_mode p ∧ i_links_count p' = i_links_count p.

Lemma set_direct_spec p k l : data_ok p → (k + length l <= 15)%nat → Forall (λ b, 0 <= b < 4294967296) l →
  let p' := set_direct p k l in
  data_ok p' ∧ same_file p p' ∧ idirty p' = idirty p
  ∧ ∀ j, (j < 15)%nat → i_block p' j = if decide (k <= j < k + length l)%nat then l !!! (j - k)%nat else i_block p j.
Proof.
  intros Hd Hk Hl. revert p k Hd Hk. induction Hl as [|b l Hb Hl IH]; intros p k Hd Hk; cbn [set_direct].
  { split; [done|]. split; [done|]. split; [done|]. intros j Hj. rewrite decide_False; [done|]. simpl. lia. }
  cbn [length] in Hk. destruct (IH (set_block p k b) (S k)) as (Hd' & (I1 & I2 & I3 & I4 & I5 & I6 & I7 & I8) & Hi & Hj); [by apply set_block_ok|lia|].
  split; [done|]. split; [|split; [done|]].
  - unfold same_file. rewrite I1, I2, I3, I4, I5, I6, I7, I8. autorewrite with e2field. cbn [set_block with_data inode_data]. by rewrite wr32_length.
  - intros j Hj15. rewrite Hj, i_block_set_block by (done || lia). cbn [length]. destruct (decide (j = k)) as [->|Hne].
    + rewrite decide_False, decide_True by lia. by rewrite Nat.sub_diag.
    + destruct (decide (S k <= j < S k + length l)%nat) as [H|H].
      * rewrite decide_True by lia. replace (j - k)%nat with (S (j - S k)) by lia. done.
      * rewrite decide_False by lia. done.
Qed.

(** * Addresses in a block *)

Lemma unwords_length l : length (unwords l) = (4 * length l)%nat.
Proof. unfold unwords. induction l as [|w l IH]; [done|]. rewrite fmap_cons. cbn [concat length]. rewrite length_app, IH. cbn [length le32]. lia. Qed.

Lemma unwords_lookup l i w k : l !! i = Some w → (k < 4)%nat → unwords l !! (4 * i + k)%nat = le32 w !! k.
Proof.
  unfold unwords. revert i. induction l as [|x l IH]; intros [|i] Hi Hk; [done..| |]; rewrite fmap_cons; cbn [concat].
  - injection Hi as ->. rewrite lookup_app_l by (cbn [length le32]; lia). f_equal.
  - rewrite lookup_app_r by (cbn [length le32]; lia). cbn [length le32]. replace (4 * S i + k - 4)%nat with (4 * i + k)%nat by lia. by apply IH.
Qed.

Lemma rd32_le32 w : rd32 (le32 w) 0 = u32 w.
Proof. unfold rd32, le32, u32. change (Z.to_nat (4 * 0)) with 0%nat. cbn. Z.to_euclidean_division_equations; lia. Qed.

Lemma rd32_unwords l i w : l !! i = Some w → rd32 (unwords l) (Z.of_nat i) = u32 w.
Proof.
  intros Hi. rewrite <- rd32_le32. apply rd32_lookup. intros k Hk. replace (Z.to_nat (4 * Z.of_nat i)) with (4 * i)%nat by lia.
  by apply unwords_lookup.
Qed.

Lemma words_unwords s l : length l = per_block s → words s (unwords l) = u32 <$> l.
Proof.
  intros Hl. apply list_eq. intros i. unfold words. rewrite !list_lookup_fmap. destruct (l !! i) as [w|] eqn:E.
  - rewrite lookup_seq_lt by (apply lookup_lt_Some in E; lia). cbn. f_equal. by apply rd32_unwords.
  - rewrite lookup_seq_ge by (apply lookup_ge_None in E; lia). done.
Qed.

Lemma unwords_bytes l : Forall byte_ok (unwords l).
Proof. unfold unwords. induction l as [|w l IH]; [constructor|]. rewrite fmap_cons. cbn [concat]. apply Forall_app. split; [apply le32_bytes|done]. Qed.

Section Map.
Context (behind : nat → Z) (s : e2fs).
Hypothesis Hs : s_blocksize s mod 4 = 0.
Hypothesis Hpos : 0 < s_blocksize s.

Lemma per_block_len : (4 * per_block s)%nat = block_len s.
Proof using Hs Hpos. unfold per_block, block_len. pose proof (Z.div_mod (s_blocksize s) 4). lia. Qed.

Lemma map_bytes_length map idx : length (map_bytes behind s map idx) = block_len s.
Proof using Hs Hpos. unfold map_bytes. rewrite unwords_length, length_fmap, length_seq. apply per_block_len. Qed.

(** Reading back the part of the map that was stored. *)
Lemma read_map_bytes map idx n : (idx + n <= length map)%nat → (n <= per_block s)%nat → Forall (λ b, 0 <= b < 4294967296) (slice idx n map) →
  take n (words s (map_bytes behind s map idx)) = slice idx n map.
Proof.
  intros Hm Hn Hr. unfold map_bytes. rewrite words_unwords by (by rewrite length_fmap, length_seq).
  apply list_eq. intros i. rewrite slice_lookup. case_decide as Hi; [|by rewrite lookup_take_ge by lia].
  rewrite lookup_take_lt, !list_lookup_fmap, lookup_seq_lt by lia. cbn.
  destruct (lookup_lt_is_Some_2 map (idx + i)) as [b Hb]; [lia|]. rewrite Hb. cbn. rewrite u32_small; [done|].
  apply (Forall_lookup_1 _ _ i b Hr). by rewrite slice_lookup, decide_True.
Qed.
End Map.

(** * Files *)

(** The part of the block map that is in use, and the indirect block. *)
Definition used (s : e2fs) (p : e2_inode_private) : list Z := take (nblocks s p) (block p).
Definition indirect (p : e2_inode_private) : list Z := if i_block p 12 =? 0 then [] else [i_block p 12].
Definition owned (s : e2fs) (p : e2_inode_private) : list Z := indirect p ++ used s p.

(** The file as bytes. *)
Definition content (s : e2fs) (p : e2_inode_private) : list Z := take (Z.to_nat (i_size p)) (data_of s (used s p)).

(** Block [b] belongs to somebody, and can hold data. *)
Definition taken (st : e2_static) (s : e2fs) (b : Z) : Prop := 0 < b ∧ data_block st s b ∧ block_free s b = false.

(** A file without holes that needs no more than the indirect block, that is of
    at most 12 + blocksize / 4 blocks; [i_blocks] counts its data blocks, as this
    driver does (others count the indirect block too).  Device nodes and FIFOs
    have no blocks. *)
Record file_ok (st : e2_static) (s : e2fs) (p : e2_inode_private) : Prop := {
  f_data : Z.of_nat (length (inode_data p)) = s_inode_size st ∧ Forall byte_ok (inode_data p);
  f_type : file_type (i_mode p) ∉ [EXT2_S_IFBLK; EXT2_S_IFCHR; EXT2_S_IFIFO];
  f_lock : ilock p = 0;
  f_ino : EXT2_BAD_INO < i_ino p <= s_inodes_count st ∧ (i_ino p - 1) / s_inodes_per_group s < Z.of_nat (length (bgtable s));
  f_blocks : i_blocks p * 512 = Z.of_nat (nblocks s p) * s_blocksize s ∧ i_blocks p * 512 < 4294967296;
  f_map : (nblocks s p <= length (block p))%nat ∧ (nblocks s p <= 12 + per_block s)%nat;
  f_owned : Forall (taken st s) (owned s p) ∧ NoDup (owned s p);
  f_size : i_size p <= Z.of_nat (nblocks s p) * s_blocksize s;
}.

Section Volume.
Context (st : e2_static) (behind : nat → Z).

Lemma vol_blocksize s : vol_ok st s → s_blocksize s mod 1024 = 0 ∧ 0 < s_blocksize s < 4294967296.
Proof.
  intros Hv. destruct (mt_size _ _ (v_mounted _ _ Hv)) as [Hs H0]. split; [|split; [done|rewrite Hs; apply u32_range]].
  rewrite Hs. unfold u32. rewrite Z.shiftl_mul_pow2 by apply rd32_range, (mt_image _ _ (v_mounted _ _ Hv)).
  change 4294967296 with (1024 * 4194304). rewrite Z.mul_mod_distr_l by lia. rewrite Z.mul_comm. by apply Z.mod_mul.
Qed.

Lemma vol_mod4 s : vol_ok st s → s_blocksize s mod 4 = 0 ∧ 0 < s_blocksize s ∧ s_blocksize s mod 512 = 0.
Proof.
  intros Hv. destruct (vol_blocksize s Hv) as [Hm [H0 _]]. pose proof (Z.div_mod (s_blocksize s) 1024).
  split; [apply Z.mod_divide; [lia|]; exists (256 * (s_blocksize s / 1024)); lia|]. split; [done|].
  apply Z.mod_divide; [lia|]. exists (2 * (s_blocksize s / 1024)). lia.
Qed.

Lemma taken_range s b : addressable s → taken st s b → 0 <= b < 4294967296.
Proof. intros [? ?] (? & [[? ?] _] & _). nia. Qed.

Lemma taken_free_ne s b c : taken st s b → block_free s c = true → b ≠ c.
Proof. intros (_ & _ & Hf) Hc ->. congruence. Qed.

Lemma file_data_ok s p : vol_ok st s → file_ok st s p → data_ok p.
Proof. intros Hv [[Hl Hb]]. split; [|done]. pose proof (v_inodes _ _ Hv). lia. Qed.

Lemma used_ok s p : vol_ok st s → file_ok st s p → blocks_ok s (used s p) ∧ length (used s p) = nblocks s p.
Proof.
  intros Hv Hf. destruct (f_owned _ _ _ Hf) as [Ho Hn]. split.
  - split; [by eapply vol_addressable|]. unfold owned in *. apply Forall_app in Ho as [_ Ho]. apply NoDup_app in Hn as (_ & _ & Hn).
    split; [|done]. eapply Forall_impl; [exact Ho|]. intros b (_ & Hd & _). apply Hd.
  - unfold used. rewrite length_take. pose proof (f_map _ _ _ Hf). lia.
Qed.

Lemma used_lookup s p k : (k < nblocks s p)%nat → used s p !! k = block p !! k.
Proof. intros H. unfold used. by apply lookup_take_lt. Qed.

Lemma same_file_nblocks s p p' : same_file p p' → nblocks s p' = nblocks s p ∧ used s p' = used s p.
Proof. intros (_ & Hb & _ & _ & _ & Hn & _). unfold used, nblocks. by rewrite Hb, Hn. Qed.

(** ** Writing the block map *)

(** The addresses of the first twelve blocks, and the indirect block. *)
Record mapped (s : e2fs) (p : e2_inode_private) : Prop := {
  m_direct : ∀ k, (k < 12)%nat → (k < nblocks s p)%nat → block p !! k = Some (i_block p k);
  m_indirect : (12 < nblocks s p)%nat → i_block p 12 ≠ 0 ∧
    take (nblocks s p - 12) (words s (block_data s (i_block p 12))) = slice 12 (nblocks s p - 12) (block p);
  m_none : (nblocks s p <= 12)%nat → i_block p 12 = 0;
}.

(** Changes of the device that spare the blocks other than [b]. *)
Definition spares (s s' : e2fs) (l : list Z) : Prop :=
  ∀ q, ¬ fixed st s q → ¬ bitmaps s q → (∀ b, b ∈ l → ¬ in_block s b q) → dev s' !! q = dev s !! q.

Lemma spares_data s s' l b : same_geo s s' → spares s s' l → data_block st s b → addressable s → Forall (good_block s) l → b ∉ l →
  block_data s' b = block_data s b.
Proof.
  intros sg Hsp [Hg Hd] Ha Hl Hb. apply list_eq. intros i. unfold block_data. rewrite !slice_lookup.
  rewrite <- (geo_block_len s s' sg), <- (geo_block_pos s s' sg). case_decide as Hi; [|done]. 
  assert (Hin : in_block s b (block_pos s b + i)) by (unfold in_block; lia).
  destruct (Hd _ Hin). apply Hsp; [done..|]. intros c Hc Hin'. assert (b ≠ c) by (intros ->; done).
  pose proof (good_apart s b c Ha Hg (proj1 (Forall_forall _ _) Hl c Hc)). unfold in_block in *. lia.
Qed.

Lemma direct_values s p : vol_ok st s → file_ok st s p →
  let l := (λ i, default (behind i) (block p !! i)) <$> seq 0 (Nat.min 12 (nblocks s p)) in
  length l = Nat.min 12 (nblocks s p) ∧ Forall (λ b, 0 <= b < 4294967296) l
  ∧ ∀ k, (k < Nat.min 12 (nblocks s p))%nat → block p !! k = Some (l !!! k).
Proof.
  intros Hv Hf l. pose proof (vol_addressable _ _ Hv) as Ha. pose proof (f_map _ _ _ Hf) as [Hm _].
  assert (Hlook : ∀ k, (k < Nat.min 12 (nblocks s p))%nat → ∃ b, block p !! k = Some b ∧ l !! k = Some b).
  { intros k Hk. destruct (lookup_lt_is_Some_2 (block p) k) as [b Hb]; [lia|]. exists b. split; [done|].
    unfold l. rewrite list_lookup_fmap, lookup_seq_lt by lia. cbn. by rewrite Hb. }
  assert (Hlen : length l = Nat.min 12 (nblocks s p)) by (unfold l; by rewrite length_fmap, length_seq).
  split; [done|]. split.
  - apply Forall_lookup. intros k b Hb. pose proof (lookup_lt_Some _ _ _ Hb). destruct (Hlook k) as (c & Hc & Hc'); [lia|]. simplify_eq.
    apply (taken_range s); [done|]. destruct (f_owned _ _ _ Hf) as [Ho _]. apply (proj1 (Forall_forall _ _) Ho).
    apply elem_of_app. right. apply list_elem_of_lookup. exists k. rewrite used_lookup by lia. done.
  - intros k Hk. destruct (Hlook k Hk) as (b & -> & Hb). by rewrite (list_lookup_total_correct _ _ _ Hb).
Qed.

Lemma used_range s p : vol_ok st s → file_ok st s p → Forall (λ b, 0 <= b < 4294967296) (used s p).
Proof.
  intros Hv Hf. destruct (f_owned _ _ _ Hf) as [Ho _]. apply Forall_app in Ho as [_ Ho]. eapply Forall_impl; [exact Ho|].
  intros b Hb. apply (taken_range s); [by eapply vol_addressable|done].
Qed.

Lemma put_vol s b c : vol_ok st s → data_block st s b → length c = block_len s → Forall byte_ok c →
  vol_ok st (put_block s b c) ∧ (∀ x, block_free (put_block s b c) x = block_free s x) ∧ same_geo s (put_block s b c)
  ∧ spares s (put_block s b c) [b].
Proof.
  intros Hv [Hg Hd] Hl Hc. pose proof (vol_addressable _ _ Hv) as Ha.
  assert (Hq : ∀ q, ¬ in_block s b q → list_inserts (block_pos s b) c (dev s) !! q = dev s !! q).
  { intros q Hq. rewrite inserts_lookup, decide_False; [done|]. unfold in_block in Hq. lia. }
  destruct (vol_write st s (list_inserts (block_pos s b) c (dev s)) (dirty s) Hv) as (Hv' & Hf & sg).
  - apply length_inserts.
  - apply inserts_Forall; [done|]. apply (geo_bytes s), (v_ok _ _ Hv).
  - intros q Hbm. apply Hq. intros Hin. destruct (Hd q Hin) as [_ []]. done.
  - assert (set_dirty s (dirty s) = s) as E by (by destruct s). rewrite E in *. do 3 (split; [done|]).
    intros q _ _ Hnb. cbn [put_block dev with_dev]. apply Hq. apply Hnb. by left.
Qed.

Lemma spares_trans s s1 s2 l1 l2 : same_geo s s1 → spares s s1 l1 → spares s1 s2 l2 → spares s s2 (l1 ++ l2).
Proof.
  intros sg H1 H2 q Hf Hb Hl. rewrite H2.
  - apply H1; [done..|]. intros b Hin. apply Hl, elem_of_app. by left.
  - by rewrite <- (geo_fixed st s s1 sg).
  - by rewrite <- (geo_bitmaps s s1 sg).
  - intros b Hin. rewrite <- (geo_in_block s s1 sg). apply Hl, elem_of_app. by right.
Qed.

Lemma spares_refl s l : spares s s l.
Proof. done. Qed.

Lemma spares_weaken s s' l l' : spares s s' l → l ⊆ l' → spares s s' l'.
Proof. intros H Hs q Hf Hb Hl. apply H; [done..|]. intros b Hin. by apply Hl, Hs. Qed.

Lemma taken_step s s' b : same_geo s s' → taken st s b → block_free s' b = false → taken st s' b.
Proof. intros sg (H0 & Hd & _) Hf. split; [done|]. split; [by rewrite <- (geo_data st s s' sg)|done]. Qed.

Lemma file_ok_step s s' p p' : file_ok st s p → same_geo s s' → same_file p p' → Forall byte_ok (inode_data p') →
  Forall (taken st s') (owned s p') → NoDup (owned s p') → file_ok st s' p'.
Proof.
  intros Hf sg Hsame Hb Ho Hn. pose proof (same_file_nblocks s p p' Hsame) as [Hnb Hu]. destruct Hsame as (H1 & H2 & H3 & H4 & H5 & H6 & H7 & H8).
  destruct Hf as [[Fl _] Ft Flk [Fi1 Fi2] Fb Fm _ Fs].
  assert (Hlen : length (bgtable s') = length (bgtable s)).
  { pose proof (sg_layout _ _ sg) as Hl. apply (f_equal length) in Hl. unfold layout in Hl. by rewrite !length_fmap in Hl. }
  constructor.
  - by rewrite H4.
  - by rewrite H7.
  - by rewrite H3.
  - rewrite H1, Hlen, <- (sg_ipg _ _ sg). done.
  - rewrite H6, <- (geo_nblocks s s' sg), Hnb, <- (sg_size _ _ sg). done.
  - rewrite H2, <- (geo_nblocks s s' sg), Hnb, <- (geo_per_block s s' sg). done.
  - unfold owned, used in *. rewrite <- (geo_nblocks s s' sg). done.
  - rewrite H5, <- (geo_nblocks s s' sg), Hnb, <- (sg_size _ _ sg). done.
Qed.

(** What writing the block map leaves. *)
Record map_written (s s' : e2fs) (p p' : e2_inode_private) : Prop := {
  w_vol : vol_ok st s';
  w_geo : same_geo s s';
  w_same : same_file p p';
  w_file : file_ok st s' p';
  w_mapped : mapped s' p';
  w_spares : spares s s' (indirect p');
  w_free : ∀ c, 0 <= c → block_free s' c = block_free s c && negb (bool_decide (c ∈ indirect p'));
  w_fresh : ∀ b, b ∈ indirect p' → b ∈ indirect p ∨ block_free s b = true;
}.

Lemma free_none s p : indirect p = [] → ∀ c, block_free s c = block_free s c && negb (bool_decide (c ∈ indirect p)).
Proof. intros -> c. rewrite bool_decide_eq_false_2 by set_solver. by rewrite andb_true_r. Qed.

(** Without an indirect block only the inode changes. *)
Lemma written_direct s p p' : vol_ok st s → file_ok st s p → same_file p p' → data_ok p' → (nblocks s p <= 12)%nat →
  i_block p' 12 = 0 → (∀ k, (k < nblocks s p)%nat → block p !! k = Some (i_block p' k)) → map_written s s p p'.
Proof.
  intros Hv Hf Hsame [_ Hb] Hn H12 Hk. pose proof (same_file_nblocks s p p' Hsame) as [Hnb Hu].
  assert (Hind : indirect p' = []) by (unfold indirect; by rewrite H12).
  destruct (f_owned _ _ _ Hf) as [Ho Hnd]. unfold owned in *. apply Forall_app in Ho as [_ Ho]. apply NoDup_app in Hnd as (_ & _ & Hnd).
  constructor; try done.
  - eapply file_ok_step; [done..| |]; unfold owned; by rewrite Hind, Hu.
  - constructor; rewrite ?Hnb.
    + intros k _ Hlt. destruct Hsame as (_ & -> & _). by apply Hk.
    + lia.
    + done.
  - intros c _. by apply free_none.
  - intros b. rewrite Hind. by intros ?%elem_of_nil.
Qed.

(** The indirect block of a file: the one it has, or a new one. *)
Lemma ensure_indirect s p : vol_ok st s → file_ok st s p → (i_block p 12 = 0 → s_free_blocks_count s ≠ 0) →
  ∃ s' b, ensure_block s (i_block p 12) true = Ret (s', b) ∧ vol_ok st s' ∧ same_geo s s' ∧ taken st s' b
    ∧ b ∉ used s p ∧ (∀ c, 0 <= c → block_free s' c = block_free s c && negb (c =? b))
    ∧ (∀ q, ¬ bitmaps s q → dev s' !! q = dev s !! q) ∧ (b ∈ indirect p ∨ block_free s b = true).
Proof.
  intros Hv Hf Hsp. destruct (f_owned _ _ _ Hf) as [Ho Hnd]. unfold ensure_block, owned, indirect in *. case_if; zbool.
  - destruct (alloc_vol st s Hv (Hsp ltac:(done))) as (s' & b & Hrun & Hv' & sg & _ & [Hb0 _] & Hbf & Hdb & Hfree & _ & Hq).
    exists s', b. split; [done|]. do 2 (split; [done|]). split; [|split; [|split; [done|split; [done|by right]]]].
    + split; [done|]. split; [by rewrite <- (geo_data st s s' sg)|]. rewrite Hfree, Z.eqb_refl by lia. apply andb_false_r.
    + intros Hin. apply (taken_free_ne s b b); [|done|done]. by apply (proj1 (Forall_forall _ _) Ho).
  - apply Forall_app in Ho as [Ho _]. apply Forall_cons in Ho as [Ho _].
    apply NoDup_app in Hnd as (_ & Hnd & _). exists s, (i_block p 12). split; [done|]. split; [done|]. split; [done|]. split; [done|].
    split; [apply Hnd; by left|]. split; [|split; [done|left; by left]]. intros c Hc. destruct (Z.eqb_spec c (i_block p 12)) as [->|]; [|by rewrite andb_true_r].
    destruct Ho as (_ & _ & ->). done.
Qed.

Lemma taken_ind s p p' b : same_file p p' → i_block p' 12 = b → 0 < b → indirect p' = [b] ∧ owned s p' = b :: used s p.
Proof.
  intros Hsame H12 Hb. unfold owned, indirect. rewrite H12, (proj2 (Z.eqb_neq b 0)) by lia.
  by rewrite (proj2 (same_file_nblocks s p p' Hsame)).
Qed.

(** With one: it gets the rest of the map. *)
Lemma written_indirect s s1 p p' b c : vol_ok st s1 → same_geo s s1 → file_ok st s p → same_file p p' → data_ok p' → (12 < nblocks s p)%nat →
  i_block p' 12 = b → taken st s1 b → b ∉ used s p → length c = block_len s1 → Forall byte_ok c →
  (∀ x, 0 <= x → block_free s1 x = block_free s x && negb (x =? b)) → (∀ q, ¬ bitmaps s q → dev s1 !! q = dev s !! q) →
  take (nblocks s p - 12) (words s c) = slice 12 (nblocks s p - 12) (block p) →
  (∀ k, (k < 12)%nat → block p !! k = Some (i_block p' k)) → (b ∈ indirect p ∨ block_free s b = true) →
  map_written s (put_block s1 b c) p p'.
Proof.
  intros Hv1 sg Hf Hsame [_ Hb] Hn H12 Htk Hnu Hlc Hc Hfree Hdev Hwords Hdir Hfresh.
  destruct (put_vol s1 b c Hv1 ltac:(apply Htk) Hlc Hc) as (Hv' & Hf' & sg' & Hsp).
  assert (sg2 : same_geo s (put_block s1 b c)) by (by transitivity s1). pose proof Htk as (Hb0 & Hdb & _).
  destruct (taken_ind s p p' b Hsame H12 Hb0) as [Hind Hown]. pose proof (same_file_nblocks s p p' Hsame) as [Hnb Hu].
  pose proof (vol_addressable _ _ Hv1) as Ha1. destruct (f_owned _ _ _ Hf) as [Ho Hnd]. unfold owned in Ho, Hnd.
  apply Forall_app in Ho as [_ Ho]. apply NoDup_app in Hnd as (_ & _ & Hnd).
  constructor; try done.
  - eapply file_ok_step; [done..| |]; rewrite Hown.
    + constructor; [apply (taken_step s1); [done..|rewrite Hf'; apply Htk]|]. apply Forall_forall. intros x Hx.
      pose proof (proj1 (Forall_forall _ _) Ho x Hx) as Htx. apply (taken_step s); [done..|].
      rewrite Hf', Hfree by (destruct Htx; lia). by destruct Htx as (_ & _ & ->).
    + by constructor.
  - constructor; rewrite <- (geo_nblocks s _ sg2), Hnb.
    + intros k Hk _. destruct Hsame as (_ & -> & _). by apply Hdir.
    + intros _. rewrite H12. split; [lia|]. rewrite block_data_put, decide_True by (done || apply Hdb). destruct Hsame as (_ & -> & _).
      unfold words in *. rewrite <- (geo_per_block s _ sg2). done.
    + lia.
  - rewrite Hind. change [b] with ([] ++ [b]). apply (spares_trans s s1); [done| |done]. intros q _ Hq _. by apply Hdev.
  - intros x Hx. rewrite Hind, Hf', Hfree by done. f_equal. f_equal. apply eq_true_iff_eq. rewrite Z.eqb_eq, bool_decide_eq_true. set_solver.
  - intros x. rewrite Hind. by intros ->%list_elem_of_singleton.
Qed.

Lemma same_file_trans p q r : same_file p q → same_file q r → same_file p r.
Proof. intros (? & ? & ? & ? & ? & ? & ? & ?) (? & ? & ? & ? & ? & ? & ? & ?). repeat split; congruence. Qed.

Lemma same_file_set_block p k b : same_file p (set_block p k b).
Proof. unfold same_file. autorewrite with e2field. cbn [set_block with_data inode_data]. by rewrite wr32_length. Qed.

(** [e2_inode_write_block_map] for a file that needs no more than the
    indirect block, when there is room for that. *)
Lemma write_block_map_spec s p : vol_ok st s → file_ok st s p →
  ((12 < nblocks s p)%nat → i_block p 12 = 0 → s_free_blocks_count s ≠ 0) →
  ∃ s' p', e2_inode_write_block_map behind s p (block p) true = Ret (s', p', Ok tt) ∧ map_written s s' p p'.
Proof.
  intros Hv Hf Hsp. pose proof (file_data_ok s p Hv Hf) as Hd. unfold e2_inode_write_block_map.
  rewrite bool_decide_eq_false_2 by apply Hf. case_decide as Hn0.
  { destruct (set_direct_spec p 0 (replicate 15 0) Hd) as (Hd' & Hsame & _ & Hk).
    { done. } { by apply Forall_replicate. }
    eexists _, _. split; [done|]. apply written_direct; [done..|lia| |intros; lia]. by rewrite Hk by lia. }
  destruct (direct_values s p Hv Hf) as (Hl & Hr & Hdir).
  set (l := (λ i, default (behind i) (block p !! i)) <$> seq 0 (Nat.min 12 (nblocks s p))) in *.
  destruct (set_direct_spec p 0 l Hd) as (Hd1 & Hs1 & _ & Hk1); [lia|done|]. 
  assert (Hdir1 : ∀ k, (k < Nat.min 12 (nblocks s p))%nat → block p !! k = Some (i_block (set_direct p 0 l) k)).
  { intros k Hk. rewrite Hdir, Hk1, decide_True by lia. by rewrite Nat.sub_0_r. }
  case_decide as Hn12.
  - destruct (set_direct_spec (with_idirty (set_direct p 0 l) true) 12 [0; 0; 0]) as (Hd2 & Hs2 & _ & Hk2); [done|done|by repeat constructor|].
    eexists _, _. split; [done|]. apply written_direct; [done|done|by eapply same_file_trans|done|done|by rewrite Hk2 by lia|].
    intros k Hk. rewrite Hk2 by lia. rewrite decide_False by (simpl; lia). apply Hdir1. lia.
  - set (p1 := with_idirty (set_direct p 0 l) true) in *. assert (H12 : i_block p1 12 = i_block p 12).
    { unfold p1. change (i_block (with_idirty ?x true) 12) with (i_block x 12). rewrite Hk1, decide_False by lia. done. }
    assert (Hlk : ilock p1 = 0) by (destruct Hs1 as (_ & _ & E & _); unfold p1; cbn [ilock with_idirty]; rewrite E; apply Hf).
    unfold spin_lock. rewrite Hlk. cbn [Z.eqb obind]. rewrite H12.
    destruct (ensure_indirect s p Hv Hf (Hsp ltac:(lia))) as (s1 & b & -> & Hv1 & sg & Htk & Hnu & Hfree & Hdev & Hfresh). cbn [obind].
    pose proof (vol_addressable _ _ Hv1) as Ha1. rewrite write_good by (done || apply Htk). cbn [obind].
    destruct (f_map _ _ _ Hf) as [Hm Hp]. rewrite (decide_True (P := (nblocks s p <= 12 + per_block (put_block s1 b _))%nat))
      by (change (per_block (put_block s1 b _)) with (per_block s1); by rewrite <- (geo_per_block s s1 sg)).
    destruct (vol_mod4 s1 Hv1) as (Hm4 & Hp0 & _). pose proof (taken_range s1 b Ha1 Htk) as Hbr.
    eexists _, _. split; [done|]. eapply (written_indirect s s1 p _ b); [done..| | | | | | | | | | | | |done].
    + eapply same_file_trans; [exact Hs1|]. exact (same_file_set_block p1 12 b).
    + by apply set_block_ok.
    + lia.
    + rewrite i_block_set_block, decide_True by (done || lia). done.
    + done.
    + done.
    + by apply map_bytes_length.
    + apply unwords_bytes.
    + done.
    + done.
    + assert (map_bytes behind s1 (block p) 12 = map_bytes behind s (block p) 12) as ->.
      { unfold map_bytes. by rewrite (geo_per_block s s1 sg). }
      apply read_map_bytes; [lia..|]. apply Forall_lookup. intros i x. rewrite slice_lookup. case_decide as Hi; [|done]. intros Hx.
      apply (Forall_lookup_1 _ _ (12 + i) x (used_range s p Hv Hf)). by rewrite used_lookup by lia.
    + intros k Hk. rewrite i_block_set_block, decide_False by (done || lia). apply Hdir1. lia.
Qed.

(** ** Reading the block map back *)

Lemma words_length s buf : length (words s buf) = per_block s.
Proof. unfold words. by rewrite length_fmap, length_seq. Qed.

Lemma read_block_map_spec s p q : vol_ok st s → file_ok st s p → mapped s p → inode_data q = inode_data p → ilock q = 0 →
  ∃ map, e2_inode_read_block_map s q true = Ret (map, Ok tt) ∧ take (nblocks s p) map = used s p.
Proof.
  intros Hv Hf Hm Hdata Hlk. pose proof (vol_addressable _ _ Hv) as Ha. destruct (f_map _ _ _ Hf) as [Hlen Hmax].
  assert (Hn : nblocks s q = nblocks s p) by (unfold nblocks, i_blocks; by rewrite Hdata).
  assert (Hib : ∀ k, i_block q k = i_block p k) by (intros k; unfold i_block; by rewrite Hdata).
  unfold e2_inode_read_block_map. rewrite Hn. case_decide as H0; [eexists; split; [done|]; unfold used; by rewrite H0|].
  assert (Hdir : i_block q <$> seq 0 (Nat.min 12 (nblocks s p)) = take 12 (used s p)).
  { apply list_eq. intros k. rewrite list_lookup_fmap. destruct (decide (k < Nat.min 12 (nblocks s p))%nat) as [Hk|Hk].
    - rewrite lookup_seq_lt, lookup_take_lt, used_lookup by lia. cbn. rewrite Hib. symmetry. apply (m_direct _ _ Hm); lia.
    - rewrite lookup_seq_ge by lia. symmetry. apply lookup_ge_None_2. rewrite length_take. unfold used. rewrite length_take. lia. }
  destruct (used_ok s p Hv Hf) as [_ Hul]. case_decide as H12.
  { eexists. split; [done|]. rewrite Hdir. rewrite !take_ge; [done|lia|rewrite take_ge; lia]. }
  unfold spin_lock. rewrite Hlk, Hib. cbn [Z.eqb obind]. destruct (m_indirect _ _ Hm ltac:(lia)) as [Hne Hw].
  assert (good_block s (i_block p 12)) as Hg.
  { destruct (f_owned _ _ _ Hf) as [Ho _]. unfold owned, indirect in Ho. rewrite (proj2 (Z.eqb_neq _ _) Hne) in Ho.
    apply Forall_app in Ho as [Ho _]. apply Forall_cons in Ho as [(_ & Hd & _) _]. apply Hd. }
  unfold read_layer. rewrite read_good by done. cbn [obind]. rewrite Hw, Hdir.
  assert (E : take 12 (used s p) ++ slice 12 (nblocks s p - 12) (block p) = used s p).
  { rewrite <- (take_drop 12 (used s p)) at 2. f_equal. unfold used, slice. by rewrite skipn_firstn_comm. }
  rewrite E, decide_True by done. eexists. split; [done|]. apply take_ge. lia.
Qed.

(** ** The superblock and the inode *)

Lemma super_flush_vol s : vol_ok st s → ∃ s', e2_super_flush st s = Ret s' ∧ vol_ok st s' ∧ same_geo s s'
  ∧ (∀ c, block_free s' c = block_free s c) ∧ s_free_blocks_count s' = s_free_blocks_count s
  ∧ ∀ q, ¬ fixed st s q → dev s' !! q = dev s !! q.
Proof.
  intros Hv. destruct (dirty s) eqn:Hd.
  - pose proof (v_mounted _ _ Hv) as Hm. eexists. split; [apply e2_super_flush_run; [done..|apply Hv]|].
    destruct (mt_image _ _ Hm) as [Hi Hib]. destruct (mt_table _ _ Hm) as (_ & Ht & Htb).
    assert (Hq : ∀ q, ¬ fixed st s q → flushed st s !! q = dev s !! q).
    { intros q Hq. unfold flushed. unfold SUPER_SIZE in Hi.
      rewrite !inserts_lookup, !decide_False; [done|..]; unfold table_bytes; rewrite ?super_bytes_length, ?bg_write_length;
        intros [? _]; apply Hq; unfold fixed, in_super, in_table; [left|right; left]; lia. }
    destruct (vol_write st s (flushed st s) false Hv) as (Hv' & Hf & sg); [| | |done].
    + unfold flushed. by rewrite !length_inserts.
    + unfold flushed. apply inserts_Forall; [by apply bg_write_bytes|]. apply inserts_Forall; [by apply wr32_bytes, wr32_bytes|].
      apply (geo_bytes s), (v_ok _ _ Hv).
    + intros q Hbm. apply Hq. intros Hfx. by apply (v_apart _ _ Hv q).
  - eexists. split; [unfold e2_super_flush; by rewrite Hd|]. done.
Qed.

(** The place of an inode lies in an inode table. *)
Lemma inode_slot s p : vol_ok st s → file_ok st s p →
  ∃ pos, inode_pos st s (i_ino p) = Ret pos ∧ 0 <= pos ∧ pos + s_inode_size st <= Z.of_nat (length (dev s))
    ∧ ∀ q, (Z.to_nat pos <= q < Z.to_nat pos + Z.to_nat (s_inode_size st))%nat → fixed st s q.
Proof.
  intros Hv Hf. destruct (f_ino _ _ _ Hf) as [[Hi0 _] Hi]. destruct (v_inodes _ _ Hv) as [Hipg Hsz]. unfold EXT2_BAD_INO in Hi0.
  pose proof (vol_addressable _ _ Hv) as [Hbs Hlen]. pose proof (Z.mod_pos_bound (i_ino p - 1) (s_inodes_per_group s) Hipg).
  assert (0 <= (i_ino p - 1) / s_inodes_per_group s) by (apply Z.div_pos; lia).
  unfold inode_pos. destruct (lookup_lt_is_Some_2 (bgtable s) (Z.to_nat ((i_ino p - 1) / s_inodes_per_group s))) as [g Hg]; [lia|].
  rewrite Hg. cbn [or_halt obind]. set (local := (i_ino p - 1) mod s_inodes_per_group s) in *.
  pose proof (layout_elem s g (list_elem_of_lookup_2 _ _ _ Hg)) as Hin. destruct (v_itables _ _ Hv _ _ _ Hin) as [Hit Hend].
  assert (0 <= bg_inode_table g * s_blocksize s) by nia.
  assert (local * s_inode_size st + s_inode_size st <= s_inodes_per_group s * s_inode_size st) by nia.
  assert (0 <= local * s_inode_size st) by nia. rewrite u32_small by lia.
  eexists. split; [done|]. split; [lia|]. split; [lia|]. intros q Hq. right. right. eexists _, _, _. split; [exact Hin|]. right.
  unfold in_itable. lia.
Qed.

(** Reading the inode from the disk gives this file. *)
Definition persisted (s : e2fs) (p : e2_inode_private) : Prop :=
  ∃ q, e2_read_inode st s (i_ino p) true = Ret (Ok q) ∧ inode_data q = inode_data p ∧ used s q = used s p.

(** The inode and its block map are on the disk as they are in memory. *)
Definition stored (s : e2fs) (p : e2_inode_private) : Prop :=
  mapped s p ∧ ∃ pos, inode_pos st s (i_ino p) = Ret pos
    ∧ slice (Z.to_nat pos) (Z.to_nat (s_inode_size st)) (dev s) = inode_data p.

Lemma stored_persisted s p : vol_ok st s → file_ok st s p → stored s p → persisted s p.
Proof.
  intros Hv Hf (Hm & pos & Hpos & Hslot). destruct (inode_slot s p Hv Hf) as (pos' & E & H0 & H1 & _). rewrite Hpos in E. injection E as <-.
  pose proof (vol_addressable _ _ Hv) as [_ Hlen]. pose proof (v_inodes _ _ Hv). destruct (f_ino _ _ _ Hf) as [[Hi0 Hi1] _].
  unfold persisted, e2_read_inode. unfold EXT2_BAD_INO in *. destruct (orb _ _) eqn:Eb; [zbool; destruct Eb as [Eb|Eb]; zbool; lia|].
  cbn [negb]. rewrite Hpos. cbn [obind]. rewrite dev_read_ok by lia. cbn [obind]. rewrite Hslot.
  destruct (read_block_map_spec s p (mk_priv (i_ino p) (inode_data p) [] false 0) Hv Hf Hm) as (map & -> & Hmap); [done..|].
  cbn [obind]. eexists. split; [done|]. split; [done|]. exact Hmap.
Qed.

(** What a flush leaves. *)
Record file_flushed (s s' : e2fs) (p p' : e2_inode_private) : Prop := {
  fl_vol : vol_ok st s';
  fl_geo : same_geo s s';
  fl_same : same_file p p';
  fl_file : file_ok st s' p';
  fl_stored : stored s' p';
  fl_spares : spares s s' (indirect p');
  fl_free : ∀ c, 0 <= c → block_free s' c = block_free s c && negb (bool_decide (c ∈ indirect p'));
  fl_fresh : ∀ b, b ∈ indirect p' → b ∈ indirect p ∨ block_free s b = true;
  fl_clean : idirty p' = false;
}.

Lemma file_ok_geo s s' p : file_ok st s p → same_geo s s' → (∀ c, block_free s' c = block_free s c) → file_ok st s' p.
Proof.
  intros Hf sg Hfree. destruct (f_owned _ _ _ Hf) as [Ho Hn]. apply (file_ok_step s s' p p); [done..|apply Hf| |done].
  eapply Forall_impl; [exact Ho|]. intros b Hb. apply (taken_step s); [done..|]. rewrite Hfree. apply Hb.
Qed.

Lemma mapped_geo s s' p : vol_ok st s → file_ok st s p → mapped s p → same_geo s s' → spares s s' [] → mapped s' p.
Proof.
  intros Hv Hf [H1 H2 H3] sg Hsp. constructor; rewrite <- ?(geo_nblocks s s' sg); [done| |done].
  intros Hn. destruct (H2 Hn) as [Hne Hw]. split; [done|]. unfold words in *. rewrite <- (geo_per_block s s' sg).
  rewrite (spares_data s s' []); [done|done|done| |by eapply vol_addressable|done|set_solver].
  destruct (f_owned _ _ _ Hf) as [Ho _]. unfold owned, indirect in Ho. rewrite (proj2 (Z.eqb_neq _ _) Hne) in Ho.
  apply Forall_app in Ho as [Ho _]. by apply Forall_cons in Ho as [(_ & Hd & _) _].
Qed.

Lemma e2_inode_flush_spec s p : vol_ok st s → file_ok st s p → idirty p = true →
  ((12 < nblocks s p)%nat → i_block p 12 = 0 → s_free_blocks_count s ≠ 0) →
  ∃ s' p', e2_inode_flush st behind s p true = Ret (s', p') ∧ file_flushed s s' p p'.
Proof.
  intros Hv Hf Hd Hsp. unfold e2_inode_flush. rewrite Hd. cbn [negb].
  destruct (write_block_map_spec s p Hv Hf Hsp) as (s1 & p1 & -> & [Hv1 sg1 Hs1 Hf1 Hm1 Hsp1 Hfr1 Hfresh]). cbn [obind].
  destruct (super_flush_vol s1 Hv1) as (s2 & -> & Hv2 & sg2 & Hfr2 & _ & Hd2). cbn [obind].
  assert (Hsp2 : spares s1 s2 []) by (intros q Hq _ _; by apply Hd2).
  assert (Hf2 : file_ok st s2 (with_idirty p1 false)) by (destruct (file_ok_geo s1 s2 p1 Hf1 sg2 Hfr2); by constructor).
  assert (Hm2 : mapped s2 (with_idirty p1 false)) by (destruct (mapped_geo s1 s2 p1 Hv1 Hf1 Hm1 sg2 Hsp2); by constructor).
  destruct (inode_slot s2 _ Hv2 Hf2) as (pos & Hpos & Hp0 & Hp1 & Hslot). rewrite Hpos. cbn [obind].
  destruct (f_data _ _ _ Hf2) as [Hl Hb]. cbn [inode_data with_idirty] in *. pose proof (v_inodes _ _ Hv2) as [_ Hsz].
  pose proof (vol_addressable _ _ Hv2) as [_ Hlen]. rewrite dev_write_ok by lia. cbn [obind].
  set (d := list_inserts (Z.to_nat pos) (inode_data p1) (dev s2)).
  assert (Hq : ∀ q, ¬ fixed st s2 q → d !! q = dev s2 !! q).
  { intros q Hnf. unfold d. rewrite inserts_lookup, decide_False; [done|]. intros [? _]. apply Hnf, Hslot. lia. }
  destruct (vol_write st s2 d (dirty s2) Hv2) as (Hv3 & Hfr3 & sg3).
  { unfold d. apply length_inserts. } { unfold d. apply inserts_Forall; [done|]. apply (geo_bytes s2), (v_ok _ _ Hv2). }
  { intros q Hbm. apply Hq. intros Hfx. by apply (v_apart _ _ Hv2 q). }
  assert (set_dirty s2 (dirty s2) = s2) as E by (by destruct s2). rewrite E in *. clear E.
  assert (Hsp3 : spares s2 (with_dev s2 d) []) by (intros q Hnf _ _; by apply Hq).
  assert (Hf3 : file_ok st (with_dev s2 d) (with_idirty p1 false)) by (by eapply file_ok_geo).
  assert (Hm3 : mapped (with_dev s2 d) (with_idirty p1 false)) by (by apply (mapped_geo s2)).
  eexists _, _. split; [done|]. constructor; try done.
  - transitivity s1; [done|]. by transitivity s2.
  - split; [done|]. exists pos. split; [exact Hpos|]. cbn [dev with_dev inode_data with_idirty]. unfold d.
    rewrite <- (slice_inserts_same (Z.to_nat pos) (inode_data p1) (dev s2)) at 2 by lia. f_equal. lia.
  - rewrite <- (app_nil_r (indirect _)). apply (spares_trans s s1); [done..|]. change (@nil Z) with (@nil Z ++ []).
    by apply (spares_trans s1 s2).
  - intros c Hc. rewrite Hfr3, Hfr2. by apply Hfr1.
Qed.

(** The bytes of a file, of this one and of every other, stay. *)
Lemma flushed_data s s' p p' l : addressable s → file_flushed s s' p p' → Forall (data_block st s) l → (∀ b, b ∈ l → b ∉ indirect p') →
  data_of s' l = data_of s l.
Proof.
  intros Ha [_ sg _ Hf _ Hsp _ _ _] Hl Hni. unfold data_of. f_equal. apply Forall_fmap_ext_1. apply Forall_forall. intros b Hb.
  pose proof (proj1 (Forall_forall _ _) Hl b Hb). apply (spares_data s s' (indirect p')); [done..| |by apply Hni].
  apply Forall_forall. intros c Hc. destruct (f_owned _ _ _ Hf) as [Ho _]. rewrite (geo_good s s' sg).
  apply (proj1 (Forall_forall _ _) Ho). apply elem_of_app. by left.
Qed.
End Volume.
