(* ===== verification/E2Write.v ===== *)
(** Reading and writing ext2 files: [e2_inode_io] with the growth of the file,
    the block map and the inode on the disk. *)

From S2P Require Import Prelude Bytes E2Alloc E2Super E2Inode E2File E2Volume E2Flush.

Section Write.
Context (st : e2_static) (behind : nat → Z).

(** * New blocks at the end *)

Lemma nblocks_of s p n : 0 < s_blocksize s → i_blocks p * 512 = Z.of_nat n * s_blocksize s → i_blocks p * 512 < 4294967296 →
  nblocks s p = n.
Proof. intros Hs H1 H2. unfold nblocks. rewrite u32_small by lia. rewrite H1, Z.div_mul by lia. lia. Qed.

Lemma i_blocks_range p : data_ok p → 0 <= i_blocks p < 4294967296.
Proof. intros [_ H]. by apply rd32_range. Qed.
Lemma i_size_range p : data_ok p → 0 <= i_size p < 4294967296.
Proof. intros [_ H]. by apply rd32_range. Qed.

(** The inode after a new block [b] was added. *)
Definition extend (s : e2fs) (p : e2_inode_private) (b : Z) : e2_inode_private :=
  let p := with_block p (block p ++ [b]) in
  let p := set_blocks p (u32 (i_blocks p + s_blocksize s / 512)) in
  set_size p (u32 (i_size p + s_blocksize s)).

(** Nothing but the map and the two counts of an inode has changed. *)
Definition grown (p p' : e2_inode_private) : Prop :=
  i_ino p' = i_ino p ∧ ilock p' = ilock p ∧ idirty p' = idirty p ∧ i_mode p' = i_mode p
  ∧ length (inode_data p') = length (inode_data p) ∧ ∀ k, i_block p' k = i_block p k.

Lemma grown_trans p q r : grown p q → grown q r → grown p r.
Proof.
  intros (? & ? & ? & ? & ? & Hq) (? & ? & ? & ? & ? & Hr). do 5 (split; [congruence|]). intros k. by rewrite Hr.
Qed.

Lemma extend_spec s p b : vol_ok st s → file_ok st s p → (Z.of_nat (nblocks s p) + 1) * s_blocksize s < 4294967296 →
  let p' := extend s p b in
  data_ok p' ∧ grown p p' ∧ i_size p' = i_size p + s_blocksize s ∧ nblocks s p' = S (nblocks s p)
  ∧ i_blocks p' * 512 = Z.of_nat (S (nblocks s p)) * s_blocksize s.
Proof.
  intros Hv Hf Hmax. pose proof (file_data_ok st s p Hv Hf) as Hd. destruct (vol_mod4 st s Hv) as (_ & H0 & H512).
  destruct (f_blocks _ _ _ Hf) as [Hb _]. pose proof (f_size _ _ _ Hf). pose proof (i_size_range p Hd). pose proof (i_blocks_range p Hd).
  pose proof (Z.div_mod (s_blocksize s) 512 ltac:(lia)) as Hdm. rewrite H512 in Hdm. unfold extend. cbv zeta.
  set (p1 := with_block p (block p ++ [b])). assert (Hd1 : data_ok p1) by done.
  change (i_blocks p1) with (i_blocks p) in *. set (p2 := set_blocks p1 _). assert (Hd2 : data_ok p2) by (by apply set_blocks_ok).
  assert (Hs2 : i_size p2 = i_size p) by (unfold p2; by rewrite i_size_set_blocks).
  assert (Hb2 : i_blocks p2 = i_blocks p + s_blocksize s / 512).
  { unfold p2. rewrite u32_small by nia. apply i_blocks_set_blocks; [done|nia]. }
  split; [by apply set_size_ok|]. split.
  { unfold grown. rewrite i_mode_set_size. unfold p2. rewrite i_mode_set_blocks. cbn [set_size with_data inode_data set_blocks].
    rewrite !wr32_length. do 5 (split; [done|]). intros k. by rewrite i_block_set_size, i_block_set_blocks. }
  rewrite i_size_set_size by (done || apply u32_range). rewrite Hs2, u32_small by nia. split; [done|].
  rewrite i_blocks_set_size, Hb2. assert ((i_blocks p + s_blocksize s / 512) * 512 = Z.of_nat (S (nblocks s p)) * s_blocksize s) as E by lia.
  split; [|done]. apply nblocks_of; [done|rewrite i_blocks_set_size, Hb2; done|rewrite i_blocks_set_size, Hb2; lia].
Qed.

Lemma extend_file s s1 p b : vol_ok st s → file_ok st s p → same_geo s s1 → length (block p) = nblocks s p →
  (nblocks s p < 12 + per_block s)%nat → (Z.of_nat (nblocks s p) + 1) * s_blocksize s < 4294967296 →
  taken st s1 b → block_free s b = true → (∀ c, 0 <= c → block_free s c = false → block_free s1 c = false) → file_ok st s1 (extend s p b).
Proof.
  intros Hv Hf sg Hlen Hcap Hmax Htk Hb Hfr. destruct (extend_spec s p b Hv Hf Hmax) as (Hd' & (G1 & G2 & _ & G4 & G5 & G6) & Hs & Hn & Hbl).
  pose proof (f_owned _ _ _ Hf) as [Ho Hnd]. pose proof (f_size _ _ _ Hf).
  assert (Hblk : block (extend s p b) = block p ++ [b]) by done.
  assert (Hu : used s1 (extend s p b) = used s p ++ [b]).
  { unfold used. rewrite <- (geo_nblocks s s1 sg), Hn, Hblk, take_ge by (rewrite length_app; simpl; lia). by rewrite take_ge by lia. }
  assert (Hown : owned s1 (extend s p b) = owned s p ++ [b]).
  { unfold owned, indirect. rewrite Hu, G6. by rewrite app_assoc. }
  assert (Hlen' : length (bgtable s1) = length (bgtable s)).
  { pose proof (sg_layout _ _ sg) as Hl. apply (f_equal length) in Hl. unfold layout in Hl. by rewrite !length_fmap in Hl. }
  destruct Hf as [[Fl _] Ft Flk [Fi1 Fi2] Fb Fm _ Fs].
  constructor.
  - rewrite G5. split; [done|apply Hd'].
  - by rewrite G4.
  - by rewrite G2.
  - rewrite G1, Hlen', <- (sg_ipg _ _ sg). done.
  - rewrite <- (geo_nblocks s s1 sg), Hn, <- (sg_size _ _ sg). split; [done|]. rewrite Hbl. lia.
  - rewrite <- (geo_nblocks s s1 sg), Hn, Hblk, length_app, <- (geo_per_block s s1 sg). simpl. lia.
  - rewrite Hown. split.
    + apply Forall_app. split; [|by constructor]. eapply Forall_impl; [exact Ho|]. intros c Hc. apply (taken_step st s); [done..|].
      destruct Hc as (? & _ & ?). apply Hfr; [lia|done].
    + apply NoDup_app. split; [done|]. split; [|apply NoDup_singleton]. intros c Hc ->%list_elem_of_singleton.
      destruct (proj1 (Forall_forall _ _) Ho b Hc) as (_ & _ & E). congruence.
  - rewrite Hs, <- (geo_nblocks s s1 sg), Hn, <- (sg_size _ _ sg). lia.
Qed.

Lemma add_blocks_spec k s p : vol_ok st s → file_ok st s p → length (block p) = nblocks s p →
  (nblocks s p + k <= 12 + per_block s)%nat → (Z.of_nat (nblocks s p) + Z.of_nat k) * s_blocksize s < 4294967296 →
  Z.of_nat k <= s_free_blocks_count s →
  ∃ s' p' new, add_blocks s p k true = Ret (s', p', true) ∧ vol_ok st s' ∧ same_geo s s' ∧ file_ok st s' p'
    ∧ grown p p' ∧ block p' = block p ++ new ∧ length new = k ∧ nblocks s p' = (nblocks s p + k)%nat
    ∧ s_free_blocks_count s' = s_free_blocks_count s - Z.of_nat k ∧ spares st s s' []
    ∧ (∀ c, 0 <= c → block_free s c = false → block_free s' c = false) ∧ (∀ b, b ∈ new → 0 < b ∧ block_free s b = true).
Proof.
  revert s p. induction k as [|k IH]; intros s p Hv Hf Hlen Hcap Hmax Hfree; cbn [add_blocks].
  { exists s, p, []. rewrite app_nil_r, Nat.add_0_r, Z.sub_0_r. repeat (split; [done|]). intros b Hb. by apply elem_of_nil in Hb. }
  destruct (alloc_vol st s Hv ltac:(lia)) as (s1 & b & -> & Hv1 & sg & _ & [Hb0 Hb1] & Hbf & Hdb & Hfr & Hcnt & Hq). cbn [obind].
  rewrite (proj2 (Z.eqb_neq b 0)) by lia.
  assert (Hbs : s_blocksize s1 = s_blocksize s) by (symmetry; apply (sg_size _ _ sg)). rewrite Hbs.
  change (set_size _ _) with (extend s p b). destruct (extend_spec s p b Hv Hf) as (Hd' & Hgr & Hs & Hn & _); [nia|].
  assert (Hsub : ∀ c, 0 <= c → block_free s c = false → block_free s1 c = false).
  { intros c Hc0 Hc. by rewrite Hfr, Hc by lia. }
  assert (Hf1 : file_ok st s1 (extend s p b)).
  { apply extend_file; [done..|lia|nia| |done|done]. split; [done|]. split; [by rewrite <- (geo_data st s s1 sg)|].
    rewrite Hfr, Z.eqb_refl by lia. apply andb_false_r. }
  assert (Hn1 : nblocks s1 (extend s p b) = S (nblocks s p)) by (by rewrite <- (geo_nblocks s s1 sg)).
  destruct (IH s1 (extend s p b)) as (s' & p' & new & -> & Hv' & sg' & Hf' & Hgr' & Hblk & Hnew & Hn' & Hcnt' & Hsp & Hsub' & Hnb).
  - done.
  - done.
  - rewrite Hn1. cbn. rewrite length_app. simpl. lia.
  - rewrite Hn1, <- (geo_per_block s s1 sg). lia.
  - rewrite Hn1, Hbs. lia.
  - lia.
  - exists s', p', (b :: new). rewrite <- !(geo_nblocks s s1 sg) in Hn'. split; [done|]. split; [done|]. split; [by transitivity s1|].
    split; [done|]. split; [by eapply grown_trans|]. split; [rewrite Hblk; cbn; by rewrite <- app_assoc|].
    split; [by cbn; rewrite Hnew|]. split; [rewrite Hn', Hn; lia|]. split; [lia|]. split; [|split].
    + change (@nil Z) with (@nil Z ++ []). apply (spares_trans st s s1); [done| |done]. intros q _ Hnq _. by apply Hq.
    + intros c Hc0 Hc. by apply Hsub', Hsub.
    + intros c [->|Hc]%elem_of_cons; [done|]. destruct (Hnb c Hc) as [Hc0 Hc1]. split; [done|].
      destruct (block_free s c) eqn:E; [done|]. rewrite Hsub in Hc1; [done|lia|done].
Qed.

(** * Growing a file *)

(** There is room for the file to grow to [newsize]: when [e2_inode_resize]
    sees the same number of whole blocks the last block must have the bytes
    already, otherwise the blocks it adds must be free (and one more for the
    indirect block) and fit below the doubly indirect level. *)
Definition room_for (s : e2fs) (p : e2_inode_private) (newsize : Z) : Prop :=
  let extra := blocks_for s (newsize - i_size p) in
  0 < s_free_blocks_count s ∧
  if (i_size p / s_blocksize s =? newsize / s_blocksize s) && negb (i_size p =? 0)
  then newsize <= Z.of_nat (nblocks s p) * s_blocksize s
  else extra < s_free_blocks_count s ∧ Z.of_nat (nblocks s p) + extra <= 12 + Z.of_nat (per_block s)
    ∧ (Z.of_nat (nblocks s p) + extra) * s_blocksize s < 4294967296.

(** What growing leaves. *)
Record grew (s s' : e2fs) (p p' : e2_inode_private) (newsize : Z) : Prop := {
  g_vol : vol_ok st s';
  g_geo : same_geo s s';
  g_file : file_ok st s' p';
  g_stored : stored st s' p';
  g_size : i_size p' = newsize;
  g_ino : i_ino p' = i_ino p;
  g_prefix : used s p `prefix_of` used s' p';
  g_fresh : ∀ b, b ∈ owned s' p' → b ∈ owned s p ∨ block_free s b = true;
  g_spares : spares st s s' (indirect p');
  g_used : ∀ c, 0 <= c → block_free s c = false → block_free s' c = false;
}.

Lemma file_ok_size s p n d : vol_ok st s → file_ok st s p → 0 <= n <= Z.of_nat (nblocks s p) * s_blocksize s → n < 4294967296 →
  file_ok st s (with_idirty (set_size p n) d).
Proof.
  intros Hv Hf Hn Hmax. pose proof (file_data_ok st s p Hv Hf) as Hd. pose proof (set_size_ok p n Hd) as Hd'.
  assert (Hnb : nblocks s (with_idirty (set_size p n) d) = nblocks s p).
  { unfold nblocks. change (i_blocks (with_idirty ?x d)) with (i_blocks x). by rewrite i_blocks_set_size. }
  assert (Hib : i_block (with_idirty (set_size p n) d) 12 = i_block p 12) by apply i_block_set_size.
  destruct Hf as [[Fl _] Ft Flk Fi Fb Fm Fo Fs]. constructor; rewrite ?Hnb; try done.
  - cbn [inode_data with_idirty set_size with_data]. rewrite wr32_length. split; [done|apply Hd'].
  - change (i_mode (with_idirty ?x d)) with (i_mode x). by rewrite i_mode_set_size.
  - change (i_blocks (with_idirty ?x d)) with (i_blocks x). by rewrite i_blocks_set_size.
  - unfold owned, indirect, used in *. rewrite Hnb, Hib. done.
  - change (i_size (with_idirty ?x d)) with (i_size x). rewrite i_size_set_size; [lia|done|lia].
Qed.

Lemma file_ok_trim s p : file_ok st s p → file_ok st s (with_idirty (with_block p (used s p)) true).
Proof.
  intros [Fd Ft Flk Fi Fb Fm Fo Fs]. constructor; try done.
  - cbn [block with_idirty with_block]. unfold used. rewrite length_take. 
    change (nblocks s (with_idirty (with_block p _) true)) with (nblocks s p). lia.
  - unfold owned, used in *. change (nblocks s (with_idirty (with_block p _) true)) with (nblocks s p).
    cbn [block with_idirty with_block]. rewrite take_take, Nat.min_id. done.
Qed.

(** A flush after the size was set. *)
Lemma grew_flush s s1 s' p p1 p' newsize : vol_ok st s1 → same_geo s s1 → spares st s s1 [] →
  file_ok st s1 p1 → i_size p1 = newsize → i_ino p1 = i_ino p → i_block p1 12 = i_block p 12 → used s p `prefix_of` used s1 p1 →
  (∀ b, b ∈ used s1 p1 → b ∈ used s p ∨ block_free s b = true) → (∀ c, 0 <= c → block_free s c = false → block_free s1 c = false) →
  file_flushed st s1 s' p1 p' → grew s s' p p' newsize.
Proof.
  intros Hv1 sg Hsp1 Hf1 Hs Hi H12 Hpre Hfr Hin Hfl. destruct Hfl as [Hv' sg' Hsame Hf' Hst Hsp Hfree Hnew _].
  pose proof (same_file_nblocks s1 p1 p' Hsame) as [_ Hu]. assert (sg2 : same_geo s s') by (by transitivity s1).
  assert (Hu' : used s' p' = used s1 p1) by (rewrite <- Hu; unfold used; by rewrite (geo_nblocks s1 s' sg')).
  destruct Hsame as (I1 & _ & _ & _ & I5 & _). constructor; try done.
  - by rewrite I5.
  - by rewrite I1.
  - by rewrite Hu'.
  - intros b. unfold owned. rewrite Hu', !elem_of_app. intros [Hb|Hb]; [|destruct (Hfr b Hb); auto].
    assert (Hind : indirect p1 = indirect p) by (unfold indirect; by rewrite H12). destruct (Hnew b Hb) as [Hb'|Hb']; [rewrite Hind in Hb'; auto|].
    right. destruct (block_free s b) eqn:E; [done|]. rewrite Hin in Hb'; [done| |done].
    destruct (f_owned _ _ _ Hf') as [Ho _]. destruct (proj1 (Forall_forall _ _) Ho b) as [? _]; [apply elem_of_app; by left|lia].
  - change (indirect p') with ([] ++ indirect p'). by apply (spares_trans st s s1).
  - intros c Hc Hcf. rewrite Hfree, (Hin c) by done. done.
Qed.

Lemma blocks_for_spec s n : 0 < s_blocksize s → 0 <= n → 0 <= blocks_for s n ∧ n <= blocks_for s n * s_blocksize s.
Proof.
  intros Hs Hn. unfold blocks_for. pose proof (Z.div_mod n (s_blocksize s) ltac:(lia)). pose proof (Z.mod_pos_bound n (s_blocksize s) Hs).
  assert (0 <= n / s_blocksize s) by (apply Z.div_pos; lia). case_if; split; lia.
Qed.

Lemma e2_inode_grow s p newsize : vol_ok st s → file_ok st s p → i_size p < newsize < 4294967296 → room_for s p newsize →
  ∃ s' p' r, e2_inode_resize st behind s p newsize true = Ret (s', p', r) ∧ grew s s' p p' newsize.
Proof.
  intros Hv Hf Hn [Hfree Hroom]. pose proof (file_data_ok st s p Hv Hf) as Hd. pose proof (i_size_range p Hd). unfold e2_inode_resize.
  rewrite (proj2 (Z.eqb_neq _ _)), (proj2 (Z.ltb_ge _ _)) by lia. cbn [negb]. destruct (_ && _) eqn:Eb.
  - destruct (e2_inode_flush_spec st behind s (with_idirty (set_size p newsize) true) Hv) as (s' & p' & -> & Hfl);
      [apply file_ok_size; (done || lia)|done|lia|]. cbn [obind]. eexists _, _, _. split; [done|].
    assert (Hnb : used s (with_idirty (set_size p newsize) true) = used s p).
    { unfold used, nblocks. change (i_blocks (with_idirty ?x true)) with (i_blocks x). by rewrite i_blocks_set_size. }
    apply (grew_flush s s s' p (with_idirty (set_size p newsize) true)); [done|done|done|apply file_ok_size; (done || lia)| | | | | | |exact Hfl]; rewrite ?Hnb; auto.
    + change (i_size (with_idirty ?x true)) with (i_size x). apply i_size_set_size; [done|lia].
    + apply i_block_set_size.
  - destruct Hroom as (Hx & Hcap & Hmax). destruct (f_map _ _ _ Hf) as [Hm _]. rewrite decide_True by done. cbn [or_halt obind].
    pose proof (vol_addressable _ _ Hv) as [Hbs _]. destruct (blocks_for_spec s (newsize - i_size p) Hbs ltac:(lia)) as [Hx0 Hx1].
    set (x := blocks_for s (newsize - i_size p)) in *. fold (used s p). set (p0 := with_idirty (with_block p (used s p)) true).
    assert (Hn0 : nblocks s p0 = nblocks s p) by done. destruct (used_ok st s p Hv Hf) as [_ Hul].
    assert (Hu0 : used s p0 = used s p) by (unfold used at 1; rewrite Hn0; cbn; rewrite take_ge by lia; done).
    destruct (add_blocks_spec (Z.to_nat x) s p0) as (s1 & p1 & new & -> & Hv1 & sg & Hf1 & Hgr & Hblk & Hlen & Hn1 & Hcnt & Hsp & Hin & Hnew);
      [done|by apply file_ok_trim|by rewrite Hn0|rewrite Hn0; lia|rewrite Hn0; lia|lia|].
    cbn [obind]. destruct Hgr as (G1 & _ & G3 & _ & _ & G6). rewrite Hn0 in Hn1. pose proof (f_size _ _ _ Hf) as Hsz.
    assert (Hn1' : nblocks s1 p1 = (nblocks s p + Z.to_nat x)%nat) by (by rewrite <- (geo_nblocks s s1 sg)).
    pose proof (sg_size _ _ sg) as Hbs1.
    assert (E : set_size p1 newsize = with_idirty (set_size p1 newsize) true) by (unfold set_size, with_data, with_idirty; cbn; by rewrite G3).
    assert (Hf2 : file_ok st s1 (set_size p1 newsize)).
    { rewrite E. apply file_ok_size; [done..| |lia]. rewrite Hn1', <- Hbs1. nia. }
    destruct (e2_inode_flush_spec st behind s1 (set_size p1 newsize) Hv1 Hf2) as (s' & p' & -> & Hfl); [by rewrite E|lia|].
    cbn [obind]. eexists _, _, _. split; [done|].
    assert (Hu1 : used s1 (set_size p1 newsize) = used s p ++ new).
    { unfold used at 1. assert (nblocks s1 (set_size p1 newsize) = nblocks s1 p1) as -> by (unfold nblocks; by rewrite i_blocks_set_size).
      cbn [block set_size with_data]. rewrite Hn1', Hblk. cbn [block p0 with_idirty with_block]. apply take_ge. rewrite length_app. lia. }
    eapply (grew_flush s s1); [done|done|done|exact Hf2| | | | | |done|exact Hfl].
    + apply i_size_set_size; [by eapply file_data_ok|lia].
    + exact G1.
    + rewrite i_block_set_size. apply G6.
    + rewrite Hu1. by eexists.
    + intros b. rewrite Hu1, elem_of_app. intros [Hb|Hb]; [by left|right]. by apply Hnew.
Qed.

(** * Writing data *)

Lemma outside_not_in s l q : outside s l q ↔ ∀ b, b ∈ l → ¬ in_block s b q.
Proof. unfold outside, in_block. split; intros H b Hb; specialize (H b Hb); lia. Qed.

Lemma data_outside s l q : Forall (data_block st s) l → fixed st s q ∨ bitmaps s q → outside s l q.
Proof.
  intros Hl Hq. apply outside_not_in. intros b Hb Hin. destruct (proj2 (proj1 (Forall_forall _ _) Hl b Hb) q Hin). tauto.
Qed.

Section Data.
Context (s s' : e2fs) (l : list Z) (off pos n : nat) (buf buf' : list Z).
Context (Hv : vol_ok st s) (Hl : Forall (data_block st s) l) (Hbuf : Forall byte_ok buf).
Context (Hm : moved EXT2_WRITE s s' l off pos n buf buf').

Lemma write_vol : vol_ok st s' ∧ (∀ c, block_free s' c = block_free s c) ∧ same_geo s s' ∧ spares st s s' l.
Proof.
  destruct Hm as (_ & Hs & Hlen & _ & Hby & Hout). destruct (vol_write st s (dev s') (dirty s) Hv) as (Hv' & Hfr & sg); [done| | |].
  - apply Hby; [|done]. apply (geo_bytes s), (v_ok _ _ Hv).
  - intros q Hq. apply Hout, data_outside; auto.
  - assert (set_dirty s (dirty s) = s) as E by (by destruct s). rewrite E, <- Hs in *. do 3 (split; [done|]).
    intros q _ _ Hq. apply Hout, outside_not_in. done.
Qed.

Lemma write_block_data b : good_block s b → b ∉ l → block_data s' b = block_data s b.
Proof.
  intros Hg Hb. destruct Hm as (_ & Hs & _ & _ & _ & Hout). apply list_eq. intros i. rewrite Hs. unfold block_data. rewrite !slice_lookup.
  change (block_len (with_dev s _)) with (block_len s). change (block_pos (with_dev s _)) with (block_pos s).
  case_decide as Hi; [|done]. cbn [dev with_dev]. apply Hout. intros c Hc. assert (c ≠ b) by (intros ->; done).
  pose proof (good_apart s c b (vol_addressable _ _ Hv) (proj1 (proj1 (Forall_forall _ _) Hl c Hc)) Hg). lia.
Qed.

Lemma write_fixed q : fixed st s q → dev s' !! q = dev s !! q.
Proof. intros Hq. destruct Hm as (_ & _ & _ & _ & _ & Hout). apply Hout, data_outside; auto. Qed.

Lemma write_stored p : file_ok st s p → stored st s p → i_block p 12 ∉ l → stored st s' p.
Proof.
  intros Hf ([M1 M2 M3] & at_ & Hpos & Hslot) Hni. destruct write_vol as (_ & _ & sg & _). split.
  - constructor; rewrite <- ?(geo_nblocks s s' sg); [done| |done]. intros Hn. destruct (M2 Hn) as [Hne Hw]. split; [done|].
    unfold words in *. rewrite <- (geo_per_block s s' sg), write_block_data; [done| |done].
    destruct (f_owned _ _ _ Hf) as [Ho _]. apply (proj1 (Forall_forall _ _) Ho). unfold owned, indirect.
    rewrite (proj2 (Z.eqb_neq _ _) Hne). by left.
  - exists at_. destruct (inode_slot st s p Hv Hf) as (at' & E & H0 & H1 & Hfx). rewrite Hpos in E. injection E as <-. split.
    + destruct Hm as (_ & -> & _). exact Hpos.
    + rewrite <- Hslot. apply list_eq. intros i. rewrite !slice_lookup. case_decide; [|done]. apply write_fixed, Hfx. lia.
Qed.
End Data.

(** Bytes [off ..) replaced by [buf], which may go past the end. *)
Definition splice (c : list Z) (off : nat) (buf : list Z) : list Z := take off c ++ buf ++ drop (off + length buf) c.

Lemma splice_inserts (d d' buf : list Z) (off size : nat) :
  d `prefix_of` d' → (size <= length d)%nat → (off <= size)%nat → (off + length buf <= length d')%nat →
  take (Nat.max size (off + length buf)) (list_inserts off buf d') = splice (take size d) off buf.
Proof.
  intros [e ->] Hs Ho Hb. unfold splice. apply list_eq. intros i. rewrite length_app in Hb.
  assert (L1 : length (take off (take size d)) = off) by (rewrite !length_take; lia).
  destruct (decide (i < off)%nat) as [H1|H1].
  { rewrite lookup_take_lt, inserts_lookup, decide_False by lia. rewrite (lookup_app_l (take off _)), !lookup_take_lt, lookup_app_l by lia. done. }
  rewrite (lookup_app_r (take off _)), L1 by lia. destruct (decide (i < off + length buf)%nat) as [H2|H2].
  { rewrite lookup_take_lt, inserts_lookup, decide_True by (rewrite ?length_app; lia). by rewrite lookup_app_l by lia. }
  rewrite lookup_app_r, lookup_drop by lia. replace (off + length buf + (i - off - length buf))%nat with i by lia.
  destruct (decide (i < size)%nat) as [H3|H3].
  - rewrite !lookup_take_lt, inserts_lookup, decide_False, lookup_app_l by lia. done.
  - by rewrite !lookup_take_ge by lia.
Qed.

Lemma data_of_prefix s l l' : l `prefix_of` l' → data_of s l `prefix_of` data_of s l'.
Proof. intros [k ->]. exists (data_of s k). unfold data_of. by rewrite fmap_app, concat_app. Qed.

(** * Reading and writing *)

Lemma owned_data s p : file_ok st s p → Forall (data_block st s) (owned s p).
Proof. intros Hf. eapply Forall_impl; [apply (f_owned _ _ _ Hf)|]. by intros b (_ & ? & _). Qed.

Lemma used_data s p : file_ok st s p → Forall (data_block st s) (used s p).
Proof. intros Hf. pose proof (owned_data s p Hf) as H. unfold owned in H. by apply Forall_app in H as [_ H]. Qed.

Lemma indirect_not_used s p : file_ok st s p → i_block p 12 ∉ used s p.
Proof.
  intros Hf Hin. destruct (f_owned _ _ _ Hf) as [Ho Hn]. unfold owned, indirect in *. destruct (Z.eqb_spec (i_block p 12) 0) as [E|E].
  - destruct (proj1 (Forall_forall _ _) Ho (i_block p 12)) as [? _]; [apply elem_of_app; by right|lia].
  - apply NoDup_app in Hn as (_ & Hn & _). apply (Hn (i_block p 12)); [by left|done].
Qed.

(** The size of a file in bytes and its blocks. *)
Lemma file_span s p : vol_ok st s → file_ok st s p →
  blocks_ok s (used s p) ∧ (Z.to_nat (i_size p) <= length (used s p) * block_len s)%nat ∧ 0 <= i_size p < 4294967296.
Proof.
  intros Hv Hf. destruct (used_ok st s p Hv Hf) as [Hu Hl]. split; [done|]. pose proof (f_size _ _ _ Hf).
  pose proof (vol_addressable _ _ Hv) as [? _]. pose proof (i_size_range p (file_data_ok st s p Hv Hf)).
  rewrite Hl. unfold block_len. split; [nia|done].
Qed.

Lemma transfer_used cmd s p off n buf : vol_ok st s → file_ok st s p → 0 <= off → (0 < n)%nat → (n <= length buf)%nat →
  off + Z.of_nat n <= i_size p →
  ∃ s' buf', io_transfer s p cmd (Z.to_nat off) n buf = Ret (s', buf') ∧ moved cmd s s' (used s p) (Z.to_nat off) 0 n buf buf'.
Proof.
  intros Hv Hf Ho Hn Hb Hs. destruct (file_span s p Hv Hf) as (Hu & Hsp & _). destruct (used_ok st s p Hv Hf) as [_ Hl].
  apply io_transfer_spec; [|done|lia..]. intros k Hk. symmetry. apply used_lookup. lia.
Qed.

Lemma content_slice s p off n : vol_ok st s → file_ok st s p → (off + n <= Z.to_nat (i_size p))%nat →
  slice off n (data_of s (used s p)) = slice off n (content s p).
Proof.
  intros Hv Hf Hn. unfold content. apply list_eq. intros i. rewrite !slice_lookup. case_decide; [|done]. by rewrite lookup_take_lt by lia.
Qed.

Lemma e2_read_run s p off size buf :
  vol_ok st s → file_ok st s p → 0 <= off → 0 < size → off + size < 4294967296 → size <= Z.of_nat (length buf) →
  let n := Z.min size (i_size p - off) in
  e2_inode_io st behind s p EXT2_READ off size buf true
  = if i_size p <=? off then Ret (s, p, 0, buf)
    else Ret (s, p, n, list_inserts 0 (slice (Z.to_nat off) (Z.to_nat n) (content s p)) buf).
Proof.
  intros Hv Hf Ho Hsz Hmax Hb n. unfold e2_inode_io. case_if; [done|]. rewrite u32_small by lia.
  assert ((if i_size p <? off + size then i_size p - off else size) = n) as -> by (unfold n; case_if; lia).
  destruct (transfer_used EXT2_READ s p off (Z.to_nat n) buf Hv Hf) as (s' & buf' & -> & -> & ->); [lia..|].
  cbn [obind]. do 2 f_equal. f_equal. apply content_slice; [done..|]. lia.
Qed.

(** C26: reading an ext2 file refines reading its bytes: [e2_inode_io] with
    [EXT2_READ] at any offset returns the bytes of the file from there on, as
    many as were asked for or are left, in the caller's buffer, and changes
    neither the disk nor the inode; at or behind the end it returns 0.  The file
    has no holes and at most 12 + blocksize / 4 blocks ([file_ok]). *)
Theorem e2_read_content s p off size buf :
  vol_ok st s → file_ok st s p → 0 <= off → 0 < size → off + size < 4294967296 → size <= Z.of_nat (length buf) →
  let n := Z.min size (i_size p - off) in
  e2_inode_io st behind s p EXT2_READ off size buf true
  = if i_size p <=? off then Ret (s, p, 0, buf)
    else Ret (s, p, n, list_inserts 0 (slice (Z.to_nat off) (Z.to_nat n) (content s p)) buf).
Proof. apply e2_read_run. Qed.

(** The state before the transfer of a write: the file was made larger if
    necessary. *)
Definition opened (s s1 : e2fs) (p p1 : e2_inode_private) (size : Z) : Prop :=
  vol_ok st s1 ∧ file_ok st s1 p1 ∧ stored st s1 p1 ∧ i_size p1 = size ∧ i_ino p1 = i_ino p
  ∧ used s p `prefix_of` used s1 p1 ∧ (∀ b, b ∈ owned s1 p1 → b ∈ owned s p ∨ block_free s b = true)
  ∧ same_geo s s1 ∧ spares st s s1 (indirect p1).

Lemma write_open s p off n : vol_ok st s → file_ok st s p → stored st s p → 0 <= off → 0 < n → off + n < 4294967296 →
  (i_size p < off + n → room_for s p (off + n)) →
  ∃ s1 p1, (if i_size p <? u32 (off + n) then
              '(s, p, _) <~ e2_inode_resize st behind s p (u32 (off + n)) true ;; Ret (s, p)
            else Ret (s, p)) = Ret (s1, p1) ∧ opened s s1 p p1 (Z.max (i_size p) (off + n)).
Proof.
  intros Hv Hf Hst Ho Hn Hmax Hroom. rewrite u32_small by lia. case_if.
  - destruct (e2_inode_grow s p (off + n) Hv Hf) as (s1 & p1 & r & -> & [G1 G2 G3 G4 G5 G6 G7 G8 G9 _]); [lia|by apply Hroom|].
    eexists _, _. split; [done|]. rewrite Z.max_r by lia. by repeat (split; [done|]).
  - eexists _, _. split; [done|]. rewrite Z.max_l by lia. repeat (split; [done|]). split; [auto|done].
Qed.

(** Blocks of other files are not written. *)
Lemma opened_other s s1 s2 p p1 size off n buf l : vol_ok st s → opened s s1 p p1 size → moved EXT2_WRITE s1 s2 (used s1 p1) off 0 n buf buf →
  Forall (taken st s) l → (∀ b, b ∈ l → b ∉ owned s p) → data_of s2 l = data_of s l.
Proof.
  intros Hv (Hv1 & Hf1 & _ & _ & _ & _ & Hfr & sg & Hsp) Hm Hl Hno. unfold data_of. f_equal. apply Forall_fmap_ext_1. apply Forall_forall. intros b Hb.
  destruct (proj1 (Forall_forall _ _) Hl b Hb) as (Hb0 & Hd & Hu).
  assert (Hni : b ∉ owned s1 p1) by (intros Hin; destruct (Hfr b Hin) as [?|?]; [by apply (Hno b)|congruence]).
  rewrite (write_block_data s1 s2 (used s1 p1) off 0 n buf buf Hv1 (used_data s1 p1 Hf1) Hm b).
  - apply (spares_data st s s1 (indirect p1)); [done..|by eapply vol_addressable| |].
    + apply Forall_forall. intros c Hc. rewrite (geo_good s s1 sg). apply (proj1 (Forall_forall _ _) (owned_data s1 p1 Hf1)), elem_of_app. by left.
    + intros Hin. apply Hni, elem_of_app. by left.
  - rewrite <- (geo_good s s1 sg). apply Hd.
  - intros Hin. apply Hni, elem_of_app. by right.
Qed.

Lemma opened_data s s1 p p1 size : vol_ok st s → file_ok st s p → opened s s1 p p1 size → data_of s1 (used s p) = data_of s (used s p).
Proof.
  intros Hv Hf (Hv1 & Hf1 & _ & _ & _ & Hpre & _ & sg & Hsp). unfold data_of. f_equal. apply Forall_fmap_ext_1. apply Forall_forall. intros b Hb.
  apply (spares_data st s s1 (indirect p1)); [done..|by apply (proj1 (Forall_forall _ _) (used_data s p Hf))|by eapply vol_addressable| |].
  - apply Forall_forall. intros c Hc. rewrite (geo_good s s1 sg). apply (proj1 (Forall_forall _ _) (owned_data s1 p1 Hf1)), elem_of_app. by left.
  - intros Hin. destruct (f_owned _ _ _ Hf1) as [_ Hn]. apply NoDup_app in Hn as (_ & Hn & _). apply (Hn b Hin).
    destruct Hpre as [k ->]. apply elem_of_app. by left.
Qed.

(** C8: writing an ext2 file refines writing its bytes, and the result is on
    the disk.  On a consistent volume, for a file whose inode is stored and
    that has room to grow ([room_for]), [e2_inode_io] with [EXT2_WRITE] at an
    offset within the file or at its end returns the number of bytes, and the
    file then has these bytes there and its old ones elsewhere; the volume is
    consistent; reading the inode back from the disk gives a file with the
    same bytes; the blocks of all other files keep their bytes.  A file here
    ([file_ok]) has no holes and at most 12 + blocksize / 4 blocks, that is one
    level of indirection; [room_for] asks for free blocks and excludes an append
    at a block boundary for which the code faults
    ([e2_append_at_boundary_faults]). *)
Theorem e2_write_durable s p off buf :
  vol_ok st s → file_ok st s p → stored st s p → Forall byte_ok buf → buf ≠ [] → 0 <= off <= i_size p →
  off + Z.of_nat (length buf) < 4294967296 →
  (i_size p < off + Z.of_nat (length buf) → room_for s p (off + Z.of_nat (length buf))) →
  ∃ s' p', e2_inode_io st behind s p EXT2_WRITE off (Z.of_nat (length buf)) buf true = Ret (s', p', Z.of_nat (length buf), buf)
    ∧ vol_ok st s' ∧ file_ok st s' p' ∧ stored st s' p'
    ∧ content s' p' = splice (content s p) (Z.to_nat off) buf
    ∧ (∃ q, e2_read_inode st s' (i_ino p) true = Ret (Ok q) ∧ content s' q = content s' p')
    ∧ ∀ l, Forall (taken st s) l → (∀ b, b ∈ l → b ∉ owned s p) → data_of s' l = data_of s l.
Proof.
  intros Hv Hf Hst Hbuf Hne Hoff Hmax Hroom. assert (0 < length buf)%nat by (destruct buf; [done|simpl; lia]). unfold e2_inode_io.
  destruct (write_open s p off (Z.of_nat (length buf)) Hv Hf Hst) as (s1 & p1 & -> & Hop); [lia..|done|]. cbn [obind].
  pose proof Hop as (Hv1 & Hf1 & Hst1 & Hs1 & Hi1 & Hpre & Hfr & sg & Hsp). rewrite Nat2Z.id.
  destruct (transfer_used EXT2_WRITE s1 p1 off (length buf) buf Hv1 Hf1) as (s2 & buf2 & -> & Hm); [lia..|]. cbn [obind].
  assert (buf2 = buf) as -> by apply Hm.
  destruct (write_vol s1 s2 (used s1 p1) _ _ _ _ _ Hv1 (used_data s1 p1 Hf1) Hbuf Hm) as (Hv2 & Hfr2 & sg2 & _).
  assert (Hf2 : file_ok st s2 p1) by (by apply (file_ok_geo st s1)).
  assert (Hst2 : stored st s2 p1) by (apply (write_stored s1 s2 (used s1 p1) _ _ _ _ _ Hv1 (used_data s1 p1 Hf1) Hbuf Hm p1 Hf1 Hst1), indirect_not_used, Hf1).
  assert (Hu2 : used s2 p1 = used s1 p1) by (unfold used; by rewrite (geo_nblocks s1 s2 sg2)).
  eexists _, _. split; [done|]. do 3 (split; [done|]). split; [|split].
  - destruct (file_span s p Hv Hf) as (Hu & Hspan & _). destruct (file_span s1 p1 Hv1 Hf1) as (Hu1 & Hspan1 & _).
    unfold content. destruct Hm as (_ & _ & _ & Hd & _). rewrite Hu2, Hd, Hs1.
    replace (Z.to_nat (Z.max (i_size p) (off + Z.of_nat (length buf)))) with (Nat.max (Z.to_nat (i_size p)) (Z.to_nat off + length buf)) by lia.
    replace (slice 0 (length buf) buf) with buf by (unfold slice; by rewrite drop_0, take_ge by lia).
    rewrite <- (opened_data s s1 p p1 _ Hv Hf Hop). apply splice_inserts.
    + by apply data_of_prefix.
    + rewrite (opened_data s s1 p p1 _ Hv Hf Hop), data_of_length by done. done.
    + lia.
    + rewrite data_of_length by done. lia.
  - destruct (stored_persisted st s2 p1 Hv2 Hf2 Hst2) as (q & Hq & Hdata & Huq). rewrite Hi1 in Hq. exists q. split; [done|].
    unfold content, i_size. by rewrite Hdata, Huq.
  - intros l. by apply (opened_other s s1 s2 p p1 _ _ _ _ _ Hv Hop Hm).
Qed.
End Write.
