(* ===== verification/E2Dir.v ===== *)
(** Directories and inode allocation of the ext2 driver:
    [src/kernel/src/ext2fs/inode.c].

    A directory is a file whose blocks are sequences of records
    ([e2_dirent_t]); a name is the list of its characters, without the final
    zero.  Inodes that a call uses are values; the two inodes of [link] and
    [unlink] are the same object when their numbers are the same, and locking
    it twice hangs.  Loops over records take fuel; a record of length 0, which
    the code may loop on for ever, runs out of it.  Parameters: whether [i_get]
    can read an inode, the constants [DT_...] of the C library, the time. *)

From S2P Require Import Prelude Bytes E2Alloc E2Super E2Inode.

(** * Records *)

Definition ent_inode (buf : list Z) (o : nat) : Z := rd32 (drop o buf) 0.
Definition ent_rec_len (buf : list Z) (o : nat) : Z := rd16 buf (o + 4).
Definition ent_name_len (buf : list Z) (o : nat) : Z := buf !!! (o + 6)%nat.
Definition ent_name (buf : list Z) (o : nat) : list Z := slice (o + 8) (Z.to_nat (ent_name_len buf o)) buf.

Definition set_ent_inode (buf : list Z) (o : nat) (ino : Z) : list Z := list_inserts o (le32 ino) buf.
Definition set_ent_rec_len (buf : list Z) (o : nat) (n : Z) : list Z := list_inserts (o + 4) (le16 n) buf.

(** [strlen(name) == name_len && strncmp(name, iter->name, name_len) == 0] *)
Definition name_matches (buf : list Z) (o : nat) (name : list Z) : bool :=
  (Z.of_nat (length name) =? ent_name_len buf o) && bool_decide (ent_name buf o = name).

Definition EXT2_S_IFDIR : Z := 16384.

Section Dir.
Context (st : e2_static) (behind : nat → Z).
Context (iget : Z → bool).           (* i_get reads this inode *)
Context (dirent_type : Z → Z).       (* the DT_ constant of a file type *)
Context (now : Z).                   (* rtc_read() *)

(** * Looking a name up *)

(** The loop over the records of one block. *)
Fixpoint find_name (fuel : nat) (buf : list Z) (o : nat) (name : list Z) : outcome (option Z) :=
  match fuel with
  | O => OutOfFuel
  | S fuel =>
      if decide (length buf <= o)%nat then Ret None
      else if negb (ent_inode buf o =? 0) && name_matches buf o name then Ret (Some (ent_inode buf o))
      else if ent_rec_len buf o =? 0 then Ret None
      else find_name fuel buf (o + Z.to_nat (ent_rec_len buf o)) name
  end.

(** [n] blocks from block [i] on, through the buffer [rw]. *)
Fixpoint lookup_blocks (s : e2fs) (p : e2_inode_private) (name rw : list Z) (i n : nat) : outcome (option Z) :=
  match n with
  | O => Ret None
  | S n =>
      '(_, _, _, rw) <~ e2_inode_io st behind s p EXT2_READ (Z.of_nat i * s_blocksize s) (s_blocksize s) rw true ;;
      r <~ find_name (S (length rw)) rw 0 name ;;
      match r with
      | Some ino => Ret (Some ino)
      | None => lookup_blocks s p name rw (S i) n
      end
  end.

Definition e2_inode_lookup (s : e2fs) (p : e2_inode_private) (name rw : list Z) : outcome (result Z) :=
  _ <~ spin_lock (ilock p) ;;
  r <~ lookup_blocks s p name rw 0 (nblocks s p) ;;
  match r with
  | None => Ret (Err ENOENT)
  | Some ino => if iget ino then Ret (Ok ino) else Ret (Err EIO)
  end.

(** * Adding a name *)

(** The first unused record that is long enough. *)
Fixpoint find_free (fuel : nat) (buf : list Z) (o : nat) (len : Z) : outcome (option nat) :=
  match fuel with
  | O => OutOfFuel
  | S fuel =>
      if decide (length buf <= o)%nat then Ret None
      else if (ent_inode buf o =? 0) && (len <=? u32 (ent_rec_len buf o - 8)) then Ret (Some o)
      else find_free fuel buf (o + Z.to_nat (ent_rec_len buf o)) len
  end.

(** The block, its contents and the place in it. *)
Fixpoint find_free_block (s : e2fs) (len : Z) (blocks : list Z) : outcome (option (Z * list Z * nat)) :=
  match blocks with
  | [] => Ret None
  | b :: blocks =>
      rw <~ e2_read_block s b ;;
      r <~ find_free (S (length rw)) rw 0 len ;;
      match r with
      | Some o => Ret (Some (b, rw, o))
      | None => find_free_block s len blocks
      end
  end.

(** The length of a record for a name, rounded up to four bytes. *)
Definition needed_size (len : Z) : Z :=
  let n := 8 + len in if n mod 4 =? 0 then n else Z.land n (Z.lnot 3) + 4.

(** The record at [o], split in two when more than 8 bytes are left; the
    second one is unused. *)
Definition split_entry (buf : list Z) (o : nat) (len : Z) : list Z :=
  let need := needed_size len in
  let rec := ent_rec_len buf o in
  if 8 <? u32 (rec - need) then
    let o2 := (o + Z.to_nat need)%nat in
    let buf := set_ent_rec_len buf o2 (u16 (rec - need)) in
    let buf := set_ent_inode buf o2 0 in
    set_ent_rec_len buf o (u16 need)
  else buf.

(** [strcpy] also stores the zero behind the name. *)
Definition fill_entry (buf : list Z) (o : nat) (ino : Z) (name : list Z) (mode : Z) : list Z :=
  let buf := set_ent_inode buf o ino in
  let buf := list_inserts (o + 6) [u8 (Z.of_nat (length name)); dirent_type (file_type mode)] buf in
  list_inserts (o + 8) (name ++ [0]) buf.

(** A place for a name of [len] characters: the parent, the block, its
    contents and the position. *)
Definition e2_link_place (s : e2fs) (parent : e2_inode_private) (len : Z) (memory : bool) :
    outcome (e2fs * e2_inode_private * result (Z * list Z * nat)) :=
  let n := nblocks s parent in
  blocks <~ or_halt (if decide (n <= length (block parent))%nat then Some (take n (block parent)) else None) ;;
  r <~ find_free_block s len blocks ;;
  match r with
  | Some x => Ret (s, parent, Ok x)
  | None =>
      '(s, parent, r) <~ e2_inode_resize st behind s parent (u32 (i_size parent + s_blocksize s)) memory ;;
      match r with
      | Err _ => Ret (s, parent, Err ENOSPC)
      | Ok _ =>
          let rw := set_ent_rec_len (replicate (block_len s) 0) 0 (u16 (s_blocksize s)) in
          b <~ or_halt (block parent !! n) ;;
          '(s, parent) <~ e2_inode_flush st behind s parent memory ;;
          Ret (s, parent, Ok (b, rw, 0%nat))
      end
  end.

Definition e2_inode_link (s : e2fs) (parent : e2_inode_private) (name : list Z) (inode : e2_inode_private) (memory : bool) :
    outcome (e2fs * e2_inode_private * e2_inode_private * result unit) :=
  if negb (file_type (i_mode parent) =? EXT2_S_IFDIR) then Ret (s, parent, inode, Err ENOTDIR)
  else
    lp <~ spin_lock (ilock parent) ;;
    let parent := with_ilock parent lp in
    li <~ (if i_ino parent =? i_ino inode then Halt else spin_lock (ilock inode)) ;;
    let inode := with_ilock inode li in
    '(s, parent, r) <~ e2_link_place s parent (Z.of_nat (length name)) memory ;;
    match r with
    | Err e => Ret (s, with_ilock parent (spin_unlock lp), with_ilock inode (spin_unlock li), Err e)
    | Ok (b, rw, o) =>
        let rw := split_entry rw o (Z.of_nat (length name)) in
        let rw := fill_entry rw o (i_ino inode) name (i_mode inode) in
        let inode := with_idirty (set_links inode (u16 (i_links_count inode + 1))) true in
        s <~ e2_write_block s b rw ;;
        let inode := with_ilock inode (spin_unlock li) in
        let parent := with_ilock parent (spin_unlock lp) in
        '(s, inode) <~ e2_inode_flush st behind s inode memory ;;
        '(s, parent) <~ e2_inode_flush st behind s parent memory ;;
        Ret (s, parent, inode, Ok tt)
    end.

(** * Removing a name *)

(** Records that are unused or whose name has another length are skipped
    without looking at the length of the record. *)
Fixpoint find_linked (fuel : nat) (buf : list Z) (o : nat) (name : list Z) : outcome (option nat) :=
  match fuel with
  | O => OutOfFuel
  | S fuel =>
      if decide (length buf <= o)%nat then Ret None
      else
        let next := (o + Z.to_nat (ent_rec_len buf o))%nat in
        if ent_inode buf o =? 0 then find_linked fuel buf next name
        else if negb (Z.of_nat (length name) =? ent_name_len buf o) then find_linked fuel buf next name
        else if name_matches buf o name then Ret (Some o)
        else if ent_rec_len buf o =? 0 then Ret None
        else find_linked fuel buf next name
  end.

Fixpoint find_linked_block (s : e2fs) (name : list Z) (blocks : list Z) : outcome (option (Z * list Z * nat)) :=
  match blocks with
  | [] => Ret None
  | b :: blocks =>
      rw <~ e2_read_block s b ;;
      r <~ find_linked (S (length rw)) rw 0 name ;;
      match r with
      | Some o => Ret (Some (b, rw, o))
      | None => find_linked_block s name blocks
      end
  end.

(** [child] is the inode of the entry. *)
Definition e2_inode_unlink (s : e2fs) (parent : e2_inode_private) (name : list Z) (child : e2_inode_private) (memory : bool) :
    outcome (e2fs * e2_inode_private * e2_inode_private * result unit) :=
  lp <~ spin_lock (ilock parent) ;;
  let parent := with_ilock parent lp in
  let n := nblocks s parent in
  blocks <~ or_halt (if decide (n <= length (block parent))%nat then Some (take n (block parent)) else None) ;;
  r <~ find_linked_block s name blocks ;;
  match r with
  | None => Ret (s, with_ilock parent (spin_unlock lp), child, Err ENOENT)
  | Some (b, rw, o) =>
      s <~ e2_write_block s b (set_ent_inode rw o 0) ;;
      lc <~ (if i_ino parent =? i_ino child then Halt else spin_lock (ilock child)) ;;
      let child := with_idirty (set_links child (u16 (i_links_count child - 1))) true in
      let child := with_ilock child (spin_unlock lc) in
      '(s, child) <~ e2_inode_flush st behind s child memory ;;
      let parent := with_ilock parent (spin_unlock lp) in
      '(s, parent) <~ e2_inode_flush st behind s parent memory ;;
      Ret (s, parent, child, Ok tt)
  end.

(** * Allocating and freeing inodes *)

Definition set_free_inodes (n : Z) (g : e2_bg_descr) : e2_bg_descr :=
  mk_bg (bg_block_bitmap g) (bg_inode_bitmap g) (bg_inode_table g) (bg_free_blocks_count g) n.

Definition account_inodes (s : e2fs) (bg d : Z) : e2fs :=
  mk_e2fs (s_blocks_count s) (s_free_blocks_count s) (u32 (s_free_inodes_count s + d)) (s_blocks_per_group s)
    (s_inodes_per_group s) (s_blocksize s)
    (alter (λ g, set_free_inodes (u16 (bg_free_inodes_count g + d)) g) (Z.to_nat bg) (bgtable s))
    true (rw_lock s) (dev s).

(** The first group with a free inode. *)
Fixpoint find_group (l : list e2_bg_descr) (bg : Z) : option (Z * e2_bg_descr) :=
  match l with
  | [] => None
  | g :: l => if bg_free_inodes_count g =? 0 then find_group l (bg + 1) else Some (bg, g)
  end.

(** The lowest clear bit of a byte, from bit [b] on. *)
Fixpoint low_clear (x : Z) (n : nat) (b : Z) : option Z :=
  match n with
  | O => None
  | S n => if Z.land x (Z.shiftl 1 b) =? 0 then Some b else low_clear x n (b + 1)
  end.

Fixpoint scan_bytes (bytes : list Z) (idx : Z) : option (Z * Z) :=
  match bytes with
  | [] => None
  | x :: bytes =>
      if x =? 255 then scan_bytes bytes (idx + 1)
      else match low_clear x 8 0 with Some b => Some (idx, b) | None => scan_bytes bytes (idx + 1) end
  end.

(** [i_ctime], [i_atime], [i_mtime], [i_crtime] and [i_extra_isize]. *)
Definition stamp (data : list Z) : list Z :=
  let d := wr32 (wr32 (wr32 (wr32 data 3 now) 2 now) 4 now) 36 now in wr16 d 128 28.

Definition INODE_SIZE : Z := 156.     (* sizeof(e2_inode_t) *)

(** The number of the new inode, or [EXT2_BAD_INO]; [data] is the inode
    structure of the caller. *)
Definition e2_alloc_inode (s : e2fs) (data : list Z) (memory : bool) : outcome (e2fs * Z) :=
  if s_free_inodes_count s =? 0 then Ret (s, EXT2_BAD_INO)
  else
    let bitmap_size := s_inodes_per_group s / 8 + (if s_inodes_per_group s mod 8 =? 0 then 0 else 1) in
    l <~ spin_lock (rw_lock s) ;;
    let s := with_lock s l in
    match find_group (take (Z.to_nat (EXT2_BGCOUNT s)) (bgtable s)) 0 with
    | None => Ret (with_lock s (spin_unlock (rw_lock s)), EXT2_BAD_INO)
    | Some (bg, g) =>
        if negb memory then Ret (with_lock s (spin_unlock (rw_lock s)), EXT2_BAD_INO)
        else
          bitmap <~ e2_read_block s (bg_inode_bitmap g) ;;
          match scan_bytes (take (Z.to_nat bitmap_size) bitmap) 0 with
          | None => Ret (with_lock s (spin_unlock (rw_lock s)), EXT2_BAD_INO)
          | Some (idx, bit) =>
              let ino := u32 (bg * s_inodes_per_group s + idx * 8 + bit + 1) in
              let bitmap := <[Z.to_nat idx := u8 (Z.lor (bitmap !!! Z.to_nat idx) (Z.shiftl 1 bit))]> bitmap in
              s <~ e2_write_block s (bg_inode_bitmap g) bitmap ;;
              let s := account_inodes s bg (-1) in
              s <~ dev_write s (u32 (bg_inode_table g * s_blocksize s + s_inode_size st * (idx * 8 + bit))) (stamp data) ;;
              s <~ e2_super_flush st (with_lock s (spin_unlock (rw_lock s))) ;;
              Ret (s, ino)
          end
    end.

(** The bitmap is read and written as whole words; the inode's blocks are
    given back first. *)
Definition e2_free_inode (s : e2fs) (p : e2_inode_private) (memory : bool) : outcome (e2fs * e2_inode_private * result unit) :=
  let bg := (i_ino p - 1) / s_inodes_per_group s in
  let local := (i_ino p - 1) mod s_inodes_per_group s in
  if negb memory then Ret (s, p, Err ENOMEM)
  else
    '(s, p, r) <~ e2_inode_resize st behind s p 0 memory ;;
    match r with
    | Err e => Ret (s, p, Err e)
    | Ok _ =>
        l <~ spin_lock (rw_lock s) ;;
        let s := with_lock s l in
        g <~ or_halt (bgtable s !! Z.to_nat bg) ;;
        let pos := u32 (bg_inode_bitmap g * s_blocksize s) in
        bitmap <~ dev_read s pos (s_inodes_per_group s / 8) ;;
        s <~ dev_write s pos (clear_bit bitmap local) ;;
        let s := account_inodes s bg 1 in
        s <~ e2_super_flush st (with_lock s (spin_unlock (rw_lock s))) ;;
        Ret (s, p, Ok tt)
    end.

(** Releasing an inode: given back to the volume when it has no name left. *)
Definition e2_put_inode (s : e2fs) (p : e2_inode_private) (memory : bool) : outcome e2fs :=
  if i_links_count p =? 0 then '(s, _, _) <~ e2_free_inode s p memory ;; Ret s
  else '(s, _) <~ e2_inode_flush st behind s p memory ;; Ret s.

(** The inode structure of a new file. *)
Definition new_inode (mode uid gid dev : Z) : list Z :=
  let d := replicate (Z.to_nat INODE_SIZE) 0 in
  let d := wr16 (wr16 (wr16 d 0 mode) 2 uid) 24 gid in
  if bool_decide (file_type mode ∈ [EXT2_S_IFBLK; EXT2_S_IFCHR]) then wr32 d 10 dev else d.

(** The new inode is read with [i_get], linked, written and released with
    [i_put]; nobody else uses it. *)
Definition e2_inode_mknod (s : e2fs) (parent : e2_inode_private) (name : list Z) (mode uid gid dev : Z) (memory : bool) :
    outcome (e2fs * e2_inode_private * result unit) :=
  '(s, ino) <~ e2_alloc_inode s (new_inode (u16 mode) (u16 uid) (u16 gid) dev) memory ;;
  if ino =? EXT2_BAD_INO then Ret (s, parent, Err ENOSPC)
  else
    r <~ e2_read_inode st s ino memory ;;
    match r with
    | Err _ => Halt
    | Ok inode =>
        '(s, parent, inode, r) <~ e2_inode_link s parent name inode memory ;;
        match r with
        | Err e => '(s, _, _) <~ e2_free_inode s inode memory ;; Ret (s, parent, Err e)
        | Ok _ =>
            '(s, parent) <~ e2_inode_flush st behind s parent memory ;;
            '(s, inode) <~ e2_inode_flush st behind s inode memory ;;
            s <~ e2_put_inode s inode memory ;;
            Ret (s, parent, Ok tt)
        end
    end.
End Dir.
