(* ===== verification/E2DirSpec.v ===== *)
(** Directory blocks as lists of records, and the loops of the ext2 driver
    over them. *)

From S2P Require Import Prelude Bytes E2Alloc E2Super E2Inode E2Flush E2Dir.

(** A record: the inode, and the bytes behind the length of the record (the
    length of the name, the type, the name and what is left). *)
Record dent := mk_dent { de_inode : Z; de_body : list Z }.

Definition de_rec (e : dent) : nat := (6 + length (de_body e))%nat.
Definition de_name (e : dent) : list Z := take (Z.to_nat (de_body e !!! 0%nat)) (drop 2 (de_body e)).
Definition dent_bytes (e : dent) : list Z := le32 (de_inode e) ++ le16 (Z.of_nat (de_rec e)) ++ de_body e.
Definition dir_bytes (es : list dent) : list Z := concat (dent_bytes <$> es).

(** The name of a record in use lies within the record. *)
Record dent_ok (e : dent) : Prop := {
  d_inode : 0 <= de_inode e < 4294967296;
  d_len : (2 <= length (de_body e))%nat ∧ Z.of_nat (de_rec e) < 65536;
  d_bytes : Forall byte_ok (de_body e);
  d_align : Z.of_nat (de_rec e) mod 4 = 0;
  d_name : de_inode e ≠ 0 → (2 + Z.to_nat (de_body e !!! 0%nat) <= length (de_body e))%nat;
}.

(** The record of a name. *)
Definition is_entry (name : list Z) (e : dent) : bool := negb (de_inode e =? 0) && bool_decide (de_name e = name).

Fixpoint dir_find (es : list dent) (name : list Z) : option Z :=
  match es with
  | [] => None
  | e :: es => if is_entry name e then Some (de_inode e) else dir_find es name
  end.

Lemma dent_bytes_length e : length (dent_bytes e) = de_rec e.
Proof. unfold dent_bytes, de_rec. rewrite !length_app. cbn [length le32 le16]. lia. Qed.

Lemma dir_bytes_app es es' : dir_bytes (es ++ es') = dir_bytes es ++ dir_bytes es'.
Proof. unfold dir_bytes. by rewrite fmap_app, concat_app. Qed.

Lemma dir_bytes_cons e es : dir_bytes (e :: es) = dent_bytes e ++ dir_bytes es.
Proof. done. Qed.

Lemma dent_rec_min e : dent_ok e → (8 <= de_rec e)%nat.
Proof. intros [_ [H _] _ _ _]. unfold de_rec. lia. Qed.

Lemma dir_bytes_min es : Forall dent_ok es → (8 * length es <= length (dir_bytes es))%nat.
Proof.
  induction 1 as [|e es He Hes IH]; [done|]. rewrite dir_bytes_cons, length_app, dent_bytes_length. pose proof (dent_rec_min e He).
  cbn [length]. lia.
Qed.

Lemma rd16_le16 w : 0 <= w < 65536 → rd16 (le16 w) 0 = w.
Proof. intros H. unfold rd16, le16. cbn. Z.to_euclidean_division_equations; lia. Qed.

(** * Fields of a record in a block *)

Section At.
Context (pre : list dent) (e : dent) (post : list dent).
Context (He : dent_ok e).
Local Notation buf := (dir_bytes (pre ++ e :: post)).
Local Notation o := (length (dir_bytes pre)).

Lemma buf_lookup i : (i < de_rec e)%nat → buf !! (o + i)%nat = dent_bytes e !! i.
Proof.
  intros Hi. rewrite dir_bytes_app, dir_bytes_cons, lookup_app_r, lookup_app_l by (rewrite ?dent_bytes_length; lia). f_equal. lia.
Qed.

Lemma body_lookup i : (i < length (de_body e))%nat → buf !! (o + 6 + i)%nat = de_body e !! i.
Proof.
  intros Hi. rewrite <- Nat.add_assoc, buf_lookup by (unfold de_rec; lia). unfold dent_bytes.
  rewrite lookup_app_r, lookup_app_r by (cbn [length le32 le16]; lia). f_equal. cbn [length le32 le16]. lia.
Qed.

Lemma ent_inode_at : ent_inode buf o = de_inode e.
Proof.
  unfold ent_inode. rewrite <- (u32_small (de_inode e)), <- rd32_le32 by apply He. apply rd32_lookup. intros k Hk.
  change (Z.to_nat (4 * 0)) with 0%nat. rewrite lookup_drop, buf_lookup by (unfold de_rec; lia). unfold dent_bytes.
  by rewrite lookup_app_l by (cbn [length le32]; lia).
Qed.

Lemma ent_rec_len_at : ent_rec_len buf o = Z.of_nat (de_rec e).
Proof.
  unfold ent_rec_len. destruct (d_len e He) as [_ Hr]. pose proof (dent_rec_min e He).
  rewrite (rd16_lookup _ (le16 (Z.of_nat (de_rec e))) _ 0).
  - apply rd16_le16. lia.
  - intros k Hk. rewrite <- Nat.add_assoc, buf_lookup by (unfold de_rec; lia). unfold dent_bytes.
    rewrite lookup_app_r, lookup_app_l by (cbn [length le32 le16]; lia). f_equal. cbn [length le32]. lia.
Qed.

Lemma ent_name_len_at : ent_name_len buf o = de_body e !!! 0%nat.
Proof.
  unfold ent_name_len. rewrite !list_lookup_total_alt. destruct (d_len e He). rewrite <- (body_lookup 0) by lia. f_equal. f_equal. lia.
Qed.

Lemma ent_name_at : de_inode e ≠ 0 → ent_name buf o = de_name e.
Proof.
  intros Hne. pose proof (d_name e He Hne). unfold ent_name, de_name. rewrite ent_name_len_at. apply list_eq. intros i. rewrite slice_lookup.
  case_decide as Hi.
  - rewrite lookup_take_lt, lookup_drop by done. rewrite <- body_lookup by lia. f_equal. lia.
  - by rewrite lookup_take_ge by lia.
Qed.

Lemma de_name_length : de_inode e ≠ 0 → Z.of_nat (length (de_name e)) = de_body e !!! 0%nat.
Proof.
  intros Hne. pose proof (d_name e He Hne). unfold de_name. rewrite length_take, length_drop.
  assert (0 <= de_body e !!! 0%nat); [|lia]. rewrite list_lookup_total_alt. destruct (de_body e !! 0%nat) as [x|] eqn:E; [|done].
  apply (Forall_lookup_1 _ _ _ _ (d_bytes e He) E).
Qed.

Lemma name_matches_at name : de_inode e ≠ 0 → name_matches buf o name = bool_decide (de_name e = name).
Proof.
  intros Hne. unfold name_matches. rewrite ent_name_len_at, ent_name_at by done. rewrite <- de_name_length by done.
  destruct (decide (de_name e = name)) as [->|Hn]; [by rewrite Z.eqb_refl|]. rewrite (bool_decide_eq_false_2 _ Hn). apply andb_false_r.
Qed.

Lemma next_at : (o + Z.to_nat (ent_rec_len buf o))%nat = length (dir_bytes (pre ++ [e])).
Proof. rewrite ent_rec_len_at, dir_bytes_app, length_app, dir_bytes_cons, length_app, dent_bytes_length. change (dir_bytes []) with (@nil Z). cbn [length]. lia. Qed.

Lemma before_end : ¬ (length buf <= o)%nat.
Proof. rewrite dir_bytes_app, dir_bytes_cons, !length_app, dent_bytes_length. pose proof (dent_rec_min e He). lia. Qed.
End At.

(** * The loops over the records of a block *)

Lemma split_next (pre : list dent) e post : pre ++ e :: post = (pre ++ [e]) ++ post.
Proof. by rewrite <- app_assoc. Qed.

Lemma find_name_spec fuel pre es name : Forall dent_ok (pre ++ es) → (length es < fuel)%nat →
  find_name fuel (dir_bytes (pre ++ es)) (length (dir_bytes pre)) name = Ret (dir_find es name).
Proof.
  revert fuel pre. induction es as [|e es IH]; intros [|fuel] pre Hok Hf; cbn [find_name length] in *; try lia.
  { rewrite app_nil_r, decide_True by done. done. }
  assert (He : dent_ok e) by (apply Forall_app in Hok as [_ H]; by apply Forall_cons in H as [? _]).
  rewrite decide_False by (by apply before_end). rewrite ent_inode_at by done. cbn [dir_find]. unfold is_entry.
  destruct (Z.eqb_spec (de_inode e) 0) as [E0|E0]; cbn [negb andb].
  - rewrite ent_rec_len_at by done. pose proof (dent_rec_min e He). rewrite (proj2 (Z.eqb_neq _ _)) by lia.
    rewrite <- (ent_rec_len_at pre e es He), (next_at pre e es He). rewrite split_next in *. apply IH; [done|lia].
  - rewrite name_matches_at by done. case_bool_decide; [done|].
    rewrite ent_rec_len_at by done. pose proof (dent_rec_min e He). rewrite (proj2 (Z.eqb_neq _ _)) by lia.
    rewrite <- (ent_rec_len_at pre e es He), (next_at pre e es He). rewrite split_next in *. apply IH; [done|lia].
Qed.

(** The first record that satisfies [f], with its place. *)
Definition first_such (f : dent → bool) (pre es : list dent) (r : option nat) : Prop :=
  match r with
  | None => Forall (λ e, f e = false) es
  | Some o => ∃ a e b, es = a ++ e :: b ∧ f e = true ∧ Forall (λ e, f e = false) a ∧ o = length (dir_bytes (pre ++ a))
  end.

Lemma first_such_skip f pre e es r : f e = false → first_such f (pre ++ [e]) es r → first_such f pre (e :: es) r.
Proof.
  intros Hf. destruct r as [o|]; cbn [first_such]; [|by constructor].
  intros (a & x & b & -> & Hx & Ha & ->). exists (e :: a), x, b. split; [done|]. split; [done|]. split; [by constructor|].
  by rewrite <- app_assoc.
Qed.

Lemma first_such_here f pre e es : f e = true → first_such f pre (e :: es) (Some (length (dir_bytes pre))).
Proof. intros Hf. exists [], e, es. by rewrite app_nil_r. Qed.

Lemma find_linked_spec fuel pre es name : Forall dent_ok (pre ++ es) → (length es < fuel)%nat →
  ∃ r, find_linked fuel (dir_bytes (pre ++ es)) (length (dir_bytes pre)) name = Ret r ∧ first_such (is_entry name) pre es r.
Proof.
  revert fuel pre. induction es as [|e es IH]; intros [|fuel] pre Hok Hf; cbn [find_linked length] in *; try lia.
  { rewrite app_nil_r, decide_True by done. exists None. split; [done|]. constructor. }
  assert (He : dent_ok e) by (apply Forall_app in Hok as [_ H]; by apply Forall_cons in H as [? _]).
  rewrite decide_False by (by apply before_end). rewrite next_at, ent_inode_at, ent_name_len_at by done.
  destruct (IH fuel (pre ++ [e])) as (r & Hr & Hfirst); [by rewrite <- split_next|lia|]. rewrite <- split_next in Hr. rewrite Hr.
  destruct (Z.eqb_spec (de_inode e) 0) as [E0|E0].
  { exists r. split; [done|]. apply first_such_skip; [|done]. unfold is_entry. by rewrite E0. }
  rewrite name_matches_at by done. destruct (decide (de_name e = name)) as [En|En].
  - rewrite <- En, (de_name_length e He E0), Z.eqb_refl. cbn [negb]. rewrite bool_decide_eq_true_2 by done.
    eexists. split; [done|]. apply first_such_here. unfold is_entry. rewrite (proj2 (Z.eqb_neq _ _) E0), bool_decide_eq_true_2; done.
  - assert (is_entry name e = false) as Hne by (unfold is_entry; rewrite (bool_decide_eq_false_2 _ En); apply andb_false_r).
    rewrite (bool_decide_eq_false_2 _ En), ent_rec_len_at by done. pose proof (dent_rec_min e He). rewrite (proj2 (Z.eqb_neq (Z.of_nat _) 0)) by lia.
    exists r. split; [by case_if|]. by apply first_such_skip.
Qed.

(** An unused record with room for [len] characters. *)
Definition is_free (len : Z) (e : dent) : bool := (de_inode e =? 0) && (len <=? Z.of_nat (de_rec e) - 8).

Lemma find_free_spec fuel pre es len : Forall dent_ok (pre ++ es) → (length es < fuel)%nat →
  ∃ r, find_free fuel (dir_bytes (pre ++ es)) (length (dir_bytes pre)) len = Ret r ∧ first_such (is_free len) pre es r.
Proof.
  revert fuel pre. induction es as [|e es IH]; intros [|fuel] pre Hok Hf; cbn [find_free length] in *; try lia.
  { rewrite app_nil_r, decide_True by done. exists None. split; [done|]. constructor. }
  assert (He : dent_ok e) by (apply Forall_app in Hok as [_ H]; by apply Forall_cons in H as [? _]).
  rewrite decide_False by (by apply before_end). rewrite next_at, ent_inode_at, ent_rec_len_at by done.
  pose proof (dent_rec_min e He). destruct (d_len e He) as [_ Hmax]. rewrite u32_small by lia. fold (is_free len e).
  destruct (IH fuel (pre ++ [e])) as (r & Hr & Hfirst); [by rewrite <- split_next|lia|]. rewrite <- split_next in Hr. rewrite Hr.
  destruct (is_free len e) eqn:E.
  - eexists. split; [done|]. by apply first_such_here.
  - exists r. split; [done|]. by apply first_such_skip.
Qed.

(** * Removing a record *)

Lemma clear_entry a e b : set_ent_inode (dir_bytes (a ++ e :: b)) (length (dir_bytes a)) 0 = dir_bytes (a ++ mk_dent 0 (de_body e) :: b).
Proof.
  unfold set_ent_inode. rewrite !dir_bytes_app, !dir_bytes_cons. rewrite <- (Nat.add_0_r (length _)), list_inserts_app_r. done.
Qed.

Lemma clear_entry_ok e : dent_ok e → dent_ok (mk_dent 0 (de_body e)).
Proof. intros [H1 H2 H3 H4 H5]. constructor; (done || lia). Qed.

Lemma dir_find_app es es' name : dir_find (es ++ es') name = match dir_find es name with Some i => Some i | None => dir_find es' name end.
Proof. induction es as [|e es IH]; [done|]. cbn [dir_find app]. by case_if. Qed.

Lemma dir_find_none es name : Forall (λ e, is_entry name e = false) es → dir_find es name = None.
Proof. induction 1 as [|e es He _ IH]; [done|]. cbn [dir_find]. by rewrite He. Qed.

(** Unused records do not count. *)
Lemma dir_find_unused e es name : de_inode e = 0 → dir_find (e :: es) name = dir_find es name.
Proof. intros H. cbn [dir_find]. unfold is_entry. by rewrite H. Qed.

(** * Adding a record *)

Lemma needed_size_spec len : 0 <= len → 8 + len <= needed_size len <= 8 + len + 3 ∧ needed_size len mod 4 = 0.
Proof.
  intros H. unfold needed_size. case_if; [split; [lia|done]|]. rewrite <- Z.ldiff_land. change 3 with (Z.ones 2).
  rewrite Z.ldiff_ones_r, Z.shiftl_mul_pow2, Z.shiftr_div_pow2 by lia. change (2 ^ 2) with 4. change (Z.ones 2) with 3.
  pose proof (Z.div_mod (8 + len) 4 ltac:(lia)). pose proof (Z.mod_pos_bound (8 + len) 4 ltac:(lia)).
  split; [lia|]. replace ((8 + len) / 4 * 4 + 4) with (((8 + len) / 4 + 1) * 4) by lia. apply Z.mod_mul. lia.
Qed.

(** Storing within the middle of three pieces. *)
Lemma inserts_middle {A} (P R Q k : list A) i : (i + length k <= length R)%nat →
  list_inserts (length P + i) k (P ++ R ++ Q) = P ++ list_inserts i k R ++ Q.
Proof.
  intros H. rewrite list_inserts_app_r. f_equal. apply list_eq. intros j. rewrite inserts_lookup.
  destruct (decide (j < length R)%nat) as [Hj|Hj].
  - rewrite (lookup_app_l (list_inserts i k R)), inserts_lookup, lookup_app_l by (rewrite ?length_inserts; lia).
    rewrite length_app. repeat case_decide; (done || lia).
  - rewrite decide_False by lia. rewrite !lookup_app_r by (rewrite ?length_inserts; lia). by rewrite length_inserts.
Qed.

Lemma inserts_snoc_same {A} (p : nat) (k l : list A) x : l !! (p + length k)%nat = Some x → list_inserts p (k ++ [x]) l = list_inserts p k l.
Proof.
  intros H. apply list_eq. intros i. rewrite !inserts_lookup, length_app. cbn [length]. pose proof (lookup_lt_Some _ _ _ H).
  destruct (decide (i = p + length k)%nat) as [->|Hne].
  - rewrite decide_True, decide_False by lia. rewrite H, lookup_app_r by lia. by replace (p + length k - p - length k)%nat with 0%nat by lia.
  - repeat case_decide; try lia; [|done]. by rewrite lookup_app_l by lia.
Qed.

(** Bytes that begin with an inode and their own number are a record. *)
Lemma record_of R ino : (6 <= length R)%nat → slice 0 4 R = le32 ino → slice 4 2 R = le16 (Z.of_nat (length R)) →
  R = dent_bytes (mk_dent ino (drop 6 R)).
Proof.
  intros Hl H0 H4. unfold dent_bytes, de_rec. cbn [de_inode de_body]. rewrite length_drop.
  replace (6 + (length R - 6))%nat with (length R) by lia. rewrite <- H0, <- H4. unfold slice. rewrite drop_0.
  rewrite <- (take_drop 4 R) at 1. f_equal. rewrite <- (take_drop 2 (drop 4 R)) at 1. by rewrite drop_drop.
Qed.

Section Link.
Context (dirent_type : Z → Z) (ino mode : Z) (name : list Z).
Local Notation len := (Z.of_nat (length name)).

(** The writes of [split_entry] and [fill_entry] stay within the record when
    the final zero has a place. *)
Lemma link_local P R Q : let n := ent_rec_len (P ++ R ++ Q) (length P) in
  n = Z.of_nat (length R) → n < 65536 → needed_size len <= n → 8 + len < n →
  fill_entry dirent_type (split_entry (P ++ R ++ Q) (length P) len) (length P) ino name mode
  = P ++ fill_entry dirent_type (split_entry R 0 len) 0 ino name mode ++ Q.
Proof.
  intros n Hn Hmax Hneed Hfit. destruct (needed_size_spec len ltac:(lia)) as [Hns _].
  assert (Hrec : ent_rec_len R 0 = n).
  { unfold n, ent_rec_len. apply rd16_lookup. intros k Hk. rewrite lookup_app_r, lookup_app_l by lia. f_equal. lia. }
  assert (Hsplit : split_entry (P ++ R ++ Q) (length P) len = P ++ split_entry R 0 len ++ Q ∧ length (split_entry R 0 len) = length R).
  { unfold split_entry. fold n. rewrite Hrec. rewrite u32_small by lia. case_if; [|done].
    unfold set_ent_rec_len, set_ent_inode. rewrite !length_inserts. split; [|done]. rewrite !Nat.add_0_l.
    rewrite <- !Nat.add_assoc, !inserts_middle by (rewrite ?length_inserts; cbn [length le16 le32]; lia). done. }
  destruct Hsplit as [-> Hlen]. unfold fill_entry, set_ent_inode. rewrite !Nat.add_0_l.
  pose proof (inserts_middle P (split_entry R 0 len) Q (le32 ino) 0) as E. rewrite Nat.add_0_r in E. rewrite E by (cbn [length le32]; lia).
  rewrite !inserts_middle by (rewrite ?length_inserts, ?length_app, ?Hlen; cbn [length le32]; lia). done.
Qed.

(** The bytes of the record afterwards: one record in use, then possibly an
    unused one. *)
Definition fill_body (X : list Z) : list Z :=
  list_inserts 8 (name ++ [0]) (list_inserts 6 [u8 len; dirent_type (file_type mode)] (list_inserts 0 (le32 ino) X)).

Lemma slice_take_le {A} (i k n : nat) (l : list A) : (i + k <= n)%nat → slice i k (take n l) = slice i k l.
Proof. intros H. apply list_eq. intros j. rewrite !slice_lookup. case_decide; [|done]. by rewrite lookup_take_lt by lia. Qed.

(** The new record: inode, name and length. *)
Lemma filled_record X n : (8 + length name <= n)%nat → (n <= length X)%nat → len < 256 → Forall byte_ok X → Forall byte_ok name →
  byte_ok (dirent_type (file_type mode)) → 0 < ino < 4294967296 → Z.of_nat n < 65536 → Z.of_nat n mod 4 = 0 →
  slice 4 2 X = le16 (Z.of_nat n) →
  ∃ e, take n (fill_body X) = dent_bytes e ∧ dent_ok e ∧ de_inode e = ino ∧ de_name e = name.
Proof.
  intros Hn HX Hlen HbX Hbn Hty Hino Hmax Hal H4. set (R := fill_body X).
  assert (HlR : length R = length X) by (unfold R, fill_body; by rewrite !length_inserts).
  assert (HlT : length (take n R) = n) by (rewrite length_take; lia).
  assert (H0 : slice 0 4 R = le32 ino).
  { unfold R, fill_body. rewrite !slice_inserts_disjoint by (cbn [length]; lia). apply (slice_inserts_same 0 (le32 ino)). cbn [length le32]. lia. }
  assert (H4' : slice 4 2 R = le16 (Z.of_nat n)).
  { unfold R, fill_body. rewrite !slice_inserts_disjoint by (cbn [length le32]; lia). done. }
  assert (H6 : R !! 6%nat = Some len).
  { unfold R, fill_body. rewrite !inserts_lookup, decide_False, decide_True by (rewrite ?length_inserts; cbn [length]; lia).
    cbn. by rewrite u8_small by lia. }
  assert (H8 : slice 8 (length name) R = name).
  { unfold R, fill_body. rewrite list_inserts_app_l, slice_inserts_disjoint by lia. apply slice_inserts_same. rewrite !length_inserts. lia. }
  assert (HbR : Forall byte_ok R).
  { unfold R, fill_body. assert (byte_ok (u8 len)) by (unfold byte_ok; rewrite u8_small; lia).
    apply inserts_Forall; [apply Forall_app; split; [done|by repeat constructor]|].
    apply inserts_Forall; [apply Forall_cons; split; [done|]; apply Forall_cons; by split|].
    apply inserts_Forall; [apply le32_bytes|done]. }
  pose proof (record_of (take n R) ino) as Hrec. rewrite HlT in Hrec.
  specialize (Hrec ltac:(lia) ltac:(by rewrite slice_take_le by lia) ltac:(by rewrite slice_take_le by lia)).
  set (e := mk_dent ino (drop 6 (take n R))) in *. exists e. split; [done|].
  assert (Hlb : length (de_body e) = (n - 6)%nat) by (cbn [de_body e]; rewrite length_drop, HlT; done).
  assert (Hb0 : de_body e !!! 0%nat = len).
  { apply list_lookup_total_correct. cbn [de_body e]. rewrite lookup_drop, lookup_take_lt by lia. done. }
  assert (Hnm : de_name e = name).
  { unfold de_name. rewrite Hb0, Nat2Z.id. cbn [de_body e]. rewrite drop_drop. change (6 + 2)%nat with 8%nat.
    rewrite <- H8 at 2. fold (slice 8 (length name) (take n R)). by rewrite slice_take_le by lia. }
  split; [|done]. constructor.
  - cbn. lia.
  - unfold de_rec. rewrite Hlb. lia.
  - cbn [de_body e]. by apply Forall_drop, Forall_take.
  - unfold de_rec. rewrite Hlb. by replace (6 + (n - 6))%nat with n by lia.
  - intros _. rewrite Hb0, Hlb. lia.
Qed.

(** What lies behind the new record stays; the final zero falls on a zero if
    it has no place in the record. *)
Lemma fill_body_drop X n : (8 + length name <= n)%nat → (n < length X)%nat → X !! n = Some 0 → drop n (fill_body X) = drop n X.
Proof.
  intros Hn HX H0. unfold fill_body. set (Y := list_inserts 6 _ _).
  assert (HY : ∀ i, (n <= i)%nat → Y !! i = X !! i).
  { intros i Hi. unfold Y. rewrite !inserts_lookup, !decide_False by (cbn [length le32]; lia). done. }
  apply list_eq. intros i. rewrite !lookup_drop. destruct (decide (8 + length name < n)%nat) as [Hlt|Hge].
  - rewrite inserts_lookup, decide_False by (rewrite length_app; cbn [length]; lia). apply HY. lia.
  - rewrite inserts_snoc_same by (rewrite HY by lia; by replace (8 + length name)%nat with n by lia).
    rewrite inserts_lookup, decide_False by lia. apply HY. lia.
Qed.

Lemma drop_slice {A} (n i k : nat) (l : list A) : slice i k (drop n l) = slice (n + i) k l.
Proof. unfold slice. by rewrite drop_drop. Qed.

Section Entry.
Context (e : dent) (He : dent_ok e).
Hypothesis Hfree : is_free len e = true.
Hypothesis Hfit : 8 + len < Z.of_nat (de_rec e).
Hypothesis Hlen : len < 256.
Hypothesis Hname : Forall byte_ok name.
Hypothesis Htype : byte_ok (dirent_type (file_type mode)).
Hypothesis Hino : 0 < ino < 4294967296.

Lemma dent_bytes_ok : Forall byte_ok (dent_bytes e).
Proof. unfold dent_bytes. apply Forall_app. split; [apply le32_bytes|]. apply Forall_app. split; [apply le16_bytes|apply He]. Qed.

Lemma rec_of_bytes : ent_rec_len (dent_bytes e) 0 = Z.of_nat (de_rec e).
Proof. pose proof (ent_rec_len_at [] e [] He) as H. unfold dir_bytes in H. cbn [app fmap list_fmap concat length] in H. by rewrite app_nil_r in H. Qed.

Lemma need_fits : needed_size len <= Z.of_nat (de_rec e).
Proof.
  destruct (needed_size_spec len ltac:(lia)) as [H1 H2]. pose proof (d_align e He) as H3. unfold is_free in Hfree. zbool.
  pose proof (Z.div_mod (needed_size len) 4 ltac:(lia)). pose proof (Z.div_mod (Z.of_nat (de_rec e)) 4 ltac:(lia)). lia.
Qed.

(** The record without a split. *)
Lemma link_whole : ∃ e1, fill_body (dent_bytes e) = dent_bytes e1 ∧ dent_ok e1 ∧ de_inode e1 = ino ∧ de_name e1 = name.
Proof.
  pose proof (dent_bytes_length e) as Hl.
  destruct (filled_record (dent_bytes e) (de_rec e)) as (e1 & E & Hrest);
    [lia|lia|done|apply dent_bytes_ok|done|done|done|apply (d_len e He)|apply (d_align e He)|done|].
  exists e1. split; [|done]. rewrite <- E. symmetry. apply take_ge. unfold fill_body. rewrite !length_inserts. lia.
Qed.

(** The record split in two. *)
Lemma link_split : 8 < Z.of_nat (de_rec e) - needed_size len →
  ∃ e1 e2, fill_body (split_entry (dent_bytes e) 0 len) = dent_bytes e1 ++ dent_bytes e2
    ∧ dent_ok e1 ∧ de_inode e1 = ino ∧ de_name e1 = name ∧ dent_ok e2 ∧ de_inode e2 = 0.
Proof.
  intros Hs. pose proof (dent_bytes_length e) as Hl. destruct (d_len e He) as [_ Hmax]. pose proof need_fits as Hnf.
  destruct (needed_size_spec len ltac:(lia)) as [Hn1 Hn2]. unfold split_entry. rewrite rec_of_bytes, u32_small by lia.
  rewrite (proj2 (Z.ltb_lt 8 _) Hs). set (m := Z.to_nat (needed_size len)). rewrite Nat.add_0_l.
  replace (needed_size len) with (Z.of_nat m) in * by lia. rewrite !(Z.mod_small _ 65536 : _ → u16 _ = _) by lia.
  set (X := set_ent_rec_len _ 0 _).
  assert (HlX : length X = de_rec e) by (unfold X, set_ent_rec_len, set_ent_inode; by rewrite !length_inserts).
  assert (HbX : Forall byte_ok X).
  { unfold X, set_ent_rec_len, set_ent_inode. apply inserts_Forall; [apply le16_bytes|]. apply inserts_Forall; [apply le32_bytes|].
    apply inserts_Forall; [apply le16_bytes|apply dent_bytes_ok]. }
  assert (H4 : slice 4 2 X = le16 (Z.of_nat m)).
  { unfold X, set_ent_rec_len, set_ent_inode. apply (slice_inserts_same (0 + 4) (le16 (Z.of_nat m))). rewrite !length_inserts. cbn [length le16]. lia. }
  assert (Hm0 : slice m 4 X = le32 0).
  { unfold X, set_ent_rec_len, set_ent_inode. rewrite slice_inserts_disjoint by (cbn [length le16]; lia).
    apply (slice_inserts_same m (le32 0)). rewrite !length_inserts. cbn [length le32]. lia. }
  assert (Hm4 : slice (m + 4) 2 X = le16 (Z.of_nat (de_rec e) - Z.of_nat m)).
  { unfold X, set_ent_rec_len, set_ent_inode. rewrite !slice_inserts_disjoint by (cbn [length le16 le32]; lia).
    apply (slice_inserts_same (m + 4) (le16 _)). cbn [length le16]. lia. }
  assert (HXm : X !! m = Some 0).
  { pose proof (f_equal (λ l, l !! 0%nat) Hm0) as E. cbn beta in E. rewrite slice_lookup, decide_True, Nat.add_0_r in E by lia. exact E. }
  destruct (filled_record X m) as (e1 & E1 & Hok1 & Hi1 & Hn1');
    [lia|lia|done|done|done|done|done|lia|done|done|].
  pose proof (fill_body_drop X m ltac:(lia) ltac:(lia) HXm) as Ed.
  pose proof (record_of (drop m X) 0) as E2. rewrite length_drop, HlX, !drop_slice, Nat.add_0_r in E2.
  replace (Z.of_nat (de_rec e - m)) with (Z.of_nat (de_rec e) - Z.of_nat m) in E2 by lia. specialize (E2 ltac:(lia) Hm0 Hm4).
  exists e1, (mk_dent 0 (drop 6 (drop m X))). split; [|do 3 (split; [done|]); split; [|done]].
  - rewrite <- E1, <- E2, <- Ed. symmetry. apply take_drop.
  - assert (Hlb : length (drop 6 (drop m X)) = (de_rec e - m - 6)%nat) by (rewrite !length_drop, HlX; lia).
    constructor; unfold de_rec; cbn [de_inode de_body]; rewrite ?Hlb; [lia|lia| | |done].
    + by apply Forall_drop, Forall_drop.
    + replace (Z.of_nat (6 + (de_rec e - m - 6))) with (Z.of_nat (de_rec e) - Z.of_nat m) by lia. rewrite Zminus_mod, Hn2, (d_align e He). done.
Qed.
End Entry.

(** Adding a name to a block: the unused record becomes a record for the name
    and perhaps a shorter unused one. *)
Lemma link_entry a e b : dent_ok e → is_free len e = true → 8 + len < Z.of_nat (de_rec e) → len < 256 → Forall byte_ok name →
  byte_ok (dirent_type (file_type mode)) → 0 < ino < 4294967296 →
  ∃ e1 rest, fill_entry dirent_type (split_entry (dir_bytes (a ++ e :: b)) (length (dir_bytes a)) len) (length (dir_bytes a)) ino name mode
      = dir_bytes (a ++ (e1 :: rest) ++ b)
    ∧ dent_ok e1 ∧ de_inode e1 = ino ∧ de_name e1 = name ∧ Forall (λ x, dent_ok x ∧ de_inode x = 0) rest.
Proof.
  intros He Hfree Hfit Hlen Hname Htype Hino. pose proof (need_fits e He Hfree Hfit) as Hneed.
  pose proof (ent_rec_len_at a e b He) as Hrec. destruct (d_len e He) as [_ Hmax]. rewrite dir_bytes_app, dir_bytes_cons in *.
  rewrite link_local by (rewrite Hrec, ?dent_bytes_length; (done || lia)). 
  assert (Hsplit : split_entry (dent_bytes e) 0 len = dent_bytes e ∨ 8 < Z.of_nat (de_rec e) - needed_size len).
  { unfold split_entry. rewrite rec_of_bytes by done. destruct (needed_size_spec len ltac:(lia)). rewrite u32_small by lia. case_if; [by right|by left]. }
  change (fill_entry dirent_type ?x 0 ino name mode) with (fill_body x). destruct Hsplit as [->|Hs].
  - destruct (link_whole e) as (e1 & -> & Hok & Hi & Hn); [done..|]. exists e1, []. rewrite dir_bytes_app. done.
  - destruct (link_split e) as (e1 & e2 & -> & Hok & Hi & Hn & Hok2 & Hi2); [done..|]. exists e1, [e2].
    rewrite dir_bytes_app. cbn [app]. rewrite !dir_bytes_cons, <- app_assoc. split; [done|]. do 3 (split; [done|]). apply Forall_cons. by split.
Qed.
End Link.
