(* ===== verification/E2DirOps.v ===== *)
(** Directories on an ext2 volume: looking names up, adding and removing them
    refine the same operations on a list of records. *)

From S2P Require Import Prelude Bytes E2Alloc E2Super E2Inode E2File E2Volume E2Flush E2Write E2Dir E2DirSpec.

(** The blocks of directory [p] hold the records [ess], block by block. *)
Record dir_ok (s : e2fs) (p : e2_inode_private) (ess : list (list dent)) : Prop := {
  di_type : file_type (i_mode p) = EXT2_S_IFDIR;
  di_size : i_size p = Z.of_nat (nblocks s p) * s_blocksize s;
  di_blocks : Forall2 (λ b es, block_data s b = dir_bytes es ∧ Forall dent_ok es) (used s p) ess;
}.

Section DirOps.
Context (st : e2_static) (behind : nat → Z) (iget : Z → bool) (dirent_type : Z → Z).

Lemma dir_block_scan es : Forall dent_ok es → (length es < S (length (dir_bytes es)))%nat.
Proof. intros H. pose proof (dir_bytes_min es H). lia. Qed.

(** * Looking a name up *)

Lemma read_dir_block s p ess i b es rw : vol_ok st s → file_ok st s p → dir_ok s p ess → length rw = block_len s →
  used s p !! i = Some b → ess !! i = Some es →
  e2_inode_io st behind s p EXT2_READ (Z.of_nat i * s_blocksize s) (s_blocksize s) rw true = Ret (s, p, s_blocksize s, dir_bytes es).
Proof.
  intros Hv Hf Hd Hrw Hb Hes. destruct (used_ok st s p Hv Hf) as [Hu Hl]. pose proof (lookup_lt_Some _ _ _ Hb) as Hi.
  pose proof (di_size _ _ _ Hd) as Hsz. destruct (vol_mod4 st s Hv) as (_ & Hbs & _).
  pose proof (i_size_range p (file_data_ok st s p Hv Hf)) as Hr.
  rewrite e2_read_run; [|done|done|nia|done|nia|unfold block_len in Hrw; lia]. cbv zeta.
  rewrite (proj2 (Z.leb_gt _ _)) by nia. replace (Z.min (s_blocksize s) (i_size p - Z.of_nat i * s_blocksize s)) with (s_blocksize s) by nia.
  f_equal. f_equal. assert (Z.to_nat (Z.of_nat i * s_blocksize s) = (i * block_len s)%nat) as -> by (unfold block_len; lia).
  fold (block_len s). rewrite <- content_slice with (st := st); [|done|done|unfold block_len; nia].
  rewrite (data_of_block s (used s p) i b) by done. destruct (Forall2_lookup_lr _ _ _ _ _ _ (di_blocks _ _ _ Hd) Hb Hes) as [E _].
  rewrite E. apply inserts_whole. rewrite <- E, Hrw. apply block_data_length; [apply Hu|]. destruct Hu as (_ & Hg & _). by eapply Forall_lookup_1.
Qed.

Lemma dir_bytes_len s p ess i es : vol_ok st s → file_ok st s p → dir_ok s p ess → ess !! i = Some es → length (dir_bytes es) = block_len s.
Proof.
  intros Hv Hf Hd Hes. destruct (Forall2_lookup_r _ _ _ _ _ (di_blocks _ _ _ Hd) Hes) as (b & Hb & <- & _).
  destruct (used_ok st s p Hv Hf) as [(Ha & Hg & _) _]. apply block_data_length; [done|]. by eapply Forall_lookup_1.
Qed.

Lemma lookup_blocks_spec s p ess name : vol_ok st s → file_ok st s p → dir_ok s p ess →
  ∀ n i rw, (i + n = length ess)%nat → length rw = block_len s →
  lookup_blocks st behind s p name rw i n = Ret (dir_find (concat (drop i ess)) name).
Proof.
  intros Hv Hf Hd n. induction n as [|n IH]; intros i rw Hi Hrw; cbn [lookup_blocks].
  { by rewrite drop_ge by lia. }
  destruct (lookup_lt_is_Some_2 ess i) as [es Hes]; [lia|]. destruct (Forall2_lookup_r _ _ _ _ _ (di_blocks _ _ _ Hd) Hes) as (b & Hb & Hdata & Hok).
  rewrite (read_dir_block s p ess i b es rw) by done. cbn [obind].
  pose proof (find_name_spec (S (length (dir_bytes es))) [] es name Hok (dir_block_scan es Hok)) as Hfind. cbn [app] in Hfind.
  change (length (dir_bytes [])) with 0%nat in Hfind. rewrite Hfind. cbn [obind]. rewrite (drop_S _ _ _ Hes). cbn [concat]. rewrite dir_find_app.
  destruct (dir_find es name); [done|]. apply IH; [lia|]. by eapply dir_bytes_len.
Qed.

Definition lookup_result (es : list dent) (name : list Z) : result Z :=
  match dir_find es name with
  | Some ino => if iget ino then Ok ino else Err EIO
  | None => Err ENOENT
  end.

Lemma e2_lookup_run s p ess name rw : vol_ok st s → file_ok st s p → dir_ok s p ess → length rw = block_len s →
  e2_inode_lookup st behind iget s p name rw = Ret (lookup_result (concat ess) name).
Proof.
  intros Hv Hf Hd Hrw. unfold e2_inode_lookup, spin_lock, lookup_result. rewrite (f_lock _ _ _ Hf). cbn [Z.eqb obind].
  assert (length ess = nblocks s p) as Hn.
  { rewrite <- (Forall2_length _ _ _ (di_blocks _ _ _ Hd)). by destruct (used_ok st s p Hv Hf). }
  rewrite (lookup_blocks_spec s p ess name Hv Hf Hd _ 0) by (done || lia). rewrite drop_0. cbn [obind].
  destruct (dir_find _ _); [by case_if|done].
Qed.

(** looking a name up in an ext2 directory refines searching the list of
    its records: [e2_inode_lookup] returns the inode of the first record in use
    that has the name ([-EIO] when that inode cannot be read), [-ENOENT] when
    there is none, whatever the shape of the records and the stale bytes in
    unused ones. *)
Theorem e2_lookup_refines s p ess name rw : vol_ok st s → file_ok st s p → dir_ok s p ess → length rw = block_len s →
  e2_inode_lookup st behind iget s p name rw
  = Ret match dir_find (concat ess) name with
        | Some ino => if iget ino then Ok ino else Err EIO
        | None => Err ENOENT
        end.
Proof. exact (e2_lookup_run s p ess name rw). Qed.

(** * The place of a record *)

(** The first record that satisfies [f]: its block, the contents of the block
    and the place in it; [A] and [B] are all records before and behind it. *)
Definition located (f : dent → bool) (l : list Z) (ess : list (list dent)) (r : option (Z * list Z * nat)) : Prop :=
  match r with
  | None => Forall (λ e, f e = false) (concat ess)
  | Some (b, buf, o) => ∃ k a e c, l !! k = Some b ∧ ess !! k = Some (a ++ e :: c) ∧ buf = dir_bytes (a ++ e :: c)
      ∧ o = length (dir_bytes a) ∧ f e = true ∧ Forall (λ e, f e = false) (concat (take k ess) ++ a)
  end.

Lemma located_skip f b l es ess r : Forall (λ e, f e = false) es → located f l ess r → located f (b :: l) (es :: ess) r.
Proof.
  intros Hes. destruct r as [[[b' buf] o]|]; cbn [located]; [|by intros; cbn [concat]; apply Forall_app].
  intros (k & a & e & c & Hb & Hk & -> & -> & Hf & Hpre). exists (S k), a, e, c. do 5 (split; [done|]). cbn [take concat].
  rewrite <- app_assoc. by apply Forall_app.
Qed.

Lemma located_here f b l a e c ess : f e = true → Forall (λ e, f e = false) a →
  located f (b :: l) ((a ++ e :: c) :: ess) (Some (b, dir_bytes (a ++ e :: c), length (dir_bytes a))).
Proof. intros Hf Ha. by exists 0%nat, a, e, c. Qed.

(** The two searches, with the loop over one block as a parameter. *)
Lemma search_spec (search : list Z → outcome (option nat)) (loop : list Z → outcome (option (Z * list Z * nat))) f s l ess :
  addressable s → Forall (good_block s) l → Forall2 (λ b es, block_data s b = dir_bytes es ∧ Forall dent_ok es) l ess →
  (∀ es, Forall dent_ok es → ∃ r, search (dir_bytes es) = Ret r ∧ first_such f [] es r) →
  loop [] = Ret None →
  (∀ b l, loop (b :: l) = (rw <~ e2_read_block s b ;; r <~ search rw ;;
                           match r with Some o => Ret (Some (b, rw, o)) | None => loop l end)) →
  ∃ r, loop l = Ret r ∧ located f l ess r.
Proof.
  intros Ha Hg H Hs Hnil Hcons. induction H as [|b es l ess [Hb Hok] _ IH]; [exists None; by split; [|constructor]|].
  apply Forall_cons in Hg as [Hgb Hg]. destruct (IH Hg) as (r & Hr & Hl). rewrite Hcons, read_good, Hb by done. cbn [obind].
  destruct (Hs es Hok) as (q & -> & Hq). cbn [obind]. destruct q as [o|]; cbn [first_such] in Hq.
  - destruct Hq as (a & e & c & -> & He & Ha' & ->). eexists. split; [done|]. by apply located_here.
  - exists r. split; [done|]. by apply located_skip.
Qed.

Lemma find_free_block_spec s p ess len : vol_ok st s → file_ok st s p → dir_ok s p ess →
  ∃ r, find_free_block s len (used s p) = Ret r ∧ located (is_free len) (used s p) ess r.
Proof.
  intros Hv Hf Hd. destruct (used_ok st s p Hv Hf) as [(Ha & Hg & _) _].
  apply (search_spec (λ rw, find_free (S (length rw)) rw 0 len) (find_free_block s len) _ s); [done|done|apply Hd| |done|done].
  intros es Hok. apply (find_free_spec _ [] es len Hok (dir_block_scan es Hok)).
Qed.

Lemma find_linked_block_spec s p ess name : vol_ok st s → file_ok st s p → dir_ok s p ess →
  ∃ r, find_linked_block s name (used s p) = Ret r ∧ located (is_entry name) (used s p) ess r.
Proof.
  intros Hv Hf Hd. destruct (used_ok st s p Hv Hf) as [(Ha & Hg & _) _].
  apply (search_spec (λ rw, find_linked (S (length rw)) rw 0 name) (find_linked_block s name) _ s); [done|done|apply Hd| |done|done].
  intros es Hok. apply (find_linked_spec _ [] es name Hok (dir_block_scan es Hok)).
Qed.

(** * Writing a block of a directory *)

Lemma dir_put s d ess k b es' : vol_ok st s → file_ok st s d → dir_ok s d ess → used s d !! k = Some b → 
  length (dir_bytes es') = block_len s → Forall dent_ok es' →
  let s1 := put_block s b (dir_bytes es') in
  vol_ok st s1 ∧ file_ok st s1 d ∧ dir_ok s1 d (<[k := es']> ess) ∧ same_geo s s1 ∧ (∀ c, block_free s1 c = block_free s c)
  ∧ (∀ x, good_block s x → x ≠ b → block_data s1 x = block_data s x) ∧ ∀ q, fixed st s q → dev s1 !! q = dev s !! q.
Proof.
  intros Hv Hf Hd Hb Hlen Hok s1. pose proof (vol_addressable _ _ Hv) as Ha. destruct (used_ok st s d Hv Hf) as [(_ & Hg & Hnd) _].
  assert (Hdb : data_block st s b) by (apply (Forall_lookup_1 _ _ _ _ (used_data st s d Hf) Hb)).
  assert (Hby : Forall byte_ok (dir_bytes es')).
  { unfold dir_bytes. clear -Hok. induction Hok as [|e es He _ IH]; [constructor|]. rewrite fmap_cons. cbn [concat].
    apply Forall_app. split; [by apply dent_bytes_ok|done]. }
  destruct (put_vol st s b (dir_bytes es') Hv Hdb Hlen Hby) as (Hv1 & Hfr & sg & _).
  assert (Hdata : ∀ x, good_block s x → block_data s1 x = if decide (x = b) then dir_bytes es' else block_data s x).
  { intros x Hx. apply block_data_put; (done || apply Hdb). }
  split; [done|]. split; [by apply (file_ok_geo st s)|]. split; [|split; [done|split; [done|split]]].
  - destruct Hd as [D1 D2 D3]. assert (Hu : used s1 d = used s d) by (unfold used; by rewrite (geo_nblocks s s1 sg)).
    constructor; [done|by rewrite <- (geo_nblocks s s1 sg)|]. rewrite Hu. apply Forall2_same_length_lookup. split.
    { rewrite length_insert. by eapply Forall2_length. }
    intros i x es Hx Hes. rewrite Hdata by (by eapply Forall_lookup_1). destruct (decide (i = k)) as [->|Hne].
    + assert (x = b) as -> by congruence. rewrite decide_True by done. rewrite list_lookup_insert_eq in Hes; [by simplify_eq|].
      rewrite <- (Forall2_length _ _ _ D3). by eapply lookup_lt_Some.
    + rewrite list_lookup_insert_ne in Hes by done. rewrite decide_False.
      * by apply (Forall2_lookup_lr _ _ _ _ _ _ D3 Hx Hes).
      * intros ->. apply Hne. by eapply NoDup_lookup.
  - intros x Hx Hne. by rewrite Hdata, decide_False by done.
  - intros q Hq. unfold s1. cbn [put_block dev with_dev]. rewrite inserts_lookup, decide_False; [done|]. rewrite Hlen. intros [Hin _].
    destruct (proj2 Hdb q Hin) as [[] _]. done.
Qed.

(** Another file is not touched by that. *)
Lemma other_put s s1 p b : vol_ok st s → file_ok st s p → stored st s p → vol_ok st s1 → same_geo s s1 → (∀ c, block_free s1 c = block_free s c) →
  (∀ x, good_block s x → x ≠ b → block_data s1 x = block_data s x) → (∀ q, fixed st s q → dev s1 !! q = dev s !! q) →
  (∀ g, inode_pos st s1 g = inode_pos st s g) → b ∉ owned s p →
  file_ok st s1 p ∧ stored st s1 p ∧ content s1 p = content s p.
Proof.
  intros Hv Hf ([M1 M2 M3] & pos & Hpos & Hslot) Hv1 sg Hfr Hdata Hfix Hip Hb. split; [by apply (file_ok_geo st s)|].
  pose proof (owned_data st s p Hf) as Hown. split; [split|].
  - constructor; rewrite <- ?(geo_nblocks s s1 sg); [done| |done]. intros Hn. destruct (M2 Hn) as [Hne Hw]. split; [done|].
    assert (Hin : i_block p 12 ∈ owned s p) by (apply elem_of_app; left; unfold indirect; rewrite (proj2 (Z.eqb_neq _ _) Hne); by left).
    unfold words in *. rewrite <- (geo_per_block s s1 sg), Hdata; [done| |intros E; by rewrite E in Hin]. apply (proj1 (Forall_forall _ _) Hown _ Hin).
  - exists pos. destruct (inode_slot st s p Hv Hf) as (pos' & E & _ & _ & Hfx). rewrite Hpos in E. injection E as <-. rewrite Hip. split; [done|].
    rewrite <- Hslot. apply list_eq. intros i. rewrite !slice_lookup. case_decide; [|done]. apply Hfix, Hfx. lia.
  - unfold content. assert (used s1 p = used s p) as -> by (unfold used; by rewrite (geo_nblocks s s1 sg)). f_equal. unfold data_of. f_equal.
    apply Forall_fmap_ext_1, Forall_forall. intros x Hx. apply Hdata.
    + by apply (proj1 (Forall_forall _ _) (used_data st s p Hf)).
    + intros ->. apply Hb, elem_of_app. by right.
Qed.

(** * The link count *)

Lemma links_fields p n : let q := set_links p n in
  i_size q = i_size p ∧ i_blocks q = i_blocks p ∧ i_mode q = i_mode p ∧ (∀ k, i_block q k = i_block p k)
  ∧ length (inode_data q) = length (inode_data p).
Proof.
  unfold i_size, i_blocks, i_mode, i_block. cbn [set_links with_data inode_data]. rewrite !rd32_wr16_ne, rd16_wr16_ne, wr16_length by lia.
  do 3 (split; [done|]). split; [|done]. intros k. apply rd32_wr16_ne. lia.
Qed.

Lemma links_set p n : data_ok p → 0 <= n < 65536 → i_links_count (set_links p n) = n.
Proof. intros [Hl _] Hn. apply rd16_wr16_eq; [lia|done]. Qed.

Lemma links_file s p n : file_ok st s p → file_ok st s (with_idirty (set_links p n) true).
Proof.
  intros [[Fl Fb] Ft Flk Fi Fbl Fm Fo Fs]. destruct (links_fields p n) as (H1 & H2 & H3 & H4 & H5).
  set (q := with_idirty (set_links p n) true). assert (Hn : nblocks s q = nblocks s p) by (unfold nblocks; by rewrite <- H2).
  assert (Ho : owned s q = owned s p) by (unfold owned, indirect, used; rewrite Hn; unfold q; change (i_block (with_idirty ?x true)) with (i_block x); by rewrite H4).
  constructor; rewrite ?Hn, ?Ho; try done.
  - unfold q. cbn [inode_data with_idirty]. rewrite H5. split; [done|]. by apply wr16_bytes.
  - change (i_mode q) with (i_mode (set_links p n)). by rewrite H3.
  - change (i_blocks q) with (i_blocks (set_links p n)). by rewrite H2.
  - change (i_size q) with (i_size (set_links p n)). by rewrite H1.
Qed.

(** Writing the inode of a file whose link count changed leaves a directory
    that shares no block with it as it is. *)
Lemma relink s d ess p n : vol_ok st s → file_ok st s d → dir_ok s d ess → file_ok st s p → stored st s p → 0 <= n < 65536 →
  (∀ b, b ∈ owned s d → b ∉ owned s p) →
  ∃ s' p', e2_inode_flush st behind s (with_idirty (set_links p n) true) true = Ret (s', p')
    ∧ vol_ok st s' ∧ file_ok st s' d ∧ dir_ok s' d ess ∧ file_ok st s' p' ∧ stored st s' p'
    ∧ i_links_count p' = n ∧ i_ino p' = i_ino p ∧ content s' p' = content s p ∧ same_geo s s' ∧ (∀ b, b ∈ owned s d → b ∉ owned s' p').
Proof.
  intros Hv Hfd Hd Hfp (Hm & _) Hn Hdis. set (q := with_idirty (set_links p n) true).
  destruct (links_fields p n) as (H1 & H2 & H3 & H4 & H5). pose proof (links_file s p n Hfp) as Hfq. fold q in Hfq.
  assert (Hnb : nblocks s q = nblocks s p) by (unfold nblocks; by rewrite <- H2).
  assert (Hiq : indirect q = indirect p) by (unfold indirect; change (i_block q 12) with (i_block (set_links p n) 12); by rewrite H4).
  assert (Huq : used s q = used s p) by (unfold used; by rewrite Hnb).
  destruct (e2_inode_flush_spec st behind s q Hv Hfq eq_refl) as (s' & p' & Hrun & Hfl).
  { rewrite Hnb. intros H12 H0. destruct (m_indirect _ _ Hm H12) as [Hne _]. by rewrite <- (H4 12%nat) in Hne. }
  pose proof Hfl as [Hv' sg (S1 & S2 & _ & _ & S5 & S6 & _ & S8) Hf' Hst' _ Hfr Hfresh _]. pose proof (vol_addressable _ _ Hv) as Ha.
  assert (Hni : ∀ b, b ∈ owned s d → b ∉ indirect p').
  { intros b Hb Hin. destruct (Hfresh b Hin) as [Hq|Hq].
    - rewrite Hiq in Hq. apply (Hdis b Hb), elem_of_app. by left.
    - destruct (f_owned _ _ _ Hfd) as [Ho _]. destruct (proj1 (Forall_forall _ _) Ho b Hb) as (_ & _ & E). congruence. }
  assert (Hud : used s' d = used s d) by (unfold used; by rewrite (geo_nblocks s s' sg)).
  assert (Hup : used s' p' = used s p).
  { rewrite <- Huq. unfold used. rewrite <- (geo_nblocks s s' sg), S2. unfold nblocks. by rewrite S6. }
  exists s', p'. split; [exact Hrun|]. split; [done|]. split; [|split; [|do 2 (split; [done|]); split; [|split; [done|split; [|split; [done|]]]]]].
  - destruct (f_owned _ _ _ Hfd) as [Ho Hnd]. apply (file_ok_step st s s' d d); [done|done|done|apply Hfd| |done].
    eapply Forall_impl; [exact Ho|]. intros b Hb. apply (taken_step st s); [done..|]. destruct Hb as (? & _ & E). rewrite Hfr, E by lia. done.
  - destruct Hd as [D1 D2 D3]. constructor; [done|by rewrite <- (geo_nblocks s s' sg), <- (sg_size _ _ sg)|]. rewrite Hud.
    apply Forall2_same_length_lookup. split; [by eapply Forall2_length|]. intros i b es Hb Hes.
    destruct (Forall2_lookup_lr _ _ _ _ _ _ D3 Hb Hes) as [E Hok]. split; [|done]. rewrite <- E.
    apply list_elem_of_lookup_2 in Hb. pose proof (flushed_data st s s' q p' [b] Ha Hfl) as Hone. unfold data_of in Hone.
    cbn [fmap list_fmap concat] in Hone. rewrite !app_nil_r in Hone. apply Hone.
    + apply Forall_singleton. by apply (proj1 (Forall_forall _ _) (used_data st s d Hfd)).
    + intros x ->%list_elem_of_singleton. apply Hni, elem_of_app. by right.
  - rewrite S8. change (i_links_count q) with (i_links_count (set_links p n)). apply links_set; [by apply (file_data_ok st s)|done].
  - unfold content. rewrite S5, Hup. change (i_size q) with (i_size (set_links p n)). rewrite H1. f_equal.
    apply (flushed_data st s s' q p'); [done|done|by apply (used_data st s p)|]. destruct (f_owned _ _ _ Hf') as [_ Hnd].
    unfold owned in Hnd. rewrite Hup in Hnd. apply NoDup_app in Hnd as (_ & Hnd & _). intros b Hb Hin. by apply (Hnd b).
  - intros b Hb. unfold owned. rewrite Hup, elem_of_app. intros [Hin|Hin]; [by apply (Hni b)|]. apply (Hdis b Hb), elem_of_app. by right.
Qed.

(** * Names and records *)

Lemma concat_put k (es es' : list dent) ess : ess !! k = Some es →
  concat ess = concat (take k ess) ++ es ++ concat (drop (S k) ess)
  ∧ concat (<[k := es']> ess) = concat (take k ess) ++ es' ++ concat (drop (S k) ess).
Proof.
  intros H. split.
  - rewrite <- (take_drop_middle _ _ _ H) at 1. by rewrite concat_app.
  - rewrite insert_take_drop by (by eapply lookup_lt_Some). by rewrite concat_app.
Qed.

(** A record [e] replaced by records [new] among those in front and behind. *)
Lemma dir_find_replace A e new B n : dir_find [e] n = dir_find new n → dir_find (A ++ new ++ B) n = dir_find (A ++ e :: B) n.
Proof. intros H. change (e :: B) with ([e] ++ B). rewrite !dir_find_app, H. done. Qed.

Lemma unused_find rest n : Forall (λ x, dent_ok x ∧ de_inode x = 0) rest → dir_find rest n = None.
Proof. induction 1 as [|x rest [_ Hx] _ IH]; [done|]. by rewrite dir_find_unused. Qed.

Lemma entry_find e rest n : de_inode e ≠ 0 → Forall (λ x, dent_ok x ∧ de_inode x = 0) rest →
  dir_find (e :: rest) n = if decide (n = de_name e) then Some (de_inode e) else None.
Proof.
  intros He Hr. cbn [dir_find]. unfold is_entry. rewrite (proj2 (Z.eqb_neq _ _) He). cbn [negb andb]. rewrite (unused_find rest n Hr).
  case_bool_decide; case_decide; congruence.
Qed.

(** Locking and unlocking an inode leaves it as it was. *)
Lemma lock_unlock p : ilock p = 0 → with_ilock (with_ilock p 1) (spin_unlock 1) = p.
Proof. destruct p. cbn. by intros ->. Qed.

Lemma lock_unlock_links p n : ilock p = 0 →
  with_ilock (with_idirty (set_links (with_ilock p 1) n) true) (spin_unlock 1) = with_idirty (set_links p n) true.
Proof. destruct p. cbn. by intros ->. Qed.

Lemma flush_clean s p memory : idirty p = false → e2_inode_flush st behind s p memory = Ret (s, p).
Proof. intros H. unfold e2_inode_flush. by rewrite H. Qed.

(** A parent directory and an inode that is given a name in it. *)
Record linkable (s : e2fs) (d p : e2_inode_private) (ess : list (list dent)) : Prop := {
  lk_vol : vol_ok st s;
  lk_parent : file_ok st s d;
  lk_dir : dir_ok s d ess;
  lk_clean : idirty d = false;
  lk_child : file_ok st s p;
  lk_stored : stored st s p;
  lk_other : i_ino d ≠ i_ino p;
  lk_apart : ∀ b, b ∈ owned s d → b ∉ owned s p;
}.

(** Block [b] of the directory is rewritten with records [es'], then the inode
    with its new link count. *)
Lemma rewrite_records s d p ess k b es' n : linkable s d p ess → used s d !! k = Some b → length (dir_bytes es') = block_len s →
  Forall dent_ok es' → 0 <= n < 65536 →
  ∃ s' p', (s1 <~ e2_write_block s b (dir_bytes es') ;; e2_inode_flush st behind s1 (with_idirty (set_links p n) true) true) = Ret (s', p')
    ∧ linkable s' d p' (<[k := es']> ess) ∧ i_links_count p' = n ∧ i_ino p' = i_ino p ∧ content s' p' = content s p ∧ block_len s' = block_len s.
Proof.
  intros [Hv Hfd Hd Hc Hfp Hst Hne Hap] Hb Hlen Hok Hn. pose proof (vol_addressable _ _ Hv) as Ha.
  destruct (dir_put s d ess k b es' Hv Hfd Hd Hb Hlen Hok) as (Hv1 & Hfd1 & Hd1 & sg & Hfr & Hdata & Hfix).
  assert (Hbd : b ∈ owned s d) by (apply elem_of_app; right; by eapply list_elem_of_lookup_2).
  assert (Hgb : good_block s b) by (apply (Forall_lookup_1 _ _ _ _ (used_data st s d Hfd) Hb)).
  rewrite write_good by done. cbn [obind]. set (s1 := put_block s b (dir_bytes es')) in *.
  destruct (other_put s s1 p b) as (Hfp1 & Hst1 & Hc1); [done..|by apply Hap|].
  assert (Hap1 : ∀ x, x ∈ owned s1 d → x ∉ owned s1 p).
  { intros x. unfold owned, used. rewrite <- !(geo_nblocks s s1 sg). apply Hap. }
  destruct (relink s1 d _ p n Hv1 Hfd1 Hd1 Hfp1 Hst1 Hn Hap1) as (s' & p' & Hrun & Hv' & Hfd' & Hd' & Hfp' & Hst' & Hl & Hi & Hc' & sg' & Hap').
  exists s', p'. split; [exact Hrun|]. split; [|split; [done|split; [done|split; [congruence|]]]].
  - constructor; try done; [by rewrite Hi|]. intros x. unfold owned at 1, used. rewrite <- !(geo_nblocks s1 s' sg'). apply Hap'.
  - unfold block_len. by rewrite <- (sg_size _ _ sg').
Qed.

(** * Adding and removing a name *)

(** The two calls, when the search has found its record. *)
Lemma map_blocks s d : file_ok st s d → or_halt (if decide (nblocks s d <= length (block d))%nat then Some (take (nblocks s d) (block d)) else None) = Ret (used s d).
Proof. intros Hf. rewrite decide_True by apply (f_map _ _ _ Hf). done. Qed.

Lemma link_run s d p ess name b rw o : linkable s d p ess → find_free_block s (Z.of_nat (length name)) (used s d) = Ret (Some (b, rw, o)) →
  e2_inode_link st behind dirent_type s d name p true =
    ('(s', p') <~ (s1 <~ e2_write_block s b (fill_entry dirent_type (split_entry rw o (Z.of_nat (length name))) o (i_ino p) name (i_mode p)) ;;
                   e2_inode_flush st behind s1 (with_idirty (set_links p (u16 (i_links_count p + 1))) true) true) ;;
     Ret (s', d, p', Ok tt)).
Proof.
  intros [Hv Hfd Hd Hc Hfp Hst Hne Hap] Hr. unfold e2_inode_link, spin_lock, e2_link_place.
  rewrite (di_type _ _ _ Hd), (f_lock _ _ _ Hfd). cbn [Z.eqb obind].
  change (i_ino (with_ilock ?q 1)) with (i_ino q). rewrite (proj2 (Z.eqb_neq _ _) Hne), (f_lock _ _ _ Hfp). cbn [Z.eqb obind].
  change (nblocks s (with_ilock d 1)) with (nblocks s d). change (block (with_ilock d 1)) with (block d).
  rewrite (map_blocks s d Hfd). cbn [obind]. rewrite Hr. cbn [obind].
  rewrite lock_unlock_links, lock_unlock by apply Hfp || apply Hfd. destruct (e2_write_block _ _ _) as [s1| |]; cbn [obind]; [|done..].
  change (i_links_count (with_ilock p 1)) with (i_links_count p).
  destruct (e2_inode_flush _ _ _ _ _) as [[s' p']| |]; cbn [obind]; [|done..]. rewrite flush_clean by done. done.
Qed.

Lemma unlink_run s d p ess name b rw o : linkable s d p ess → find_linked_block s name (used s d) = Ret (Some (b, rw, o)) →
  e2_inode_unlink st behind s d name p true =
    ('(s', p') <~ (s1 <~ e2_write_block s b (set_ent_inode rw o 0) ;;
                   e2_inode_flush st behind s1 (with_idirty (set_links p (u16 (i_links_count p - 1))) true) true) ;;
     Ret (s', d, p', Ok tt)).
Proof.
  intros [Hv Hfd Hd Hc Hfp Hst Hne Hap] Hr. unfold e2_inode_unlink, spin_lock.
  rewrite (f_lock _ _ _ Hfd). cbn [Z.eqb obind].
  change (nblocks s (with_ilock d 1)) with (nblocks s d). change (block (with_ilock d 1)) with (block d).
  rewrite (map_blocks s d Hfd). cbn [obind]. rewrite Hr. cbn [obind].
  destruct (e2_write_block _ _ _) as [s1| |]; cbn [obind]; [|done..].
  change (i_ino (with_ilock ?q 1)) with (i_ino q). rewrite (proj2 (Z.eqb_neq _ _) Hne), (f_lock _ _ _ Hfp). cbn [Z.eqb obind].
  replace (with_ilock (with_idirty (set_links p (u16 (i_links_count p - 1))) true) (spin_unlock 1))
    with (with_idirty (set_links p (u16 (i_links_count p - 1))) true)
    by (pose proof (f_lock _ _ _ Hfp); destruct p; cbn in *; by subst).
  rewrite lock_unlock by apply Hfd.
  destruct (e2_inode_flush _ _ _ _ _) as [[s' p']| |]; cbn [obind]; [|done..]. rewrite flush_clean by done. done.
Qed.

Lemma link_length rw o len ino name mode : length (fill_entry dirent_type (split_entry rw o len) o ino name mode) = length rw.
Proof. unfold fill_entry, split_entry, set_ent_inode, set_ent_rec_len. rewrite !length_inserts. case_if; by rewrite ?length_inserts. Qed.

(** Looking names up before and after the records of a block changed. *)
Lemma lookup_changed s d p ess s' p' ess' n rw : linkable s d p ess → linkable s' d p' ess' → block_len s' = block_len s →
  dir_find (concat ess') n = dir_find (concat ess) n → length rw = block_len s →
  e2_inode_lookup st behind iget s' d n rw = e2_inode_lookup st behind iget s d n rw.
Proof.
  intros [Hv Hfd Hd _ _ _ _ _] [Hv' Hfd' Hd' _ _ _ _ _] Hbl Hfind Hrw.
  rewrite (e2_lookup_run s' d ess') by (done || congruence). rewrite (e2_lookup_run s d ess) by done. unfold lookup_result. by rewrite Hfind.
Qed.

Lemma u16_range n : 0 <= u16 n < 65536.
Proof. apply Z.mod_pos_bound. lia. Qed.

Lemma ino_range s p : vol_ok st s → file_ok st s p → 0 < i_ino p < 4294967296.
Proof.
  intros Hv Hf. destruct (f_ino _ _ _ Hf) as [[H1 H2] _]. destruct (mt_inodes _ _ (v_mounted _ _ Hv)) as [E _].
  destruct (mt_image _ _ (v_mounted _ _ Hv)) as [_ Hb]. pose proof (rd32_range (super_image st) 0 Hb). unfold EXT2_BAD_INO in *. lia.
Qed.

(** C9: [e2_inode_link] gives an inode a name in a directory with a long
    enough unused record: the call succeeds, looking the name up finds the
    inode and every other name still has the result it had, the link count on
    the disk is one more, the file keeps its bytes and the volume stays
    consistent.  The record must be longer than the name, because the code
    also stores the zero behind it; the inode is not that of the directory
    itself, for which the code waits for its own lock. *)
Theorem e2_link_lookup s d p ess name :
  linkable s d p ess → Z.of_nat (length name) < 256 → Forall byte_ok name → byte_ok (dirent_type (file_type (i_mode p))) →
  dir_find (concat ess) name = None →
  Exists (λ e, is_free (Z.of_nat (length name)) e = true) (concat ess) →
  Forall (λ e, is_free (Z.of_nat (length name)) e = true → 8 + Z.of_nat (length name) < Z.of_nat (de_rec e)) (concat ess) →
  ∃ s' p' ess', e2_inode_link st behind dirent_type s d name p true = Ret (s', d, p', Ok tt)
    ∧ linkable s' d p' ess'
    ∧ (∀ rw, length rw = block_len s → e2_inode_lookup st behind iget s' d name rw = Ret (if iget (i_ino p) then Ok (i_ino p) else Err EIO))
    ∧ (∀ rw n, n ≠ name → length rw = block_len s →
         e2_inode_lookup st behind iget s' d n rw = e2_inode_lookup st behind iget s d n rw)
    ∧ i_links_count p' = u16 (i_links_count p + 1) ∧ i_ino p' = i_ino p ∧ content s' p' = content s p.
Proof.
  intros Hlk Hlen Hname Htype Hnone Hsome Hfit. pose proof Hlk as [Hv Hfd Hd Hc Hfp Hst Hne Hap].
  destruct (find_free_block_spec s d ess (Z.of_nat (length name)) Hv Hfd Hd) as (r & Hr & Hloc).
  destruct r as [[[b buf] o]|]; cbn [located] in Hloc.
  2: { exfalso. apply Exists_exists in Hsome as (x & Hx & Hfx). rewrite (proj1 (Forall_forall _ _) Hloc x Hx) in Hfx. done. }
  destruct Hloc as (k & a & e & c & Hb & Hk & -> & -> & Hfree & _).
  destruct (Forall2_lookup_lr _ _ _ _ _ _ (di_blocks _ _ _ Hd) Hb Hk) as [_ Hok]. pose proof Hok as Hok'.
  apply Forall_app in Hok' as [Hoka Hok']. apply Forall_cons in Hok' as [Hoke Hokc].
  destruct (link_entry dirent_type (i_ino p) (i_mode p) name a e c) as (e1 & rest & Hbytes & Hok1 & Hi1 & Hn1 & Hrest); try done.
  { apply (proj1 (Forall_forall _ _) Hfit e); [|done]. destruct (concat_put k _ [] ess Hk) as [-> _]. set_solver. }
  { by apply (ino_range s). }
  set (es' := a ++ (e1 :: rest) ++ c) in *.
  destruct (rewrite_records s d p ess k b es' (u16 (i_links_count p + 1)) Hlk Hb) as (s' & p' & Hrun & Hlk' & Hl & Hi & Hcont & Hbl).
  { rewrite <- Hbytes, link_length. by apply (dir_bytes_len s d ess k). }
  { subst es'. apply Forall_app; split; [done|]. apply Forall_app; split; [|done]. constructor; [done|]. eapply Forall_impl; [exact Hrest|]. by intros x []. }
  { apply u16_range. }
  destruct (concat_put k _ es' ess Hk) as [Hcc Hcc'].
  set (A := concat (take k ess) ++ a). set (B := c ++ concat (drop (S k) ess)).
  assert (E1 : concat ess = A ++ e :: B) by (rewrite Hcc; unfold A, B; by rewrite <- !app_assoc).
  assert (E2 : concat (<[k := es']> ess) = A ++ (e1 :: rest) ++ B) by (rewrite Hcc'; unfold es', A, B; by rewrite <- !app_assoc).
  assert (Hi0 : de_inode e1 ≠ 0) by (pose proof (ino_range s p Hv Hfp); lia).
  assert (He0 : de_inode e = 0) by (unfold is_free in Hfree; zbool; lia).
  exists s', p', (<[k := es']> ess). split; [|split; [done|split; [|split]]].
  - rewrite (link_run s d p ess name _ _ _ Hlk Hr), Hbytes, Hrun. done.
  - intros rw Hrw. rewrite (e2_lookup_run s' d (<[k := es']> ess)) by (apply Hlk' || congruence). unfold lookup_result.
    rewrite E1 in Hnone. rewrite E2. change (e :: B) with ([e] ++ B) in Hnone. rewrite dir_find_app in *. destruct (dir_find A name); [done|].
    rewrite dir_find_app, (entry_find e1 rest name Hi0 Hrest), Hn1, decide_True by done. by rewrite Hi1.
  - intros rw n Hn Hrw. apply (lookup_changed s d p ess s' p' (<[k := es']> ess)); try done. rewrite E1, E2. apply dir_find_replace.
    rewrite (entry_find e1 rest n Hi0 Hrest), Hn1, decide_False by done. by rewrite dir_find_unused.
  - done.
Qed.

(** C10: [e2_inode_unlink] takes away the name of an inode: the call succeeds,
    looking the name up then finds nothing and every other name still has the
    result it had, the link count on the disk is one less, the file keeps its
    bytes and the volume stays consistent.  The name occurs once in the
    directory, and the inode is not that of the directory itself. *)
Theorem e2_unlink_lookup s d p ess name :
  linkable s d p ess → dir_find (concat ess) name = Some (i_ino p) → length (filter (λ e, is_entry name e = true) (concat ess)) = 1%nat →
  ∃ s' p' ess', e2_inode_unlink st behind s d name p true = Ret (s', d, p', Ok tt)
    ∧ linkable s' d p' ess'
    ∧ (∀ rw, length rw = block_len s → e2_inode_lookup st behind iget s' d name rw = Ret (Err ENOENT))
    ∧ (∀ rw n, n ≠ name → length rw = block_len s →
         e2_inode_lookup st behind iget s' d n rw = e2_inode_lookup st behind iget s d n rw)
    ∧ i_links_count p' = u16 (i_links_count p - 1) ∧ i_ino p' = i_ino p ∧ content s' p' = content s p.
Proof.
  intros Hlk Hsome Hone. pose proof Hlk as [Hv Hfd Hd Hc Hfp Hst Hne Hap].
  destruct (find_linked_block_spec s d ess name Hv Hfd Hd) as (r & Hr & Hloc).
  destruct r as [[[b buf] o]|]; cbn [located] in Hloc; [|by rewrite dir_find_none in Hsome].
  destruct Hloc as (k & a & e & c & Hb & Hk & -> & -> & Hent & Hpre).
  destruct (Forall2_lookup_lr _ _ _ _ _ _ (di_blocks _ _ _ Hd) Hb Hk) as [_ Hok]. pose proof Hok as Hok'.
  apply Forall_app in Hok' as [Hoka Hok']. apply Forall_cons in Hok' as [Hoke Hokc].
  set (e0 := mk_dent 0 (de_body e)). set (es' := a ++ e0 :: c).
  destruct (rewrite_records s d p ess k b es' (u16 (i_links_count p - 1)) Hlk Hb) as (s' & p' & Hrun & Hlk' & Hl & Hi & Hcont & Hbl).
  { unfold es', e0. rewrite <- clear_entry. unfold set_ent_inode. rewrite length_inserts. by apply (dir_bytes_len s d ess k). }
  { apply Forall_app; split; [done|]. constructor; [by apply clear_entry_ok|done]. }
  { apply u16_range. }
  destruct (concat_put k _ es' ess Hk) as [Hcc Hcc'].
  set (A := concat (take k ess) ++ a) in *. set (B := c ++ concat (drop (S k) ess)).
  assert (E1 : concat ess = A ++ e :: B) by (rewrite Hcc; unfold A, B; by rewrite <- !app_assoc).
  assert (E2 : concat (<[k := es']> ess) = A ++ e0 :: B) by (rewrite Hcc'; unfold es', A, B; by rewrite <- !app_assoc).
  exists s', p', (<[k := es']> ess). split; [|split; [done|split; [|split]]].
  - rewrite (unlink_run s d p ess name _ _ _ Hlk Hr), clear_entry. fold e0 es'. by rewrite Hrun.
  - intros rw Hrw. rewrite (e2_lookup_run s' d (<[k := es']> ess)) by (apply Hlk' || congruence). unfold lookup_result.
    rewrite E2, dir_find_app, (dir_find_none A), dir_find_unused by done. rewrite dir_find_none; [done|].
    rewrite E1, filter_app, filter_cons_True in Hone by done. rewrite length_app in Hone. cbn [length] in Hone.
    assert (filter (λ e, is_entry name e = true) B = []) as HB by (apply length_zero_iff_nil; lia).
    apply Forall_forall. intros x Hx. destruct (is_entry name x) eqn:E; [|done]. exfalso.
    apply (not_elem_of_nil x). rewrite <- HB. by apply list_elem_of_filter.
  - intros rw n Hn Hrw. apply (lookup_changed s d p ess s' p' (<[k := es']> ess)); try done. rewrite E1, E2.
    apply (dir_find_replace A e [e0]). rewrite (dir_find_unused e0) by done. cbn [dir_find]. unfold is_entry in *.
    destruct (bool_decide_reflect (de_name e = name)) as [En|]; [|by rewrite andb_false_r in Hent].
    rewrite bool_decide_eq_false_2 by congruence. by rewrite andb_false_r.
  - done.
Qed.
End DirOps.
