(* ===== verification/E2Readdir.v ===== *)
(** Open ext2 files: [src/kernel/src/ext2fs/file.c].

    An open file is its inode and its position; [file_flush] writes the inode
    ([e2_inode_flush] is the [flush] operation of the driver).  The loop of
    [e2_file_readdir] takes fuel; it runs out of it on a record of length 0. *)

From S2P Require Import Prelude Bytes E2Alloc E2Super E2Inode E2File E2Volume E2Flush E2Write E2Dir E2DirSpec E2DirOps.

(** [struct dirent] *)
Record dirent := mk_dirent { d_ino : Z; d_type : Z; d_name : list Z }.

(** [strncpy(d_name, name, n)] followed by the final zero, without it: the
    characters up to the first zero, and zeros up to the length. *)
Fixpoint strncpy (l : list Z) : list Z :=
  match l with
  | [] => []
  | c :: l => if c =? 0 then replicate (S (length l)) 0 else c :: strncpy l
  end.

Definition ent_type (buf : list Z) (o : nat) : Z := buf !!! (o + 7)%nat.

Section FileOps.
Context (st : e2_static) (behind : nat → Z).

Definition e2_file_open : result unit := Ok tt.

Definition e2_file_close (s : e2fs) (p : e2_inode_private) (memory : bool) : outcome (e2fs * e2_inode_private * result unit) :=
  '(s, p) <~ e2_inode_flush st behind s p memory ;;
  Ret (s, p, Ok tt).

(** The new position, the number of bytes and the buffer.  The code returns
    early when the count is negative, as a count of more than 2 GiB is. *)
Definition e2_file_rw (cmd : e2_cmd) (s : e2fs) (p : e2_inode_private) (off count : Z) (buffer : list Z) (memory : bool) :
    outcome (e2fs * e2_inode_private * Z * Z * list Z) :=
  '(s, p, n, buffer) <~ e2_inode_io st behind s p cmd off count buffer memory ;;
  if 2147483648 <=? n then Ret (s, p, off, n - 4294967296, buffer)
  else
    '(s, p) <~ e2_inode_flush st behind s p memory ;;
    Ret (s, p, u32 (off + n), n, buffer).
Definition e2_file_read := e2_file_rw EXT2_READ.
Definition e2_file_write := e2_file_rw EXT2_WRITE.

(** The entries read so far are [out], the last first; [tmp] is the buffer on
    the stack. *)
Fixpoint readdir_loop (fuel : nat) (s : e2fs) (p : e2_inode_private) (off : Z) (tmp : list Z) (count : nat) (out : list dirent) :
    outcome (e2fs * e2_inode_private * Z * list dirent) :=
  match fuel, count with
  | _, O => Ret (s, p, off, out)
  | O, _ => OutOfFuel
  | S fuel, S more =>
      '(s, p, n, tmp) <~ e2_inode_io st behind s p EXT2_READ off 264 tmp true ;;
      if n =? 0 then Ret (s, p, off, out)
      else if negb (ent_inode tmp 0 =? 0) then
        let d := mk_dirent (ent_inode tmp 0) (ent_type tmp 0) (strncpy (ent_name tmp 0)) in
        readdir_loop fuel s p (u32 (off + ent_rec_len tmp 0)) tmp more (d :: out)
      else readdir_loop fuel s p (u32 (off + ent_rec_len tmp 0)) tmp count out
  end.

(** The entries and the new position; the call returns their number. *)
Definition e2_file_readdir (fuel : nat) (s : e2fs) (p : e2_inode_private) (off : Z) (count : nat) (memory : bool) :
    outcome (e2fs * e2_inode_private * Z * list dirent) :=
  '(s, p, off, out) <~ readdir_loop fuel s p off (replicate 264 0) count [] ;;
  '(s, p) <~ e2_inode_flush st behind s p memory ;;
  Ret (s, p, off, rev out).

(** * Specification *)

(** The next [count] records in use, and the records behind the last of
    them. *)
Fixpoint next_entries (es : list dent) (count : nat) : list dirent * list dent :=
  match count, es with
  | O, _ => ([], es)
  | _, [] => ([], [])
  | S more, e :: es =>
      if de_inode e =? 0 then next_entries es count
      else let '(l, rest) := next_entries es more in (mk_dirent (de_inode e) (de_body e !!! 1%nat) (de_name e) :: l, rest)
  end.

Definition plain_name (e : dent) : Prop := de_inode e ≠ 0 → Forall (λ c, c ≠ 0) (de_name e).

Lemma strncpy_plain l : Forall (λ c, c ≠ 0) l → strncpy l = l.
Proof. induction 1 as [|c l Hc _ IH]; [done|]. cbn [strncpy]. rewrite (proj2 (Z.eqb_neq _ _) Hc). by f_equal. Qed.

(** The bytes of a directory are its records. *)
Lemma dir_content s p ess : vol_ok st s → file_ok st s p → dir_ok s p ess →
  content s p = dir_bytes (concat ess) ∧ i_size p = Z.of_nat (length (dir_bytes (concat ess))).
Proof.
  intros Hv Hf Hd. assert (E : data_of s (used s p) = dir_bytes (concat ess)).
  { unfold data_of. generalize (di_blocks _ _ _ Hd). clear. induction 1 as [|b es l ess [E _] _ IH]; [done|].
    rewrite fmap_cons. cbn [concat]. by rewrite dir_bytes_app, E, IH. }
  destruct (used_ok st s p Hv Hf) as [Hu Hl]. pose proof (di_size _ _ _ Hd) as Hsz.
  assert (Hlen : length (data_of s (used s p)) = (length (used s p) * block_len s)%nat) by (by apply data_of_length).
  assert (i_size p = Z.of_nat (length (data_of s (used s p)))) as Hn.
  { rewrite Hlen, Hl, Hsz. unfold block_len. destruct (vol_mod4 st s Hv) as (_ & ? & _). nia. }
  rewrite <- E. split; [|done]. unfold content. apply take_ge. lia.
Qed.

(** * The record in the buffer *)

Section Buffer.
Context (pre : list dent) (e : dent) (post : list dent) (tmp : list Z).
Local Notation buf := (dir_bytes (pre ++ e :: post)).
Local Notation o := (length (dir_bytes pre)).
Hypothesis He : dent_ok e.
Hypothesis Htmp : ∀ i, (i < Nat.min 264 (de_rec e))%nat → tmp !! i = buf !! (o + i)%nat.

Lemma tmp_inode : ent_inode tmp 0 = de_inode e.
Proof.
  rewrite <- (ent_inode_at pre e post He). unfold ent_inode. apply rd32_lookup. intros k Hk. change (Z.to_nat (4 * 0)) with 0%nat.
  rewrite !lookup_drop. apply Htmp. pose proof (dent_rec_min e He). lia.
Qed.

Lemma tmp_rec_len : ent_rec_len tmp 0 = Z.of_nat (de_rec e).
Proof.
  rewrite <- (ent_rec_len_at pre e post He). unfold ent_rec_len. apply rd16_lookup. intros k Hk.
  rewrite <- (Nat.add_assoc o 4 k). apply (Htmp (4 + k)). pose proof (dent_rec_min e He). lia.
Qed.

Lemma tmp_byte i : (i < 2)%nat → tmp !!! (6 + i)%nat = de_body e !!! i.
Proof.
  intros Hi. rewrite !list_lookup_total_alt. f_equal. destruct (d_len e He). pose proof (dent_rec_min e He).
  rewrite <- (body_lookup pre e post i) by lia. rewrite Htmp by lia. f_equal. lia.
Qed.

Lemma tmp_name : de_inode e ≠ 0 → ent_name tmp 0 = de_name e.
Proof.
  intros Hne. pose proof (E2DirSpec.d_name e He Hne) as Hn. assert (Hb : 0 <= de_body e !!! 0%nat < 256).
  { rewrite list_lookup_total_alt. destruct (de_body e !! 0%nat) as [x|] eqn:E; [|done]. apply (Forall_lookup_1 _ _ _ _ (d_bytes e He) E). }
  rewrite <- (ent_name_at pre e post He Hne). unfold ent_name.
  replace (ent_name_len tmp 0) with (de_body e !!! 0%nat) by (symmetry; apply (tmp_byte 0); lia).
  rewrite (ent_name_len_at pre e post He). apply list_eq. intros i. rewrite !slice_lookup. case_decide; [|done].
  rewrite Htmp; [f_equal; lia|]. unfold de_rec. lia.
Qed.
End Buffer.

(** * The loop *)

Lemma readdir_loop_spec s p ess : vol_ok st s → file_ok st s p → dir_ok s p ess → Forall dent_ok (concat ess) → Forall plain_name (concat ess) →
  i_size p + 264 < 4294967296 →
  ∀ es fuel pre tmp count out, concat ess = pre ++ es → (length es < fuel)%nat → length tmp = 264%nat →
  readdir_loop fuel s p (Z.of_nat (length (dir_bytes pre))) tmp count out
  = Ret (s, p, Z.of_nat (length (dir_bytes (concat ess)) - length (dir_bytes (next_entries es count).2)), rev (next_entries es count).1 ++ out).
Proof.
  intros Hv Hf Hd Hok Hpl Hsz. destruct (dir_content s p ess Hv Hf Hd) as [Hc Hs].
  intros es. induction es as [|e es IH]; intros fuel pre tmp count out Hcc Hfu Htl;
    assert (Hle : Z.of_nat (length (dir_bytes pre)) <= i_size p) by (rewrite Hs, Hcc, dir_bytes_app, length_app; lia).
  { rewrite app_nil_r in Hcc. destruct fuel as [|fuel]; [simpl in Hfu; lia|]. destruct count as [|more]; cbn [readdir_loop next_entries fst snd].
    - rewrite Hcc. change (dir_bytes []) with (@nil Z). cbn [length rev app]. do 3 f_equal. lia.
    - rewrite e2_read_run by (done || lia). cbv zeta. rewrite (proj2 (Z.leb_le _ _)) by (rewrite Hs, Hcc; lia). cbn [obind Z.eqb].
      rewrite Hcc. change (dir_bytes []) with (@nil Z). cbn [length rev app]. do 3 f_equal. lia. }
  destruct fuel as [|fuel]; [simpl in Hfu; lia|]. destruct count as [|more].
  { cbn [readdir_loop next_entries fst snd rev app]. rewrite Hcc, dir_bytes_app, length_app. do 3 f_equal. lia. }
  assert (He : dent_ok e) by (rewrite Hcc in Hok; apply Forall_app in Hok as [_ H]; by apply Forall_cons in H as [? _]).
  assert (Hpe : plain_name e) by (rewrite Hcc in Hpl; apply Forall_app in Hpl as [_ H]; by apply Forall_cons in H as [? _]).
  assert (Hrem : (length (dir_bytes (concat ess)) = length (dir_bytes pre) + de_rec e + length (dir_bytes es))%nat).
  { rewrite Hcc, dir_bytes_app, dir_bytes_cons, !length_app, dent_bytes_length. lia. }
  pose proof (dent_rec_min e He) as Hmin. cbn [readdir_loop].
  rewrite e2_read_run by (done || lia). cbv zeta. rewrite (proj2 (Z.leb_gt _ _)) by lia. cbn [obind].
  rewrite (proj2 (Z.eqb_neq _ _)) by lia. set (n := Z.to_nat (Z.min 264 (i_size p - Z.of_nat (length (dir_bytes pre))))).
  rewrite Nat2Z.id. set (tmp' := list_inserts _ _ tmp).
  assert (Htl' : length tmp' = 264%nat) by (unfold tmp'; by rewrite length_inserts).
  assert (Htmp : ∀ i, (i < Nat.min 264 (de_rec e))%nat → tmp' !! i = dir_bytes (pre ++ e :: es) !! (length (dir_bytes pre) + i)%nat).
  { intros i Hi. unfold tmp'. rewrite inserts_lookup, Hc, Hcc. rewrite Hcc in Hrem, Hs. unfold n in *.
    rewrite decide_True; [rewrite Nat.sub_0_r, slice_lookup, decide_True by lia; done|]. rewrite slice_length; lia. }
  assert (Hnext : u32 (Z.of_nat (length (dir_bytes pre)) + ent_rec_len tmp' 0) = Z.of_nat (length (dir_bytes (pre ++ [e])))).
  { rewrite (tmp_rec_len pre e es tmp' He Htmp), dir_bytes_app, length_app. change (dir_bytes [e]) with (dent_bytes e ++ []).
    rewrite app_nil_r, dent_bytes_length, u32_small by lia. lia. }
  rewrite Hnext, (tmp_inode pre e es tmp' He Htmp). cbn [next_entries length] in *.
  destruct (Z.eqb_spec (de_inode e) 0) as [E0|E0]; cbn [negb].
  - apply IH; [by rewrite <- app_assoc|lia|done].
  - rewrite (tmp_name pre e es tmp' He Htmp E0), strncpy_plain by (by apply Hpe).
    assert (ent_type tmp' 0 = de_body e !!! 1%nat) as -> by (apply (tmp_byte pre e es tmp' He Htmp 1); lia).
    rewrite IH; [|by rewrite <- app_assoc|lia|done]. destruct (next_entries es more) as [l rest]. cbn [fst snd rev]. by rewrite <- app_assoc.
Qed.

(** C27: reading a directory refines walking the list of its records:
    [e2_file_readdir] at the position of any record returns the next [count]
    records in use (fewer at the end of the directory) with their inode, type
    and name, in order and without the unused ones, and leaves the position
    behind the last of them, so that the next call goes on there. *)
Theorem e2_readdir_refines s p ess pre es count fuel :
  vol_ok st s → file_ok st s p → dir_ok s p ess → idirty p = false → Forall plain_name (concat ess) → i_size p + 264 < 4294967296 →
  concat ess = pre ++ es → (length es < fuel)%nat →
  ∃ off', e2_file_readdir fuel s p (Z.of_nat (length (dir_bytes pre))) count true = Ret (s, p, off', (next_entries es count).1)
    ∧ off' + Z.of_nat (length (dir_bytes (next_entries es count).2)) = i_size p.
Proof.
  intros Hv Hf Hd Hcl Hpl Hsz Hcc Hfu. assert (Hok : Forall dent_ok (concat ess)).
  { generalize (di_blocks _ _ _ Hd). clear. induction 1 as [|b es l ess [_ H] _ IH]; [constructor|]. cbn [concat]. by apply Forall_app. }
  unfold e2_file_readdir. rewrite (readdir_loop_spec s p ess Hv Hf Hd Hok Hpl Hsz es) by done. cbn [obind].
  rewrite flush_clean by done. cbn [obind]. rewrite app_nil_r, rev_involutive. eexists. split; [done|].
  destruct (dir_content s p ess Hv Hf Hd) as [_ ->].
  assert (length (dir_bytes (next_entries es count).2) <= length (dir_bytes es))%nat; [|rewrite Hcc, dir_bytes_app, length_app; lia].
  clear. revert count. induction es as [|e es IH]; intros [|more]; cbn [next_entries snd]; try lia. rewrite dir_bytes_cons, length_app.
  case_if; [specialize (IH (S more)); lia|]. specialize (IH more). destruct (next_entries es more). cbn [snd] in *. lia.
Qed.
End FileOps.
