(* ===== verification/E2Demo.v ===== *)
(** A small ext2 volume: witnesses of the theorems on files and directories,
    and faults of the driver shown on it. *)

From S2P Require Import Prelude Bytes E2Alloc E2Super E2Inode E2File E2Volume E2Flush E2Write E2Dir E2DirSpec E2DirOps.

(** One group of 24 blocks of 1024 bytes with eight inodes of 128 bytes:
    superblock in block 1, group table in 2, bitmaps in 3 and 4, inodes in 5;
    block 6 holds the file of inode 3, the file of inode 4 is empty, block 7
    holds the directory of inode 5. *)
Definition super_of (free : Z) : list Z :=
  let w := wr32 (wr32 (wr32 (wr32 (wr32 (replicate 268 0) 0 8) 1 24) 3 free) 4 3) 8 24 in
  wr16 (wr16 (wr32 w 10 8) 56 61267) 88 128.
Definition table_of (free : Z) : list Z :=
  wr16 (wr16 (wr32 (wr32 (wr32 (replicate 32 0) 0 3) 1 4) 2 5) 12 free) 14 3.

(** An inode with one name, of [size] bytes in [n] blocks, the first of which
    is [first]. *)
Definition inode_as (mode size n first : Z) : list Z :=
  wr32 (wr32 (wr32 (wr16 (wr16 (replicate 128 0) 0 mode) 26 1) 1 size) 7 (2 * n)) 10 first.
Definition inode_of : Z → Z → Z → list Z := inode_as 33188.

(** A record of [n] bytes. *)
Definition record (ino n : Z) (name : list Z) : dent :=
  mk_dent ino (Z.of_nat (length name) :: 1 :: name ++ replicate (Z.to_nat n - 8 - length name) 0).

(** The disk, block by block; [inodes] is the first byte of the inode bitmap. *)
Definition pad (l : list Z) : list Z := l ++ replicate (Z.to_nat 1024 - length l) 0.
Definition disk_of (free : Z) (bitmap : list Z) (inodes : Z) (text : list Z) (size : Z) (dir : list dent) : list Z :=
  pad [] ++ pad (super_of free) ++ pad (table_of free) ++ pad bitmap ++ pad [inodes]
  ++ pad (replicate 256 0 ++ inode_of size 1 6 ++ inode_of 0 0 0 ++ inode_as 16877 1024 1 7)
  ++ pad text ++ pad (dir_bytes dir) ++ replicate (Z.to_nat 16384) 0.

Definition hello : list Z := [104; 101; 108; 108; 111].
Definition name_a : list Z := [97].
Definition name_b : list Z := [98].
Definition records : list dent := [record 3 12 name_a; record 0 1012 []].
Definition disk : list Z := disk_of 16 [255; 0; 0] 31 hello 5 records.

Definition vol_of (free : Z) (d : list Z) : e2fs := mk_e2fs 24 free 3 24 8 1024 [mk_bg 3 4 5 free 3] false 0 d.
Definition vol_st (free : Z) : e2_static := mk_static 8 128 (super_of free) (table_of free).

(** The volume is what mounting the disk gives. *)
Definition without_dev (m : option (e2_static * e2fs)) : option (e2_static * e2fs) := (λ '(st, s), (st, with_dev s [])) <$> m.

Lemma disk_mounts : without_dev (mount_of disk) = Some (vol_st 16, vol_of 16 []).
Proof. vm_compute. reflexivity. Qed.

Lemma pad_length l : (length l <=? Z.to_nat 1024)%nat = true → length (pad l) = Z.to_nat 1024.
Proof. intros H%Nat.leb_le. unfold pad. rewrite length_app, length_replicate. lia. Qed.

Lemma disk_length : length disk = Z.to_nat 24576.
Proof. unfold disk, disk_of. rewrite !length_app, !pad_length, length_replicate by (vm_compute; reflexivity). lia. Qed.

Lemma disk_bytes : Forall byte_ok disk.
Proof. apply bytes_compute. vm_compute. reflexivity. Qed.

Lemma demo_mounted_ok : mounted (vol_st 16) (vol_of 16 disk).
Proof.
  constructor.
  - split; [vm_compute; reflexivity|apply bytes_compute; vm_compute; reflexivity].
  - vm_compute. reflexivity.
  - vm_compute. split; reflexivity.
  - vm_compute. reflexivity.
  - vm_compute. split; reflexivity.
  - vm_compute. reflexivity.
  - vm_compute. split; reflexivity.
  - split; [vm_compute; reflexivity|]. split; [vm_compute; reflexivity|]. apply bytes_compute. vm_compute. reflexivity.
  - intros [|j] g Hg; cbn in Hg; [injection Hg as <-|done]; vm_compute; repeat split; (reflexivity || discriminate).
  - vm_compute. repeat split; (reflexivity || discriminate).
  - cbn [dev vol_of]. rewrite disk_length. vm_compute. split; discriminate.
Qed.

Lemma demo_e2_ok : e2_ok (vol_of 16 disk).
Proof.
  constructor.
  - constructor; unfold EXT2_BGCOUNT; cbn [vol_of s_blocksize s_blocks_per_group s_blocks_count bgtable dev]; rewrite ?disk_length.
    + split; [lia|reflexivity].
    + lia.
    + lia.
    + reflexivity.
    + lia.
    + exact disk_bytes.
    + apply Forall_cons. split; [cbn [bg_block_bitmap]; lia|apply Forall_nil_2].
    + apply NoDup_singleton.
  - reflexivity.
  - apply Forall_cons. split; [vm_compute; reflexivity|apply Forall_nil_2].
  - vm_compute. reflexivity.
Qed.

Lemma demo_block_pos b : 0 <= b < 24 → block_pos (vol_of 16 disk) b = (Z.to_nat b * Z.to_nat 1024)%nat.
Proof. intros H. unfold block_pos. cbn [s_blocksize vol_of]. rewrite u32_small by lia. lia. Qed.

(** Places on this volume. *)
Lemma demo_layout : layout (vol_of 16 disk) = [(3, 4, 5)].
Proof. done. Qed.

Lemma demo_fixed q : fixed (vol_st 16) (vol_of 16 disk) q → (q < Z.to_nat 3072 ∨ Z.to_nat 4096 <= q < Z.to_nat 6144)%nat.
Proof.
  unfold fixed, in_super, in_table, in_itable, in_block. rewrite demo_layout. cbn [vol_of vol_st s_blocksize s_inodes_per_group s_inode_size].
  intros [H|[H|(bb & ib & it & Hin & H)]].
  - lia.
  - assert (length (table_image (vol_st 16)) = 32%nat) as E by (vm_compute; reflexivity).
    change (table_image (mk_static 8 128 (super_of 16) (table_of 16))) with (table_image (vol_st 16)) in H. rewrite E in H.
    change (table_pos 1024) with 2048 in H. lia.
  - apply list_elem_of_singleton in Hin as [= -> -> ->]. fold (vol_of 16 disk) in H. rewrite demo_block_pos in H by lia.
    change (block_len (vol_of 16 disk)) with (Z.to_nat 1024) in H. lia.
Qed.

Lemma demo_bitmaps q : bitmaps (vol_of 16 disk) q → (Z.to_nat 3072 <= q < Z.to_nat 4096)%nat.
Proof.
  unfold bitmaps, in_block. rewrite demo_layout. intros (bb & ib & it & Hin & H). apply list_elem_of_singleton in Hin as [= -> -> ->].
  rewrite demo_block_pos in H by lia. change (block_len (vol_of 16 disk)) with (Z.to_nat 1024) in H. lia.
Qed.

Lemma demo_data_block b : 6 <= b < 24 → data_block (vol_st 16) (vol_of 16 disk) b.
Proof.
  intros Hb. split.
  - split; [lia|]. cbn [dev vol_of s_blocksize]. rewrite disk_length. lia.
  - unfold in_block. rewrite demo_block_pos by lia. intros q Hq. split; [intros H%demo_fixed|intros H%demo_bitmaps]; lia.
Qed.

Lemma demo_free b : 0 <= b → block_free (vol_of 16 disk) b = true → 8 <= b < 24.
Proof.
  intros Hb Hf. assert (b < 24) as Hlt.
  { destruct (Z.lt_ge_cases b 24) as [|Hge]; [done|]. exfalso. unfold block_free in Hf. 
    rewrite lookup_ge_None_2 in Hf; [done|]. change (s_blocks_per_group (vol_of 16 disk)) with 24.
    change (length (bgtable (vol_of 16 disk))) with 1%nat. assert (1 <= b / 24) by (apply Z.div_le_lower_bound; lia). lia. }
  split; [|done]. destruct (Z.lt_ge_cases b 8) as [Hlt8|]; [|done]. exfalso.
  pose proof (block_free_at (vol_of 16 disk) 0 (mk_bg 3 4 5 16 3) b eq_refl ltac:(cbn; lia)) as E. rewrite Z.mul_0_l, Z.add_0_r in E.
  rewrite E in Hf. assert (Hu : forallb (λ c, negb (bit_clear (bitmap_of (vol_of 16 disk) (mk_bg 3 4 5 16 3)) c)) (seqZ 0 8) = true)
    by (vm_compute; reflexivity).
  rewrite forallb_forall in Hu. specialize (Hu b). rewrite Hf in Hu. discriminate Hu. apply list_elem_of_In, elem_of_seqZ. lia.
Qed.

Lemma demo_vol : vol_ok (vol_st 16) (vol_of 16 disk).
Proof.
  constructor.
  - exact demo_e2_ok.
  - exact demo_mounted_ok.
  - cbn. lia.
  - intros b Hb Hf%demo_free; [|done]. split; [lia|]. apply demo_data_block. lia.
  - intros q H%demo_fixed H'%demo_bitmaps. lia.
  - cbn. lia.
  - intros bb ib it. rewrite demo_layout. intros [= -> -> ->]%list_elem_of_singleton. cbn [vol_of dev s_blocksize s_inodes_per_group vol_st s_inode_size].
    rewrite disk_length. lia.
Qed.

(** The files as they are read. *)
Definition file3 : e2_inode_private := mk_priv 3 (inode_of 5 1 6) [6] false 0.
Definition file4 : e2_inode_private := mk_priv 4 (inode_of 0 0 0) [0] false 0.

Lemma files_read : e2_read_inode (vol_st 16) (vol_of 16 disk) 3 true = Ret (Ok file3)
  ∧ e2_read_inode (vol_st 16) (vol_of 16 disk) 4 true = Ret (Ok file4).
Proof. vm_compute. split; reflexivity. Qed.

Lemma file3_ok : file_ok (vol_st 16) (vol_of 16 disk) file3.
Proof.
  constructor.
  - split; [vm_compute; reflexivity|apply bytes_compute; vm_compute; reflexivity].
  - vm_compute. intros H. repeat (apply elem_of_cons in H as [H|H]; [discriminate H|]). by apply elem_of_nil in H.
  - done.
  - vm_compute. repeat split; (reflexivity || discriminate).
  - vm_compute. split; reflexivity.
  - vm_compute. split; lia.
  - assert (owned (vol_of 16 disk) file3 = [6]) as -> by (vm_compute; reflexivity). split; [|apply NoDup_singleton].
    constructor; [|done]. split; [lia|]. split; [apply demo_data_block; lia|]. vm_compute. reflexivity.
  - vm_compute. discriminate.
Qed.

Lemma file4_ok : file_ok (vol_st 16) (vol_of 16 disk) file4.
Proof.
  constructor.
  - split; [vm_compute; reflexivity|apply bytes_compute; vm_compute; reflexivity].
  - vm_compute. intros H. repeat (apply elem_of_cons in H as [H|H]; [discriminate H|]). by apply elem_of_nil in H.
  - done.
  - vm_compute. repeat split; (reflexivity || discriminate).
  - vm_compute. split; reflexivity.
  - vm_compute. split; lia.
  - assert (owned (vol_of 16 disk) file4 = []) as -> by (vm_compute; reflexivity). split; [done|apply NoDup_nil_2].
  - vm_compute. discriminate.
Qed.

Lemma file4_stored : stored (vol_st 16) (vol_of 16 disk) file4.
Proof.
  split.
  - assert (nblocks (vol_of 16 disk) file4 = 0%nat) as E by (vm_compute; reflexivity). constructor; rewrite E; [lia..|]. intros _. vm_compute. reflexivity.
  - eexists. split; [vm_compute; reflexivity|]. vm_compute. reflexivity.
Qed.

Lemma e2_read_content_witness :
  e2_inode_io (vol_st 16) (λ _, 0) (vol_of 16 disk) file3 EXT2_READ 1 10 (replicate 10 0) true
  = Ret (vol_of 16 disk, file3, 4, [101; 108; 108; 111; 0; 0; 0; 0; 0; 0]).
Proof.
  rewrite (e2_read_content (vol_st 16) (λ _, 0) (vol_of 16 disk) file3 1 10 (replicate 10 0) demo_vol file3_ok) by (cbn; lia).
  assert (i_size file3 = 5) as -> by (vm_compute; reflexivity). cbn [Z.leb Z.compare Pos.compare Pos.compare_cont].
  match goal with |- context [list_inserts 0 ?a ?b] =>
    assert (list_inserts 0 a b = [101; 108; 108; 111; 0; 0; 0; 0; 0; 0]) as -> by (vm_compute; reflexivity) end.
  reflexivity.
Defined.

Lemma e2_write_durable_witness :
  ∃ s' p', e2_inode_io (vol_st 16) (λ _, 0) (vol_of 16 disk) file4 EXT2_WRITE 0 5 hello true = Ret (s', p', 5, hello)
    ∧ vol_ok (vol_st 16) s' ∧ content s' p' = hello
    ∧ ∃ q, e2_read_inode (vol_st 16) s' 4 true = Ret (Ok q) ∧ content s' q = hello.
Proof.
  destruct (e2_write_durable (vol_st 16) (λ _, 0) (vol_of 16 disk) file4 0 hello demo_vol file4_ok file4_stored)
    as (s' & p' & Hrun & Hv & _ & _ & Hc & (q & Hq & Hcq) & _).
  - apply bytes_compute. vm_compute. reflexivity.
  - discriminate.
  - vm_compute. split; discriminate.
  - vm_compute. reflexivity.
  - intros _. vm_compute. repeat split; (reflexivity || discriminate).
  - assert (content s' p' = hello) as E by (rewrite Hc; vm_compute; reflexivity). exists s', p'. split; [exact Hrun|]. split; [exact Hv|].
    split; [exact E|]. exists q. split; [exact Hq|]. rewrite Hcq. exact E.
Defined.

(** * Faults *)

(** A file that fills its only block: [e2_inode_resize] compares the numbers
    of whole blocks, finds them equal and adds none, and the byte appended to
    the file is written through an entry of the map that does not exist. *)
Definition full_disk : list Z := disk_of 16 [255; 0; 0] 31 hello 1024 records.
Definition full_file : e2_inode_private := mk_priv 3 (inode_of 1024 1 6) [6] false 0.

Theorem e2_append_at_boundary_faults :
  i_size full_file = 1024 ∧ nblocks (vol_of 16 full_disk) full_file = 1%nat
  ∧ e2_inode_io (vol_st 16) (λ _, 0) (vol_of 16 full_disk) full_file EXT2_WRITE 1024 1 [65] true = Halt.
Proof. vm_compute. repeat split; reflexivity. Qed.

(** No block is free: the write to the empty file goes to block 0 (which for
    blocks of more than 1024 bytes holds the superblock) and is reported as
    complete. *)
Definition taken_disk : list Z := disk_of 0 [255; 255; 255] 31 hello 5 records.

Definition first_bytes (r : outcome (e2fs * e2_inode_private * Z * list Z)) : option (list Z * Z * Z) :=
  match r with Ret (s, p, n, _) => Some (take 5 (dev s), n, i_size p) | _ => None end.

Theorem e2_full_write_hits_block_zero :
  take 5 (dev (vol_of 0 taken_disk)) = [0; 0; 0; 0; 0]
  ∧ first_bytes (e2_inode_io (vol_st 0) (λ _, 0) (vol_of 0 taken_disk) file4 EXT2_WRITE 0 5 hello true) = Some (hello, 5, 0).
Proof. vm_compute. split; reflexivity. Qed.
