(* ===== verification/E2DirDemo.v ===== *)
(** Names on the small ext2 volume: witnesses of the theorems on directories,
    and faults of the driver. *)

From S2P Require Import Prelude Bytes E2Alloc E2Super E2Inode E2File E2Volume E2Flush E2Write E2Dir E2DirSpec E2DirOps E2Readdir E2Demo.

Definition dir5 : e2_inode_private := mk_priv 5 (inode_as 16877 1024 1 7) [7] false 0.

Lemma dir5_read : e2_read_inode (vol_st 16) (vol_of 16 disk) 5 true = Ret (Ok dir5).
Proof. vm_compute. reflexivity. Qed.

Lemma dir5_file : file_ok (vol_st 16) (vol_of 16 disk) dir5.
Proof.
  constructor.
  - split; [vm_compute; reflexivity|apply bytes_compute; vm_compute; reflexivity].
  - vm_compute. intros H. repeat (apply elem_of_cons in H as [H|H]; [discriminate H|]). by apply elem_of_nil in H.
  - done.
  - vm_compute. repeat split; (reflexivity || discriminate).
  - vm_compute. split; reflexivity.
  - vm_compute. split; lia.
  - assert (owned (vol_of 16 disk) dir5 = [7]) as -> by (vm_compute; reflexivity). split; [|apply NoDup_singleton].
    constructor; [|done]. split; [lia|]. split; [apply demo_data_block; lia|]. vm_compute. reflexivity.
  - vm_compute. discriminate.
Qed.

Lemma record_ok ino n name : 0 <= ino < 4294967296 → n mod 4 = 0 → 8 + Z.of_nat (length name) <= n < 65536 → Z.of_nat (length name) < 256 → Forall byte_ok name →
  dent_ok (record ino n name).
Proof.
  intros Hi Hm Hn Hl Hb. assert (E : de_rec (record ino n name) = Z.to_nat n).
  { unfold de_rec, record. cbn [de_body length]. rewrite length_app, length_replicate. lia. }
  constructor; rewrite ?E, ?Z2Nat.id by lia; [done| |repeat constructor; unfold byte_ok; [lia..|]|done|].
  - unfold record. cbn [de_body length]. lia.
  - apply Forall_app. split; [done|]. by apply Forall_replicate.
  - intros _. unfold record. cbn [de_body length]. rewrite length_app. change ((?x :: ?l) !!! 0%nat) with x. lia.
Qed.

Lemma records_ok : Forall dent_ok records.
Proof.
  apply Forall_cons. split; [apply record_ok; [lia|reflexivity|cbn; lia|cbn; lia|by repeat constructor]|].
  apply Forall_cons. split; [apply record_ok; [lia|reflexivity|cbn; lia|cbn; lia|apply Forall_nil_2]|apply Forall_nil_2].
Qed.

Lemma dir5_dir : dir_ok (vol_of 16 disk) dir5 [records].
Proof.
  constructor; [vm_compute; reflexivity|vm_compute; reflexivity|].
  assert (used (vol_of 16 disk) dir5 = [7]) as -> by (vm_compute; reflexivity). apply Forall2_cons. split; [|apply Forall2_nil_2].
  split; [vm_compute; reflexivity|exact records_ok].
Qed.

Lemma buffer_length : length (replicate (Z.to_nat 1024) 0) = block_len (vol_of 16 disk).
Proof. vm_compute. reflexivity. Qed.

Lemma e2_lookup_refines_witness :
  e2_inode_lookup (vol_st 16) (λ _, 0) (λ _, true) (vol_of 16 disk) dir5 name_a (replicate (Z.to_nat 1024) 0) = Ret (Ok 3)
  ∧ e2_inode_lookup (vol_st 16) (λ _, 0) (λ _, true) (vol_of 16 disk) dir5 name_b (replicate (Z.to_nat 1024) 0) = Ret (Err ENOENT).
Proof.
  split.
  - rewrite (e2_lookup_refines (vol_st 16) (λ _, 0) (λ _, true) (vol_of 16 disk) dir5 [records] name_a _ demo_vol dir5_file dir5_dir buffer_length).
    vm_compute. reflexivity.
  - rewrite (e2_lookup_refines (vol_st 16) (λ _, 0) (λ _, true) (vol_of 16 disk) dir5 [records] name_b _ demo_vol dir5_file dir5_dir buffer_length).
    vm_compute. reflexivity.
Defined.

Lemma file3_stored : stored (vol_st 16) (vol_of 16 disk) file3.
Proof.
  split.
  - assert (nblocks (vol_of 16 disk) file3 = 1%nat) as E by (vm_compute; reflexivity). constructor; rewrite E; [|lia|].
    + intros [|k] ? ?; [vm_compute; reflexivity|lia].
    + intros _. vm_compute. reflexivity.
  - eexists. split; [vm_compute; reflexivity|]. vm_compute. reflexivity.
Qed.

Lemma demo_linkable : linkable (vol_st 16) (vol_of 16 disk) dir5 file3 [records].
Proof.
  constructor; [exact demo_vol|exact dir5_file|exact dir5_dir|reflexivity|exact file3_ok|exact file3_stored|discriminate|].
  assert (owned (vol_of 16 disk) dir5 = [7]) as -> by (vm_compute; reflexivity).
  assert (owned (vol_of 16 disk) file3 = [6]) as -> by (vm_compute; reflexivity). set_solver.
Qed.

Lemma e2_link_lookup_witness :
  ∃ s' p', e2_inode_link (vol_st 16) (λ _, 0) (λ _, 1) (vol_of 16 disk) dir5 name_b file3 true = Ret (s', dir5, p', Ok tt)
    ∧ e2_inode_lookup (vol_st 16) (λ _, 0) (λ _, true) s' dir5 name_b (replicate (Z.to_nat 1024) 0) = Ret (Ok 3)
    ∧ i_links_count p' = 2 ∧ content s' p' = hello.
Proof.
  destruct (e2_link_lookup (vol_st 16) (λ _, 0) (λ _, true) (λ _, 1) (vol_of 16 disk) dir5 file3 [records] name_b demo_linkable)
    as (s' & p' & ess' & Hrun & _ & Hlook & _ & Hl & _ & Hc).
  - reflexivity.
  - by repeat constructor.
  - done.
  - vm_compute. reflexivity.
  - apply Exists_cons_tl, Exists_cons_hd. vm_compute. reflexivity.
  - apply Forall_cons. split; [vm_compute; discriminate|]. apply Forall_cons. split; [vm_compute; reflexivity|apply Forall_nil_2].
  - exists s', p'. split; [exact Hrun|]. split; [exact (Hlook _ buffer_length)|]. split; [rewrite Hl; vm_compute; reflexivity|].
    rewrite Hc. vm_compute. reflexivity.
Defined.

Lemma e2_unlink_lookup_witness :
  ∃ s' p', e2_inode_unlink (vol_st 16) (λ _, 0) (vol_of 16 disk) dir5 name_a file3 true = Ret (s', dir5, p', Ok tt)
    ∧ e2_inode_lookup (vol_st 16) (λ _, 0) (λ _, true) s' dir5 name_a (replicate (Z.to_nat 1024) 0) = Ret (Err ENOENT)
    ∧ i_links_count p' = 0 ∧ content s' p' = hello.
Proof.
  destruct (e2_unlink_lookup (vol_st 16) (λ _, 0) (λ _, true) (vol_of 16 disk) dir5 file3 [records] name_a demo_linkable)
    as (s' & p' & ess' & Hrun & _ & Hlook & _ & Hl & _ & Hc).
  - vm_compute. reflexivity.
  - vm_compute. reflexivity.
  - exists s', p'. split; [exact Hrun|]. split; [exact (Hlook _ buffer_length)|]. split; [rewrite Hl; vm_compute; reflexivity|].
    rewrite Hc. vm_compute. reflexivity.
Defined.

Lemma e2_readdir_refines_witness :
  e2_file_readdir (vol_st 16) (λ _, 0) 10 (vol_of 16 disk) dir5 0 4 true = Ret (vol_of 16 disk, dir5, 1024, [mk_dirent 3 1 name_a]).
Proof.
  destruct (e2_readdir_refines (vol_st 16) (λ _, 0) (vol_of 16 disk) dir5 [records] [] records 4 10 demo_vol dir5_file dir5_dir)
    as (off & Hrun & Hoff).
  - reflexivity.
  - repeat (apply Forall_cons; split); [intros _; by repeat constructor|intros []; reflexivity|apply Forall_nil_2].
  - vm_compute. reflexivity.
  - reflexivity.
  - cbn. lia.
  - assert (i_size dir5 = 1024) as E by (vm_compute; reflexivity). rewrite E in Hoff.
    assert (length (dir_bytes (next_entries records 4).2) = 0%nat) as E' by (vm_compute; reflexivity). rewrite E' in Hoff.
    assert (off = 1024) as -> by lia. exact Hrun.
Defined.

(** * Faults *)

(** An unused record with exactly the room for a name of four characters: the
    zero that [strcpy] stores behind the name falls on the inode of the next
    record, and the name of that record is lost.  The block is the one that
    [e2_inode_link] writes. *)
Definition tight : list dent := [record 3 12 name_a; record 0 12 []; record 4 1000 name_b].

Theorem e2_link_exact_fit_loses_next :
  find_free 1025 (dir_bytes tight) 0 4 = Ret (Some 12%nat) ∧ find_name 1025 (dir_bytes tight) 0 name_b = Ret (Some 4)
  ∧ find_name 1025 (fill_entry (λ _, 1) (split_entry (dir_bytes tight) 12 4) 12 3 [99; 99; 99; 99] 33188) 0 name_b = Ret None.
Proof. vm_compute. repeat split; reflexivity. Qed.

(** [e2_alloc_inode] writes 156 bytes, and the inodes of this volume have 128:
    the beginning of the next inode is overwritten. *)
Definition slot (s : e2fs) (ino : Z) : list Z := slice (Z.to_nat (5120 + 128 * (ino - 1))) 128 (dev s).

Definition sparse_disk : list Z := disk_of 16 [255; 0; 0] 23 hello 5 records.

Theorem e2_alloc_inode_overwrites_next :
  i_mode (mk_priv 5 (slot (vol_of 16 sparse_disk) 5) [] false 0) = 16877
  ∧ match e2_alloc_inode (vol_st 16) 0 (vol_of 16 sparse_disk) (new_inode 33188 0 0 0) true with
    | Ret (s, ino) => Some (ino, i_mode (mk_priv 5 (slot s 5) [] false 0))
    | _ => None
    end = Some (4, 28).
Proof. split; vm_compute; reflexivity. Qed.

(** A directory cannot be given a name in itself: its lock is taken twice. *)
Theorem e2_link_to_self_hangs : e2_inode_link (vol_st 16) (λ _, 0) (λ _, 2) (vol_of 16 disk) dir5 [46] dir5 true = Halt.
Proof. vm_compute. reflexivity. Qed.
