(* ===== verification/Task.v ===== *)
(** Tasks and the scheduler: [src/kernel/src/task.c], [task.h].

    A task structure is known by its address; a structure that was freed is
    gone from the map and using it is a fault ([Halt]).  The intrusive lists
    ([ready_tasks], [task_globlist], the children of a task, the sleepers) are
    lists of addresses, first element first; [LinkedList] shows that the
    pointer operations implement this.  The bodies run with interrupts
    disabled, so an operation is one step; a call that sleeps is cut at
    [schedule] into the part before and the part after it.  [schedule] is
    [task_preempt]; the saved registers belong to the machine code of
    [task_switch] and are left out.

    What tasks need of other components (memory for the structure, the page
    directory, the descriptor table, queues and signals) is the class
    [TaskEnv]. *)

From S2P Require Import Prelude.

Definition TF_RUNNING : Z := 1.
Definition TF_RESCHED : Z := 2.
Definition TF_WAITTASK : Z := 4.
Definition TF_WAITSIG : Z := 8.
Definition TF_EXIT : Z := 16.
Definition TF_ZOMBIE : Z := 32.
Definition TF_WAITIO : Z := 128.
Definition TF_WAITMESG : Z := 256.
Definition TF_STOPPED : Z := 1024.
Definition TF_WAITMASK : Z :=
  Z.lor (Z.lor (Z.lor (Z.lor TF_WAITIO TF_WAITSIG) TF_WAITTASK) TF_WAITMESG) TF_STOPPED.
Definition WNOHANG : Z := 1.

Definition flag (flags mask : Z) : bool := negb (Z.land flags mask =? 0).

Record task := mk_task {
  t_pid : Z;
  t_gid : Z;
  t_sid : Z;
  t_uid : Z;
  t_flags : Z;
  t_waitfor : Z;
  t_ticks_left : Z;
  t_status : Z;
  t_dataend : Z;
  t_dir : Z;
  t_parent : option Z;
  t_children : list Z;
}.

Definition T_ISZOMBIE (t : task) : bool := flag (t_flags t) TF_ZOMBIE.
Definition T_RUNNING (t : task) : bool := flag (t_flags t) TF_RUNNING.
Definition T_WAITING (t : task) : bool := flag (t_flags t) TF_WAITMASK.
Definition T_EXITING (t : task) : bool := flag (t_flags t) TF_EXIT.
Definition T_RESCHED (t : task) : bool := flag (t_flags t) TF_RESCHED.

Definition set_flags (f : Z → Z) (t : task) : task :=
  mk_task (t_pid t) (t_gid t) (t_sid t) (t_uid t) (f (t_flags t)) (t_waitfor t) (t_ticks_left t) (t_status t)
    (t_dataend t) (t_dir t) (t_parent t) (t_children t).
Definition set_ticks (n : Z) (t : task) : task :=
  mk_task (t_pid t) (t_gid t) (t_sid t) (t_uid t) (t_flags t) (t_waitfor t) n (t_status t)
    (t_dataend t) (t_dir t) (t_parent t) (t_children t).
Definition set_wait (pid : Z) (t : task) : task :=
  mk_task (t_pid t) (t_gid t) (t_sid t) (t_uid t) (t_flags t) pid (t_ticks_left t) (t_status t)
    (t_dataend t) (t_dir t) (t_parent t) (t_children t).
Definition set_status (n : Z) (t : task) : task :=
  mk_task (t_pid t) (t_gid t) (t_sid t) (t_uid t) (t_flags t) (t_waitfor t) (t_ticks_left t) n
    (t_dataend t) (t_dir t) (t_parent t) (t_children t).
Definition set_dataend (n : Z) (t : task) : task :=
  mk_task (t_pid t) (t_gid t) (t_sid t) (t_uid t) (t_flags t) (t_waitfor t) (t_ticks_left t) (t_status t)
    n (t_dir t) (t_parent t) (t_children t).
Definition set_session (n : Z) (t : task) : task :=
  mk_task (t_pid t) n n (t_uid t) (t_flags t) (t_waitfor t) (t_ticks_left t) (t_status t)
    (t_dataend t) (t_dir t) (t_parent t) (t_children t).
Definition set_parent (p : option Z) (t : task) : task :=
  mk_task (t_pid t) (t_gid t) (t_sid t) (t_uid t) (t_flags t) (t_waitfor t) (t_ticks_left t) (t_status t)
    (t_dataend t) (t_dir t) p (t_children t).
Definition set_children (f : list Z → list Z) (t : task) : task :=
  mk_task (t_pid t) (t_gid t) (t_sid t) (t_uid t) (t_flags t) (t_waitfor t) (t_ticks_left t) (t_status t)
    (t_dataend t) (t_dir t) (t_parent t) (f (t_children t)).

(** What [signal_check] makes the scheduler do with the task it picked. *)
Inductive verdict : Set := SigNone | SigKill | SigStop.

(** The other components, over their own state [R]; tasks are named by the
    addresses of their structures. *)
Class TaskEnv (R : Type) := {
  task_alloc : R → option (Z * R);                (* kmalloc(sizeof(struct task)) *)
  task_dealloc : R → Z → R;                       (* kfree *)
  dir_copy : R → Z → R * option Z;                (* copy_page_dir *)
  dir_strip : R → Z → R;                          (* strip_page_dir *)
  dir_free : R → Z → R;                           (* free_page_dir *)
  dir_page : R → Z → Z → R;                       (* alloc_page *)
  vfs_init : R → Z → R;                           (* init_task_vfs *)
  vfs_copy : R → Z → Z → R;                       (* copy_task_vfs, from, to *)
  vfs_free : R → Z → outcome R;                   (* free_task_vfs *)
  ipc_init : R → Z → R;                           (* signal_init and the message queue *)
  ipc_copy : R → Z → Z → R;                       (* signal_copy, from, to *)
  ipc_free : R → Z → R;                           (* t_ttywait and the messages *)
  signal_verdict : R → Z → R * verdict;           (* signal_check *)
}.

Section Task.
Context {R : Type} `{TaskEnv R}.

Record tstate := mk_tstate {
  tasks : gmap Z task;
  ready : list Z;                (* ready_tasks *)
  glob : list Z;                 (* task_globlist *)
  current : Z;
  next_pid : Z;
  foreground_pid : Z;
  sleepers : list (Z * Z);       (* task_sleeplist: task, wakeup *)
  sleep_timer : option Z;        (* when task_sleep_monitor is called *)
  curdir : Z;
  env : R;
}.

Definition with_tasks (s : tstate) (m : gmap Z task) : tstate :=
  mk_tstate m (ready s) (glob s) (current s) (next_pid s) (foreground_pid s) (sleepers s) (sleep_timer s) (curdir s) (env s).
Definition with_ready (s : tstate) (l : list Z) : tstate :=
  mk_tstate (tasks s) l (glob s) (current s) (next_pid s) (foreground_pid s) (sleepers s) (sleep_timer s) (curdir s) (env s).
Definition with_glob (s : tstate) (l : list Z) : tstate :=
  mk_tstate (tasks s) (ready s) l (current s) (next_pid s) (foreground_pid s) (sleepers s) (sleep_timer s) (curdir s) (env s).
Definition with_current (s : tstate) (a : Z) : tstate :=
  mk_tstate (tasks s) (ready s) (glob s) a (next_pid s) (foreground_pid s) (sleepers s) (sleep_timer s) (curdir s) (env s).
Definition with_pid (s : tstate) (n : Z) : tstate :=
  mk_tstate (tasks s) (ready s) (glob s) (current s) n (foreground_pid s) (sleepers s) (sleep_timer s) (curdir s) (env s).
Definition with_fg (s : tstate) (n : Z) : tstate :=
  mk_tstate (tasks s) (ready s) (glob s) (current s) (next_pid s) n (sleepers s) (sleep_timer s) (curdir s) (env s).
Definition with_sleep (s : tstate) (l : list (Z * Z)) (t : option Z) : tstate :=
  mk_tstate (tasks s) (ready s) (glob s) (current s) (next_pid s) (foreground_pid s) l t (curdir s) (env s).
Definition with_curdir (s : tstate) (d : Z) : tstate :=
  mk_tstate (tasks s) (ready s) (glob s) (current s) (next_pid s) (foreground_pid s) (sleepers s) (sleep_timer s) d (env s).
Definition with_env (s : tstate) (r : R) : tstate :=
  mk_tstate (tasks s) (ready s) (glob s) (current s) (next_pid s) (foreground_pid s) (sleepers s) (sleep_timer s) (curdir s) r.

Definition get (s : tstate) (a : Z) : outcome task := or_halt (tasks s !! a).
Definition upd (s : tstate) (a : Z) (f : task → task) : tstate := with_tasks s (alter f a (tasks s)).

Definition without (a : Z) (l : list Z) : list Z := filter (λ x, x ≠ a) l.

(** [list_rem(&task->t_queue)], [list_rem(&task->t_sibling)]: out of the list
    it is in, if any. *)
Definition unqueue (s : tstate) (a : Z) : tstate := with_ready s (without a (ready s)).
Definition unsibling (s : tstate) (a : Z) : tstate := with_tasks s (set_children (without a) <$> tasks s).

Fixpoint next_of (l : list Z) (a : Z) : option Z :=
  match l with
  | [] => None
  | x :: l => if x =? a then head l else next_of l a
  end.

(** [list_next(&task->t_queue, .., &ready_tasks)]; a link that is in no list
    points to itself. *)
Definition link_next (s : tstate) (a : Z) : option Z :=
  if decide (a ∈ ready s) then next_of (ready s) a else Some a.

Definition list_is_lonely (s : tstate) (a : Z) : bool := bool_decide (ready s = [a]).

(** * Looking tasks up *)

Fixpoint lookup_in (s : tstate) (l : list Z) (pid : Z) : outcome (option Z) :=
  match l with
  | [] => Ret None
  | a :: l => t <~ get s a ;; if t_pid t =? pid then Ret (Some a) else lookup_in s l pid
  end.

Definition task_lookup (s : tstate) (pid : Z) : outcome (option Z) := lookup_in s (glob s) pid.

Definition sys_getpid (s : tstate) : outcome Z := t <~ get s (current s) ;; Ret (t_pid t).

Definition task_setfg (s : tstate) (pid : Z) : outcome tstate :=
  r <~ task_lookup s pid ;;
  match r with None => Ret s | Some _ => Ret (with_fg s pid) end.

Definition task_wakeup (s : tstate) (a : Z) : outcome tstate :=
  t <~ get s a ;;
  if negb (T_WAITING t) then Ret s
  else
    let s := unqueue s a in
    let s := with_ready s (a :: ready s) in
    Ret (upd s a (set_flags (λ f, Z.lor (Z.land f (Z.lnot (Z.lor TF_WAITMASK TF_RESCHED))) TF_RUNNING))).

(** * The end of a task *)

(** Whether the parent's [waitpid] is about this child. *)
Definition waits_for (p dead : task) : bool :=
  (t_waitfor p =? -1)
  || ((t_waitfor p =? 0) && (t_gid dead =? t_pid p))
  || ((t_waitfor p <? -1) && (t_gid dead =? - t_waitfor p))
  || ((0 <? t_waitfor p) && (t_waitfor p =? t_pid dead)).

(** The children lose their parent. *)
Fixpoint orphan (s : tstate) (cs : list Z) : outcome tstate :=
  match cs with
  | [] => Ret s
  | c :: cs => _ <~ get s c ;; orphan (unsibling (upd s c (set_parent None)) c) cs
  end.

Definition notify_parent (s : tstate) (dead : task) : outcome tstate :=
  match t_parent dead with
  | None => Ret s
  | Some p =>
      t <~ get s p ;;
      if (Z.land (t_flags t) TF_WAITTASK =? TF_WAITTASK) && waits_for t dead then
        task_wakeup (upd s p (λ t, set_status (t_status dead) (set_wait (t_pid dead) t))) p
      else Ret s
  end.

Definition task_free (s : tstate) (dead : Z) : outcome tstate :=
  if dead =? current s then Ret s
  else
    t <~ get s dead ;;
    if t_pid t =? 0 then Ret (upd s dead (set_flags (λ _, TF_RUNNING)))
    else
      r <~ vfs_free (env s) dead ;;
      let s := unqueue (with_env s r) dead in
      let s := upd s dead (set_flags (λ _, TF_ZOMBIE)) in
      s <~ orphan s (t_children t) ;;
      let s := with_env s (ipc_free (env s) dead) in
      let s := with_env s (dir_free (env s) (t_dir t)) in
      notify_parent s t.

(** * Switching *)

(** The search for the next task to run: the [while] of [task_preempt], with
    [current] in the role of the loop variable. *)
Fixpoint pick (fuel : nat) (s : tstate) (cur : option Z) : outcome (tstate * Z) :=
  match fuel with
  | O => OutOfFuel
  | S fuel =>
      match cur with
      | None => pick fuel s (head (ready s))
      | Some a =>
          t <~ get s a ;;
          if T_WAITING t then pick fuel s (head (ready s))
          else if T_EXITING t then
            let nxt := link_next s a in
            if t_dir t =? curdir s then pick fuel s nxt
            else
              s <~ task_free (with_current s (default 0 nxt)) a ;;
              pick fuel s nxt
          else Ret (s, a)
      end
  end.

Definition task_switch (s : tstate) (a : Z) : outcome tstate :=
  t <~ get s a ;;
  Ret (upd (with_curdir (with_current s a) (t_dir t)) a (set_ticks 15)).

(** The flags of a task that starts to wait, leaving the queue. *)
Definition put_to_wait (s : tstate) (a wait_flag : Z) : tstate :=
  upd (unqueue s a) a (set_flags (λ f, Z.lor f (Z.lor wait_flag TF_RESCHED))).

Definition SIGKILL_STATUS : Z := -9.

Definition mark_exit (s : tstate) (a status : Z) : tstate :=
  upd s a (λ t, set_flags (λ _, TF_EXIT) (set_status status t)).

Fixpoint task_preempt (fuel : nat) (s : tstate) : outcome tstate :=
  match fuel with
  | O => OutOfFuel
  | S n =>
      if list_is_lonely s (current s) then Ret s
      else
        cur <~ get s (current s) ;;
        if negb (t_ticks_left cur =? 0) && T_RUNNING cur && negb (T_RESCHED cur) then
          Ret (upd s (current s) (set_ticks (t_ticks_left cur - 1)))
        else
          let s := upd s (current s) (set_flags (λ f, Z.land f (Z.lnot TF_RESCHED))) in
          start <~ (if T_RUNNING cur then Ret (link_next s (current s))
                    else match head (ready s) with Some a => Ret (Some a) | None => Halt end) ;;
          '(s, a) <~ pick (3 * length (ready s) + 3) s start ;;
          let s := with_current s a in
          let '(r, v) := signal_verdict (env s) a in
          let s := with_env s r in
          match v with
          | SigNone => task_switch s a
          | SigKill =>
              let s := upd (mark_exit s a SIGKILL_STATUS) a (set_ticks 0) in
              if list_is_lonely s a then Halt else task_preempt n s
          | SigStop => task_preempt n (put_to_wait s a TF_STOPPED)
          end
  end.

Context (fuel : nat).
Local Notation schedule := (task_preempt fuel).

(** * Waiting, exiting *)

Definition task_wait (s : tstate) (a wait_flag : Z) : outcome tstate :=
  if Z.land wait_flag TF_WAITMASK =? 0 then Ret s
  else schedule (put_to_wait s a wait_flag).

Definition task_waitio (s : tstate) (a : Z) : outcome tstate := task_wait s a TF_WAITIO.

(** Does not return to a caller that kills itself. *)
Definition task_kill (s : tstate) (a status : Z) : outcome tstate :=
  let s := mark_exit s a status in
  if a =? current s then schedule (upd s a (set_ticks 0)) else Ret s.

(** [task_kill] does not return, so that the statements behind it are never
    reached. *)
Definition sys_exit (s : tstate) (result : Z) : outcome tstate := task_kill s (current s) result.

Definition task_detach (s : tstate) (pid : Z) : outcome tstate :=
  r <~ task_lookup s pid ;;
  match r with
  | None => Ret s
  | Some a =>
      t <~ get s a ;;
      if foreground_pid s =? pid then
        match t_parent t with
        | Some p => pt <~ get s p ;; s <~ task_setfg s (t_pid pt) ;; Ret (upd (unsibling s a) a (set_parent None))
        | None => task_setfg s 0
        end
      else Ret (upd (unsibling s a) a (set_parent None))
  end.

Definition task_setsid (s : tstate) : outcome (tstate * Z) :=
  t <~ get s (current s) ;;
  if t_gid t =? t_pid t then Ret (s, -1)
  else Ret (upd s (current s) (set_session (t_pid t)), t_pid t).

(** * New tasks *)

(** The structure as [memset] and the assignments leave it. *)
Definition blank (pid flags dir : Z) (parent : option Z) : task := mk_task pid 0 0 0 flags 0 0 0 0 dir parent [].

(** Into the queue, the parent's children (unless [alone]) and the list of
    all tasks. *)
Definition enlist (s : tstate) (a : Z) (t : task) (alone : bool) : tstate :=
  let s := with_tasks s (<[a := t]> (tasks s)) in
  let s := with_ready s (a :: ready s) in
  let s := if alone then s else upd s (current s) (set_children (cons a)) in
  with_glob s (a :: glob s).

Definition sys_fork (s : tstate) : outcome (tstate * Z) :=
  match task_alloc (env s) with
  | None => Halt
  | Some (a, r) =>
      let pid := next_pid s in
      let s := with_pid s (pid + 1) in
      cur <~ get s (current s) ;;
      match dir_copy r (t_dir cur) with
      | (r, None) => Ret (with_env s (task_dealloc r a), -1)
      | (r, Some d) =>
          let s := with_env s (ipc_copy (vfs_copy (ipc_init r a) (current s) a) (current s) a) in
          let s := enlist s a (blank pid (t_flags cur) d (Some (current s))) false in
          s <~ task_setfg s pid ;;
          s <~ schedule s ;;
          Ret (s, pid)
      end
  end.

Definition task_spawn (s : tstate) (kern : bool) : outcome (tstate * Z) :=
  match task_alloc (env s) with
  | None => Halt
  | Some (a, r) =>
      let pid := next_pid s in
      let s := with_pid s (pid + 1) in
      cur <~ get s (current s) ;;
      let r := if kern then vfs_init r a else vfs_copy r (current s) a in
      match dir_copy r (t_dir cur) with
      | (r, None) => if kern then Halt else Ret (with_env s (task_dealloc (ipc_init r a) a), -1)
      | (r, Some d) =>
          let r := if kern then dir_strip r d else r in
          let s := with_env s (ipc_init r a) in
          let s := enlist s a (blank pid TF_RUNNING d (Some (current s))) kern in
          s <~ (if kern then Ret s else task_setfg s pid) ;;
          s <~ schedule s ;;
          Ret (s, pid)
      end
  end.

(** What the spawning task gets; the new one runs the worker and exits. *)
Definition worker_spawn (s : tstate) : outcome (tstate * Z) := task_spawn s true.

(** The first task, in the structure at [a] with a copy of the page directory;
    its parent is itself.  Moving to its own stack is left to the machine. *)
Definition task_init (r : R) (a dir : Z) : tstate :=
  mk_tstate {[ a := blank 0 TF_RUNNING dir (Some a) ]} [a] [a] a 1 0 [] None dir (ipc_init (vfs_init r a) a).

(** * Waiting for children *)

Inductive wait_result : Type :=
  | WDone (r : result Z) (status : option Z)
  | WBlocked.

(** The [list_for_each] over the children; [pid] is overwritten by a match. *)
Fixpoint scan_children (s : tstate) (cs : list Z) (gid pid : Z) (st : option Z) : outcome (Z * option Z) :=
  match cs with
  | [] => Ret (pid, st)
  | c :: cs =>
      t <~ get s c ;;
      if T_ISZOMBIE t && ((pid =? -1) || ((pid =? 0) && (t_gid t =? gid)) || ((pid <? -1) && (t_pid t =? - pid)))
      then scan_children s cs gid (t_pid t) (Some (t_status t))
      else scan_children s cs gid pid st
  end.

(** The end of [sys_waitpid]: unlink the task and free its structure. *)
Definition reap (s : tstate) (pid : Z) : outcome tstate :=
  r <~ task_lookup s pid ;;
  match r with
  | None => Ret s
  | Some a =>
      t <~ get s a ;;
      let s := match t_parent t with Some _ => unsibling s a | None => s end in
      let s := with_glob s (without a (glob s)) in
      Ret (with_env (with_tasks s (delete a (tasks s))) (task_dealloc (env s) a))
  end.

(** Up to [task_wait].  [status]: whether the pointer is not null. *)
Definition waitpid_enter (s : tstate) (pid : Z) (status : bool) (options : Z) : outcome (tstate * wait_result) :=
  if negb (options =? 0) && negb (options =? WNOHANG) then Ret (s, WDone (Err EINVAL) None)
  else
    me <~ get s (current s) ;;
    found <~
      (if 0 <? pid then
         r <~ task_lookup s pid ;;
         match r with
         | None => Ret (Err ECHILD)
         | Some a =>
             t <~ get s a ;;
             if negb (bool_decide (t_parent t = Some (current s))) then Ret (Err ECHILD)
             else if T_ISZOMBIE t then Ret (Ok (t_pid t, Some (t_status t)))
             else Ret (Ok (pid, None))
         end
       else
         '(p, st) <~ scan_children s (t_children me) (t_gid me) pid None ;;
         Ret (Ok (p, st))) ;;
    match found with
    | Err e => Ret (s, WDone (Err e) None)
    | Ok (p, Some st) =>
        s <~ reap s p ;;
        Ret (s, WDone (Ok p) (if status then Some st else None))
    | Ok (p, None) =>
        if negb (Z.land options WNOHANG =? 0) then Ret (s, WDone (Ok 0) None)
        else
          s <~ task_wait (upd s (current s) (set_wait p)) (current s) TF_WAITTASK ;;
          Ret (s, WBlocked)
    end.

(** Behind [task_wait], when the waiting task runs again. *)
Definition waitpid_resume (s : tstate) (status : bool) : outcome (tstate * wait_result) :=
  me <~ get s (current s) ;;
  if negb status then Halt
  else
    s <~ reap s (t_waitfor me) ;;
    Ret (s, WDone (Ok (t_waitfor me)) (Some (t_status me))).

(** * Sleeping *)

(** [list_add_ordered] with [task_sleep_compare]. *)
Fixpoint sleep_insert (x : Z * Z) (l : list (Z * Z)) : list (Z * Z) :=
  match l with
  | [] => [x]
  | y :: l => if x.2 <=? y.2 then x :: y :: l else y :: sleep_insert x l
  end.

Definition task_sleep (s : tstate) (a milli now : Z) (alloc : bool) : outcome (tstate * Z) :=
  if negb alloc then Ret (s, -1)
  else
    let w := u32 (now + milli) in
    let l := sleep_insert (a, w) (sleepers s) in
    let s := with_sleep s l (if bool_decide (l = [(a, w)]) then Some w else sleep_timer s) in
    s <~ task_wait s a TF_WAITIO ;;
    Ret (s, 0).

(** The timer callback; the new [sleep_timer] is what it returns, [None] for
    [TIMER_CANCEL]. *)
Definition task_sleep_monitor (s : tstate) : outcome tstate :=
  match sleepers s with
  | [] => Halt
  | (a, _) :: l =>
      s <~ task_wakeup s a ;;
      Ret (with_sleep s l (snd <$> head l))
  end.

(** * The data segment *)

Fixpoint map_upto (n : nat) (r : R) (dir addr limit : Z) : outcome (R * Z) :=
  match n with
  | O => OutOfFuel
  | S n => if addr <? limit then map_upto n (dir_page r dir addr) dir (u32 (addr + 4096)) limit else Ret (r, addr)
  end.

Definition sys_sbrk (s : tstate) (incr : Z) : outcome (tstate * Z) :=
  t <~ get s (current s) ;;
  '(r, addr) <~ map_upto (S (Z.to_nat (4294967296 / 4096))) (env s) (t_dir t) (Z.land (t_dataend t) 4294963200) (u32 (t_dataend t + incr)) ;;
  Ret (upd (with_env s r) (current s) (set_dataend addr), t_dataend t).
End Task.
