(* ===== verification/TaskInv.v ===== *)
(** The invariant of the task lists and what the scheduler's parts do to it. *)

From S2P Require Import Prelude Task.

(** * Flags *)

Lemma flag_lor f g m : flag (Z.lor f g) m = flag f m || flag g m.
Proof.
  unfold flag. rewrite Z.land_lor_distr_l. rewrite <- negb_andb. f_equal.
  destruct (Z.eqb_spec (Z.lor (Z.land f m) (Z.land g m)) 0) as [E|E].
  - apply Z.lor_eq_0_iff in E as [-> ->]. done.
  - symmetry. apply andb_false_iff. rewrite !Z.eqb_neq. destruct (Z.eq_dec (Z.land f m) 0) as [E1|]; [right|by left].
    intros E2. apply E. by rewrite E1, E2.
Qed.

Lemma flag_land f k m : Z.land k m = m → flag (Z.land f k) m = flag f m.
Proof. intros E. unfold flag. by rewrite <- Z.land_assoc, E. Qed.

Lemma flag_land_none f k m : Z.land k m = 0 → flag (Z.land f k) m = false.
Proof. intros E. unfold flag. by rewrite <- Z.land_assoc, E, Z.land_0_r. Qed.

Lemma flag_waittask f : (Z.land f TF_WAITTASK =? TF_WAITTASK) = true → flag f TF_WAITMASK = true.
Proof.
  intros E. apply Z.eqb_eq in E. unfold flag. apply negb_true_iff, Z.eqb_neq. intros H.
  assert (Z.land (Z.land f TF_WAITMASK) TF_WAITTASK = TF_WAITTASK) as H'.
  { rewrite <- Z.land_assoc. by change (Z.land TF_WAITMASK TF_WAITTASK) with TF_WAITTASK. }
  rewrite H in H'. done.
Qed.

(** What each update does to the flags that matter. *)
Lemma wake_flags f :
  let g := Z.lor (Z.land f (Z.lnot (Z.lor TF_WAITMASK TF_RESCHED))) TF_RUNNING in
  flag g TF_WAITMASK = false ∧ flag g TF_ZOMBIE = flag f TF_ZOMBIE ∧ flag g TF_EXIT = flag f TF_EXIT ∧ flag g TF_RUNNING = true.
Proof.
  intros g. unfold g. rewrite !flag_lor. rewrite (flag_land_none f _ TF_WAITMASK) by done.
  rewrite (flag_land f _ TF_ZOMBIE), (flag_land f _ TF_EXIT) by done.
  repeat split; [by rewrite orb_false_r..|]. apply orb_true_r.
Qed.

Lemma resched_flags f :
  let g := Z.land f (Z.lnot TF_RESCHED) in
  flag g TF_WAITMASK = flag f TF_WAITMASK ∧ flag g TF_ZOMBIE = flag f TF_ZOMBIE ∧ flag g TF_EXIT = flag f TF_EXIT
  ∧ flag g TF_RUNNING = flag f TF_RUNNING.
Proof. intros g. unfold g. rewrite !flag_land by done. done. Qed.

Lemma wait_flags f w :
  flag w TF_WAITMASK = true → flag w TF_ZOMBIE = false → flag w TF_EXIT = false →
  let g := Z.lor f (Z.lor w TF_RESCHED) in
  flag g TF_WAITMASK = true ∧ flag g TF_ZOMBIE = flag f TF_ZOMBIE ∧ flag g TF_EXIT = flag f TF_EXIT ∧ flag g TF_RESCHED = true.
Proof.
  intros H1 H2 H3 g. unfold g. rewrite !flag_lor, H1, H2, H3. simpl.
  change (flag TF_RESCHED TF_ZOMBIE) with false. change (flag TF_RESCHED TF_EXIT) with false.
  change (flag TF_RESCHED TF_RESCHED) with true. rewrite !orb_false_r, !orb_true_r. done.
Qed.

(** * Lists *)

Lemma elem_without a b l : b ∈ without a l ↔ b ≠ a ∧ b ∈ l.
Proof. unfold without. by rewrite list_elem_of_filter. Qed.

Lemma nodup_without a l : NoDup l → NoDup (without a l).
Proof. apply NoDup_filter. Qed.

Lemma without_fresh a l : a ∉ l → without a l = l.
Proof.
  intros Ha. unfold without. induction l as [|x l IH]; [done|]. rewrite filter_cons_True by set_solver.
  f_equal. apply IH. set_solver.
Qed.

Lemma without_app a l k : without a (l ++ k) = without a l ++ without a k.
Proof. apply filter_app. Qed.

Lemma without_cons a l : without a (a :: l) = without a l.
Proof. unfold without. by rewrite filter_cons_False by naive_solver. Qed.

Lemma length_without a l : (length (without a l) <= length l)%nat.
Proof. apply length_filter. Qed.

Lemma without_split a l k : NoDup (l ++ a :: k) → without a (l ++ a :: k) = l ++ k.
Proof.
  intros (Hl & Hd & [Ha Hk]%NoDup_cons)%NoDup_app. rewrite without_app, without_cons, !without_fresh; [done|done|].
  intros H. apply (Hd a H). by left.
Qed.

Lemma length_without_in a l : NoDup l → a ∈ l → S (length (without a l)) = length l.
Proof.
  intros Hn Ha. apply list_elem_of_split in Ha as (l1 & l2 & ->). rewrite without_split by done.
  rewrite !length_app. simpl. lia.
Qed.

Lemma next_of_split l a k : NoDup (l ++ a :: k) → next_of (l ++ a :: k) a = head k.
Proof.
  intros Hn. induction l as [|x l IH]; simpl in *; [by rewrite Z.eqb_refl|].
  apply NoDup_cons in Hn as [Hx Hn]. destruct (Z.eqb_spec x a) as [->|]; [|by apply IH].
  exfalso. apply Hx. set_solver.
Qed.

(** * The environment's promises *)

(** Which structures are allocated, how many signals are pending, and which
    tasks have none. *)
Class TaskEnvView (R : Type) := {
  env_ok : R → Prop;
  env_live : R → gset Z;
  pending : R → nat;
  shielded : R → Z → Prop;
}.

(** No structure is allocated or freed and no signal raised. *)
Record mild {R} `{TaskEnvView R} (r r' : R) : Prop := {
  m_ok : env_ok r';
  m_live : env_live r' = env_live r;
  m_pending : (pending r' <= pending r)%nat;
  m_shield : ∀ a, shielded r a → shielded r' a;
}.

Lemma mild_refl {R} `{TaskEnvView R} (r : R) : env_ok r → mild r r.
Proof. by constructor. Qed.

Lemma mild_trans {R} `{TaskEnvView R} (r r' r'' : R) : mild r r' → mild r' r'' → mild r r''.
Proof. intros [] []. constructor; [done|congruence|lia|naive_solver]. Qed.

Class TaskEnvLaws (R : Type) `{TaskEnv R} `{TaskEnvView R} := {
  alloc_fresh r a r' : env_ok r → task_alloc r = Some (a, r') →
    a ≠ 0 ∧ a ∉ env_live r ∧ env_live r' = {[a]} ∪ env_live r ∧ env_ok r'
    ∧ (pending r' <= pending r)%nat ∧ (∀ b, shielded r b → shielded r' b) ∧ shielded r' a;
  dealloc_live r a : env_ok r →
    env_live (task_dealloc r a) = env_live r ∖ {[a]} ∧ env_ok (task_dealloc r a)
    ∧ (pending (task_dealloc r a) <= pending r)%nat ∧ (∀ b, shielded r b → shielded (task_dealloc r a) b);
  dir_copy_mild r d : env_ok r → mild r (dir_copy r d).1;
  dir_strip_mild r d : env_ok r → mild r (dir_strip r d);
  dir_free_mild r d : env_ok r → mild r (dir_free r d);
  dir_page_mild r d p : env_ok r → mild r (dir_page r d p);
  vfs_init_mild r a : env_ok r → mild r (vfs_init r a);
  vfs_copy_mild r a b : env_ok r → mild r (vfs_copy r a b);
  vfs_free_mild r a : env_ok r → ∃ r', vfs_free r a = Ret r' ∧ mild r r';
  ipc_init_mild r a : env_ok r → mild r (ipc_init r a);
  ipc_copy_mild r a b : env_ok r → mild r (ipc_copy r a b);
  ipc_free_mild r a : env_ok r → mild r (ipc_free r a);
  verdict_mild r a : env_ok r → mild r (signal_verdict r a).1;
  verdict_shield r a : shielded r a → (signal_verdict r a).2 = SigNone;
  verdict_consumes r a : env_ok r → (signal_verdict r a).2 ≠ SigNone → (pending (signal_verdict r a).1 < pending r)%nat;
}.

Section Inv.
Context {R : Type} `{TaskEnvLaws R}.
Implicit Types (s : tstate (R := R)) (t : task) (a b c p : Z).

Definition idle (t : task) : bool := T_WAITING t || T_ISZOMBIE t.

(** Every structure is in the list of all tasks, those that neither wait nor
    are dead are in the queue; process ids are distinct; parents and children
    agree, except that the first task may be the parent of a task it does not
    list. *)
Record tinv s : Prop := {
  iv_null : tasks s !! 0 = None;
  iv_glob : ∀ a, a ∈ glob s ↔ is_Some (tasks s !! a);
  iv_glob_nodup : NoDup (glob s);
  iv_ready_nodup : NoDup (ready s);
  iv_queued : ∀ a, a ∈ ready s → is_Some (tasks s !! a);
  iv_ready : ∀ a t, tasks s !! a = Some t → (a ∈ ready s ↔ idle t = false);
  iv_pid : ∀ a t, tasks s !! a = Some t → 0 <= t_pid t < next_pid s;
  iv_inj : ∀ a b t u, tasks s !! a = Some t → tasks s !! b = Some u → t_pid t = t_pid u → a = b;
  iv_parent : ∀ c t p, tasks s !! c = Some t → t_parent t = Some p →
    ∃ u, tasks s !! p = Some u ∧ (c ∈ t_children u ∨ t_pid u = 0);
  iv_child : ∀ p u c, tasks s !! p = Some u → c ∈ t_children u →
    ∃ t, tasks s !! c = Some t ∧ t_parent t = Some p ∧ t_pid t ≠ 0 ∧ c ≠ p;
  iv_once : ∀ p u, tasks s !! p = Some u → NoDup (t_children u);
  iv_zombie : ∀ a t, tasks s !! a = Some t → T_ISZOMBIE t = true → t_pid t ≠ 0 ∧ t_flags t = TF_ZOMBIE;
  iv_env : env_ok (env s);
  iv_live : ∀ a, is_Some (tasks s !! a) → a ∈ env_live (env s);
}.

(** Dead tasks have no children left. *)
Definition barren s : Prop := ∀ a t, tasks s !! a = Some t → T_ISZOMBIE t = true → t_children t = [].

(** A task the scheduler can run. *)
Definition runnable s a : Prop := a ∈ ready s ∧ ∃ t, tasks s !! a = Some t ∧ T_EXITING t = false.

Lemma get_some s a t : tasks s !! a = Some t → get s a = Ret t.
Proof. unfold get. by intros ->. Qed.

Lemma lookup_upd s a f b : tasks (upd s a f) !! b = if decide (a = b) then f <$> tasks s !! b else tasks s !! b.
Proof. cbn [upd with_tasks tasks]. rewrite lookup_alter. by case_decide; subst. Qed.

(** Lists and environment are as before, and every structure keeps its
    identity, its family and whether it is idle. *)
Definition harmless (f : task → task) : Prop :=
  ∀ t, t_pid (f t) = t_pid t ∧ t_parent (f t) = t_parent t ∧ t_children (f t) = t_children t.

(** One structure changes harmlessly and moves into or out of the queue. *)
Lemma move_inv s a f l :
  tinv s → harmless f → NoDup l → (∀ b, b ≠ a → (b ∈ l ↔ b ∈ ready s)) →
  (a ∈ l ↔ ∃ t, tasks s !! a = Some t ∧ idle (f t) = false) →
  (∀ t, tasks s !! a = Some t → T_ISZOMBIE (f t) = true → t_pid t ≠ 0 ∧ t_flags (f t) = TF_ZOMBIE) →
  tinv (with_ready (upd s a f) l).
Proof.
  intros Hi Hf Hl Hoth Ha Hz. destruct Hi as [N0 G1 G2 R1 Q1 R2 P1 P2 F1 F2 F3 Z1 E1 E2].
  set (s' := with_ready (upd s a f) l).
  assert (L : ∀ b t', tasks s' !! b = Some t' →
    ∃ t, tasks s !! b = Some t ∧ t_pid t' = t_pid t ∧ t_parent t' = t_parent t ∧ t_children t' = t_children t
      ∧ (b ≠ a → t' = t) ∧ (b = a → t' = f t)).
  { intros b t'. change (tasks s') with (tasks (upd s a f)). rewrite lookup_upd.
    case_decide as E; [subst b|intros Hb; exists t'; naive_solver].
    destruct (tasks s !! a) as [t|] eqn:Ht; [|done]. intros [= <-]. exists t. destruct (Hf t) as (? & ? & ?). naive_solver. }
  assert (L' : ∀ b t, tasks s !! b = Some t → ∃ t', tasks s' !! b = Some t'
    ∧ t_pid t' = t_pid t ∧ t_parent t' = t_parent t ∧ t_children t' = t_children t).
  { intros b t Hb. change (tasks s') with (tasks (upd s a f)). rewrite lookup_upd, Hb.
    destruct (Hf t) as (? & ? & ?). case_decide; simpl; eauto 10. }
  assert (D : ∀ b, is_Some (tasks s' !! b) ↔ is_Some (tasks s !! b)).
  { intros b. change (tasks s') with (tasks (upd s a f)). rewrite lookup_upd. case_decide; [by rewrite fmap_is_Some|done]. }
  constructor; try done.
  - apply eq_None_not_Some. rewrite D, N0. by intros [].
  - intros b. rewrite D. apply G1.
  - intros b Hb. apply D. destruct (decide (b = a)) as [->|]; [|apply Q1, Hoth; done].
    apply Ha in Hb as (t & Ht & _). by exists t.
  - intros b t' Hb. destruct (L b t' Hb) as (t & Ht & _ & _ & _ & Hne & Heq). change (ready s') with l.
    destruct (decide (b = a)) as [->|E]; [|rewrite Hne, Hoth by done; by apply R2].
    rewrite Heq, Ha by done. naive_solver.
  - intros b t' Hb. destruct (L b t' Hb) as (t & Ht & -> & _). by apply (P1 b).
  - intros b c t' u' Hb Hc. destruct (L b t' Hb) as (t & Ht & -> & _). destruct (L c u' Hc) as (u & Hu & -> & _). by apply P2.
  - intros c t' p Hc Hp. destruct (L c t' Hc) as (t & Ht & _ & Ep & _). rewrite Ep in Hp.
    destruct (F1 c t p Ht Hp) as (u & Hu & Hor). destruct (L' p u Hu) as (u' & Hu' & E1' & _ & E3'). exists u'. by rewrite E1', E3'.
  - intros p u' c Hp Hc. destruct (L p u' Hp) as (u & Hu & _ & _ & Ec & _). rewrite Ec in Hc.
    destruct (F2 p u c Hu Hc) as (t & Ht & Hpar & Hpid & Hne). destruct (L' c t Ht) as (t' & Ht' & E1' & E2' & _).
    exists t'. by rewrite E1', E2'.
  - intros p u' Hp. destruct (L p u' Hp) as (u & Hu & _ & _ & -> & _). by apply (F3 p).
  - intros b t' Hb Hzb. destruct (L b t' Hb) as (t & Ht & Ep & _ & _ & Hne & Heq). rewrite Ep.
    destruct (decide (b = a)) as [->|E]; [rewrite Heq in * by done; by apply Hz|rewrite Hne in * by done; by apply (Z1 b)].
  - intros b Hb. apply E2, D, Hb.
Qed.

Lemma upd_inv s a f :
  tinv s → harmless f → (∀ t, tasks s !! a = Some t → idle (f t) = idle t) →
  (∀ t, tasks s !! a = Some t → T_ISZOMBIE (f t) = true → T_ISZOMBIE t = true ∧ t_flags (f t) = t_flags t) →
  tinv (upd s a f).
Proof.
  intros Hi Hf Hid Hz. change (upd s a f) with (with_ready (upd s a f) (ready s)).
  apply move_inv; try done; [apply Hi| |].
  - split; [intros Ha|intros (t & Ht & Hidle)].
    + destruct (iv_queued s Hi a Ha) as [t Ht]. exists t. split; [done|]. rewrite Hid by done. by apply (iv_ready s Hi a).
    + apply (iv_ready s Hi a t Ht). by rewrite <- Hid.
  - intros t Ht HZ. destruct (Hz t Ht HZ) as [HZ' ->]. by apply (iv_zombie s Hi a).
Qed.

Lemma upd_barren s a f : barren s → harmless f →
  (∀ t, tasks s !! a = Some t → T_ISZOMBIE (f t) = true → T_ISZOMBIE t = true) → barren (upd s a f).
Proof.
  intros Hb Hf Hz b t'. rewrite lookup_upd. case_decide as E; [subst b|apply Hb].
  destruct (tasks s !! a) as [t|] eqn:Ht; [|done]. intros [= <-] HZ. destruct (Hf t) as (_ & _ & ->). by eapply Hb; eauto.
Qed.

(** * Waking a task *)

Definition awake (t : task) : task :=
  set_flags (λ f, Z.lor (Z.land f (Z.lnot (Z.lor TF_WAITMASK TF_RESCHED))) TF_RUNNING) t.

Lemma awake_idle t : idle (awake t) = T_ISZOMBIE t.
Proof.
  unfold idle, T_WAITING, T_ISZOMBIE, awake. destruct (wake_flags (t_flags t)) as (E1 & E2 & _). simpl in *. by rewrite E1, E2.
Qed.

Lemma waiting_alive s a t : tinv s → tasks s !! a = Some t → T_WAITING t = true → T_ISZOMBIE t = false.
Proof.
  intros Hi Ht Hw. destruct (T_ISZOMBIE t) eqn:E; [|done]. destruct (iv_zombie s Hi a t Ht E) as [_ Hf].
  unfold T_WAITING in Hw. by rewrite Hf in Hw.
Qed.

Lemma wakeup_run s a t :
  tinv s → tasks s !! a = Some t → T_WAITING t = true →
  task_wakeup s a = Ret (with_ready (upd s a awake) (a :: ready s)).
Proof.
  intros Hi Ht Hw. unfold task_wakeup. rewrite (get_some _ _ _ Ht). cbn [obind]. rewrite Hw. cbn [negb].
  cbn [unqueue with_ready ready]. rewrite without_fresh; [done|].
  intros Ha. apply (iv_ready s Hi a t Ht) in Ha. unfold idle in Ha. by rewrite Hw in Ha.
Qed.

Lemma wakeup_inv s a t :
  tinv s → tasks s !! a = Some t → T_WAITING t = true → tinv (with_ready (upd s a awake) (a :: ready s)).
Proof.
  intros Hi Ht Hw. pose proof (waiting_alive s a t Hi Ht Hw) as Hz. apply move_inv; [done|by intros u|..].
  - apply NoDup_cons. split; [|apply Hi]. intros Ha. apply (iv_ready s Hi a t Ht) in Ha. unfold idle in Ha. by rewrite Hw in Ha.
  - intros b Hb. rewrite elem_of_cons. naive_solver.
  - split; [intros _; exists t|intros _; by left]. by rewrite awake_idle.
  - intros u Hu. assert (u = t) as -> by congruence. intros HZ. exfalso.
    pose proof (awake_idle t) as E. unfold idle in E. rewrite HZ, orb_true_r, Hz in E. done.
Qed.

(** * Leaving the family *)

Lemma lookup_unsibling s c b : tasks (unsibling s c) !! b = set_children (without c) <$> tasks s !! b.
Proof. cbn [unsibling with_tasks tasks]. apply lookup_fmap. Qed.

Lemma without_children_id c t : c ∉ t_children t → set_children (without c) t = t.
Proof. intros Hc. unfold set_children. rewrite without_fresh by done. by destruct t. Qed.

(** A task without parent that is nobody's child. *)
Definition estrange s c : tstate (R := R) := unsibling (upd s c (set_parent None)) c.

Lemma lookup_estrange s c b :
  tasks (estrange s c) !! b = (λ t, set_children (without c) (if decide (c = b) then set_parent None t else t)) <$> tasks s !! b.
Proof. unfold estrange. rewrite lookup_unsibling, lookup_upd. case_decide; [|done]. by destruct (tasks s !! b). Qed.

Lemma estrange_inv s c : tinv s → tinv (estrange s c).
Proof.
  intros Hi. destruct Hi as [N0 G1 G2 R1 Q1 R2 P1 P2 F1 F2 F3 Z1 E1 E2].
  assert (L : ∀ b t', tasks (estrange s c) !! b = Some t' → ∃ t, tasks s !! b = Some t ∧ t_pid t' = t_pid t
    ∧ t_flags t' = t_flags t ∧ t_children t' = without c (t_children t)
    ∧ t_parent t' = if decide (c = b) then None else t_parent t).
  { intros b t'. rewrite lookup_estrange. destruct (tasks s !! b) as [t|]; [|done]. intros [= <-]. exists t. by case_decide. }
  assert (L' : ∀ b t, tasks s !! b = Some t → ∃ t', tasks (estrange s c) !! b = Some t' ∧ t_pid t' = t_pid t
    ∧ t_children t' = without c (t_children t) ∧ t_parent t' = if decide (c = b) then None else t_parent t).
  { intros b t Hb. rewrite lookup_estrange, Hb. eexists. split; [done|]. by case_decide. }
  assert (D : ∀ b, is_Some (tasks (estrange s c) !! b) ↔ is_Some (tasks s !! b)).
  { intros b. by rewrite lookup_estrange, fmap_is_Some. }
  assert (I : ∀ t t', t_flags t' = t_flags t → idle t' = idle t ∧ T_ISZOMBIE t' = T_ISZOMBIE t).
  { intros t t' E. unfold idle, T_WAITING, T_ISZOMBIE. by rewrite E. }
  constructor; try done.
  - apply eq_None_not_Some. rewrite D, N0. by intros [].
  - intros b. rewrite D. apply G1.
  - intros b Hb. apply D, Q1, Hb.
  - intros b t' Hb. destruct (L b t' Hb) as (t & Ht & _ & Ef & _). destruct (I t t' Ef) as [-> _]. by apply R2.
  - intros b t' Hb. destruct (L b t' Hb) as (t & Ht & -> & _). by apply (P1 b).
  - intros b b' t' u' Hb Hc. destruct (L b t' Hb) as (t & Ht & -> & _). destruct (L b' u' Hc) as (u & Hu & -> & _). by apply P2.
  - intros b t' p Hb Hp. destruct (L b t' Hb) as (t & Ht & _ & _ & _ & Ep). rewrite Ep in Hp. case_decide as Hne; [done|].
    destruct (F1 b t p Ht Hp) as (u & Hu & Hor). destruct (L' p u Hu) as (u' & Hu' & E1' & E2' & _). exists u'.
    rewrite E1', E2', elem_without. split; [done|]. naive_solver.
  - intros p u' b Hp Hb. destruct (L p u' Hp) as (u & Hu & _ & _ & Ec & _). rewrite Ec, elem_without in Hb. destruct Hb as [Hne Hb].
    destruct (F2 p u b Hu Hb) as (t & Ht & Hpar & Hpid & Hne'). destruct (L' b t Ht) as (t' & Ht' & E1' & _ & E3').
    exists t'. rewrite E1', E3', decide_False by done. done.
  - intros p u' Hp. destruct (L p u' Hp) as (u & Hu & _ & _ & -> & _). by apply nodup_without, (F3 p).
  - intros b t' Hb Hzb. destruct (L b t' Hb) as (t & Ht & -> & Ef & _). destruct (I t t' Ef) as [_ Ez]. rewrite Ef. apply (Z1 b); congruence.
  - intros b Hb. apply E2, D, Hb.
Qed.

(** What [orphan] has done to the structure at [a]: the tasks [cs] lost their
    parent [d], which lost them. *)
Definition orphaned (cs : list Z) (d a : Z) (t : task) : task :=
  let t := if decide (a ∈ cs) then set_parent None t else t in
  if decide (a = d) then set_children (λ _, []) t else t.

Lemma orphan_spec d cs s u :
  tinv s → tasks s !! d = Some u → t_children u = cs →
  ∃ m, orphan s cs = Ret (with_tasks s m) ∧ tinv (with_tasks s m) ∧ ∀ a, m !! a = orphaned cs d a <$> tasks s !! a.
Proof.
  revert s u. induction cs as [|c cs IH]; intros s u Hi Hd Hcs.
  - exists (tasks s). assert (E : with_tasks s (tasks s) = s) by (by destruct s). rewrite E. split; [done|]. split; [done|].
    intros a. destruct (tasks s !! a) as [x|] eqn:Hx; [|done]. cbn. f_equal. unfold orphaned.
    rewrite (decide_False (P := a ∈ [])) by (by apply not_elem_of_nil). case_decide as Ha; [subst a|done].
    assert (x = u) as -> by congruence. destruct u. cbn in *. by subst.
  - destruct (iv_child s Hi d u c Hd) as (t & Ht & Hpar & Hpid & Hne); [rewrite Hcs; by left|].
    assert (Hn : c ∉ cs ∧ NoDup cs) by (apply NoDup_cons; rewrite <- Hcs; by apply (iv_once s Hi d)).
    cbn [orphan]. rewrite (get_some _ _ _ Ht). cbn [obind].
    destruct (IH (estrange s c) (set_children (without c) u)) as (m & Hrun & Hinv & Hm).
    + by apply estrange_inv.
    + rewrite lookup_estrange, Hd. simpl. by rewrite decide_False by done.
    + cbn. rewrite Hcs, without_cons. by apply without_fresh, Hn.
    + exists m. split; [exact Hrun|]. split; [exact Hinv|]. intros a. rewrite Hm, lookup_estrange.
      destruct (tasks s !! a) as [x|] eqn:Hx; [|done]. cbn. f_equal. unfold orphaned.
      destruct (decide (c = a)) as [<-|Hca].
      * rewrite (decide_False (P := c ∈ cs)) by tauto. rewrite !(decide_False (P := c = d)) by done.
        rewrite (decide_True (P := c ∈ c :: cs)) by (by left). apply without_children_id. cbn.
        intros Hin. destruct (iv_child s Hi c x c Hx Hin) as (? & _ & _ & _ & []). done.
      * assert (Hd' : a ≠ d → set_children (without c) x = x).
        { intros Hne'. apply without_children_id. intros Hin. destruct (iv_child s Hi a x c Hx Hin) as (t' & Ht' & Hp' & _). congruence. }
        destruct (decide (a = d)) as [->|Hne'].
        -- destruct (decide (d ∈ cs)), (decide (d ∈ c :: cs)); try done; set_solver.
        -- rewrite Hd' by done. destruct (decide (a ∈ cs)), (decide (a ∈ c :: cs)); try done; set_solver.
Qed.

(** * The end of a task *)

(** The parent [u] is waiting for the child [dead]. *)
Definition hears (dead u : task) : bool := (Z.land (t_flags u) TF_WAITTASK =? TF_WAITTASK) && waits_for u dead.

Definition told (dead u : task) : task := awake (set_status (t_status dead) (set_wait (t_pid dead) u)).

(** What a freed task [dead] at [d] leaves of the structure at [b], and of the queue. *)
Definition after_free (d : Z) (dead : task) (b : Z) (t : task) : task :=
  let t := orphaned (t_children dead) d b (if decide (b = d) then set_flags (λ _, TF_ZOMBIE) t else t) in
  if bool_decide (t_parent dead = Some b) && hears dead t then told dead t else t.

Definition queue_after s (d : Z) (dead : task) : list Z :=
  match t_parent dead with
  | Some p => match tasks s !! p with
              | Some u => if hears dead u then p :: without d (ready s) else without d (ready s)
              | None => without d (ready s)
              end
  | None => without d (ready s)
  end.

Lemma with_env_inv s r : tinv s → mild (env s) r → tinv (with_env s r).
Proof. intros [] [He Hl _ _]. constructor; try done. cbn [with_env env tasks]. by rewrite Hl. Qed.

Lemma hears_ext dead u u' : t_flags u = t_flags u' → t_waitfor u = t_waitfor u' → t_pid u = t_pid u' → hears dead u = hears dead u'.
Proof. intros E1 E2 E3. unfold hears, waits_for. by rewrite E1, E2, E3. Qed.

Lemma orphaned_fields cs d a t :
  t_flags (orphaned cs d a t) = t_flags t ∧ t_waitfor (orphaned cs d a t) = t_waitfor t ∧ t_pid (orphaned cs d a t) = t_pid t
  ∧ t_status (orphaned cs d a t) = t_status t ∧ t_dir (orphaned cs d a t) = t_dir t.
Proof. unfold orphaned. by repeat case_decide. Qed.

Lemma notify_spec s dead :
  tinv s → barren s → (∀ p, t_parent dead = Some p → is_Some (tasks s !! p)) →
  ∃ s', notify_parent s dead = Ret s' ∧ tinv s' ∧ barren s'
    ∧ s' = with_ready (with_tasks s (tasks s')) (ready s')
    ∧ (∀ b, tasks s' !! b = (λ u, if bool_decide (t_parent dead = Some b) && hears dead u then told dead u else u) <$> tasks s !! b)
    ∧ ready s' = match t_parent dead with
                 | Some p => match tasks s !! p with
                             | Some u => if hears dead u then p :: ready s else ready s
                             | None => ready s
                             end
                 | None => ready s
                 end.
Proof.
  intros Hi Hbar Hp.
  assert (Hno : ∃ s', Ret s = Ret s' ∧ tinv s' ∧ barren s' ∧ s' = with_ready (with_tasks s (tasks s')) (ready s')
    ∧ (∀ b, tasks s' !! b = tasks s !! b) ∧ ready s' = ready s) by (exists s; by destruct s).
  unfold notify_parent. destruct (t_parent dead) as [p|] eqn:Hpar.
  2: { destruct Hno as (s' & E & ? & ? & ? & Ht & Hr). exists s'. do 4 (split; [done|]). split; [|done].
       intros b. rewrite Ht. by destruct (tasks s !! b). }
  destruct (Hp p eq_refl) as [u Hu]. rewrite (get_some _ _ _ Hu), Hu. cbn [obind]. fold (hears dead u).
  destruct (hears dead u) eqn:Hh.
  2: { destruct Hno as (s' & E & ? & ? & ? & Ht & Hr). exists s'. do 4 (split; [done|]). split; [|done].
       intros b. rewrite Ht. destruct (tasks s !! b) as [x|] eqn:Hb; [|done]. cbn. case_bool_decide as Eb; [|done].
       injection Eb as <-. assert (x = u) as -> by congruence. by rewrite Hh. }
  pose proof Hh as Hh'. unfold hears in Hh'. apply andb_true_iff in Hh' as [Hw _]. apply flag_waittask in Hw.
  set (g := λ t, set_status (t_status dead) (set_wait (t_pid dead) t)).
  assert (Hi1 : tinv (upd s p g)) by (apply upd_inv; [done|by intros x|done|done]).
  assert (Hu1 : tasks (upd s p g) !! p = Some (g u)) by (by rewrite lookup_upd, decide_True, Hu).
  rewrite (wakeup_run _ p (g u) Hi1 Hu1 Hw). eexists. split; [done|]. split; [by apply (wakeup_inv _ p (g u))|].
  assert (HT : ∀ b, tasks (upd (upd s p g) p awake) !! b
    = (λ x, if bool_decide (Some p = Some b) && hears dead x then told dead x else x) <$> tasks s !! b).
  { intros b. rewrite !lookup_upd. destruct (decide (p = b)) as [<-|Hne].
    - rewrite Hu. cbn. rewrite bool_decide_true, Hh by done. done.
    - rewrite bool_decide_false by congruence. by destruct (tasks s !! b). }
  split; [|split; [done|split; [exact HT|done]]].
  intros b x Hb Hz. change (tasks (with_ready _ _)) with (tasks (upd (upd s p g) p awake)) in Hb. rewrite HT in Hb.
  destruct (tasks s !! b) as [y|] eqn:Hy; [|done]. cbn in Hb. case_bool_decide as Eb; cbn in Hb.
  - injection Eb as <-. assert (y = u) as -> by congruence. rewrite Hh in Hb. injection Hb as <-.
    exfalso. pose proof (waiting_alive s p u Hi Hu Hw) as Hzu. unfold T_ISZOMBIE, told, awake in Hz. cbn in Hz.
    destruct (wake_flags (t_flags u)) as (_ & E & _). rewrite E in Hz. unfold T_ISZOMBIE in Hzu. congruence.
  - injection Hb as <-. by apply (Hbar b).
Qed.

Lemma task_free_spec s d t :
  tinv s → barren s → tasks s !! d = Some t → d ≠ current s → t_pid t ≠ 0 →
  ∃ s', task_free s d = Ret s' ∧ tinv s' ∧ barren s'
    ∧ s' = with_env (with_ready (with_tasks s (tasks s')) (queue_after s d t)) (env s')
    ∧ mild (env s) (env s')
    ∧ ∀ b, tasks s' !! b = after_free d t b <$> tasks s !! b.
Proof.
  intros Hi Hbar Ht Hcur Hpid. unfold task_free. destruct (Z.eqb_spec d (current s)); [done|].
  rewrite (get_some _ _ _ Ht). cbn [obind]. destruct (Z.eqb_spec (t_pid t) 0); [done|].
  destruct (vfs_free_mild (env s) d (iv_env s Hi)) as (r & -> & Hmild). cbn [obind].
  set (z := set_flags (λ _, TF_ZOMBIE)). set (s1 := upd (unqueue (with_env s r) d) d z).
  assert (Hi1 : tinv s1).
  { change s1 with (with_ready (upd (with_env s r) d z) (without d (ready s))).
    apply move_inv; [by apply with_env_inv|by intros x|apply nodup_without, Hi|..].
    - intros b Hb. rewrite elem_without. naive_solver.
    - rewrite elem_without. split; [naive_solver|]. intros (x & _ & Hx). done.
    - intros x Hx _. assert (x = t) as -> by (cbn in Hx; congruence). done. }
  assert (Ht1 : tasks s1 !! d = Some (z t)).
  { unfold s1. rewrite lookup_upd, decide_True by done. cbn. by rewrite Ht. }
  destruct (orphan_spec d (t_children t) s1 (z t) Hi1 Ht1 eq_refl) as (m & -> & Hi2 & Hm). cbn [obind].
  set (s2 := with_tasks s1 m). set (r' := dir_free (ipc_free (env s2) d) (t_dir t)).
  assert (Hr' : mild (env s2) r').
  { assert (M : mild (env s2) (ipc_free (env s2) d)) by (apply ipc_free_mild, Hi2).
    apply (mild_trans _ _ _ M), dir_free_mild, M. }
  change (with_env (with_env s2 _) _) with (with_env s2 r').
  assert (Hm' : ∀ b, m !! b = (λ x, orphaned (t_children t) d b (if decide (b = d) then z x else x)) <$> tasks s !! b).
  { intros b. rewrite Hm. unfold s1. rewrite lookup_upd. cbn. destruct (tasks s !! b) as [x|]; [|by case_decide].
    destruct (decide (d = b)) as [<-|]; cbn; [by rewrite decide_True|]. by rewrite (decide_False (P := b = d)). }
  assert (Hbar2 : barren s2).
  { intros b x Hb Hz. change (tasks s2) with m in Hb. rewrite Hm' in Hb. destruct (tasks s !! b) as [y|] eqn:Hy; [|done].
    injection Hb as <-. unfold orphaned in *. destruct (decide (b = d)); [done|].
    assert (E : T_ISZOMBIE y = true) by (by destruct (decide (b ∈ t_children t))).
    rewrite <- (Hbar b y Hy E). by destruct (decide (b ∈ t_children t)). }
  assert (Hp : ∀ p, t_parent t = Some p → is_Some (tasks (with_env s2 r') !! p)).
  { intros p Hp. change (tasks (with_env s2 r')) with m. rewrite Hm'. destruct (iv_parent s Hi d t p Ht Hp) as (u & -> & _). done. }
  destruct (notify_spec (with_env s2 r') t) as (s' & -> & Hi' & Hbar' & Es' & HT & HR);
    [apply with_env_inv; [exact Hi2|exact Hr']|done|done|].
  exists s'. split; [done|]. split; [done|]. split; [done|].
  assert (HT' : ∀ b, tasks s' !! b = after_free d t b <$> tasks s !! b).
  { intros b. rewrite HT. change (tasks (with_env s2 r')) with m. rewrite Hm'. by destruct (tasks s !! b). }
  assert (Ee : env s' = r') by (rewrite Es'; done).
  split; [|split; [rewrite Ee; by apply (mild_trans _ r)|done]]. assert (HR' : ready s' = queue_after s d t).
  { rewrite HR. unfold queue_after. destruct (t_parent t) as [p|] eqn:Hpar; [|done].
    change (tasks (with_env s2 r')) with m. rewrite Hm'.
    destruct (iv_parent s Hi d t p Ht Hpar) as (u & Hu & Hor). rewrite Hu. cbn.
    assert (Hpd : p ≠ d).
    { intros ->. destruct Hor as [Hc|Hz]; [|congruence]. destruct (iv_child s Hi d u d Hu Hc) as (? & _ & _ & _ & []). done. }
    rewrite (decide_False (P := p = d)) by done. destruct (orphaned_fields (t_children t) d p u) as (E1 & E2 & E3 & _).
    rewrite (hears_ext t _ u E1 E2 E3). done. }
  rewrite <- HR'. rewrite Es' at 1. rewrite Ee. done.
Qed.

(** The structure keeps everything the scheduler looks at, unless it is the
    dead task's or the parent that hears of it. *)
Lemma after_free_runnable s d t b :
  tinv s → tasks s !! d = Some t → T_EXITING t = true → runnable s b →
  b ∈ queue_after s d t ∧ ∃ u, tasks s !! b = Some u ∧ T_EXITING (after_free d t b u) = false ∧ t_flags (after_free d t b u) = t_flags u.
Proof.
  intros Hi Ht Hex [Hb (u & Hu & Hun)].
  assert (Hbd : b ≠ d) by (intros ->; congruence).
  assert (Hq : b ∈ without d (ready s)) by (by rewrite elem_without).
  split; [unfold queue_after; repeat case_match; set_solver|]. exists u. split; [done|].
  assert (E : t_flags (after_free d t b u) = t_flags u).
  { unfold after_free. rewrite (decide_False (P := b = d)) by done.
    destruct (orphaned_fields (t_children t) d b u) as (E1 & E2 & E3 & _).
    case_bool_decide as Ep; [|done]. simpl. destruct (hears t _) eqn:Hh; [|done].
    rewrite (hears_ext t _ u E1 E2 E3) in Hh. unfold hears in Hh. apply andb_true_iff in Hh as [Hw _]. apply flag_waittask in Hw.
    apply (iv_ready s Hi b u Hu) in Hb. unfold idle, T_WAITING in Hb. by rewrite Hw in Hb. }
  split; [|done]. unfold T_EXITING in *. by rewrite E.
Qed.

(** The structure of the dead task itself. *)
Lemma after_free_dead s d t :
  tinv s → tasks s !! d = Some t → t_pid t ≠ 0 →
  after_free d t d t = mk_task (t_pid t) (t_gid t) (t_sid t) (t_uid t) TF_ZOMBIE (t_waitfor t) (t_ticks_left t) (t_status t)
    (t_dataend t) (t_dir t) (t_parent t) [].
Proof.
  intros Hi Ht Hpid. unfold after_free, orphaned. rewrite !(decide_True (P := d = d)) by done.
  rewrite (decide_False (P := d ∈ t_children t)).
  2: { intros Hin. destruct (iv_child s Hi d t d Ht Hin) as (? & _ & _ & _ & []). done. }
  rewrite bool_decide_false; [done|]. intros Hp. destruct (iv_parent s Hi d t d Ht Hp) as (u & Hu & Hor).
  assert (u = t) as -> by congruence. destruct Hor as [Hin|]; [|done]. destruct (iv_child s Hi d t d Ht Hin) as (? & _ & _ & _ & []). done.
Qed.

(** Another structure: its parent may be gone, and its wait may be over. *)
Lemma after_free_other s d t b u :
  tinv s → tasks s !! d = Some t → tasks s !! b = Some u → b ≠ d →
  let u' := after_free d t b u in
  t_pid u' = t_pid u ∧ (t_parent u' = t_parent u ∨ t_parent u = Some d)
  ∧ (t_parent t = Some b ∧ hears t u = true ∧ t_flags u' = t_flags (awake u) ∧ t_waitfor u' = t_pid t ∧ t_status u' = t_status t
     ∨ t_flags u' = t_flags u ∧ t_waitfor u' = t_waitfor u ∧ t_status u' = t_status u).
Proof.
  intros Hi Ht Hu Hne u'. unfold u', after_free. rewrite (decide_False (P := b = d)) by done.
  set (o := orphaned (t_children t) d b u).
  destruct (orphaned_fields (t_children t) d b u) as (E1 & E2 & E3 & E4 & _). fold o in E1, E2, E3, E4.
  assert (Hpar : t_parent o = t_parent u ∨ t_parent u = Some d).
  { unfold o, orphaned. rewrite (decide_False (P := b = d)) by done. case_decide as Hin; [right|by left].
    destruct (iv_child s Hi d t b Ht Hin) as (x & Hx & Hp & _). congruence. }
  rewrite (hears_ext t o u E1 E2 E3). case_bool_decide as Hp; cbn [andb]; [destruct (hears t u) eqn:Hh|].
  - split; [by rewrite <- E3|]. split; [exact Hpar|]. left. unfold told, awake. cbn. by rewrite E1.
  - split; [done|]. split; [done|]. right. done.
  - split; [done|]. split; [done|]. right. done.
Qed.

(** * Starting to wait, starting to exit *)

(** What callers pass to [task_wait]. *)
Definition wait_ok (w : Z) : Prop := flag w TF_WAITMASK = true ∧ flag w TF_ZOMBIE = false ∧ flag w TF_EXIT = false.

Lemma queued_alive s a t : tinv s → a ∈ ready s → tasks s !! a = Some t → T_WAITING t = false ∧ T_ISZOMBIE t = false.
Proof. intros Hi Ha Ht. apply (iv_ready s Hi a t Ht) in Ha. unfold idle in Ha. by apply orb_false_iff in Ha. Qed.

Lemma put_to_wait_inv s a w : tinv s → barren s → a ∈ ready s → wait_ok w → tinv (put_to_wait s a w) ∧ barren (put_to_wait s a w).
Proof.
  intros Hi Hb Ha (W1 & W2 & W3). destruct (iv_queued s Hi a Ha) as [t Ht]. destruct (queued_alive s a t Hi Ha Ht) as [_ Hz].
  destruct (wait_flags (t_flags t) w W1 W2 W3) as (E1 & E2 & E3 & _). unfold T_ISZOMBIE in Hz.
  set (g := set_flags (λ f, Z.lor f (Z.lor w TF_RESCHED))).
  change (put_to_wait s a w) with (with_ready (upd s a g) (without a (ready s))). split.
  - apply move_inv; [done|by intros x|apply nodup_without, Hi|..].
    + intros b Hb'. rewrite elem_without. naive_solver.
    + rewrite elem_without. split; [naive_solver|]. intros (x & Hx & Hidle). assert (x = t) as -> by congruence.
      unfold idle, T_WAITING, g in Hidle. cbn in Hidle. by rewrite E1 in Hidle.
    + intros x Hx HZ. assert (x = t) as -> by congruence. unfold T_ISZOMBIE, g in HZ. cbn in HZ. congruence.
  - change (barren (with_ready ?x _)) with (barren x). apply upd_barren; [done|by intros x|].
    intros x Hx HZ. assert (x = t) as -> by congruence. unfold T_ISZOMBIE, g in HZ. cbn in HZ. congruence.
Qed.

Lemma mark_exit_inv s a n : tinv s → barren s → a ∈ ready s → tinv (mark_exit s a n) ∧ barren (mark_exit s a n).
Proof.
  intros Hi Hb Ha. destruct (iv_queued s Hi a Ha) as [t Ht]. destruct (queued_alive s a t Hi Ha Ht) as [Hw Hz].
  split; [|by apply upd_barren; [|intros x|]]. apply upd_inv; [done|by intros x| |done].
  intros x Hx. assert (x = t) as -> by congruence. unfold idle. by rewrite Hw, Hz.
Qed.

Lemma ticks_inv s a n : tinv s → barren s → tinv (upd s a (set_ticks n)) ∧ barren (upd s a (set_ticks n)).
Proof. intros Hi Hb. split; [apply upd_inv|apply upd_barren]; try done; by intros x. Qed.

Lemma resched_inv s a :
  let f := set_flags (λ f, Z.land f (Z.lnot TF_RESCHED)) in
  tinv s → barren s → tinv (upd s a f) ∧ barren (upd s a f).
Proof.
  intros f Hi Hb. assert (E : ∀ t, idle (f t) = idle t ∧ T_ISZOMBIE (f t) = T_ISZOMBIE t).
  { intros t. destruct (resched_flags (t_flags t)) as (E1 & E2 & _). unfold idle, T_WAITING, T_ISZOMBIE, f. cbn. by rewrite E1, E2. }
  split; [apply upd_inv|apply upd_barren]; try done; try (by intros x).
  - intros t Ht. apply E.
  - intros t Ht HZ. destruct (E t) as [_ E2]. rewrite E2 in HZ. split; [done|].
    destruct (iv_zombie s Hi a t Ht HZ) as [_ Hf]. cbn. by rewrite Hf.
  - intros t Ht HZ. by destruct (E t) as [_ <-].
Qed.
End Inv.
