(* ===== verification/TaskSched.v ===== *)
(** The scheduler: it returns whenever some task can run, keeps the lists in
    order, and the operations built on it do the same. *)

From S2P Require Import Prelude Task TaskInv.

Section Sched.
Context {R : Type} `{TaskEnvLaws R}.
Implicit Types (s : tstate (R := R)) (t : task) (a b c d p : Z).

(** Facts a client wants to keep across scheduling: they must survive the
    collection of exited tasks. *)
Record stable (P : tstate (R := R) → Prop) : Prop := {
  stable_current s a : P s → P (with_current s a);
  stable_free s d t s' : P s → tinv s → barren s → d ∈ ready s → tasks s !! d = Some t → T_EXITING t = true →
    task_free s d = Ret s' → P s';
  stable_ticks s a n : P s → P (upd s a (set_ticks n));
  stable_resched s a : P s → P (upd s a (set_flags (λ f, Z.land f (Z.lnot TF_RESCHED))));
  stable_env s r : P s → mild (env s) r → P (with_env s r);
  stable_dir s d : P s → P (with_curdir s d);
  stable_kill s a : P s → tinv s → barren s → runnable s a → P (mark_exit s a SIGKILL_STATUS);
  stable_stop s a : P s → tinv s → barren s → runnable s a → P (put_to_wait s a TF_STOPPED);
}.

Context (P : tstate (R := R) → Prop) (HP : stable P).

Record good s : Prop := { g_inv : tinv s; g_barren : barren s; g_client : P s }.

(** What collecting exited tasks leaves alone. *)
Record keeps s s' : Prop := {
  k_run : ∀ b, runnable s b → runnable s' b;
  k_len : (length (ready s') <= length (ready s))%nat;
  k_glob : glob s' = glob s;
  k_pid : next_pid s' = next_pid s;
  k_dir : curdir s' = curdir s;
  k_env : mild (env s) (env s');
}.

Lemma keeps_current s a : tinv s → keeps s (with_current s a).
Proof. intros Hi. constructor; try done. apply mild_refl, Hi. Qed.

Lemma keeps_refl s : tinv s → keeps s s.
Proof. intros Hi. constructor; try done. apply mild_refl, Hi. Qed.

Lemma keeps_trans s s' s'' : keeps s s' → keeps s' s'' → keeps s s''.
Proof. intros [] []. constructor; [naive_solver|lia|congruence..|by eapply mild_trans]. Qed.

Lemma good_current s a : good s → good (with_current s a).
Proof. intros [[] Hb Hp]. constructor; [by constructor|exact Hb|by apply HP]. Qed.

(** Freeing an exited task in the queue. *)
Lemma free_exited s d t :
  good s → d ∈ ready s → tasks s !! d = Some t → T_EXITING t = true → d ≠ current s →
  ∃ s', task_free s d = Ret s' ∧ good s' ∧ keeps s s'
    ∧ (ready s' = ready s ∨ ready s' = without d (ready s) ∨ ∃ p, ready s' = p :: without d (ready s)).
Proof.
  intros [Hi Hb Hp] Hd Ht Hex Hcur. pose proof (iv_ready s Hi d t Ht) as Hr. apply Hr in Hd as Hidle.
  destruct (Z.eq_dec (t_pid t) 0) as [E|E].
  - assert (Hrun : task_free s d = Ret (upd s d (set_flags (λ _, TF_RUNNING)))).
    { unfold task_free. destruct (Z.eqb_spec d (current s)); [done|]. rewrite (get_some _ _ _ Ht). cbn [obind]. by rewrite E. }
    eexists. split; [exact Hrun|]. split; [split|].
    + apply upd_inv; [done|by intros x| |done]. intros x Hx. assert (x = t) as -> by congruence. by rewrite Hidle.
    + apply upd_barren; [done|by intros x|done].
    + by eapply (stable_free P HP s d t).
    + split; [|by left]. constructor; try done; [|by apply mild_refl, Hi]. intros b (Hb1 & u & Hu & Hu'). split; [done|].
      rewrite lookup_upd, Hu. case_decide; simpl; eauto.
  - destruct (task_free_spec s d t Hi Hb Ht Hcur E) as (s' & Hrun & Hi' & Hb' & Es & Hm & HT).
    assert (HR : ready s' = queue_after s d t) by (by rewrite Es).
    exists s'. split; [done|]. split; [split; [done|done|by eapply (stable_free P HP s d t)]|].
    assert (Hq : ready s' = without d (ready s) ∨ ∃ p, ready s' = p :: without d (ready s)).
    { rewrite HR. unfold queue_after. repeat case_match; eauto. }
    split; [|naive_solver]. constructor; [|..|by rewrite Es|by rewrite Es|by rewrite Es|done].
    + intros b Hrb. destruct (after_free_runnable s d t b Hi Ht Hex Hrb) as (Hq' & u & Hu & Hun & _).
      split; [by rewrite HR|]. rewrite HT, Hu. cbn. eauto.
    + pose proof (length_without_in d (ready s) (iv_ready_nodup s Hi) Hd). destruct Hq as [->|[p ->]]; simpl; lia.
Qed.

(** Walking along the rest [l2] of the queue. *)
Lemma pick_walk l2 : ∀ s l1 n,
  good s → ready s = l1 ++ l2 → (length l2 < n)%nat →
  (∃ s' a, pick n s (head l2) = Ret (s', a) ∧ good s' ∧ keeps s s' ∧ runnable s' a)
  ∨ (∃ s', pick n s (head l2) = pick (n - length l2) s' None ∧ good s' ∧ keeps s s' ∧ ∀ b, b ∈ l2 → ¬ runnable s b).
Proof.
  induction l2 as [|a l2 IH]; intros s l1 n Hg Hl Hn.
  - right. exists s. rewrite Nat.sub_0_r. split; [done|]. split; [done|]. split; [by apply keeps_refl, Hg|]. set_solver.
  - destruct n as [|n]; [simpl in Hn; lia|]. cbn [head pick].
    assert (Ha : a ∈ ready s) by (rewrite Hl; set_solver). pose proof Hg as [Hi Hb Hp].
    destruct (iv_queued s Hi a Ha) as [t Ht]. rewrite (get_some _ _ _ Ht). cbn [obind].
    pose proof (proj1 (iv_ready s Hi a t Ht) Ha) as Hidle. unfold idle in Hidle. apply orb_false_iff in Hidle as [-> _].
    destruct (T_EXITING t) eqn:Hex.
    2: { left. exists s, a. split; [done|]. split; [done|]. split; [by apply keeps_refl, Hg|]. split; [done|]. by exists t. }
    assert (Hnr : ¬ runnable s a) by (intros (_ & u & Hu & Hu'); congruence).
    assert (Hnd : NoDup (l1 ++ a :: l2)) by (rewrite <- Hl; apply Hi).
    assert (Hnext : link_next s a = head l2).
    { unfold link_next. rewrite decide_True by done. rewrite Hl. by apply next_of_split. }
    rewrite Hnext. simpl in Hn.
    (* what remains once the state behind [a] is known *)
    assert (Hgo : ∀ s1 l1', good s1 → keeps s s1 → ready s1 = l1' ++ l2 →
      (∃ s' a0, pick n s1 (head l2) = Ret (s', a0) ∧ good s' ∧ keeps s s' ∧ runnable s' a0)
      ∨ (∃ s', pick n s1 (head l2) = pick (S n - length (a :: l2)) s' None ∧ good s' ∧ keeps s s' ∧ ∀ b, b ∈ a :: l2 → ¬ runnable s b)).
    { intros s1 l1' Hg1 Hk1 Hl1. destruct (IH s1 l1' n Hg1 Hl1 ltac:(lia)) as [(s' & a' & ? & ? & Hk & ?)|(s' & Hrun & ? & Hk & Hno)].
      - left. exists s', a'. do 2 (split; [done|]). split; [by apply (keeps_trans s s1 s')|done].
      - right. exists s'. split; [exact Hrun|]. split; [done|]. split; [by apply (keeps_trans s s1 s')|].
        intros b [->|Hb']%elem_of_cons; [done|]. intros Hrb. apply (Hno b Hb'). by apply (k_run _ _ Hk1). }
    destruct (Z.eqb_spec (t_dir t) (curdir s)) as [E|E].
    { apply (Hgo s (l1 ++ [a])); [done|by apply keeps_refl|]. by rewrite <- app_assoc. }
    set (c := default 0 (head l2)).
    assert (Hac : a ≠ c).
    { unfold c. destruct l2 as [|x l2]; simpl; [intros ->; pose proof (iv_null s Hi); congruence|].
      apply NoDup_app in Hnd as (_ & _ & Hnd). apply NoDup_cons in Hnd as [Hnd _]. set_solver. }
    destruct (free_exited (with_current s c) a t) as (s1 & -> & Hg1 & Hk1 & Hready); [by apply good_current|done|done|done|done|].
    cbn [obind]. change (ready (with_current s c)) with (ready s) in Hready.
    assert (Hw : without a (ready s) = l1 ++ l2) by (rewrite Hl; by apply without_split).
    assert (Hk : keeps s s1) by (apply (keeps_trans s (with_current s c) s1); [by apply keeps_current|done]).
    destruct Hready as [Hq|[Hq|[p Hq]]].
    + apply (Hgo s1 (l1 ++ [a])); [done|done|]. by rewrite Hq, Hl, <- app_assoc.
    + apply (Hgo s1 l1); [done|done|]. by rewrite Hq, Hw.
    + apply (Hgo s1 (p :: l1)); [done|done|]. by rewrite Hq, Hw.
Qed.

(** From the head of the queue a task that can run is found. *)
Lemma pick_head s b n :
  good s → runnable s b → (length (ready s) < n)%nat →
  ∃ s' a, pick n s (head (ready s)) = Ret (s', a) ∧ good s' ∧ keeps s s' ∧ runnable s' a.
Proof.
  intros Hg Hb Hn. destruct (pick_walk (ready s) s [] n Hg eq_refl Hn) as [?|(s' & _ & _ & _ & Hno)]; [done|].
  exfalso. apply (Hno b); [|done]. apply Hb.
Qed.

Lemma pick_ok s b l1 l2 n :
  good s → runnable s b → ready s = l1 ++ l2 → (2 * length (ready s) + 2 <= n)%nat →
  ∃ s' a, pick n s (head l2) = Ret (s', a) ∧ good s' ∧ keeps s s' ∧ runnable s' a.
Proof.
  intros Hg Hb Hl Hn. assert (Hlen : (length l2 <= length (ready s))%nat) by (rewrite Hl, length_app; lia).
  destruct (pick_walk l2 s l1 n Hg Hl ltac:(lia)) as [?|(s1 & -> & Hg1 & Hk & _)]; [done|].
  destruct (n - length l2)%nat as [|m] eqn:Em; [lia|]. cbn [pick]. pose proof (k_len _ _ Hk).
  destruct (pick_head s1 b m Hg1) as (s' & a & -> & ? & Hk' & ?); [by apply (k_run _ _ Hk)|lia|].
  exists s', a. do 2 (split; [done|]). split; [by apply (keeps_trans s s1 s')|done].
Qed.

(** * Preemption *)

Lemma good_ticks s a n : good s → good (upd s a (set_ticks n)).
Proof. intros [Hi Hb Hp]. destruct (ticks_inv s a n Hi Hb). split; [done|done|by apply HP]. Qed.

Lemma good_resched s a : good s → good (upd s a (set_flags (λ f, Z.land f (Z.lnot TF_RESCHED)))).
Proof. intros [Hi Hb Hp]. destruct (resched_inv s a Hi Hb). split; [done|done|by apply HP]. Qed.

Lemma good_env s r : good s → mild (env s) r → good (with_env s r).
Proof. intros [Hi Hb Hp] Hm. split; [by apply with_env_inv|done|by apply HP]. Qed.

Lemma good_dir s d : good s → good (with_curdir s d).
Proof. intros [[] Hb Hp]. split; [by constructor|done|by apply HP]. Qed.

Lemma runnable_upd s a f b : (∀ t, tasks s !! a = Some t → T_EXITING (f t) = T_EXITING t) → runnable s b → runnable (upd s a f) b.
Proof.
  intros Hf (Hb & t & Ht & Hex). split; [done|]. rewrite lookup_upd, Ht. case_decide as E; simpl; [|by eauto].
  subst. exists (f t). split; [done|]. by rewrite Hf.
Qed.

(** The caller of the scheduler is in the queue, or has just left it. *)
Definition entering s : Prop :=
  ∃ t, tasks s !! current s = Some t ∧ (current s ∈ ready s ∨ T_WAITING t = true ∧ T_RESCHED t = true).

(** A task that can run and has no signal pending. *)
Definition sure s b : Prop := runnable s b ∧ shielded (env s) b.

Lemma sure_keeps s s' b : keeps s s' → sure s b → sure s' b.
Proof. intros Hk [Hr Hs]. split; [by apply Hk|by apply (m_shield _ _ (k_env _ _ Hk))]. Qed.

(** The choice of the next task, from the caller's place in the queue. *)
Lemma choose_next s b t :
  good s → runnable s b → tasks s !! current s = Some t → (current s ∈ ready s ∨ T_WAITING t = true) →
  ∃ start s' a, (if T_RUNNING t then Ret (link_next s (current s))
                 else match head (ready s) with Some a => Ret (Some a) | None => Halt end) = Ret start
    ∧ pick (3 * length (ready s) + 3) s start = Ret (s', a) ∧ good s' ∧ keeps s s' ∧ runnable s' a.
Proof.
  intros Hg Hb Ht Hin.
  assert (Hhead : ∀ n, (length (ready s) < n)%nat → ∃ s' a, pick n s (head (ready s)) = Ret (s', a) ∧ good s' ∧ keeps s s' ∧ runnable s' a)
    by (intros n; by apply (pick_head s b)).
  destruct (T_RUNNING t).
  - exists (link_next s (current s)). destruct Hin as [Hin|Hw].
    + unfold link_next. rewrite decide_True by done. apply list_elem_of_split in Hin as (l1 & l2 & Hl).
      assert (Hnx : next_of (ready s) (current s) = head l2) by (rewrite Hl; apply next_of_split; rewrite <- Hl; apply Hg).
      rewrite Hnx. destruct (pick_ok s b (l1 ++ [current s]) l2 (3 * length (ready s) + 3)) as (s' & a & ?);
        [done|done|by rewrite <- app_assoc|lia|]. by exists s', a.
    + unfold link_next. rewrite decide_False.
      2: { intros Hin. destruct (queued_alive s (current s) t (g_inv s Hg) Hin Ht). congruence. }
      replace (3 * length (ready s) + 3)%nat with (S (3 * length (ready s) + 2)) by lia. cbn [pick].
      rewrite (get_some _ _ _ Ht). cbn [obind]. rewrite Hw.
      destruct (Hhead (3 * length (ready s) + 2)%nat) as (s' & a & ?); [lia|]. by exists s', a.
  - destruct (head (ready s)) as [a0|] eqn:Eh.
    2: { destruct Hb as [Hb _]. destruct (ready s); [by apply elem_of_nil in Hb|done]. }
    exists (Some a0). destruct (Hhead (3 * length (ready s) + 3)%nat) as (s' & a & ?); [lia|]. by exists s', a.
Qed.

Lemma switch_ok s a :
  good s → runnable s a → ∃ s', task_switch s a = Ret s' ∧ good s' ∧ current s' = a ∧ ready s' = ready s ∧ env s' = env s
    ∧ glob s' = glob s ∧ next_pid s' = next_pid s ∧ (∀ b, runnable s b → runnable s' b).
Proof.
  intros Hg (Ha & t & Ht & Hex). unfold task_switch. rewrite (get_some _ _ _ Ht). cbn [obind]. eexists. split; [done|].
  split; [by apply good_ticks, good_dir, good_current|]. do 5 (split; [done|]). intros b Hb.
  by apply runnable_upd.
Qed.

(** The task that was picked is killed, or stopped, by a signal. *)
Lemma killed_ok s a b :
  let s' := upd (mark_exit s a SIGKILL_STATUS) a (set_ticks 0) in
  good s → current s = a → runnable s a → runnable s b → a ≠ b →
  good s' ∧ entering s' ∧ runnable s' b ∧ list_is_lonely s' a = false.
Proof.
  intros s' Hg Hc Ha (Hb & x & Hx & Hx') Hne.
  assert (Hrb : runnable s' b).
  { split; [exact Hb|]. exists x. split; [|done]. unfold s', mark_exit. by rewrite !lookup_upd, !(decide_False (P := a = b)) by done. }
  split; [|split; [|split; [done|]]].
  - apply good_ticks. destruct (mark_exit_inv s a SIGKILL_STATUS) as [? ?]; [apply Hg|apply Hg|apply Ha|]. split; [done|done|].
    apply (stable_kill P HP); [apply Hg..|exact Ha].
  - destruct Ha as (Haq & u & Hu & _). exists (set_ticks 0 (set_flags (λ _, TF_EXIT) (set_status SIGKILL_STATUS u))).
    change (current s') with (current s). rewrite Hc. split; [|by left]. unfold s', mark_exit. by rewrite !lookup_upd, !decide_True, Hu.
  - unfold list_is_lonely. apply bool_decide_eq_false. intros El. destruct Hrb as [Hb4 _]. rewrite El in Hb4.
    apply list_elem_of_singleton in Hb4. congruence.
Qed.

Lemma stopped_ok s a b :
  let s' := put_to_wait s a TF_STOPPED in
  good s → current s = a → runnable s a → runnable s b → a ≠ b → good s' ∧ entering s' ∧ runnable s' b.
Proof.
  intros s' Hg Hc Ha (Hb & x & Hx & Hx') Hne. split; [|split].
  - destruct (put_to_wait_inv s a TF_STOPPED) as [? ?]; [apply Hg|apply Hg|apply Ha|done|]. split; [done|done|].
    apply (stable_stop P HP); [apply Hg..|exact Ha].
  - destruct Ha as (Haq & u & Hu & _). exists (set_flags (λ f, Z.lor f (Z.lor TF_STOPPED TF_RESCHED)) u).
    change (current s') with (current s). rewrite Hc. split.
    + unfold s', put_to_wait. rewrite lookup_upd, decide_True by done. change (tasks (unqueue s a)) with (tasks s). by rewrite Hu.
    + right. by destruct (wait_flags (t_flags u) TF_STOPPED) as (W1 & _ & _ & W4).
  - split; [by apply elem_without|]. exists x. split; [|done].
    unfold s', put_to_wait. by rewrite lookup_upd, (decide_False (P := a = b)) by done.
Qed.

(** What the scheduler promises about the state [s'] it returns in. *)
Record scheduled s b s' : Prop := {
  sd_good : good s';
  sd_current : current s' ∈ ready s';
  sd_sure : sure s' b;
  sd_glob : glob s' = glob s;
  sd_pid : next_pid s' = next_pid s;
  sd_env : mild (env s) (env s');
}.

(** It returns as long as some task can run and has no signal pending. *)
Lemma preempt_ok n : ∀ s b,
  good s → entering s → sure s b → (pending (env s) < n)%nat → ∃ s', task_preempt n s = Ret s' ∧ scheduled s b s'.
Proof.
  induction n as [|n IH]; intros s b Hg (t & Ht & Hin) Hsure Hn; [lia|]. cbn [task_preempt].
  unfold list_is_lonely at 1. case_bool_decide as Hlone.
  { exists s. split; [done|]. constructor; try done; [rewrite Hlone; by left|apply mild_refl, Hg]. }
  rewrite (get_some _ _ _ Ht). cbn [obind]. case_if.
  { destruct Hin as [Hin|[_ Hre]]; [|rewrite Hre in *; done]. eexists. split; [done|].
    constructor; try done; [by apply good_ticks| |apply mild_refl, Hg]. split; [by apply runnable_upd, Hsure|apply Hsure]. }
  set (s1 := upd s (current s) _).
  assert (Hg1 : good s1) by (by apply good_resched). destruct Hsure as [Hrb Hsb].
  destruct (resched_flags (t_flags t)) as (E1 & _ & E3 & E4).
  assert (Hrb1 : runnable s1 b).
  { apply runnable_upd; [|done]. intros x Hx. assert (x = t) as -> by congruence. exact E3. }
  assert (Ht1 : tasks s1 !! current s1 = Some (set_flags (λ f, Z.land f (Z.lnot TF_RESCHED)) t))
    by (unfold s1; rewrite lookup_upd; change (current (upd s (current s) _)) with (current s); by rewrite decide_True, Ht).
  destruct (choose_next s1 b _ Hg1 Hrb1 Ht1) as (start & s2 & a & Hstart & Hpick & Hg2 & Hk & Ha).
  { destruct Hin as [Hin|[Hw _]]; [by left|right]. unfold T_WAITING in *. cbn. by rewrite E1. }
  unfold T_RUNNING in Hstart. cbn [set_flags t_flags] in Hstart. rewrite E4 in Hstart. unfold T_RUNNING. rewrite Hstart. cbn [obind].
  rewrite Hpick. cbn [obind]. pose proof (sure_keeps _ _ b Hk (conj Hrb1 Hsb)) as [Hrb2 Hsb2].
  change (env (with_current s2 a)) with (env s2). pose proof (iv_env _ (g_inv _ Hg2)) as Hok2.
  destruct (signal_verdict (env s2) a) as [r v] eqn:Ev.
  pose proof (verdict_mild (env s2) a Hok2) as Hm. pose proof (verdict_consumes (env s2) a Hok2) as Hc.
  pose proof (verdict_shield (env s2) a) as Hsh. rewrite Ev in Hm, Hc, Hsh. cbn in Hm, Hc, Hsh.
  set (s3 := with_env (with_current s2 a) r). assert (Hg3 : good s3) by (apply good_env; [by apply good_current|done]).
  pose proof (k_glob _ _ Hk) as Kg. pose proof (k_pid _ _ Hk) as Kp. pose proof (k_env _ _ Hk) as Ke.
  assert (Hne : v ≠ SigNone → a ≠ b) by (intros Hv ->; naive_solver).
  (* another round, for a caller that no longer runs *)
  assert (Hround : ∀ s4, v ≠ SigNone → good s4 → entering s4 → runnable s4 b → env s4 = r → glob s4 = glob s2 → next_pid s4 = next_pid s2 →
    ∃ s', task_preempt n s4 = Ret s' ∧ scheduled s b s').
  { intros s4 Hv Hg4 He4 Hr4 Er Eg Ep. specialize (Hc Hv). pose proof (m_pending _ _ Ke). change (env s1) with (env s) in *.
    destruct (IH s4 b Hg4 He4) as (s' & -> & [? ? ? Eg' Ep' Em']); [split; [done|rewrite Er; by apply (m_shield _ _ Hm)]|rewrite Er; lia|].
    exists s'. split; [done|]. constructor; try done; [by rewrite Eg', Eg, Kg|by rewrite Ep', Ep, Kp|].
    rewrite Er in Em'. apply (mild_trans _ _ _ Ke), (mild_trans _ _ _ Hm Em'). }
  destruct v.
  - destruct (switch_ok s3 a Hg3 Ha) as (s' & -> & Hg' & Ec & Er & Ee & Eg & Ep & Hrun). exists s'. split; [done|].
    constructor; [done|rewrite Ec, Er; apply Ha|split; [by apply Hrun|rewrite Ee; by apply (m_shield _ _ Hm)]|rewrite Eg; exact Kg|rewrite Ep; exact Kp|].
    rewrite Ee. apply (mild_trans _ _ _ Ke Hm).
  - destruct (killed_ok s3 a b) as (? & ? & ? & ->); try done; [by apply Hne|]. by apply Hround.
  - destruct (stopped_ok s3 a b) as (? & ? & ?); try done; [by apply Hne|]. by apply Hround.
Qed.
End Sched.
