(* ===== verification/TaskSystem.v ===== *)
(** The task operations as steps of a system: any sequence of them, by
    whatever task is current, keeps the lists consistent, never faults, and
    [waitpid] collects exactly the children that died. *)

From S2P Require Import Prelude Task TaskInv TaskSched.

Section System.
Context {R : Type} `{TaskEnvLaws R}.
Implicit Types (s : tstate (R := R)) (t u : task) (a b c d p z : Z).

(** * Tasks inside [waitpid] *)

(** [z] is the dead child whose exit ended the wait of [a]. *)
Definition woken_by s a t z : Prop :=
  ∃ u, tasks s !! z = Some u ∧ T_ISZOMBIE u = true ∧ t_parent u = Some a ∧ t_pid u = t_waitfor t ∧ t_status u = t_status t.

Definition in_wait (t : task) : bool := Z.land (t_flags t) TF_WAITTASK =? TF_WAITTASK.

(** The tasks [B] are asleep in [waitpid] or a child's exit woke them up;
    nobody else waits for a child, and the first task never does. *)
Record waiters (B : gset Z) s : Prop := {
  w_in : ∀ a t, a ∈ B → tasks s !! a = Some t → T_EXITING t = false → T_ISZOMBIE t = false →
    in_wait t = true ∨ ∃ z, woken_by s a t z;
  w_only : ∀ a t, tasks s !! a = Some t → in_wait t = true → a ∈ B;
  w_first : ∀ a t, a ∈ B → tasks s !! a = Some t → t_pid t ≠ 0;
  w_dom : ∀ a, a ∈ B → is_Some (tasks s !! a);
}.

Lemma in_wait_waiting t : in_wait t = true → T_WAITING t = true.
Proof. apply flag_waittask. Qed.

Lemma land_waittask f k : Z.land k TF_WAITTASK = TF_WAITTASK → Z.land (Z.land f k) TF_WAITTASK = Z.land f TF_WAITTASK.
Proof. intros E. by rewrite <- Z.land_assoc, E. Qed.

(** [waiters] looks at these fields only. *)
Definition same_wait (t t' : task) : Prop :=
  t_pid t' = t_pid t ∧ t_parent t' = t_parent t ∧ t_waitfor t' = t_waitfor t ∧ t_status t' = t_status t
  ∧ in_wait t' = in_wait t ∧ T_EXITING t' = T_EXITING t ∧ T_ISZOMBIE t' = T_ISZOMBIE t.

Lemma waiters_same B s s' :
  (∀ a t', tasks s' !! a = Some t' → ∃ t, tasks s !! a = Some t ∧ same_wait t t') →
  (∀ a t, tasks s !! a = Some t → ∃ t', tasks s' !! a = Some t' ∧ same_wait t t') →
  waiters B s → waiters B s'.
Proof.
  intros Hb Hf [W1 W2 W3 W4]. constructor.
  - intros a t' Ha Ht' Hx Hz. destruct (Hb a t' Ht') as (t & Ht & E1 & E2 & E3 & E4 & E5 & E6 & E7).
    rewrite E6 in Hx. rewrite E7 in Hz. rewrite E5. destruct (W1 a t Ha Ht Hx Hz) as [Hw|(z & u & Hu & U1 & U2 & U3 & U4)]; [by left|].
    right. exists z. destruct (Hf z u Hu) as (u' & Hu' & F1 & F2 & F3 & F4 & F5 & F6 & F7). exists u'.
    rewrite F1, F2, F4, F7, E3, E4. done.
  - intros a t' Ht' Hw. destruct (Hb a t' Ht') as (t & Ht & _ & _ & _ & _ & E5 & _). apply (W2 a t Ht). congruence.
  - intros a t' Ha Ht'. destruct (Hb a t' Ht') as (t & Ht & -> & _). by apply (W3 a).
  - intros a Ha. destruct (W4 a Ha) as [t Ht]. destruct (Hf a t Ht) as (t' & Ht' & _). by exists t'.
Qed.

Lemma waiters_upd B s a f : (∀ t, tasks s !! a = Some t → same_wait t (f t)) → waiters B s → waiters B (upd s a f).
Proof.
  intros Hf. apply waiters_same; intros b t; rewrite lookup_upd.
  - case_decide as E; [subst b|intros Hb; by exists t]. destruct (tasks s !! a) as [x|] eqn:Hx; [|done]. intros [= <-]. eauto.
  - intros Hb. rewrite Hb. case_decide as E; [subst b|by exists t]. simpl. eauto.
Qed.

Lemma waiters_tasks B s s' : tasks s' = tasks s → waiters B s → waiters B s'.
Proof. intros E. apply waiters_same; intros a t; rewrite E; intros Ht; by exists t. Qed.

(** The collection of an exited task may end its parent's wait. *)
Lemma waiters_free B s d t s' :
  waiters B s → tinv s → barren s → d ∈ ready s → tasks s !! d = Some t → T_EXITING t = true →
  task_free s d = Ret s' → waiters B s'.
Proof.
  intros Hw Hi Hbar Hd Ht Hex Hrun. destruct (decide (d = current s)) as [E|Hcur].
  { unfold task_free in Hrun. rewrite E, Z.eqb_refl in Hrun. by injection Hrun as <-. }
  destruct (queued_alive s d t Hi Hd Ht) as [Hwt Hzt].
  assert (Hint : in_wait t = false).
  { destruct (in_wait t) eqn:Ein; [|done]. apply in_wait_waiting in Ein. congruence. }
  destruct (Z.eq_dec (t_pid t) 0) as [E|E].
  { unfold task_free in Hrun. destruct (Z.eqb_spec d (current s)); [done|]. rewrite (get_some _ _ _ Ht) in Hrun. cbn [obind] in Hrun.
    rewrite E in Hrun. injection Hrun as <-. destruct Hw as [W1 W2 W3 W4].
    assert (L : ∀ z u, tasks s !! z = Some u → T_ISZOMBIE u = true → tasks (upd s d (set_flags (λ _, TF_RUNNING))) !! z = Some u).
    { intros z u Hu Hz. rewrite lookup_upd, decide_False; [done|]. intros <-. congruence. }
    assert (HdB : d ∉ B) by (intros HB; by apply (W3 d t HB Ht)).
    constructor; [..|intros a Ha; rewrite lookup_upd; case_decide; [by rewrite fmap_is_Some; apply W4|by apply W4]];
      intros a x; rewrite lookup_upd; case_decide as Ea; try (by subst a); [..|by apply W3].
    - intros Ha Hx X1 X2. destruct (W1 a x Ha Hx X1 X2) as [?|(z & u & Hu & Hz & ?)]; [by left|]. right. exists z, u. by rewrite (L z u).
    - subst a. rewrite Ht. by intros [= <-].
    - apply W2. }
  destruct (task_free_spec s d t Hi Hbar Ht Hcur E) as (s1 & Hrun1 & Hi1 & _ & _ & _ & HT).
  assert (s1 = s') as -> by congruence. clear Hrun Hrun1. destruct Hw as [W1 W2 W3 W4].
  pose proof (after_free_dead s d t Hi Ht E) as Hdead.
  assert (Hd' : tasks s' !! d = Some (after_free d t d t)) by (by rewrite HT, Ht).
  constructor.
  - intros a x' Ha Hx' X1 X2. destruct (decide (a = d)) as [->|Hne]; [rewrite Hdead in Hd'; simplify_eq|].
    rewrite HT in Hx'. destruct (tasks s !! a) as [x|] eqn:Hx; [|done]. injection Hx' as <-.
    destruct (after_free_other s d t a x Hi Ht Hx Hne) as (F1 & F2 & [(P1 & P2 & P3 & P4 & P5)|(P3 & P4 & P5)]).
    + right. exists d. exists (after_free d t d t). rewrite P4, P5. split; [exact Hd'|]. rewrite Hdead. done.
    + unfold in_wait, T_EXITING, T_ISZOMBIE in *. rewrite P3 in *. destruct (W1 a x Ha Hx X1 X2) as [?|(z & u & Hu & U1 & U2 & U3 & U4)]; [by left|].
      right. assert (Hzd : z ≠ d) by (intros ->; unfold T_ISZOMBIE in U1; congruence). exists z. exists (after_free d t z u).
      destruct (after_free_other s d t z u Hi Ht Hu Hzd) as (G1 & G2 & G3).
      assert (Hnh : hears t u = false).
      { unfold hears. destruct (iv_zombie s Hi z u Hu U1) as [_ ->]. done. }
      destruct G3 as [(_ & ? & _)|(Q3 & Q4 & Q5)]; [congruence|]. rewrite HT, Hu. unfold T_ISZOMBIE. rewrite Q3, Q5, G1, P4, P5.
      split; [done|]. split; [done|]. split; [|done]. destruct G2 as [->|G2]; [done|]. congruence.
  - intros a x' Hx' Hin. destruct (decide (a = d)) as [->|Hne]; [rewrite Hdead in Hd'; simplify_eq|].
    rewrite HT in Hx'. destruct (tasks s !! a) as [x|] eqn:Hx; [|done]. injection Hx' as <-.
    destruct (after_free_other s d t a x Hi Ht Hx Hne) as (F1 & F2 & [(P1 & P2 & P3 & P4 & P5)|(P3 & P4 & P5)]).
    + exfalso. apply in_wait_waiting in Hin. unfold T_WAITING in Hin. rewrite P3 in Hin.
      destruct (wake_flags (t_flags x)) as (W & _). unfold awake in Hin. cbn in Hin. congruence.
    + apply (W2 a x Hx). unfold in_wait in *. by rewrite P3 in Hin.
  - intros a x' Ha Hx'. rewrite HT in Hx'. destruct (tasks s !! a) as [x|] eqn:Hx; [|done]. injection Hx' as <-.
    destruct (decide (a = d)) as [->|Hne]; [assert (x = t) as -> by congruence; by rewrite Hdead|].
    destruct (after_free_other s d t a x Hi Ht Hx Hne) as (-> & _). by apply (W3 a).
  - intros a Ha. rewrite HT, fmap_is_Some. by apply W4.
Qed.

Lemma waiters_kill B s a n : tinv s → runnable s a → waiters B s → waiters B (mark_exit s a n).
Proof.
  intros Hi (Ha & t & Ht & _) [W1 W2 W3 W4]. destruct (queued_alive s a t Hi Ha Ht) as [Hwt Hzt].
  assert (L : ∀ b, b ≠ a → tasks (mark_exit s a n) !! b = tasks s !! b).
  { intros b Hb. unfold mark_exit. by rewrite lookup_upd, decide_False by done. }
  assert (La : tasks (mark_exit s a n) !! a = Some (set_flags (λ _, TF_EXIT) (set_status n t))).
  { unfold mark_exit. by rewrite lookup_upd, decide_True, Ht. }
  constructor; [..|intros b HB; destruct (decide (b = a)) as [->|Hb]; [by rewrite La|rewrite L by done; by apply W4]];
    intros b x; (destruct (decide (b = a)) as [->|Hb]; [rewrite La|rewrite L by done]).
  - intros _ [= <-]. done.
  - intros HB Hx X1 X2. destruct (W1 b x HB Hx X1 X2) as [?|(z & u & Hu & Hz & ?)]; [by left|right]. exists z, u.
    rewrite L; [done|]. intros ->. congruence.
  - by intros [= <-].
  - apply W2.
  - intros HB [= <-]. by apply (W3 a t).
  - apply W3.
Qed.

(** [task_wait] for something else than a child. *)
Definition plain_wait (w : Z) : Prop := wait_ok w ∧ Z.land w TF_WAITTASK = 0.

Lemma waiters_wait B s a w :
  tinv s → a ∈ ready s → plain_wait w → waiters B s → waiters B (put_to_wait s a w).
Proof.
  intros Hi Ha [(W1 & W2 & W3) Hplain] Hw. destruct (iv_queued s Hi a Ha) as [t Ht].
  apply (waiters_tasks B (upd s a (set_flags (λ f, Z.lor f (Z.lor w TF_RESCHED))))); [done|]. apply waiters_upd; [|done]. intros x Hx.
  destruct (wait_flags (t_flags x) w W1 W2 W3) as (_ & E2 & E3 & _). unfold same_wait, T_EXITING, T_ISZOMBIE, in_wait. cbn.
  rewrite E2, E3. do 4 (split; [done|]). split; [|done]. rewrite !Z.land_lor_distr_l, Hplain. cbn. by rewrite Z.lor_0_r.
Qed.

Lemma waiters_stable B : stable (waiters B).
Proof.
  constructor.
  - intros s a. by apply waiters_tasks.
  - intros s d t s'. apply waiters_free.
  - intros s a n. by apply waiters_upd.
  - intros s a. apply waiters_upd. intros t _. destruct (resched_flags (t_flags t)) as (_ & E2 & E3 & _).
    unfold same_wait, T_EXITING, T_ISZOMBIE, in_wait. cbn. rewrite E2, E3, land_waittask by done. done.
  - intros s r Hw _. by eapply waiters_tasks; [|exact Hw].
  - intros s d. by apply waiters_tasks.
  - intros s a Hw Hi _ Ha. by apply waiters_kill.
  - intros s a Hw Hi _ Ha. apply waiters_wait; [done|apply Ha|done|done].
Qed.

(** * Looking tasks up *)

Lemma lookup_in_ret s l pid : (∀ a, a ∈ l → is_Some (tasks s !! a)) →
  ∃ r, lookup_in s l pid = Ret r ∧
    match r with
    | Some a => a ∈ l ∧ ∃ t, tasks s !! a = Some t ∧ t_pid t = pid
    | None => ∀ a t, a ∈ l → tasks s !! a = Some t → t_pid t ≠ pid
    end.
Proof.
  induction l as [|a l IH]; intros Hl; [exists None; split; [done|]; set_solver|]. cbn [lookup_in].
  destruct (Hl a) as [t Ht]; [by left|]. rewrite (get_some _ _ _ Ht). cbn [obind]. case_if.
  - exists (Some a). split; [done|]. split; [by left|]. by exists t.
  - destruct IH as (r & -> & Hr); [set_solver|]. exists r. split; [done|]. destruct r as [b|].
    + destruct Hr as [Hb Hr]. split; [by right|done].
    + intros b u [->|Hb]%elem_of_cons Hu; [congruence|]. by apply (Hr b).
Qed.

Lemma task_lookup_ret s pid : tinv s → ∃ r, task_lookup s pid = Ret r ∧
  match r with
  | Some a => ∃ t, tasks s !! a = Some t ∧ t_pid t = pid
  | None => ∀ a t, tasks s !! a = Some t → t_pid t ≠ pid
  end.
Proof.
  intros Hi. destruct (lookup_in_ret s (glob s) pid) as (r & Hr & Hspec); [intros a; apply (iv_glob s Hi)|].
  exists r. split; [done|]. destruct r as [a|]; [apply Hspec|]. intros a t Ht. apply (Hspec a t); [|done].
  apply (iv_glob s Hi). by exists t.
Qed.

Lemma task_lookup_found s a t : tinv s → tasks s !! a = Some t → task_lookup s (t_pid t) = Ret (Some a).
Proof.
  intros Hi Ht. destruct (task_lookup_ret s (t_pid t) Hi) as ([b|] & Hr & Hspec); rewrite Hr.
  - destruct Hspec as (u & Hu & Hpid). by rewrite (iv_inj s Hi b a u t Hu Ht Hpid).
  - by destruct (Hspec a t Ht).
Qed.

Lemma setfg_ret s pid : tinv s → ∃ n, task_setfg s pid = Ret (with_fg s n).
Proof.
  intros Hi. unfold task_setfg. destruct (task_lookup_ret s pid Hi) as ([a|] & -> & _); cbn [obind]; [by exists pid|].
  exists (foreground_pid s). by destruct s.
Qed.

Lemma with_fg_inv s n : tinv s → tinv (with_fg s n).
Proof. by intros []. Qed.

(** * A new task *)

Section Enlist.
Context (s : tstate (R := R)) (a : Z) (t cur : task) (alone : bool) (r : R).
Let s0 := with_env (with_pid s (next_pid s + 1)) r.
Let s' := enlist s0 a t alone.
Context (Hi : tinv s) (Hbar : barren s).
Context (Hfresh : tasks s !! a = None) (Hnull : a ≠ 0) (Hcur : tasks s !! current s = Some cur) (Hrun : current s ∈ ready s).
Context (Hlive : env_live r = {[a]} ∪ env_live (env s)) (Hok : env_ok r).
Context (Hpid : t_pid t = next_pid s) (Hpar : t_parent t = Some (current s)) (Hch : t_children t = []).
Context (Hidle : idle t = false) (Halone : alone = true → t_pid cur = 0).

Lemma enlist_lookup b :
  tasks s' !! b = if decide (b = a) then Some t
                  else (λ x, if decide (b = current s) then (if alone then x else set_children (cons a) x) else x) <$> tasks s !! b.
Proof.
  assert (Hne : current s ≠ a) by (intros E; congruence).
  unfold s', enlist. destruct alone; cbn [with_glob tasks].
  - change (tasks (with_ready (with_tasks s0 ?m) _)) with m. change (tasks s0) with (tasks s).
    destruct (decide (b = a)) as [->|Hb]; [by rewrite lookup_insert_eq|]. rewrite lookup_insert_ne by done.
    destruct (tasks s !! b); [|done]. simpl. by case_decide.
  - rewrite lookup_upd. change (current (with_ready _ _)) with (current s).
    change (tasks (with_ready (with_tasks s0 ?m) _)) with m. change (tasks s0) with (tasks s).
    destruct (decide (b = a)) as [->|Hb]; [rewrite decide_False by done; by rewrite lookup_insert_eq|].
    rewrite lookup_insert_ne by done. destruct (tasks s !! b) as [x|]; [|by case_decide]. cbn.
    destruct (decide (current s = b)) as [<-|Hb']; [by rewrite decide_True|]. by rewrite (decide_False (P := b = current s)).
Qed.

Lemma enlist_frame : ready s' = a :: ready s ∧ glob s' = a :: glob s ∧ next_pid s' = next_pid s + 1 ∧ env s' = r
  ∧ current s' = current s.
Proof. unfold s', enlist. by destruct alone. Qed.

(** An old structure, seen through [enlist]. *)
Lemma enlist_old b x' : tasks s' !! b = Some x' → b ≠ a →
  ∃ x, tasks s !! b = Some x ∧ t_pid x' = t_pid x ∧ t_parent x' = t_parent x ∧ t_flags x' = t_flags x
    ∧ t_waitfor x' = t_waitfor x ∧ t_status x' = t_status x
    ∧ (t_children x' = t_children x ∨ b = current s ∧ alone = false ∧ t_children x' = a :: t_children x).
Proof.
  intros Hb Hne. rewrite enlist_lookup, decide_False in Hb by done. destruct (tasks s !! b) as [x|]; [|done].
  injection Hb as <-. exists x. case_decide; [destruct alone|]; naive_solver.
Qed.

Lemma enlist_new b x : tasks s !! b = Some x → b ≠ a ∧ ∃ x', tasks s' !! b = Some x' ∧ t_pid x' = t_pid x
  ∧ t_parent x' = t_parent x ∧ t_flags x' = t_flags x ∧ t_waitfor x' = t_waitfor x ∧ t_status x' = t_status x
  ∧ t_children x ⊆ t_children x' ∧ (b = current s → alone = false → a ∈ t_children x').
Proof.
  intros Hb. assert (Hne : b ≠ a) by (intros ->; congruence). split; [done|]. rewrite enlist_lookup, decide_False, Hb by done.
  eexists. split; [done|]. case_decide; [destruct alone|]; cbn; repeat split; try done; set_solver.
Qed.

Lemma enlist_here : tasks s' !! a = Some t.
Proof. by rewrite enlist_lookup, decide_True. Qed.

Lemma enlist_dom b : is_Some (tasks s' !! b) ↔ b = a ∨ is_Some (tasks s !! b).
Proof.
  rewrite enlist_lookup. case_decide; [naive_solver|]. rewrite fmap_is_Some. naive_solver.
Qed.

Lemma enlist_flags_idle x x' : t_flags x' = t_flags x → idle x' = idle x ∧ T_ISZOMBIE x' = T_ISZOMBIE x ∧ T_EXITING x' = T_EXITING x ∧ in_wait x' = in_wait x.
Proof. intros E. unfold idle, T_WAITING, T_ISZOMBIE, T_EXITING, in_wait. by rewrite E. Qed.

Lemma enlist_inv : tinv s'.
Proof.
  destruct enlist_frame as (Er & Eg & Ep & Ee & Ec). pose proof Hi as [N0 G1 G2 R1 Q1 R2 P1 P2 F1 F2 F3 Z1 E1 E2].
  assert (Ha : a ∉ glob s) by (rewrite G1, Hfresh; by intros []).
  assert (Har : a ∉ ready s) by (intros Ha'; destruct (Q1 a Ha'); congruence).
  constructor; rewrite ?Er, ?Eg, ?Ep, ?Ee.
  - apply eq_None_not_Some. rewrite enlist_dom, N0. by intros [?|[]].
  - intros b. rewrite elem_of_cons, enlist_dom, G1. done.
  - by apply NoDup_cons.
  - by apply NoDup_cons.
  - intros b. rewrite elem_of_cons, enlist_dom. naive_solver.
  - intros b x' Hb. rewrite elem_of_cons. destruct (decide (b = a)) as [->|Hne].
    + rewrite enlist_here in Hb. injection Hb as <-. naive_solver.
    + destruct (enlist_old b x' Hb Hne) as (x & Hx & _ & _ & Ef & _). destruct (enlist_flags_idle x x' Ef) as [-> _].
      rewrite <- (R2 b x Hx). naive_solver.
  - intros b x' Hb. destruct (decide (b = a)) as [->|Hne].
    + rewrite enlist_here in Hb. injection Hb as <-. pose proof (P1 _ _ Hcur). lia.
    + destruct (enlist_old b x' Hb Hne) as (x & Hx & -> & _). pose proof (P1 b x Hx). lia.
  - assert (Hold : ∀ b x', tasks s' !! b = Some x' → b ≠ a → t_pid x' ≠ next_pid s).
    { intros b x' Hb Hne. destruct (enlist_old b x' Hb Hne) as (x & Hx & -> & _). pose proof (P1 b x Hx). lia. }
    intros b c x' y' Hb Hc E. destruct (decide (b = a)) as [->|Hnb], (decide (c = a)) as [->|Hnc]; [done|..].
    + rewrite enlist_here in Hb. injection Hb as <-. exfalso. apply (Hold c y' Hc Hnc). congruence.
    + rewrite enlist_here in Hc. injection Hc as <-. exfalso. apply (Hold b x' Hb Hnb). congruence.
    + destruct (enlist_old b x' Hb Hnb) as (x & Hx & E1' & _). destruct (enlist_old c y' Hc Hnc) as (y & Hy & E2' & _).
      apply (P2 b c x y); congruence.
  - intros b x' p Hb Hp. destruct (decide (b = a)) as [->|Hne].
    + rewrite enlist_here in Hb. injection Hb as <-. rewrite Hpar in Hp. injection Hp as <-.
      destruct (enlist_new _ _ Hcur) as (_ & c' & Hc' & Epid & _ & _ & _ & _ & _ & Hin). exists c'. split; [done|].
      destruct alone eqn:Ea; [right; rewrite Epid; by apply Halone|left; by apply Hin].
    + destruct (enlist_old b x' Hb Hne) as (x & Hx & _ & Epar & _). rewrite Epar in Hp.
      destruct (F1 b x p Hx Hp) as (u & Hu & Hor). destruct (enlist_new p u Hu) as (_ & u' & Hu' & Epid & _ & _ & _ & _ & Hsub & _).
      exists u'. split; [done|]. rewrite Epid. destruct Hor as [Hin|]; [left; by apply Hsub|by right].
  - intros p u' c Hp Hc. destruct (decide (p = a)) as [->|Hne].
    { rewrite enlist_here in Hp. injection Hp as <-. rewrite Hch in Hc. by apply elem_of_nil in Hc. }
    destruct (enlist_old p u' Hp Hne) as (u & Hu & _ & _ & _ & _ & _ & Hcs).
    assert (Hcase : c ∈ t_children u ∨ c = a ∧ p = current s) by (destruct Hcs as [Ecs|(? & _ & Ecs)]; rewrite Ecs in Hc; set_solver).
    destruct Hcase as [Hin|[-> ->]].
    + destruct (F2 p u c Hu Hin) as (x & Hx & Hpx & Hpidx & Hnex). destruct (enlist_new c x Hx) as (_ & x' & Hx' & Epid & Epar & _).
      exists x'. by rewrite Epid, Epar.
    + exists t. split; [apply enlist_here|]. pose proof (P1 _ _ Hcur). split; [done|]. split; [lia|]. congruence.
  - intros p u' Hp. destruct (decide (p = a)) as [->|Hne]; [rewrite enlist_here in Hp; injection Hp as <-; rewrite Hch; constructor|].
    destruct (enlist_old p u' Hp Hne) as (u & Hu & _ & _ & _ & _ & _ & [->|(_ & _ & ->)]); [by apply (F3 p)|].
    apply NoDup_cons. split; [|by apply (F3 p)]. intros Hin. destruct (F2 p u a Hu Hin) as (x & Hx & _). congruence.
  - intros b x' Hb Hz. destruct (decide (b = a)) as [->|Hne].
    + rewrite enlist_here in Hb. injection Hb as <-. unfold idle in Hidle. rewrite Hz, orb_true_r in Hidle. done.
    + destruct (enlist_old b x' Hb Hne) as (x & Hx & -> & _ & Ef & _). destruct (enlist_flags_idle x x' Ef) as (_ & Ez & _).
      rewrite Ef. apply (Z1 b x Hx). congruence.
  - done.
  - intros b. rewrite enlist_dom, Hlive. intros [->|Hb]; [set_solver|]. apply E2 in Hb. set_solver.
Qed.

Lemma enlist_barren : barren s'.
Proof.
  intros b x' Hb Hz. destruct (decide (b = a)) as [->|Hne]; [rewrite enlist_here in Hb; by injection Hb as <-|].
  destruct (enlist_old b x' Hb Hne) as (x & Hx & _ & _ & Ef & _ & _ & Hcs). destruct (enlist_flags_idle x x' Ef) as (_ & Ez & _).
  rewrite Ez in Hz. pose proof (Hbar b x Hx Hz) as Hc. destruct Hcs as [->|(-> & _ & _)]; [done|].
  destruct (queued_alive s (current s) x Hi Hrun Hx). congruence.
Qed.

Lemma enlist_waiters B : waiters B s → waiters B s'.
Proof.
  intros [W1 W2 W3 W4]. constructor.
  - intros b x' HB Hb X1 X2. assert (Hne : b ≠ a) by (intros ->; destruct (W4 a HB); congruence).
    destruct (enlist_old b x' Hb Hne) as (x & Hx & _ & _ & Ef & Ew & Es & _).
    destruct (enlist_flags_idle x x' Ef) as (_ & Ez & Ex & Ei). rewrite Ez in X2. rewrite Ex in X1. rewrite Ei.
    destruct (W1 b x HB Hx X1 X2) as [?|(z & u & Hu & U1 & U2 & U3 & U4)]; [by left|right]. exists z.
    destruct (enlist_new z u Hu) as (_ & u' & Hu' & V1 & V2 & V3 & _ & V5 & _). exists u'.
    destruct (enlist_flags_idle u u' V3) as (_ & Vz & _). rewrite V1, V2, V5, Vz, Ew, Es. done.
  - intros b x' Hb Hw. destruct (decide (b = a)) as [->|Hne].
    + rewrite enlist_here in Hb. injection Hb as <-. apply in_wait_waiting in Hw. unfold idle in Hidle. by rewrite Hw in Hidle.
    + destruct (enlist_old b x' Hb Hne) as (x & Hx & _ & _ & Ef & _). destruct (enlist_flags_idle x x' Ef) as (_ & _ & _ & Ei).
      apply (W2 b x Hx). congruence.
  - intros b x' HB Hb. assert (Hne : b ≠ a) by (intros ->; destruct (W4 a HB); congruence).
    destruct (enlist_old b x' Hb Hne) as (x & Hx & -> & _). by apply (W3 b).
  - intros b HB. apply enlist_dom. right. by apply W4.
Qed.
End Enlist.
End System.
