(* ===== verification/TaskSteps.v ===== *)
(** Any sequence of task operations: nothing faults, every call returns, the
    lists stay consistent and dead children are collected once, by their
    parent, with the status they exited with. *)

From S2P Require Import Prelude Task TaskInv TaskSched TaskSystem.

Section Steps.
Context {R : Type} `{TaskEnvLaws R}.
Implicit Types (s : tstate (R := R)) (t u : task) (a b c d p z : Z) (B : gset Z).

(** * Collecting a dead child *)

Definition reaped s z : tstate (R := R) :=
  with_env (with_tasks (with_glob (unsibling s z) (without z (glob s))) (delete z (tasks (unsibling s z)))) (task_dealloc (env s) z).

Lemma reap_run s z u p : tinv s → tasks s !! z = Some u → t_parent u = Some p → reap s (t_pid u) = Ret (reaped s z).
Proof.
  intros Hi Hz Hp. unfold reap. rewrite (task_lookup_found s z u Hi Hz). cbn [obind]. rewrite (get_some _ _ _ Hz). cbn [obind].
  by rewrite Hp.
Qed.

Lemma lookup_reaped s z b : tasks (reaped s z) !! b = if decide (b = z) then None else set_children (without z) <$> tasks s !! b.
Proof.
  unfold reaped. change (tasks (with_env (with_tasks _ ?m) _)) with m. case_decide as E; [subst; apply lookup_delete_eq|].
  rewrite lookup_delete_ne by done. apply lookup_unsibling.
Qed.

Lemma reaped_inv s z u : tinv s → barren s → tasks s !! z = Some u → T_ISZOMBIE u = true → tinv (reaped s z) ∧ barren (reaped s z).
Proof.
  intros Hi Hbar Hz Hzu. destruct (iv_zombie s Hi z u Hz Hzu) as [Hpid _]. pose proof (Hbar z u Hz Hzu) as Hnc.
  assert (Hq : z ∉ ready s) by (intros Hq; destruct (queued_alive s z u Hi Hq Hz); congruence).
  pose proof Hi as [N0 G1 G2 R1 Q1 R2 P1 P2 F1 F2 F3 Z1 E1 E2].
  assert (L : ∀ b x', tasks (reaped s z) !! b = Some x' → b ≠ z ∧ ∃ x, tasks s !! b = Some x ∧ x' = set_children (without z) x).
  { intros b x'. rewrite lookup_reaped. case_decide; [done|]. destruct (tasks s !! b) as [x|]; [|done]. intros [= <-]. eauto. }
  assert (L' : ∀ b x, b ≠ z → tasks s !! b = Some x → tasks (reaped s z) !! b = Some (set_children (without z) x)).
  { intros b x Hb Hx. by rewrite lookup_reaped, decide_False, Hx. }
  assert (D : ∀ b, is_Some (tasks (reaped s z) !! b) ↔ b ≠ z ∧ is_Some (tasks s !! b)).
  { intros b. rewrite lookup_reaped. case_decide; [split; [by intros []|naive_solver]|]. rewrite fmap_is_Some. naive_solver. }
  destruct (dealloc_live (env s) z E1) as (Dl & Do & _).
  split; [constructor|].
  - apply eq_None_not_Some. rewrite D, N0. by intros [_ []].
  - intros b. change (glob (reaped s z)) with (without z (glob s)). rewrite elem_without, D, G1. done.
  - by apply nodup_without.
  - done.
  - intros b Hb. apply D. split; [by intros ->|by apply Q1].
  - intros b x' Hb. destruct (L b x' Hb) as (Hne & x & Hx & ->). apply (R2 b x Hx).
  - intros b x' Hb. destruct (L b x' Hb) as (Hne & x & Hx & ->). exact (P1 b x Hx).
  - intros b c x' y' Hb Hc. destruct (L b x' Hb) as (_ & x & Hx & ->). destruct (L c y' Hc) as (_ & y & Hy & ->). exact (P2 b c x y Hx Hy).
  - intros c x' p Hc Hp. destruct (L c x' Hc) as (Hne & x & Hx & ->). destruct (F1 c x p Hx Hp) as (v & Hv & Hor).
    assert (Hpz : p ≠ z).
    { intros ->. assert (v = u) as -> by congruence. destruct Hor as [Hin|]; [rewrite Hnc in Hin; by apply elem_of_nil in Hin|done]. }
    eexists. split; [by apply L'|]. cbn. rewrite elem_without. naive_solver.
  - intros p v' c Hp Hc. destruct (L p v' Hp) as (Hne & v & Hv & ->). cbn in Hc. rewrite elem_without in Hc. destruct Hc as [Hcz Hin].
    destruct (F2 p v c Hv Hin) as (x & Hx & ?). eexists. split; [by apply L'|]. done.
  - intros p v' Hp. destruct (L p v' Hp) as (Hne & v & Hv & ->). by apply nodup_without, (F3 p).
  - intros b x' Hb HZ. destruct (L b x' Hb) as (Hne & x & Hx & ->). exact (Z1 b x Hx HZ).
  - exact Do.
  - intros b Hb. apply D in Hb as [Hne Hb]. change (env (reaped s z)) with (task_dealloc (env s) z). rewrite Dl. apply E2 in Hb. set_solver.
  - intros b x' Hb HZ. destruct (L b x' Hb) as (Hne & x & Hx & ->). cbn. by rewrite (Hbar b x Hx HZ).
Qed.

(** Tasks still in [waitpid] after the structures in [s] are all there is. *)
Definition still B s : gset Z := filter (λ a, is_Some (tasks s !! a)) B.

Lemma elem_still B s a : a ∈ still B s ↔ a ∈ B ∧ is_Some (tasks s !! a).
Proof. unfold still. rewrite elem_of_filter. naive_solver. Qed.

Lemma still_id B s : waiters B s → still B s = B.
Proof. intros [_ _ _ W]. apply set_eq. intros a. rewrite elem_still. naive_solver. Qed.

(** A child of [p] is collected by [p], which is not (or no longer) waiting. *)
Lemma reaped_waiters B s z u p :
  tinv s → waiters B s → tasks s !! z = Some u → T_ISZOMBIE u = true → t_parent u = Some p →
  (∀ t, tasks s !! p = Some t → in_wait t = false) →
  waiters (still (B ∖ {[p]}) (reaped s z)) (reaped s z).
Proof.
  intros Hi [W1 W2 W3 W4] Hz Hzu Hp Hpw.
  assert (L : ∀ b x', tasks (reaped s z) !! b = Some x' → b ≠ z ∧ ∃ x, tasks s !! b = Some x ∧ x' = set_children (without z) x).
  { intros b x'. rewrite lookup_reaped. case_decide; [done|]. destruct (tasks s !! b) as [x|]; [|done]. intros [= <-]. eauto. }
  constructor.
  - intros b x' HB Hb X1 X2. apply elem_still in HB as [HB _]. apply elem_of_difference in HB as [HB Hbp].
    destruct (L b x' Hb) as (Hne & x & Hx & ->). destruct (W1 b x HB Hx X1 X2) as [?|(y & v & Hv & V1 & V2 & V3 & V4)]; [by left|right].
    assert (Hyz : y ≠ z). { intros ->. assert (v = u) as -> by congruence. set_solver. }
    exists y, (set_children (without z) v). rewrite lookup_reaped, decide_False, Hv by done. done.
  - intros b x' Hb Hw. destruct (L b x' Hb) as (Hne & x & Hx & ->). rewrite elem_still. split; [|by exists (set_children (without z) x)].
    apply elem_of_difference. split; [by apply (W2 b x)|]. intros ->%elem_of_singleton. change (in_wait x = true) in Hw. rewrite (Hpw x Hx) in Hw. done.
  - intros b x' HB Hb. apply elem_still in HB as [HB _]. apply elem_of_difference in HB as [HB _].
    destruct (L b x' Hb) as (Hne & x & Hx & ->). exact (W3 b x HB Hx).
  - intros b HB. by apply elem_still in HB as [_ HB].
Qed.

(** * The system *)

Context (fuel : nat) (idler : Z).

Record tsys := mk_tsys { ts : tstate (R := R); blocked : gset Z }.

Inductive tmove : Type :=
  | TTick                               (* the timer interrupt, or a call of schedule *)
  | TFork
  | TSpawn (kern : bool)
  | TExit (status : Z)
  | TWait (w : Z)                       (* the current task waits for I/O, a message, ... *)
  | TWake (a : Z)                       (* what it waits for happens *)
  | TWaitpid (pid options : Z)
  | TResume                             (* back from the wait of waitpid *)
  | TSetsid
  | TDetach (pid : Z).

Definition step (y : tsys) (v : tmove) : outcome tsys :=
  let s := ts y in
  match v with
  | TTick => s <~ task_preempt fuel s ;; Ret (mk_tsys s (blocked y))
  | TFork => ' (s, _) <~ sys_fork fuel s ;; Ret (mk_tsys s (blocked y))
  | TSpawn kern => ' (s, _) <~ task_spawn fuel s kern ;; Ret (mk_tsys s (blocked y))
  | TExit n => s <~ sys_exit fuel s n ;; Ret (mk_tsys s (blocked y))
  | TWait w => s <~ task_wait fuel s (current s) w ;; Ret (mk_tsys s (blocked y))
  | TWake a => s <~ task_wakeup s a ;; Ret (mk_tsys s (blocked y))
  | TWaitpid pid options =>
      ' (s', r) <~ waitpid_enter fuel s pid true options ;;
      Ret (mk_tsys s' (match r with WBlocked => {[current s]} ∪ blocked y | WDone _ _ => still (blocked y) s' end))
  | TResume => ' (s', _) <~ waitpid_resume s true ;; Ret (mk_tsys s' (still (blocked y ∖ {[current s]}) s'))
  | TSetsid => ' (s, _) <~ task_setsid s ;; Ret (mk_tsys s (blocked y))
  | TDetach pid => s <~ task_detach s pid ;; Ret (mk_tsys s (blocked y))
  end.

(** The current task runs its own code. *)
Definition calling (y : tsys) : Prop := runnable (ts y) (current (ts y)) ∧ current (ts y) ∉ blocked y.

Definition first_task s : Prop := ∃ t, tasks s !! current s = Some t ∧ t_pid t = 0.

(** Memory for the new structure; a worker needs its page directory as well. *)
Definition room s (kern : bool) : Prop :=
  ∃ a r, task_alloc (env s) = Some (a, r)
    ∧ (kern = true → ∀ t, tasks s !! current s = Some t → (dir_copy (vfs_init r a) (t_dir t)).2 ≠ None).

(** The steps the theorems are about.  Workers are started by the first task
    ([worker_parent_dangles] has one of another task); the idle task does not
    block and does not exit; devices wake tasks that wait for them, not tasks in
    waitpid; dead tasks are not detached; [step] gives waitpid a status pointer
    other than NULL, which the code needs when it had to wait. *)
Definition enabled (y : tsys) (v : tmove) : Prop :=
  let s := ts y in
  match v with
  | TTick => True
  | TFork => calling y ∧ room s false
  | TSpawn kern => calling y ∧ room s kern ∧ (kern = true → first_task s)
  | TExit _ => calling y ∧ current s ≠ idler
  | TWait w => calling y ∧ current s ≠ idler ∧ plain_wait w
  | TWake a => ∃ t, tasks s !! a = Some t ∧ in_wait t = false
  | TWaitpid _ _ => calling y ∧ current s ≠ idler ∧ ¬ first_task s
  | TResume => runnable s (current s) ∧ current s ∈ blocked y
  | TSetsid => calling y
  | TDetach pid => calling y ∧ ∀ a t, tasks s !! a = Some t → t_pid t = pid → T_ISZOMBIE t = false
  end.

Record sys_ok (y : tsys) : Prop := {
  so_good : good (waiters (blocked y)) (ts y);
  so_current : current (ts y) ∈ ready (ts y);
  so_idle : sure (ts y) idler;
  so_calm : (pending (env (ts y)) < fuel)%nat;
}.

(** ** Calls that end in [schedule] *)

Lemma schedule_ok B s :
  good (waiters B) s → entering s → sure s idler → (pending (env s) < fuel)%nat →
  ∃ s', task_preempt fuel s = Ret s' ∧ sys_ok (mk_tsys s' B).
Proof.
  intros Hg He Hs Hc. destruct (preempt_ok (waiters B) (waiters_stable B) fuel s idler Hg He Hs Hc) as (s' & Hrun & [? ? ? _ _ Hm]).
  exists s'. split; [done|]. constructor; try done. cbn. pose proof (m_pending _ _ Hm). lia.
Qed.

Lemma entering_queued s : tinv s → current s ∈ ready s → entering s.
Proof. intros Hi Hc. destruct (iv_queued s Hi _ Hc) as [t Ht]. exists t. split; [done|by left]. Qed.

Lemma tick_ok y : sys_ok y → ∃ s, task_preempt fuel (ts y) = Ret s ∧ sys_ok (mk_tsys s (blocked y)).
Proof. intros [Hg Hc Hs Hp]. apply schedule_ok; try done. apply entering_queued; [apply Hg|done]. Qed.

Lemma sure_other s a f l b : sure s b → a ≠ b → b ∈ l → sure (with_ready (upd s a f) l) b.
Proof.
  intros [(Hq & t & Ht & Hx) Hs] Hne Hl. split; [|done]. split; [done|]. exists t. split; [|done].
  change (tasks (with_ready (upd s a f) l)) with (tasks (upd s a f)). by rewrite lookup_upd, decide_False by done.
Qed.

Lemma sure_upd s a f b : sure s b → a ≠ b → sure (upd s a f) b.
Proof. intros Hs Hne. exact (sure_other s a f (ready s) b Hs Hne (proj1 (proj1 Hs))). Qed.

Lemma task_exit_ok y n : sys_ok y → calling y → current (ts y) ≠ idler → ∃ s, sys_exit fuel (ts y) n = Ret s ∧ sys_ok (mk_tsys s (blocked y)).
Proof.
  intros [Hg Hc Hs Hp] [Hr _] Hne. unfold sys_exit, task_kill. set (s := ts y) in *. change (current (mark_exit s (current s) n)) with (current s).
  rewrite Z.eqb_refl. destruct (mark_exit_inv s (current s) n) as [Hi Hb]; [apply Hg|apply Hg|done|].
  apply schedule_ok; [..|done].
  - apply good_ticks; [apply waiters_stable|]. split; [done|done|]. apply waiters_kill; [apply Hg|done|apply Hg].
  - apply entering_queued; [|done]. by apply ticks_inv.
  - apply sure_upd; [|done]. by apply sure_upd.
Qed.

Lemma put_to_wait_entering s a w t : tasks s !! a = Some t → current s = a → wait_ok w → entering (put_to_wait s a w).
Proof.
  intros Ht Hc (W1 & W2 & W3). exists (set_flags (λ f, Z.lor f (Z.lor w TF_RESCHED)) t). change (current (put_to_wait s a w)) with (current s).
  rewrite Hc. split.
  - unfold put_to_wait. rewrite lookup_upd, decide_True by done. change (tasks (unqueue s a)) with (tasks s). by rewrite Ht.
  - right. by destruct (wait_flags (t_flags t) w W1 W2 W3) as (? & _ & _ & ?).
Qed.

Lemma wait_ok_run s w : wait_ok w → task_wait fuel s (current s) w = task_preempt fuel (put_to_wait s (current s) w).
Proof. intros (W & _). unfold task_wait. unfold flag in W. by destruct (Z.land w TF_WAITMASK =? 0). Qed.

Lemma wait_step y w : sys_ok y → current (ts y) ≠ idler → plain_wait w →
  ∃ s, task_wait fuel (ts y) (current (ts y)) w = Ret s ∧ sys_ok (mk_tsys s (blocked y)).
Proof.
  intros [Hg Hc Hs Hp] Hne Hw. set (s := ts y) in *. pose proof Hw as [Hwo _]. rewrite wait_ok_run by done.
  destruct (iv_queued s (g_inv _ _ Hg) _ Hc) as [t Ht].
  destruct (put_to_wait_inv s (current s) w) as [Hi Hb]; [apply Hg|apply Hg|done|done|]. apply schedule_ok; [..|done].
  - split; [done|done|]. apply waiters_wait; [apply Hg|done|done|apply Hg].
  - by apply (put_to_wait_entering s (current s) w t).
  - apply (sure_other s (current s) (set_flags (λ f, Z.lor f (Z.lor w TF_RESCHED))) (without (current s) (ready s))); [done|done|].
    apply elem_without. split; [done|apply Hs].
Qed.

(** ** New tasks *)

(** The environment after a structure was allocated at [a]. *)
Record allocated (r0 : R) a (r : R) : Prop := {
  al_null : a ≠ 0;
  al_fresh : a ∉ env_live r0;
  al_live : env_live r = {[a]} ∪ env_live r0;
  al_ok : env_ok r;
  al_pending : (pending r <= pending r0)%nat;
  al_shield : ∀ b, shielded r0 b → shielded r b;
}.

Lemma alloc_allocated r0 a r : env_ok r0 → task_alloc r0 = Some (a, r) → allocated r0 a r.
Proof. intros Hok Ha. destruct (alloc_fresh r0 a r Hok Ha) as (? & ? & ? & ? & ? & ? & _). by constructor. Qed.

Lemma allocated_mild r0 a r r' : allocated r0 a r → mild r r' → allocated r0 a r'.
Proof. intros [] []. constructor; try done; [congruence|lia|naive_solver]. Qed.

Lemma sys_ok_fg y n : sys_ok y → sys_ok (mk_tsys (with_fg (ts y) n) (blocked y)).
Proof.
  intros [[Hi Hb Hw] Hc Hs Hp]. constructor; try done. split; [by apply with_fg_inv|done|]. by apply (waiters_tasks _ (ts y)).
Qed.

Lemma born_ok y a r t alone cur :
  let s := ts y in
  let s1 := enlist (with_env (with_pid s (next_pid s + 1)) r) a t alone in
  sys_ok y → calling y → tasks s !! current s = Some cur → allocated (env s) a r →
  t_pid t = next_pid s → t_parent t = Some (current s) → t_children t = [] → idle t = false → (alone = true → t_pid cur = 0) →
  sys_ok (mk_tsys s1 (blocked y)).
Proof.
  intros s s1 [Hg Hc Hs Hp] [Hr _] Hcur [A1 A2 A3 A4 A5 A6] T1 T2 T3 T4 T5. pose proof Hg as [Hi Hb Hw].
  assert (Hf : tasks s !! a = None).
  { destruct (tasks s !! a) as [x|] eqn:Hx; [|done]. exfalso. apply A2, (iv_live s Hi). by exists x. }
  destruct (enlist_frame s a t cur alone r T5) as (Er & Eg & Ep & Ee & Ec).
  constructor; cbn [ts blocked].
  - split; [by apply (enlist_inv s a t cur alone r)|by apply (enlist_barren s a t cur alone r)|by apply (enlist_waiters s a t cur alone r)].
  - unfold s1. rewrite Er, Ec. by right.
  - destruct Hs as [(Hq & x & Hx & Hx') Hsh]. unfold s1. split; [split|].
    + rewrite Er. by right.
    + destruct (enlist_new s a t cur alone r Hi Hb Hf A1 Hcur Hc A3 A4 T1 T2 T3 T4 T5 idler x Hx) as (_ & x' & Hx1 & _ & _ & Ef & _). exists x'. split; [done|].
      unfold T_EXITING in *. by rewrite Ef.
    + rewrite Ee. by apply A6.
  - unfold s1. rewrite Ee. by apply (Nat.le_lt_trans _ (pending (env s))).
Qed.

(** The structure is freed again when the page directory cannot be copied. *)
Lemma unborn_ok y a r :
  sys_ok y → allocated (env (ts y)) a r →
  sys_ok (mk_tsys (with_env (with_pid (ts y) (next_pid (ts y) + 1)) (task_dealloc r a)) (blocked y)).
Proof.
  intros [Hg Hc Hs Hp] [A1 A2 A3 A4 A5 A6]. destruct (dealloc_live r a A4) as (D1 & D2 & D3 & D4). pose proof (g_inv _ _ Hg) as Hi.
  constructor; cbn [ts blocked].
  - split; [|exact (g_barren _ _ Hg)|by apply (waiters_tasks _ (ts y)), Hg]. destruct Hi. constructor; try done.
    + intros b x Hb. specialize (iv_pid b x Hb). cbn. lia.
    + intros b Hb. apply iv_live in Hb. cbn. rewrite D1, A3. set_solver.
  - done.
  - destruct Hs as [Hs1 Hs2]. split; [exact Hs1|]. apply D4, A6, Hs2.
  - cbn. lia.
Qed.

Lemma task_fork_ok y : sys_ok y → calling y → room (ts y) false → ∃ s pid, sys_fork fuel (ts y) = Ret (s, pid) ∧ sys_ok (mk_tsys s (blocked y)).
Proof.
  intros Hok Hcall (a & r & Ha & _). pose proof Hok as [Hg Hc Hs Hp]. set (s := ts y) in *. pose proof (g_inv _ _ Hg) as Hi.
  destruct (iv_queued s Hi _ Hc) as [cur Hcur]. pose proof (alloc_allocated _ _ _ (iv_env s Hi) Ha) as Hal.
  unfold sys_fork. rewrite Ha. change (get (with_pid s _) (current (with_pid s _))) with (get s (current s)).
  rewrite (get_some _ _ _ Hcur). cbn [obind]. pose proof (dir_copy_mild r (t_dir cur) (al_ok _ _ _ Hal)) as Hd.
  destruct (dir_copy r (t_dir cur)) as [r1 [d|]]; cbn in Hd; pose proof (allocated_mild _ _ _ _ Hal Hd) as Hal1.
  - set (r2 := ipc_copy _ _ _).
    assert (Hal2 : allocated (env s) a r2).
    { assert (M1 := ipc_init_mild r1 a (al_ok _ _ _ Hal1)). assert (M2 := vfs_copy_mild (ipc_init r1 a) (current s) a (m_ok _ _ M1)).
      assert (M3 := ipc_copy_mild _ (current s) a (m_ok _ _ M2)).
      apply (allocated_mild _ _ _ _ Hal1), (mild_trans _ _ _ M1), (mild_trans _ _ _ M2 M3). }
    set (s1 := enlist _ _ _ _).
    assert (Hok1 : sys_ok (mk_tsys s1 (blocked y))).
    { apply (born_ok y a r2 _ false cur Hok Hcall Hcur Hal2); try done. destruct (queued_alive s _ cur Hi Hc Hcur) as [W Z].
      unfold idle, T_WAITING, T_ISZOMBIE in *. cbn. by rewrite W, Z. }
    destruct (setfg_ret s1 (next_pid s)) as [n ->]; [apply Hok1|]. cbn [obind].
    destruct (tick_ok _ (sys_ok_fg _ n Hok1)) as (s' & Hrun & Hok'). cbn [ts blocked] in Hrun, Hok'.
    rewrite Hrun. cbn [obind]. eauto.
  - eexists _, _. split; [done|]. by apply (unborn_ok y).
Qed.

Lemma spawn_ok y kern :
  sys_ok y → calling y → room (ts y) kern → (kern = true → first_task (ts y)) →
  ∃ s pid, task_spawn fuel (ts y) kern = Ret (s, pid) ∧ sys_ok (mk_tsys s (blocked y)).
Proof.
  intros Hok Hcall (a & r & Ha & Hdir) Hfirst. pose proof Hok as [Hg Hc Hs Hp]. set (s := ts y) in *. pose proof (g_inv _ _ Hg) as Hi.
  destruct (iv_queued s Hi _ Hc) as [cur Hcur]. pose proof (alloc_allocated _ _ _ (iv_env s Hi) Ha) as Hal.
  unfold task_spawn. rewrite Ha. change (get (with_pid s _) (current (with_pid s _))) with (get s (current s)).
  rewrite (get_some _ _ _ Hcur). cbn [obind]. change (current (with_pid s _)) with (current s).
  set (r1 := if kern then vfs_init r a else vfs_copy r (current s) a).
  assert (M1 : mild r r1) by (unfold r1; destruct kern; [apply vfs_init_mild|apply vfs_copy_mild]; apply Hal).
  pose proof (dir_copy_mild r1 (t_dir cur) (m_ok _ _ M1)) as M2.
  assert (Hd : kern = true → (dir_copy r1 (t_dir cur)).2 ≠ None).
  { intros E. unfold r1. rewrite E. by apply Hdir. }
  destruct (dir_copy r1 (t_dir cur)) as [r2 [d|]]; cbn in M2, Hd;
    pose proof (allocated_mild _ _ _ _ Hal (mild_trans _ _ _ M1 M2)) as Hal2.
  - set (r3 := if kern then dir_strip r2 d else r2).
    assert (M3 : mild r2 r3) by (unfold r3; destruct kern; [apply dir_strip_mild|apply mild_refl]; apply Hal2).
    pose proof (ipc_init_mild r3 a (m_ok _ _ M3)) as M4.
    set (s1 := enlist _ _ _ _).
    assert (Hok1 : sys_ok (mk_tsys s1 (blocked y))).
    { apply (born_ok y a (ipc_init r3 a) _ kern cur Hok Hcall Hcur (allocated_mild _ _ _ _ Hal2 (mild_trans _ _ _ M3 M4))); try done.
      intros E. destruct (Hfirst E) as (x & Hx & Hx0). congruence. }
    assert (Hfg : ∃ n, (if kern then Ret s1 else task_setfg s1 (next_pid s)) = Ret (with_fg s1 n)).
    { destruct kern; [exists (foreground_pid s1); by destruct s1|]. apply setfg_ret, Hok1. }
    destruct Hfg as [n ->]. cbn [obind]. destruct (tick_ok _ (sys_ok_fg _ n Hok1)) as (s' & Hrun & Hok'). cbn [ts blocked] in Hrun, Hok'.
    rewrite Hrun. cbn [obind]. eauto.
  - destruct kern; [by destruct (Hd eq_refl)|]. eexists _, _. split; [done|].
    apply (unborn_ok y); [done|]. apply (allocated_mild _ _ _ _ Hal2), ipc_init_mild, Hal2.
Qed.

(** ** Calls that change one structure *)

Lemma wake_ok y a t : sys_ok y → tasks (ts y) !! a = Some t → in_wait t = false →
  ∃ s, task_wakeup (ts y) a = Ret s ∧ sys_ok (mk_tsys s (blocked y)).
Proof.
  intros [Hg Hc Hs Hp] Ht Hin. set (s := ts y) in *. pose proof (g_inv _ _ Hg) as Hi. destruct (T_WAITING t) eqn:Hw.
  2: { exists s. unfold task_wakeup. rewrite (get_some _ _ _ Ht). cbn [obind]. rewrite Hw. split; [done|]. by constructor. }
  rewrite (wakeup_run s a t Hi Ht Hw). eexists. split; [done|]. pose proof (waiting_alive s a t Hi Ht Hw) as Hz.
  destruct (wake_flags (t_flags t)) as (E1 & E2 & E3 & _).
  assert (Hne : a ≠ idler). { intros ->. destruct Hs as [[Hq _] _]. destruct (queued_alive s idler t Hi Hq Ht). congruence. }
  constructor; cbn [ts blocked].
  - split; [by apply (wakeup_inv s a t)|..].
    + change (barren (with_ready ?x _)) with (barren x). apply upd_barren; [apply Hg|by intros x|].
      intros x Hx HZ. assert (x = t) as -> by congruence. unfold T_ISZOMBIE, awake in *. cbn in HZ. congruence.
    + apply (waiters_tasks _ (upd s a awake)); [done|]. apply waiters_upd; [|apply Hg]. intros x Hx. assert (x = t) as -> by congruence.
      unfold same_wait, T_EXITING, T_ISZOMBIE, awake. cbn. rewrite E2, E3. do 4 (split; [done|]). split; [|done].
      rewrite Hin. apply not_true_is_false. intros Ei. apply in_wait_waiting in Ei. unfold T_WAITING in Ei. cbn in Ei. congruence.
  - by right.
  - apply (sure_other s a awake (a :: ready s)); [done|done|]. right. apply Hs.
  - done.
Qed.

Lemma setsid_ok y : sys_ok y → ∃ s n, task_setsid (ts y) = Ret (s, n) ∧ sys_ok (mk_tsys s (blocked y)).
Proof.
  intros [Hg Hc Hs Hp]. set (s := ts y) in *. destruct (iv_queued s (g_inv _ _ Hg) _ Hc) as [t Ht]. unfold task_setsid.
  rewrite (get_some _ _ _ Ht). cbn [obind]. case_if; [exists s, (-1); split; [done|by constructor]|].
  eexists _, _. split; [done|]. constructor; cbn [ts blocked]; [|done| |done].
  - split; [apply upd_inv; [apply Hg|by intros x|done|done]|apply upd_barren; [apply Hg|by intros x|done]|].
    by apply waiters_upd, Hg.
  - split; [|apply Hs]. apply runnable_upd; [done|apply Hs].
Qed.

Lemma detached_eq s a : upd (unsibling s a) a (set_parent None) = estrange s a.
Proof.
  unfold estrange, upd, unsibling, with_tasks. cbn. f_equal. apply map_eq. intros b. rewrite lookup_alter, !lookup_fmap, lookup_alter.
  case_decide as E; [subst b|done]. by destruct (tasks s !! a).
Qed.

Lemma estrange_ok y a t : sys_ok y → tasks (ts y) !! a = Some t → T_ISZOMBIE t = false → sys_ok (mk_tsys (estrange (ts y) a) (blocked y)).
Proof.
  intros [Hg Hc Hs Hp] Ht Hz. set (s := ts y) in *.
  assert (L : ∀ b x', tasks (estrange s a) !! b = Some x' → ∃ x, tasks s !! b = Some x ∧ t_flags x' = t_flags x ∧ t_pid x' = t_pid x
    ∧ t_children x' = without a (t_children x) ∧ t_waitfor x' = t_waitfor x ∧ t_status x' = t_status x).
  { intros b x'. rewrite lookup_estrange. destruct (tasks s !! b) as [x|]; [|done]. intros [= <-]. exists x. by case_decide. }
  constructor; cbn [ts blocked]; [split| | |done].
  - apply estrange_inv, Hg.
  - intros b x' Hb HZ. destruct (L b x' Hb) as (x & Hx & Ef & _ & -> & _). unfold T_ISZOMBIE in HZ. rewrite Ef in HZ.
    by rewrite (g_barren _ _ Hg b x Hx HZ).
  - destruct (g_client _ _ Hg) as [W1 W2 W3 W4]. constructor.
    + intros b x' HB Hb X1 X2. destruct (L b x' Hb) as (x & Hx & Ef & _ & _ & Ew & Es). unfold T_EXITING, T_ISZOMBIE, in_wait in *.
      rewrite Ef in *. destruct (W1 b x HB Hx X1 X2) as [?|(z & u & Hu & U1 & U2 & U3 & U4)]; [by left|right].
      assert (Hza : a ≠ z) by (intros ->; unfold T_ISZOMBIE in U1; congruence).
      exists z, (set_children (without a) u). rewrite lookup_estrange, Hu. cbn. rewrite decide_False by done. by rewrite Ew, Es.
    + intros b x' Hb Hw. destruct (L b x' Hb) as (x & Hx & Ef & _). apply (W2 b x Hx). unfold in_wait in *. by rewrite <- Ef.
    + intros b x' HB Hb. destruct (L b x' Hb) as (x & Hx & _ & -> & _). by apply (W3 b x).
    + intros b HB. rewrite lookup_estrange, fmap_is_Some. by apply W4.
  - exact Hc.
  - destruct Hs as [(Hq & x & Hx & Hx') Hsh]. split; [|done]. split; [done|].
    exists (set_children (without a) (if decide (a = idler) then set_parent None x else x)).
    rewrite lookup_estrange, Hx. split; [done|]. by case_decide.
Qed.

Lemma detach_ok y pid :
  sys_ok y → (∀ a t, tasks (ts y) !! a = Some t → t_pid t = pid → T_ISZOMBIE t = false) →
  ∃ s, task_detach (ts y) pid = Ret s ∧ sys_ok (mk_tsys s (blocked y)).
Proof.
  intros Hok Hz. pose proof Hok as [Hg _ _ _]. pose proof (g_inv _ _ Hg) as Hi. unfold task_detach.
  destruct (task_lookup_ret (ts y) pid Hi) as ([a|] & -> & Hspec); cbn [obind]; [|exists (ts y); split; [done|by destruct y]].
  destruct Hspec as (t & Ht & Hpid). rewrite (get_some _ _ _ Ht). cbn [obind]. case_if.
  - destruct (t_parent t) as [p|] eqn:Hp.
    + destruct (iv_parent _ Hi a t p Ht Hp) as (u & Hu & _). rewrite (get_some _ _ _ Hu). cbn [obind].
      destruct (setfg_ret (ts y) (t_pid u) Hi) as [n ->]. cbn [obind]. eexists. split; [done|]. rewrite detached_eq.
      apply (estrange_ok (mk_tsys (with_fg (ts y) n) (blocked y)) a t); [by apply (sys_ok_fg y)|done|by apply (Hz a)].
    + destruct (setfg_ret (ts y) 0 Hi) as [n ->]. eexists. split; [done|]. by apply (sys_ok_fg y).
  - eexists. split; [done|]. rewrite detached_eq. apply (estrange_ok y a t); [done|done|by apply (Hz a)].
Qed.

(** ** [waitpid] *)

(** A dead child of [p]. *)
Definition dead_child s p z u : Prop := tasks s !! z = Some u ∧ T_ISZOMBIE u = true ∧ t_parent u = Some p.

Lemma scan_spec s p cs gid : ∀ pid st,
  (∀ c, c ∈ cs → ∃ t, tasks s !! c = Some t ∧ t_parent t = Some p) →
  ∃ pid' st', scan_children s cs gid pid st = Ret (pid', st') ∧
    ((pid', st') = (pid, st) ∨ ∃ z u, z ∈ cs ∧ dead_child s p z u ∧ t_pid u = pid' ∧ st' = Some (t_status u)).
Proof.
  induction cs as [|c cs IH]; intros pid st Hcs; cbn [scan_children]; [eauto 10|].
  destruct (Hcs c) as (t & Ht & Hp); [by left|]. rewrite (get_some _ _ _ Ht). cbn [obind].
  assert (Hcs' : ∀ c, c ∈ cs → ∃ t, tasks s !! c = Some t ∧ t_parent t = Some p) by (intros c' Hc'; apply Hcs; by right).
  destruct (T_ISZOMBIE t && _) eqn:Hm.
  - apply andb_true_iff in Hm as [Hz _]. destruct (IH (t_pid t) (Some (t_status t)) Hcs') as (pid' & st' & -> & [E|(z & u & Hz' & ?)]).
    + injection E as -> ->. eexists _, _. split; [done|]. right. exists c, t. split; [by left|]. done.
    + eexists _, _. split; [done|]. right. exists z, u. split; [by right|done].
  - destruct (IH pid st Hcs') as (pid' & st' & -> & [E|(z & u & Hz' & ?)]); eexists _, _; (split; [done|]); [by left|right].
    exists z, u. split; [by right|done].
Qed.

(** The dead child is collected by the current task. *)
Lemma collect_ok y B z u :
  let s := ts y in
  sys_ok y → dead_child s (current s) z u → B = blocked y ∖ {[current s]} →
  reap s (t_pid u) = Ret (reaped s z) ∧ sys_ok (mk_tsys (reaped s z) (still B (reaped s z))).
Proof.
  intros s Hok Hdead ->. pose proof Hok as [Hg Hc Hs Hp]. destruct Hdead as (Hz & Hzu & Hpar). fold s in Hg, Hc, Hs, Hp.
  pose proof (g_inv _ _ Hg) as Hi. split; [by apply (reap_run s z u (current s))|]. clear Hok.
  destruct (reaped_inv s z u Hi (g_barren _ _ Hg) Hz Hzu) as [Hi' Hb']. constructor; cbn [ts blocked]; [split; [done|done|]| | |].
  - apply (reaped_waiters _ s z u (current s)); try done; [apply Hg|]. intros t Ht.
    destruct (in_wait t) eqn:Ei; [|done]. apply in_wait_waiting in Ei. destruct (queued_alive s _ t Hi Hc Ht). congruence.
  - exact Hc.
  - destruct Hs as [(Hq & x & Hx & Hx') Hsh]. split; [split; [done|]|].
    + exists (set_children (without z) x). rewrite lookup_reaped. case_decide as E; [|by rewrite Hx].
      subst z. destruct (queued_alive s idler x Hi Hq Hx). congruence.
    + by apply dealloc_live; [apply Hi|].
  - destruct (dealloc_live (env s) z) as (_ & _ & Hd & _); [apply Hi|]. cbn. lia.
Qed.

(** The current task falls asleep in [waitpid]. *)
Lemma fall_asleep y pid :
  sys_ok y → calling y → current (ts y) ≠ idler → ¬ first_task (ts y) →
  ∃ s, task_wait fuel (upd (ts y) (current (ts y)) (set_wait pid)) (current (ts y)) TF_WAITTASK = Ret s
    ∧ sys_ok (mk_tsys s ({[current (ts y)]} ∪ blocked y)).
Proof.
  intros [Hg Hc Hs Hp] [Hr Hnb] Hne Hfirst. set (s := ts y) in *. set (c := current s) in *. pose proof (g_inv _ _ Hg) as Hi.
  destruct (iv_queued s Hi _ Hc) as [t Ht]. set (s1 := upd s c (set_wait pid)).
  assert (Hi1 : tinv s1) by (apply upd_inv; [done|by intros x|done|done]).
  assert (Hb1 : barren s1) by (apply upd_barren; [apply Hg|by intros x|done]).
  assert (Ht1 : tasks s1 !! c = Some (set_wait pid t)) by (unfold s1; by rewrite lookup_upd, decide_True, Ht).
  change c with (current s1) at 1. rewrite wait_ok_run by done. change (current s1) with c.
  destruct (put_to_wait_inv s1 c TF_WAITTASK Hi1 Hb1 Hc) as [Hi2 Hb2]; [done|]. set (s2 := put_to_wait s1 c TF_WAITTASK) in *.
  assert (Lc : tasks s2 !! c = Some (set_flags (λ f, Z.lor f (Z.lor TF_WAITTASK TF_RESCHED)) (set_wait pid t))).
  { unfold s2, put_to_wait. rewrite lookup_upd, decide_True by done. change (tasks (unqueue s1 c)) with (tasks s1). by rewrite Ht1. }
  assert (Lo : ∀ b, b ≠ c → tasks s2 !! b = tasks s !! b).
  { intros b Hb. unfold s2, put_to_wait. rewrite lookup_upd, decide_False by done. change (tasks (unqueue s1 c)) with (tasks s1).
    unfold s1. by rewrite lookup_upd, decide_False by done. }
  apply schedule_ok; [split; [done|done|]| | |done].
  - destruct (g_client _ _ Hg) as [W1 W2 W3 W4]. destruct (queued_alive s c t Hi Hc Ht) as [_ Hzt].
    assert (Hin : in_wait (set_flags (λ f, Z.lor f (Z.lor TF_WAITTASK TF_RESCHED)) (set_wait pid t)) = true).
    { unfold in_wait. cbn. rewrite Z.land_lor_distr_l. change (Z.land (Z.lor TF_WAITTASK TF_RESCHED) TF_WAITTASK) with TF_WAITTASK.
      apply Z.eqb_eq. apply Z.bits_inj'. intros j _.
      rewrite Z.lor_spec, Z.land_spec. by destruct (Z.testbit TF_WAITTASK j), (Z.testbit (t_flags t) j). }
    constructor.
    + intros b x HB Hb X1 X2. destruct (decide (b = c)) as [->|Hbc]; [rewrite Lc in Hb; injection Hb as <-; by left|].
      rewrite Lo in Hb by done. destruct (W1 b x) as [?|(z & u & Hu & U1 & ?)]; [set_solver|done|done|done|by left|right].
      exists z, u. rewrite Lo; [done|]. intros ->. congruence.
    + intros b x Hb Hw. destruct (decide (b = c)) as [->|Hbc]; [set_solver|]. rewrite Lo in Hb by done. apply elem_of_union_r, (W2 b x Hb Hw).
    + intros b x HB Hb. destruct (decide (b = c)) as [->|Hbc].
      * rewrite Lc in Hb. injection Hb as <-. cbn. intros E. apply Hfirst. by exists t.
      * rewrite Lo in Hb by done. apply (W3 b x); [set_solver|done].
    + intros b HB. destruct (decide (b = c)) as [->|Hbc]; [by rewrite Lc|]. rewrite Lo by done. apply W4. set_solver.
  - by apply (put_to_wait_entering s1 c TF_WAITTASK (set_wait pid t)).
  - apply (sure_other s1 c (set_flags (λ f, Z.lor f (Z.lor TF_WAITTASK TF_RESCHED))) (without c (ready s1))); [by apply sure_upd|done|].
    apply elem_without. split; [done|apply Hs].
Qed.

(** What [waitpid] finds before it would have to wait. *)
Lemma waitpid_search s me pid :
  tinv s → tasks s !! current s = Some me →
  ∃ found,
    (if 0 <? pid then
       r <~ task_lookup s pid ;;
       match r with
       | None => Ret (Err ECHILD)
       | Some a =>
           t <~ get s a ;;
           if negb (bool_decide (t_parent t = Some (current s))) then Ret (Err ECHILD)
           else if T_ISZOMBIE t then Ret (Ok (t_pid t, Some (t_status t)))
           else Ret (Ok (pid, None))
       end
     else ' (p, st) <~ scan_children s (t_children me) (t_gid me) pid None ;; Ret (Ok (p, st))) = Ret found
    ∧ ∀ p st, found = Ok (p, Some st) → ∃ z u, dead_child s (current s) z u ∧ t_pid u = p ∧ t_status u = st.
Proof.
  intros Hi Hme. case_if.
  - destruct (task_lookup_ret s pid Hi) as ([a|] & -> & Hspec); cbn [obind]; [|eexists; by split].
    destruct Hspec as (t & Ht & Hpid). rewrite (get_some _ _ _ Ht). cbn [obind]. case_bool_decide as Hp; cbn [negb]; [|eexists; by split].
    destruct (T_ISZOMBIE t) eqn:Hz; eexists; (split; [done|]); [|done]. intros p st [= <- <-]. exists a, t. done.
  - destruct (scan_spec s (current s) (t_children me) (t_gid me) pid None) as (p & st & -> & Hor).
    { intros c Hc. destruct (iv_child s Hi _ me c Hme Hc) as (t & Ht & Hp & _). eauto. }
    cbn [obind]. eexists. split; [done|]. intros p' st' [= -> ->]. destruct Hor as [[=]|(z & u & _ & Hd & E1 & E2)].
    exists z, u. injection E2 as ->. done.
Qed.

Lemma waitpid_ok y pid options :
  sys_ok y → calling y → current (ts y) ≠ idler → ¬ first_task (ts y) →
  ∃ s r, waitpid_enter fuel (ts y) pid true options = Ret (s, r)
    ∧ sys_ok (mk_tsys s (match r with WBlocked => {[current (ts y)]} ∪ blocked y | WDone _ _ => still (blocked y) s end)).
Proof.
  intros Hok Hcall Hne Hfirst. pose proof Hok as [Hg Hc _ _]. pose proof (g_inv _ _ Hg) as Hi.
  assert (Hsame : sys_ok (mk_tsys (ts y) (still (blocked y) (ts y)))) by (rewrite still_id by apply Hg; by destruct y).
  unfold waitpid_enter. case_if; [by eexists _, _|]. destruct (iv_queued _ Hi _ Hc) as [me Hme]. rewrite (get_some _ _ _ Hme). cbn [obind].
  destruct (waitpid_search (ts y) me pid Hi Hme) as (found & -> & Hfound). cbn [obind].
  destruct found as [[p [st|]]|e]; [| |by eexists _, _].
  - destruct (Hfound p st eq_refl) as (z & u & Hd & <- & _).
    destruct (collect_ok y (blocked y) z u Hok Hd) as [-> Hok']; [destruct Hcall as [_ Hnb]; set_solver|]. cbn [obind]. by eexists _, _.
  - case_if; [by eexists _, _|]. destruct (fall_asleep y p Hok Hcall Hne Hfirst) as (s & -> & Hok'). cbn [obind]. by eexists _, _.
Qed.

(** Back from the wait: some child is dead, and this is the one that is
    collected and reported. *)
Lemma resume_ok y :
  let s := ts y in
  sys_ok y → runnable s (current s) → current s ∈ blocked y →
  ∃ z u, dead_child s (current s) z u
    ∧ waitpid_resume s true = Ret (reaped s z, WDone (Ok (t_pid u)) (Some (t_status u)))
    ∧ sys_ok (mk_tsys (reaped s z) (still (blocked y ∖ {[current s]}) (reaped s z))).
Proof.
  intros s Hok (Hq & t & Ht & Hx) HB. pose proof Hok as [Hg Hc _ _]. fold s in Hg, Hc. pose proof (g_inv _ _ Hg) as Hi.
  destruct (queued_alive s _ t Hi Hq Ht) as [Hw Hz].
  destruct (w_in _ _ (g_client _ _ Hg) (current s) t HB Ht Hx Hz) as [Hin|(z & u & Hu & U1 & U2 & U3 & U4)].
  { apply in_wait_waiting in Hin. congruence. }
  exists z, u. assert (Hd : dead_child s (current s) z u) by done. split; [done|].
  destruct (collect_ok y (blocked y ∖ {[current s]}) z u Hok Hd eq_refl) as [Hr Hok']. split; [|exact Hok'].
  unfold waitpid_resume. rewrite (get_some _ _ _ Ht). cbn [obind negb]. rewrite <- U3, <- U4. fold s in Hr. by rewrite Hr.
Qed.

(** * Every step *)

Lemma step_ok y v : sys_ok y → enabled y v → ∃ y', step y v = Ret y' ∧ sys_ok y'.
Proof.
  intros Hok He. destruct v; cbn [step enabled] in *.
  - destruct (tick_ok y Hok) as (s & -> & ?). by eexists.
  - destruct (task_fork_ok y Hok) as (s & pid & -> & ?); [apply He..|]. by eexists.
  - destruct (spawn_ok y kern Hok) as (s & pid & -> & ?); [apply He..|]. by eexists.
  - destruct (task_exit_ok y status Hok) as (s & -> & ?); [apply He..|]. by eexists.
  - destruct (wait_step y w Hok) as (s & -> & ?); [apply He..|]. by eexists.
  - destruct He as (t & Ht & Hin). destruct (wake_ok y a t Hok Ht Hin) as (s & -> & ?). by eexists.
  - destruct (waitpid_ok y pid options Hok) as (s & r & -> & ?); [apply He..|]. cbn [obind]. by eexists.
  - destruct (resume_ok y Hok) as (z & u & _ & -> & ?); [apply He..|]. by eexists.
  - destruct (setsid_ok y Hok) as (s & n & -> & ?). by eexists.
  - destruct (detach_ok y pid Hok) as (s & -> & ?); [apply He|]. by eexists.
Qed.

(** The states reached by enabled steps. *)
Inductive treach (y : tsys) : tsys → Prop :=
  | treach_refl : treach y y
  | treach_step y1 v y2 : treach y y1 → enabled y1 v → step y1 v = Ret y2 → treach y y2.

Lemma treach_ok y y' : sys_ok y → treach y y' → sys_ok y'.
Proof.
  intros Hok. induction 1 as [|y1 v y2 _ IH He Hs]; [done|]. destruct (step_ok y1 v IH He) as (y3 & Hs' & ?). congruence.
Qed.
End Steps.
