(* ===== verification/TaskProps.v ===== *)
(** What the task operations promise, on an environment that meets the
    interface, and what they do on concrete runs. *)

From S2P Require Import Prelude Task TaskInv TaskSched TaskSystem TaskSteps.

Section Boot.
Context {R : Type} `{TaskEnvLaws R}.

(** The system right after [task_init], whose task is the idle one. *)
Definition boot (r : R) (a dir : Z) : tsys := mk_tsys (task_init r a dir) ∅.

Lemma boot_ok fuel r a dir :
  env_ok r → a ∈ env_live r → a ≠ 0 → shielded r a → (pending r < fuel)%nat → sys_ok fuel a (boot r a dir).
Proof.
  intros Hok Ha Hnull Hs Hp. set (r' := ipc_init (vfs_init r a) a).
  assert (M : mild r r').
  { assert (M1 := vfs_init_mild r a Hok). apply (mild_trans _ _ _ M1), ipc_init_mild, M1. }
  assert (L : ∀ b t, tasks (task_init r a dir) !! b = Some t → b = a ∧ t = blank 0 TF_RUNNING dir (Some a)).
  { intros b t Hb. cbn in Hb. by apply lookup_singleton_Some in Hb as [<- <-]. }
  assert (La : tasks (task_init r a dir) !! a = Some (blank 0 TF_RUNNING dir (Some a))) by apply lookup_singleton_eq.
  constructor; cbn [boot ts blocked].
  - split; [constructor|..].
    + by apply lookup_singleton_ne.
    + intros b. cbn [task_init glob]. rewrite list_elem_of_singleton. split; [intros ->; by rewrite La|]. intros [t Ht]. by apply L in Ht as [-> _].
    + apply NoDup_singleton.
    + apply NoDup_singleton.
    + intros b ->%list_elem_of_singleton. by rewrite La.
    + intros b t [-> ->]%L. cbn. rewrite list_elem_of_singleton. done.
    + intros b t [-> ->]%L. cbn. lia.
    + by intros b c t u [-> ->]%L [-> ->]%L.
    + intros c t p [-> ->]%L [= <-]. eexists. split; [exact La|]. by right.
    + intros p u c [-> ->]%L Hc. by apply elem_of_nil in Hc.
    + intros p u [-> ->]%L. apply NoDup_nil_2.
    + by intros b t [-> ->]%L.
    + apply M.
    + intros b [t [-> ->]%L]. change (env (task_init r a dir)) with r'. by rewrite (m_live _ _ M).
    + by intros b t [-> ->]%L.
    + constructor; [set_solver|by intros b t [-> ->]%L|set_solver|set_solver].
  - by left.
  - split; [split; [by left|by eexists]|]. by apply (m_shield _ _ M).
  - change (env (task_init r a dir)) with r'. pose proof (m_pending _ _ M). lia.
Qed.


(** C6: A task that waits for children in waitpid and runs again: one of its
    children is dead, waitpid returns this child's process id with the status
    it exited with, and the child's structure is gone from the list of all
    tasks, from the families and from the heap.  The steps are those of
    [enabled]: no device wakes a task in waitpid, and the status pointer is not
    null (the code stores through it unchecked). *)
Theorem waitpid_collects fuel r a dir y :
  env_ok r → a ∈ env_live r → a ≠ 0 → shielded r a → (pending r < fuel)%nat →
  treach fuel a (boot r a dir) y → runnable (ts y) (current (ts y)) → current (ts y) ∈ blocked y →
  ∃ z u s', tasks (ts y) !! z = Some u ∧ T_ISZOMBIE u = true ∧ t_parent u = Some (current (ts y))
    ∧ waitpid_resume (ts y) true = Ret (s', WDone (Ok (t_pid u)) (Some (t_status u)))
    ∧ tasks s' !! z = None ∧ z ∉ glob s' ∧ (∀ p t, tasks s' !! p = Some t → z ∉ t_children t) ∧ z ∉ env_live (env s')
    ∧ ∀ b, b ≠ z → is_Some (tasks s' !! b) ↔ is_Some (tasks (ts y) !! b).
Proof.
  intros Hok Ha Hnull Hs Hp Hr Hrun HB.
  assert (Hy : sys_ok fuel a y) by (eapply treach_ok; [|exact Hr]; by apply boot_ok).
  destruct (resume_ok fuel a y Hy Hrun HB) as (z & u & (Hz & Hzu & Hpar) & Hres & Hy'). exists z, u, (reaped (ts y) z).
  assert (Hgone : tasks (reaped (ts y) z) !! z = None) by (by rewrite lookup_reaped, decide_True).
  pose proof (g_inv _ _ (so_good _ _ _ Hy')) as Hi'. cbn [ts] in Hi'. do 5 (split; [done|]).
  split; [|split; [|split]].
  - intros Hin. apply (iv_glob _ Hi') in Hin. rewrite Hgone in Hin. by destruct Hin.
  - intros p t Ht Hin. destruct (iv_child _ Hi' p t z Ht Hin) as (x & Hx & _). congruence.
  - pose proof (so_good _ _ _ Hy) as Hg. change (env (reaped (ts y) z)) with (task_dealloc (env (ts y)) z).
    destruct (dealloc_live (env (ts y)) z) as (-> & _); [apply Hg|]. set_solver.
  - intros b Hb. rewrite lookup_reaped, decide_False, fmap_is_Some by done. done.
Qed.
End Boot.

(** * Time slices *)

Section Fair.
Context {R : Type} `{TaskEnvLaws R}.
Implicit Types (s : tstate (R := R)).

(** [n] timer interrupts. *)
Fixpoint ticks (fuel n : nat) s : outcome (tstate (R := R)) :=
  match n with
  | O => Ret s
  | S n => s <~ task_preempt fuel s ;; ticks fuel n s
  end.

Lemma ticks_add fuel n m s s1 : ticks fuel n s = Ret s1 → ticks fuel (n + m) s = ticks fuel m s1.
Proof.
  revert s. induction n as [|n IH]; intros s; cbn; [by intros [= ->]|]. destruct (task_preempt fuel s); cbn; [apply IH|done|done].
Qed.

(** Computing tasks only: the tasks [l] of the queue run, none is about to
    give up the processor, no signal is pending. *)
Record computing (l : list Z) s : Prop := {
  cp_ready : ready s = l;
  cp_nodup : NoDup l;
  cp_current : current s ∈ l;
  cp_tasks : ∀ b, b ∈ l → ∃ t, tasks s !! b = Some t ∧ T_RUNNING t = true ∧ T_RESCHED t = false ∧ T_WAITING t = false
    ∧ T_EXITING t = false ∧ 0 <= t_ticks_left t <= 15;
  cp_env : env_ok (env s);
  cp_calm : ∀ b, shielded (env s) b;
}.

(** The task that follows [c], round the queue. *)
Definition follower (l : list Z) (c : Z) : option Z :=
  match next_of l c with Some x => Some x | None => head l end.

(** A tick within the slice. *)
Lemma tick_within fuel l s t :
  computing l s → l ≠ [current s] → tasks s !! current s = Some t → 0 < t_ticks_left t →
  ∃ s', task_preempt (S fuel) s = Ret s' ∧ computing l s' ∧ current s' = current s
    ∧ ∃ t', tasks s' !! current s = Some t' ∧ t_ticks_left t' = t_ticks_left t - 1.
Proof.
  intros [C1 C2 C3 C4 C5 C6] Hl Ht Hpos. destruct (C4 _ C3) as (x & Hx & X1 & X2 & X3 & X4 & X5). assert (x = t) as -> by congruence.
  cbn [task_preempt]. unfold list_is_lonely. rewrite bool_decide_false by congruence. rewrite (get_some _ _ _ Ht). cbn [obind].
  rewrite X1, X2. destruct (Z.eqb_spec (t_ticks_left t) 0); [lia|]. cbn [negb andb]. eexists. split; [done|].
  split; [constructor; try done|].
  - intros b Hb. destruct (C4 b Hb) as (u & Hu & U1 & U2 & U3 & U4 & U5). rewrite lookup_upd, Hu.
    case_decide; [subst b; assert (u = t) as -> by congruence|]; eexists; (split; [done|]); [|done]. cbn.
    do 4 (split; [done|]). lia.
  - split; [done|]. rewrite lookup_upd, decide_True, Ht by done. by eexists.
Qed.

(** The tick that ends the slice. *)
Lemma tick_switches fuel l s t :
  computing l s → l ≠ [current s] → tasks s !! current s = Some t → t_ticks_left t = 0 →
  ∃ s', task_preempt (S fuel) s = Ret s' ∧ computing l s' ∧ follower l (current s) = Some (current s').
Proof.
  intros [C1 C2 C3 C4 C5 C6] Hl Ht Hz. destruct (C4 _ C3) as (x & Hx & X1 & X2 & X3 & X4 & X5). assert (x = t) as -> by congruence.
  cbn [task_preempt]. unfold list_is_lonely. rewrite bool_decide_false by congruence. rewrite (get_some _ _ _ Ht). cbn [obind].
  rewrite Hz, X1. cbn [Z.eqb negb andb obind]. set (s1 := upd s (current s) _).
  assert (Hs1 : ∀ b, b ∈ l → ∃ u, tasks s1 !! b = Some u ∧ T_RUNNING u = true ∧ T_RESCHED u = false ∧ T_WAITING u = false
    ∧ T_EXITING u = false ∧ 0 <= t_ticks_left u <= 15).
  { intros b Hb. destruct (C4 b Hb) as (u & Hu & U1 & U2 & U3 & U4 & U5). unfold s1. rewrite lookup_upd, Hu.
    case_decide; [subst b|by eexists]. eexists. split; [done|]. destruct (resched_flags (t_flags u)) as (E1 & _ & E3 & E4).
    unfold T_RUNNING, T_RESCHED, T_WAITING, T_EXITING in *. cbn. rewrite E1, E3, E4. do 1 (split; [done|]). split; [|done].
    by apply flag_land_none. }
  assert (Hlen : ∃ n, (3 * length (ready s1) + 3)%nat = S (S n)) by (exists (3 * length (ready s1) + 1)%nat; lia).
  destruct Hlen as [n ->]. unfold link_next. change (ready s1) with (ready s). change (current s1) with (current s).
  rewrite C1, decide_True by done.
  assert (Hpick : ∃ a, follower l (current s) = Some a ∧ a ∈ l ∧ pick (S (S n)) s1 (next_of l (current s)) = Ret (s1, a)).
  { assert (Hone : ∀ k a, a ∈ l → pick (S k) s1 (Some a) = Ret (s1, a)).
    { intros k a Ha. destruct (Hs1 a Ha) as (u & Hu & _ & _ & U3 & U4 & _). cbn [pick]. rewrite (get_some _ _ _ Hu). cbn [obind].
      by rewrite U3, U4. }
    unfold follower. apply list_elem_of_split in C3 as (l1 & l2 & E).
    assert (Hnx : next_of l (current s) = head l2) by (rewrite E; apply next_of_split; congruence).
    rewrite Hnx. destruct l2 as [|a l2]; cbn [head].
    - destruct l as [|b l]; [by destruct l1|]. exists b. split; [done|]. split; [by left|]. change (pick (S (S n)) s1 None) with (pick (S n) s1 (head (ready s))).
      rewrite C1. apply Hone. by left.
    - exists a. split; [done|]. assert (a ∈ l) by (rewrite E; set_solver). split; [done|]. by apply Hone. }
  destruct Hpick as (a & Hf & Ha & ->). cbn [obind]. change (env (with_current s1 a)) with (env s).
  pose proof (verdict_shield (env s) a (C6 a)) as Hv. pose proof (verdict_mild (env s) a C5) as Hm.
  destruct (signal_verdict (env s) a) as [r v]. cbn in Hv, Hm. subst v.
  destruct (Hs1 a Ha) as (u & Hu & U). unfold task_switch. change (get (with_env (with_current s1 a) r) a) with (get s1 a).
  rewrite (get_some _ _ _ Hu). cbn [obind]. eexists. split; [done|]. split; [|done].
  constructor; [done|done|done| |apply Hm|intros b; by apply (m_shield _ _ Hm)].
  intros b Hb. destruct (Hs1 b Hb) as (w & Hw & W1 & W2 & W3 & W4 & W5).
  change (tasks (upd ?x a (set_ticks 15))) with (tasks (upd s1 a (set_ticks 15))). rewrite lookup_upd, Hw. case_decide; eexists; (split; [done|]); [|done].
  cbn. do 4 (split; [done|]). lia.
Qed.

(** A whole slice. *)
Lemma slice fuel l s :
  computing l s → l ≠ [current s] →
  ∃ n s', (n <= 16)%nat ∧ ticks (S fuel) n s = Ret s' ∧ computing l s' ∧ follower l (current s) = Some (current s').
Proof.
  intros Hc Hl. destruct (cp_tasks _ _ Hc _ (cp_current _ _ Hc)) as (t & Ht & _ & _ & _ & _ & Hk).
  remember (Z.to_nat (t_ticks_left t)) as k eqn:Ek.
  assert (Hgo : ∃ s', ticks (S fuel) (S k) s = Ret s' ∧ computing l s' ∧ follower l (current s) = Some (current s')).
  { clear Hk. revert s t Hc Hl Ht Ek. induction k as [|k IH]; intros s t Hc Hl Ht Ek;
      destruct (cp_tasks _ _ Hc _ (cp_current _ _ Hc)) as (x & Hx & _ & _ & _ & _ & Hk); assert (x = t) as -> by congruence.
    - destruct (tick_switches fuel l s t Hc Hl Ht) as (s' & Hrun & ?); [lia|]. exists s'. split; [|done]. cbn [ticks]. by rewrite Hrun.
    - destruct (tick_within fuel l s t Hc Hl Ht) as (s1 & Hrun & Hc1 & E1 & t1 & Ht1 & Ek1); [lia|].
      destruct (IH s1 t1) as (s' & Hr' & ?); [done|congruence|congruence|lia|]. exists s'. rewrite E1 in *. split; [|done].
      cbn [ticks]. rewrite Hrun. exact Hr'. }
  destruct Hgo as (s' & ? & ?). exists (S k), s'. split; [lia|]. done.
Qed.

(** [k] slices lead [k] places further round the queue. *)
Lemma slices fuel l k : ∀ s l1 l2 a,
  computing l s → l = l1 ++ l2 → head l2 = Some (current s) → l2 !! k = Some a →
  ∃ n s', (n <= 16 * k)%nat ∧ ticks (S fuel) n s = Ret s' ∧ computing l s' ∧ current s' = a.
Proof.
  induction k as [|k IH]; intros s l1 l2 a Hc Hl Hh Ha; destruct l2 as [|x [|y l2]]; simplify_eq/=.
  - exists 0%nat, s. by split; [lia|].
  - exists 0%nat, s. by split; [lia|].
  - assert (Hne : l1 ++ current s :: y :: l2 ≠ [current s]).
    { intros E. apply (f_equal length) in E. rewrite length_app in E. simpl in E. lia. }
    destruct (slice fuel _ s Hc Hne) as (n & s1 & Hn & Hrun & Hc1 & Hf). unfold follower in Hf.
    rewrite next_of_split in Hf by apply (cp_nodup _ _ Hc). cbn in Hf. injection Hf as Hf.
    destruct (IH s1 (l1 ++ [current s]) (y :: l2) a) as (m & s' & Hm & Hrun' & ?); [done|by rewrite <- app_assoc|by rewrite Hf|done|].
    exists (n + m)%nat, s'. split; [lia|]. split; [|done]. by rewrite (ticks_add _ n m s s1).
Qed.

(** C7: No computing task is starved: when the tasks of the queue only
    compute, each of them is running after at most 16 timer interrupts per
    task of the queue. *)
Theorem round_robin_fair fuel l s a :
  computing l s → a ∈ l → ∃ n s', (n <= 16 * length l)%nat ∧ ticks (S fuel) n s = Ret s' ∧ current s' = a ∧ computing l s'.
Proof.
  intros Hc Ha. pose proof (cp_current _ _ Hc) as Hin. apply list_elem_of_split in Hin as (l1 & l2 & El).
  pose proof (cp_nodup _ _ Hc) as Hnd. rewrite El, elem_of_app in Ha. destruct Ha as [Ha|Ha].
  - destruct (lookup_lt_is_Some_2 (current s :: l2) (length l2)) as [x Hx]; [simpl; lia|].
    destruct (slices fuel l (length l2) s l1 (current s :: l2) x Hc El eq_refl Hx) as (n1 & s1 & Hn1 & R1 & Hc1 & E1).
    assert (Hlast : ∃ l0, l = l0 ++ [x]).
    { assert (Elast : last (current s :: l2) = Some x) by (rewrite last_lookup; exact Hx).
      apply last_Some in Elast as [l0 E0]. exists (l1 ++ l0). rewrite El, E0. by rewrite app_assoc. }
    destruct Hlast as [l0 E0]. rewrite <- E1 in E0.
    assert (Hne : l ≠ [current s1]).
    { intros E. destruct l1 as [|y l1]; [by apply elem_of_nil in Ha|]. rewrite E in El. destruct l1; discriminate. }
    destruct (slice fuel l s1 Hc1 Hne) as (n2 & s2 & Hn2 & R2 & Hc2 & Hf).
    assert (Hh : head l = Some (current s2)).
    { unfold follower in Hf. rewrite E0 in Hf at 1. rewrite next_of_split in Hf by congruence. exact Hf. }
    apply list_elem_of_lookup_1 in Ha as [j Hj]. pose proof (lookup_lt_Some _ _ _ Hj) as Hjl.
    destruct (slices fuel l j s2 [] l a Hc2 eq_refl Hh) as (n3 & s3 & Hn3 & R3 & Hc3 & E3).
    { rewrite El. by apply lookup_app_l_Some. }
    exists (n1 + (n2 + n3))%nat, s3. split; [rewrite El, length_app; simpl; lia|]. split; [|done].
    rewrite (ticks_add _ n1 _ s s1 R1), (ticks_add _ n2 _ s1 s2 R2). exact R3.
  - apply list_elem_of_lookup_1 in Ha as [j Hj]. pose proof (lookup_lt_Some _ _ _ Hj) as Hjl.
    destruct (slices fuel l j s l1 (current s :: l2) a Hc El eq_refl Hj) as (n & s' & Hn & Hrun & ? & ?).
    exists n, s'. split; [rewrite El, length_app; lia|]. done.
Qed.
End Fair.
