(* ===== verification/TaskDemo.v ===== *)
(** Concrete runs of the task operations: a small environment that meets the
    interface, the witnesses of the theorems, and runs in which the code does
    not do what it means to. *)

From S2P Require Import Prelude Task TaskInv TaskSched TaskSystem TaskSteps TaskProps.

(** Addresses are handed out in order; the set has the structures in use. *)
Definition pool : Type := Z * gset Z.

#[export] Instance pool_env : TaskEnv pool := {|
  task_alloc r := Some (r.1, (r.1 + 1, {[r.1]} ∪ r.2));
  task_dealloc r a := (r.1, r.2 ∖ {[a]});
  dir_copy r _ := ((r.1 + 1, r.2), Some (5000 + r.1));
  dir_strip r _ := r;
  dir_free r _ := r;
  dir_page r _ _ := r;
  vfs_init r _ := r;
  vfs_copy r _ _ := r;
  vfs_free r _ := Ret r;
  ipc_init r _ := r;
  ipc_copy r _ _ := r;
  ipc_free r _ := r;
  signal_verdict r _ := (r, SigNone);
|}.

#[export] Instance pool_view : TaskEnvView pool := {|
  env_ok r := 0 < r.1 ∧ ∀ a, a ∈ r.2 → a < r.1;
  env_live r := r.2;
  pending _ := 0%nat;
  shielded _ _ := True;
|}.

#[export] Instance pool_laws : TaskEnvLaws pool.
Proof.
  split; try (intros; by constructor).
  - intros r a r' [Hpos Hlt] [= <- <-]. cbn. split; [lia|]. split; [intros Hin; apply Hlt in Hin; lia|].
    split; [done|]. split; [|done]. split; [lia|]. intros b [->%elem_of_singleton|Hb%Hlt]%elem_of_union; lia.
  - intros r a [Hpos Hlt]. cbn. split; [done|]. split; [|done]. split; [lia|]. intros b [Hb _]%elem_of_difference. by apply Hlt.
  - intros r d [Hpos Hlt]. constructor; cbn; try done. split; [lia|]. intros a Ha%Hlt. lia.
  - intros r a Hok. exists r. split; [done|]. by constructor.
  - done.
Qed.

Abbreviation psys := (tsys (R := pool)).

(** The first task at address 100, with enough fuel for every call. *)
Definition r0 : pool := (101, {[100]}).
Definition y0 : psys := boot r0 100 1000.

Fixpoint run (y : psys) (l : list tmove) : outcome psys :=
  match l with
  | [] => Ret y
  | v :: l => y <~ step 4 y v ;; run y l
  end.

Definition after (y : psys) (l : list tmove) : psys := match run y l with Ret y => y | _ => y end.

(** * Reaching states by running *)

Definition runnableb (y : psys) : bool :=
  bool_decide (current (ts y) ∈ ready (ts y))
  && match tasks (ts y) !! current (ts y) with Some t => negb (T_EXITING t) | None => false end.

Definition callingb (y : psys) : bool := runnableb y && bool_decide (current (ts y) ∉ blocked y).

Lemma runnableb_ok y : runnableb y = true → runnable (ts y) (current (ts y)).
Proof.
  unfold runnableb. intros [H1 H2]%andb_true_iff. apply bool_decide_eq_true in H1. split; [done|].
  destruct (tasks (ts y) !! current (ts y)) as [t|]; [|done]. exists t. split; [done|]. by destruct (T_EXITING t).
Qed.

Lemma callingb_ok y : callingb y = true → calling y.
Proof. unfold callingb. intros [H1 H2]%andb_true_iff. split; [by apply runnableb_ok|]. by apply bool_decide_eq_true in H2. Qed.

(** The steps of the runs below, with their conditions as a test. *)
Definition allowed (y : psys) (v : tmove) : bool :=
  match v with
  | TTick => true
  | TFork => callingb y
  | TExit _ => callingb y && negb (current (ts y) =? 100)
  | TWaitpid _ _ =>
      callingb y && negb (current (ts y) =? 100)
      && match tasks (ts y) !! current (ts y) with Some t => negb (t_pid t =? 0) | None => false end
  | _ => false
  end.

Lemma allowed_enabled y v : allowed y v = true → enabled 100 y v.
Proof.
  destruct v; cbn [allowed enabled]; try done.
  - intros H%callingb_ok. split; [done|]. eexists _, _. split; [done|]. done.
  - intros [H1%callingb_ok H2]%andb_true_iff. split; [done|]. by destruct (Z.eqb_spec (current (ts y)) 100).
  - intros [[H1%callingb_ok H2]%andb_true_iff H3]%andb_true_iff. split; [done|]. split; [by destruct (Z.eqb_spec (current (ts y)) 100)|].
    intros (t & Ht & E). rewrite Ht, E in H3. done.
Qed.

Fixpoint run_allowed (y : psys) (l : list tmove) : bool :=
  match l with
  | [] => true
  | v :: l => allowed y v && match step 4 y v with Ret y => run_allowed y l | _ => false end
  end.

Lemma run_reaches l : ∀ y y1 y2, treach 4 100 y y1 → run_allowed y1 l = true → run y1 l = Ret y2 → treach 4 100 y y2.
Proof.
  induction l as [|v l IH]; intros y y1 y2 Hr Hall Hrun; [by injection Hrun as <-|]. cbn [run_allowed run] in Hall, Hrun.
  apply andb_true_iff in Hall as [Hv Hall]. destruct (step 4 y1 v) as [y3| |] eqn:E; [|done|done]. cbn [obind] in Hrun.
  eapply IH; [|done|done]. eapply treach_step; [done|by apply allowed_enabled|done].
Qed.

(** A task forks, waits for its child, the child exits with status 7 and the
    scheduler comes round to the parent. *)
Definition waited : list tmove := [TFork; TFork; TWaitpid (-1) 0; TExit 7] ++ replicate 32 TTick.
Definition y_waited : psys := after y0 waited.

Lemma waited_reach : treach 4 100 y0 y_waited.
Proof. apply (run_reaches waited y0 y0); [constructor|by vm_compute|by vm_compute]. Qed.

Lemma r0_ok : env_ok r0 ∧ 100 ∈ env_live r0.
Proof. split; [|cbn; set_solver]. split; [done|]. cbn. intros a ->%elem_of_singleton. lia. Qed.


(** What [waitpid] reports, and whether the structure at 103 is left. *)
Definition resume_report (y : psys) : option (Z * Z * bool) :=
  match waitpid_resume (ts y) true with
  | Ret (s, WDone (Ok p) (Some st)) => Some (p, st, match tasks s !! 103 with Some _ => true | None => false end)
  | _ => None
  end.

Lemma waited_result : resume_report y_waited = Some (2, 7, false).
Proof. vm_compute. reflexivity. Qed.

Lemma waitpid_collects_witness :
  ∃ s', waitpid_resume (ts y_waited) true = Ret (s', WDone (Ok 2) (Some 7)) ∧ tasks s' !! 103 = None.
Proof.
  destruct (waitpid_collects (R := pool) 4 r0 100 1000 y_waited) as (z & u & s' & Hz & _ & _ & Hres & Hgone & _);
    [apply r0_ok|apply r0_ok|done|done|cbn; lia|exact waited_reach|by apply runnableb_ok; vm_compute|by apply (bool_decide_unpack _); vm_compute|].
  exists s'. pose proof waited_result as Hc. unfold resume_report in Hc. rewrite Hres in Hc. injection Hc as E1 E2 E3.
  rewrite Hres, E1, E2. split; [reflexivity|]. by destruct (tasks s' !! 103).
Defined.

(** Three tasks that compute. *)
Definition y_three : psys := after y0 [TFork; TFork].

Lemma three_computing : computing [103; 101; 100] (ts y_three).
Proof.
  constructor.
  - by vm_compute.
  - by apply (bool_decide_unpack _); vm_compute.
  - by apply (bool_decide_unpack _); vm_compute.
  - assert (Hall : Forall (λ b, ∃ t, tasks (ts y_three) !! b = Some t ∧ T_RUNNING t = true ∧ T_RESCHED t = false ∧ T_WAITING t = false
      ∧ T_EXITING t = false ∧ 0 <= t_ticks_left t <= 15) [103; 101; 100]).
    { repeat constructor; eexists; (split; [by vm_compute|]); cbn; repeat split; lia. }
    intros b Hb. by apply (proj1 (Forall_forall _ _) Hall).
  - split; [by vm_compute|]. assert (Hall : Forall (λ a, a < (env (ts y_three)).1) (elements (env (ts y_three)).2)).
    { apply (bool_decide_unpack _). by vm_compute. }
    intros a Ha. apply (proj1 (Forall_forall _ _) Hall). by apply elem_of_elements.
  - done.
Qed.

Lemma round_robin_fair_witness : ∃ n s', (n <= 48)%nat ∧ ticks 4 n (ts y_three) = Ret s' ∧ current s' = 100.
Proof.
  destruct (round_robin_fair 3 [103; 101; 100] (ts y_three) 100 three_computing) as (n & s' & Hn & Hrun & Hc & _); [by right; right; left|].
  exists n, s'. by split; [simpl in Hn; lia|].
Defined.

(** * Where the code goes wrong *)

(** Two tasks that wake each other and then wait: the processor changes
    between them and the third task, which is ready all the time, never runs:
    a task that stops hands over to the head of the queue, where a task that
    was woken is put. *)
Definition ping_pong : list tmove := [TWake 101; TWait TF_WAITIO; TWake 103; TWait TF_WAITIO].

Fixpoint currents (y : psys) (l : list tmove) : list Z :=
  match l with
  | [] => []
  | v :: l => match step 4 y v with Ret y => current (ts y) :: currents y l | _ => [] end
  end.

Lemma run_app k l : ∀ y y', run y k = Ret y' → run y (k ++ l) = run y' l ∧ currents y (k ++ l) = currents y k ++ currents y' l.
Proof.
  induction k as [|v k IH]; intros y y' Hrun; cbn [run currents app] in *; [by injection Hrun as ->|].
  destruct (step 4 y v) as [y1| |]; cbn [obind] in *; [|done|done]. destruct (IH y1 y' Hrun) as [-> ->]. done.
Qed.

Definition y_ping : psys :=
  after y0 [TFork; TFork; TWait TF_WAITIO; TWake 101; TWait TF_WAITIO; TWake 103; TWait TF_WAITIO].

Lemma ping_pong_round : run y_ping ping_pong = Ret y_ping ∧ currents y_ping ping_pong = [103; 101; 101; 103].
Proof. split; vm_compute; reflexivity. Qed.

Theorem ping_pong_starves n :
  let l := mjoin (replicate n ping_pong) in
  run y_ping l = Ret y_ping ∧ length (currents y_ping l) = (4 * n)%nat ∧ 100 ∉ currents y_ping l ∧ 100 ∈ ready (ts y_ping).
Proof.
  assert (Hready : 100 ∈ ready (ts y_ping)) by (by apply (bool_decide_unpack _); vm_compute).
  destruct ping_pong_round as [Hrun Hcur]. revert Hready Hrun Hcur. generalize y_ping as y. intros y Hready Hrun Hcur.
  induction n as [|n IH]; intros l; [split; [done|]; split; [done|]; split; [apply not_elem_of_nil|done]|].
  subst l. change (mjoin (replicate (S n) ping_pong)) with (ping_pong ++ mjoin (replicate n ping_pong)).
  destruct (run_app ping_pong (mjoin (replicate n ping_pong)) y y Hrun) as [-> ->].
  destruct IH as (? & Hlen & Hno & ?). rewrite Hcur. split; [done|]. split; [rewrite length_app, Hlen; simpl; lia|]. set_solver.
Qed.

(** A worker that another task than the first one starts: its parent can exit
    and be collected; when the worker exits itself the scheduler uses the
    parent's freed structure. *)
Definition orphan_worker : list tmove :=
  [TFork; TSpawn true; TExit 7] ++ replicate 48 TTick ++ [TWaitpid 1 0] ++ replicate 16 TTick ++ [TExit 0].

Theorem worker_parent_dangles :
  (∃ t, tasks (ts (after y0 orphan_worker)) !! 103 = Some t ∧ t_parent t = Some 101)
  ∧ tasks (ts (after y0 orphan_worker)) !! 101 = None
  ∧ run (after y0 orphan_worker) (replicate 16 TTick) = Halt.
Proof. split; [eexists; split; by vm_compute|]. split; by vm_compute. Qed.

(** The foreground is not given back on exit: [task_kill] does not return. *)
Theorem exit_keeps_foreground :
  let s := ts (after y0 ([TFork; TExit 3] ++ replicate 16 TTick)) in
  foreground_pid s = 1 ∧ ∃ t, tasks s !! 101 = Some t ∧ t_pid t = 1 ∧ T_ISZOMBIE t = true.
Proof. split; [by vm_compute|]. eexists. split; [by vm_compute|]. done. Qed.

(** Without any child [waitpid] sleeps for ever instead of failing with
    [ECHILD]. *)
Theorem waitpid_without_children_sleeps :
  let y := after y0 [TFork; TWaitpid (-1) 0] in
  101 ∈ blocked y ∧ 101 ∉ ready (ts y) ∧ ∃ t, tasks (ts y) !! 101 = Some t ∧ t_children t = [].
Proof.
  split; [by apply (bool_decide_unpack _); vm_compute|]. split; [by apply (bool_decide_unpack _); vm_compute|].
  eexists. split; [by vm_compute|]. done.
Qed.

(** The user id of a forked task is 0, whoever forked it. *)
Theorem fork_grants_root :
  let s := upd (ts y0) 100 (λ t, mk_task (t_pid t) 5 5 1000 (t_flags t) (t_waitfor t) (t_ticks_left t) (t_status t) 4096 (t_dir t)
    (t_parent t) (t_children t)) in
  match sys_fork 4 s with
  | Ret (s', pid) => ∃ t, tasks s' !! 101 = Some t ∧ t_pid t = pid ∧ t_uid t = 0 ∧ t_gid t = 0 ∧ t_dataend t = 0
  | _ => False
  end.
Proof. vm_compute. by eexists. Qed.

(** A sleep that ends before those that are under way is not noticed by the
    timer, which stays set to the end of the first one. *)
Theorem short_sleep_late :
  match task_sleep 4 (ts y_three) 101 1000 0 true with
  | Ret (s1, _) => match task_sleep 4 s1 103 10 5 true with
                   | Ret (s2, _) => sleepers s2 = [(103, 15); (101, 1000)] ∧ sleep_timer s2 = Some 1000
                   | _ => False
                   end
  | _ => False
  end.
Proof. by vm_compute. Qed.
