(* ===== verification/Elf.v ===== *)
(** Loading ELF programs and kernel modules: [src/kernel/src/elf32.c] and the
    structures of [src/kernel/include/elf/elf32.h].

    A file is the list of its bytes: [file_seek] to a position followed by
    [file_read] of [n] bytes is a slice of it, shorter at its end.  The address
    space of a program has its pages with their flags, as [alloc_page] and
    [get_page] of the paging code keep them, the number of free frames and the
    bytes of memory, which for a new page are those left in the frame; storing
    to a page that is not there stops the machine.  Heap memory that was not
    written holds [junk].  The symbols of the kernel are a list of names and
    values.  Log messages are left out. *)

From S2P Require Import Prelude Memory Bytes.

(** * Bytes in memory *)

Fixpoint write_bytes (m : mem) (a : Z) (l : list Z) : mem :=
  match l with
  | [] => m
  | x :: l => write_bytes (st8 m a x) (a + 1) l
  end.

(** * Data structures *)

Definition half (l : list Z) (o : nat) : Z := (l !!! o) + 256 * (l !!! S o).
Definition word (l : list Z) (o : nat) : Z := half l o + 65536 * half l (o + 2).

Definition EHDR_SIZE : Z := 52.
Record Elf32_Ehdr := mk_ehdr { e_ident : list Z; e_type : Z; e_entry : Z; e_phoff : Z; e_shoff : Z;
  e_phentsize : Z; e_phnum : Z; e_shentsize : Z; e_shnum : Z; e_shstrndx : Z }.
Definition ehdr_of (l : list Z) : Elf32_Ehdr :=
  mk_ehdr (take 16 l) (half l 16) (word l 24) (word l 28) (word l 32) (half l 42) (half l 44) (half l 46) (half l 48) (half l 50).

Definition PHDR_SIZE : nat := 32.
Record Elf32_Phdr := mk_phdr { p_type : Z; p_offset : Z; p_vaddr : Z; p_filesz : Z; p_memsz : Z; p_flags : Z }.
Definition phdr_of (l : list Z) : Elf32_Phdr := mk_phdr (word l 0) (word l 4) (word l 8) (word l 16) (word l 20) (word l 24).

Definition SHDR_SIZE : nat := 40.
Record Elf32_Shdr := mk_shdr { sh_name : Z; sh_type : Z; sh_flags : Z; sh_offset : Z; sh_size : Z; sh_link : Z; sh_info : Z }.
Definition shdr_of (l : list Z) : Elf32_Shdr := mk_shdr (word l 0) (word l 4) (word l 8) (word l 16) (word l 20) (word l 24) (word l 28).

Definition SYM_SIZE : nat := 16.
Record Elf32_Sym := mk_sym { st_name : Z; st_value : Z; st_shndx : Z }.
Definition sym_of (l : list Z) : Elf32_Sym := mk_sym (word l 0) (word l 4) (half l 14).

(** An entry with an addend, or without ([Elf32_Rela], [Elf32_Rel]). *)
Definition REL_SIZE : nat := 8.
Definition RELA_SIZE : nat := 12.
Record Elf32_Rel := mk_rel { r_offset : Z; r_info : Z; r_addend : option Z }.
Definition rel_of (l : list Z) : Elf32_Rel := mk_rel (word l 0) (word l 4) None.
Definition rela_of (l : list Z) : Elf32_Rel := mk_rel (word l 0) (word l 4) (Some (word l 8)).

Definition ELF32_R_SYM (i : Z) : Z := Z.shiftr i 8.
Definition ELF32_R_TYPE (i : Z) : Z := u8 i.

Definition ET_REL : Z := 1.
Definition ET_EXEC : Z := 2.
Definition PT_LOAD : Z := 1.
Definition PF_W : Z := 2.
Definition PF_R : Z := 4.
Definition SHF_ALLOC : Z := 2.
Definition SHT_RELA : Z := 4.
Definition SHT_NOBITS : Z := 8.
Definition SHT_REL : Z := 9.
Definition SHN_UNDEF : Z := 0.
Definition SHN_ABS : Z := 65521.
Definition SHN_COMMON : Z := 65522.

Definition elf_check_ident (h : Elf32_Ehdr) (type : Z) : result unit :=
  if bool_decide (take 6 (e_ident h) = [127; 69; 76; 70; 1; 1]) && (e_type h =? type) then Ok tt else Err ENOEXEC.

Definition EXEC_VALID : Z := 0.
Definition EXEC_INTERP : Z := 1.
Definition EXEC_INVALID : Z := 2.

Definition elf_check_exec (buffer : list Z) : Z :=
  match elf_check_ident (ehdr_of buffer) ET_EXEC with Ok _ => EXEC_VALID | Err _ => EXEC_INVALID end.

(** Entry [i] of a table in memory; there is nothing behind its end. *)
Definition entry_at {A} (size : nat) (decode : list Z → A) (tab : list Z) (i : nat) : outcome A :=
  if decide (size * i + size <= length tab)%nat then Ret (decode (slice (size * i) size tab)) else Halt.

(** The C string at position [i] of a string table. *)
Fixpoint cstring (l : list Z) : option (list Z) :=
  match l with
  | [] => None
  | c :: l => if c =? 0 then Some [] else (cons c) <$> cstring l
  end.
Definition string_at (tab : list Z) (i : Z) : outcome (list Z) := or_halt (cstring (drop (Z.to_nat i) tab)).

(** * Address spaces *)

Record aspace := mk_as { as_pages : gmap Z (bool * bool); as_free : Z; as_mem : mem }.   (* a page's user and rw flags *)

Definition PAGE_MASK : Z := 4294963200.
Definition page_no (a : Z) : Z := a / 4096.

Definition as_alloc (s : aspace) (a : Z) (user rw : bool) : outcome aspace :=
  match as_pages s !! page_no a with
  | Some _ => Ret (mk_as (<[page_no a := (user, rw)]> (as_pages s)) (as_free s) (as_mem s))
  | None => if as_free s =? 0 then Halt
            else Ret (mk_as (<[page_no a := (user, rw)]> (as_pages s)) (as_free s - 1) (as_mem s))
  end.

(** [get_page] of a page that is there, and its flags. *)
Definition as_protect (s : aspace) (a : Z) (user rw : bool) : outcome aspace :=
  match as_pages s !! page_no a with
  | Some _ => Ret (mk_as (<[page_no a := (user, rw)]> (as_pages s)) (as_free s) (as_mem s))
  | None => Halt
  end.

Fixpoint as_store (s : aspace) (a : Z) (l : list Z) : outcome aspace :=
  match l with
  | [] => Ret s
  | x :: l => match as_pages s !! page_no (u32 a) with
              | None => Halt
              | Some _ => as_store (mk_as (as_pages s) (as_free s) (st8 (as_mem s) (u32 a) x)) (a + 1) l
              end
  end.

Section Elf.
Context (junk : nat → Z).

(** A block from [kmalloc] filled by [file_read]. *)
Definition read_table (file : list Z) (off n : Z) : list Z :=
  list_inserts 0 (slice (Z.to_nat off) (Z.to_nat n) file) (junk <$> seq 0 (Z.to_nat n)).

(** * Programs *)

(** [step] for every page from [start] to [end], both included. *)
Fixpoint page_range (step : aspace → Z → outcome aspace) (fuel : nat) (s : aspace) (start last : Z) : outcome aspace :=
  if start <=? last then
    match fuel with
    | O => OutOfFuel
    | S fuel => s <~ step s start ;; page_range step fuel s (u32 (start + 4096)) last
    end
  else Ret s.

Definition elf_allocate_range (fuel : nat) (s : aspace) (start last : Z) (user rw : bool) : outcome aspace :=
  page_range (λ s a, as_alloc s a user rw) fuel s start last.
Definition elf_modify_range (fuel : nat) (s : aspace) (start last : Z) (user rw : bool) : outcome aspace :=
  page_range (λ s a, as_protect s a user rw) fuel s start last.

Definition load_segment (fuel : nat) (file : list Z) (s : aspace) (ph : Elf32_Phdr) : outcome aspace :=
  let first := Z.land (p_vaddr ph) PAGE_MASK in
  let last := Z.land (u32 (p_vaddr ph + p_memsz ph)) PAGE_MASK in
  s <~ elf_allocate_range fuel s first last true true ;;
  s <~ as_store s (p_vaddr ph) (slice (Z.to_nat (p_offset ph)) (Z.to_nat (p_filesz ph)) file) ;;
  s <~ (if 0 <? u32 (p_memsz ph - p_filesz ph) then
          as_store s (u32 (p_vaddr ph + p_filesz ph)) (replicate (Z.to_nat (u32 (p_memsz ph - p_filesz ph))) 0)
        else Ret s) ;;
  elf_modify_range fuel s first last (negb (Z.land (p_flags ph) PF_R =? 0)) (negb (Z.land (p_flags ph) PF_W =? 0)).

(** The loop over [k] program headers from entry [i] on. *)
Fixpoint load_segments (fuel : nat) (file tab : list Z) (s : aspace) (bssend : Z) (i k : nat) : outcome (aspace * Z) :=
  match k with
  | O => Ret (s, bssend)
  | S k =>
      ph <~ entry_at PHDR_SIZE phdr_of tab i ;;
      if p_type ph =? PT_LOAD then
        s <~ load_segment fuel file s ph ;;
        let e := u32 (p_vaddr ph + p_memsz ph) in
        load_segments fuel file tab s (if bssend <? e then e else bssend) (S i) k
      else load_segments fuel file tab s bssend (S i) k
  end.

(** The entry point and the end of the data.  A file that is no program is
    reported as loaded, with both still 0; [sys_execve] checks before. *)
Definition elf_load_exec (fuel : nat) (file buffer : list Z) (s : aspace) (memory : bool) : outcome (aspace * result (Z * Z)) :=
  let h := ehdr_of buffer in
  match elf_check_ident h ET_EXEC with
  | Err _ => Ret (s, Ok (0, 0))
  | Ok _ =>
      if negb memory then Ret (s, Err ENOMEM)
      else
        '(s, bssend) <~ load_segments fuel file (read_table file (e_phoff h) (e_phnum h * e_phentsize h)) s 0 0 (Z.to_nat (e_phnum h)) ;;
        Ret (s, Ok (e_entry h, bssend))
  end.

(** * Modules *)

Context (ksyms : list (list Z * Z)).

Fixpoint find_symbol (l : list (list Z * Z)) (name : list Z) : option Z :=
  match l with
  | [] => None
  | (n, v) :: l => if bool_decide (n = name) then Some v else find_symbol l name
  end.

(** The symbol, with its value when the kernel provides it. *)
Definition elf_resolve (sym : Elf32_Sym) (strtab : list Z) (len : Z) : outcome (result Elf32_Sym) :=
  if st_shndx sym =? SHN_UNDEF then
    if len <=? st_name sym then Ret (Err EINVAL)
    else
      name <~ string_at strtab (st_name sym) ;;
      match find_symbol ksyms name with
      | Some v => Ret (Ok (mk_sym (st_name sym) v SHN_ABS))
      | None => Ret (Err EINVAL)
      end
  else if st_shndx sym =? SHN_COMMON then Ret (Err EINVAL)
  else Ret (Ok sym).

(** The address of a resolved symbol. *)
Definition symbol_value (shtab : list Elf32_Shdr) (B : Z) (sym : Elf32_Sym) : outcome Z :=
  if st_shndx sym =? SHN_ABS then Ret (st_value sym)
  else sh <~ or_halt (shtab !! Z.to_nat (st_shndx sym)) ;; Ret (u32 (st_value sym + sh_offset sh - EHDR_SIZE + B)).

(** What is stored at [P]; [None] for the types that store nothing. *)
Definition reloc_value (type S A P : Z) : result (option Z) :=
  if (type =? 0) || (type =? 5) then Ok None
  else if type =? 1 then Ok (Some (u32 (S + A)))
  else if type =? 2 then Ok (Some (u32 (S + A - P)))
  else if (type =? 6) || (type =? 7) then Ok (Some S)
  else Err EINVAL.

(** One relocation of a section that was loaded at [B + target]; the symbol
    table keeps what was resolved. *)
Definition elf_relocate (m : mem) (shtab : list Elf32_Shdr) (rel : Elf32_Rel) (B target : Z) (stab : list Elf32_Sym) (strtab : list Z) :
    outcome (mem * list Elf32_Sym * result unit) :=
  let P := u32 (target + B + r_offset rel) in
  let A := match r_addend rel with Some a => a | None => ld32 m P end in
  let k := Z.to_nat (ELF32_R_SYM (r_info rel)) in
  sym <~ or_halt (stab !! k) ;;
  r <~ elf_resolve sym strtab (Z.of_nat (length strtab)) ;;
  match r with
  | Err e => Ret (m, stab, Err e)
  | Ok sym =>
      let stab := <[k := sym]> stab in
      S <~ symbol_value shtab B sym ;;
      match reloc_value (ELF32_R_TYPE (r_info rel)) S A P with
      | Err e => Ret (m, stab, Err e)
      | Ok None => Ret (m, stab, Ok tt)
      | Ok (Some v) => Ret (st32 m P v, stab, Ok tt)
      end
  end.

Fixpoint relocate_all (m : mem) (shtab : list Elf32_Shdr) (rels : list Elf32_Rel) (B target : Z) (stab : list Elf32_Sym) (strtab : list Z) :
    outcome (mem * result unit) :=
  match rels with
  | [] => Ret (m, Ok tt)
  | rel :: rels =>
      '(m, stab, r) <~ elf_relocate m shtab rel B target stab strtab ;;
      match r with
      | Err e => Ret (m, Err e)
      | Ok _ => relocate_all m shtab rels B target stab strtab
      end
  end.

Definition is_alloc (sh : Elf32_Shdr) : bool := negb (Z.land (sh_flags sh) SHF_ALLOC =? 0).

(** The length of the module in memory and the last section called
    [.module_info]. *)
Definition module_info_name : list Z := [46; 109; 111; 100; 117; 108; 101; 95; 105; 110; 102; 111].

Fixpoint measure (shtab : list Elf32_Shdr) (shstr : list Z) (len : Z) (info : option Elf32_Shdr) : outcome (Z * option Elf32_Shdr) :=
  match shtab with
  | [] => Ret (len, info)
  | sh :: shtab =>
      if is_alloc sh then
        name <~ string_at shstr (sh_name sh) ;;
        let e := u32 (sh_offset sh + sh_size sh - EHDR_SIZE) in
        measure shtab shstr (if len <? e then e else len) (if bool_decide (name = module_info_name) then Some sh else info)
      else measure shtab shstr len info
  end.

(** Every section with [SHF_ALLOC] is placed at its position in the file. *)
Fixpoint load_sections (file : list Z) (m : mem) (base : Z) (shtab : list Elf32_Shdr) : mem :=
  match shtab with
  | [] => m
  | sh :: shtab =>
      let a := u32 (sh_offset sh + base - EHDR_SIZE) in
      let m := if is_alloc sh then
                 if sh_type sh =? SHT_NOBITS then memset m a 0 (sh_size sh)
                 else write_bytes m a (slice (Z.to_nat (sh_offset sh)) (Z.to_nat (sh_size sh)) file)
               else m in
      load_sections file m base shtab
  end.

Definition table_of {A} (size : nat) (decode : list Z → A) (bytes : list Z) : list A :=
  (λ i, decode (slice (size * i) size bytes)) <$> seq 0 (length bytes / size).

(** The relocation sections among [rest]. *)
Fixpoint relocate_sections (file : list Z) (m : mem) (base : Z) (shtab rest : list Elf32_Shdr) (memory : bool) : outcome (mem * result unit) :=
  match rest with
  | [] => Ret (m, Ok tt)
  | sh :: rest =>
      if (sh_type sh =? SHT_REL) || (sh_type sh =? SHT_RELA) then
        if negb memory then Ret (m, Err ENOMEM)
        else
          symhdr <~ or_halt (shtab !! Z.to_nat (sh_link sh)) ;;
          strhdr <~ or_halt (shtab !! Z.to_nat (sh_link symhdr)) ;;
          tgt <~ or_halt (shtab !! Z.to_nat (sh_info sh)) ;;
          let rtab := read_table file (sh_offset sh) (sh_size sh) in
          let stab := table_of SYM_SIZE sym_of (read_table file (sh_offset symhdr) (sh_size symhdr)) in
          let strtab := read_table file (sh_offset strhdr) (sh_size strhdr) in
          let rels := if sh_type sh =? SHT_REL then table_of REL_SIZE rel_of rtab else table_of RELA_SIZE rela_of rtab in
          '(m, r) <~ relocate_all m shtab rels base (u32 (sh_offset tgt - EHDR_SIZE)) stab strtab ;;
          match r with
          | Err e => Ret (m, Err e)
          | Ok _ => relocate_sections file m base shtab rest memory
          end
      else relocate_sections file m base shtab rest memory
  end.

(** [alloc n] is the address of a new block of [n] bytes.  The result is the
    base and the address of the [.module_info] section; [Ok None] when the
    file is no module. *)
Definition elf_load_module (file : list Z) (m : mem) (alloc : Z → option Z) (memory : bool) : outcome (mem * result (option (Z * Z))) :=
  let h := ehdr_of (read_table file 0 EHDR_SIZE) in
  match elf_check_ident h ET_REL with
  | Err _ => Ret (m, Ok None)
  | Ok _ =>
      if negb memory then Ret (m, Err ENOMEM)
      else
        let tab := read_table file (e_shoff h) (e_shnum h * e_shentsize h) in
        if decide (SHDR_SIZE * Z.to_nat (e_shnum h) <= length tab)%nat then
          let shtab := take (Z.to_nat (e_shnum h)) (table_of SHDR_SIZE shdr_of tab) in
          strhdr <~ or_halt (shtab !! Z.to_nat (e_shstrndx h)) ;;
          let shstr := read_table file (sh_offset strhdr) (sh_size strhdr) in
          '(len, info) <~ measure shtab shstr 0 None ;;
          match info with
          | None => Ret (m, Err EINVAL)
          | Some info =>
              match alloc len with
              | None => Ret (m, Err ENOMEM)
              | Some base =>
                  let m := load_sections file m base shtab in
                  '(m, r) <~ relocate_sections file m base shtab shtab memory ;;
                  match r with
                  | Err e => Ret (m, Err e)
                  | Ok _ =>
                      let module_info := u32 (sh_offset info - EHDR_SIZE + base) in
                      Ret (st32 m (module_info + 12) base, Ok (Some (base, module_info)))      (* m_loadaddr *)
                  end
              end
          end
        else Halt
  end.
End Elf.
