(* ===== verification/ElfProps.v ===== *)
(** ELF programs: after [elf_load_exec] the memory holds the segments of the
    file; and relocations. *)

From S2P Require Import Prelude Memory Bytes Elf.

(** * Bytes in memory *)

Lemma write_bytes_ld8 m a l b :
  ld8 (write_bytes m a l) b = if decide (a <= b < a + Z.of_nat (length l)) then u8 (l !!! Z.to_nat (b - a)) else ld8 m b.
Proof.
  revert m a. induction l as [|x l IH]; intros m a; cbn [write_bytes length].
  { rewrite decide_False by lia. done. }
  rewrite IH. destruct (decide (b = a)) as [->|Hne].
  - rewrite decide_False, decide_True by lia. rewrite ld8_st8_eq, Z.sub_diag. done.
  - rewrite ld8_st8_ne by done. destruct (decide (a + 1 <= b < a + 1 + Z.of_nat (length l))) as [H|H].
    + rewrite decide_True by lia. replace (Z.to_nat (b - a)) with (S (Z.to_nat (b - (a + 1)))) by lia. done.
    + rewrite decide_False by lia. done.
Qed.

Lemma land_mask a : 0 <= a < 4294967296 → Z.land a PAGE_MASK = 4096 * page_no a.
Proof.
  intros H. unfold PAGE_MASK, page_no. change 4294963200 with (Z.ldiff (Z.ones 32) (Z.ones 12)).
  rewrite Z.ldiff_land, Z.land_assoc, Z.land_ones, Z.mod_small by lia. rewrite <- Z.ldiff_land, Z.ldiff_ones_r by lia.
  rewrite Z.shiftl_mul_pow2, Z.shiftr_div_pow2 by lia. change (2 ^ 12) with 4096. lia.
Qed.

Lemma page_no_mul q i : 0 <= i < 4096 → page_no (4096 * q + i) = q.
Proof. intros H. unfold page_no. rewrite Z.mul_comm, Z.div_add_l, Z.div_small by lia. lia. Qed.

(** * Pages *)

(** Pages [q .. q + n) have the flags [fl], the others are as they were. *)
Definition ranged (fl : bool * bool) (q n : Z) (pages pages' : gmap Z (bool * bool)) : Prop :=
  ∀ x, pages' !! x = if decide (q <= x < q + n) then Some fl else pages !! x.

Lemma ranged_cons fl q n pages pages' : 0 <= n →
  ranged fl (q + 1) n (<[q := fl]> pages) pages' → ranged fl q (n + 1) pages pages'.
Proof.
  intros Hn H x. rewrite H. destruct (decide (x = q)) as [->|Hne].
  - rewrite lookup_insert_eq, decide_False, decide_True by lia. done.
  - rewrite lookup_insert_ne by done. repeat case_decide; (done || lia).
Qed.

(** A range of [n] pages from [q] on, of a step that needs [ready]. *)
Lemma page_range_spec (step : aspace → Z → outcome aspace) (ready : aspace → Z → nat → Prop) (fl : bool * bool) (cost : Z) n fuel s q :
  (∀ s q k, ready s q (S k) → ∃ s', step s (4096 * q) = Ret s' ∧ as_pages s' = <[q := fl]> (as_pages s) ∧ as_mem s' = as_mem s
     ∧ as_free s - cost <= as_free s' ∧ ready s' (q + 1) k) →
  ready s q n → (n <= fuel)%nat → 0 <= q → 4096 * (q + Z.of_nat n) < 4294967296 →
  ∃ s', page_range step fuel s (4096 * q) (4096 * (q + Z.of_nat n - 1)) = Ret s' ∧ as_mem s' = as_mem s
    ∧ as_free s - cost * Z.of_nat n <= as_free s' ∧ ranged fl q (Z.of_nat n) (as_pages s) (as_pages s').
Proof.
  intros Hstep. revert fuel s q. induction n as [|n IH]; intros fuel s q Hr Hf Hq Hmax.
  { exists s. assert (Hle : (4096 * q <=? 4096 * (q + Z.of_nat 0 - 1)) = false) by (apply Z.leb_gt; lia).
    split; [|split; [done|split; [lia|]]]; [destruct fuel; cbn [page_range]; by rewrite Hle|].
    intros x. rewrite decide_False by lia. done. }
  destruct fuel as [|fuel]; [lia|]. cbn [page_range]. rewrite (proj2 (Z.leb_le _ _)) by lia.
  destruct (Hstep s q n Hr) as (s1 & -> & Hp & Hm & Hfr & Hr1). cbn [obind]. rewrite u32_small by lia.
  destruct (IH fuel s1 (q + 1) Hr1) as (s' & Hrun & Hm' & Hfr' & Hrg); [lia..|].
  exists s'. replace (4096 * q + 4096) with (4096 * (q + 1)) by lia.
  replace (4096 * (q + Z.of_nat (S n) - 1)) with (4096 * (q + 1 + Z.of_nat n - 1)) by lia. split; [done|]. split; [congruence|].
  split; [lia|]. rewrite Hp in Hrg. replace (Z.of_nat (S n)) with (Z.of_nat n + 1) by lia. apply ranged_cons; [lia|done].
Qed.

Lemma allocate_range_spec fuel s q n user rw : Z.of_nat n <= as_free s → (n <= fuel)%nat → 0 <= q → 4096 * (q + Z.of_nat n) < 4294967296 →
  ∃ s', elf_allocate_range fuel s (4096 * q) (4096 * (q + Z.of_nat n - 1)) user rw = Ret s' ∧ as_mem s' = as_mem s
    ∧ as_free s - Z.of_nat n <= as_free s' ∧ ranged (user, rw) q (Z.of_nat n) (as_pages s) (as_pages s').
Proof.
  intros H1 H2 H3 H4. unfold elf_allocate_range.
  destruct (page_range_spec (λ s a, as_alloc s a user rw) (λ s _ k, Z.of_nat k <= as_free s) (user, rw) 1 n fuel s q) as (s' & ? & ? & ? & ?); try done.
  - clear. intros s q k Hk. unfold as_alloc. assert (page_no (4096 * q) = q) as -> by (rewrite <- (Z.add_0_r (4096 * q)); by apply page_no_mul).
    destruct (as_pages s !! q); [|rewrite (proj2 (Z.eqb_neq _ _)) by lia]; eexists; (split; [done|]); cbn; repeat split; lia.
  - exists s'. repeat split; try done. lia.
Qed.

Lemma modify_range_spec fuel s q n user rw : (∀ x, q <= x < q + Z.of_nat n → is_Some (as_pages s !! x)) →
  (n <= fuel)%nat → 0 <= q → 4096 * (q + Z.of_nat n) < 4294967296 →
  ∃ s', elf_modify_range fuel s (4096 * q) (4096 * (q + Z.of_nat n - 1)) user rw = Ret s' ∧ as_mem s' = as_mem s
    ∧ as_free s <= as_free s' ∧ ranged (user, rw) q (Z.of_nat n) (as_pages s) (as_pages s').
Proof.
  intros H1 H2 H3 H4. unfold elf_modify_range.
  destruct (page_range_spec (λ s a, as_protect s a user rw) (λ s q k, ∀ x, q <= x < q + Z.of_nat k → is_Some (as_pages s !! x)) (user, rw) 0 n fuel s q)
    as (s' & ? & ? & ? & ?); try done.
  - clear. intros s q k Hk. unfold as_protect. assert (page_no (4096 * q) = q) as -> by (rewrite <- (Z.add_0_r (4096 * q)); by apply page_no_mul).
    destruct (Hk q) as [fl ->]; [lia|]. eexists. split; [done|]. cbn. repeat split; [lia|]. intros x Hx. rewrite lookup_insert_ne by lia. apply Hk. lia.
  - exists s'. repeat split; try done. lia.
Qed.

Lemma as_store_spec s a l : 0 <= a → a + Z.of_nat (length l) <= 4294967296 →
  (∀ i, 0 <= i < Z.of_nat (length l) → is_Some (as_pages s !! page_no (a + i))) →
  as_store s a l = Ret (mk_as (as_pages s) (as_free s) (write_bytes (as_mem s) a l)).
Proof.
  revert s a. induction l as [|x l IH]; intros s a Ha Hmax Hp; cbn [as_store write_bytes]; [by destruct s|]. cbn [length] in *.
  rewrite u32_small by lia. destruct (Hp 0) as [fl Hfl]; [lia|]. rewrite Z.add_0_r in Hfl. rewrite Hfl.
  rewrite IH; [done|lia|lia|]. intros i Hi. cbn [as_pages]. replace (a + 1 + i) with (a + (1 + i)) by lia. apply Hp. lia.
Qed.

(** * Segments *)

Definition loaded (ph : Elf32_Phdr) : Prop := p_type ph = PT_LOAD.
Definition seg_end (ph : Elf32_Phdr) : Z := p_vaddr ph + p_memsz ph.
Definition in_seg (ph : Elf32_Phdr) (b : Z) : Prop := p_vaddr ph <= b < seg_end ph.
Definition seg_byte (file : list Z) (ph : Elf32_Phdr) (i : Z) : Z := if i <? p_filesz ph then file !!! Z.to_nat (p_offset ph + i) else 0.
Definition seg_pages (ph : Elf32_Phdr) : Z := page_no (seg_end ph) - page_no (p_vaddr ph) + 1.
Definition on_page (ph : Elf32_Phdr) (q : Z) : Prop := page_no (p_vaddr ph) <= q <= page_no (seg_end ph).
Definition seg_flags (ph : Elf32_Phdr) : bool * bool := (negb (Z.land (p_flags ph) PF_R =? 0), negb (Z.land (p_flags ph) PF_W =? 0)).

(** The part in the file is there and no longer than the part in memory, which
    ends before the last page. *)
Record seg_ok (file : list Z) (ph : Elf32_Phdr) : Prop := {
  sg_file : 0 <= p_offset ph ∧ p_offset ph + p_filesz ph <= Z.of_nat (length file);
  sg_sizes : 0 <= p_filesz ph <= p_memsz ph;
  sg_range : 0 <= p_vaddr ph ∧ seg_end ph < 4294963200;
}.

(** The state after a segment was loaded. *)
Record seg_loaded (file : list Z) (ph : Elf32_Phdr) (s s' : aspace) : Prop := {
  ld_mem : ∀ b, ld8 (as_mem s') b = if decide (in_seg ph b) then seg_byte file ph (b - p_vaddr ph) else ld8 (as_mem s) b;
  ld_free : as_free s - seg_pages ph <= as_free s';
  ld_pages : ranged (seg_flags ph) (page_no (p_vaddr ph)) (seg_pages ph) (as_pages s) (as_pages s');
}.

#[global] Instance in_seg_dec ph b : Decision (in_seg ph b).
Proof. unfold in_seg. apply _. Defined.

Section Load.
Context (file : list Z) (fuel : nat).
Hypothesis Hfile : Forall (λ x, 0 <= x < 256) file.

Lemma file_byte i : u8 (file !!! i) = file !!! i.
Proof using Hfile.
  apply u8_small. rewrite list_lookup_total_alt. destruct (file !! i) as [x|] eqn:E; [|cbn; lia].
  apply (Forall_lookup_1 _ _ _ _ Hfile E).
Qed.

(** The bytes of the file and the zeros behind them are the segment. *)
Lemma segment_bytes m ph b : seg_ok file ph →
  ld8 (write_bytes (write_bytes m (p_vaddr ph) (slice (Z.to_nat (p_offset ph)) (Z.to_nat (p_filesz ph)) file))
         (p_vaddr ph + p_filesz ph) (replicate (Z.to_nat (p_memsz ph - p_filesz ph)) 0)) b
  = if decide (in_seg ph b) then seg_byte file ph (b - p_vaddr ph) else ld8 m b.
Proof using Hfile.
  intros [[Hf1 Hf2] Hs [Hv He]]. unfold in_seg, seg_end, seg_byte in *. rewrite !write_bytes_ld8, length_replicate, slice_length by lia.
  destruct (decide (p_vaddr ph + p_filesz ph <= b < _)) as [H|H].
  - rewrite decide_True by lia. rewrite (proj2 (Z.ltb_ge _ _)) by lia. rewrite list_lookup_total_alt, lookup_replicate_2 by lia. done.
  - destruct (decide (p_vaddr ph <= b < p_vaddr ph + Z.of_nat (Z.to_nat (p_filesz ph)))) as [H'|H'].
    + rewrite decide_True by lia. rewrite (proj2 (Z.ltb_lt _ _)) by lia. rewrite list_lookup_total_alt, slice_lookup, decide_True by lia.
      rewrite <- list_lookup_total_alt, file_byte. f_equal. lia.
    + rewrite decide_False by lia. done.
Qed.

Lemma seg_page_bounds ph i : 0 <= i → p_vaddr ph + i <= seg_end ph → on_page ph (page_no (p_vaddr ph + i)).
Proof using Type. intros H1 H2. unfold on_page, page_no. split; apply Z.div_le_mono; lia. Qed.

Lemma load_segment_spec s ph : seg_ok file ph → seg_pages ph <= as_free s → seg_pages ph <= Z.of_nat fuel →
  ∃ s', load_segment fuel file s ph = Ret s' ∧ seg_loaded file ph s s'.
Proof using Hfile.
  intros Hok Hfree Hfuel. pose proof Hok as [[Hf1 Hf2] Hs [Hv He]]. unfold seg_end in He.
  set (q := page_no (p_vaddr ph)). set (n := Z.to_nat (seg_pages ph)).
  assert (Hq : q <= page_no (seg_end ph)) by (apply Z.div_le_mono; unfold seg_end; lia).
  assert (Hq0 : 0 <= q) by (apply Z.div_pos; lia).
  assert (Hn : Z.of_nat n = page_no (seg_end ph) - q + 1) by (unfold n, seg_pages; fold q; lia).
  assert (Hlast : 4096 * (q + Z.of_nat n) < 4294967296).
  { assert (page_no (seg_end ph) <= 1048574); [|lia]. unfold page_no. apply Zlt_succ_le, Z.div_lt_upper_bound; unfold seg_end; lia. }
  unfold load_segment. rewrite u32_small by lia. rewrite !land_mask by lia. fold (seg_end ph) q.
  replace (4096 * page_no (seg_end ph)) with (4096 * (q + Z.of_nat n - 1)) by lia.
  destruct (allocate_range_spec fuel s q n true true) as (s1 & -> & Hm1 & Hfr1 & Hp1); [lia..|]. cbn [obind].
  assert (Hmapped : ∀ i, 0 <= i → p_vaddr ph + i <= seg_end ph → is_Some (as_pages s1 !! page_no (p_vaddr ph + i))).
  { intros i H1 H2. rewrite Hp1, decide_True; [done|]. pose proof (seg_page_bounds ph i H1 H2) as Hb. unfold on_page in Hb. fold q in Hb. lia. }
  unfold seg_end in Hmapped. rewrite as_store_spec; [|lia|rewrite slice_length; lia|rewrite slice_length by lia; intros; apply Hmapped; lia].
  cbn [obind]. rewrite (u32_small (p_memsz ph - p_filesz ph)), (u32_small (p_vaddr ph + p_filesz ph)) by lia.
  set (m2 := write_bytes _ _ (slice _ _ _)). set (s2 := mk_as _ _ m2).
  set (m3 := write_bytes m2 (p_vaddr ph + p_filesz ph) (replicate (Z.to_nat (p_memsz ph - p_filesz ph)) 0)).
  assert (Hz : (if 0 <? p_memsz ph - p_filesz ph then as_store s2 (p_vaddr ph + p_filesz ph) (replicate (Z.to_nat (p_memsz ph - p_filesz ph)) 0) else Ret s2)
               = Ret (mk_as (as_pages s1) (as_free s1) m3)).
  { case_if.
    - apply as_store_spec; [lia|rewrite length_replicate; lia|]. rewrite length_replicate. intros i Hi. cbn [as_pages s2].
      rewrite <- Z.add_assoc. apply Hmapped; lia.
    - unfold m3. replace (Z.to_nat (p_memsz ph - p_filesz ph)) with 0%nat by lia. done. }
  rewrite Hz. cbn [obind].
  destruct (modify_range_spec fuel (mk_as (as_pages s1) (as_free s1) m3) q n (seg_flags ph).1 (seg_flags ph).2) as (s' & Hrun & Hm' & Hfr' & Hp'); [|lia..|].
  { cbn [as_pages]. intros x Hx. rewrite Hp1, decide_True by lia. done. }
  exists s'. split; [exact Hrun|]. cbn [as_pages as_mem as_free] in *. constructor.
  - intros b. rewrite Hm'. unfold m3, m2. rewrite Hm1. by apply segment_bytes.
  - unfold seg_pages. fold q. lia.
  - intros x. rewrite Hp'. fold q. replace (seg_pages ph) with (Z.of_nat n) by (unfold seg_pages; fold q; lia).
    case_decide; [done|]. rewrite Hp1, decide_False by done. done.
Qed.

(** * All segments *)

(** Segments share no byte. *)
Fixpoint apart (phs : list Elf32_Phdr) : Prop :=
  match phs with
  | [] => True
  | ph :: phs => (loaded ph → Forall (λ ph', loaded ph' → ∀ b, in_seg ph b → ¬ in_seg ph' b) phs) ∧ apart phs
  end.

Fixpoint pages_needed (phs : list Elf32_Phdr) : Z :=
  match phs with
  | [] => 0
  | ph :: phs => (if p_type ph =? PT_LOAD then seg_pages ph else 0) + pages_needed phs
  end.

Fixpoint image_end (phs : list Elf32_Phdr) (e : Z) : Z :=
  match phs with
  | [] => e
  | ph :: phs => image_end phs (if p_type ph =? PT_LOAD then Z.max e (seg_end ph) else e)
  end.

(** What loading the segments [phs] leaves. *)
Record image_loaded (phs : list Elf32_Phdr) (s s' : aspace) : Prop := {
  im_segments : ∀ ph i, ph ∈ phs → loaded ph → 0 <= i < p_memsz ph → ld8 (as_mem s') (p_vaddr ph + i) = seg_byte file ph i;
  im_rest : ∀ b, (∀ ph, ph ∈ phs → loaded ph → ¬ in_seg ph b) → ld8 (as_mem s') b = ld8 (as_mem s) b;
  im_flags : ∀ ph q, ph ∈ phs → loaded ph → on_page ph q → (∀ ph', ph' ∈ phs → loaded ph' → on_page ph' q → ph' = ph) →
    as_pages s' !! q = Some (seg_flags ph);
  im_mapped : ∀ ph q, ph ∈ phs → loaded ph → on_page ph q → is_Some (as_pages s' !! q);
  im_pages : ∀ q, (∀ ph, ph ∈ phs → loaded ph → ¬ on_page ph q) → as_pages s' !! q = as_pages s !! q;
  im_kept : ∀ q, is_Some (as_pages s !! q) → is_Some (as_pages s' !! q);
}.

Lemma seg_pages_pos ph : seg_ok file ph → 0 < seg_pages ph.
Proof using Type.
  clear Hfile. intros [_ Hs [Hv He]]. unfold seg_pages. assert (page_no (p_vaddr ph) <= page_no (seg_end ph)); [|lia]. apply Z.div_le_mono; unfold seg_end; lia.
Qed.

Lemma on_page_range ph q : on_page ph q ↔ page_no (p_vaddr ph) <= q < page_no (p_vaddr ph) + seg_pages ph.
Proof using Type. unfold on_page, seg_pages. lia. Qed.

Lemma image_skip ph phs s s' : ¬ loaded ph → image_loaded phs s s' → image_loaded (ph :: phs) s s'.
Proof using Type. clear Hfile. intros Hn [H1 H2 H3 H4 H5 H6]. constructor; set_solver. Qed.

Lemma image_add ph phs s s1 s' : loaded ph → Forall (λ ph', loaded ph' → ∀ b, in_seg ph b → ¬ in_seg ph' b) phs →
  seg_loaded file ph s s1 → image_loaded phs s1 s' → image_loaded (ph :: phs) s s'.
Proof using Type.
  clear Hfile. intros Hl Hap [L1 L2 L3] [H1 H2 H3 H4 H5 H6]. rewrite Forall_forall in Hap.
  assert (Hmine : ∀ q, on_page ph q → as_pages s1 !! q = Some (seg_flags ph)).
  { intros q Hq. rewrite L3, decide_True by (by apply on_page_range). done. }
  assert (Hother : ∀ q, ¬ on_page ph q → as_pages s1 !! q = as_pages s !! q).
  { intros q Hq. rewrite L3, decide_False by (by rewrite <- on_page_range). done. }
  constructor.
  - intros ph' i [->|Hin]%elem_of_cons Hl' Hi; [|by apply H1]. assert (in_seg ph (p_vaddr ph + i)) by (unfold in_seg, seg_end; lia).
    rewrite H2 by (intros ph' Hin' Hl''; by apply Hap). rewrite L1, decide_True by done. f_equal. lia.
  - intros b Hb. rewrite H2 by set_solver. rewrite L1, decide_False by set_solver. done.
  - intros ph' q Hin Hl' Hq Honly. destruct (decide (Exists (λ x, p_type x = PT_LOAD ∧ page_no (p_vaddr x) <= q <= page_no (seg_end x)) phs)) as [E|E].
    + apply Exists_exists in E as (x & Hx & Hlx & Hqx). assert (x = ph') as -> by (apply Honly; [by right|done|done]). apply H3; [done..|set_solver].
    + rewrite H5; [|intros x Hx Hlx Hqx; apply E, Exists_exists; by exists x]. apply elem_of_cons in Hin as [->|Hin]; [by apply Hmine|].
      exfalso. apply E, Exists_exists. by exists ph'.
  - intros ph' q [->|Hin]%elem_of_cons Hl' Hq; [|by eapply H4]. apply H6. rewrite Hmine by done. done.
  - intros q Hq. rewrite H5 by set_solver. apply Hother. set_solver.
  - intros q Hq. apply H6. destruct (decide (page_no (p_vaddr ph) <= q <= page_no (seg_end ph))) as [Hin|Hout]; [by rewrite (Hmine q Hin)|].
    by rewrite (Hother q Hout).
Qed.

Lemma load_segments_spec tab phs : ∀ i s e, (∀ j ph, phs !! j = Some ph → entry_at PHDR_SIZE phdr_of tab (i + j) = Ret ph) →
  Forall (λ ph, loaded ph → seg_ok file ph ∧ seg_pages ph <= Z.of_nat fuel) phs → apart phs → pages_needed phs <= as_free s → 0 <= e →
  ∃ s', load_segments fuel file tab s e i (length phs) = Ret (s', image_end phs e) ∧ image_loaded phs s s'.
Proof using Hfile.
  induction phs as [|ph phs IH]; intros i s e Htab Hok Hap Hfr He; cbn [load_segments length image_end].
  { exists s. split; [done|]. constructor; set_solver. }
  pose proof (Htab 0%nat ph eq_refl) as E0. rewrite Nat.add_0_r in E0. rewrite E0. cbn [obind]. apply Forall_cons in Hok as [Hph Hok].
  cbn [apart pages_needed] in *. destruct Hap as [Hap1 Hap2].
  assert (Htab' : ∀ j ph', phs !! j = Some ph' → entry_at PHDR_SIZE phdr_of tab (S i + j) = Ret ph').
  { intros j ph' Hj. replace (S i + j)%nat with (i + S j)%nat by lia. by apply Htab. }
  destruct (Z.eqb_spec (p_type ph) PT_LOAD) as [El|El].
  - destruct (Hph El) as [Hsok Hfu].
    assert (Hnn : 0 <= pages_needed phs).
    { clear -Hok. induction Hok as [|x l Hx _ IH]; cbn [pages_needed]; [lia|]. destruct (Z.eqb_spec (p_type x) PT_LOAD) as [E|_]; [|lia].
      destruct (Hx E) as [Hxo _]. pose proof (seg_pages_pos x Hxo). lia. }
    destruct (load_segment_spec s ph Hsok ltac:(lia) Hfu) as (s1 & -> & Hl). cbn [obind].
    pose proof Hsok as [_ Hsz [Hv Hend]]. rewrite u32_small by (unfold seg_end in *; lia).
    replace (if e <? p_vaddr ph + p_memsz ph then p_vaddr ph + p_memsz ph else e) with (Z.max e (seg_end ph))
      by (unfold seg_end; case_if; lia).
    destruct (IH (S i) s1 (Z.max e (seg_end ph)) Htab' Hok Hap2) as (s' & Hrun & Him); [destruct Hl; lia|lia|].
    exists s'. split; [done|]. by apply (image_add ph phs s s1 s'); [|apply Hap1| |].
  - destruct (IH (S i) s e Htab' Hok Hap2) as (s' & Hrun & Him); [lia|done|]. exists s'. split; [done|]. by apply image_skip.
Qed.

Lemma elf_load_run junk buffer phs s :
  let h := ehdr_of buffer in
  elf_check_ident h ET_EXEC = Ok tt → length phs = Z.to_nat (e_phnum h) →
  (∀ j ph, phs !! j = Some ph → entry_at PHDR_SIZE phdr_of (read_table junk file (e_phoff h) (e_phnum h * e_phentsize h)) j = Ret ph) →
  Forall (λ ph, loaded ph → seg_ok file ph ∧ seg_pages ph <= Z.of_nat fuel) phs → apart phs → pages_needed phs <= as_free s →
  ∃ s', elf_load_exec junk fuel file buffer s true = Ret (s', Ok (e_entry h, image_end phs 0)) ∧ image_loaded phs s s'.
Proof using Hfile.
  intros h Hid Hlen Htab Hok Hap Hfr. unfold elf_load_exec. fold h. rewrite Hid. cbn [negb].
  destruct (load_segments_spec (read_table junk file (e_phoff h) (e_phnum h * e_phentsize h)) phs 0 s 0) as (s' & Hrun & Him); [done..|].
  rewrite <- Hlen, Hrun. cbn [obind]. by exists s'.
Qed.

(** C11: [elf_load_exec] builds the memory image of a program: the call
    succeeds, every byte of every loadable segment is the byte of the file or,
    behind the part in the file, zero; all other memory and pages are as they
    were, the pages of a segment are there with its read and write flags (where
    no other segment has a part of the page), the entry point is that of the
    header and the end of the data is the end of the highest segment. *)
Theorem elf_load_image junk buffer phs s :
  let h := ehdr_of buffer in
  elf_check_ident h ET_EXEC = Ok tt → length phs = Z.to_nat (e_phnum h) →
  (∀ j ph, phs !! j = Some ph → entry_at PHDR_SIZE phdr_of (read_table junk file (e_phoff h) (e_phnum h * e_phentsize h)) j = Ret ph) →
  Forall (λ ph, loaded ph → seg_ok file ph ∧ seg_pages ph <= Z.of_nat fuel) phs → apart phs → pages_needed phs <= as_free s →
  ∃ s', elf_load_exec junk fuel file buffer s true = Ret (s', Ok (e_entry h, image_end phs 0)) ∧ image_loaded phs s s'.
Proof using Hfile. exact (elf_load_run junk buffer phs s). Qed.
End Load.
