(* ===== verification/ElfReloc.v ===== *)
(** Relocations of kernel modules: [elf_relocate] over a whole relocation
    table stores what the processor's ABI asks for; sections of a module in
    memory, and a fault of the loader. *)

From S2P Require Import Prelude Memory Bytes Elf ElfProps.

Section Reloc.
Context (ksyms : list (list Z * Z)) (shtab : list Elf32_Shdr) (strtab : list Z) (B target : Z).

Definition place (rel : Elf32_Rel) : Z := u32 (target + B + r_offset rel).
Definition addend (m : mem) (rel : Elf32_Rel) : Z := match r_addend rel with Some a => a | None => ld32 m (place rel) end.
Definition symbol (rel : Elf32_Rel) : nat := Z.to_nat (ELF32_R_SYM (r_info rel)).

(** The address of symbol [k]: an undefined symbol is the kernel's of the same
    name, an absolute one has its value, any other lies in a section of the
    module. *)
Definition sym_value (stab : list Elf32_Sym) (k : nat) : option Z :=
  sym ← stab !! k;
  if decide (st_shndx sym = 0) then
    if decide (st_name sym < Z.of_nat (length strtab)) then
      name ← cstring (drop (Z.to_nat (st_name sym)) strtab);
      (λ x, x.2.2) <$> list_find (λ x, x.1 = name) ksyms
    else None
  else if decide (st_shndx sym = 65522) then None
  else if decide (st_shndx sym = 65521) then Some (st_value sym)
  else sh ← shtab !! Z.to_nat (st_shndx sym); Some ((st_value sym + sh_offset sh - 52 + B) mod 2 ^ 32).

(** What the processor's ABI asks for by the type of the entry. *)
Definition abi_value (type v a p : Z) : option (option Z) :=
  match type with
  | 0 | 5 => Some None
  | 1 => Some (Some ((v + a) mod 2 ^ 32))
  | 2 => Some (Some ((v + a - p) mod 2 ^ 32))
  | 6 | 7 => Some (Some v)
  | _ => None
  end.

(** What the relocation stores in memory [m]; [None]: it cannot be applied. *)
Definition reloc_result (stab : list Elf32_Sym) (m : mem) (rel : Elf32_Rel) : option (option Z) :=
  v ← sym_value stab (symbol rel); abi_value (r_info rel mod 256) v (addend m rel) (place rel).

Fixpoint places_apart (rels : list Elf32_Rel) : Prop :=
  match rels with
  | [] => True
  | rel :: rels => Forall (λ rel', place rel + 4 <= place rel' ∨ place rel' + 4 <= place rel) rels ∧ places_apart rels
  end.

Lemma find_symbol_spec l name : find_symbol l name = (λ x, x.2.2) <$> list_find (λ x, x.1 = name) l.
Proof.
  induction l as [|[n v] l IH]; [done|]. cbn [find_symbol list_find fst]. case_bool_decide; case_decide; try done.
  rewrite IH. by destruct (list_find _ l) as [[? [? ?]]|].
Qed.

(** A symbol with an address is resolved, and keeps it. *)
Lemma sym_resolved stab k v : sym_value stab k = Some v →
  ∃ sym sym', stab !! k = Some sym ∧ elf_resolve ksyms sym strtab (Z.of_nat (length strtab)) = Ret (Ok sym')
    ∧ symbol_value shtab B sym' = Ret v ∧ ∀ j, sym_value (<[k := sym']> stab) j = sym_value stab j.
Proof.
  intros H. pose proof H as Hv. unfold sym_value in H. destruct (stab !! k) as [sym|] eqn:Ek; [|done]. cbn [mbind option_bind] in H.
  assert (Hkeep : ∀ sym', sym_value (<[k := sym']> stab) k = Some v → ∀ j, sym_value (<[k := sym']> stab) j = sym_value stab j).
  { intros sym' Hs j. destruct (decide (j = k)) as [->|Hne]; [congruence|]. unfold sym_value. by rewrite list_lookup_insert_ne by done. }
  assert (Hk : (k < length stab)%nat) by (by eapply lookup_lt_Some).
  exists sym. unfold elf_resolve, symbol_value, string_at. case_decide as E0.
  - case_decide; [|done]. destruct (cstring _) as [name|] eqn:En; [|done]. cbn [mbind option_bind] in H.
    rewrite (proj2 (Z.eqb_eq (st_shndx sym) SHN_UNDEF) E0), (proj2 (Z.leb_gt _ _)) by done. cbn [or_halt obind].
    rewrite find_symbol_spec, H. eexists. split_and!; [done..|]. apply Hkeep. unfold sym_value. by rewrite list_lookup_insert_eq.
  - case_decide as E1; [done|]. rewrite (proj2 (Z.eqb_neq _ SHN_UNDEF) E0), (proj2 (Z.eqb_neq _ SHN_COMMON) E1). exists sym. split; [done|]. split; [done|].
    rewrite list_insert_id by done. split; [|done]. case_decide as E2; [simplify_eq; by rewrite E2|].
    rewrite (proj2 (Z.eqb_neq _ SHN_ABS) E2). destruct (shtab !! _); [|done]. by simplify_eq/=.
Qed.

Lemma abi_value_spec type v a p r : abi_value type v a p = Some r → reloc_value type v a p = Ok r.
Proof. unfold abi_value. destruct type as [|[[[]|[]|]|[[]|[]|]|]|]; intros; simplify_eq; done. Qed.

Lemma abi_value_range type S A P v : 0 <= S < 4294967296 → abi_value type S A P = Some (Some v) → 0 <= v < 4294967296.
Proof. unfold abi_value. intros HS. destruct type as [|[[[]|[]|]|[[]|[]|]|]|]; intros; simplify_eq; (apply u32_range || done). Qed.

(** Symbol values are addresses. *)
Definition values_ok (stab : list Elf32_Sym) : Prop := ∀ k v, sym_value stab k = Some v → 0 <= v < 4294967296.

Lemma relocate_one m stab rel r : reloc_result stab m rel = Some r →
  ∃ stab', elf_relocate ksyms m shtab rel B target stab strtab = Ret (match r with Some v => st32 m (place rel) v | None => m end, stab', Ok tt)
    ∧ ∀ j, sym_value stab' j = sym_value stab j.
Proof.
  unfold reloc_result. intros H. destruct (sym_value stab (symbol rel)) as [v|] eqn:ES; [|done]. cbn [mbind option_bind] in H.
  destruct (sym_resolved _ _ _ ES) as (sym & sym' & Hk & Hr & Hsv & Hkeep). exists (<[symbol rel := sym']> stab). split; [|done].
  unfold elf_relocate. fold (place rel) (addend m rel) (symbol rel). rewrite Hk. cbn [or_halt obind]. rewrite Hr. cbn [obind].
  rewrite Hsv. cbn [obind]. apply abi_value_spec in H. unfold ELF32_R_TYPE, u8. rewrite H. by destruct r.
Qed.

Lemma addend_frame m m' rel : (∀ i, 0 <= i < 4 → ld8 m' (place rel + i) = ld8 m (place rel + i)) → addend m' rel = addend m rel.
Proof.
  intros H. unfold addend. destruct (r_addend rel); [done|]. unfold ld32. rewrite !H by lia.
  pose proof (H 0 ltac:(lia)) as H0. rewrite Z.add_0_r in H0. by rewrite H0.
Qed.

(** C13: applying a relocation table stores in every place what its entry asks
    for ([S + A], [S + A - P] or [S], modulo 2^32, with the symbol taken from
    the module or from the kernel and the addend from the entry or from memory
    as it was before), and changes no other byte; it succeeds when every entry
    can be applied and no two share a byte. *)
Theorem relocations_applied m stab rels :
  Forall (λ rel, is_Some (reloc_result stab m rel)) rels → places_apart rels → values_ok stab →
  ∃ m', relocate_all ksyms m shtab rels B target stab strtab = Ret (m', Ok tt)
    ∧ (∀ rel v, rel ∈ rels → reloc_result stab m rel = Some (Some v) → ld32 m' (place rel) = v)
    ∧ ∀ b, (∀ rel, rel ∈ rels → ¬ place rel <= b < place rel + 4) → ld8 m' b = ld8 m b.
Proof.
  revert m stab. induction rels as [|rel rels IH]; intros m stab Hok Hap Hv; cbn [relocate_all].
  { exists m. split; [done|]. split; [set_solver|done]. }
  apply Forall_cons in Hok as [[r Hr] Hok]. cbn [places_apart] in Hap. destruct Hap as [Hap1 Hap2].
  destruct (relocate_one m stab rel r Hr) as (stab' & -> & Hsame). cbn [obind]. set (m1 := match r with Some v => _ | None => m end).
  assert (Hm1 : ∀ b, ¬ place rel <= b < place rel + 4 → ld8 m1 b = ld8 m b).
  { intros b Hb. unfold m1. destruct r as [v|]; [|done]. apply ld8_st32_ne. lia. }
  rewrite Forall_forall in Hap1.
  assert (Hres : ∀ rel', rel' ∈ rels → reloc_result stab' m1 rel' = reloc_result stab m rel').
  { intros rel' Hin. unfold reloc_result. rewrite Hsame, (addend_frame m m1); [done|]. intros i Hi. apply Hm1. specialize (Hap1 rel' Hin). lia. }
  destruct (IH m1 stab') as (m' & Hrun & Hval & Hrest); [|done| |].
  { apply Forall_forall. intros rel' Hin. rewrite (Hres rel' Hin). by apply (proj1 (Forall_forall _ _) Hok). }
  { intros k v Hk. apply (Hv k). by rewrite <- Hsame. }
  exists m'. split; [exact Hrun|]. split.
  - intros rel' v [->|Hin]%elem_of_cons Hv'; [|apply Hval; [done|by rewrite Hres]]. rewrite Hr in Hv'. injection Hv' as ->.
    assert (Hkeep : ∀ i, 0 <= i < 4 → ld8 m' (place rel + i) = ld8 m1 (place rel + i)).
    { intros i Hi. apply Hrest. intros x Hx. specialize (Hap1 x Hx). lia. }
    assert (0 <= v < 4294967296).
    { unfold reloc_result in Hr. destruct (sym_value stab (symbol rel)) as [sv|] eqn:ES; [|done].
      eapply abi_value_range; [by eapply Hv|exact Hr]. }
    unfold ld32. pose proof (Hkeep 0 ltac:(lia)) as H0. rewrite Z.add_0_r in H0. rewrite H0, !Hkeep by lia.
    fold (ld32 m1 (place rel)). unfold m1. by apply ld32_st32_eq.
  - intros b Hb. rewrite Hrest by set_solver. apply Hm1. set_solver.
Qed.
End Reloc.

(** * Examples and faults *)

(** Small ELF files: witnesses of the theorems on the loader, and faults of
    it. *)

Definition w16 (w : Z) : list Z := [w mod 256; w / 256 mod 256].
Definition w32 (w : Z) : list Z := w16 w ++ w16 (w / 65536).

(** A program of one segment of four bytes in the file and six in memory, and
    a note. *)
Definition prog : list Z :=
  [127; 69; 76; 70; 1; 1; 1] ++ replicate 9 0 ++ w16 2 ++ w16 3 ++ w32 1 ++ w32 134512640 ++ w32 52 ++ w32 0 ++ w32 0
  ++ w16 52 ++ w16 32 ++ w16 2 ++ w16 40 ++ w16 0 ++ w16 0
  ++ w32 1 ++ w32 116 ++ w32 134512640 ++ w32 0 ++ w32 4 ++ w32 6 ++ w32 5 ++ w32 4096
  ++ w32 4 ++ w32 0 ++ w32 0 ++ w32 0 ++ w32 0 ++ w32 0 ++ w32 4 ++ w32 4 ++ [1; 2; 3; 4].

Definition seg0 : Elf32_Phdr := mk_phdr 1 116 134512640 4 6 5.
Definition seg1 : Elf32_Phdr := mk_phdr 4 0 0 0 0 4.
Definition empty_as : aspace := mk_as ∅ 3 ∅.

Lemma seg0_ok : seg_ok prog seg0 ∧ seg_pages seg0 <= Z.of_nat 1.
Proof. split; [constructor; vm_compute; repeat split; discriminate|vm_compute; discriminate]. Qed.

Lemma prog_bytes : Forall (λ x, 0 <= x < 256) prog.
Proof. apply Forall_forall. intros x Hx. assert (H : forallb (λ x, (0 <=? x) && (x <? 256)) prog = true) by (vm_compute; reflexivity).
  rewrite forallb_forall in H. specialize (H x (proj1 (list_elem_of_In _ _) Hx)). zbool. lia.
Qed.

Lemma elf_load_image_witness : ∃ s', elf_load_exec (λ _, 0) 1 prog prog empty_as true = Ret (s', Ok (134512640, 134512646))
  ∧ ld8 (as_mem s') 134512642 = 3 ∧ ld8 (as_mem s') 134512645 = 0 ∧ as_pages s' !! 32840 = Some (true, false).
Proof.
  destruct (elf_load_image prog 1 prog_bytes (λ _, 0) prog [seg0; seg1] empty_as) as (s' & Hrun & [H1 _ H3 _ _ _]).
  - vm_compute. reflexivity.
  - vm_compute. reflexivity.
  - intros [|[|j]] ph Hj; [injection Hj as <-..|done]; vm_compute; reflexivity.
  - apply Forall_cons. split; [intros _; exact seg0_ok|]. apply Forall_cons. split; [intros E; discriminate E|apply Forall_nil_2].
  - split; [|by split]. intros _. apply Forall_cons. split; [intros E; discriminate E|apply Forall_nil_2].
  - vm_compute. discriminate.
  - assert (Hin : seg0 ∈ [seg0; seg1]) by (by left). exists s'. split; [exact Hrun|]. split; [|split].
    + change 134512642 with (p_vaddr seg0 + 2). rewrite (H1 seg0 2 Hin eq_refl) by (cbn; lia). vm_compute. reflexivity.
    + change 134512645 with (p_vaddr seg0 + 5). rewrite (H1 seg0 5 Hin eq_refl) by (cbn; lia). vm_compute. reflexivity.
    + rewrite (H3 seg0 32840 Hin eq_refl); [vm_compute; reflexivity|vm_compute; split; discriminate|].
      intros ph [->|[->|[]%elem_of_nil]%elem_of_cons]%elem_of_cons Hl _; [done|discriminate Hl].
Defined.

(** A module section loaded at 4096 with two relocations: an absolute
    reference to a symbol of the kernel and a relative one to its own second
    byte. *)
Definition printk : list Z := [112; 114; 105; 110; 116; 107].
Definition demo_syms : list (list Z * Z) := [(printk, 3221225600)].
Definition demo_strtab : list Z := [0] ++ printk ++ [0].
Definition demo_shtab : list Elf32_Shdr := [mk_shdr 0 0 0 0 0 0 0; mk_shdr 0 1 6 52 16 0 0].
Definition demo_stab : list Elf32_Sym := [mk_sym 0 0 0; mk_sym 1 0 0; mk_sym 0 1 1].
Definition demo_rels : list Elf32_Rel := [mk_rel 0 257 None; mk_rel 8 514 (Some 4294967292)].
Definition demo_text : mem := st32 ∅ 4096 5.

Lemma relocations_applied_witness : ∃ m', relocate_all demo_syms demo_text demo_shtab demo_rels 4096 0 demo_stab demo_strtab = Ret (m', Ok tt)
  ∧ ld32 m' 4096 = 3221225605 ∧ ld32 m' 4104 = 4294967285 ∧ ld8 m' 4100 = 0.
Proof.
  destruct (relocations_applied demo_syms demo_shtab demo_strtab 4096 0 demo_text demo_stab demo_rels) as (m' & Hrun & Hval & Hrest).
  - repeat (apply Forall_cons; split); [vm_compute; by eexists..|apply Forall_nil_2].
  - split; [|by split]. apply Forall_cons. split; [vm_compute; left; discriminate|apply Forall_nil_2].
  - intros [|[|[|k]]] v Hv; vm_compute in Hv; simplify_eq; vm_compute; split; (reflexivity || discriminate).
  - exists m'. split; [exact Hrun|]. split; [|split].
    + apply (Hval (mk_rel 0 257 None)); [by left|vm_compute; reflexivity].
    + apply (Hval (mk_rel 8 514 (Some 4294967292))); [by right; left|vm_compute; reflexivity].
    + rewrite Hrest; [vm_compute; reflexivity|]. intros rel [->|[->|[]%elem_of_nil]%elem_of_cons]%elem_of_cons; vm_compute; intros [? ?]; congruence.
Defined.

(** * Faults *)

(** Sections are placed at their position in the file, where a section without
    bits takes no room: the section that follows it in the file lies over it,
    and the variables of the module are not zero. *)
Definition bss : Elf32_Shdr := mk_shdr 0 SHT_NOBITS 3 56 4 0 0.
Definition data : Elf32_Shdr := mk_shdr 0 1 3 56 4 0 0.
Definition module_file : list Z := replicate 56 0 ++ [1; 2; 3; 4].

Theorem elf_bss_overlaps_next :
  ld32 (load_sections module_file ∅ 4096 [bss]) 4100 = 0 ∧ ld32 (load_sections module_file ∅ 4096 [bss; data]) 4100 = 67305985.
Proof. vm_compute. split; reflexivity. Qed.

(** A segment that ends in the last page: the loop over its pages wraps around
    and never ends (it stops when no frame is left, which halts the machine). *)
Theorem elf_last_page_endless step fuel s start s' :
  0 <= start < 4294967296 → start mod 4096 = 0 → page_range step fuel s start 4294963200 ≠ Ret s'.
Proof.
  revert s start. induction fuel as [|fuel IH]; intros s start Hr Hm; cbn [page_range];
    rewrite (proj2 (Z.leb_le _ _)) by (pose proof (Z.div_mod start 4096); lia); [done|].
  destruct (step s start) as [s1| |]; cbn [obind]; [|done..]. apply IH; [apply u32_range|].
  unfold u32. pose proof (Z.div_mod (start + 4096) 4294967296 ltac:(lia)) as E.
  replace ((start + 4096) mod 4294967296) with (start + 4096 * (1 - 1048576 * ((start + 4096) / 4294967296))) by lia.
  rewrite Z.mul_comm, Z.mod_add by lia. done.
Qed.
