(* ===== verification/Exec.v ===== *)
(** Starting programs and loading modules: [src/kernel/src/exec.c] and
    [src/kernel/src/shebang.c], with the ELF loader of [Elf].

    Names and arguments are lists of characters without the final zero.  The
    files of the kernel are used through the class [ExecFiles]; the functions
    of a module are parameters of the module.  Out-of-memory is not checked by
    most of this code and left out, log messages too.  Reading a line that does
    not end within the 256 bytes of the buffer is a fault ([Halt]); the search
    for an executable type takes fuel, since a script may name itself as its
    interpreter. *)

From S2P Require Import Prelude Memory Bytes Elf.

(** What [exec.c] needs of the directory cache and the files: [path_lookup],
    [path_access] with [X_OK], [file_open] with [O_RDONLY], [path_put],
    [file_close], and the bytes that [file_seek] and [file_read] give. *)
Class ExecFiles (K P : Type) := {
  xf_lookup : K → list Z → outcome (K * result P);
  xf_access : K → P → outcome (result unit);
  xf_open : K → P → outcome (K * result Z);
  xf_put : K → P → outcome K;
  xf_close : K → Z → outcome (K * result unit);
  xf_data : K → Z → list Z;
}.

Definition TASK_STACK_START : Z := 3221221376.      (* 0xBFFFF000 *)
Definition TASK_STACK_INIT_BASE : Z := 3221209088.  (* 0xBFFFC000 *)
Definition TASK_MAX_ARG_SIZE : Z := 8192.

(** [argc] and [envc] are the lengths of the lists. *)
Record exec_t := mk_exec { x_buffer : list Z; x_file : Z; x_argv : list (list Z); x_envp : list (list Z) }.

(** * Scripts *)

(** The characters up to the end of the line. *)
Fixpoint first_line (l : list Z) : option (list Z) :=
  match l with
  | [] => None
  | c :: l => if (c =? 10) || (c =? 0) then Some [] else (cons c) <$> first_line l
  end.

Fixpoint skip_spaces (l : list Z) : list Z :=
  match l with
  | c :: l' => if c =? 32 then skip_spaces l' else l
  | [] => []
  end.

(** The loop that counts arguments; [prev] is the character before. *)
Fixpoint count_args (prev : Z) (l : list Z) : nat :=
  match l with
  | [] => 0
  | c :: l => let n := count_args c l in if (prev =? 32) && negb (c =? 32) then S n else n
  end.

(** The tokens that [strtok] finds; [cur] is the one it is in, last character
    first. *)
Fixpoint tokens (cur l : list Z) : list (list Z) :=
  match l with
  | [] => match cur with [] => [] | _ => [rev cur] end
  | c :: l => if c =? 32 then match cur with [] => tokens [] l | _ => rev cur :: tokens [] l end
              else tokens (c :: cur) l
  end.

(** The buffer afterwards: [strtok] stores a zero behind every token. *)
Fixpoint cut_tokens (prev : Z) (l : list Z) : list Z :=
  match l with
  | [] => []
  | c :: l => (if (c =? 32) && negb (prev =? 32) then 0 else c) :: cut_tokens c l
  end.

Inductive exec_type : Set := ELF32 | SHEBANG.

#[global] Instance exec_type_eq_dec : EqDecision exec_type.
Proof. solve_decision. Defined.

Section Exec.
Context {K P : Type} `{EF : ExecFiles K P}.

(** [file_read(file, buffer, 256)] over what the buffer held. *)
Definition read_head (k : K) (f : Z) (buffer : list Z) : list Z := list_inserts 0 (take 256 (xf_data k f)) buffer.

(** The first argument is replaced by the arguments of the first line and the
    name of the script.  The result is [EXEC_INVALID], [EXEC_INTERP] or an
    error. *)
Definition shebang_check (k : K) (filename : list Z) (ex : exec_t) : outcome (K * exec_t * result Z) :=
  if bool_decide (take 2 (x_buffer ex) = [35; 33]) then
    let buf := <[1%nat := 32]> (x_buffer ex) in
    let interp := skip_spaces (drop 2 buf) in
    line <~ or_halt (first_line interp) ;;
    let nargs := count_args 32 line in
    if decide (nargs = 0%nat) then Ret (k, mk_exec buf (x_file ex) (x_argv ex) (x_envp ex), Err ENOENT)
    else
      let argv := take (nargs + length (x_argv ex)) (tokens [] line ++ [filename] ++ tail (x_argv ex)) in
      let start := (length buf - length interp)%nat in
      let buf := list_inserts start (cut_tokens 32 line ++ [0]) buf in
      let ex := mk_exec buf (x_file ex) argv (x_envp ex) in
      name <~ or_halt (head argv) ;;
      '(k, r) <~ xf_lookup k name ;;
      match r with
      | Err _ => Ret (k, ex, Err ENOENT)
      | Ok p =>
          '(k, r) <~ xf_open k p ;;
          k <~ xf_put k p ;;
          match r with
          | Err _ => Ret (k, ex, Err ENOENT)
          | Ok f =>
              '(k, _) <~ xf_close k (x_file ex) ;;
              Ret (k, mk_exec (read_head k f buf) f argv (x_envp ex), Ok EXEC_INTERP)
          end
      end
  else Ret (k, ex, Ok EXEC_INVALID).

(** * Executable types *)

(** The list [g_exec_type]. *)
Definition register_exec_type (l : list exec_type) (t : option exec_type) : list exec_type :=
  match t with None => l | Some t => t :: l end.

Definition check_exec (t : exec_type) (k : K) (filename : list Z) (ex : exec_t) : outcome (K * exec_t * result Z) :=
  match t with
  | ELF32 => Ret (k, ex, Ok (elf_check_exec (x_buffer ex)))
  | SHEBANG => shebang_check k filename ex
  end.

(** The search: an interpreter starts it again from [types]. *)
Fixpoint find_type (fuel : nat) (types rest : list exec_type) (k : K) (filename : list Z) (ex : exec_t) :
    outcome (K * exec_t * result (option exec_type)) :=
  match fuel with
  | O => OutOfFuel
  | S fuel =>
      match rest with
      | [] => Ret (k, ex, Ok None)
      | t :: rest =>
          '(k, ex, r) <~ check_exec t k filename ex ;;
          match r with
          | Err e => Ret (k, ex, Err e)
          | Ok c => if c =? EXEC_VALID then Ret (k, ex, Ok (Some t))
                    else if c =? EXEC_INTERP then find_type fuel types types k filename ex
                    else find_type fuel types rest k filename ex
          end
      end
  end.

(** * The stack of the program *)

Definition bytes32 (v : Z) : list Z := [v; v / 256; v / 65536; v / 16777216].

(** The strings, each with its address in the array at [arr]. *)
Fixpoint put_strings (s : aspace) (arr str : Z) (l : list (list Z)) : outcome (aspace * Z) :=
  match l with
  | [] => Ret (s, str)
  | x :: l =>
      s <~ as_store s arr (bytes32 str) ;;
      s <~ as_store s str (x ++ [0]) ;;
      put_strings s (arr + 4) (str + Z.of_nat (length x) + 1) l
  end.

Fixpoint strings_size (l : list (list Z)) : Z :=
  match l with [] => 0 | x :: l => Z.of_nat (length x) + 1 + strings_size l end.

Definition args_size (argv envp : list (list Z)) : Z :=
  strings_size argv + strings_size envp + 4 * (Z.of_nat (length envp) + 1) + 4 * (Z.of_nat (length argv) + 1).

(** Both arrays and the strings, at the top of the stack; the addresses of the
    arrays. *)
Definition put_args (s : aspace) (argv envp : list (list Z)) : outcome (aspace * Z * Z) :=
  let a := TASK_STACK_START - args_size argv envp in
  let e := a + 4 * (Z.of_nat (length argv) + 1) in
  let str := e + 4 * (Z.of_nat (length envp) + 1) in
  '(s, str) <~ put_strings s a str argv ;;
  s <~ as_store s (a + 4 * Z.of_nat (length argv)) (bytes32 0) ;;
  '(s, _) <~ put_strings s e str envp ;;
  s <~ as_store s (e + 4 * Z.of_nat (length envp)) (bytes32 0) ;;
  Ret (s, a, e).

(** The page of the signal stack and the pages of the stack. *)
Definition alloc_stack (s : aspace) : outcome aspace :=
  s <~ as_alloc s TASK_STACK_START true true ;;
  s <~ as_alloc s TASK_STACK_INIT_BASE true true ;;
  s <~ as_alloc s (TASK_STACK_INIT_BASE + 4096) true true ;;
  as_alloc s (TASK_STACK_INIT_BASE + 8192) true true.

(** The registers the program starts with, and the end of its data. *)
Record started := mk_started { r_eip : Z; r_useresp : Z; r_eflags : Z; r_cs : Z; r_ss : Z; r_ds : Z; t_dataend : Z }.

(** From the point of no return; an error of the loader ends the task. *)
Definition start_program (junk : nat → Z) (fuel : nat) (s : aspace) (file : list Z) (t : exec_type) (ex : exec_t) (memory : bool) :
    outcome (aspace * result started) :=
  s <~ alloc_stack s ;;
  '(s, argv, envp) <~ put_args s (x_argv ex) (x_envp ex) ;;
  '(s, r) <~ match t with ELF32 => elf_load_exec junk fuel file (x_buffer ex) s memory | SHEBANG => Ret (s, Ok (0, 0)) end ;;
  match r with
  | Err e => Ret (s, Err e)
  | Ok (entry, bssend) =>
      s <~ as_store s (argv - 8) (bytes32 argv) ;;
      s <~ as_store s (argv - 4) (bytes32 envp) ;;
      s <~ as_store s (argv - 12) (bytes32 (Z.of_nat (length (x_argv ex)))) ;;
      Ret (s, Ok (mk_started entry (argv - 12) 2097664 27 35 35 bssend))
  end.

(** What a call of [sys_execve] did: it returned to its caller, or the task now
    runs the program, or it ended. *)
Inductive exec_result : Type :=
  | ExecReturned (s : aspace) (r : result unit)
  | ExecStarted (s : aspace) (r : started)
  | ExecExited (s : aspace) (e : errno).

(** [strip] is [strip_page_dir] for the current task.  The file opened first is
    closed on two error paths, although a script has closed it already; when
    the arguments are too long the result is that of [file_close]. *)
Definition sys_execve (types : list exec_type) (junk : nat → Z) (strip : aspace → aspace) (fuel : nat) (k : K) (s : aspace)
    (filename : list Z) (argv envp : list (list Z)) (memory : bool) : outcome (K * exec_result) :=
  '(k, r) <~ xf_lookup k filename ;;
  match r with
  | Err e => Ret (k, ExecReturned s (Err e))
  | Ok p =>
      r <~ xf_access k p ;;
      match r with
      | Err _ => Ret (k, ExecReturned s (Err EPERM))
      | Ok _ =>
          '(k, r) <~ xf_open k p ;;
          k <~ xf_put k p ;;
          match r with
          | Err e => Ret (k, ExecReturned s (Err e))
          | Ok filp =>
              let ex := mk_exec (read_head k filp (replicate 256 0)) filp argv envp in
              '(k, ex, r) <~ find_type fuel types types k filename ex ;;
              match r with
              | Err e => Ret (k, ExecReturned s (Err e))
              | Ok None => '(k, _) <~ xf_close k filp ;; Ret (k, ExecReturned s (Err ENOEXEC))
              | Ok (Some t) =>
                  if TASK_MAX_ARG_SIZE <? args_size (x_argv ex) (x_envp ex) then
                    '(k, r) <~ xf_close k filp ;; Ret (k, ExecReturned s r)
                  else
                    '(s, r) <~ start_program junk fuel (strip s) (xf_data k (x_file ex)) t ex memory ;;
                    match r with
                    | Err e => Ret (k, ExecExited s e)
                    | Ok st => '(k, _) <~ xf_close k (x_file ex) ;; Ret (k, ExecStarted s st)
                    end
              end
          end
      end
  end.

(** * Modules *)

(** A loaded module; what its functions return. *)
Record module_t := mk_module { m_name : list Z; m_loadaddr : Z; m_refs : Z; m_load : option (result unit); m_remove : option (result unit) }.

(** The list of modules, the latest first. *)
Definition add_module (l : list module_t) (m : module_t) : list module_t * result unit :=
  match m_load m with
  | Some (Err e) => (l, Err e)
  | _ => (m :: l, Ok tt)
  end.

Fixpoint rem_first (l : list module_t) (name : list Z) : list module_t :=
  match l with
  | [] => []
  | m :: l => if bool_decide (m_name m = name) then l else m :: rem_first l name
  end.

(** [module_at m base info]: the structure at an address of kernel memory.
    Neither a module that was loaded nor an error closes the file. *)
Definition sys_insmod (junk : nat → Z) (ksyms : list (list Z * Z)) (module_at : mem → Z → Z → module_t) (k : K) (m : mem) (l : list module_t)
    (types : list exec_type) (filename : list Z) (alloc : Z → option Z) (memory : bool) : outcome (K * mem * list module_t * result unit) :=
  '(k, r) <~ xf_lookup k filename ;;
  match r with
  | Err e => Ret (k, m, l, Err e)
  | Ok p =>
      '(k, r) <~ xf_open k p ;;
      k <~ xf_put k p ;;
      match r with
      | Err e => Ret (k, m, l, Err e)
      | Ok f =>
          '(m, r) <~ (if bool_decide (ELF32 ∈ types) then elf_load_module junk ksyms (xf_data k f) m alloc memory else Ret (m, Ok None)) ;;
          match r with
          | Err e => Ret (k, m, l, Err e)
          | Ok None => '(k, _) <~ xf_close k f ;; Ret (k, m, l, Err ENOEXEC)
          | Ok (Some (base, info)) =>
              let '(l, r) := add_module l (module_at m base info) in Ret (k, m, l, r)
          end
      end
  end.

Definition sys_rmmod (l : list module_t) (name : list Z) : list module_t * result unit :=
  match list_find (λ m, m_name m = name) l with
  | None => (l, Err ENOENT)
  | Some (_, m) =>
      if negb (m_refs m =? 0) then (l, Err EBUSY)
      else match m_remove m with
           | Some (Err e) => (l, Err e)
           | _ => (rem_first l name, Ok tt)
           end
  end.
End Exec.

