(* ===== verification/ExecProps.v ===== *)
(** Starting a program: the arguments on its stack, scripts, and the search for
    an executable type. *)

From S2P Require Import Prelude Memory Bytes Elf ElfProps Exec.

(** * Scripts *)

Lemma tokens_count cur l : length (tokens cur l) = (match cur with [] => count_args 32 l | _ => S (count_args 0 l) end).
Proof.
  revert cur. assert (H0 : ∀ l x, x ≠ 32 → count_args x l = count_args 0 l).
  { intros [|c l'] x Hx; cbn [count_args]; [done|]. by rewrite (proj2 (Z.eqb_neq _ _) Hx). }
  induction l as [|c l IH]; intros cur; cbn [tokens count_args]; [by destruct cur|].
  destruct (Z.eqb_spec c 32) as [->|Hc]; cbn [negb].
  - destruct cur as [|x cur]; cbn [length]; rewrite IH; done.
  - rewrite IH, (H0 l c Hc). by destruct cur.
Qed.

(** A word of a line: no spaces. *)
Definition word_ok (w : list Z) : Prop := w ≠ [] ∧ Forall (λ c, c ≠ 32) w.

Lemma rev_word x cur : Forall (λ c, c ≠ 32) (x :: cur) → word_ok (rev (x :: cur)).
Proof. intros H. split; [cbn [rev]; by destruct (rev cur)|]. by apply List.Forall_rev. Qed.

Lemma tokens_words cur l : Forall (λ c, c ≠ 32) cur → Forall word_ok (tokens cur l).
Proof.
  revert cur. induction l as [|c l IH]; intros cur Hc; cbn [tokens].
  { destruct cur as [|x cur]; constructor; [by apply rev_word|constructor]. }
  destruct (Z.eqb_spec c 32) as [->|Hne]; [|by apply IH; constructor].
  destruct cur as [|x cur]; [by apply IH|]. constructor; [by apply rev_word|by apply IH].
Qed.

(** Splitting at spaces undoes joining with any number of spaces. *)
Lemma tokens_word cur w l : Forall (λ c, c ≠ 32) w → tokens cur (w ++ l) = tokens (rev w ++ cur) l.
Proof.
  revert cur. induction w as [|c w IH]; intros cur Hw; [done|]. apply Forall_cons in Hw as [Hc Hw]. cbn [app tokens rev].
  rewrite (proj2 (Z.eqb_neq _ _) Hc), IH by done. by rewrite <- app_assoc.
Qed.

Lemma tokens_spaces n l : tokens [] (replicate n 32 ++ l) = tokens [] l.
Proof. induction n as [|n IH]; [done|]. cbn [replicate app tokens]. done. Qed.

(** A line: words, each behind some spaces, and [m] spaces at the end. *)
Fixpoint line_of (ws : list (nat * list Z)) (m : nat) : list Z :=
  match ws with
  | [] => replicate m 32
  | (n, w) :: ws => replicate (S n) 32 ++ w ++ line_of ws m
  end.

Lemma tokens_end w rest : word_ok w → (rest = [] ∨ ∃ l, rest = 32 :: l) → tokens [] (w ++ rest) = w :: tokens [] rest.
Proof.
  intros [Hne Hw] Hr. rewrite tokens_word, app_nil_r by done. destruct (rev w) as [|x v] eqn:E.
  { apply (f_equal (@rev Z)) in E. rewrite rev_involutive in E. by subst. }
  assert (E' : rev (x :: v) = w) by (rewrite <- E; apply rev_involutive).
  destruct Hr as [->|[l ->]]; cbn [tokens]; by rewrite ?E'.
Qed.

Lemma line_start ws m : line_of ws m = [] ∨ ∃ l, line_of ws m = 32 :: l.
Proof. destruct ws as [|[n w] ws]; [destruct m; [by left|right; by eexists]|right; by eexists]. Qed.

Lemma tokens_line ws m : Forall (λ x, word_ok x.2) ws → tokens [] (line_of ws m) = snd <$> ws.
Proof.
  induction 1 as [|[n w] ws Hw Hws IH]; cbn [line_of].
  - pose proof (tokens_spaces m []) as E. by rewrite app_nil_r in E.
  - rewrite tokens_spaces, (tokens_end w) by (done || apply line_start). by rewrite IH.
Qed.

(** Characters of a line. *)
Definition plain (l : list Z) : Prop := Forall (λ c, c ≠ 10 ∧ c ≠ 0) l.

Lemma plain_line ws m : Forall (λ x, plain x.2) ws → plain (line_of ws m).
Proof.
  induction 1 as [|[n w] ws Hw Hws IH]; cbn [line_of]; [by apply Forall_replicate|].
  apply Forall_app. split; [by apply Forall_replicate|]. by apply Forall_app.
Qed.

Lemma first_line_plain l c rest : plain l → c = 10 ∨ c = 0 → first_line (l ++ c :: rest) = Some l.
Proof.
  intros Hl Hc. induction Hl as [|x l [Hx1 Hx2] _ IH]; cbn [app first_line].
  - by destruct Hc as [->| ->].
  - rewrite (proj2 (Z.eqb_neq _ _) Hx1), (proj2 (Z.eqb_neq _ _) Hx2). cbn [orb]. by rewrite IH.
Qed.

Lemma skip_spaces_word n w l : word_ok w → skip_spaces (replicate n 32 ++ w ++ l) = w ++ l.
Proof.
  intros [Hne Hw]. induction n as [|n IH]; [|done]. destruct w as [|c w]; [done|]. apply Forall_cons in Hw as [Hc _]. cbn.
  by rewrite (proj2 (Z.eqb_neq _ _) Hc).
Qed.

Section Props.
Context {K P : Type} `{EF : ExecFiles K P}.

Lemma shebang_run k filename ex n w ws m c rest a0 args p f k1 k2 k3 k4 r :
  x_buffer ex = [35; 33] ++ replicate n 32 ++ (w ++ line_of ws m) ++ c :: rest → (c = 10 ∨ c = 0) → length (x_buffer ex) = 256%nat →
  word_ok w → plain w → Forall (λ x, word_ok x.2 ∧ plain x.2) ws → x_argv ex = a0 :: args →
  xf_lookup k w = Ret (k1, Ok p) → xf_open k1 p = Ret (k2, Ok f) → xf_put k2 p = Ret k3 → xf_close k3 (x_file ex) = Ret (k4, r) →
  count_args 32 (w ++ line_of ws m) = length (w :: (snd <$> ws)) ∧
  ∃ buf, shebang_check k filename ex = Ret (k4, mk_exec buf f (w :: (snd <$> ws) ++ filename :: args) (x_envp ex), Ok EXEC_INTERP)
    ∧ length buf = 256%nat ∧ ∀ i, (i < length (xf_data k4 f))%nat → (i < 256)%nat → buf !! i = xf_data k4 f !! i.
Proof.
  intros Hb Hc Hl Hw Hpw Hws Ha Hlk Hop Hpu Hcl.
  assert (Hws1 : Forall (λ x, word_ok x.2) ws) by (eapply Forall_impl; [exact Hws|by intros x []]).
  assert (Hws2 : Forall (λ x, plain x.2) ws) by (eapply Forall_impl; [exact Hws|by intros x []]).
  set (line := w ++ line_of ws m) in *.
  assert (Htok : tokens [] line = w :: (snd <$> ws)) by (unfold line; rewrite tokens_end by (done || apply line_start); by rewrite tokens_line).
  assert (Hcnt : count_args 32 line = length (w :: (snd <$> ws))) by (rewrite <- Htok; symmetry; apply (tokens_count [] line)).
  split; [done|]. unfold shebang_check. rewrite bool_decide_eq_true_2 by (by rewrite Hb).
  assert (Hi : skip_spaces (drop 2 (<[1%nat := 32]> (x_buffer ex))) = line ++ c :: rest).
  { rewrite Hb. cbn [app insert list_insert drop]. unfold line. rewrite <- app_assoc. by apply skip_spaces_word. }
  rewrite Hi, first_line_plain; [|unfold line; apply Forall_app; split; [done|by apply plain_line]|done]. cbn [or_halt obind].
  rewrite Hcnt. rewrite decide_False by done. rewrite Htok, Ha. cbn [length tail].
  assert (Hargs : take (S (length (snd <$> ws)) + S (length args)) ((w :: (snd <$> ws)) ++ [filename] ++ args) = w :: (snd <$> ws) ++ filename :: args).
  { rewrite take_ge; [done|]. rewrite !length_app. cbn [length]. lia. }
  rewrite Hargs. cbn [head or_halt obind]. rewrite Hlk. cbn [obind]. rewrite Hop. cbn [obind]. rewrite Hpu. cbn [obind x_file x_envp].
  rewrite Hcl. cbn [obind]. eexists. split; [done|]. unfold read_head.
  split; [rewrite !length_inserts, length_insert; done|]. intros i Hi1 Hi2.
  rewrite inserts_lookup, length_take, !length_inserts, length_insert, Hl. rewrite decide_True by lia. rewrite Nat.sub_0_r.
  by rewrite lookup_take_lt by lia.
Qed.

(** C14: a script: [shebang_check] of a file that begins with [#!], a name and
    arguments separated by any number of spaces makes the interpreter the new
    file and its new argument list the name, those arguments, the name of the
    script and the old arguments without the first, in this order; the array
    for them, whose size comes from a separate count, has exactly one entry for
    each. *)
Theorem shebang_args k filename ex n w ws m c rest a0 args p f k1 k2 k3 k4 r :
  x_buffer ex = [35; 33] ++ replicate n 32 ++ (w ++ line_of ws m) ++ c :: rest → (c = 10 ∨ c = 0) → length (x_buffer ex) = 256%nat →
  word_ok w → plain w → Forall (λ x, word_ok x.2 ∧ plain x.2) ws → x_argv ex = a0 :: args →
  xf_lookup k w = Ret (k1, Ok p) → xf_open k1 p = Ret (k2, Ok f) → xf_put k2 p = Ret k3 → xf_close k3 (x_file ex) = Ret (k4, r) →
  count_args 32 (w ++ line_of ws m) = length (w :: (snd <$> ws)) ∧
  ∃ buf, shebang_check k filename ex = Ret (k4, mk_exec buf f (w :: (snd <$> ws) ++ filename :: args) (x_envp ex), Ok EXEC_INTERP)
    ∧ length buf = 256%nat ∧ ∀ i, (i < length (xf_data k4 f))%nat → (i < 256)%nat → buf !! i = xf_data k4 f !! i.
Proof. apply shebang_run. Qed.
End Props.
