(* ===== verification/ExecStack.v ===== *)
(** The start of a program: its arguments can be read back from the stack it
    starts with. *)

From S2P Require Import Prelude Memory Bytes Elf ElfProps Exec.

(** * Words and strings in memory *)

Lemma write_bytes32 m a v : write_bytes m a (bytes32 v) = st32 m a v.
Proof. unfold bytes32, st32. cbn [write_bytes]. by rewrite <- !Z.add_assoc. Qed.

Definition chars_ok (s : list Z) : Prop := Forall (λ c, 0 < c < 256) s.

(** The C string [s] at address [a]. *)
Definition cstring_at (m : mem) (a : Z) (s : list Z) : Prop :=
  (∀ i c, s !! i = Some c → ld8 m (a + Z.of_nat i) = c) ∧ ld8 m (a + Z.of_nat (length s)) = 0.

(** An array of pointers to strings, with a null pointer at its end. *)
Fixpoint strings_at (m : mem) (arr : Z) (l : list (list Z)) : Prop :=
  match l with
  | [] => ld32 m arr = 0
  | x :: l => cstring_at m (ld32 m arr) x ∧ strings_at m (arr + 4) l
  end.

(** The strings one behind the other from [str] on. *)
Fixpoint packed (m : mem) (arr str : Z) (l : list (list Z)) : Prop :=
  match l with
  | [] => True
  | x :: l => ld32 m arr = str ∧ cstring_at m str x ∧ packed m (arr + 4) (str + Z.of_nat (length x) + 1) l
  end.

Lemma packed_strings m arr str l : packed m arr str l → ld32 m (arr + 4 * Z.of_nat (length l)) = 0 → strings_at m arr l.
Proof.
  revert arr str. induction l as [|x l IH]; intros arr str; cbn [packed strings_at length].
  { intros _. by rewrite Z.add_0_r. }
  intros (E & Hx & Hl) H0. split; [by rewrite E|]. apply (IH _ _ Hl). rewrite <- H0. f_equal. lia.
Qed.

Lemma strings_size_nonneg l : 0 <= strings_size l.
Proof. induction l; cbn [strings_size]; lia. Qed.

Lemma cstring_frame m m' a s : (∀ b, a <= b <= a + Z.of_nat (length s) → ld8 m' b = ld8 m b) → cstring_at m a s → cstring_at m' a s.
Proof.
  intros H [H1 H2]. split; [|by rewrite H by lia]. intros i c Hi. rewrite H by (apply lookup_lt_Some in Hi; lia). by apply H1.
Qed.

Lemma ld32_frame m m' a : (∀ b, a <= b < a + 4 → ld8 m' b = ld8 m b) → ld32 m' a = ld32 m a.
Proof. intros H. unfold ld32. by rewrite !H by lia. Qed.

Lemma packed_frame m m' arr str l :
  (∀ b, arr <= b < arr + 4 * Z.of_nat (length l) ∨ str <= b < str + strings_size l → ld8 m' b = ld8 m b) → packed m arr str l → packed m' arr str l.
Proof.
  revert arr str. induction l as [|x l IH]; intros arr str H; cbn [packed length strings_size] in *; [done|].
  pose proof (strings_size_nonneg l). intros (E & Hx & Hl). split; [|split].
  - rewrite <- E. apply ld32_frame. intros b Hb. apply H. lia.
  - apply (cstring_frame m); [|done]. intros b Hb. apply H. lia.
  - apply IH; [|done]. intros b Hb. apply H. lia.
Qed.

Lemma write_cstring m a s : chars_ok s → cstring_at (write_bytes m a (s ++ [0])) a s.
Proof.
  intros Hs. split.
  - intros i c Hi. pose proof (lookup_lt_Some _ _ _ Hi). rewrite write_bytes_ld8, length_app, decide_True by (cbn [length]; lia).
    rewrite list_lookup_total_alt, lookup_app_l by lia. replace (Z.to_nat (a + Z.of_nat i - a)) with i by lia. rewrite Hi. cbn.
    apply u8_small. pose proof (Forall_lookup_1 _ _ _ _ Hs Hi) as Hc. cbn in Hc. lia.
  - rewrite write_bytes_ld8, length_app, decide_True by (cbn [length]; lia).
    rewrite list_lookup_total_alt, lookup_app_r by lia. replace (Z.to_nat _ - length s)%nat with 0%nat by lia. done.
Qed.

(** * The arguments *)

(** All pages of a range of addresses are there. *)
Definition mapped_range (s : aspace) (lo hi : Z) : Prop := ∀ b, lo <= b < hi → is_Some (as_pages s !! page_no b).

Lemma store_range s lo hi a l : mapped_range s lo hi → 0 <= lo <= a → a + Z.of_nat (length l) <= hi → hi <= 4294967296 →
  as_store s a l = Ret (mk_as (as_pages s) (as_free s) (write_bytes (as_mem s) a l)).
Proof. intros Hm H1 H2 H3. apply as_store_spec; [lia|lia|]. intros i Hi. apply Hm. lia. Qed.

Lemma put_strings_spec lo hi l : ∀ s arr str, mapped_range s lo hi → Forall chars_ok l → 0 <= lo <= arr → arr + 4 * Z.of_nat (length l) <= str →
  str + strings_size l <= hi → hi <= 4294967296 →
  ∃ m', put_strings s arr str l = Ret (mk_as (as_pages s) (as_free s) m', str + strings_size l) ∧ packed m' arr str l
    ∧ ∀ b, ¬ arr <= b < arr + 4 * Z.of_nat (length l) → ¬ str <= b < str + strings_size l → ld8 m' b = ld8 (as_mem s) b.
Proof.
  induction l as [|x l IH]; intros s arr str Hm Hok Hlo Harr Hhi Hmax; cbn [put_strings packed length strings_size] in *.
  { exists (as_mem s). rewrite Z.add_0_r. by destruct s. }
  apply Forall_cons in Hok as [Hx Hok]. pose proof (strings_size_nonneg l) as Hnn.
  rewrite (store_range s lo hi arr) by (done || cbn [length bytes32]; lia). cbn [obind]. rewrite write_bytes32.
  set (s1 := mk_as _ _ _). rewrite (store_range s1 lo hi str) by (done || rewrite ?length_app; cbn [length]; lia). cbn [obind as_pages as_free as_mem s1].
  set (m2 := write_bytes _ str _). destruct (IH (mk_as (as_pages s) (as_free s) m2) (arr + 4) (str + Z.of_nat (length x) + 1)) as (m' & Hrun & Hp & Hf);
    [done|done|lia|lia|lia|done|]. cbn [as_pages as_free as_mem] in *.
  exists m'. split; [rewrite Hrun; f_equal; f_equal; lia|].
  assert (Hm2 : ∀ b, ¬ str <= b < str + Z.of_nat (length x) + 1 → ld8 m2 b = ld8 (st32 (as_mem s) arr str) b).
  { intros b Hb. unfold m2. rewrite write_bytes_ld8, length_app, decide_False by (cbn [length]; lia). done. }
  split; [split; [|split; [|done]]|].
  - rewrite (ld32_frame m2 m') by (intros b Hb; apply Hf; lia). rewrite (ld32_frame (st32 (as_mem s) arr str) m2) by (intros b Hb; apply Hm2; lia).
    apply ld32_st32_eq. lia.
  - apply (cstring_frame m2); [intros b Hb; apply Hf; lia|]. by apply write_cstring.
  - intros b Hb1 Hb2. rewrite Hf by lia. rewrite Hm2 by lia. apply ld8_st32_ne. lia.
Qed.

(** The layout: both arrays and the strings fill the top of the stack. *)
Definition laid_out (m : mem) (argv envp : list (list Z)) (a : Z) : Prop :=
  let e := a + 4 * (Z.of_nat (length argv) + 1) in
  let str := e + 4 * (Z.of_nat (length envp) + 1) in
  packed m a str argv ∧ ld32 m (a + 4 * Z.of_nat (length argv)) = 0
  ∧ packed m e (str + strings_size argv) envp ∧ ld32 m (e + 4 * Z.of_nat (length envp)) = 0.

Lemma laid_out_strings m argv envp a : laid_out m argv envp a → strings_at m a argv ∧ strings_at m (a + 4 * (Z.of_nat (length argv) + 1)) envp.
Proof. intros (H1 & H2 & H3 & H4). split; by eapply packed_strings. Qed.

Lemma laid_out_frame m m' argv envp a : a = TASK_STACK_START - args_size argv envp →
  (∀ b, a <= b < TASK_STACK_START → ld8 m' b = ld8 m b) → laid_out m argv envp a → laid_out m' argv envp a.
Proof.
  intros Ha H (H1 & H2 & H3 & H4). unfold args_size in Ha. pose proof (strings_size_nonneg argv). pose proof (strings_size_nonneg envp).
  split; [|split; [|split]].
  - apply (packed_frame m); [|done]. intros b Hb. apply H. lia.
  - rewrite <- H2. apply ld32_frame. intros b Hb. apply H. lia.
  - apply (packed_frame m); [|done]. intros b Hb. apply H. lia.
  - rewrite <- H4. apply ld32_frame. intros b Hb. apply H. lia.
Qed.

Lemma put_args_spec s argv envp : mapped_range s TASK_STACK_INIT_BASE TASK_STACK_START → args_size argv envp <= TASK_MAX_ARG_SIZE →
  Forall chars_ok argv → Forall chars_ok envp →
  let a := TASK_STACK_START - args_size argv envp in
  ∃ m', put_args s argv envp = Ret (mk_as (as_pages s) (as_free s) m', a, a + 4 * (Z.of_nat (length argv) + 1))
    ∧ laid_out m' argv envp a ∧ ∀ b, ¬ a <= b < TASK_STACK_START → ld8 m' b = ld8 (as_mem s) b.
Proof.
  intros Hm Hmax Hargv Henvp a. pose proof (strings_size_nonneg argv) as Hn1. pose proof (strings_size_nonneg envp) as Hn2. unfold put_args. fold a.
  assert (Ha : a + args_size argv envp = TASK_STACK_START) by (unfold a; lia). unfold args_size in Ha, Hmax.
  assert (Hlo : TASK_STACK_INIT_BASE <= a) by (unfold a, args_size, TASK_STACK_INIT_BASE, TASK_STACK_START, TASK_MAX_ARG_SIZE in *; lia).
  unfold TASK_STACK_START in Ha, Hm. assert (0 <= TASK_STACK_INIT_BASE) by done.
  set (e := a + 4 * (Z.of_nat (length argv) + 1)) in *. set (str := e + 4 * (Z.of_nat (length envp) + 1)).
  destruct (put_strings_spec _ _ argv s a str Hm Hargv) as (m1 & -> & Hp1 & Hf1); [lia..|]. cbn [obind].
  rewrite (store_range _ _ _ _ _ (Hm : mapped_range (mk_as _ (as_free s) m1) _ _)) by (cbn [length bytes32]; lia).
  cbn [obind as_pages as_free as_mem]. rewrite write_bytes32. set (m2 := st32 m1 _ 0).
  assert (Hf2 : ∀ b, ¬ a + 4 * Z.of_nat (length argv) <= b < e → ld8 m2 b = ld8 m1 b) by (intros b Hb; apply ld8_st32_ne; lia).
  destruct (put_strings_spec _ _ envp (mk_as (as_pages s) (as_free s) m2) e (str + strings_size argv) Hm Henvp) as (m3 & -> & Hp3 & Hf3); [lia..|].
  cbn [obind as_pages as_free as_mem] in *. rewrite (store_range _ _ _ _ _ (Hm : mapped_range (mk_as _ (as_free s) m3) _ _)) by (cbn [length bytes32]; lia).
  cbn [obind as_pages as_free as_mem]. rewrite write_bytes32. set (m4 := st32 m3 _ 0).
  assert (Hf4 : ∀ b, ¬ e + 4 * Z.of_nat (length envp) <= b < str → ld8 m4 b = ld8 m3 b) by (intros b Hb; apply ld8_st32_ne; lia).
  exists m4. split; [done|]. split; [split; [|split; [|split]]|].
  - apply (packed_frame m1); [|done]. intros b Hb. rewrite Hf4, Hf3, Hf2 by lia. done.
  - rewrite (ld32_frame m2) by (intros b Hb; rewrite Hf4, Hf3 by lia; done). by apply ld32_st32_eq.
  - apply (packed_frame m3); [|done]. intros b Hb. apply Hf4. lia.
  - by apply ld32_st32_eq.
  - intros b Hb. unfold TASK_STACK_START in Hb. rewrite Hf4, Hf3, Hf2, Hf1 by lia. done.
Qed.

(** * The program *)

Lemma as_alloc_spec s a user rw : 0 < as_free s →
  ∃ s', as_alloc s a user rw = Ret s' ∧ as_mem s' = as_mem s ∧ as_free s - 1 <= as_free s' ∧ as_pages s' = <[page_no a := (user, rw)]> (as_pages s).
Proof.
  intros H. unfold as_alloc. destruct (as_pages s !! page_no a); [|rewrite (proj2 (Z.eqb_neq _ _)) by lia]; (eexists; split; [done|]); cbn; repeat split; lia.
Qed.

Lemma alloc_stack_spec s : 4 <= as_free s →
  ∃ s', alloc_stack s = Ret s' ∧ as_mem s' = as_mem s ∧ as_free s - 4 <= as_free s' ∧ mapped_range s' TASK_STACK_INIT_BASE TASK_STACK_START.
Proof.
  intros H. unfold alloc_stack.
  destruct (as_alloc_spec s TASK_STACK_START true true) as (s1 & -> & M1 & F1 & P1); [lia|]. cbn [obind].
  destruct (as_alloc_spec s1 TASK_STACK_INIT_BASE true true) as (s2 & -> & M2 & F2 & P2); [lia|]. cbn [obind].
  destruct (as_alloc_spec s2 (TASK_STACK_INIT_BASE + 4096) true true) as (s3 & -> & M3 & F3 & P3); [lia|]. cbn [obind].
  destruct (as_alloc_spec s3 (TASK_STACK_INIT_BASE + 8192) true true) as (s4 & -> & M4 & F4 & P4); [lia|].
  exists s4. split; [done|]. split; [congruence|]. split; [lia|]. intros b Hb. unfold TASK_STACK_INIT_BASE, TASK_STACK_START in Hb.
  assert (page_no b = 786428 ∨ page_no b = 786429 ∨ page_no b = 786430) as Hq.
  { unfold page_no. pose proof (Z.div_mod b 4096). pose proof (Z.mod_pos_bound b 4096). lia. }
  rewrite P4, P3, P2. change (page_no TASK_STACK_INIT_BASE) with 786428. change (page_no (TASK_STACK_INIT_BASE + 4096)) with 786429.
  change (page_no (TASK_STACK_INIT_BASE + 8192)) with 786430.
  destruct Hq as [-> | [-> | ->]]; rewrite !lookup_insert; repeat case_decide; (done || lia).
Qed.

Section Start.
Context (junk : nat → Z) (fuel : nat) (file : list Z) (ex : exec_t) (phs : list Elf32_Phdr).
Local Notation h := (ehdr_of (x_buffer ex)).
Local Notation argv := (x_argv ex).
Local Notation envp := (x_envp ex).

(** A program whose segments lie below the stack, with arguments that fit. *)
Record program_ok (s : aspace) : Prop := {
  po_ident : elf_check_ident h ET_EXEC = Ok tt;
  po_count : length phs = Z.to_nat (e_phnum h);
  po_table : ∀ j ph, phs !! j = Some ph → entry_at PHDR_SIZE phdr_of (read_table junk file (e_phoff h) (e_phnum h * e_phentsize h)) j = Ret ph;
  po_segments : Forall (λ ph, loaded ph → seg_ok file ph ∧ seg_pages ph <= Z.of_nat fuel ∧ seg_end ph <= TASK_STACK_INIT_BASE) phs;
  po_apart : apart phs;
  po_frames : pages_needed phs + 4 <= as_free s;
  po_bytes : Forall (λ x, 0 <= x < 256) file;
  po_args : args_size argv envp <= TASK_MAX_ARG_SIZE;
  po_chars : Forall chars_ok argv ∧ Forall chars_ok envp;
}.

(** C12: [sys_execve] starts a program (the part behind the point of no
    return): its segments are in memory as [elf_load_exec] promises, the
    registers have the entry point, user segments and a stack pointer at which
    the program finds [argc], and the addresses of two null-terminated arrays
    of strings, which are the arguments and the environment given to the call,
    character for character. *)
Theorem exec_args_on_stack s : program_ok s →
  ∃ s' sp, start_program junk fuel s file ELF32 ex true = Ret (s', Ok (mk_started (e_entry h) sp 2097664 27 35 35 (image_end phs 0)))
    ∧ TASK_STACK_INIT_BASE <= sp < TASK_STACK_START
    ∧ ld32 (as_mem s') sp = Z.of_nat (length argv)
    ∧ strings_at (as_mem s') (ld32 (as_mem s') (sp + 4)) argv
    ∧ strings_at (as_mem s') (ld32 (as_mem s') (sp + 8)) envp
    ∧ ∀ ph i, ph ∈ phs → loaded ph → 0 <= i < p_memsz ph → ld8 (as_mem s') (p_vaddr ph + i) = seg_byte file ph i.
Proof.
  intros [H1 H2 H3 H4 H5 H6 H7 H8 [H9 H10]]. unfold start_program.
  assert (Hpn : 0 <= pages_needed phs).
  { clear -H4. induction H4 as [|x l Hx _ IH]; cbn [pages_needed]; [lia|]. destruct (Z.eqb_spec (p_type x) PT_LOAD) as [E|_]; [|lia].
    destruct (Hx E) as [Hxo _]. pose proof (seg_pages_pos file x Hxo). lia. }
  destruct (alloc_stack_spec s) as (s1 & -> & M1 & F1 & P1); [lia|]. cbn [obind].
  destruct (put_args_spec s1 argv envp P1 H8 H9 H10) as (m2 & -> & Hlay & Hf2). cbn [obind].
  set (a := TASK_STACK_START - args_size argv envp) in *. set (e := a + 4 * (Z.of_nat (length argv) + 1)) in *.
  assert (Hseg : Forall (λ ph, loaded ph → seg_ok file ph ∧ seg_pages ph <= Z.of_nat fuel) phs).
  { eapply Forall_impl; [exact H4|]. intros ph Hp Hl. by destruct (Hp Hl) as (? & ? & _). }
  destruct (elf_load_run file fuel H7 junk (x_buffer ex) phs (mk_as (as_pages s1) (as_free s1) m2) H1 H2 H3 Hseg H5) as (s3 & -> & Him);
    [cbn [as_free]; lia|]. cbn [obind].
  destruct Him as [I1 I2 _ _ _ I6]. cbn [as_pages as_mem] in *.
  assert (Hbelow : ∀ b, TASK_STACK_INIT_BASE <= b → ld8 (as_mem s3) b = ld8 m2 b).
  { intros b Hb. apply I2. intros ph Hph Hl [_ Hin]. destruct (proj1 (Forall_forall _ _) H4 ph Hph Hl) as (_ & _ & He). lia. }
  pose proof (strings_size_nonneg argv). pose proof (strings_size_nonneg envp).
  assert (Hlo : TASK_STACK_INIT_BASE + 4096 <= a < TASK_STACK_START - 4)
    by (unfold a, args_size, TASK_STACK_START, TASK_STACK_INIT_BASE, TASK_MAX_ARG_SIZE in *; lia).
  assert (He : a < e < TASK_STACK_START) by (unfold e, a, args_size, TASK_STACK_START, TASK_STACK_INIT_BASE, TASK_MAX_ARG_SIZE in *; lia).
  unfold TASK_STACK_START, TASK_STACK_INIT_BASE in Hlo, He.
  assert (P3 : ∀ m, mapped_range (mk_as (as_pages s3) (as_free s3) m) TASK_STACK_INIT_BASE TASK_STACK_START) by (intros m b Hb; apply I6, P1, Hb).
  assert (Hst : ∀ m c v, a - 12 <= c → c + 4 <= a → as_store (mk_as (as_pages s3) (as_free s3) m) c (bytes32 v) = Ret (mk_as (as_pages s3) (as_free s3) (st32 m c v))).
  { intros m c v Hc1 Hc2. rewrite (store_range _ _ _ _ _ (P3 m)); cbn [as_mem]; [by rewrite write_bytes32|..];
      unfold TASK_STACK_INIT_BASE, TASK_STACK_START; cbn [length bytes32]; lia. }
  assert (Es3 : s3 = mk_as (as_pages s3) (as_free s3) (as_mem s3)) by (by destruct s3). rewrite Es3.
  do 3 (rewrite Hst by lia; cbn [obind]). set (m4 := st32 _ (a - 12) _).
  assert (Hm4 : ∀ b, ¬ a - 12 <= b < a → ld8 m4 b = ld8 (as_mem s3) b) by (intros b Hb; unfold m4; by rewrite !ld8_st32_ne by lia).
  assert (Hw : ld32 m4 (a - 12) = Z.of_nat (length argv) ∧ ld32 m4 (a - 12 + 4) = a ∧ ld32 m4 (a - 12 + 8) = e).
  { unfold m4. replace (a - 12 + 4) with (a - 8) by lia. replace (a - 12 + 8) with (a - 4) by lia.
    assert (Z.of_nat (length argv) < 4294967296) by (unfold e in He; lia).
    rewrite ld32_st32_eq, (ld32_st32_ne _ (a - 12)), (ld32_st32_ne _ (a - 4) (a - 8)), ld32_st32_eq, (ld32_st32_ne _ (a - 12)), ld32_st32_eq by lia. done. }
  destruct Hw as (W1 & W2 & W3). exists (mk_as (as_pages s3) (as_free s3) m4), (a - 12). cbn [as_mem]. rewrite W1, W2, W3.
  split; [done|]. split; [unfold TASK_STACK_START, TASK_STACK_INIT_BASE; lia|]. split; [done|].
  destruct (laid_out_strings m4 argv envp a) as [S1 S2].
  { apply (laid_out_frame m2); [done| |done]. intros b Hb. rewrite Hm4 by lia. apply Hbelow. unfold TASK_STACK_INIT_BASE. lia. }
  split; [done|]. split; [done|]. intros ph i Hph Hl Hi. destruct (proj1 (Forall_forall _ _) H4 ph Hph Hl) as (_ & _ & Hend).
  rewrite Hm4 by (unfold seg_end, TASK_STACK_INIT_BASE in Hend; lia). by apply I1.
Qed.
End Start.
