(* ===== verification/ExecDemo.v ===== *)
(** A small set of files: witnesses of the theorems on starting programs, and
    faults of [exec.c]. *)

From S2P Require Import Prelude Memory Bytes Elf ElfProps ElfReloc Exec ExecProps ExecStack.

(** Files by name; the open ones by number.  Closing a file that is not open
    uses freed memory. *)
Record dfs := mk_dfs { d_files : list (list Z * list Z); d_open : gmap Z (list Z); d_next : Z }.

Fixpoint d_find (l : list (list Z * list Z)) (name : list Z) : option (list Z) :=
  match l with
  | [] => None
  | (n, x) :: l => if bool_decide (n = name) then Some x else d_find l name
  end.

#[export] Instance dfs_files : ExecFiles dfs (list Z) := {
  xf_lookup k name := Ret (k, match d_find (d_files k) name with Some x => Ok x | None => Err ENOENT end);
  xf_access k p := Ret (Ok tt);
  xf_open k p := Ret (mk_dfs (d_files k) (<[d_next k := p]> (d_open k)) (d_next k + 1), Ok (d_next k));
  xf_put k p := Ret k;
  xf_close k f := match d_open k !! f with
                  | None => Halt
                  | Some _ => Ret (mk_dfs (d_files k) (delete f (d_open k)) (d_next k), Ok tt)
                  end;
  xf_data k f := default [] (d_open k !! f);
}.

Definition sh : list Z := [115; 104].
Definition s_name : list Z := [115].
Definition script : list Z := [35; 33; 32; 115; 104; 32; 45; 120; 10].      (* #! sh -x *)
Definition loop_script : list Z := [35; 33; 115; 10].                       (* #!s *)

Definition files0 : dfs := mk_dfs [(sh, prog); (s_name, script)] {[7 := script]} 8.
Definition ex0 : exec_t := mk_exec (list_inserts 0 script (replicate 256 0)) 7 [[97]; [98]] [].

Lemma shebang_args_witness :
  ∃ buf, shebang_check files0 s_name ex0 = Ret (mk_dfs (d_files files0) {[8 := prog]} 9, mk_exec buf 8 [sh; [45; 120]; s_name; [98]] [], Ok EXEC_INTERP)
    ∧ buf !! 0%nat = Some 127.
Proof.
  destruct (shebang_args files0 s_name ex0 1 sh [(0%nat, [45; 120])] 0 10 (replicate 247 0) [97] [[98]] prog 8 files0
    (mk_dfs (d_files files0) (<[8 := prog]> {[7 := script]}) 9) (mk_dfs (d_files files0) (<[8 := prog]> {[7 := script]}) 9)
    (mk_dfs (d_files files0) {[8 := prog]} 9) (Ok tt)) as (_ & buf & Hrun & _ & Hb).
  - vm_compute. reflexivity.
  - by left.
  - reflexivity.
  - split; [discriminate|]. by repeat constructor.
  - by repeat constructor.
  - repeat constructor; (discriminate || done).
  - reflexivity.
  - reflexivity.
  - reflexivity.
  - reflexivity.
  - reflexivity.
  - exists buf. split; [exact Hrun|]. rewrite Hb; [reflexivity|vm_compute; lia|lia].
Defined.

(** A program started with the arguments [sh], [-x] and one string of
    environment. *)
Definition ex1 : exec_t := mk_exec prog 8 [sh; [45; 120]] [[65; 61; 49]].
Definition as1 : aspace := mk_as ∅ 5 ∅.

Lemma ex1_ok : program_ok (λ _, 0) 1 prog ex1 [seg0; seg1] as1.
Proof.
  constructor.
  - vm_compute. reflexivity.
  - vm_compute. reflexivity.
  - intros [|[|j]] ph Hj; [injection Hj as <-..|done]; vm_compute; reflexivity.
  - apply Forall_cons. split; [intros _; destruct seg0_ok; split; [done|]; split; [done|vm_compute; discriminate]|].
    apply Forall_cons. split; [intros E; discriminate E|apply Forall_nil_2].
  - split; [|by split]. intros _. apply Forall_cons. split; [intros E; discriminate E|apply Forall_nil_2].
  - vm_compute. discriminate.
  - exact prog_bytes.
  - vm_compute. discriminate.
  - split; by repeat constructor.
Qed.

Lemma exec_args_on_stack_witness :
  ∃ s' sp, start_program (λ _, 0) 1 as1 prog ELF32 ex1 true = Ret (s', Ok (mk_started 134512640 sp 2097664 27 35 35 134512646))
    ∧ ld32 (as_mem s') sp = 2 ∧ strings_at (as_mem s') (ld32 (as_mem s') (sp + 4)) [sh; [45; 120]]
    ∧ strings_at (as_mem s') (ld32 (as_mem s') (sp + 8)) [[65; 61; 49]].
Proof.
  destruct (exec_args_on_stack (λ _, 0) 1 prog ex1 [seg0; seg1] as1 ex1_ok) as (s' & sp & Hrun & _ & H1 & H2 & H3 & _).
  exists s', sp. split; [exact Hrun|]. split; [exact H1|]. split; [exact H2|exact H3].
Defined.

(** * Faults *)

(** A script that names itself as its interpreter: the search for a type
    starts again and again and never ends. *)
Definition loop_ok (k : dfs) (ex : exec_t) : Prop :=
  d_files k = [(s_name, loop_script)] ∧ is_Some (d_open k !! x_file ex) ∧ x_file ex < d_next k ∧ length (x_buffer ex) = 256%nat
  ∧ (∃ rest, x_buffer ex = loop_script ++ rest) ∧ (∃ a0 args, x_argv ex = a0 :: args).

Lemma loop_step k ex filename : loop_ok k ex → ∃ k' ex', shebang_check k filename ex = Ret (k', ex', Ok EXEC_INTERP) ∧ loop_ok k' ex'.
Proof.
  intros (Hf & [x Hx] & Hn & Hl & [rest Hb] & (a0 & args & Ha)).
  set (k2 := mk_dfs (d_files k) (<[d_next k := loop_script]> (d_open k)) (d_next k + 1)).
  set (k4 := mk_dfs (d_files k) (delete (x_file ex) (d_open k2)) (d_next k + 1)).
  destruct (shebang_run k filename ex 0 s_name [] 0 10 rest a0 args loop_script (d_next k) k k2 k2 k4 (Ok tt)) as (_ & buf & Hrun & Hlb & Hd).
  - by rewrite Hb.
  - by left.
  - done.
  - split; [discriminate|by repeat constructor].
  - by repeat constructor.
  - constructor.
  - done.
  - cbn. rewrite Hf. done.
  - done.
  - done.
  - cbn. rewrite lookup_insert_ne, Hx by lia. done.
  - assert (Hdata : xf_data k4 (d_next k) = loop_script) by (cbn; rewrite lookup_delete_ne, lookup_insert_eq by lia; done).
    rewrite Hdata in Hd. eexists _, _. split; [exact Hrun|]. unfold loop_ok. cbn [x_file x_buffer x_argv d_files d_open d_next k4].
    split; [done|]. split; [rewrite lookup_delete_ne by lia; cbn; by rewrite lookup_insert_eq|]. split; [lia|]. split; [done|]. split; [|by eexists _, _].
    exists (drop 4 buf). rewrite <- (take_drop 4 buf) at 1. f_equal. apply list_eq. intros i. destruct (decide (i < 4)%nat) as [Hi|Hi].
    + rewrite lookup_take_lt by done. apply Hd; [cbn; lia|lia].
    + rewrite lookup_take_ge by lia. by rewrite lookup_ge_None_2 by (cbn; lia).
Qed.

Theorem exec_self_interpreter_hangs fuel k ex filename : loop_ok k ex → find_type fuel [SHEBANG; ELF32] [SHEBANG; ELF32] k filename ex = OutOfFuel.
Proof.
  revert k ex. induction fuel as [|fuel IH]; intros k ex H; [done|]. cbn [find_type check_exec].
  destruct (loop_step k ex filename H) as (k' & ex' & -> & H'). cbn [obind]. by apply IH.
Qed.

Lemma exec_self_interpreter_hangs_witness fuel :
  let k := mk_dfs [(s_name, loop_script)] {[0 := loop_script]} 1 in
  find_type fuel [SHEBANG; ELF32] [SHEBANG; ELF32] k s_name (mk_exec (read_head k 0 (replicate 256 0)) 0 [s_name] []) = OutOfFuel.
Proof.
  apply exec_self_interpreter_hangs. split; [done|]. split; [by eexists|]. split; [done|]. split; [done|]. split; [|by eexists _, _].
  exists (replicate 252 0). done.
Qed.

(** A script whose interpreter has no type: the script was closed when the
    interpreter was opened, and is closed again. *)
Definition note : list Z := [104; 105].
Definition bad_files : dfs := mk_dfs [(sh, note); (s_name, script)] ∅ 0.

Theorem exec_script_closed_twice : sys_execve [SHEBANG; ELF32] (λ _, 0) (λ s, s) 9 bad_files as1 s_name [s_name] [] true = Halt.
Proof. vm_compute. reflexivity. Qed.

(** Arguments that are too long: the result is that of [file_close], so that
    the caller is told that the call succeeded. *)
Definition returned (r : outcome (dfs * exec_result)) : option (result unit) :=
  match r with Ret (_, ExecReturned _ r) => Some r | _ => None end.

Theorem exec_too_long_reported_as_success :
  returned (sys_execve [SHEBANG; ELF32] (λ _, 0) (λ s, s) 9 (mk_dfs [(sh, prog)] ∅ 0) as1 sh [sh; replicate (Z.to_nat 8192) 97] [] true) = Some (Ok tt).
Proof. vm_compute. reflexivity. Qed.
