(* ===== verification/Ata.v ===== *)
(** The ATA driver: [src/kernel/src/ata.c] and [ata.h].

    The ports are the class [IoPorts] on a state [H] of the machine: [inb] and
    [outb] move a byte, [inl] and [outl] the four bytes of a word, lowest
    first; [ticks] is [timer_get_ticks].  What the devices do is left to
    [AtaProps].  The functions get the structure of the channel they work on,
    which does not change once the driver runs.  Waiting for a device takes
    fuel.  [uninit] is the value of a variable that was not assigned.  Messages
    are left out. *)

From S2P Require Import Prelude Bytes Block.

Class IoPorts (H : Type) := {
  inb : H → Z → H * Z;
  outb : H → Z → Z → H;
  inl : H → Z → H * list Z;
  outl : H → Z → list Z → H;
  ticks : H → Z;
}.

(** * Constants *)

Definition ATA_SR_BSY : Z := 128.
Definition ATA_SR_DRQ : Z := 8.
Definition ATA_SR_ERR : Z := 1.
Definition ATA_CMD_READ_SECTORS : Z := 32.
Definition ATA_CMD_WRITE_SECTORS : Z := 48.
Definition ATA_CMD_IDENTIFY_PACKET : Z := 161.
Definition ATA_CMD_IDENTIFY : Z := 236.
Definition ATA_IDENT_DEVICETYPE : nat := 0.
Definition ATA_IDENT_MODEL : nat := 54.
Definition ATA_IDENT_CAPABILITIES : nat := 98.
Definition ATA_IDENT_MAX_LBA : nat := 120.
Definition ATA_IDENT_COMMANDSETS : nat := 164.
Definition ATA_IDENT_MAX_LBA_EXT : nat := 200.
Definition ATA_TYPE_ATA : Z := 0.
Definition ATA_TYPE_ATAPI : Z := 1.
Definition ATA_REG_DATA : Z := 0.
Definition ATA_REG_ERROR : Z := 1.
Definition ATA_REG_SECCOUNT0 : Z := 2.
Definition ATA_REG_LBA0 : Z := 3.
Definition ATA_REG_LBA1 : Z := 4.
Definition ATA_REG_LBA2 : Z := 5.
Definition ATA_REG_HDDEVSEL : Z := 6.
Definition ATA_REG_COMMAND : Z := 7.
Definition ATA_REG_STATUS : Z := 7.
Definition ATA_REG_CONTROL : Z := 12.
Definition ATA_REG_ALTSTATUS : Z := 12.

Inductive ata_direction : Set := ATA_PIO_READ | ATA_PIO_WRITE.

Definition ATA_DEVICE_CONTROL (HOB SRST nIEN : Z) : Z :=
  u8 (Z.lor (Z.lor (Z.shiftl HOB 7) (Z.shiftl SRST 2)) (Z.shiftl nIEN 1)).

(** * Data *)

Record ide_channel_t := mk_channel { ch_base : Z; ch_ctrl : Z; ch_bmide : Z; ch_interrupt : Z }.
#[global] Instance ide_channel_t_eq_dec : EqDecision ide_channel_t.
Proof. solve_decision. Defined.
Record ata_partition_t := mk_part { p_valid : Z; lba_start : Z; lba_end : Z; p_sysid : Z }.
Record ide_device_t := mk_device { dev_exist : Z; dev_channel : Z; dev_drive : Z; dev_type : Z; dev_sig : Z; dev_cap : Z;
  dev_command_set : Z; dev_size : Z; dev_model : list Z; dev_part : list ata_partition_t }.

#[global] Instance ata_partition_t_eq_dec : EqDecision ata_partition_t.
Proof. solve_decision. Defined.
#[global] Instance ide_device_t_eq_dec : EqDecision ide_device_t.
Proof. solve_decision. Defined.

Definition le16 (l : list Z) (o : nat) : Z := (l !!! o) + 256 * (l !!! S o).
Definition le32 (l : list Z) (o : nat) : Z := le16 l o + 65536 * le16 l (o + 2).

Section Ata.
Context {H : Type} `{IO : IoPorts H} (uninit : Z).

(** * Registers *)

(** The port of a register; there is none behind the last one. *)
Definition reg_port (ch : ide_channel_t) (reg : Z) : option Z :=
  if reg <? 8 then Some (u16 (ch_base ch + reg))
  else if reg <? 12 then Some (u16 (ch_base ch + reg - 6))
  else if reg <? 14 then Some (u16 (ch_ctrl ch + reg - 10))
  else if reg <? 22 then Some (u16 (ch_base ch + reg - 14))
  else None.

(** The registers that need the control register to be set around an access. *)
Definition high_reg (reg : Z) : bool := (7 <? reg) && (reg <? 12).

Definition out_reg (ch : ide_channel_t) (h : H) (reg data : Z) : H :=
  match reg_port ch reg with Some p => outb h p data | None => h end.

(** [f], between two writes of the control register for a high register. *)
Definition with_control {A} (ch : ide_channel_t) (reg ctl : Z) (f : H → H * A) (h : H) : H * A :=
  if high_reg reg then
    let '(h, a) := f (out_reg ch h ATA_REG_CONTROL ctl) in
    (out_reg ch h ATA_REG_CONTROL (ch_interrupt ch), a)
  else f h.

Definition ata_write_reg (ch : ide_channel_t) (h : H) (reg data : Z) : H :=
  (with_control ch reg (Z.lor 128 (ch_interrupt ch)) (λ h, (out_reg ch h reg data, tt)) h).1.

Definition ata_read_reg (ch : ide_channel_t) (h : H) (reg : Z) : H * Z :=
  with_control ch reg (ATA_DEVICE_CONTROL 1 0 (ch_interrupt ch))
    (λ h, match reg_port ch reg with Some p => inb h p | None => (h, uninit) end) h.

Fixpoint in_words (n : nat) (p : Z) (h : H) : H * list Z :=
  match n with
  | O => (h, [])
  | S n => let '(h, w) := inl h p in let '(h, l) := in_words n p h in (h, w ++ l)
  end.

Fixpoint out_words (n : nat) (p : Z) (h : H) (l : list Z) : H :=
  match n with
  | O => h
  | S n => out_words n p (outl h p (take 4 l)) (drop 4 l)
  end.

(** The 512 bytes that are stored in the buffer. *)
Definition ata_read_block (ch : ide_channel_t) (h : H) (reg : Z) : H * list Z :=
  with_control ch reg (Z.lor 128 (ch_interrupt ch))
    (λ h, match reg_port ch reg with Some p => in_words 128 p h | None => (h, []) end) h.

Definition ata_write_block (ch : ide_channel_t) (h : H) (reg : Z) (buffer : list Z) : H :=
  (with_control ch reg (Z.lor 128 (ch_interrupt ch))
    (λ h, (match reg_port ch reg with Some p => out_words 128 p h buffer | None => h end, tt)) h).1.

Definition ata_wait (ch : ide_channel_t) (h : H) : H :=
  let h := (ata_read_reg ch h ATA_REG_ALTSTATUS).1 in
  let h := (ata_read_reg ch h ATA_REG_ALTSTATUS).1 in
  let h := (ata_read_reg ch h ATA_REG_ALTSTATUS).1 in
  (ata_read_reg ch h ATA_REG_ALTSTATUS).1.

Definition ata_select_drive (ch : ide_channel_t) (h : H) (drive : Z) : H :=
  ata_wait ch (ata_write_reg ch h ATA_REG_HDDEVSEL (u8 (Z.lor 160 (Z.shiftl (Z.land drive 1) 4)))).

(** * Transfers *)

Definition flag (status bit : Z) : bool := negb (Z.land status bit =? 0).

Definition ata_error_handler (ch : ide_channel_t) (h : H) : H * result Z :=
  let h := (ata_read_reg ch h ATA_REG_ERROR).1 in
  let h := (ata_read_reg ch h ATA_REG_ALTSTATUS).1 in
  (h, Err ENXIO).

(** State HPIOI1: [true] when the device neither works nor asks for data. *)
Fixpoint check_status (fuel : nat) (ch : ide_channel_t) (h : H) : outcome (H * bool) :=
  match fuel with
  | O => OutOfFuel
  | S fuel =>
      let h := ata_wait ch h in
      let '(h, status) := ata_read_reg ch h ATA_REG_STATUS in
      if negb (flag status ATA_SR_BSY) && negb (flag status ATA_SR_DRQ) then Ret (h, true)
      else if flag status ATA_SR_BSY then check_status fuel ch h
      else Ret (h, false)
  end.

(** Blocks of 512 bytes; [n] bounds their number. *)
Fixpoint transfer_blocks (n fuel : nat) (ch : ide_channel_t) (h : H) (direction : ata_direction) (count : Z) (data : list Z) :
    outcome (H * result Z * list Z) :=
  match n with
  | O => OutOfFuel
  | S n =>
      '(h, idle) <~ check_status fuel ch h ;;
      if (idle : bool) then
        match direction with
        | ATA_PIO_READ => Ret (ata_error_handler ch h, [])
        | ATA_PIO_WRITE => Ret (h, Ok 0, [])
        end
      else
        match direction with
        | ATA_PIO_READ =>
            let '(h, block) := ata_read_block ch h ATA_REG_DATA in
            let count := u8 (count - 1) in
            if count =? 0 then Ret (h, Ok 0, block)
            else '(h, r, l) <~ transfer_blocks n fuel ch h direction count data ;; Ret (h, r, block ++ l)
        | ATA_PIO_WRITE =>
            let h := ata_write_block ch h ATA_REG_DATA data in
            transfer_blocks n fuel ch h direction (u8 (count - 1)) (drop 512 data)
        end
  end.

Definition device_register (drive lba : Z) : Z :=
  Z.lor (Z.lor (Z.lor 160 (Z.shiftl 1 6)) (u8 (Z.shiftl (Z.land drive 1) 4))) (u8 (Z.shiftr lba 27)).

(** The task file and the command. *)
Definition send_command (ch : ide_channel_t) (h : H) (drive : Z) (direction : ata_direction) (lba count : Z) : H :=
  let h := ata_wait ch (ata_write_reg ch h ATA_REG_HDDEVSEL (device_register drive lba)) in
  let h := ata_write_reg ch h ATA_REG_SECCOUNT0 count in
  let h := ata_write_reg ch h ATA_REG_LBA0 (u8 (Z.land lba 255)) in
  let h := ata_write_reg ch h ATA_REG_LBA1 (u8 (Z.land (Z.shiftr lba 8) 255)) in
  let h := ata_write_reg ch h ATA_REG_LBA2 (u8 (Z.land (Z.shiftr lba 16) 255)) in
  ata_wait ch (ata_write_reg ch h ATA_REG_COMMAND
    (match direction with ATA_PIO_READ => ATA_CMD_READ_SECTORS | ATA_PIO_WRITE => ATA_CMD_WRITE_SECTORS end)).

(** The bytes stored at [location] by a read; [data] is what is there for a
    write. *)
Definition ata_pio_transfer (n fuel : nat) (ch : ide_channel_t) (h : H) (drive : Z) (direction : ata_direction) (lba count : Z) (data : list Z) :
    outcome (H * result Z * list Z) :=
  if 268435455 <? lba then Ret (h, Err E2BIG, [])
  else transfer_blocks n fuel ch (send_command ch h drive direction lba count) direction count data.

(** * The block device *)

Record ide := mk_ide { ide_channel : list ide_channel_t; ide_device : list ide_device_t; ide_buffer : list Z; hw : H }.

Definition set_hw (w : ide) (h : H) : ide := mk_ide (ide_channel w) (ide_device w) (ide_buffer w) h.

Context (minor : Z → Z).

Definition disk_of (devid : Z) : nat := Z.to_nat (Z.land (u8 (minor devid)) 15).
Definition part_of (devid : Z) : nat := Z.to_nat (Z.shiftr (Z.land (u8 (minor devid)) 240) 4).

Definition ide_block_exist (w : ide) (devid : Z) : bool :=
  match ide_device w !! disk_of devid with
  | None => false                                   (* disk >= 4 *)
  | Some d =>
      match dev_part d !! part_of devid with
      | None => false                               (* part > 4 *)
      | Some p => if dev_exist d =? 0 then false else negb (p_valid p =? 0)
      end
  end.

Definition ide_block_open (w : ide) (devid : Z) : ide * result Z := (w, if ide_block_exist w devid then Ok 0 else Err ENXIO).
Definition ide_block_close (w : ide) (devid : Z) : ide * result Z := (w, Ok 0).

(** [ide_block_read] and [ide_block_write] differ in the direction only. *)
Definition ide_block_transfer (n fuel : nat) (direction : ata_direction) (w : ide) (devid lba count : Z) (data : list Z) :
    outcome (ide * result Z * list Z) :=
  d <~ or_halt (ide_device w !! disk_of devid) ;;
  p <~ or_halt (dev_part d !! part_of devid) ;;
  if lba_end p <=? u32 (lba + count) then Ret (w, Err EFAULT, [])
  else
    ch <~ or_halt (ide_channel w !! Z.to_nat (dev_channel d)) ;;
    '(h, r, l) <~ ata_pio_transfer n fuel ch (hw w) (dev_drive d) direction (u32 (lba + lba_start p)) (u8 count) data ;;
    Ret (set_hw w h, r, l).

Definition ide_block_read (n fuel : nat) (w : ide) (devid lba count : Z) : outcome (ide * result Z * list Z) :=
  ide_block_transfer n fuel ATA_PIO_READ w devid lba count [].
Definition ide_block_write (n fuel : nat) (w : ide) (devid lba count : Z) (data : list Z) : outcome (ide * result Z) :=
  '(w, r, _) <~ ide_block_transfer n fuel ATA_PIO_WRITE w devid lba count data ;; Ret (w, r).

Definition ide_block_operations (n fuel : nat) : block_operations (W := ide) :=
  mk_block_operations (Some (ide_block_read n fuel)) (Some (ide_block_write n fuel)) None (Some ide_block_open) (Some ide_block_close)
    (Some ide_block_exist) None None.

(** * Finding the devices *)

(** Waiting for the answer to a command: [None] after 5000 ticks, or whether
    the device reports an error. *)
Fixpoint identify_wait (fuel : nat) (ch : ide_channel_t) (h : H) (status start : Z) : outcome (H * option bool) :=
  match fuel with
  | O => OutOfFuel
  | S fuel =>
      if 5000 <? u32 (ticks h - start) then Ret (h, None)
      else if flag status ATA_SR_ERR then Ret (h, Some true)
      else if negb (flag status ATA_SR_BSY) && flag status ATA_SR_DRQ then Ret (h, Some false)
      else
        let '(h, status) := ata_read_reg ch h ATA_REG_STATUS in
        identify_wait fuel ch (ata_wait ch h) status start
  end.

(** The type and the 512 bytes of the identification; [None]: no device. *)
Definition ata_identify_device (fuel : nat) (ch : ide_channel_t) (h : H) : outcome (H * option (Z * list Z)) :=
  let h := ata_wait ch (ata_write_reg ch h ATA_REG_COMMAND ATA_CMD_IDENTIFY) in
  let '(h, status) := ata_read_reg ch h ATA_REG_STATUS in
  if status =? 0 then Ret (h, None)
  else
    '(h, r) <~ identify_wait fuel ch h status (ticks h) ;;
    match r with
    | None => Ret (h, None)
    | Some false => let '(h, l) := ata_read_block ch h ATA_REG_DATA in Ret (h, Some (ATA_TYPE_ATA, l))
    | Some true =>
        let '(h, cl) := ata_read_reg ch h ATA_REG_LBA1 in
        let '(h, chi) := ata_read_reg ch h ATA_REG_LBA2 in
        if ((cl =? 20) && (chi =? 235)) || ((cl =? 105) && (chi =? 150)) then
          let h := ata_wait ch (ata_write_reg ch h ATA_REG_COMMAND ATA_CMD_IDENTIFY_PACKET) in
          let '(h, l) := ata_read_block ch h ATA_REG_DATA in
          Ret (h, Some (ATA_TYPE_ATAPI, l))
        else Ret (h, None)
    end.

(** The loop that removes spaces, from index [i] down. *)
Fixpoint trim_model (i : nat) (l : list Z) : list Z :=
  match i with
  | O => l
  | S j => if bool_decide (l !! i = Some 32) then trim_model j (<[i := 0]> l) else l
  end.

(** The pairs of bytes are swapped; the byte behind the 40 is not assigned. *)
Definition model_string (buffer old : list Z) : list Z :=
  trim_model 40 (list_inserts 0 ((λ i, buffer !!! (ATA_IDENT_MODEL + (if Nat.even i then i + 1 else i - 1)))%nat <$> seq 0 40) old).

Definition set_valid (v : Z) (p : ata_partition_t) : ata_partition_t := mk_part v (lba_start p) (lba_end p) (p_sysid p).

(** Entry [p] of the table in the boot sector.  The structure is not packed:
    the second byte is not looked at. *)
Definition read_part (buffer : list Z) (p : nat) (old : ata_partition_t) : ata_partition_t :=
  let o := (446 + 16 * p)%nat in
  if (buffer !!! o =? 0) && (le16 buffer (o + 2) =? 0) && (buffer !!! (o + 4)%nat =? 0) && (buffer !!! (o + 5)%nat =? 0)
     && (le16 buffer (o + 6) =? 0) && (le32 buffer (o + 8) =? 0) && (le32 buffer (o + 12) =? 0)
  then set_valid 0 old
  else mk_part 1 (le32 buffer (o + 8)) (u32 (le32 buffer (o + 8) + le32 buffer (o + 12))) (buffer !!! (o + 4)%nat).

Definition read_parts (buffer : list Z) (parts : list ata_partition_t) : list ata_partition_t :=
  if negb (buffer !!! 510%nat =? 85) || negb (buffer !!! 511%nat =? 170) then set_valid 0 <$> parts
  else match parts with
       | whole :: rest => whole :: imap (read_part buffer) rest
       | [] => []
       end.

(** What the identification says of a device. *)
Definition identified (buffer : list Z) (type channel slave : Z) (old : ide_device_t) : ide_device_t :=
  let command_set := le32 buffer ATA_IDENT_COMMANDSETS in
  let size := le32 buffer (if flag command_set (Z.shiftl 1 26) then ATA_IDENT_MAX_LBA_EXT else ATA_IDENT_MAX_LBA) in
  mk_device 1 channel slave type (le16 buffer ATA_IDENT_DEVICETYPE) (le16 buffer ATA_IDENT_CAPABILITIES) command_set size
    (model_string buffer (dev_model old))
    (match dev_part old with [] => [] | _ :: rest => mk_part 1 0 size 0 :: (set_valid 0 <$> rest) end).

Definition set_device (w : ide) (i : nat) (d : ide_device_t) : ide :=
  mk_ide (ide_channel w) (<[i := d]> (ide_device w)) (ide_buffer w) (hw w).
Definition set_buffer (w : ide) (l : list Z) : ide :=
  mk_ide (ide_channel w) (ide_device w) (list_inserts 0 l (ide_buffer w)) (hw w).
Definition set_parts (d : ide_device_t) (l : list ata_partition_t) : ide_device_t :=
  mk_device (dev_exist d) (dev_channel d) (dev_drive d) (dev_type d) (dev_sig d) (dev_cap d) (dev_command_set d) (dev_size d) (dev_model d) l.
Definition absent (d : ide_device_t) : ide_device_t :=
  mk_device 0 (dev_channel d) (dev_drive d) (dev_type d) (dev_sig d) (dev_cap d) (dev_command_set d) (dev_size d) (dev_model d) (dev_part d).

(** One of the four places; [ndevs] is the number of devices so far. *)
Definition probe (n fuel : nat) (w : ide) (ndevs : nat) (channel slave : Z) : outcome (ide * nat) :=
  old <~ or_halt (ide_device w !! ndevs) ;;
  ch <~ or_halt (ide_channel w !! Z.to_nat channel) ;;
  let w := set_device w ndevs (absent old) in
  '(h, r) <~ ata_identify_device fuel ch (ata_select_drive ch (hw w) slave) ;;
  let w := set_hw w h in
  match r with
  | None => Ret (w, ndevs)
  | Some (type, l) =>
      let w := set_buffer w l in
      let d := identified (ide_buffer w) type channel slave (absent old) in
      let w := set_device w ndevs d in
      if type =? ATA_TYPE_ATA then
        '(h, r, l) <~ ata_pio_transfer n fuel ch (hw w) slave ATA_PIO_READ 0 1 [] ;;
        let w := set_buffer (set_hw w h) l in
        if is_zero r then Ret (set_device w ndevs (set_parts d (read_parts (ide_buffer w) (dev_part d))), S ndevs)
        else Ret (w, S ndevs)
      else Ret (w, S ndevs)
  end.

Definition bar_port (bar default : Z) : Z := u16 (u32 (Z.land bar 4294967292 + default * (if bar =? 0 then 1 else 0))).

(** The ports of the two channels, from the base addresses of the controller. *)
Definition bar_channels (bar : list Z) (c0 c1 : ide_channel_t) : ide_channel_t * ide_channel_t :=
  (mk_channel (bar_port (bar !!! 0%nat) 496) (bar_port (bar !!! 1%nat) 1014) (u16 (Z.land (bar !!! 4%nat) 4294967292)) (ch_interrupt c0),
   mk_channel (bar_port (bar !!! 2%nat) 368) (bar_port (bar !!! 3%nat) 886) (u16 (Z.land (bar !!! 4%nat) 4294967292 + 8)) (ch_interrupt c1)).

(** [bar]: the base addresses of the controller that [pci_search] finds.
    Without one the machine stops. *)
Definition ide_initialize (n fuel : nat) (w : ide) (bar : option (list Z)) : outcome (ide * nat) :=
  bar <~ or_halt bar ;;
  c0 <~ or_halt (ide_channel w !! 0%nat) ;;
  c1 <~ or_halt (ide_channel w !! 1%nat) ;;
  let '(c0, c1) := bar_channels bar c0 c1 in
  let h := ata_write_reg c0 (hw w) ATA_REG_CONTROL 0 in
  let h := ata_write_reg c1 h ATA_REG_CONTROL 0 in
  let h := ata_write_reg c0 h ATA_REG_CONTROL 2 in
  let h := ata_write_reg c1 h ATA_REG_CONTROL 2 in
  let w := mk_ide [c0; c1] (absent <$> ide_device w) (ide_buffer w) h in
  '(w, k) <~ probe n fuel w 0 0 0 ;;
  '(w, k) <~ probe n fuel w k 0 1 ;;
  '(w, k) <~ probe n fuel w k 1 0 ;;
  probe n fuel w k 1 1.

(** [ide_load]: the driver is registered under major number 0.  An error of
    the registration is only reported. *)
Definition ide_load (major : Z → Z) (makedev : Z → Z → Z) (n fuel : nat) (s : kblock (W := ide)) (bar : option (list Z))
    (alloc_dev alloc_block : bool) (junk : list Z) : outcome (kblock (W := ide) * result Z) :=
  '(w, _) <~ ide_initialize n fuel (world s) bar ;;
  let '(s, _) := register_block_device major minor makedev (with_world s w) 0 255 (ide_block_operations n fuel) alloc_dev alloc_block junk in
  Ret (s, Ok 0).
End Ata.
Arguments ide H : clear implicits.
