(* ===== verification/AtaBus.v ===== *)
(** ATA devices as the driver sees them: what the ATA/ATAPI-6 standard says of
    a channel with up to two drives under programmed I/O, as the class
    [AtaBus], and what the driver's register accesses, status loops and block
    transfers do on such a channel. *)

From S2P Require Import Prelude Bytes Block Ata.

(** * Channels *)

(** The identification block and the sectors of a drive. *)
Record drive := mk_drive { d_ident : list Z; d_data : list Z }.

#[global] Instance drive_eq_dec : EqDecision drive.
Proof. solve_decision. Defined.

(** Bytes still to be read; or the position of the sector that is awaited, the
    number of sectors still to come and the bytes of this one. *)
Inductive phase : Set := Idle | DataIn (l : list Z) | DataOut (pos n : nat) (got : list Z).

#[global] Instance phase_eq_dec : EqDecision phase.
Proof. solve_decision. Defined.

(** The task file, the state of the command and the drives. *)
Record ctl := mk_ctl { r_count : Z; r_lba0 : Z; r_lba1 : Z; r_lba2 : Z; r_dev : Z; c_phase : phase;
  c_master : option drive; c_slave : option drive }.

Definition drive_at (c : ctl) (b : bool) : option drive := if b then c_slave c else c_master c.
Definition slave_bit (c : ctl) : bool := Z.testbit (r_dev c) 4.
Definition selected (c : ctl) : option drive := drive_at c (slave_bit c).
Definition address (c : ctl) : Z := (r_dev c mod 16) * 16777216 + r_lba2 c * 65536 + r_lba1 c * 256 + r_lba0 c.
Definition sectors (c : ctl) : Z := if r_count c =? 0 then 256 else r_count c.

Definition set_phase (p : phase) (c : ctl) : ctl :=
  mk_ctl (r_count c) (r_lba0 c) (r_lba1 c) (r_lba2 c) (r_dev c) p (c_master c) (c_slave c).
Definition put_drive (b : bool) (d : option drive) (c : ctl) : ctl :=
  mk_ctl (r_count c) (r_lba0 c) (r_lba1 c) (r_lba2 c) (r_dev c) (c_phase c) (if b then c_master c else d) (if b then d else c_slave c).
Definition set_reg (r v : Z) (c : ctl) : ctl :=
  let s i old := if r =? i then v else old in
  mk_ctl (s 2 (r_count c)) (s 3 (r_lba0 c)) (s 4 (r_lba1 c)) (s 5 (r_lba2 c)) (s 6 (r_dev c)) (c_phase c) (c_master c) (c_slave c).

(** What a command begins.  A sector address needs LBA mode and must lie on the
    drive, otherwise the command ends at once. *)
Definition start (c : ctl) (cmd : Z) : phase :=
  match selected c with
  | None => Idle
  | Some d =>
      let pos := (512 * Z.to_nat (address c))%nat in
      let n := Z.to_nat (sectors c) in
      if Z.testbit (r_dev c) 6 && bool_decide (pos + 512 * n <= length (d_data d))%nat && (cmd =? ATA_CMD_READ_SECTORS) then DataIn (slice pos (512 * n) (d_data d))
      else if Z.testbit (r_dev c) 6 && bool_decide (pos + 512 * n <= length (d_data d))%nat && (cmd =? ATA_CMD_WRITE_SECTORS) then DataOut pos n []
      else if cmd =? ATA_CMD_IDENTIFY then DataIn (d_ident d)
      else Idle
  end.

Definition after_in (l : list Z) : phase := match drop 4 l with [] => Idle | rest => DataIn rest end.

Definition store (pos : nat) (l : list Z) (c : ctl) : ctl :=
  put_drive (slave_bit c) ((λ d, mk_drive (d_ident d) (list_inserts pos l (d_data d))) <$> selected c) c.

Definition after_out (pos n : nat) (got : list Z) (c : ctl) : ctl :=
  if bool_decide (length got < 512)%nat then set_phase (DataOut pos n got) c
  else set_phase (if bool_decide (n <= 1)%nat then Idle else DataOut (pos + 512) (n - 1) []) (store pos got c).

(** * The contract *)

(** [view h c] is channel [c]; [busy h c] is the number of status reads that
    will still find it working, at most [patience].  Accesses to a channel
    leave the other one alone; reading the alternate status, writing the
    control register without a reset and reading the error register change no
    channel. *)
Section Contract.
Context {H : Type} `{IO : IoPorts H} (view : H → nat → ctl) (busy : H → nat → nat).

Definition quiet (h h' : H) : Prop := ∀ c, view h' c = view h c ∧ (busy h' c <= busy h c)%nat.
Definition others (c : nat) (h h' : H) : Prop := ∀ c', c' ≠ c → view h' c' = view h c' ∧ (busy h' c' <= busy h c')%nat.

Class AtaBus (chs : list ide_channel_t) (patience : nat) : Prop := {
  bus_patience h c : (busy h c <= patience)%nat;
  bus_alt h c ch : chs !! c = Some ch → quiet h (inb h (u16 (ch_ctrl ch + 2))).1;
  bus_control h c ch v : chs !! c = Some ch → v = 0 ∨ v = 2 → quiet h (outb h (u16 (ch_ctrl ch + 2)) v);
  bus_error h c ch : chs !! c = Some ch → quiet h (inb h (u16 (ch_base ch + 1))).1;
  bus_status h c ch : chs !! c = Some ch →
    let '(h', st) := inb h (u16 (ch_base ch + 7)) in
    quiet h h' ∧
    match selected (view h c) with
    | None => st = 0
    | Some _ =>
        if decide (busy h c = 0%nat) then
          flag st ATA_SR_BSY = false ∧ flag st ATA_SR_DRQ = bool_decide (c_phase (view h c) ≠ Idle)
          ∧ (c_phase (view h c) ≠ Idle → flag st ATA_SR_ERR = false)
        else (busy h' c < busy h c)%nat ∧ flag st ATA_SR_BSY = true ∧ flag st ATA_SR_ERR = false
    end;
  bus_reg h c ch r v : chs !! c = Some ch → 2 <= r <= 6 → 0 <= v < 256 → busy h c = 0%nat → c_phase (view h c) = Idle →
    let h' := outb h (u16 (ch_base ch + r)) v in
    view h' c = set_reg r v (view h c) ∧ busy h' c = 0%nat ∧ others c h h';
  bus_command h c ch cmd : chs !! c = Some ch → busy h c = 0%nat → c_phase (view h c) = Idle →
    let h' := outb h (u16 (ch_base ch + 7)) cmd in
    view h' c = set_phase (start (view h c) cmd) (view h c) ∧ (selected (view h c) = None → busy h' c = 0%nat) ∧ others c h h';
  bus_in h c ch l : chs !! c = Some ch → busy h c = 0%nat → c_phase (view h c) = DataIn l →
    let '(h', w) := inl h (u16 (ch_base ch)) in
    w = take 4 l ∧ view h' c = set_phase (after_in l) (view h c)
    ∧ (drop 4 l = [] ∨ (length (drop 4 l) mod 512 ≠ 0)%nat → busy h' c = 0%nat) ∧ others c h h';
  bus_out h c ch pos n got w : chs !! c = Some ch → busy h c = 0%nat → c_phase (view h c) = DataOut pos n got → length w = 4%nat →
    let h' := outl h (u16 (ch_base ch)) w in
    view h' c = after_out pos n (got ++ w) (view h c)
    ∧ ((length (got ++ w) < 512)%nat → busy h' c = 0%nat) ∧ others c h h';
}.
End Contract.

(** * Accesses of the driver *)

Section Bus.
Context {H : Type} `{IO : IoPorts H} (view : H → nat → ctl) (busy : H → nat → nat) (chs : list ide_channel_t) (patience : nat).
Context `{Bus : !AtaBus view busy chs patience} (uninit : Z).

Lemma quiet_refl h : quiet view busy h h.
Proof using. by intros c. Qed.

Lemma quiet_trans h1 h2 h3 : quiet view busy h1 h2 → quiet view busy h2 h3 → quiet view busy h1 h3.
Proof using. intros Ha Hb c. destruct (Ha c) as [E1 L1], (Hb c) as [E2 L2]. split; [congruence|lia]. Qed.

Lemma others_trans c h1 h2 h3 : others view busy c h1 h2 → others view busy c h2 h3 → others view busy c h1 h3.
Proof using. intros Ha Hb c' Hne. destruct (Ha c' Hne) as [E1 L1], (Hb c' Hne) as [E2 L2]. split; [congruence|lia]. Qed.

Lemma quiet_others c h h' : quiet view busy h h' → others view busy c h h'.
Proof using. intros Hq c' _. apply Hq. Qed.

Lemma quiet_view h h' c : quiet view busy h h' → view h' c = view h c.
Proof using. intros Hq. apply Hq. Qed.

Lemma quiet_idle h h' c : quiet view busy h h' → busy h c = 0%nat → busy h' c = 0%nat.
Proof using. intros Hq Hb. destruct (Hq c) as [_ Hl]. lia. Qed.

Section Channel.
Context (c : nat) (ch : ide_channel_t) (Hch : chs !! c = Some ch).

Lemma alt_quiet h : quiet view busy h (ata_read_reg uninit ch h ATA_REG_ALTSTATUS).1.
Proof using Bus Hch.
  unfold ata_read_reg, with_control, reg_port. cbn. unfold ATA_REG_ALTSTATUS. replace (ch_ctrl ch + 12 - 10) with (ch_ctrl ch + 2) by lia.
  by apply (bus_alt view busy h c).
Qed.

Lemma wait_quiet h : quiet view busy h (ata_wait uninit ch h).
Proof using Bus Hch. unfold ata_wait. eauto using quiet_trans, alt_quiet. Qed.

Lemma error_quiet h : quiet view busy h (ata_error_handler uninit ch h).1.
Proof using Bus Hch.
  unfold ata_error_handler. cbn [fst]. eapply quiet_trans; [|apply alt_quiet]. unfold ata_read_reg, with_control, reg_port. cbn.
  by apply (bus_error view busy h c).
Qed.

Lemma write_reg_spec h r v : 2 <= r <= 6 → 0 <= v < 256 → busy h c = 0%nat → c_phase (view h c) = Idle →
  let h' := ata_write_reg ch h r v in view h' c = set_reg r v (view h c) ∧ busy h' c = 0%nat ∧ others view busy c h h'.
Proof using Bus Hch.
  intros Hr Hv Hb Hp. unfold ata_write_reg, with_control, high_reg, out_reg, reg_port.
  rewrite (proj2 (Z.ltb_ge 7 r)), (proj2 (Z.ltb_lt r 8)) by lia. cbn [andb fst]. by apply (bus_reg view busy h c ch r v).
Qed.

(** A read of the status register. *)
Lemma status_spec h : let '(h', st) := ata_read_reg uninit ch h ATA_REG_STATUS in
  quiet view busy h h' ∧
  match selected (view h c) with
  | None => st = 0
  | Some _ =>
      if decide (busy h c = 0%nat) then
        flag st ATA_SR_BSY = false ∧ flag st ATA_SR_DRQ = bool_decide (c_phase (view h c) ≠ Idle)
        ∧ (c_phase (view h c) ≠ Idle → flag st ATA_SR_ERR = false)
      else (busy h' c < busy h c)%nat ∧ flag st ATA_SR_BSY = true ∧ flag st ATA_SR_ERR = false
  end.
Proof using Bus Hch. exact (bus_status view busy h c ch Hch). Qed.

Lemma check_status_spec fuel h : is_Some (selected (view h c)) → (busy h c < fuel)%nat →
  ∃ h', check_status uninit fuel ch h = Ret (h', bool_decide (c_phase (view h c) = Idle)) ∧ busy h' c = 0%nat ∧ quiet view busy h h'.
Proof using Bus Hch.
  intros [d Hd]. revert h Hd. induction fuel as [|fuel IH]; intros h Hd Hf; [lia|]. cbn [check_status].
  pose proof (wait_quiet h) as Hw. set (h1 := ata_wait uninit ch h) in *. destruct (Hw c) as [Ev El].
  pose proof (status_spec h1) as Hs. destruct (ata_read_reg uninit ch h1 ATA_REG_STATUS) as [h2 st]. destruct Hs as [Hq Hs].
  rewrite Ev, Hd in Hs. pose proof (quiet_trans _ _ _ Hw Hq) as Hq'. case_decide as Eb.
  - destruct Hs as (-> & -> & _). exists h2. pose proof (quiet_idle _ _ c Hq Eb). cbn [negb andb].
    destruct (decide (c_phase (view h c) = Idle)) as [Ep|Ep].
    + rewrite (bool_decide_eq_false_2 _ (λ f, f Ep)), (bool_decide_eq_true_2 _ Ep). done.
    + rewrite (bool_decide_eq_true_2 _ Ep), (bool_decide_eq_false_2 _ Ep). done.
  - destruct Hs as (Hlt & -> & _). cbn [negb andb]. destruct (IH h2) as (h' & -> & Hb & Hq2).
    { by rewrite (quiet_view _ _ c Hq'). }
    { lia. }
    rewrite (quiet_view _ _ c Hq'). exists h'. eauto using quiet_trans.
Qed.

(** * Blocks *)

Lemma set_phase_twice p q x : set_phase p (set_phase q x) = set_phase p x.
Proof using. done. Qed.

Lemma in_words_spec k m h l : busy h c = 0%nat → c_phase (view h c) = DataIn l → (0 < k <= 128)%nat → length l = (512 * m + 4 * k)%nat →
  ∃ h', in_words k (u16 (ch_base ch)) h = (h', take (4 * k) l)
    ∧ view h' c = set_phase (match m with O => Idle | S _ => DataIn (drop (4 * k) l) end) (view h c)
    ∧ (m = 0%nat → busy h' c = 0%nat) ∧ others view busy c h h'.
Proof using Bus Hch.
  revert h l. induction k as [|k IH]; intros h l Hb Hp Hk Hl; [lia|]. cbn [in_words].
  pose proof (bus_in view busy h c ch l Hch Hb Hp) as Hin. destruct (inl h (u16 (ch_base ch))) as [h1 w].
  destruct Hin as (-> & Hv & Hb1 & Ho). assert (Hd : length (drop 4 l) = (512 * m + 4 * k)%nat) by (rewrite length_drop; lia).
  assert (Hafter : after_in l = match (m, k) with (O, O) => Idle | _ => DataIn (drop 4 l) end).
  { unfold after_in. destruct (drop 4 l) eqn:E; cbn [length] in Hd; [by replace m with 0%nat by lia; replace k with 0%nat by lia|].
    destruct m, k; try done. }
  destruct (decide (k = 0%nat)) as [->|Hk0].
  - cbn [in_words]. exists h1. rewrite app_nil_r, Hv, Hafter. split; [done|]. split; [by destruct m|]. split; [|done].
    intros ->. apply Hb1. left. by apply length_zero_iff_nil.
  - destruct (IH h1 (drop 4 l)) as (h' & -> & Hv' & Hb' & Ho'); [| |lia|done|].
    { apply Hb1. right. rewrite Hd. replace (512 * m + 4 * k)%nat with (4 * k + m * 512)%nat by lia. rewrite Nat.Div0.mod_add, Nat.mod_small; lia. }
    { rewrite Hv. cbn [c_phase set_phase]. rewrite Hafter. destruct m, k; done. }
    exists h'. split; [|split; [|split; [done|by eapply others_trans]]].
    + f_equal. rewrite <- (take_drop 4 (take (4 * S k) l)), take_take, Nat.min_l by lia. f_equal.
      rewrite skipn_firstn_comm. f_equal. lia.
    + rewrite Hv', Hv, set_phase_twice, drop_drop. replace (4 + 4 * k)%nat with (4 * S k)%nat by lia. done.
Qed.

Lemma read_block_spec m h l : busy h c = 0%nat → c_phase (view h c) = DataIn l → length l = (512 * S m)%nat →
  ∃ h', ata_read_block ch h ATA_REG_DATA = (h', take 512 l)
    ∧ view h' c = set_phase (match m with O => Idle | S _ => DataIn (drop 512 l) end) (view h c)
    ∧ (m = 0%nat → busy h' c = 0%nat) ∧ others view busy c h h'.
Proof using Bus Hch.
  intros Hb Hp Hl. unfold ata_read_block, with_control, reg_port. cbn [high_reg ATA_REG_DATA Z.ltb Z.compare andb].
  rewrite Z.add_0_r. destruct (in_words_spec 128 m h l) as (h' & Hrun & Hrest); [done|done|lia|lia|]. exists h'. split; [exact Hrun|exact Hrest].
Qed.

(** A read command of [m] sectors. *)
Lemma transfer_read_spec n fuel m h l count data : (m <= n)%nat → (patience < fuel)%nat →
  is_Some (selected (view h c)) → c_phase (view h c) = DataIn l → (1 <= m <= 256)%nat → length l = (512 * m)%nat → count = u8 (Z.of_nat m) →
  ∃ h', transfer_blocks uninit n fuel ch h ATA_PIO_READ count data = Ret (h', Ok 0, l)
    ∧ view h' c = set_phase Idle (view h c) ∧ busy h' c = 0%nat ∧ others view busy c h h'.
Proof using Bus Hch.
  intros Hn Hf. revert m h l count Hn. induction n as [|n IH]; intros m h l count Hn Hsel Hp Hm Hl ->; [lia|]. cbn [transfer_blocks].
  destruct (check_status_spec fuel h Hsel) as (h1 & -> & Hb1 & Hq); [pose proof (bus_patience view busy h c); lia|].
  rewrite bool_decide_eq_false_2 by (by rewrite Hp). cbn [obind]. destruct m as [|m]; [lia|].
  destruct (read_block_spec m h1 l) as (h2 & -> & Hv2 & Hb2 & Ho2); [done|by rewrite (quiet_view _ _ c Hq)|done|].
  rewrite (quiet_view _ _ c Hq) in Hv2. pose proof (others_trans _ _ _ _ (quiet_others c _ _ Hq) Ho2) as Ho.
  assert (Hc : u8 (u8 (Z.of_nat (S m)) - 1) = u8 (Z.of_nat m)) by (unfold u8; rewrite Zminus_mod_idemp_l; f_equal; lia).
  rewrite Hc. destruct m as [|m].
  - cbn. exists h2. rewrite Hv2. split; [by rewrite take_ge by lia|]. split; [done|]. split; [by apply Hb2|done].
  - rewrite (proj2 (Z.eqb_neq _ _)) by (unfold u8; rewrite Z.mod_small; lia).
    destruct (IH (S m) h2 (drop 512 l) (u8 (Z.of_nat (S m)))) as (h' & -> & Hv' & Hb' & Ho'); [lia|..]; try done.
    + by rewrite Hv2.
    + by rewrite Hv2.
    + lia.
    + rewrite length_drop. lia.
    + exists h'. cbn [obind]. rewrite take_drop. split; [done|]. split; [by rewrite Hv', Hv2|]. split; [done|by eapply others_trans].
Qed.
End Channel.
End Bus.
