(* ===== verification/AtaTransfer.v ===== *)
(** Whole commands of the ATA driver on a channel that meets [AtaBus]:
    [ata_pio_transfer] reads and writes the sectors whose number it sends. *)

From S2P Require Import Prelude Bytes Block Ata AtaBus.

(** * The task file *)

(** The sector number that reaches the drive: the driver takes bit 27 of the
    number for the four bits from 24 on. *)
Definition sent_lba (lba : Z) : Z := (lba / 134217728) * 16777216 + lba mod 16777216.

Lemma sent_lba_small lba : 0 <= lba < 16777216 → sent_lba lba = lba.
Proof. intros Hl. unfold sent_lba. rewrite Z.div_small, Z.mod_small by lia. lia. Qed.

Lemma byte_of x : u8 (Z.land x 255) = x mod 256.
Proof. change 255 with (Z.ones 8). rewrite Z.land_ones by lia. by apply Z.mod_mod. Qed.

Lemma device_register_bits drive lba : 0 <= lba < 268435456 → drive = 0 ∨ drive = 1 →
  0 <= device_register drive lba < 256 ∧ Z.testbit (device_register drive lba) 4 = (drive =? 1)
  ∧ Z.testbit (device_register drive lba) 6 = true ∧ device_register drive lba mod 16 = lba / 134217728.
Proof.
  intros Hl Hd. unfold device_register. rewrite Z.shiftr_div_pow2 by lia. change (2 ^ 27) with 134217728.
  assert (Hq : lba / 134217728 = 0 ∨ lba / 134217728 = 1).
  { assert (0 <= lba / 134217728 < 2); [|lia]. split; [apply Z.div_pos; lia|]. apply Z.div_lt_upper_bound; lia. }
  destruct Hd as [-> | ->], Hq as [-> | ->]; vm_compute; repeat split; discriminate.
Qed.

Definition command_of (direction : ata_direction) : Z :=
  match direction with ATA_PIO_READ => ATA_CMD_READ_SECTORS | ATA_PIO_WRITE => ATA_CMD_WRITE_SECTORS end.

(** The channel with the task file of a command. *)
Definition task_file (drive lba count : Z) (x : ctl) : ctl :=
  mk_ctl count (lba mod 256) (lba / 256 mod 256) (lba / 65536 mod 256) (device_register drive lba) Idle (c_master x) (c_slave x).

Lemma task_file_address drive lba count x : 0 <= lba < 268435456 → drive = 0 ∨ drive = 1 → address (task_file drive lba count x) = sent_lba lba.
Proof.
  intros Hl Hd. destruct (device_register_bits drive lba Hl Hd) as (_ & _ & _ & Hm). unfold address, sent_lba. cbn [task_file r_dev r_lba0 r_lba1 r_lba2].
  rewrite Hm. rewrite <- !Z.add_assoc. f_equal. change 16777216 with (256 * (256 * 256)). rewrite !Z.rem_mul_r by lia.
  rewrite Z.div_div by lia. change (256 * 256) with 65536. lia.
Qed.

Lemma task_file_selected drive lba count x : 0 <= lba < 268435456 → drive = 0 ∨ drive = 1 →
  slave_bit (task_file drive lba count x) = (drive =? 1) ∧ selected (task_file drive lba count x) = drive_at x (drive =? 1).
Proof.
  intros Hl Hd. destruct (device_register_bits drive lba Hl Hd) as (_ & Hb & _). unfold selected, slave_bit. cbn [task_file r_dev]. by rewrite Hb.
Qed.

(** * Storing *)

Lemma store_phase pos l q x : store pos l (set_phase q x) = set_phase q (store pos l x).
Proof. done. Qed.

Lemma after_out_phase pos n got q x : after_out pos n got (set_phase q x) = after_out pos n got x.
Proof. unfold after_out. by case_bool_decide. Qed.

Lemma store_nil pos x : store pos [] x = x.
Proof.
  unfold store, put_drive, selected, drive_at. generalize (slave_bit x). destruct x as [? ? ? ? ? ? [[]|] [[]|]]; by intros [].
Qed.

Lemma store_selected pos l x : selected (store pos l x) = (λ d, mk_drive (d_ident d) (list_inserts pos l (d_data d))) <$> selected x.
Proof. unfold store, selected, slave_bit. cbn [put_drive r_dev]. unfold put_drive, drive_at. by destruct (Z.testbit _ _). Qed.

Lemma inserts_app p (a b l : list Z) : list_inserts (p + length a) b (list_inserts p a l) = list_inserts p (a ++ b) l.
Proof.
  apply list_eq. intros i. rewrite !inserts_lookup, !length_inserts, length_app.
  repeat case_decide; try lia; try done.
  - rewrite lookup_app_r by lia. f_equal. lia.
  - rewrite lookup_app_l by lia. done.
Qed.

Lemma store_app pos a b x : store (pos + length a) b (store pos a x) = store pos (a ++ b) x.
Proof.
  unfold store at 1. rewrite store_selected. change (slave_bit (store pos a x)) with (slave_bit x). unfold store, put_drive.
  generalize (slave_bit x). intros []; destruct (selected x); cbn; rewrite ?inserts_app; done.
Qed.

Section Transfer.
Context {H : Type} `{IO : IoPorts H} (view : H → nat → ctl) (busy : H → nat → nat) (chs : list ide_channel_t) (patience : nat).
Context `{Bus : !AtaBus view busy chs patience} (uninit : Z).
Context (c : nat) (ch : ide_channel_t) (Hch : chs !! c = Some ch).

Lemma wait_idle h : busy h c = 0%nat → let h' := ata_wait uninit ch h in view h' c = view h c ∧ busy h' c = 0%nat ∧ others view busy c h h'.
Proof using Bus Hch.
  intros Hb. pose proof (wait_quiet view busy chs patience uninit c ch Hch h) as Hq. split; [by apply Hq|]. split; [by eapply quiet_idle|by apply quiet_others].
Qed.

Lemma command_spec h cmd : busy h c = 0%nat → c_phase (view h c) = Idle → let h' := ata_wait uninit ch (ata_write_reg ch h ATA_REG_COMMAND cmd) in
  view h' c = set_phase (start (view h c) cmd) (view h c) ∧ (selected (view h c) = None → busy h' c = 0%nat) ∧ others view busy c h h'.
Proof using Bus Hch.
  intros Hb Hp h'. destruct (bus_command view busy h c ch cmd Hch Hb Hp) as (Hv & Hs & Ho).
  pose proof (wait_quiet view busy chs patience uninit c ch Hch (ata_write_reg ch h ATA_REG_COMMAND cmd)) as Hq.
  split; [rewrite <- Hv; apply Hq|]. split; [intros Hn; by eapply quiet_idle; [apply Hq|apply Hs]|].
  eapply others_trans; [exact Ho|]. by apply quiet_others.
Qed.

Lemma send_command_spec h drive direction lba count : busy h c = 0%nat → c_phase (view h c) = Idle →
  0 <= lba < 268435456 → drive = 0 ∨ drive = 1 → 0 <= count < 256 →
  let x := task_file drive lba count (view h c) in
  let h' := send_command uninit ch h drive direction lba count in
  view h' c = set_phase (start x (command_of direction)) x ∧ others view busy c h h'.
Proof using Bus Hch.
  intros Hb Hp Hl Hd Hc x. unfold send_command. rewrite !byte_of, !Z.shiftr_div_pow2 by lia. change (2 ^ 8) with 256. change (2 ^ 16) with 65536. cbv zeta.
  destruct (device_register_bits drive lba Hl Hd) as (Hr & _).
  assert (Hbyte : ∀ y, 0 <= y mod 256 < 256) by (intros; apply Z.mod_pos_bound; lia).
  destruct (write_reg_spec view busy chs patience c ch Hch h ATA_REG_HDDEVSEL (device_register drive lba)) as (V1 & B1 & O1); [done..|].
  set (h1 := ata_write_reg ch h ATA_REG_HDDEVSEL _) in *. destruct (wait_idle h1 B1) as (V2 & B2 & O2). set (h2 := ata_wait uninit ch h1) in *.
  assert (P2 : c_phase (view h2 c) = Idle) by (by rewrite V2, V1).
  destruct (write_reg_spec view busy chs patience c ch Hch h2 ATA_REG_SECCOUNT0 count) as (V3 & B3 & O3); [done..|].
  set (h3 := ata_write_reg ch h2 ATA_REG_SECCOUNT0 _) in *. assert (P3 : c_phase (view h3 c) = Idle) by (by rewrite V3).
  destruct (write_reg_spec view busy chs patience c ch Hch h3 ATA_REG_LBA0 (lba mod 256)) as (V4 & B4 & O4); [done..|].
  set (h4 := ata_write_reg ch h3 ATA_REG_LBA0 _) in *. assert (P4 : c_phase (view h4 c) = Idle) by (by rewrite V4).
  destruct (write_reg_spec view busy chs patience c ch Hch h4 ATA_REG_LBA1 (lba / 256 mod 256)) as (V5 & B5 & O5); [done..|].
  set (h5 := ata_write_reg ch h4 ATA_REG_LBA1 _) in *. assert (P5 : c_phase (view h5 c) = Idle) by (by rewrite V5).
  destruct (write_reg_spec view busy chs patience c ch Hch h5 ATA_REG_LBA2 (lba / 65536 mod 256)) as (V6 & B6 & O6); [done..|].
  set (h6 := ata_write_reg ch h5 ATA_REG_LBA2 _) in *. assert (P6 : c_phase (view h6 c) = Idle) by (by rewrite V6).
  assert (E : view h6 c = x).
  { rewrite V6, V5, V4, V3, V2, V1. unfold x, task_file, set_reg. cbn. by rewrite Hp. }
  destruct (command_spec h6 (command_of direction) B6 P6) as (V7 & _ & O7). rewrite E in V7. split; [exact V7|].
  eauto 10 using others_trans.
Qed.

(** * Reading *)

Lemma start_read x d lba : selected x = Some d → address x = lba → 0 <= lba → Z.testbit (r_dev x) 6 = true →
  512 * (lba + sectors x) <= Z.of_nat (length (d_data d)) → 0 <= sectors x →
  start x ATA_CMD_READ_SECTORS = DataIn (slice (512 * Z.to_nat lba) (512 * Z.to_nat (sectors x)) (d_data d)).
Proof using. intros Hs Ha Hl H6 Hlen Hn. unfold start. rewrite Hs, Ha, H6, bool_decide_eq_true_2 by lia. done. Qed.

Lemma start_write x d lba : selected x = Some d → address x = lba → 0 <= lba → Z.testbit (r_dev x) 6 = true →
  512 * (lba + sectors x) <= Z.of_nat (length (d_data d)) → 0 <= sectors x →
  start x ATA_CMD_WRITE_SECTORS = DataOut (512 * Z.to_nat lba) (Z.to_nat (sectors x)) [].
Proof using. intros Hs Ha Hl H6 Hlen Hn. unfold start. rewrite Hs, Ha, H6, bool_decide_eq_true_2 by lia. done. Qed.

Lemma sectors_of drive lba k x : 1 <= k <= 256 → sectors (task_file drive lba (u8 k) x) = k.
Proof using.
  intros Hk. unfold sectors. cbn [task_file r_count]. unfold u8. destruct (decide (k = 256)) as [->|]; [done|].
  rewrite Z.mod_small by lia. by rewrite (proj2 (Z.eqb_neq _ _)) by lia.
Qed.

(** What a channel is after a command: the drives it had, idle. *)
Definition same_drives (h h' : H) : Prop :=
  c_phase (view h' c) = Idle ∧ busy h' c = 0%nat ∧ (∀ b, drive_at (view h' c) b = drive_at (view h c) b) ∧ others view busy c h h'.

(** Sectors are read from where they are sent for. *)
Lemma pio_read_spec n fuel h drive d lba k data : busy h c = 0%nat → c_phase (view h c) = Idle → drive = 0 ∨ drive = 1 →
  drive_at (view h c) (drive =? 1) = Some d → 0 <= lba < 268435456 → 1 <= k <= 256 → 512 * (sent_lba lba + k) <= Z.of_nat (length (d_data d)) →
  (Z.to_nat k <= n)%nat → (patience < fuel)%nat →
  ∃ h', ata_pio_transfer uninit n fuel ch h drive ATA_PIO_READ lba (u8 k) data =
      Ret (h', Ok 0, slice (512 * Z.to_nat (sent_lba lba)) (512 * Z.to_nat k) (d_data d)) ∧ same_drives h h'.
Proof using Bus Hch.
  intros Hb Hp Hd Hdr Hl Hk Hlen Hn Hf. unfold ata_pio_transfer. rewrite (proj2 (Z.ltb_ge _ _)) by lia.
  destruct (send_command_spec h drive ATA_PIO_READ lba (u8 k) Hb Hp Hl Hd) as [Hv Ho]; [apply Z.mod_pos_bound; lia|].
  set (h1 := send_command _ _ _ _ _ _ _) in *. set (x := task_file drive lba (u8 k) (view h c)) in *.
  destruct (task_file_selected drive lba (u8 k) (view h c) Hl Hd) as [_ Hsel]. fold x in Hsel. rewrite Hdr in Hsel.
  destruct (device_register_bits drive lba Hl Hd) as (_ & _ & H6 & _). pose proof (sectors_of drive lba k (view h c) Hk) as Hsec. fold x in Hsec.
  assert (Hpos : 0 <= sent_lba lba) by (unfold sent_lba; pose proof (Z.div_pos lba 134217728); pose proof (Z.mod_pos_bound lba 16777216); lia).
  cbn [command_of] in Hv. rewrite (start_read x d (sent_lba lba)) in Hv; [|done|by apply task_file_address|done|done|lia|lia]. rewrite Hsec in Hv.
  assert (HS : length (slice (512 * Z.to_nat (sent_lba lba)) (512 * Z.to_nat k) (d_data d)) = (512 * Z.to_nat k)%nat) by (apply slice_length; lia).
  destruct (transfer_read_spec view busy chs patience uninit c ch Hch n fuel (Z.to_nat k) h1
    (slice (512 * Z.to_nat (sent_lba lba)) (512 * Z.to_nat k) (d_data d)) (u8 k) data) as (h' & Hrun & Hv' & Hb' & Ho'); try done; try lia.
  - rewrite Hv. by exists d.
  - by rewrite Hv.
  - by rewrite Z2Nat.id by lia.
  - exists h'. split; [exact Hrun|]. rewrite Hv, set_phase_twice in Hv'. unfold same_drives. rewrite Hv'. split; [done|]. split; [done|].
    split; [by intros []|by eapply others_trans].
Qed.

(** * Writing *)

Lemma out_words_spec k h pos n got l : busy h c = 0%nat → c_phase (view h c) = DataOut pos n got → (0 < k <= 128)%nat →
  length got = (512 - 4 * k)%nat → (4 * k <= length l)%nat →
  let h' := out_words k (u16 (ch_base ch)) h l in
  view h' c = after_out pos n (got ++ take (4 * k) l) (view h c) ∧ others view busy c h h'.
Proof using Bus Hch.
  revert h got l. induction k as [|k IH]; intros h got l Hb Hp Hk Hg Hl; [lia|]. cbn [out_words].
  assert (H4 : length (take 4 l) = 4%nat) by (rewrite length_take; lia).
  destruct (bus_out view busy h c ch pos n got (take 4 l) Hch Hb Hp H4) as (Hv & Hb1 & Ho). set (h1 := outl _ _ _) in *.
  destruct (decide (k = 0%nat)) as [->|Hk0]; [cbn [out_words]; split; [exact Hv|exact Ho]|].
  assert (Hlt : (length (got ++ take 4 l) < 512)%nat) by (rewrite length_app, H4; lia).
  assert (Hv1 : view h1 c = set_phase (DataOut pos n (got ++ take 4 l)) (view h c)) by (rewrite Hv; unfold after_out; by rewrite bool_decide_eq_true_2 by exact Hlt).
  destruct (IH h1 (got ++ take 4 l) (drop 4 l)) as [Hv' Ho']; [by apply Hb1|by rewrite Hv1|lia|rewrite length_app, H4; lia|rewrite length_drop; lia|].
  split; [|by eapply others_trans]. rewrite Hv', Hv1, after_out_phase, <- app_assoc. f_equal. f_equal.
  rewrite <- (take_drop 4 (take (4 * S k) l)), take_take, Nat.min_l by lia. f_equal. rewrite skipn_firstn_comm. f_equal. lia.
Qed.

Lemma write_block_spec h pos n l : busy h c = 0%nat → c_phase (view h c) = DataOut pos (S n) [] → (512 <= length l)%nat →
  let h' := ata_write_block ch h ATA_REG_DATA l in
  view h' c = set_phase (match n with O => Idle | S _ => DataOut (pos + 512) n [] end) (store pos (take 512 l) (view h c)) ∧ others view busy c h h'.
Proof using Bus Hch.
  intros Hb Hp Hl. unfold ata_write_block, with_control, reg_port. cbn [high_reg ATA_REG_DATA Z.ltb Z.compare andb fst].
  rewrite Z.add_0_r. destruct (out_words_spec 128 h pos (S n) [] l) as (Hv & Ho); [done|done|lia|done|lia|].
  split; [|exact Ho]. rewrite Hv. change (4 * 128)%nat with 512%nat. cbn [app]. unfold after_out.
  rewrite bool_decide_eq_false_2 by (rewrite length_take; lia). destruct n; [done|]. rewrite bool_decide_eq_false_2 by lia.
  by replace (S (S n) - 1)%nat with (S n) by lia.
Qed.

Lemma transfer_write_spec n fuel m h pos count data : (m < n)%nat → (patience < fuel)%nat → is_Some (selected (view h c)) →
  c_phase (view h c) = match m with O => Idle | S _ => DataOut pos m [] end → (512 * m <= length data)%nat →
  ∃ h', transfer_blocks uninit n fuel ch h ATA_PIO_WRITE count data = Ret (h', Ok 0, [])
    ∧ view h' c = set_phase Idle (store pos (take (512 * m) data) (view h c)) ∧ busy h' c = 0%nat ∧ others view busy c h h'.
Proof using Bus Hch.
  intros Hn Hf. revert m h pos count data Hn. induction n as [|n IH]; intros m h pos count data Hn Hsel Hp Hl; [lia|]. cbn [transfer_blocks].
  destruct (check_status_spec view busy chs patience uninit c ch Hch fuel h Hsel) as (h1 & -> & Hb1 & Hq); [pose proof (bus_patience view busy h c); lia|].
  cbn [obind]. destruct m as [|m].
  - rewrite bool_decide_eq_true_2 by done. exists h1. split; [done|]. change (512 * 0)%nat with 0%nat. rewrite take_0, store_nil, (quiet_view _ _ _ _ c Hq).
    split; [|split; [done|by apply quiet_others]]. destruct (view h c); cbn in *; by subst.
  - rewrite bool_decide_eq_false_2 by (by rewrite Hp). rewrite <- (quiet_view _ _ _ _ c Hq) in Hp.
    destruct (write_block_spec h1 pos m data Hb1 Hp) as [Hv2 Ho2]; [lia|]. set (h2 := ata_write_block _ _ _ _) in *.
    rewrite (quiet_view _ _ _ _ c Hq) in Hv2.
    destruct (IH m h2 (pos + 512)%nat (u8 (count - 1)) (drop 512 data)) as (h' & -> & Hv' & Hb' & Ho'); [lia|..].
    + rewrite Hv2. change (selected (set_phase ?p ?x)) with (selected x). rewrite store_selected. destruct Hsel as [d ->]. by eexists.
    + rewrite Hv2. by destruct m.
    + rewrite length_drop. lia.
    + exists h'. split; [done|]. split; [|split; [done|eauto using others_trans, quiet_others]].
      rewrite Hv', Hv2, store_phase, set_phase_twice. f_equal.
      replace 512%nat with (length (take 512 data)) at 1 by (rewrite length_take; lia). rewrite store_app. f_equal.
      replace (512 * S m)%nat with (512 + 512 * m)%nat by lia. by rewrite <- (take_take_drop data 512 (512 * m)).
Qed.

(** The drive and the rest of the channel after a write. *)
Lemma pio_write_spec n fuel h drive d lba k data : busy h c = 0%nat → c_phase (view h c) = Idle → drive = 0 ∨ drive = 1 →
  drive_at (view h c) (drive =? 1) = Some d → 0 <= lba < 268435456 → 1 <= k <= 256 → 512 * (sent_lba lba + k) <= Z.of_nat (length (d_data d)) →
  (Z.to_nat k < n)%nat → (patience < fuel)%nat → Z.of_nat (length data) = 512 * k →
  ∃ h', ata_pio_transfer uninit n fuel ch h drive ATA_PIO_WRITE lba (u8 k) data = Ret (h', Ok 0, [])
    ∧ c_phase (view h' c) = Idle ∧ busy h' c = 0%nat
    ∧ drive_at (view h' c) (drive =? 1) = Some (mk_drive (d_ident d) (list_inserts (512 * Z.to_nat (sent_lba lba)) data (d_data d)))
    ∧ drive_at (view h' c) (negb (drive =? 1)) = drive_at (view h c) (negb (drive =? 1)) ∧ others view busy c h h'.
Proof using Bus Hch.
  intros Hb Hp Hd Hdr Hl Hk Hlen Hn Hf Hdata. unfold ata_pio_transfer. rewrite (proj2 (Z.ltb_ge _ _)) by lia.
  destruct (send_command_spec h drive ATA_PIO_WRITE lba (u8 k) Hb Hp Hl Hd) as [Hv Ho]; [apply Z.mod_pos_bound; lia|].
  set (h1 := send_command _ _ _ _ _ _ _) in *. set (x := task_file drive lba (u8 k) (view h c)) in *.
  destruct (task_file_selected drive lba (u8 k) (view h c) Hl Hd) as [Hbit Hsel]. fold x in Hbit, Hsel. rewrite Hdr in Hsel.
  destruct (device_register_bits drive lba Hl Hd) as (_ & _ & H6 & _). pose proof (sectors_of drive lba k (view h c) Hk) as Hsec. fold x in Hsec.
  assert (Hpos : 0 <= sent_lba lba) by (unfold sent_lba; pose proof (Z.div_pos lba 134217728); pose proof (Z.mod_pos_bound lba 16777216); lia).
  cbn [command_of] in Hv. rewrite (start_write x d (sent_lba lba)) in Hv; [|done|by apply task_file_address|done|done|lia|lia]. rewrite Hsec in Hv.
  destruct (transfer_write_spec n fuel (Z.to_nat k) h1 (512 * Z.to_nat (sent_lba lba)) (u8 k) data) as (h' & Hrun & Hv' & Hb' & Ho'); try done; try lia.
  - rewrite Hv. by exists d.
  - rewrite Hv. cbn [c_phase set_phase]. destruct (Z.to_nat k) eqn:E; [lia|done].
  - exists h'. split; [exact Hrun|]. rewrite Hv, store_phase, set_phase_twice, take_ge in Hv' by lia.
    rewrite Hv'. split; [done|]. split; [done|]. unfold store. rewrite Hsel, Hbit. cbn.
    split; [by destruct (drive =? 1)|]. split; [by destruct (drive =? 1)|by eapply others_trans].
Qed.
End Transfer.
