(* ===== verification/AtaDriver.v ===== *)
(** The ATA driver under the block layer: a partition of a drive on a bus that
    meets [AtaBus] is a block device in the sense of [Block], so that reads and
    writes of any byte range of the partition reach the right bytes of the
    drive and nothing else; and what the driver does outside of the ranges for
    which that holds. *)

From S2P Require Import Prelude Bytes Block Ata AtaBus AtaTransfer.

(** * Parts of a list *)

Lemma slice_inserts_in p n o (k l : list Z) : (o + length k <= n)%nat → (p + n <= length l)%nat →
  slice p n (list_inserts (p + o) k l) = list_inserts o k (slice p n l).
Proof.
  intros Hk Hl. apply list_eq. intros i. rewrite slice_lookup, !inserts_lookup, slice_lookup, slice_length by lia.
  repeat case_decide; try lia; try done. f_equal. lia.
Qed.

Lemma take_inserts p o (k l : list Z) : (p <= o)%nat → take p (list_inserts o k l) = take p l.
Proof.
  intros Hp. apply list_eq. intros i. destruct (decide (i < p)%nat).
  - rewrite !lookup_take_lt by lia. rewrite inserts_lookup, decide_False by lia. done.
  - rewrite !lookup_take_ge by lia. done.
Qed.

Lemma drop_inserts p o (k l : list Z) : (o + length k <= p)%nat → drop p (list_inserts o k l) = drop p l.
Proof. intros Hp. apply list_eq. intros i. rewrite !lookup_drop, inserts_lookup, decide_False by lia. done. Qed.

Lemma same_parts p n (l l' : list Z) : take p l = take p l' → slice p n l = slice p n l' → drop (p + n) l = drop (p + n) l' → l = l'.
Proof.
  intros Ht Hs Hd. rewrite <- (take_drop p l), <- (take_drop p l'), Ht. f_equal. unfold slice in Hs.
  rewrite <- (take_drop n (drop p l)), <- (take_drop n (drop p l')), Hs, !drop_drop, Hd. done.
Qed.

Section Driver.
Context {H : Type} `{IO : IoPorts H} (view : H → nat → ctl) (busy : H → nat → nat) (chs : list ide_channel_t) (patience : nat).
Context `{Bus : !AtaBus view busy chs patience} (uninit : Z) (minor : Z → Z).

(** * Partitions *)

Definition dev_of (w : ide H) (devid : Z) : option (ide_device_t * ata_partition_t) :=
  d ← ide_device w !! disk_of minor devid; p ← dev_part d !! part_of minor devid; Some (d, p).

Definition chan (d : ide_device_t) : nat := Z.to_nat (dev_channel d).
Definition drive_of (w : ide H) (d : ide_device_t) : option drive := drive_at (view (hw w) (chan d)) (dev_drive d =? 1).

(** The number of sectors of a partition that the driver lets through: it compares
    a sector relative to the partition with the absolute end, which hides the last
    sector of a partition that begins at sector 0, and none of the others. *)
Definition visible (p : ata_partition_t) : Z := Z.min (lba_end p - lba_start p) (lba_end p - 1).

(** The partition is known, lies on the drive below the sector numbers that
    are sent correctly, and the channel waits for a command. *)
Definition usable (w : ide H) (d : ide_device_t) (p : ata_partition_t) (dr : drive) : Prop :=
  ide_channel w = chs ∧ dev_exist d ≠ 0 ∧ p_valid p ≠ 0 ∧ (dev_drive d = 0 ∨ dev_drive d = 1) ∧ (chan d < length chs)%nat
  ∧ 0 <= lba_start p ∧ lba_start p < lba_end p ∧ lba_end p <= 16777216 ∧ 512 * lba_end p <= Z.of_nat (length (d_data dr))
  ∧ busy (hw w) (chan d) = 0%nat ∧ c_phase (view (hw w) (chan d)) = Idle.

#[local] Instance usable_dec w d p dr : Decision (usable w d p dr).
Proof using. unfold usable. apply _. Defined.

(** Everything but the bytes of the partition. *)
Definition outside (w : ide H) (d : ide_device_t) (p : ata_partition_t) (dr : drive) :=
  (ide_device w, take (512 * Z.to_nat (lba_start p)) (d_data dr), drop (512 * Z.to_nat (lba_start p + visible p)) (d_data dr), d_ident dr,
   drive_at (view (hw w) (chan d)) (negb (dev_drive d =? 1)),
   (λ c, (c_master (view (hw w) c), c_slave (view (hw w) c))) <$> filter (λ c, c ≠ chan d) (seq 0 (length chs))).

(** The bytes of the partition, while the rest is [R]. *)
Definition part_bytes (R : list ide_device_t * list Z * list Z * list Z * option drive * list (option drive * option drive)) (devid : Z) (w : ide H) : list Z :=
  match dev_of w devid with
  | Some (d, p) =>
      match drive_of w d with
      | Some dr => if decide (usable w d p dr ∧ outside w d p dr = R)
                   then slice (512 * Z.to_nat (lba_start p)) (512 * Z.to_nat (visible p)) (d_data dr) else []
      | None => []
      end
  | None => []
  end.

Lemma part_bytes_intro R devid w d p dr : dev_of w devid = Some (d, p) → drive_of w d = Some dr → usable w d p dr → outside w d p dr = R →
  part_bytes R devid w = slice (512 * Z.to_nat (lba_start p)) (512 * Z.to_nat (visible p)) (d_data dr).
Proof using. intros Hd Hr Hu Ho. unfold part_bytes. by rewrite Hd, Hr, decide_True. Qed.

Lemma part_bytes_elim R devid w : (0 < length (part_bytes R devid w))%nat →
  ∃ d p dr ch, dev_of w devid = Some (d, p) ∧ drive_of w d = Some dr ∧ usable w d p dr ∧ outside w d p dr = R ∧ chs !! chan d = Some ch
    ∧ part_bytes R devid w = slice (512 * Z.to_nat (lba_start p)) (512 * Z.to_nat (visible p)) (d_data dr)
    ∧ length (part_bytes R devid w) = (512 * Z.to_nat (visible p))%nat.
Proof using.
  unfold part_bytes. intros Hl. destruct (dev_of w devid) as [[d p]|]; [|cbn in Hl; lia]. destruct (drive_of w d) as [dr|] eqn:E; [|cbn in Hl; lia].
  case_decide as Hu; [|cbn in Hl; lia]. destruct Hu as [Hu Ho]. pose proof Hu as (_ & _ & _ & _ & Hc & H0 & H1 & H2 & H3 & _).
  destruct (lookup_lt_is_Some_2 chs (chan d) Hc) as [ch Hch]. exists d, p, dr, ch. split_and!; try done. apply slice_length. unfold visible. lia.
Qed.

Lemma dev_of_set w h devid : dev_of (set_hw w h) devid = dev_of w devid.
Proof using. done. Qed.

(** The sector number of the drive for sector [lba] of the partition. *)
Lemma transfer_run n fuel direction w devid d p ch lba k data : dev_of w devid = Some (d, p) → ide_channel w = chs → chs !! chan d = Some ch →
  0 <= lba → 0 <= k → lba + k < lba_end p → 0 <= lba_start p → lba_end p <= 16777216 → lba_start p + lba < 16777216 →
  ide_block_transfer uninit minor n fuel direction w devid lba k data =
    ('(h, r, l) <~ ata_pio_transfer uninit n fuel ch (hw w) (dev_drive d) direction (lba_start p + lba) (u8 k) data ;; Ret (set_hw w h, r, l)).
Proof using.
  clear Bus. unfold dev_of, ide_block_transfer. intros Hd Hw Hch Hl Hk He Hs Hm Ht.
  destruct (ide_device w !! disk_of minor devid) as [d'|]; [|done]. cbn [mbind option_bind or_halt obind] in *.
  destruct (dev_part d' !! part_of minor devid) as [p'|]; [|done]. cbn [mbind option_bind or_halt obind] in *. simplify_eq.
  rewrite u32_small, (proj2 (Z.leb_gt _ _)) by lia. fold (chan d). rewrite Hch. cbn [or_halt obind]. rewrite u32_small by lia. by rewrite Z.add_comm.
Qed.

(** What a transfer that leaves everything else keeps. *)
Lemma usable_keep w h d p dr dr' : usable w d p dr → busy h (chan d) = 0%nat → c_phase (view h (chan d)) = Idle →
  length (d_data dr') = length (d_data dr) → usable (set_hw w h) d p dr'.
Proof using. unfold usable. cbn [ide_channel hw set_hw]. intros (? & ? & ? & ? & ? & ? & ? & ? & ? & ? & ?) ? ? ->. by split_and!. Qed.

Lemma outside_keep w h d p dr dr' : others view busy (chan d) (hw w) h →
  drive_at (view h (chan d)) (negb (dev_drive d =? 1)) = drive_at (view (hw w) (chan d)) (negb (dev_drive d =? 1)) →
  take (512 * Z.to_nat (lba_start p)) (d_data dr') = take (512 * Z.to_nat (lba_start p)) (d_data dr) →
  drop (512 * Z.to_nat (lba_start p + visible p)) (d_data dr') = drop (512 * Z.to_nat (lba_start p + visible p)) (d_data dr) →
  d_ident dr' = d_ident dr → outside (set_hw w h) d p dr' = outside w d p dr.
Proof using.
  intros Ho Hn Ht Hd Hi. unfold outside. cbn [ide_device hw set_hw]. rewrite Hn, Ht, Hd, Hi. f_equal.
  apply list_fmap_ext. intros i c Hc. apply list_elem_of_lookup_2, list_elem_of_filter in Hc as [Hne _]. destruct (Ho c Hne) as [-> _]. done.
Qed.

(** * The driver's promise *)

#[export] Instance ide_block_driver n fuel devid R : (256 < n)%nat → (patience < fuel)%nat →
  BlockDriver (ide_block_operations uninit minor n fuel) devid 512 256 (part_bytes R devid).
Proof using Bus.
  intros Hn Hf. constructor; [lia|lia| | |].
  - intros w check Hcheck Hlen. injection Hcheck as <-. destruct (part_bytes_elim R devid w Hlen) as (d & p & dr & ch & Hd & _ & Hu & _).
    unfold dev_of in Hd. unfold ide_block_exist. destruct (ide_device w !! _) as [d'|]; [|done]. cbn in Hd.
    destruct (dev_part d' !! _) as [p'|]; [|done]. cbn in Hd. simplify_eq. destruct Hu as (_ & He & Hv & _).
    by rewrite (proj2 (Z.eqb_neq _ _) He), (proj2 (Z.eqb_neq _ _) Hv).
  - intros w lba k Hl Hk Hlen. destruct (part_bytes_elim R devid w) as (d & p & dr & ch & Hd & Hr & Hu & Ho & Hch & Hbytes & Hblen); [lia|].
    pose proof Hu as (Hw & He & Hv & Hdr & Hc & H0 & H1 & H2 & H3 & Hb & Hp). rewrite Hblen in Hlen. unfold visible in Hlen.
    eexists.
    destruct (pio_read_spec view busy chs patience uninit (chan d) ch Hch n fuel (hw w) (dev_drive d) dr (lba_start p + lba) k []) as (h' & Hrun & Hphase & Hbusy & Hdrv & Hoth);
      try done; try lia; rewrite ?sent_lba_small by lia; try lia.
    rewrite sent_lba_small in Hrun by lia. exists (set_hw w h'). split; [done|].
    unfold ide_block_read. rewrite (transfer_run n fuel ATA_PIO_READ w devid d p ch) by (done || lia). rewrite Hrun. cbn [obind].
    assert (Hsame : part_bytes R devid (set_hw w h') = slice (512 * Z.to_nat (lba_start p)) (512 * Z.to_nat (visible p)) (d_data dr)).
    { apply (part_bytes_intro R devid _ d p dr); [by rewrite dev_of_set|unfold drive_of; cbn [hw set_hw]; by rewrite Hdrv| |].
      - by apply (usable_keep w h' d p dr).
      - rewrite <- Ho. apply outside_keep; done. }
    rewrite Hsame, Hbytes. split; [|done]. rewrite slice_slice by (unfold visible; lia). f_equal. f_equal. f_equal; lia.
  - intros w lba k data Hl Hk Hlen Hdata. destruct (part_bytes_elim R devid w) as (d & p & dr & ch & Hd & Hr & Hu & Ho & Hch & Hbytes & Hblen); [lia|].
    pose proof Hu as (Hw & He & Hv & Hdr & Hc & H0 & H1 & H2 & H3 & Hb & Hp). rewrite Hblen in Hlen. unfold visible in Hlen.
    eexists.
    destruct (pio_write_spec view busy chs patience uninit (chan d) ch Hch n fuel (hw w) (dev_drive d) dr (lba_start p + lba) k data)
      as (h' & Hrun & Hphase & Hbusy & Hdrv & Hneg & Hoth); try done; try lia; rewrite ?sent_lba_small by lia; try lia.
    rewrite sent_lba_small in Hdrv by lia. exists (set_hw w h'). split; [done|].
    unfold ide_block_write. rewrite (transfer_run n fuel ATA_PIO_WRITE w devid d p ch) by (done || lia). rewrite Hrun. cbn [obind]. split; [done|].
    rewrite Hbytes. rewrite (part_bytes_intro R devid _ d p (mk_drive (d_ident dr) (list_inserts (512 * Z.to_nat (lba_start p + lba)) data (d_data dr))));
      [|by rewrite dev_of_set|unfold drive_of; cbn [hw set_hw]; by rewrite Hdrv| |].
    + cbn [d_data]. rewrite <- slice_inserts_in by (unfold visible; lia). f_equal. f_equal. lia.
    + apply (usable_keep w h' d p dr); try done. cbn [d_data]. by rewrite length_inserts.
    + rewrite <- Ho. apply outside_keep; cbn [d_data d_ident]; try done; [apply take_inserts; lia|apply drop_inserts; unfold visible; lia].
Qed.

(** The state of the drive is told by the bytes of the partition and the rest. *)
Lemma written_back devid w w' d p dr off k : dev_of w devid = Some (d, p) → drive_of w d = Some dr → usable w d p dr →
  (off + length k <= 512 * Z.to_nat (visible p))%nat → (0 < 512 * Z.to_nat (visible p))%nat →
  part_bytes (outside w d p dr) devid w' = list_inserts off k (part_bytes (outside w d p dr) devid w) →
  let dr' := mk_drive (d_ident dr) (list_inserts (512 * Z.to_nat (lba_start p) + off) k (d_data dr)) in
  dev_of w' devid = Some (d, p) ∧ drive_of w' d = Some dr' ∧ usable w' d p dr' ∧ outside w' d p dr' = outside w d p dr.
Proof using.
  intros Hd Hr Hu Hk Hpos Hw' dr'. pose proof Hu as (_ & _ & _ & _ & Hc & H0 & H1 & H2 & H3 & _).
  rewrite (part_bytes_intro _ devid w d p dr) in Hw' by done.
  assert (HL : length (slice (512 * Z.to_nat (lba_start p)) (512 * Z.to_nat (visible p)) (d_data dr)) = (512 * Z.to_nat (visible p))%nat)
    by (apply slice_length; unfold visible; lia).
  destruct (part_bytes_elim (outside w d p dr) devid w') as (d1 & p1 & dr1 & ch & Hd1 & Hr1 & Hu1 & Ho1 & _ & Hb1 & _).
  { rewrite Hw', length_inserts, HL. done. }
  assert (Hdev : dev_of w' devid = dev_of w devid) by (unfold dev_of; pose proof (f_equal (λ x, x.1.1.1.1.1) Ho1) as E0; cbn in E0; by rewrite E0).
  rewrite Hdev, Hd in Hd1. injection Hd1 as <- <-.
  pose proof (f_equal (λ x, x.1.1.1.1.2) Ho1 : take _ _ = take _ _) as E2. pose proof (f_equal (λ x, x.1.1.1.2) Ho1 : drop _ _ = drop _ _) as E3.
  pose proof (f_equal (λ x, x.1.1.2) Ho1 : d_ident _ = d_ident _) as E4.
  assert (dr1 = dr') as ->.
  { destruct dr1 as [id1 da1]. unfold dr'. cbn [d_ident d_data] in *. f_equal; [done|].
    apply (same_parts (512 * Z.to_nat (lba_start p)) (512 * Z.to_nat (visible p))).
    - rewrite take_inserts by lia. done.
    - rewrite slice_inserts_in by (unfold visible in *; lia). rewrite <- Hw', Hb1. done.
    - rewrite drop_inserts by lia. replace (512 * Z.to_nat (lba_start p) + 512 * Z.to_nat (visible p))%nat with (512 * Z.to_nat (lba_start p + visible p))%nat; [done|].
      unfold visible in *. lia. }
  split; [by rewrite Hdev|]. split; [exact Hr1|]. split; [exact Hu1|exact Ho1].
Qed.

Lemma outside_other w w' d p dr dr' c b : outside w' d p dr' = outside w d p dr → (c < length chs)%nat → (c, b) ≠ (chan d, dev_drive d =? 1) →
  drive_at (view (hw w') c) b = drive_at (view (hw w) c) b.
Proof using.
  intros Ho Hc Hne. pose proof (f_equal (λ x, x.1.2) Ho : drive_at _ _ = drive_at _ _) as E5. pose proof (f_equal (λ x, x.2) Ho : _ <$> _ = _ <$> _) as E6.
  destruct (decide (c = chan d)) as [->|Hcd].
  - destruct (decide (b = negb (dev_drive d =? 1))) as [->|Hb]; [done|]. exfalso. apply Hne. f_equal. by destruct b, (dev_drive d =? 1).
  - assert (Hin : c ∈ filter (λ c, c ≠ chan d) (seq 0 (length chs))) by (apply list_elem_of_filter; split; [done|]; apply elem_of_seq; lia).
    apply list_elem_of_lookup_1 in Hin as [i Hi]. pose proof (f_equal (.!! i) E6) as Ei. rewrite !list_lookup_fmap, Hi in Ei. cbn in Ei.
    unfold drive_at. by injection Ei as -> ->.
Qed.

Context (major : Z → Z) (n fuel : nat) (Hn : (256 < n)%nat) (Hfuel : (patience < fuel)%nat).
Local Abbreviation ops := (ide_block_operations uninit minor n fuel).

(** C15: a partition under the block layer: a write of a byte range inside the
    partition puts the bytes on the drive of that partition, behind its first
    sector, and leaves every other byte of this drive and all of the other
    drives alone; a read of such a range afterwards returns what is on the
    drive.  Ranges may begin and end inside sectors; one call moves up to 256
    whole sectors.  The partition must lie in the first 8 GB of the drive
    ([usable]: [lba_end] at most 16777216; beyond, sector numbers are sent
    wrongly: [ata_high_sector_wraps]) and the channel must be idle; the ranges
    lie in the sectors that the driver lets through ([visible]), which are all
    sectors of a partition that does not begin at sector 0 and all but the last
    of one that does, as partition 0, the whole drive, always does
    ([ide_last_sector_refused]). *)
Theorem ide_partition_io s devid nm d p dr off count data off2 count2 buffer :
  ready ops 512 nm s (major devid) → minor devid < nm → dev_of (world s) devid = Some (d, p) → drive_of (world s) d = Some dr →
  usable (world s) d p dr → 0 <= off < 4294967296 → 0 < count → off + count <= 512 * visible p → count / 512 <= 256 → count <= Z.of_nat (length data) →
  0 <= off2 < 4294967296 → 0 < count2 → off2 + count2 <= 512 * visible p → count2 / 512 <= 256 → count2 = Z.of_nat (length buffer) →
  let disk := list_inserts (Z.to_nat (512 * lba_start p + off)) (slice 0 (Z.to_nat count) data) (d_data dr) in
  ∃ s1 s2, block_write major minor s devid off count data = Ret (s1, Ok count)
    ∧ drive_of (world s1) d = Some (mk_drive (d_ident dr) disk)
    ∧ (∀ c b, (c < length chs)%nat → (c, b) ≠ (chan d, dev_drive d =? 1) → drive_at (view (hw (world s1)) c) b = drive_at (view (hw (world s)) c) b)
    ∧ block_read major minor s1 devid off2 count2 buffer = Ret (s2, slice (Z.to_nat (512 * lba_start p + off2)) (Z.to_nat count2) disk, Ok count2).
Proof using Bus Hn Hfuel.
  intros Hr Hmin Hd Hdr Hu Ho Hc Hend Hmax Hdata Ho2 Hc2 Hend2 Hmax2 Hbuf disk.
  pose proof Hu as (_ & _ & _ & _ & _ & H0 & H1 & H2 & H3 & _). assert (Hvis : visible p <= 16777215) by (unfold visible; lia).
  set (R := outside (world s) d p dr). pose proof (ide_block_driver n fuel devid R Hn Hfuel) as Drv.
  assert (HB : part_bytes R devid (world s) = slice (512 * Z.to_nat (lba_start p)) (512 * Z.to_nat (visible p)) (d_data dr)) by (by apply (part_bytes_intro R devid _ d p dr)).
  assert (HL : length (part_bytes R devid (world s)) = (512 * Z.to_nat (visible p))%nat) by (rewrite HB; apply slice_length; unfold visible in *; lia).
  assert (Hdiv : (512 | Z.of_nat (512 * Z.to_nat (visible p)))) by (exists (visible p); lia).
  destruct (block_write_spec major minor (nm := nm) (disk := part_bytes R devid) s off count data) as (s1 & Hw & Hr1 & Hb1); rewrite ?HL; try done; try lia.
  assert (Hk : length (slice 0 (Z.to_nat count) data) = Z.to_nat count) by (apply slice_length; lia).
  destruct (written_back devid (world s) (world s1) d p dr (Z.to_nat off) (slice 0 (Z.to_nat count) data)) as (Hd1 & Hdr1 & Hu1 & Ho1); try done; [lia..|].
  replace (512 * Z.to_nat (lba_start p) + Z.to_nat off)%nat with (Z.to_nat (512 * lba_start p + off)) in * by lia. fold disk in Hdr1, Hu1, Ho1.
  assert (HB1 : part_bytes R devid (world s1) = slice (512 * Z.to_nat (lba_start p)) (512 * Z.to_nat (visible p)) disk)
    by (by apply (part_bytes_intro R devid _ d p (mk_drive (d_ident dr) disk))).
  assert (HL1 : length (part_bytes R devid (world s1)) = (512 * Z.to_nat (visible p))%nat) by (rewrite Hb1, length_inserts; done).
  destruct (block_read_spec major minor (nm := nm) (disk := part_bytes R devid) s1 off2 count2 buffer) as (s2 & Hrd & _); rewrite ?HL1; try done; try lia.
  exists s1, s2. assert (count < 2147483648) by (pose proof (Z.div_mod count 512); pose proof (Z.mod_pos_bound count 512); lia).
  assert (count2 < 2147483648) by (pose proof (Z.div_mod count2 512); pose proof (Z.mod_pos_bound count2 512); lia). rewrite s32_small in Hw, Hrd by lia. split; [done|]. split; [done|]. split; [intros c b Hlt Hne; by eapply outside_other|].
  rewrite Hrd, HB1, slice_slice, inserts_whole by (rewrite ?slice_length; rewrite ?length_inserts; unfold disk; rewrite ?length_inserts; unfold visible in *; lia).
  do 3 f_equal. f_equal. lia.
Qed.

(** * Where the driver errs *)

(** The last sector of a drive cannot be read through the whole drive: the
    bound is compared with [>=]. *)
Theorem ide_last_sector_refused w devid d p : dev_of w devid = Some (d, p) → 0 < lba_end p < 4294967296 →
  ide_block_read uninit minor n fuel w devid (lba_end p - 1) 1 = Ret (w, Err EFAULT, []).
Proof using.
  clear Hn Hfuel. unfold dev_of, ide_block_read, ide_block_transfer. intros Hd He.
  destruct (ide_device w !! disk_of minor devid) as [d'|]; [|done]. cbn [mbind option_bind or_halt obind] in *.
  destruct (dev_part d' !! part_of minor devid) as [p'|]; [|done]. cbn [mbind option_bind or_halt obind] in *. injection Hd as -> ->.
  rewrite u32_small, (proj2 (Z.leb_le _ _)) by lia. done.
Qed.

(** The bound is a sector of the drive and is compared with a sector of the
    partition: a partition that begins at sector 2 or later can be read beyond
    its end, into what follows on the drive. *)
Theorem ide_reads_past_partition w devid d p dr : dev_of w devid = Some (d, p) → drive_of w d = Some dr → usable w d p dr →
  2 <= lba_start p → lba_end p < 16777216 → 512 * (lba_end p + 1) <= Z.of_nat (length (d_data dr)) →
  ∃ w', ide_block_read uninit minor n fuel w devid (lba_end p - lba_start p) 1 = Ret (w', Ok 0, slice (512 * Z.to_nat (lba_end p)) 512 (d_data dr)).
Proof using Bus Hn Hfuel.
  intros Hd Hdr Hu H2 He Hlen. pose proof Hu as (Hw & _ & _ & Hb & Hc & H0 & H1 & _ & H3 & Hbusy & Hp).
  destruct (lookup_lt_is_Some_2 chs (chan d) Hc) as [ch Hch]. unfold ide_block_read. rewrite (transfer_run n fuel ATA_PIO_READ w devid d p ch) by (done || lia).
  replace (lba_start p + (lba_end p - lba_start p)) with (lba_end p) by lia.
  destruct (pio_read_spec view busy chs patience uninit (chan d) ch Hch n fuel (hw w) (dev_drive d) dr (lba_end p) 1 []) as (h' & -> & _);
    try done; try lia; rewrite ?sent_lba_small by lia; try lia.
  eexists. reflexivity.
Qed.

(** The device register gets bit 27 of the sector number for its bits 24 to 27:
    sectors from 2^24 to 2^27 are taken from the first 8 GB. *)
Theorem ata_high_sector_wraps c ch h drive d lba : chs !! c = Some ch → busy h c = 0%nat → c_phase (view h c) = Idle → drive = 0 ∨ drive = 1 →
  drive_at (view h c) (drive =? 1) = Some d → 16777216 <= lba < 134217728 → 512 * (lba + 1) <= Z.of_nat (length (d_data d)) →
  ∃ h', ata_pio_transfer uninit n fuel ch h drive ATA_PIO_READ lba 1 [] = Ret (h', Ok 0, slice (512 * Z.to_nat (lba mod 16777216)) 512 (d_data d)).
Proof using Bus Hn Hfuel.
  intros Hch Hb Hp Hd Hdr Hl Hlen. assert (Hs : sent_lba lba = lba mod 16777216) by (unfold sent_lba; rewrite Z.div_small by lia; lia).
  pose proof (Z.mod_pos_bound lba 16777216 ltac:(lia)).
  destruct (pio_read_spec view busy chs patience uninit c ch Hch n fuel h drive d lba 1 []) as (h' & Hrun & _); try done; try lia.
  exists h'. rewrite Hs in Hrun. exact Hrun.
Qed.

(** The number of sectors is cut to eight bits: a read of 257 sectors stores
    one and reports success. *)
Theorem ide_long_read_truncated w devid d p dr : dev_of w devid = Some (d, p) → drive_of w d = Some dr → usable w d p dr → 257 < lba_end p →
  ∃ w', ide_block_read uninit minor n fuel w devid 0 257 = Ret (w', Ok 0, slice (512 * Z.to_nat (lba_start p)) 512 (d_data dr)).
Proof using Bus Hn Hfuel.
  intros Hd Hdr Hu He. pose proof Hu as (Hw & _ & _ & Hb & Hc & H0 & H1 & H2 & H3 & Hbusy & Hp).
  destruct (lookup_lt_is_Some_2 chs (chan d) Hc) as [ch Hch]. unfold ide_block_read. rewrite (transfer_run n fuel ATA_PIO_READ w devid d p ch) by (done || lia).
  rewrite Z.add_0_r. change (u8 257) with (u8 1).
  destruct (pio_read_spec view busy chs patience uninit (chan d) ch Hch n fuel (hw w) (dev_drive d) dr (lba_start p) 1 []) as (h' & -> & _);
    try done; try lia; rewrite ?sent_lba_small by lia; try lia.
  eexists. reflexivity.
Qed.

(** A write the drive refuses is reported as done: the error bits of the status
    are not looked at. *)
Theorem ata_refused_write_succeeds c ch h drive d lba data : chs !! c = Some ch → busy h c = 0%nat → c_phase (view h c) = Idle → drive = 0 ∨ drive = 1 →
  drive_at (view h c) (drive =? 1) = Some d → 0 <= lba < 16777216 → Z.of_nat (length (d_data d)) < 512 * (lba + 1) →
  ∃ h', ata_pio_transfer uninit n fuel ch h drive ATA_PIO_WRITE lba 1 data = Ret (h', Ok 0, []) ∧ drive_at (view h' c) (drive =? 1) = Some d.
Proof using Bus Hn Hfuel.
  intros Hch Hb Hp Hd Hdr Hl Hlen. unfold ata_pio_transfer. rewrite (proj2 (Z.ltb_ge _ _)) by lia.
  destruct (send_command_spec view busy chs patience uninit c ch Hch h drive ATA_PIO_WRITE lba 1 Hb Hp) as [Hv Ho]; [lia|done|lia|].
  set (h1 := send_command _ _ _ _ _ _ _) in *. set (x := task_file drive lba 1 (view h c)) in *.
  destruct (task_file_selected drive lba 1 (view h c) ltac:(lia) Hd) as [_ Hsel]. fold x in Hsel. rewrite Hdr in Hsel.
  assert (Hs : start x ATA_CMD_WRITE_SECTORS = Idle).
  { unfold start. rewrite Hsel. unfold x. rewrite task_file_address, sent_lba_small by (done || lia).
    rewrite bool_decide_eq_false_2 by (cbn; lia). rewrite !andb_false_r. done. }
  cbn [command_of] in Hv. rewrite Hs in Hv.
  destruct (transfer_write_spec view busy chs patience uninit c ch Hch n fuel 0 h1 0 1 data) as (h' & -> & Hv' & _); [lia|lia|rewrite Hv; by exists d|by rewrite Hv|lia|].
  exists h'. split; [done|]. rewrite Hv', Hv. change (take (512 * 0) data) with (@nil Z). rewrite store_nil.
  by change (drive_at (view h c) (drive =? 1) = Some d).
Qed.
End Driver.
