(* ===== verification/AtaInit.v ===== *)
(** Finding the drives: [ide_initialize] on a bus that meets [AtaBus] fills the
    table of devices with the drives that are there, in order, with their sizes
    and the partitions of their boot sectors. *)

From S2P Require Import Prelude Bytes Block Ata AtaBus AtaTransfer.

(** * What the table should say of a drive *)

(** Entry [i] of the partition table of a boot sector. *)
Definition entry (data : list Z) (i : nat) : list Z := slice (446 + 16 * i) 16 data.

(** An unused entry; its second byte does not count. *)
Definition unused (e : list Z) : Prop := ∀ j, (j < 16)%nat → j ≠ 1%nat → e !!! j = 0.

Definition signed (data : list Z) : Prop := data !!! 510%nat = 85 ∧ data !!! 511%nat = 170.

(** The number of sectors: words 100 and 101 of the identification when the
    drive has 48-bit addresses, words 60 and 61 otherwise. *)
Definition ident_size (ident : list Z) : Z := if Z.testbit (le32 ident 164) 26 then le32 ident 200 else le32 ident 120.

Record describes (dr : drive) (c : nat) (b : bool) (dev : ide_device_t) : Prop := {
  de_exist : dev_exist dev = 1;
  de_channel : dev_channel dev = Z.of_nat c;
  de_drive : dev_drive dev = if b then 1 else 0;
  de_type : dev_type dev = ATA_TYPE_ATA;
  de_size : dev_size dev = ident_size (d_ident dr);
  de_parts : length (dev_part dev) = 5%nat;
  de_signed : signed (d_data dr) →
    dev_part dev !! 0%nat = Some (mk_part 1 0 (ident_size (d_ident dr)) 0)
    ∧ ∀ i, (i < 4)%nat → ∃ q, dev_part dev !! S i = Some q
        ∧ (unused (entry (d_data dr) i) → p_valid q = 0)
        ∧ (¬ unused (entry (d_data dr) i) →
             let e := entry (d_data dr) i in q = mk_part 1 (le32 e 8) (u32 (le32 e 8 + le32 e 12)) (e !!! 4%nat));
  de_unsigned : ¬ signed (d_data dr) → Forall (λ q, p_valid q = 0) (dev_part dev);
}.

(** * The buffer *)

Lemma inserts_total (l buf : list Z) i : (i < length l)%nat → (length l <= length buf)%nat → list_inserts 0 l buf !!! i = l !!! i.
Proof. intros Hi Hl. rewrite !list_lookup_total_alt, inserts_lookup, decide_True by lia. by rewrite Nat.sub_0_r. Qed.

Lemma inserts_le16 (l buf : list Z) o : (S o < length l)%nat → (length l <= length buf)%nat → le16 (list_inserts 0 l buf) o = le16 l o.
Proof. intros Ho Hl. unfold le16. rewrite !inserts_total by lia. done. Qed.

Lemma inserts_le32 (l buf : list Z) o : (o + 3 < length l)%nat → (length l <= length buf)%nat → le32 (list_inserts 0 l buf) o = le32 l o.
Proof. intros Ho Hl. unfold le32. rewrite !inserts_le16 by lia. done. Qed.

Lemma slice_total p n (l : list Z) i : (i < n)%nat → slice p n l !!! i = l !!! (p + i)%nat.
Proof. intros Hi. rewrite !list_lookup_total_alt, slice_lookup, decide_True by lia. done. Qed.

Lemma slice_le16 p n (l : list Z) o : (S o < n)%nat → le16 (slice p n l) o = le16 l (p + o).
Proof. intros Ho. unfold le16. rewrite !slice_total by lia. by rewrite Nat.add_succ_r. Qed.

Lemma slice_le32 p n (l : list Z) o : (o + 3 < n)%nat → le32 (slice p n l) o = le32 l (p + o).
Proof. intros Ho. unfold le32. rewrite !slice_le16 by lia. by rewrite Nat.add_assoc. Qed.

Definition bytes_ok (l : list Z) : Prop := ∀ i, 0 <= l !!! i < 256.

Lemma bytes_ok_slice p n l : bytes_ok l → bytes_ok (slice p n l).
Proof.
  intros Hl i. destruct (decide (i < n)%nat); [rewrite slice_total by done; apply Hl|].
  rewrite list_lookup_total_alt, slice_lookup, decide_False by done. cbn. lia.
Qed.

Lemma le16_zero l o : bytes_ok l → le16 l o = 0 ↔ l !!! o = 0 ∧ l !!! S o = 0.
Proof. intros Hl. unfold le16. pose proof (Hl o). pose proof (Hl (S o)). lia. Qed.

Lemma le16_pos l o : bytes_ok l → 0 <= le16 l o.
Proof. intros Hl. unfold le16. pose proof (Hl o). pose proof (Hl (S o)). lia. Qed.

Lemma le32_zero l o : bytes_ok l → le32 l o = 0 ↔ le16 l o = 0 ∧ le16 l (o + 2) = 0.
Proof. intros Hl. unfold le32. pose proof (le16_pos l o Hl). pose proof (le16_pos l (o + 2) Hl). lia. Qed.

(** The test of the driver for an unused entry. *)
Definition unused_b (e : list Z) : bool :=
  (e !!! 0%nat =? 0) && (le16 e 2 =? 0) && (e !!! 4%nat =? 0) && (e !!! 5%nat =? 0) && (le16 e 6 =? 0) && (le32 e 8 =? 0) && (le32 e 12 =? 0).

Lemma unused_spec e : bytes_ok e → unused_b e = true ↔ unused e.
Proof.
  intros Hb. unfold unused_b. rewrite !andb_true_iff, !Z.eqb_eq, !(le32_zero e), !(le16_zero e) by done. cbn [Nat.add]. split.
  - intros Hall j Hj Hne. destruct_and! Hall. do 16 (destruct j as [|j]; [done|]). lia.
  - intros He. repeat split; apply He; lia.
Qed.

Lemma read_part_spec buf data i q : take 512 buf = take 512 data → (i < 4)%nat → (512 <= length buf)%nat → (512 <= length data)%nat →
  read_part buf i q = let e := entry data i in
    if unused_b e then set_valid 0 q else mk_part 1 (le32 e 8) (u32 (le32 e 8 + le32 e 12)) (e !!! 4%nat).
Proof.
  intros Ht Hi Hb Hd. assert (Ee : entry data i = slice (446 + 16 * i) 16 buf).
  { unfold entry. apply list_eq. intros j. rewrite !slice_lookup. case_decide; [|done].
    rewrite <- (lookup_take_lt data 512), <- (lookup_take_lt buf 512), Ht by lia. done. }
  cbv zeta. rewrite Ee. unfold unused_b, read_part. rewrite !slice_le32, !slice_le16, !slice_total by lia. by rewrite Nat.add_0_r.
Qed.

Lemma flag_bit x k : 0 <= k → flag x (Z.shiftl 1 k) = Z.testbit x k.
Proof.
  intros Hk. unfold flag. rewrite Z.shiftl_1_l. assert (Hl : Z.land x (2 ^ k) = if Z.testbit x k then 2 ^ k else 0).
  { apply Z.bits_inj'. intros j Hj. rewrite Z.land_spec, Z.pow2_bits_eqb by lia. destruct (Z.eqb_spec k j) as [->|Hne].
    - destruct (Z.testbit x j); [by rewrite Z.pow2_bits_true by lia|by rewrite Z.bits_0].
    - rewrite andb_false_r. destruct (Z.testbit x k); [by rewrite Z.pow2_bits_false by lia|by rewrite Z.bits_0]. }
  rewrite Hl. destruct (Z.testbit x k); [|done]. by rewrite (proj2 (Z.eqb_neq _ _)) by (pose proof (Z.pow_pos_nonneg 2 k); lia).
Qed.

Lemma take_inserts_whole (l buf : list Z) : (length l <= length buf)%nat → take (length l) (list_inserts 0 l buf) = l.
Proof. intros Hl. pose proof (slice_inserts_same 0 l buf) as Hs. cbn in Hs. apply Hs. lia. Qed.

(** A device as the driver builds it from the two blocks it reads. *)
Lemma found_describes dr (c : nat) (b : bool) old buf : length (d_ident dr) = 512%nat → (512 <= length (d_data dr))%nat → bytes_ok (d_data dr) →
  length (dev_part old) = 5%nat → (512 <= length buf)%nat →
  let buf1 := list_inserts 0 (d_ident dr) buf in
  let buf2 := list_inserts 0 (slice 0 512 (d_data dr)) buf1 in
  let dev := identified buf1 ATA_TYPE_ATA (Z.of_nat c) (if b then 1 else 0) old in
  describes dr c b (set_parts dev (read_parts buf2 (dev_part dev))).
Proof.
  intros Hid Hda Hby Hp Hbuf buf1 buf2 dev. assert (Hb1 : length buf1 = length buf) by apply length_inserts.
  assert (Hs : length (slice 0 512 (d_data dr)) = 512%nat) by (apply slice_length; lia).
  assert (Hb2 : length buf2 = length buf) by (unfold buf2; rewrite length_inserts; done).
  assert (Hsize : dev_size dev = ident_size (d_ident dr)).
  { unfold dev, identified, ident_size, buf1. cbn [dev_size]. rewrite flag_bit by lia.
    rewrite (inserts_le32 _ _ ATA_IDENT_COMMANDSETS) by (unfold ATA_IDENT_COMMANDSETS; lia). unfold ATA_IDENT_COMMANDSETS.
    destruct (Z.testbit _ 26); apply inserts_le32; unfold ATA_IDENT_MAX_LBA_EXT, ATA_IDENT_MAX_LBA; lia. }
  assert (Ht : take 512 buf2 = take 512 (d_data dr)).
  { pose proof (take_inserts_whole (slice 0 512 (d_data dr)) buf1 ltac:(lia)) as E. rewrite Hs in E. exact E. }
  assert (Hat : ∀ i, (i < 512)%nat → buf2 !!! i = d_data dr !!! i).
  { intros i Hi. rewrite !list_lookup_total_alt, <- (lookup_take_lt buf2 512), Ht, lookup_take_lt by done. done. }
  destruct (dev_part old) as [|q0 rest] eqn:Ep; [done|]. cbn in Hp.
  assert (Hparts : dev_part dev = mk_part 1 0 (dev_size dev) 0 :: (set_valid 0 <$> rest)) by (unfold dev, identified; cbn [dev_part]; by rewrite Ep).
  assert (Hlen : length (read_parts buf2 (dev_part dev)) = 5%nat).
  { unfold read_parts. rewrite Hparts. case_if; [rewrite length_fmap|]; cbn; rewrite ?length_imap, ?length_fmap; lia. }
  split; try done; cbn [dev_part set_parts].
  - intros [Hs1 Hs2]. unfold read_parts. rewrite !Hat, Hs1, Hs2 by lia. cbn [negb orb Z.eqb Pos.eqb]. rewrite Hparts, <- Hsize. split; [done|].
    intros i Hi. destruct (lookup_lt_is_Some_2 rest i ltac:(lia)) as [q Hq].
    assert (E : imap (read_part buf2) (set_valid 0 <$> rest) !! i = Some (read_part buf2 i (set_valid 0 q))) by (by rewrite list_lookup_imap, list_lookup_fmap, Hq).
    eexists. split; [exact E|]. rewrite (read_part_spec buf2 (d_data dr)) by (done || lia). cbv zeta.
    pose proof (unused_spec (entry (d_data dr) i) (bytes_ok_slice _ _ _ Hby)) as Hu. destruct (unused_b _); split; intros Hx; naive_solver.
  - intros Hns. unfold read_parts. rewrite !Hat by lia. unfold signed in Hns.
    destruct (Z.eqb_spec (d_data dr !!! 510%nat) 85), (Z.eqb_spec (d_data dr !!! 511%nat) 170); try (by exfalso; apply Hns); cbn [negb orb];
      apply Forall_fmap, Forall_forall; done.
Qed.

(** * Identifying a drive *)

Section Init.
Context {H : Type} `{IO : IoPorts H} (view : H → nat → ctl) (busy : H → nat → nat) (chs : list ide_channel_t) (patience : nat).
Context `{Bus : !AtaBus view busy chs patience} (uninit : Z).
(** A port access takes at most one tick of the timer. *)
Context (slow : ∀ h p, 0 <= ticks (inb h p).1 - ticks h <= 1).

Lemma read_reg_ticks ch h reg : high_reg reg = false → 0 <= ticks (ata_read_reg uninit ch h reg).1 - ticks h <= 1.
Proof using slow. intros Hr. unfold ata_read_reg, with_control. rewrite Hr. destruct (reg_port ch reg); [apply slow|cbn; lia]. Qed.

Lemma wait_ticks ch h : 0 <= ticks (ata_wait uninit ch h) - ticks h <= 4.
Proof using slow.
  unfold ata_wait. pose proof (λ x, read_reg_ticks ch x ATA_REG_ALTSTATUS eq_refl) as Ht. cbv zeta.
  pose proof (Ht h). set (h1 := (ata_read_reg uninit ch h _).1) in *. pose proof (Ht h1). set (h2 := (ata_read_reg uninit ch h1 _).1) in *.
  pose proof (Ht h2). set (h3 := (ata_read_reg uninit ch h2 _).1) in *. pose proof (Ht h3). lia.
Qed.

Lemma control_quiet c ch h v : chs !! c = Some ch → v = 0 ∨ v = 2 → quiet view busy h (ata_write_reg ch h ATA_REG_CONTROL v).
Proof using Bus.
  intros Hch Hv. unfold ata_write_reg, with_control, out_reg, reg_port. cbn. unfold ATA_REG_CONTROL.
  replace (ch_ctrl ch + 12 - 10) with (ch_ctrl ch + 2) by lia. by apply (bus_control view busy h c).
Qed.

Section Channel.
Context (c : nat) (ch : ide_channel_t) (Hch : chs !! c = Some ch).

(** Waiting for the identification; the status was read before. *)
Lemma identify_wait_spec fuel h st l begin : is_Some (selected (view h c)) → c_phase (view h c) = DataIn l →
  flag st ATA_SR_ERR = false → (flag st ATA_SR_BSY = true ∨ flag st ATA_SR_BSY = false ∧ flag st ATA_SR_DRQ = true ∧ busy h c = 0%nat) →
  let k := if flag st ATA_SR_BSY then S (busy h c) else busy h c in
  (k < fuel)%nat → 0 <= ticks h - begin → ticks h - begin + 5 * Z.of_nat k <= 5000 →
  ∃ h', identify_wait uninit fuel ch h st begin = Ret (h', Some false) ∧ busy h' c = 0%nat ∧ quiet view busy h h'.
Proof using Bus Hch slow.
  intros [d Hd] Hp. revert h st Hd Hp. induction fuel as [|fuel IH]; intros h st Hd Hp He Hst k Hf Ht0 Ht; [lia|]. cbn [identify_wait].
  rewrite u32_small, (proj2 (Z.ltb_ge _ _)), He by lia. subst k. destruct Hst as [HB|(HB & HD & Hb)]; rewrite HB in *.
  2: { rewrite HD. cbn. exists h. split; [done|]. split; [done|by apply quiet_refl]. }
  cbn [negb andb]. pose proof (status_spec view busy chs patience uninit c ch Hch h) as Hs. pose proof (read_reg_ticks ch h ATA_REG_STATUS eq_refl) as T1.
  destruct (ata_read_reg uninit ch h ATA_REG_STATUS) as [h1 st1]. cbn [fst] in T1. destruct Hs as [Hq Hs]. rewrite Hd in Hs.
  pose proof (wait_quiet view busy chs patience uninit c ch Hch h1) as Hw. pose proof (wait_ticks ch h1) as T2. set (h2 := ata_wait uninit ch h1) in *.
  pose proof (quiet_trans view busy _ _ _ Hq Hw) as Hq2. destruct (Hq2 c) as [Ev El]. destruct (Hw c) as [_ El2].
  assert (Hne : c_phase (view h c) ≠ Idle) by (by rewrite Hp). case_decide as Hb.
  - destruct Hs as (B1 & D1 & E1). rewrite bool_decide_eq_true_2 in D1 by done.
    destruct (IH h2 st1) as (h' & Hrun & Hb' & Hq'); [by rewrite Ev|by rewrite Ev|by apply E1|right; split; [done|split; [done|lia]]|rewrite B1; lia|lia|rewrite B1; lia|].
    exists h'. rewrite Hrun. split; [done|]. split; [done|by eapply quiet_trans].
  - destruct Hs as (Hlt & B1 & E1).
    destruct (IH h2 st1) as (h' & Hrun & Hb' & Hq'); [by rewrite Ev|by rewrite Ev|done|by left|rewrite B1; lia|lia|rewrite B1; lia|].
    exists h'. rewrite Hrun. split; [done|]. split; [done|by eapply quiet_trans].
Qed.

(** Selecting one of the two drives. *)
Lemma select_spec h (b : bool) : busy h c = 0%nat → c_phase (view h c) = Idle →
  let h' := ata_select_drive uninit ch h (if b then 1 else 0) in
  c_phase (view h' c) = Idle ∧ busy h' c = 0%nat ∧ slave_bit (view h' c) = b ∧ (∀ b', drive_at (view h' c) b' = drive_at (view h c) b')
  ∧ others view busy c h h'.
Proof using Bus Hch.
  intros Hb Hp. unfold ata_select_drive. set (v := u8 _). assert (Hv : 0 <= v < 256 ∧ Z.testbit v 4 = b) by (destruct b; vm_compute; repeat split; discriminate).
  destruct (write_reg_spec view busy chs patience c ch Hch h ATA_REG_HDDEVSEL v) as (V1 & B1 & O1); [done|by apply Hv|done|done|].
  set (h1 := ata_write_reg ch h ATA_REG_HDDEVSEL v) in *. destruct (wait_idle view busy chs patience uninit c ch Hch h1 B1) as (V2 & B2 & O2).
  cbv zeta. rewrite V2, V1. split; [done|]. split; [done|]. split; [by apply Hv|]. split; [by intros []|by eapply others_trans].
Qed.

Lemma flag_nonzero st bit : flag st bit = true → st ≠ 0.
Proof using. unfold flag. intros Hf ->. by rewrite Z.land_0_l in Hf. Qed.

(** The identification of the selected drive. *)
Lemma identify_spec fuel h : busy h c = 0%nat → c_phase (view h c) = Idle → (patience + 1 < fuel)%nat → (patience <= 900)%nat →
  (∀ d, selected (view h c) = Some d → length (d_ident d) = 512%nat) →
  ∃ h', ata_identify_device uninit fuel ch h = Ret (h', (λ d, (ATA_TYPE_ATA, d_ident d)) <$> selected (view h c))
    ∧ c_phase (view h' c) = Idle ∧ busy h' c = 0%nat ∧ (∀ b, drive_at (view h' c) b = drive_at (view h c) b) ∧ others view busy c h h'.
Proof using Bus Hch slow.
  intros Hb Hp Hf Hpat Hid. unfold ata_identify_device.
  destruct (command_spec view busy chs patience uninit c ch Hch h ATA_CMD_IDENTIFY Hb Hp) as (V1 & B1 & O1). set (h1 := ata_wait _ _ _) in *.
  pose proof (status_spec view busy chs patience uninit c ch Hch h1) as Hs.
  destruct (ata_read_reg uninit ch h1 ATA_REG_STATUS) as [h2 st]. destruct Hs as [Hq Hs].
  assert (Hsel : selected (view h1 c) = selected (view h c)) by (by rewrite V1). rewrite Hsel in Hs. destruct (Hq c) as [Ev El].
  pose proof (others_trans view busy _ _ _ _ O1 (quiet_others view busy c _ _ Hq)) as O2.
  destruct (selected (view h c)) as [d|] eqn:Ed.
  2: { subst st. cbn [Z.eqb]. exists h2. split; [done|]. rewrite Ev, V1. specialize (B1 eq_refl). unfold start. rewrite Ed.
       split; [done|]. split; [lia|]. split; [by intros []|done]. }
  specialize (Hid d eq_refl). assert (Hin : start (view h c) ATA_CMD_IDENTIFY = DataIn (d_ident d)).
  { unfold start. rewrite Ed. cbv zeta. change (ATA_CMD_IDENTIFY =? ATA_CMD_READ_SECTORS) with false. change (ATA_CMD_IDENTIFY =? ATA_CMD_WRITE_SECTORS) with false.
    rewrite !andb_false_r. done. }
  rewrite Hin in V1. assert (Hp1 : c_phase (view h1 c) = DataIn (d_ident d)) by (by rewrite V1). assert (Hne : c_phase (view h1 c) ≠ Idle) by (by rewrite Hp1).
  assert (Hst : st ≠ 0 ∧ flag st ATA_SR_ERR = false ∧ (flag st ATA_SR_BSY = true ∨ flag st ATA_SR_BSY = false ∧ flag st ATA_SR_DRQ = true ∧ busy h2 c = 0%nat)).
  { case_decide as Hb1.
    - destruct Hs as (HB & HD & HE). rewrite bool_decide_eq_true_2 in HD by done. split; [by eapply flag_nonzero|]. split; [by apply HE|]. right. split; [done|]. split; [done|]. lia.
    - destruct Hs as (_ & HB & HE). split; [by eapply flag_nonzero|]. by split; [|left]. }
  destruct Hst as (Hst0 & HE & Hst). rewrite (proj2 (Z.eqb_neq _ _) Hst0). pose proof (bus_patience view busy h2 c) as Hpt.
  destruct (identify_wait_spec fuel h2 st (d_ident d) (ticks h2)) as (h3 & -> & B3 & Hq3); [rewrite Ev, V1; by exists d|by rewrite Ev|done|done|destruct (flag _ _); lia|lia|destruct (flag _ _); lia|].
  cbn [obind]. destruct (read_block_spec view busy chs patience c ch Hch 0 h3 (d_ident d)) as (h4 & -> & V4 & B4 & O4); [done|by rewrite (quiet_view _ _ _ _ c Hq3), Ev|lia|].
  exists h4. rewrite take_ge by lia. split; [done|]. rewrite V4, (quiet_view _ _ _ _ c Hq3), Ev, V1. split; [done|]. split; [by apply B4|].
  split; [by intros []|]. eauto using others_trans, quiet_others.
Qed.
End Channel.

(** * All places *)

Context (h0 : H).

Definition drives_ok : Prop := ∀ c b d, (c < 2)%nat → drive_at (view h0 c) b = Some d →
  length (d_ident d) = 512%nat ∧ (512 <= length (d_data d))%nat ∧ bytes_ok (d_data d).

(** The driver and the bus after the drives [acc] were found. *)
Record found_so_far (w : ide H) (acc : list (nat * bool * drive)) : Prop := {
  fs_chs : ide_channel w = chs;
  fs_len : length (ide_device w) = 4%nat;
  fs_parts : Forall (λ d, length (dev_part d) = 5%nat) (ide_device w);
  fs_buf : (512 <= length (ide_buffer w))%nat;
  fs_idle : ∀ c, (c < 2)%nat → c_phase (view (hw w) c) = Idle ∧ busy (hw w) c = 0%nat;
  fs_drives : ∀ c b, (c < 2)%nat → drive_at (view (hw w) c) b = drive_at (view h0 c) b;
  fs_found : ∀ i c b d, acc !! i = Some (c, b, d) → ∃ dev, ide_device w !! i = Some dev ∧ describes d c b dev;
  fs_rest : ∀ i dev, (length acc <= i)%nat → ide_device w !! i = Some dev → dev_exist dev = 0;
}.

Definition drive_list (c : nat) (b : bool) : list (nat * bool * drive) :=
  match drive_at (view h0 c) b with Some d => [(c, b, d)] | None => [] end.

(** The bus part of the invariant, after accesses to channel [c]. *)
Lemma bus_keep (w : ide H) acc h c : found_so_far w acc → (c < 2)%nat → c_phase (view h c) = Idle → busy h c = 0%nat →
  (∀ b, drive_at (view h c) b = drive_at (view (hw w) c) b) → others view busy c (hw w) h →
  (∀ c, (c < 2)%nat → c_phase (view h c) = Idle ∧ busy h c = 0%nat) ∧ ∀ c b, (c < 2)%nat → drive_at (view h c) b = drive_at (view h0 c) b.
Proof using.
  intros Hi Hc Hp Hb Hd Ho. split; intros c' *; [intros Hc'|intros Hc']; destruct (decide (c' = c)) as [->|Hne]; try done.
  - destruct (Ho c' Hne) as [-> Hl]. destruct (fs_idle _ _ Hi c' Hc') as [? ?]. split; [done|lia].
  - rewrite Hd. by apply (fs_drives _ _ Hi).
  - destruct (Ho c' Hne) as [-> _]. by apply (fs_drives _ _ Hi).
Qed.

Lemma rest_insert (l : list ide_device_t) k d i dev : (∀ i dev, (k <= i)%nat → l !! i = Some dev → dev_exist dev = 0) → (k < length l)%nat →
  (k < i)%nat ∨ (k <= i)%nat ∧ dev_exist d = 0 → <[k := d]> l !! i = Some dev → dev_exist dev = 0.
Proof using.
  intros Hr Hk Hi Hdev. destruct (decide (i = k)) as [->|Hne].
  - rewrite list_lookup_insert_eq in Hdev by done. injection Hdev as <-. destruct Hi as [?|[_ ?]]; [lia|done].
  - rewrite list_lookup_insert_ne in Hdev by done. apply (Hr i); [lia|done].
Qed.

(** The invariant with another device at the next place. *)
Lemma found_keep w acc d h buf : found_so_far w acc → (length acc < 4)%nat → length (dev_part d) = 5%nat → (512 <= length buf)%nat →
  (∀ c, (c < 2)%nat → c_phase (view h c) = Idle ∧ busy h c = 0%nat) → (∀ c b, (c < 2)%nat → drive_at (view h c) b = drive_at (view h0 c) b) →
  (dev_exist d = 0 → found_so_far (mk_ide chs (<[length acc := d]> (ide_device w)) buf h) acc)
  ∧ ∀ c b dr, describes dr c b d → found_so_far (mk_ide chs (<[length acc := d]> (ide_device w)) buf h) (acc ++ [(c, b, dr)]).
Proof using.
  intros Hi Hlt Hp Hb Hidle Hdr. pose proof (fs_len _ _ Hi) as Hlen. pose proof (fs_parts _ _ Hi) as Hparts.
  assert (Hp' : Forall (λ d, length (dev_part d) = 5%nat) (<[length acc := d]> (ide_device w))) by (by apply Forall_insert).
  split.
  - intros He. split; cbn [ide_channel ide_device ide_buffer hw]; try done; [by rewrite length_insert| |].
    + intros i c b dr Hacc. rewrite list_lookup_insert_ne; [by apply (fs_found _ _ Hi)|]. apply lookup_lt_Some in Hacc. lia.
    + intros i dev Hle. apply rest_insert; [apply (fs_rest _ _ Hi)|lia|by right].
  - intros c b dr Hde. split; cbn [ide_channel ide_device ide_buffer hw]; try done; [by rewrite length_insert| |].
    + intros i c' b' dr' Hacc. rewrite lookup_snoc_Some in Hacc. destruct Hacc as [[Hi' Hacc]|[-> Hacc]].
      * rewrite list_lookup_insert_ne by lia. by apply (fs_found _ _ Hi).
      * injection Hacc as <- <- <-. exists d. split; [|done]. apply list_lookup_insert_eq. lia.
    + intros i dev. rewrite length_app. cbn. intros Hle. apply rest_insert; [apply (fs_rest _ _ Hi)|lia|left; lia].
Qed.

Context (n fuel : nat) (Hn : (1 <= n)%nat) (Hfuel : (patience + 1 < fuel)%nat) (Hpat : (patience <= 900)%nat) (Hchs : length chs = 2%nat).

Lemma probe_spec w acc c b : drives_ok → found_so_far w acc → (length acc < 4)%nat → (c < 2)%nat →
  ∃ w', probe uninit n fuel w (length acc) (Z.of_nat c) (if (b : bool) then 1 else 0) = Ret (w', length (acc ++ drive_list c b))
    ∧ found_so_far w' (acc ++ drive_list c b).
Proof using Bus Hn Hfuel Hpat Hchs slow.
  intros Hok Hi Hlt Hc. pose proof (fs_len _ _ Hi) as Hlen. destruct (lookup_lt_is_Some_2 (ide_device w) (length acc) ltac:(lia)) as [old Hold].
  destruct (lookup_lt_is_Some_2 chs c ltac:(lia)) as [ch Hch]. destruct (fs_idle _ _ Hi c Hc) as [Hp Hb]. pose proof (fs_buf _ _ Hi) as Hbuf.
  assert (Hold5 : length (dev_part (absent old)) = 5%nat) by (by apply (Forall_lookup_1 _ _ _ _ (fs_parts _ _ Hi) Hold)).
  unfold probe. rewrite Hold, (fs_chs _ _ Hi), Nat2Z.id, Hch. cbn [or_halt obind hw set_device].
  destruct (select_spec c ch Hch (hw w) b Hb Hp) as (P1 & B1 & S1 & D1 & O1). set (h1 := ata_select_drive _ _ _ _) in *.
  assert (Hsel : selected (view h1 c) = drive_at (view h0 c) b) by (unfold selected; rewrite S1, D1; by apply (fs_drives _ _ Hi)).
  destruct (identify_spec c ch Hch fuel h1 B1 P1 Hfuel Hpat) as (h2 & -> & P2 & B2 & D2 & O2).
  { intros d Hd. rewrite Hsel in Hd. by apply (Hok c b). }
  cbn [obind]. rewrite Hsel. unfold drive_list. destruct (bus_keep w acc h2 c Hi Hc P2 B2) as [I2 V2]; [intros b'; by rewrite D2|by eapply others_trans|].
  destruct (drive_at (view h0 c) b) as [d|] eqn:Ed; cbn [fmap option_fmap option_map].
  2: { rewrite app_nil_r. eexists. split; [done|]. unfold set_hw, set_device. cbn [ide_channel ide_device ide_buffer hw]. rewrite (fs_chs _ _ Hi).
       by apply (found_keep w acc (absent old) h2 (ide_buffer w)). }
  destruct (Hok c b d Hc Ed) as (Hid & Hda & Hby). cbn [Z.eqb]. unfold set_hw, set_device, set_buffer. cbn [ide_channel ide_device ide_buffer hw].
  destruct (pio_read_spec view busy chs patience uninit c ch Hch n fuel h2 (if b then 1 else 0) d 0 1 []) as (h3 & Hrun & P3 & B3 & D3 & O3);
    try done; try lia; [by destruct b; [right|left]| |rewrite sent_lba_small by lia; lia|].
  { rewrite V2 by done. by destruct b. }
  change (u8 1) with 1 in Hrun. rewrite Hrun. cbn [obind]. change (sent_lba 0) with 0. cbn [is_zero Z.eqb].
  rewrite length_app. cbn [length]. rewrite Nat.add_1_r. eexists. split; [done|]. rewrite !list_insert_insert_eq, (fs_chs _ _ Hi).
  destruct (bus_keep w acc h3 c Hi Hc P3 B3) as [I3 V3]; [intros b'; by rewrite D3, D2|by eauto using others_trans|].
  pose proof (found_describes d c b (absent old) (ide_buffer w) Hid Hda Hby Hold5 Hbuf) as Hde. cbv zeta in Hde.
  apply (found_keep w acc _ h3 _ Hi Hlt (de_parts _ _ _ _ Hde)); [rewrite !length_inserts; done|done|done|exact Hde].
Qed.
End Init.

Section Initialize.
Context {H : Type} `{IO : IoPorts H} (view : H → nat → ctl) (busy : H → nat → nat) (chs : list ide_channel_t) (patience : nat).
Context `{Bus : !AtaBus view busy chs patience} (uninit : Z).
Context (slow : ∀ h p, 0 <= ticks (inb h p).1 - ticks h <= 1).
Context (n fuel : nat) (Hn : (1 <= n)%nat) (Hfuel : (patience + 1 < fuel)%nat) (Hpat : (patience <= 900)%nat).

(** The drives of the machine in the order of the search. *)
Definition drives_of (h : H) : list (nat * bool * drive) :=
  drive_list view h 0 false ++ drive_list view h 0 true ++ drive_list view h 1 false ++ drive_list view h 1 true.

Lemma drive_list_length h c b : (length (drive_list view h c b) <= 1)%nat.
Proof using. clear. unfold drive_list. destruct (drive_at _ _); cbn; lia. Qed.

Lemma initialize_run w bar c0 c1 : ide_channel w = [c0; c1] → chs = [(bar_channels bar c0 c1).1; (bar_channels bar c0 c1).2] →
  length (ide_device w) = 4%nat → Forall (λ d, length (dev_part d) = 5%nat) (ide_device w) → (512 <= length (ide_buffer w))%nat →
  (∀ c, (c < 2)%nat → c_phase (view (hw w) c) = Idle ∧ busy (hw w) c = 0%nat) → drives_ok view (hw w) →
  ∃ w', ide_initialize uninit n fuel w (Some bar) = Ret (w', length (drives_of (hw w))) ∧ found_so_far view busy chs (hw w) w' (drives_of (hw w)).
Proof using Bus Hn Hfuel Hpat slow.
  intros Hch Hchs Hlen Hparts Hbuf Hidle Hok. unfold ide_initialize. rewrite Hch. cbn [or_halt obind lookup list_lookup].
  destruct (bar_channels bar c0 c1) as [a b]. cbn [fst snd] in Hchs. assert (Ha : chs !! 0%nat = Some a) by (by rewrite Hchs). assert (Hb : chs !! 1%nat = Some b) by (by rewrite Hchs).
  pose proof (λ h v, control_quiet view busy chs patience 0%nat a h v Ha) as Qa. pose proof (λ h v, control_quiet view busy chs patience 1%nat b h v Hb) as Qb.
  pose proof (Qa (hw w) 0 (or_introl eq_refl)) as Q1. set (h1 := ata_write_reg a (hw w) _ _) in *. pose proof (Qb h1 0 (or_introl eq_refl)) as Q2. set (h2 := ata_write_reg b h1 _ _) in *.
  pose proof (Qa h2 2 (or_intror eq_refl)) as Q3. set (h3 := ata_write_reg a h2 _ _) in *. pose proof (Qb h3 2 (or_intror eq_refl)) as Q4. set (h4 := ata_write_reg b h3 _ _) in *.
  assert (Hq : quiet view busy (hw w) h4) by eauto using quiet_trans. rewrite <- Hchs. set (w0 := mk_ide chs _ _ h4).
  assert (I0 : found_so_far view busy chs (hw w) w0 []).
  { split; cbn [w0 ide_channel ide_device ide_buffer hw]; try done.
    - by rewrite length_fmap.
    - apply Forall_fmap. by eapply Forall_impl.
    - intros c Hc. destruct (Hq c) as [-> Hl]. destruct (Hidle c Hc). split; [done|lia].
    - intros c b' Hc. by destruct (Hq c) as [-> _].
    - intros i dev _ Hd. rewrite list_lookup_fmap in Hd. destruct (ide_device w !! i); [|done]. by injection Hd as <-. }
  assert (HL : length chs = 2%nat) by (by rewrite Hchs). pose proof (drive_list_length (hw w)) as D.
  destruct (probe_spec view busy chs patience uninit slow (hw w) n fuel Hn Hfuel Hpat HL w0 [] 0%nat false Hok I0) as (w1 & E1 & I1); [cbn; lia|lia|].
  change (probe uninit n fuel w0 0 0 0 = Ret (w1, length (drive_list view (hw w) 0 false))) in E1. rewrite E1. cbn [obind app] in *. pose proof (D 0%nat false).
  destruct (probe_spec view busy chs patience uninit slow (hw w) n fuel Hn Hfuel Hpat HL w1 _ 0%nat true Hok I1) as (w2 & E2 & I2); [lia|lia|].
  change (Z.of_nat 0) with 0 in E2. rewrite E2. cbn [obind]. pose proof (D 0%nat true).
  destruct (probe_spec view busy chs patience uninit slow (hw w) n fuel Hn Hfuel Hpat HL w2 _ 1%nat false Hok I2) as (w3 & E3 & I3); [rewrite length_app; lia|lia|].
  change (Z.of_nat 1) with 1 in E3. rewrite E3. cbn [obind]. pose proof (D 1%nat false).
  destruct (probe_spec view busy chs patience uninit slow (hw w) n fuel Hn Hfuel Hpat HL w3 _ 1%nat true Hok I3) as (w4 & E4 & I4); [rewrite !length_app; lia|lia|].
  change (Z.of_nat 1) with 1 in E4. rewrite E4. exists w4. unfold drives_of. rewrite !app_assoc. done.
Qed.

(** C16: the search for drives: on any two channels with idle ATA drives,
    [ide_initialize] returns and lists exactly the drives that are there, in
    the order primary master, primary slave, secondary master, secondary slave.
    Each entry has the channel, the place on it and the size from the
    identification; with a signed boot sector partition 0 is the whole drive
    and partition [i + 1] is what entry [i] of the partition table says, unused
    entries marked; without one no partition is usable.  The other entries are
    marked as absent, the channels are idle again and no drive has changed. *)
Theorem ide_initialize_finds w bar c0 c1 : ide_channel w = [c0; c1] → chs = [(bar_channels bar c0 c1).1; (bar_channels bar c0 c1).2] →
  length (ide_device w) = 4%nat → Forall (λ d, length (dev_part d) = 5%nat) (ide_device w) → (512 <= length (ide_buffer w))%nat →
  (∀ c, (c < 2)%nat → c_phase (view (hw w) c) = Idle ∧ busy (hw w) c = 0%nat) → drives_ok view (hw w) →
  ∃ w', ide_initialize uninit n fuel w (Some bar) = Ret (w', length (drives_of (hw w))) ∧ ide_channel w' = chs
    ∧ (∀ i c b d, drives_of (hw w) !! i = Some (c, b, d) → ∃ dev, ide_device w' !! i = Some dev ∧ describes d c b dev)
    ∧ (∀ i dev, (length (drives_of (hw w)) <= i)%nat → ide_device w' !! i = Some dev → dev_exist dev = 0)
    ∧ ∀ c b, (c < 2)%nat → drive_at (view (hw w') c) b = drive_at (view (hw w) c) b ∧ c_phase (view (hw w') c) = Idle ∧ busy (hw w') c = 0%nat.
Proof using Bus Hn Hfuel Hpat slow.
  intros Hch Hchs Hlen Hparts Hbuf Hidle Hok. destruct (initialize_run w bar c0 c1) as (w' & Hrun & Hf); [done..|].
  exists w'. split; [done|]. split; [apply Hf|]. split; [apply Hf|]. split; [apply Hf|]. intros c b Hc. split; [by apply Hf|by apply (fs_idle _ _ _ _ _ _ Hf)].
Qed.
End Initialize.
