(* ===== verification/AtaDemo.v ===== *)
(** A machine with two channels that meets [AtaBus], a small drive on it, and
    the ATA driver running there. *)

From S2P Require Import Prelude Bytes Block Ata AtaBus AtaTransfer AtaDriver AtaInit.

(** * The machine *)

(** Two channels and whether each is working; it is for one read of the status
    after a command and after every sector but the last that is read. *)
Record machine := mk_machine { m_prim : ctl; m_sec : ctl; w_prim : bool; w_sec : bool }.

Definition no_channel : ctl := mk_ctl 0 0 0 0 0 Idle None None.
Definition m_view (m : machine) (c : nat) : ctl := match c with 0 => m_prim m | 1 => m_sec m | _ => no_channel end%nat.
Definition m_works (m : machine) (c : nat) : bool := match c with 0 => w_prim m | 1 => w_sec m | _ => false end%nat.
Definition m_busy (m : machine) (c : nat) : nat := if m_works m c then 1 else 0.

Definition m_set (m : machine) (c : nat) (x : ctl) (b : bool) : machine :=
  match c with 0 => mk_machine x (m_sec m) b (w_sec m) | 1 => mk_machine (m_prim m) x (w_prim m) b | _ => m end%nat.

(** The channel and the register of a port. *)
Definition decode (p : Z) : option (nat * Z) :=
  if (496 <=? p) && (p <? 504) then Some (0%nat, p - 496)
  else if (368 <=? p) && (p <? 376) then Some (1%nat, p - 368)
  else None.

Definition m_inb (m : machine) (p : Z) : machine * Z :=
  match decode p with
  | Some (c, 7) =>
      match selected (m_view m c) with
      | None => (m, 0)
      | Some _ => if m_works m c then (m_set m c (m_view m c) false, 128)
                  else (m, if bool_decide (c_phase (m_view m c) = Idle) then 64 else 72)
      end
  | _ => (m, 0)
  end.

Definition m_outb (m : machine) (p v : Z) : machine :=
  match decode p with
  | Some (c, r) =>
      let x := m_view m c in
      if r =? 7 then m_set m c (set_phase (start x v) x) (match selected x with Some _ => true | None => m_works m c end)
      else m_set m c (set_reg r v x) (m_works m c)
  | None => m
  end.

Definition m_inl (m : machine) (p : Z) : machine * list Z :=
  match decode p with
  | Some (c, _) =>
      match c_phase (m_view m c) with
      | DataIn l => (m_set m c (set_phase (after_in l) (m_view m c)) (bool_decide (drop 4 l ≠ [] ∧ (length (drop 4 l) mod 512 = 0)%nat)), take 4 l)
      | _ => (m, [0; 0; 0; 0])
      end
  | None => (m, [0; 0; 0; 0])
  end.

Definition m_outl (m : machine) (p : Z) (w : list Z) : machine :=
  match decode p with
  | Some (c, _) =>
      match c_phase (m_view m c) with
      | DataOut pos n got => m_set m c (after_out pos n (got ++ w) (m_view m c)) (bool_decide (512 <= length (got ++ w))%nat)
      | _ => m
      end
  | None => m
  end.

#[global] Instance machine_ports : IoPorts machine := {
  inb := m_inb; outb := m_outb; inl := m_inl; outl := m_outl; ticks := λ _, 0;
}.

Definition demo_channels : list ide_channel_t := [mk_channel 496 1014 0 0; mk_channel 368 886 8 0].

Lemma m_view_set m c x b c' : (c < 2)%nat → m_view (m_set m c x b) c' = if decide (c' = c) then x else m_view m c'.
Proof. intros Hc. destruct c as [|[|]], c' as [|[|]]; try lia; try done; case_decide; try lia; done. Qed.

Lemma m_busy_set m c x b c' : (c < 2)%nat → m_busy (m_set m c x b) c' = if decide (c' = c) then (if b then 1 else 0)%nat else m_busy m c'.
Proof. intros Hc. unfold m_busy. destruct c as [|[|]], c' as [|[|]]; try lia; try done; case_decide; try lia; done. Qed.

Lemma m_others m c x b : (c < 2)%nat → others m_view m_busy c m (m_set m c x b).
Proof. intros Hc c' Hne. rewrite m_view_set, m_busy_set, !decide_False by done. done. Qed.

Lemma m_quiet m : quiet m_view m_busy m m.
Proof. by intros c. Qed.

(** The ports of the channels. *)
Lemma demo_ports c ch : demo_channels !! c = Some ch →
  (c < 2)%nat ∧ (∀ r, 0 <= r <= 7 → decode (u16 (ch_base ch + r)) = Some (c, r)) ∧ decode (u16 (ch_base ch)) = Some (c, 0) ∧ decode (u16 (ch_ctrl ch + 2)) = None.
Proof.
  intros Hc. assert (Hr : ∀ b r, 0 <= b <= 60000 → 0 <= r <= 7 → u16 (b + r) = b + r) by (intros; apply u16_small; lia).
  destruct c as [|[|]]; [| |done]; injection Hc as <-; cbn [ch_base ch_ctrl]; (split; [lia|]); (split; [|by vm_compute]); intros r Hr'; rewrite Hr by lia; unfold decode.
  - rewrite (proj2 (Z.leb_le _ _)), (proj2 (Z.ltb_lt _ _)) by lia. cbn [andb]. f_equal. f_equal. lia.
  - rewrite (proj2 (Z.leb_gt 496 _)) by lia. cbn [andb]. rewrite (proj2 (Z.leb_le _ _)), (proj2 (Z.ltb_lt _ _)) by lia. cbn [andb]. f_equal. f_equal. lia.
Qed.

Lemma not_works m c : m_busy m c = 0%nat → m_works m c = false.
Proof. unfold m_busy. by destruct (m_works m c). Qed.

#[global] Instance demo_bus : AtaBus m_view m_busy demo_channels 1.
Proof.
  constructor.
  - intros m c. unfold m_busy. destruct (m_works m c); lia.
  - intros m c ch Hc. destruct (demo_ports c ch Hc) as (_ & _ & _ & Hd). cbn [inb machine_ports]. unfold m_inb. rewrite Hd. apply m_quiet.
  - intros m c ch v Hc _. destruct (demo_ports c ch Hc) as (_ & _ & _ & Hd). cbn [outb machine_ports]. unfold m_outb. rewrite Hd. apply m_quiet.
  - intros m c ch Hc. destruct (demo_ports c ch Hc) as (_ & Hd & _). cbn [inb machine_ports]. unfold m_inb. rewrite Hd by lia. apply m_quiet.
  - intros m c ch Hc. destruct (demo_ports c ch Hc) as (Hlt & Hd & _). cbn [inb machine_ports]. unfold m_inb. rewrite Hd by lia.
    destruct (selected (m_view m c)) as [d|] eqn:Es; [|split; [apply m_quiet|done]]. destruct (m_works m c) eqn:Ew.
    + split.
      * intros c'. rewrite m_view_set, m_busy_set by done. case_decide as E; [subst c'; split; [done|lia]|done].
      * assert (m_busy m c = 1%nat) as Hb by (unfold m_busy; by rewrite Ew). rewrite decide_False by lia. rewrite m_busy_set, decide_True by done. split; [lia|done].
    + split; [apply m_quiet|]. assert (m_busy m c = 0%nat) as Hb by (unfold m_busy; by rewrite Ew). rewrite decide_True by done.
      destruct (decide (c_phase (m_view m c) = Idle)) as [E|E].
      * rewrite (bool_decide_eq_true_2 _ E), (bool_decide_eq_false_2 _ (λ f, f E)). done.
      * rewrite (bool_decide_eq_false_2 _ E), (bool_decide_eq_true_2 _ E). done.
  - intros m c ch r v Hc Hr Hv Hb Hp. destruct (demo_ports c ch Hc) as (Hlt & Hd & _). cbn [outb machine_ports]. unfold m_outb. rewrite Hd by lia.
    rewrite (proj2 (Z.eqb_neq _ _)) by lia. rewrite m_view_set, m_busy_set, !decide_True, (not_works _ _ Hb) by done. split; [done|]. split; [done|by apply m_others].
  - intros m c ch cmd Hc Hb Hp. destruct (demo_ports c ch Hc) as (Hlt & Hd & _). cbn [outb machine_ports]. unfold m_outb. rewrite Hd by lia.
    change (7 =? 7) with true. cbv iota zeta. rewrite m_view_set, m_busy_set, !decide_True, (not_works _ _ Hb) by done. split; [done|]. split; [by intros ->|by apply m_others].
  - intros m c ch l Hc Hb Hp. destruct (demo_ports c ch Hc) as (Hlt & _ & Hd & _). cbn [inl machine_ports]. unfold m_inl. rewrite Hd, Hp.
    rewrite m_view_set, m_busy_set, !decide_True by done. split; [done|]. split; [done|]. split; [|by apply m_others].
    intros Hx. rewrite bool_decide_eq_false_2 by naive_solver. done.
  - intros m c ch pos n got w Hc Hb Hp Hw. destruct (demo_ports c ch Hc) as (Hlt & _ & Hd & _). cbn [outl machine_ports]. unfold m_outl. rewrite Hd, Hp.
    rewrite m_view_set, m_busy_set, !decide_True by done. split; [done|]. split; [|by apply m_others].
    intros Hx. rewrite bool_decide_eq_false_2 by lia. done.
Qed.

Lemma demo_slow (h : machine) p : 0 <= ticks (inb h p).1 - ticks h <= 1.
Proof. cbn. lia. Qed.

(** * A drive of four sectors with one partition from sector 1 on *)

Definition demo_mbr : list Z := replicate 446 0 ++ [128; 0; 2; 0; 131; 0; 4; 0; 1; 0; 0; 0; 3; 0; 0; 0] ++ replicate 48 0 ++ [85; 170].
Definition demo_drive : drive :=
  mk_drive (replicate 120 0 ++ [4; 0; 0; 0] ++ replicate 388 0) (demo_mbr ++ replicate 512 1 ++ replicate 512 2 ++ replicate 512 3).
Definition demo_machine : machine := mk_machine (mk_ctl 0 0 0 0 0 Idle None (Some demo_drive)) no_channel false false.
Definition demo_device : ide_device_t :=
  mk_device 1 0 1 0 0 0 0 4 (replicate 41 0) [mk_part 1 0 4 0; mk_part 1 1 4 131; mk_part 0 0 0 0; mk_part 0 0 0 0; mk_part 0 0 0 0].
Definition no_device : ide_device_t := mk_device 0 0 0 0 0 0 0 0 (replicate 41 0) (replicate 5 (mk_part 0 0 0 0)).

Definition demo_ide : ide machine := mk_ide demo_channels [demo_device; no_device; no_device; no_device] (replicate 2048 0) demo_machine.
Definition fresh_ide : ide machine := mk_ide [mk_channel 0 0 0 0; mk_channel 0 0 0 0] (replicate 4 no_device) (replicate 2048 0) demo_machine.

Definition demo_kblock : kblock (W := ide machine) :=
  mk_kblock {[ 0 := mk_block_device (ide_block_operations 0 lib_minor 300 2) 512 255 0 (Some (replicate 512 0)) 0 ]} demo_ide.

Lemma demo_data_length : length (d_data demo_drive) = 2048%nat.
Proof. vm_compute. reflexivity. Qed.

Lemma demo_usable : usable m_view m_busy demo_channels demo_ide demo_device (mk_part 1 1 4 131) demo_drive.
Proof.
  unfold usable. cbn [lba_start lba_end p_valid]. rewrite demo_data_length. split_and!; try done; [by right|vm_compute; lia].
Qed.

(** A write of three bytes across the sectors 1 and 2 of the drive, and a read
    of four. *)
Lemma ide_partition_io_witness :
  let disk := list_inserts 1022 [7; 8; 9] (d_data demo_drive) in
  ∃ s1 s2, block_write lib_major lib_minor demo_kblock 16 510 3 [7; 8; 9] = Ret (s1, Ok 3)
    ∧ drive_of m_view (world s1) demo_device = Some (mk_drive (d_ident demo_drive) disk)
    ∧ (∀ c b, (c < 2)%nat → (c, b) ≠ (0%nat, true) → drive_at (m_view (hw (world s1)) c) b = None)
    ∧ block_read lib_major lib_minor s1 16 509 4 [0; 0; 0; 0] = Ret (s2, slice 1021 4 disk, Ok 4).
Proof.
  destruct (ide_partition_io m_view m_busy demo_channels 1 0 lib_minor lib_major 300 2 ltac:(lia) ltac:(lia) demo_kblock 16 255 demo_device (mk_part 1 1 4 131) demo_drive
    510 3 [7; 8; 9] 509 4 [0; 0; 0; 0]) as (s1 & s2 & Hw & Hd & Ho & Hr).
  - change (lib_major 16) with 0. eexists _, _. unfold demo_kblock. cbn [vfs_dev]. rewrite lookup_singleton_eq. by repeat split.
  - done.
  - reflexivity.
  - reflexivity.
  - apply demo_usable.
  - lia.
  - lia.
  - vm_compute. discriminate.
  - vm_compute. discriminate.
  - vm_compute. discriminate.
  - lia.
  - lia.
  - vm_compute. discriminate.
  - vm_compute. discriminate.
  - reflexivity.
  - exists s1, s2. split; [exact Hw|]. split; [exact Hd|]. split; [|exact Hr]. intros c b Hc Hne. rewrite Ho; [|exact Hc|exact Hne].
    clear - Hc Hne. destruct c as [|[|]]; [destruct b; [exfalso; apply Hne; reflexivity|reflexivity]|destruct b; reflexivity|lia].
Defined.

Lemma bytes_ok_of l : forallb (λ x, (0 <=? x) && (x <? 256)) l = true → bytes_ok l.
Proof.
  intros Hl i. rewrite list_lookup_total_alt. destruct (l !! i) as [x|] eqn:E; [|cbn; lia]. cbn. rewrite forallb_forall in Hl.
  specialize (Hl x). rewrite andb_true_iff, Z.leb_le, Z.ltb_lt in Hl. apply Hl, list_elem_of_In. by eapply list_elem_of_lookup_2.
Qed.

(** The drive, the slave of the primary channel, is found with its size and its
    partition. *)
Lemma ide_initialize_finds_witness : ∃ w' dev, ide_initialize 0 1 3 fresh_ide (Some (replicate 5 0)) = Ret (w', 1%nat) ∧ ide_device w' !! 0%nat = Some dev
  ∧ dev_size dev = 4 ∧ dev_drive dev = 1 ∧ dev_part dev !! 1%nat = Some (mk_part 1 1 4 131) ∧ (∀ i d, (1 <= i)%nat → ide_device w' !! i = Some d → dev_exist d = 0).
Proof.
  destruct (ide_initialize_finds m_view m_busy demo_channels 1 0 demo_slow 1 3 ltac:(lia) ltac:(lia) ltac:(lia) fresh_ide (replicate 5 0) (mk_channel 0 0 0 0) (mk_channel 0 0 0 0))
    as (w' & Hrun & _ & Hf & Hrest & _).
  - reflexivity.
  - reflexivity.
  - reflexivity.
  - repeat constructor.
  - vm_compute. lia.
  - intros c Hc. destruct c as [|[|]]; [by split..|lia].
  - intros c b d Hc Hd. destruct c as [|[|]], b; try lia; try discriminate Hd. injection Hd as <-. split; [vm_compute; reflexivity|].
    split; [rewrite demo_data_length; lia|]. apply bytes_ok_of. vm_compute. reflexivity.
  - destruct (Hf 0%nat 0%nat true demo_drive eq_refl) as (dev & Hdev & Hde). exists w', dev. split; [exact Hrun|]. split; [exact Hdev|].
    split; [rewrite (de_size _ _ _ _ Hde); vm_compute; reflexivity|]. split; [rewrite (de_drive _ _ _ _ Hde); reflexivity|].
    split; [|exact Hrest]. destruct (de_signed _ _ _ _ Hde) as [_ Hp]; [split; vm_compute; reflexivity|]. destruct (Hp 0%nat ltac:(lia)) as (q & Hq & _ & Hu).
    rewrite Hq. f_equal. rewrite Hu; [vm_compute; reflexivity|]. intros Hz. specialize (Hz 4%nat ltac:(lia) ltac:(lia)). vm_compute in Hz. discriminate Hz.
Defined.

(** * Faults *)

(** A drive without a boot signature cannot be used at all: the search marks
    even the whole drive as unusable. *)
Theorem ide_unpartitioned_unusable devid : disk_of lib_minor devid = 0%nat →
  ∀ buf d w, buf !!! 510%nat ≠ 85 → ide_device w !! 0%nat = Some (set_parts d (read_parts buf (dev_part d))) → ide_block_exist (H := machine) lib_minor w devid = false.
Proof.
  intros Hz buf d w Hs Hd. unfold ide_block_exist. rewrite Hz, Hd. cbn [dev_part set_parts dev_exist]. unfold read_parts.
  rewrite (proj2 (Z.eqb_neq _ _) Hs). cbn [negb orb]. rewrite list_lookup_fmap. destruct (dev_part d !! _); [|done]. cbn. by destruct (dev_exist d =? 0).
Qed.

(** The spaces behind the model name are never removed: the loop begins at the
    byte behind the forty of the name, which is not a space. *)
Theorem ide_model_not_trimmed : model_string (replicate 512 32) (replicate 41 0) = replicate 40 32 ++ [0].
Proof. vm_compute. reflexivity. Qed.
