(* ===== verification/Mount.v ===== *)
(** File-system types, mounting, unmounting and linking:
    [register_filesystem], [unregister_filesystem], [get_filesystem],
    [sys_mount], [sys_umount] and [sys_link] of [src/kernel/src/fs.c].

    [mtab] adds to the directory cache what only this code uses: the list of
    registered types, the list of all mounts, and the fields [m_point] of a
    mount and [s_fs] of a superblock.  The operations [read_super] and
    [put_super] of a type and [link] of an inode are parameters that work on
    the directory cache.  [pool] is the memory [kmalloc] has left. *)

From Stdlib Require Import Ascii.
From stdpp Require Import strings.
From S2P Require Import Prelude Dcache DcacheInv PathLookup File FdTable.

Definition FS_NODEV : Z := 1.
Definition FS_RDONLY : Z := 2.

Record filesystem := mk_filesystem { fs_name : string; fs_flags : Z; fs_slist : list Z }.

Section Mount.
Context {W : Type} (fs_put_inode : W → Z → Z → W) (root : Z) (fuel : nat).
Context (fs_find : W → Z → Z → string → result Z) (fs_read_inode : W → Z → Z → W * result iattr).
Context (MS_RDONLY MS_NOEXEC uid gid : Z).
Local Abbreviation vfs := (vfs (W := W)).
Context (fs_read_super : Z → vfs → Z → Z → Z → outcome (vfs * result unit)).      (* type, superblock, device, flags *)
Context (fs_put_super : Z → option (vfs → Z → outcome (vfs * result unit))).
Context (fs_link : inode → option (string → Z → W → W * iattr * result unit)).

Local Notation path_put := (path_put fs_put_inode fuel).
Local Notation path_lookup := (path_lookup fs_find fs_read_inode fs_put_inode MS_RDONLY MS_NOEXEC root uid gid fuel).

Record mtab := mk_mtab {
  mt_v : vfs;
  vfs_filesystem_list : list (Z * filesystem);
  vfs_mount_list : list Z;
  m_point : gmap Z Z;
  s_fs : gmap Z Z;
}.

Definition with_v (t : mtab) (s : vfs) : mtab := mk_mtab s (vfs_filesystem_list t) (vfs_mount_list t) (m_point t) (s_fs t).

(** * Types *)

Definition register_filesystem (t : mtab) (a : Z) (fs : filesystem) : mtab * result unit :=
  (mk_mtab (mt_v t) ((a, fs) :: vfs_filesystem_list t) (vfs_mount_list t) (m_point t) (s_fs t), Ok tt).

Definition unregister_filesystem (t : mtab) (a : Z) (fs : filesystem) : mtab * result unit :=
  if bool_decide (fs_slist fs ≠ []) then (t, Err EBUSY)
  else (mk_mtab (mt_v t) (filter (λ x, x.1 ≠ a) (vfs_filesystem_list t)) (vfs_mount_list t) (m_point t) (s_fs t), Ok tt).

Fixpoint find_filesystem (l : list (Z * filesystem)) (id : string) : result (Z * filesystem) :=
  match l with
  | [] => Err ENODEV
  | (a, fs) :: l => if String.eqb (fs_name fs) id then Ok (a, fs) else find_filesystem l id
  end.
Definition get_filesystem (t : mtab) (id : string) : result (Z * filesystem) := find_filesystem (vfs_filesystem_list t) id.

(** * Mounting *)

Definition with_mpoints (s : vfs) (x : gmap Z mountpoint) : vfs :=
  mk_vfs (inodes s) (dentries s) (supers s) (mounts s) x (pool s) (fsw s).
Definition set_dmp (mp : option Z) (e : dentry) : dentry := mk_dentry (d_name e) (d_inode e) (d_ref e) (d_parent e) (d_children e) mp.

(** A device, or a type without one, is mounted at most once. *)
Fixpoint mount_busy (t : mtab) (s : vfs) (l : list Z) (fa device : Z) : outcome bool :=
  match l with
  | [] => Ret false
  | m :: l =>
      x <~ or_halt (mounts s !! m) ;;
      b <~ or_halt (supers s !! m_super x) ;;
      if device =? 0 then
        if (s_dev b =? 0) && bool_decide (s_fs t !! m_super x = Some fa) then Ret true else mount_busy t s l fa device
      else if s_dev b =? device then Ret true else mount_busy t s l fa device
  end.

(** The errors behind [read_super]: the type takes its superblock back. *)
Definition mount_undo (t : mtab) (s : vfs) (target : path) (fa super : Z) : outcome (mtab * result unit) :=
  s <~ path_put s target ;;
  s <~ match fs_put_super fa with Some put => '(s, _) <~ put s super ;; Ret s | None => Ret s end ;;
  Ret (with_v t (with_supers s (delete super (supers s))), Err ENOMEM).

(** The new mount, on top of the mount point [mp]. *)
Definition mount_attach (t : mtab) (s : vfs) (target : path) (fa super mp flags : Z) : outcome (mtab * result unit) :=
  b <~ or_halt (supers s !! super) ;;
  r <~ or_halt (dentries s !! s_root b) ;;
  let s := with_dentries s (<[s_root b := set_dmp (Some mp) r]> (dentries s)) in
  match pool s with
  | [] => mount_undo t s target fa super
  | m :: rest =>
      point <~ or_halt (mpoints s !! mp) ;;
      let s := with_mounts (with_pool s rest) (<[m := mk_mount super flags 1]> (mounts s)) in
      let s := with_mpoints s (<[mp := mk_mountpoint (mp_point point) (m :: mp_mounts point)]> (mpoints s)) in
      Ret (mk_mtab s (vfs_filesystem_list t) (m :: vfs_mount_list t) (<[m := mp]> (m_point t)) (s_fs t), Ok tt)
  end.

(** With the device known and the source released. *)
Definition mount_on (t : mtab) (s : vfs) (target : path) (fa : Z) (fs : filesystem) (device flags : Z) : outcome (mtab * result unit) :=
  busy <~ mount_busy t s (vfs_mount_list t) fa device ;;
  if (busy : bool) then s <~ path_put s target ;; Ret (with_v t s, Err EBUSY)
  else if negb (has flags MS_RDONLY) && has (fs_flags fs) FS_RDONLY then s <~ path_put s target ;; Ret (with_v t s, Err EACCES)
  else
    match pool s with
    | [] => s <~ path_put s target ;; Ret (with_v t s, Err ENOMEM)
    | super :: rest =>
        let t := mk_mtab (mt_v t) (vfs_filesystem_list t) (vfs_mount_list t) (m_point t) (<[super := fa]> (s_fs t)) in
        let s := with_supers (with_pool s rest) (<[super := mk_superblock 0 0 [] 0]> (supers s)) in
        '(s, r) <~ fs_read_super fa s super device flags ;;
        match r with
        | Err e => s <~ path_put s target ;; Ret (with_v t (with_supers s (delete super (supers s))), Err e)
        | Ok _ =>
            e <~ or_halt (dentries s !! p_dentry target) ;;
            match d_mountpoint e with
            | Some mp => mount_attach t s target fa super mp flags
            | None =>
                match pool s with
                | [] => mount_undo t s target fa super
                | mp :: rest =>
                    let '(s, point) := path_copy (with_pool s rest) target in
                    let s := with_mpoints s (<[mp := mk_mountpoint point []]> (mpoints s)) in
                    let s := with_dentries s (alter (set_dmp (Some mp)) (p_dentry target) (dentries s)) in
                    mount_attach t s target fa super mp flags
                end
            end
        end
    end.

(** The path of a failed lookup holds NULL, an error or an entry that was
    released; releasing it (again) is a fault. *)
Definition sys_mount (t : mtab) (cwd : path) (source_name target_name : option string) (fstype : string) (flags : Z) : outcome (mtab * result unit) :=
  '(s, r) <~ path_lookup (mt_v t) cwd target_name WP_DEFAULT ;;
  match r with
  | Err e => Ret (with_v t s, Err e)
  | Ok target =>
      '(s, rs) <~ path_lookup s cwd source_name WP_DEFAULT ;;
      match get_filesystem t fstype with
      | Err e =>
          s <~ path_put s target ;;
          match rs with Err _ => Halt | Ok _ => Ret (with_v t s, Err e) end
      | Ok (fa, fs) =>
          match rs with
          | Err e => if has (fs_flags fs) FS_NODEV then mount_on t s target fa fs 0 flags
                     else s <~ path_put s target ;; Ret (with_v t s, Err e)
          | Ok source =>
              device <~ (if has (fs_flags fs) FS_NODEV then Ret 0
                         else i <~ or_halt (inode_of s (p_dentry source)) ;; Ret (i_dev (i_attr i))) ;;
              s <~ path_put s source ;;
              mount_on t s target fa fs device flags
          end
      end
  end.

(** * Unmounting *)

Definition sys_umount (t : mtab) (cwd : path) (target_name : option string) : outcome (mtab * result unit) :=
  '(s, r) <~ path_lookup (mt_v t) cwd target_name WP_DEFAULT ;;
  match r with
  | Err e => Ret (with_v t s, Err e)
  | Ok target =>
      m <~ or_halt (p_mount target) ;;
      x <~ or_halt (mounts s !! m) ;;
      b <~ or_halt (supers s !! m_super x) ;;
      if negb (p_dentry target =? s_root b) then s <~ path_put s target ;; Ret (with_v t s, Err EINVAL)
      else
        s <~ path_put s target ;;
        x <~ or_halt (mounts s !! m) ;;
        b <~ or_halt (supers s !! m_super x) ;;
        if negb (m_refs x =? 1) then Ret (with_v t s, Err EBUSY)
        else if negb (s_refs b =? 1) then Ret (with_v t s, Err EBUSY)
        else
          fa <~ or_halt (s_fs t !! m_super x) ;;
          '(s, r) <~ match fs_put_super fa with Some put => put s (m_super x) | None => Ret (s, Ok tt) end ;;
          match r with
          | Err e => Ret (with_v t s, Err e)
          | Ok _ =>
              mp <~ or_halt (m_point t !! m) ;;
              point <~ or_halt (mpoints s !! mp) ;;
              let l := filter (λ y, y ≠ m) (mp_mounts point) in
              let t := mk_mtab s (vfs_filesystem_list t) (filter (λ y, y ≠ m) (vfs_mount_list t)) (m_point t) (s_fs t) in
              s <~ (if bool_decide (l = []) then
                      let s := with_dentries s (alter (set_dmp None) (p_dentry (mp_point point)) (dentries s)) in
                      s <~ path_put s (mp_point point) ;;
                      Ret (with_mpoints s (delete mp (mpoints s)))
                    else Ret (with_mpoints s (<[mp := mk_mountpoint (mp_point point) l]> (mpoints s)))) ;;
              Ret (with_v t (with_supers (with_mounts s (delete m (mounts s))) (delete (m_super x) (supers s))), Ok tt)
          end
  end.

(** * Linking *)

(** The name of the directory: the text before the last slash.  Without a
    slash a zero is stored before the buffer; a name of 512 characters or more
    does not fit in it. *)
Definition parent_name (path : string) : option string :=
  if (511 <? Z.of_nat (String.length path)) then None
  else if Nat.ltb (String.length (basename path)) (String.length path)
       then Some (String.substring 0 (String.length path - String.length (basename path) - 1) path) else None.

(** When the second lookup fails the first path is not released. *)
Definition sys_link (s : vfs) (cwd : path) (old_path : option string) (new_path : string) : outcome (vfs * result unit) :=
  parent <~ or_halt (parent_name new_path) ;;
  '(s, r) <~ path_lookup s cwd old_path WP_DEFAULT ;;
  match r with
  | Err e => Ret (s, Err e)
  | Ok oldp =>
      '(s, r) <~ path_lookup s cwd (Some parent) WP_DEFAULT ;;
      match r with
      | Err e => Ret (s, Err e)
      | Ok newp =>
          let fail e := s <~ path_put s oldp ;; s <~ path_put s newp ;; Ret (s, Err e) in
          if negb (bool_decide (p_mount oldp = p_mount newp)) then fail EXDEV
          else
            m <~ or_halt (p_mount newp) ;;
            x <~ or_halt (mounts s !! m) ;;
            if has (m_flags x) MS_RDONLY then fail EROFS
            else
              i <~ or_halt (inode_ptr s (p_dentry newp)) ;;
              node <~ or_halt (inodes s !! i) ;;
              match fs_link node with
              | None => fail EPERM
              | Some op =>
                  o <~ or_halt (inode_ptr s (p_dentry oldp)) ;;
                  let '(w, a, r) := op (basename new_path) o (fsw s) in
                  s <~ path_put (put_attr s i w a) newp ;;
                  s <~ path_put s oldp ;;
                  Ret (s, r)
              end
      end
  end.
End Mount.
Arguments mtab W : clear implicits.
