(* ===== verification/MountProps.v ===== *)
(** Mounting and linking: what a mount makes visible and an unmount hides, the
    references of [sys_link], and faults of these calls on a small file
    system. *)

From Stdlib Require Import Ascii.
From stdpp Require Import strings.
From S2P Require Import Prelude Dcache DcacheInv PathLookup File FileInv FdTable Mount.

Section Props.
Context {W : Type} (fs_put_inode : W → Z → Z → W) (root : Z) (fuel : nat).
Context (fs_find : W → Z → Z → string → result Z) (fs_read_inode : W → Z → Z → W * result iattr).
Context (MS_RDONLY MS_NOEXEC uid gid : Z).
Context (fs_read_super : Z → vfs (W := W) → Z → Z → Z → outcome (vfs (W := W) * result unit)).
Context (fs_put_super : Z → option (vfs (W := W) → Z → outcome (vfs (W := W) * result unit))).
Context (fs_link : inode → option (string → Z → W → W * iattr * result unit)).

Local Notation path_put := (path_put fs_put_inode fuel).
Local Notation path_lookup := (path_lookup fs_find fs_read_inode fs_put_inode MS_RDONLY MS_NOEXEC root uid gid fuel).
Local Notation mount_attach := (mount_attach fs_put_inode fuel fs_put_super).
Local Notation mount_on := (mount_on fs_put_inode fuel MS_RDONLY fs_read_super fs_put_super).
Local Notation sys_mount := (sys_mount fs_put_inode root fuel fs_find fs_read_inode MS_RDONLY MS_NOEXEC uid gid fs_read_super fs_put_super).
Local Notation sys_umount := (sys_umount fs_put_inode root fuel fs_find fs_read_inode MS_RDONLY MS_NOEXEC uid gid fs_put_super).
Local Notation sys_link := (sys_link fs_put_inode root fuel fs_find fs_read_inode MS_RDONLY MS_NOEXEC uid gid fs_link).

(** * Mounting *)

(** Mount [m] with superblock [super] and [flags] covers the entry [d] in [t],
    on top of everything that was mounted there. *)
Record covers (t : mtab W) (d m super flags : Z) (b : superblock) (below : list Z) : Prop := {
  cv_point : ∃ mp e r, dentries (mt_v t) !! d = Some e ∧ d_mountpoint e = Some mp ∧ m_point t !! m = Some mp
    ∧ dentries (mt_v t) !! s_root b = Some r ∧ d_mountpoint r = Some mp ∧ top_mount (mt_v t) mp = Some (m, b)
    ∧ mp_mounts <$> mpoints (mt_v t) !! mp = Some (m :: below);
  cv_mount : mounts (mt_v t) !! m = Some (mk_mount super flags 1);
  cv_super : supers (mt_v t) !! super = Some b;
}.

Lemma or_halt_ret {A} (c : option A) a : or_halt c = Ret a → c = Some a.
Proof using. destruct c; cbn; congruence. Qed.

Local Ltac invert H :=
  repeat match type of H with
  | obind _ _ = Ret _ => let E := fresh "E" in apply obind_ret in H as (? & E & H); try apply or_halt_ret in E
  end.

Lemma attach_covers t s target fa super mp flags t' e : dentries s !! p_dentry target = Some e → d_mountpoint e = Some mp →
  mount_attach t s target fa super mp flags = Ret (t', Ok tt) →
  ∃ m b point, mpoints s !! mp = Some point ∧ covers t' (p_dentry target) m super flags b (mp_mounts point) ∧ vfs_mount_list t' = m :: vfs_mount_list t.
Proof using.
  intros Hd Hmp Hrun. unfold mount_attach in Hrun. invert Hrun. rename x into b. rename x0 into r. cbn [pool with_dentries] in Hrun.
  destruct (pool s) as [|m rest]. { unfold mount_undo in Hrun. invert Hrun. done. }
  invert Hrun. rename x into point. cbn [mpoints with_dentries] in E1. injection Hrun as <-. exists m, b, point. split; [done|]. split; [|done].
  constructor; cbn [mt_v dentries mounts supers mpoints with_mpoints with_mounts with_pool with_dentries m_point].
  - exists mp. destruct (decide (s_root b = p_dentry target)) as [Er|Er].
    + rewrite Er in *. exists (set_dmp (Some mp) r), (set_dmp (Some mp) r). rewrite !lookup_insert_eq. split_and!; try done.
      unfold top_mount. cbn [mpoints mounts supers with_mpoints with_mounts with_pool with_dentries]. rewrite lookup_insert_eq. cbn [mp_mounts].
      rewrite lookup_insert_eq. cbn [m_super]. by rewrite E.
    + exists e, (set_dmp (Some mp) r). rewrite lookup_insert_ne, !lookup_insert_eq by done. split_and!; try done.
      unfold top_mount. cbn [mpoints mounts supers with_mpoints with_mounts with_pool with_dentries]. rewrite lookup_insert_eq. cbn [mp_mounts].
      rewrite lookup_insert_eq. cbn [m_super]. by rewrite E.
  - apply lookup_insert_eq.
  - done.
Qed.

(** A successful [mount_on] covers the target, from either branch. *)
Lemma mount_on_covers t s target fa fs device flags t' : mount_on t s target fa fs device flags = Ret (t', Ok tt) →
  ∃ m super b below, covers t' (p_dentry target) m super flags b below ∧ vfs_mount_list t' = m :: vfs_mount_list t.
Proof using.
  intros Hrun. unfold mount_on in Hrun. invert Hrun. destruct x; [invert Hrun; done|]. case_if_in Hrun; [invert Hrun; done|].
  destruct (pool s) as [|super rest]; [invert Hrun; done|]. apply obind_ret in Hrun as ([s1 r] & _ & Hrun). destruct r as [[]|]; [|invert Hrun; done].
  apply obind_ret in Hrun as (e & He & Hrun). apply or_halt_ret in He. destruct (d_mountpoint e) as [mp|] eqn:Emp.
  - destruct (attach_covers _ _ _ _ _ _ _ _ _ He Emp Hrun) as (m & b & point & _ & Hc & Hl). eauto 10.
  - destruct (pool s1) as [|mp rest1]; [unfold mount_undo in Hrun; invert Hrun; done|]. cbn [path_copy] in Hrun.
    assert (Hd : ∃ e1, dentries (mnt_get (d_get (with_pool s1 rest1) (Some (p_dentry target))) (p_mount target)) !! p_dentry target = Some e1).
    { unfold mnt_get, d_get. destruct (p_mount target); cbn [dentries with_mounts with_dentries with_pool]; rewrite lookup_alter_eq, He; by eexists. }
    destruct Hd as [e1 Hd]. apply (attach_covers _ _ _ _ _ _ _ _ (set_dmp (Some mp) e1)) in Hrun as (m & b & point & _ & Hc & Hl); [eauto 10| |done].
    cbn [dentries with_dentries with_mpoints]. by rewrite lookup_alter_eq, Hd.
Qed.

(** C23: a file system that is mounted is seen: when [sys_mount] succeeds there
    is one more mount, first in the list of all mounts and on top of its mount
    point, and a path that stands on the entry it covers (whatever was mounted
    there before) is led to the root of the new file system, with a reference
    to the new root and to the new mount. *)
Theorem mount_visible t cwd source target_name fstype flags t' :
  sys_mount t cwd source target_name fstype flags = Ret (t', Ok tt) →
  ∃ target s0 m super b below, path_lookup (mt_v t) cwd target_name WP_DEFAULT = Ret (s0, Ok target)
    ∧ covers t' (p_dentry target) m super flags b below ∧ vfs_mount_list t' = m :: vfs_mount_list t
    ∧ ∀ s1, s_root b ≠ p_dentry target → path_put (mt_v t') target = Ret s1 →
        enter_mount fs_put_inode fuel (mt_v t') target = Ret (mnt_get (d_get s1 (Some (s_root b))) (Some m), mk_path (s_root b) (Some m)).
Proof using.
  intros Hrun. unfold sys_mount in Hrun. apply obind_ret in Hrun as ([s0 rt] & Hl & Hrun). destruct rt as [target|]; [|done].
  assert (Hon : ∃ s fa fs device, mount_on t s target fa fs device flags = Ret (t', Ok tt)).
  { apply obind_ret in Hrun as ([s2 rs] & _ & Hrun). destruct (get_filesystem t fstype) as [[fa fs]|].
    - destruct rs as [source'|].
      + apply obind_ret in Hrun as (device & _ & Hrun). invert Hrun. eauto.
      + case_if_in Hrun; [eauto|]. invert Hrun. done.
    - invert Hrun. by destruct rs. }
  destruct Hon as (s & fa & fs & device & Hon). destruct (mount_on_covers _ _ _ _ _ _ _ _ Hon) as (m & super & b & below & Hc & Hlist).
  exists target, s0, m, super, b, below. split; [done|]. split; [done|]. split; [done|]. intros s1 Hne Hput.
  destruct (cv_point _ _ _ _ _ _ _ Hc) as (mp & e & r & Hd & Hmp & _ & _ & _ & Htop & _).
  unfold enter_mount. rewrite Hd, Hmp, Htop, (proj2 (Z.eqb_neq _ _) Hne), Hput. done.
Qed.

(** * Unmounting *)

(** When [sys_umount] succeeds the mount of the path is gone: from the
    list of all mounts, from its mount point and from memory, with its
    superblock; nobody but the mount itself referred to it. A mount point that
    is left has another mount on it. *)
Theorem umount_removes t cwd name t' : sys_umount t cwd name = Ret (t', Ok tt) →
  ∃ m mp x, m_point t !! m = Some mp ∧ m_refs x = 1 ∧ m ∉ vfs_mount_list t' ∧ mounts (mt_v t') !! m = None ∧ supers (mt_v t') !! m_super x = None
    ∧ (∀ m', m' ≠ m → m' ∈ vfs_mount_list t' ↔ m' ∈ vfs_mount_list t)
    ∧ match mpoints (mt_v t') !! mp with Some point => m ∉ mp_mounts point ∧ mp_mounts point ≠ [] | None => True end.
Proof using.
  clear fs_read_super. intros Hrun. unfold sys_umount in Hrun. apply obind_ret in Hrun as ([s r] & _ & Hrun). destruct r as [target|]; [|done].
  apply obind_ret in Hrun as (m & _ & Hrun). apply obind_ret in Hrun as (x0 & _ & Hrun). apply obind_ret in Hrun as (b0 & _ & Hrun).
  case_if_in Hrun; [invert Hrun; done|]. apply obind_ret in Hrun as (s1 & _ & Hrun). apply obind_ret in Hrun as (x & _ & Hrun).
  apply obind_ret in Hrun as (b & _ & Hrun). destruct (Z.eqb_spec (m_refs x) 1) as [Href|]; [|done]. cbn [negb] in Hrun. case_if_in Hrun; [done|].
  apply obind_ret in Hrun as (fa & _ & Hrun). apply obind_ret in Hrun as ([s2 r2] & _ & Hrun). destruct r2; [|done].
  apply obind_ret in Hrun as (mp & Hmp & Hrun). apply or_halt_ret in Hmp. apply obind_ret in Hrun as (point & _ & Hrun).
  apply obind_ret in Hrun as (s3 & Hs3 & Hrun). injection Hrun as <-. exists m, mp, x.
  cbn [mt_v mounts supers mpoints with_v with_supers with_mounts vfs_mount_list]. split; [done|]. split; [done|].
  split; [intros Hin%list_elem_of_filter; naive_solver|]. split; [apply lookup_delete_eq|]. split; [apply lookup_delete_eq|].
  split; [intros m' Hne; rewrite list_elem_of_filter; naive_solver|]. case_bool_decide as Hl.
  - apply obind_ret in Hs3 as (s4 & _ & Hs3). injection Hs3 as <-. cbn [mpoints with_mpoints]. by rewrite lookup_delete_eq.
  - injection Hs3 as <-. cbn [mpoints with_mpoints]. rewrite lookup_insert_eq. cbn [mp_mounts]. split; [|done]. intros Hin%list_elem_of_filter. naive_solver.
Qed.
End Props.

(** * Linking *)

Section Link.
Context {W : Type} (fs_put_inode : W → Z → Z → W) (root : Z) (fuel : nat).
Context (fs_find : W → Z → Z → string → result Z) (fs_read_inode : W → Z → Z → W * result iattr).
Context (MS_RDONLY MS_NOEXEC uid gid : Z).
Context (fs_link : inode → option (string → Z → W → W * iattr * result unit)).
Context (env base hi hm : list Z) (Henv : env ⊆ base) (Hbase : few 20 base) (Hhi : few 20 hi) (Hhm : few 20 hm) (Hroot : root ∈ base).

Local Notation path_put := (path_put fs_put_inode fuel).
Local Notation path_lookup := (path_lookup fs_find fs_read_inode fs_put_inode MS_RDONLY MS_NOEXEC root uid gid fuel).
Local Notation sys_link := (sys_link fs_put_inode root fuel fs_find fs_read_inode MS_RDONLY MS_NOEXEC uid gid fs_link).
Local Abbreviation rest := (at_rest root fuel env base hi hm).

(** One path more is held. *)
Definition held (s : vfs (W := W)) (p : path) : Prop := at_path root fuel env base hi hm s p.

Lemma held_rest s p : held s p ↔ at_rest root fuel env (p_dentry p :: base) hi (option_list (p_mount p) ++ hm) s ∧ path_fine root s p.
Proof. split; [intros []; by split; [split|]|intros [[] ?]; by split]. Qed.

(** Two paths are held; they can be released in either order. *)
Definition held2 (s : vfs (W := W)) (p q : path) : Prop :=
  at_path root fuel env (p_dentry p :: base) hi (option_list (p_mount p) ++ hm) s q ∧ path_fine root s p.

Lemma held2_swap s p q : held2 s p q → held2 s q p.
Proof.
  intros [[Hg He Hf Hc] Hp]. split; [split; try done|done]. eapply good_perm; [| |exact Hg]; [apply Permutation_swap|].
  rewrite !app_assoc. by rewrite (Permutation_app_comm (option_list (p_mount q))).
Qed.

Lemma few_option k (o : option Z) : few (k + 1) hm → few k (option_list o ++ hm).
Proof. unfold few. destruct o; cbn; lia. Qed.

Lemma put_second s p q : held2 s p q → ∃ s', path_put s q = Ret s' ∧ held s' p.
Proof.
  intros [Hq Hp]. destruct (path_put_at fs_put_inode root fuel env (p_dentry p :: base) hi (option_list (p_mount p) ++ hm)) with (s := s) (p := q)
    as (s' & -> & Hr & [Hst _] & _); [set_solver|unfold few in *; cbn; lia|unfold few in *; lia|apply few_option; unfold few in *; lia|done|].
  exists s'. split; [done|]. apply held_rest. split; [done|]. by eapply steps_path_fine.
Qed.

Lemma put_last s p : held s p → ∃ s', path_put s p = Ret s' ∧ rest s'.
Proof.
  intros Hp. destruct (path_put_at fs_put_inode root fuel env base hi hm) with (s := s) (p := p) as (s' & -> & Hr & _); [done|unfold few in *; lia..|done|].
  by exists s'.
Qed.

Lemma put_both s p q : held2 s p q → ∃ s' s'', path_put s q = Ret s' ∧ path_put s' p = Ret s'' ∧ rest s''.
Proof. intros Hh. destruct (put_second s p q Hh) as (s' & -> & Hp). destruct (put_last s' p Hp) as (s'' & Hput & Hr). by exists s', s''. Qed.

(** The inode of a held path below a mount. *)
Lemma held_inode s p q m : held2 s p q → p_mount q = Some m → ∃ i node, inode_ptr s (p_dentry q) = Some i ∧ inodes s !! i = Some node.
Proof.
  intros [Hq _] Hm. destruct (at_path_entry _ _ _ _ _ _ _ _ Hq) as [e He]. destruct Hq as [Hg Hen [Hf _] _].
  assert (Hne : p_dentry q ≠ root) by (intros E; specialize (Hf E); congruence). destruct (eo_inode _ _ _ Hen _ e He Hne) as [i Hi].
  destruct (ct_inode _ _ _ (gd_counted _ _ _ _ Hg) _ e i He Hi) as [node Hn]. exists i, node. unfold inode_ptr. by rewrite He.
Qed.

(** C24: [sys_link] and the references, on every way out.  When the old name is
    not found, the error is returned and all counts (of entries, inodes and
    mounts) are as before.  When the directory of the new name is not found, the error is returned and the path
    of the old name stays held for ever.  When both are found, the code faults
    if both are the bare root, which has no mount, and otherwise returns with all
    counts as before: also when the two lie on different mounts, which is
    [EXDEV], and whatever the driver's operation returns.  The new name has a
    slash and fewer than 512 characters ([parent_name]; otherwise the code
    writes outside its buffer), there is memory for two lookups and no counter is
    near overflow. *)
Theorem link_references s cwd old_path new_path parent :
  rest s → p_dentry cwd ∈ base → (p_dentry cwd = root → p_mount cwd = None) → (∀ m, p_mount cwd = Some m → m ∈ hm) → (2048 <= length (pool s))%nat →
  parent_name new_path = Some parent →
  ∃ s1 r1, path_lookup s cwd old_path WP_DEFAULT = Ret (s1, r1) ∧
    match r1 with
    | Err e => sys_link s cwd old_path new_path = Ret (s1, Err e) ∧ rest s1
    | Ok oldp =>
        ∃ s2 r2, path_lookup s1 cwd (Some parent) WP_DEFAULT = Ret (s2, r2) ∧
          match r2 with
          | Err e => sys_link s cwd old_path new_path = Ret (s2, Err e) ∧ held s2 oldp
          | Ok newp =>
              if decide (p_mount oldp = None ∧ p_mount newp = None) then sys_link s cwd old_path new_path = Halt
              else ∃ s' r, sys_link s cwd old_path new_path = Ret (s', r) ∧ rest s' ∧ (p_mount oldp ≠ p_mount newp → r = Err EXDEV)
          end
    end.
Proof.
  intros Hs Hcwd Hcr Hcm Hpool Hpar. assert (Hfine : ∀ hd hm' (x : vfs (W := W)), good x hd hi (hm' ++ hm) → path_fine root x cwd).
  { intros hd hm' x Hg. split; [done|]. intros m Hm. apply (gd_mheld _ _ _ _ Hg). set_solver. }
  unfold sys_link. rewrite Hpar. cbn [or_halt obind].
  destruct (path_lookup_at fs_find fs_read_inode fs_put_inode MS_RDONLY MS_NOEXEC root uid gid fuel s env base hi hm cwd old_path WP_DEFAULT)
    as (s1 & [oldp|e] & -> & Hr1 & Hp1); [done|done|unfold few in *; lia..|done|done|apply (Hfine base []), Hs|lia| |].
  2: { eexists _, _. split; [reflexivity|]. by split. }
  eexists _, _. split; [reflexivity|]. cbn [obind].
  cbn [at_result] in Hr1. apply held_rest in Hr1 as [Hr1 Hf1].
  destruct (path_lookup_at fs_find fs_read_inode fs_put_inode MS_RDONLY MS_NOEXEC root uid gid fuel s1 env (p_dentry oldp :: base) hi (option_list (p_mount oldp) ++ hm)
    cwd (Some parent) WP_DEFAULT) as (s2 & [newp|e] & El & Hr2 & _);
    [done|set_solver|unfold few in *; cbn; lia|unfold few in *; lia|apply few_option; unfold few in *; lia|by right|by right|eapply Hfine, Hr1|lia| |]; rewrite El; (eexists _, _; split; [reflexivity|]); cbn [obind].
  2: { split; [done|]. apply held_rest. split; [done|].
       destruct Hr2 as [Hg _ _]. destruct Hf1 as [Hf1 _]. split; [done|]. intros m Hm. apply (gd_mheld _ _ _ _ Hg). rewrite Hm. by left. }
  cbn [at_result] in Hr2. assert (Hh : held2 s2 oldp newp).
  { split; [done|]. destruct Hr2 as [Hg _ _ _]. destruct Hf1 as [Hf1 _]. split; [done|]. intros m Hm. apply (gd_mheld _ _ _ _ Hg). rewrite Hm. set_solver. }
  assert (Hfail : ∀ e, ∃ s', (s <~ path_put s2 oldp ;; s <~ path_put s newp ;; Ret (s, Err (A := unit) e)) = Ret (s', Err e) ∧ rest s').
  { intros e. destruct (put_both s2 newp oldp (held2_swap _ _ _ Hh)) as (s3 & s4 & -> & Hp4 & Hr4). cbn [obind]. rewrite Hp4. by exists s4. }
  case_bool_decide as Em; cbn [negb]; [|rewrite decide_False by (intros [? ?]; congruence); destruct (Hfail EXDEV) as (s' & -> & ?); eauto 10].
  destruct (p_mount newp) as [m|] eqn:Enew; cbn [or_halt obind]; [rewrite decide_False by (intros [_ ?]; done)|by rewrite decide_True].
  assert (is_Some (mounts s2 !! m)) as [x Hx] by (destruct Hh as [[_ _ [_ Hf] _] _]; by apply Hf). rewrite Hx. cbn [or_halt obind].
  case_if; [destruct (Hfail EROFS) as (s' & -> & ?); eexists _, _; split_and!; [done|done|congruence]|].
  destruct (held_inode s2 oldp newp m Hh Enew) as (i & node & Hi & Hn). rewrite Hi. cbn [or_halt obind]. rewrite Hn. cbn [or_halt obind].
  destruct (fs_link node) as [op|]; [|destruct (Hfail EPERM) as (s' & -> & ?); eexists _, _; split_and!; [done|done|congruence]].
  destruct (held_inode s2 newp oldp m (held2_swap _ _ _ Hh) Em) as (o & onode & Ho & _). rewrite Ho. cbn [or_halt obind].
  destruct (op (basename new_path) o (fsw s2)) as [[w a] r].
  assert (Hh' : held2 (put_attr s2 i w a) oldp newp).
  { destruct Hh as [[Hg He Hf Hc] Hf2]. destruct (put_attr_good root s2 _ hi _ i w a Hg) as (Hg' & [Hst Hcap] & _); [by eexists|].
    split; [|by eapply steps_path_fine]. split; [done|by eapply steps_env|by eapply steps_path_fine|lia]. }
  destruct (put_both _ _ _ Hh') as (s3 & s4 & -> & Hp4 & Hr4). cbn [obind]. rewrite Hp4. eexists _, _. split; [reflexivity|]. split; [done|]. congruence.
Qed.
End Link.

(** * Examples and faults *)

(** Mounting on the small file system of [PathLookup]: witnesses and faults. *)

(** A file system without a device: inode 2 is its root. *)
Definition demo_read_super (_ : Z) (s : vfs (W := unit)) (super dev _ : Z) : outcome (vfs (W := unit) * result unit) :=
  '(s, r) <~ i_get Demo.read s super 2 ;;
  match r with
  | Err e => Ret (s, Err e)
  | Ok i =>
      '(s, d) <~ d_alloc_root s i ;;
      s <~ i_put Demo.put s i ;;
      Ret (with_supers s (alter (λ b, mk_superblock (s_refs b) d (s_inode_list b) dev) super (supers s)), Ok tt)
  end.

Definition demo_mtab : mtab unit :=
  mk_mtab (Demo.state 60) [(50, mk_filesystem "tmp" FS_NODEV [])] [6] {[ 6 := 5 ]} {[ 7 := 51 ]}.
Definition demo_cwd : path := mk_path 8 (Some 6).

Definition demo_mount (t : mtab unit) (source : option string) (target fstype : string) : outcome (mtab unit * result unit) :=
  sys_mount Demo.put 1 100 Demo.find Demo.read 1 8 0 0 demo_read_super (λ _, None) t demo_cwd source (Some target) fstype 0.
Definition demo_umount (t : mtab unit) (target : string) : outcome (mtab unit * result unit) :=
  sys_umount Demo.put 1 100 Demo.find Demo.read 1 8 0 0 (λ _, None) t demo_cwd (Some target).

Definition state_of (t : mtab unit) (c : outcome (mtab unit * result unit)) : mtab unit := match c with Ret (t, _) => t | _ => t end.
Definition result_of (c : outcome (mtab unit * result unit)) : option (result unit) := match c with Ret (_, r) => Some r | _ => None end.
Definition mount_refs (t : mtab unit) (m : Z) : option Z := m_refs <$> mounts (mt_v t) !! m.

(** The type mounted on [/a]. *)
Definition mounted : mtab unit := state_of demo_mtab (demo_mount demo_mtab None "/a" "tmp").

Lemma mounted_run : demo_mount demo_mtab None "/a" "tmp" = Ret (mounted, Ok tt).
Proof. vm_compute. reflexivity. Qed.

Lemma mount_visible_witness : ∃ target s0 m super b below,
  path_lookup Demo.find Demo.read Demo.put 1 8 1 0 0 100 (mt_v demo_mtab) demo_cwd (Some "/a"%string) WP_DEFAULT = Ret (s0, Ok target)
  ∧ covers mounted (p_dentry target) m super 0 b below ∧ vfs_mount_list mounted = m :: vfs_mount_list demo_mtab.
Proof.
  destruct (mount_visible Demo.put 1 100 Demo.find Demo.read 1 8 0 0 demo_read_super (λ _, None) demo_mtab demo_cwd None (Some "/a"%string) "tmp" 0 mounted mounted_run)
    as (target & s0 & m & super & b & below & Hl & Hc & Hm & _).
  exists target, s0, m, super, b, below. split; [exact Hl|]. split; [exact Hc|exact Hm].
Defined.

Lemma unmounted_run : demo_umount mounted "/a/" = Ret (state_of mounted (demo_umount mounted "/a/"), Ok tt).
Proof. vm_compute. reflexivity. Qed.

Lemma umount_removes_witness : let t' := state_of mounted (demo_umount mounted "/a/") in
  ∃ m mp x, m_point mounted !! m = Some mp ∧ m_refs x = 1 ∧ m ∉ vfs_mount_list t' ∧ mounts (mt_v t') !! m = None ∧ supers (mt_v t') !! m_super x = None
    ∧ (∀ m', m' ≠ m → m' ∈ vfs_mount_list t' ↔ m' ∈ vfs_mount_list mounted)
    ∧ match mpoints (mt_v t') !! mp with Some point => m ∉ mp_mounts point ∧ mp_mounts point ≠ [] | None => True end.
Proof. exact (umount_removes Demo.put 1 100 Demo.find Demo.read 1 8 0 0 (λ _, None) mounted demo_cwd (Some "/a/"%string) _ unmounted_run). Defined.

(** A link on a file system that has no operation for it: both names are found,
    and both paths are released again. *)
Definition link_state : vfs (W := unit) := Demo.state 3000.
Definition demo_find (s : vfs (W := unit)) (name : string) := path_lookup Demo.find Demo.read Demo.put 1 8 1 0 0 4000 s demo_cwd (Some name) WP_DEFAULT.
Definition both_found : bool :=
  match demo_find link_state "/f" with
  | Ret (s, Ok p) =>
      match p_mount p, demo_find s "/a" with Some _, Ret (_, Ok _) => true | _, _ => false end
  | _ => false
  end.
Lemma finds_both : both_found = true.
Proof. vm_cast_no_check (eq_refl true). Qed.

Lemma link_references_witness : ∃ s' r,
  sys_link Demo.put 1 4000 Demo.find Demo.read 1 8 0 0 (λ _, None) link_state demo_cwd (Some "/f"%string) "/a/g" = Ret (s', r)
  ∧ at_rest 1 4000 Demo.base Demo.base [] [6] s'.
Proof.
  destruct (link_references Demo.put 1 4000 Demo.find Demo.read 1 8 0 0 (λ _, None) Demo.base Demo.base [] [6]) with
    (s := link_state) (cwd := demo_cwd) (old_path := Some "/f"%string) (new_path := "/a/g"%string) (parent := "/a"%string) as (s1 & r1 & E1 & H1).
  - done.
  - unfold few. cbn. lia.
  - unfold few. cbn. lia.
  - unfold few. cbn. lia.
  - by left.
  - constructor; [apply Demo.state_good; lia|apply Demo.state_env|]. unfold capacity. cbn [link_state Demo.state pool]. rewrite length_seqZ. change (size _) with 2%nat. lia.
  - right. by left.
  - done.
  - intros m [= <-]. by left.
  - cbn [link_state Demo.state pool]. rewrite length_seqZ. lia.
  - reflexivity.
  - pose proof finds_both as F. unfold both_found, demo_find in F. rewrite E1 in F. destruct r1 as [oldp|e]; [|discriminate F].
    destruct (p_mount oldp) as [mo|] eqn:Em; [|discriminate F]. destruct H1 as (s2 & r2 & E2 & H2). rewrite E2 in F.
    destruct r2 as [newp|e]; [|discriminate F]. rewrite decide_False in H2 by (intros [? _]; discriminate).
    destruct H2 as (s' & r & H2 & H3 & _). exists s', r. split; [exact H2|exact H3].
Defined.

(** * Faults *)

(** The last component of a name is not followed into what is mounted on it:
    [umount] of the directory something was mounted on finds the directory
    below and is refused; the name needs a slash at its end. *)
Theorem umount_needs_slash : result_of (demo_umount mounted "/a") = Some (Err EINVAL) ∧ result_of (demo_umount mounted "/a/") = Some (Ok tt).
Proof. vm_compute. split; reflexivity. Qed.

(** A successful [mount] does not release the path of the target: after
    mounting and unmounting, the mount below has one reference more than
    before and can never be unmounted. *)
Theorem mount_keeps_target :
  let t := state_of mounted (demo_umount mounted "/a/") in
  mount_refs demo_mtab 6 = Some 1 ∧ mount_refs t 6 = Some 2 ∧ result_of (demo_umount t "/") = Some (Err EBUSY).
Proof. vm_compute. split_and!; reflexivity. Qed.

(** With an unknown type the test on the source is the wrong way round: the
    path of a source that was found is kept, and that of one that was not is
    released. *)
Theorem mount_unknown_type :
  let c := demo_mount demo_mtab (Some "/f"%string) "/a" "nosuch" in
  result_of c = Some (Err ENODEV) ∧ mount_refs (state_of demo_mtab c) 6 = Some 2 ∧ demo_mount demo_mtab (Some "/none"%string) "/a" "nosuch" = Halt.
Proof. vm_compute. split_and!; reflexivity. Qed.

(** No superblock is ever entered in the list of its type: a type in use can be
    unregistered. *)
Theorem unregister_mounted_type :
  ∃ fs, get_filesystem mounted "tmp" = Ok (50, fs) ∧ (unregister_filesystem mounted 50 fs).2 = Ok tt
    ∧ get_filesystem (unregister_filesystem mounted 50 fs).1 "tmp" = Err ENODEV ∧ result_of (demo_umount mounted "/a/") = Some (Ok tt).
Proof. eexists. split; [vm_compute; reflexivity|]. vm_compute. split_and!; reflexivity. Qed.

(** The directory of a new name directly below [/] becomes the empty name, which
    is the working directory. *)
Theorem link_below_root_uses_cwd : parent_name "/x" = Some ""%string ∧ resolve_from "/a/b" "" = Ok 12.
Proof. vm_compute. split; reflexivity. Qed.
