(* ===== verification/Printk.v ===== *)
(** Formatted output and the text console: [src/kernel/src/initial_printk.c].

    Characters are bytes, 0 to 255; a string is the list of its characters
    without the final zero.  [put_char] is a function pointer that nothing in
    the formatting code reads anything back from: the formatting functions
    return the characters they put, with the colour that was set, and the
    console consumes them; [custom_put_str] stays [NULL].  Arguments are a
    list; taking one that is not there or has another type is a fault.  [ticks]
    is [timer_get_ticks]. *)

From S2P Require Import Prelude Bytes.

(** * Numbers and strings *)

Definition P_LEFT : Z := 1.
Definition P_SIGN : Z := 2.
Definition P_SPACE : Z := 4.
Definition P_PAD0 : Z := 8.
Definition P_NOWIDTH : Z := 16.
Definition P_NOPREC : Z := 32.
Definition P_PREFIX : Z := 64.
Definition P_UPPER : Z := 128.

Definition is_set (flags bit : Z) : bool := negb (Z.land flags bit =? 0).

(** [while( count < width ) put_char(c)]. *)
Definition pad_to (c width count : Z) : list Z := replicate (Z.to_nat (width - count)) c.
Definition pad_char (flags : Z) : Z := if is_set flags P_PAD0 then 48 else 32.

(** The remainders of repeated division, the last digit first; [n] bounds their
    number. *)
Fixpoint digits_rev (n : nat) (base v : Z) : list Z :=
  match n with
  | O => []
  | S n => Z.rem v base :: (if Z.quot v base =? 0 then [] else digits_rev n base (Z.quot v base))
  end.

(** Characters put and the value returned. *)
Definition put_str (s : list Z) (flags width precision : Z) : list Z * Z :=
  let precision := if precision =? 0 then 1000000 else precision in
  let shown := if precision <? 0 then s else take (Z.to_nat precision) s in
  let len := Z.of_nat (length shown) in
  let before := if negb (is_set flags P_LEFT) && negb (width =? 0) then pad_to (pad_char flags) width len else [] in
  let after := if is_set flags P_LEFT && negb (width =? 0) then pad_to (pad_char flags) width len else [] in
  (before ++ shown ++ after, len + Z.of_nat (length after)).

Definition put_int (v flags width precision : Z) : list Z * Z :=
  let shifter := if v <? 0 then s32 (- v) else v in
  let posv := if 0 <? v then v else s32 (- v) in
  let signed := ((0 <=? v) && (is_set flags P_SIGN || is_set flags P_SPACE)) || (v <? 0) in
  let digits := Z.of_nat (length (digits_rev 32 10 shifter)) in
  let count := (if signed then 1 else 0) + digits in
  let zeros := if is_set flags P_LEFT then [] else pad_to 48 precision digits in
  let count := count + Z.of_nat (length zeros) in
  let before := if is_set flags P_LEFT then [] else pad_to (pad_char flags) width count in
  let count := count + Z.of_nat (length before) in
  let text := (λ d, u8 (48 + d)) <$> reverse (digits_rev 32 10 posv) in
  let sign := if (0 <=? v) && is_set flags P_SIGN then [43]
              else if (0 <=? v) && is_set flags P_SPACE then [32]
              else if v <? 0 then [45] else [] in
  let after := if is_set flags P_LEFT then pad_to (pad_char flags) width count else [] in
  (zeros ++ before ++ sign ++ (put_str text 0 0 0).1 ++ after, count + Z.of_nat (length after)).

Definition digit_char (letter_base d : Z) : Z := if 9 <? d then u8 (letter_base + (d - 10)) else u8 (48 + d).

Definition put_uint (v flags width precision base : Z) : list Z * Z :=
  let count := if is_set flags P_SIGN then 1 else 0 in
  let count := count + (if is_set flags P_PREFIX then if base =? 8 then 1 else if base =? 16 then 2 else 0 else 0) in
  let letter_base := if is_set flags P_UPPER then 65 else 97 in
  let digits := Z.of_nat (length (digits_rev 32 base v)) in
  let count := count + digits in
  let prefix := if is_set flags P_PREFIX then 48 :: (if base =? 16 then [120] else []) else [] in
  let zeros := if is_set flags P_LEFT then [] else pad_to 48 precision digits in
  let count := count + Z.of_nat (length zeros) in
  let before := if is_set flags P_LEFT then [] else pad_to (pad_char flags) width count in
  let count := count + Z.of_nat (length before) in
  let text := digit_char letter_base <$> reverse (digits_rev 32 base v) in
  let after := if is_set flags P_LEFT then pad_to (pad_char flags) width count else [] in
  (prefix ++ zeros ++ before ++ (put_str text 0 0 0).1 ++ after, count + Z.of_nat (length after)).

(** * Formats *)

Inductive arg : Set := AInt (v : Z) | AStr (s : list Z).

Definition va_int (args : list arg) : outcome (Z * list arg) :=
  match args with AInt v :: args => Ret (v, args) | _ => Halt end.
Definition va_str (args : list arg) : outcome (list Z * list arg) :=
  match args with AStr s :: args => Ret (s, args) | _ => Halt end.

(** The flags behind a [%]; [None] at the end of the format. *)
Fixpoint parse_flags (fmt : list Z) (flags : Z) : option (Z * list Z) :=
  match fmt with
  | [] => None
  | c :: rest =>
      if c =? 45 then parse_flags rest (Z.lor flags P_LEFT)
      else if c =? 43 then parse_flags rest (Z.lor flags P_SIGN)
      else if c =? 48 then parse_flags rest (Z.lor flags P_PAD0)
      else if c =? 32 then parse_flags rest (Z.lor flags P_SPACE)
      else if c =? 35 then parse_flags rest (Z.lor flags P_PREFIX)
      else Some (flags, fmt)
  end.

Definition is_digit (c : Z) : bool := (48 <=? c) && (c <=? 57).

(** A number of at most [n] digits. *)
Fixpoint parse_number (n : nat) (fmt : list Z) (acc : Z) : Z * list Z :=
  match n, fmt with
  | S n, c :: rest => if is_digit c then parse_number n rest (acc * 10 + (c - 48)) else (acc, fmt)
  | _, _ => (acc, fmt)
  end.

(** What a conversion says: flags, width, precision, length, specifier.  A [*]
    is noted but not skipped. *)
Record spec := mk_spec { sp_flags : Z; sp_width : Z; sp_prec : Z; sp_length : Z; sp_char : Z }.

Definition parse_length (flags width prec : Z) (fmt : list Z) : option (spec * list Z) :=
  match fmt with
  | [] => None
  | c :: rest =>
      if (c =? 108) || (c =? 76) || (c =? 104) then
        match rest with [] => None | x :: rest => Some (mk_spec flags width prec c x, rest) end
      else Some (mk_spec flags width prec 0 c, rest)
  end.

Definition parse_precision (flags width : Z) (fmt : list Z) : option (spec * list Z) :=
  match fmt with
  | [] => None
  | dot :: rest =>
      if dot =? 46 then
        match rest with
        | [] => None
        | c :: _ =>
            if c =? 42 then parse_length (Z.lor flags P_NOPREC) width 0 rest
            else if is_digit c then
              let '(p, rest) := parse_number 12 rest 0 in
              match rest with [] => None | _ => parse_length flags width (s32 p) rest end
            else parse_length flags width 0 rest
        end
      else parse_length flags width 0 fmt
  end.

(** [None]: the format ends inside the conversion. *)
Definition parse_spec (fmt : list Z) : option (spec * list Z) :=
  match parse_flags fmt 0 with
  | None | Some (_, []) => None
  | Some (flags, (c :: _) as fmt) =>
      if c =? 42 then parse_precision (Z.lor flags P_NOWIDTH) 0 fmt
      else if is_digit c then
        let '(w, rest) := parse_number 5 fmt 0 in
        match rest with [] => None | _ => parse_precision flags w rest end
      else parse_precision flags 0 fmt
  end.

Definition output_level_colors : list Z := [15; 1; 4].

Section Printk.
Context (ticks : Z).

(** The characters of one conversion, the value to count, the colour afterwards
    and the arguments left. *)
Definition convert (sp : spec) (color : Z) (args : list arg) : outcome (list Z * Z * Z * list arg) :=
  '(width, args) <~ (if is_set (sp_flags sp) P_NOWIDTH then va_int args else Ret (sp_width sp, args)) ;;
  '(precision, args) <~ (if is_set (sp_flags sp) P_NOPREC then va_int args else Ret (sp_prec sp, args)) ;;
  let c := sp_char sp in
  let len := sp_length sp in
  if (c =? 100) || (c =? 105) then
    if len =? 76 then Ret ([], 0, color, args)
    else '(v, args) <~ va_int args ;; let '(out, k) := put_int (s32 v) (sp_flags sp) width precision in Ret (out, k, color, args)
  else if c =? 115 then
    if len =? 0 then '(s, args) <~ va_str args ;; let '(out, k) := put_str s (sp_flags sp) width precision in Ret (out, k, color, args)
    else Ret ([], 0, color, args)
  else if (c =? 112) || (c =? 117) || (c =? 111) || (c =? 120) || (c =? 88) then
    let base := if c =? 111 then 8 else if (c =? 112) || (c =? 120) || (c =? 88) then 16 else 10 in
    let flags := if c =? 88 then Z.lor (sp_flags sp) P_UPPER else if c =? 112 then Z.lor (sp_flags sp) P_PREFIX else sp_flags sp in
    if len =? 76 then Ret ([], 0, color, args)
    else '(v, args) <~ va_int args ;; let '(out, k) := put_uint (u32 v) flags width precision base in Ret (out, k, color, args)
  else if c =? 99 then
    if len =? 0 then '(v, args) <~ va_int args ;; Ret ([u8 v], 1, color, args) else Ret ([], 0, color, args)
  else if c =? 86 then
    match output_level_colors !! Z.to_nat (if (width <? 0) || (3 <=? width) then 0 else width) with
    | Some color => Ret ([], 0, color, args)
    | None => Halt
    end
  else if c =? 67 then Ret ([], 0, Z.land width 15, args)
  else if c =? 116 then Ret ([91] ++ (put_uint (u32 ticks) 0 0 0 10).1 ++ (put_str [93; 32] 0 0 0).1, 0, color, args)
  else Ret ([], 0, color, args).

(** [n] bounds the characters of the format.  The output has every character
    with its colour. *)
Fixpoint printk_loop (n : nat) (fmt : list Z) (color : Z) (args : list arg) : outcome (list (Z * Z) * Z) :=
  match n, fmt with
  | O, _ => OutOfFuel
  | _, [] => Ret ([], 0)
  | S n, c :: rest =>
      if c =? 37 then
        match parse_spec rest with
        | None => Ret ([], 0)
        | Some (sp, rest) =>
            '(out, k, color', args) <~ convert sp color args ;;
            '(l, k') <~ printk_loop n rest color' args ;;
            Ret (((λ c, (c, color)) <$> out) ++ l, k + k')
        end
      else
        '(l, k) <~ printk_loop n rest color args ;;
        Ret ((c, color) :: l, k + 1)
  end.

(** Every conversion takes one character at least, so the length is enough. *)
Definition internal_printk (fmt : list Z) (color : Z) (args : list arg) : outcome (list (Z * Z) * Z) :=
  printk_loop (S (length fmt)) fmt color args.
End Printk.

(** * The console *)

Definition STEWIEOS_TAB_WIDTH : Z := 5.

(** [screen] is the video memory; [crtc] has the writes to the ports of the
    display controller, port and value, the oldest first. *)
Record monitor_info := mk_monitor { cx : Z; cy : Z; color : Z; screen : list Z; crtc : list (Z * Z) }.
Definition width : Z := 80.
Definition height : Z := 25.

Definition CURSOR_INDEX (m : monitor_info) : Z := (cx m + cy m * width) * 2.

Definition set_cursor (m : monitor_info) (x y : Z) : monitor_info := mk_monitor x y (color m) (screen m) (crtc m).
Definition set_color (m : monitor_info) (c : Z) : monitor_info := mk_monitor (cx m) (cy m) c (screen m) (crtc m).
Definition set_screen (m : monitor_info) (l : list Z) : monitor_info := mk_monitor (cx m) (cy m) (color m) l (crtc m).

(** A store to video memory, which ends behind the last character. *)
Definition poke (m : monitor_info) (i v : Z) : outcome monitor_info :=
  if (0 <=? i) && (i <? Z.of_nat (length (screen m))) then Ret (set_screen m (<[Z.to_nat i := v]> (screen m))) else Halt.

Definition put_cell (m : monitor_info) (c : Z) : outcome monitor_info :=
  m <~ poke m (CURSOR_INDEX m) c ;; poke m (CURSOR_INDEX m + 1) (color m).

(** The lines move up one by one; the [count] last ones are cleared. *)
Fixpoint scroll_lines (n : nat) (ln : Z) (l : list Z) : list Z :=
  match n with
  | O => l
  | S n => scroll_lines n (ln + 1)
             (list_inserts (Z.to_nat (ln * width * 2)) (slice (Z.to_nat ((ln + 1) * width * 2)) (Z.to_nat (width * 2)) l) l)
  end.
Definition scroll_screen (m : monitor_info) (count : Z) : monitor_info :=
  let l := scroll_lines (Z.to_nat (height - count)) 0 (screen m) in
  set_screen m (list_inserts (Z.to_nat ((height - count) * width * 2)) (replicate (Z.to_nat (count * width * 2)) 0) l).

(** Down one line at its first column. *)
Definition next_line (m : monitor_info) : monitor_info :=
  if cy m + 1 =? height then scroll_screen (set_cursor m 0 (cy m)) 1 else set_cursor m 0 (cy m + 1).

(** The position of the cursor goes to registers 14 and 15 of the controller. *)
Definition update_cursor (m : monitor_info) : monitor_info :=
  let idx := u16 (cy m * width + cx m) in
  mk_monitor (cx m) (cy m) (color m) (screen m)
    (crtc m ++ [(980, 14); (981, u8 (Z.shiftr idx 8)); (980, 15); (981, u8 idx)]).

(** [c >= ' '] is a test on a signed character. *)
Definition initial_vga_put_char (m : monitor_info) (c : Z) : outcome monitor_info :=
  let m := if c =? 13 then set_cursor m 0 (cy m) else m in
  let m := if c =? 10 then next_line m else m in
  m <~ (if c =? 8 then
          if cx m =? 0 then Ret (if cy m =? 0 then m else set_cursor m (width - 1) (cy m - 1))
          else put_cell (set_cursor m (cx m - 1) (cy m)) 0
        else Ret m) ;;
  let m := if c =? 9 then set_cursor m (if width - cx m <? STEWIEOS_TAB_WIDTH then width else cx m + STEWIEOS_TAB_WIDTH) (cy m) else m in
  m <~ (if (32 <=? c) && (c <? 128) then
          m <~ put_cell m c ;; Ret (set_cursor m (cx m + 1) (cy m))
        else Ret m) ;;
  Ret (update_cursor (if cx m =? width then next_line m else m)).

Definition set_cursor_pos (m : monitor_info) (idx : Z) : monitor_info := set_cursor m (idx mod width) (idx / width).

(** The cursor is used for every position of the loop. *)
Definition clear_cell (m : monitor_info) : outcome monitor_info :=
  m <~ poke m (cx m + cy m * width) 0 ;; poke m (1 + cx m + cy m * width) (color m).
Fixpoint clear_loop (n : nat) (m : monitor_info) : outcome monitor_info :=
  match n with O => Ret m | S n => m <~ clear_cell m ;; clear_loop n m end.
Definition clear_screen (m : monitor_info) : outcome monitor_info := clear_loop (Z.to_nat (width * height)) m.

(** The characters, each with the colour set when it is put. *)
Fixpoint put_chars (m : monitor_info) (l : list (Z * Z)) : outcome monitor_info :=
  match l with
  | [] => Ret m
  | (c, col) :: l => m <~ initial_vga_put_char (set_color m col) c ;; put_chars m l
  end.

(** [internal_printk] restores the colour it found. *)
Definition printk (ticks : Z) (m : monitor_info) (fmt : list Z) (args : list arg) : outcome (monitor_info * Z) :=
  '(out, count) <~ internal_printk ticks fmt (color m) args ;;
  m' <~ put_chars m out ;;
  Ret (set_color m' (color m), count).
