(* ===== verification/PrintkProps.v ===== *)
(** Numbers printed by [put_int] and [put_uint] are read back by a reader of
    the kind of [strtol], and take the width that was asked for. *)

From S2P Require Import Prelude Bytes Printk.

(** * The reader *)

Definition digit_val (base c : Z) : option Z :=
  let d := if (48 <=? c) && (c <=? 57) then c - 48
           else if (97 <=? c) && (c <=? 122) then c - 87
           else if (65 <=? c) && (c <=? 90) then c - 55 else base in
  if d <? base then Some d else None.

(** Digits up to the first character that is none. *)
Fixpoint read_digits (base : Z) (l : list Z) (acc : Z) : Z :=
  match l with
  | [] => acc
  | c :: l => match digit_val base c with Some d => read_digits base l (acc * base + d) | None => acc end
  end.

(** Spaces, a sign, digits. *)
Fixpoint read_number (base : Z) (l : list Z) : Z :=
  match l with
  | [] => 0
  | c :: l' => if c =? 32 then read_number base l'
               else if c =? 43 then read_digits base l' 0
               else if c =? 45 then - read_digits base l' 0
               else read_digits base l 0
  end.

Definition digits_value (base : Z) (ds : list Z) : Z := foldr (λ d a, d + base * a) 0 ds.

(** * Digits *)

Lemma digits_rev_length n base v : (length (digits_rev n base v) <= n)%nat.
Proof.
  revert v. induction n as [|n IH]; intros v; cbn [digits_rev length]; [lia|].
  case_if; cbn [length]; [lia|]. specialize (IH (Z.quot v base)). lia.
Qed.

Lemma digits_rev_spec n base v :
  2 <= base → 0 <= v < base ^ Z.of_nat n → (0 < n)%nat →
  digits_value base (digits_rev n base v) = v ∧ Forall (λ d, 0 <= d < base) (digits_rev n base v) ∧
  digits_rev n base v ≠ [].
Proof.
  intros Hb. revert v. induction n as [|n IH]; intros v Hv Hn; [lia|].
  cbn [digits_rev]. pose proof (Z.quot_rem' v base). pose proof (Z.rem_bound_pos v base).
  assert (0 <= Z.quot v base) by (apply Z.quot_pos; lia).
  case_if; [split_and!; [cbn; lia|repeat constructor; lia|done]|].
  rewrite Nat2Z.inj_succ, Z.pow_succ_r in Hv by lia.
  assert (n ≠ 0%nat). { intros ->. cbn in Hv. nia. }
  destruct (IH (Z.quot v base)) as (HI & Hf & _); [nia|lia|].
  split_and!; [|by constructor; [lia|]|done].
  unfold digits_value in *. cbn [foldr]. rewrite HI. lia.
Qed.

(** Digits as characters that the reader knows. *)
Definition shows (base : Z) (f : Z → Z) : Prop :=
  ∀ d, 0 <= d < base → digit_val base (f d) = Some d ∧ 48 <= f d.

Lemma digit_char_shows base letter :
  2 <= base <= 16 → letter = 65 ∨ letter = 97 → shows base (digit_char letter).
Proof.
  intros Hb Hl d Hd. unfold digit_char. destruct (Z.ltb_spec 9 d) as [H9|H9]; rewrite u8_small by lia.
  - destruct Hl as [-> | ->]; (split; [|lia]); unfold digit_val.
    + rewrite (proj2 (andb_false_iff _ _)), (proj2 (andb_false_iff _ _)), (proj2 (andb_true_iff _ _)) by lia.
      rewrite (proj2 (Z.ltb_lt _ _)) by lia. f_equal. lia.
    + rewrite (proj2 (andb_false_iff _ _)), (proj2 (andb_true_iff _ _)) by lia.
      rewrite (proj2 (Z.ltb_lt _ _)) by lia. f_equal. lia.
  - split; [|lia]. unfold digit_val. rewrite (proj2 (andb_true_iff _ _)) by lia.
    rewrite (proj2 (Z.ltb_lt _ _)) by lia. f_equal. lia.
Qed.

Lemma decimal_shows : shows 10 (λ d, u8 (48 + d)).
Proof.
  intros d Hd. pose proof (digit_char_shows 10 97 ltac:(lia) ltac:(lia) d Hd) as H.
  unfold digit_char in H. rewrite (proj2 (Z.ltb_ge 9 d)) in H by lia. done.
Qed.

Section Text.
Context (base : Z) (f : Z → Z).
Hypothesis Hshows : shows base f.

Lemma read_text ds rest :
  Forall (λ d, 0 <= d < base) ds →
  read_digits base ((f <$> reverse ds) ++ rest) 0 = read_digits base rest (digits_value base ds).
Proof using Hshows.
  intros H. revert rest. induction H as [|d ds Hd _ IH]; intros rest; [done|].
  rewrite reverse_cons, fmap_app, <- (assoc_L (++)), IH. cbn [fmap list_fmap app read_digits].
  rewrite (proj1 (Hshows d Hd)). f_equal. unfold digits_value. cbn [foldr]. lia.
Qed.

Lemma read_number_text ds rest :
  ds ≠ [] → Forall (λ d, 0 <= d < base) ds →
  read_number base ((f <$> reverse ds) ++ rest) = read_digits base rest (digits_value base ds).
Proof using Hshows.
  intros Hne Hf. rewrite <- (read_text ds rest Hf). apply Forall_reverse in Hf.
  assert (Hne' : reverse ds ≠ []) by (intros E; apply Hne; by rewrite <- (reverse_involutive ds), E).
  destruct (reverse ds) as [|d l]; [done|]. inversion_clear Hf as [|?? Hd _]. destruct (Hshows d Hd) as [_ H48].
  cbn [fmap list_fmap app read_number]. by repeat case_if; try lia.
Qed.
End Text.

Lemma read_number_spaces base n l : read_number base (replicate n 32 ++ l) = read_number base l.
Proof. induction n as [|n IH]; [done|exact IH]. Qed.

Lemma read_digits_spaces base n acc : read_digits base (replicate n 32) acc = acc.
Proof.
  destruct n as [|n]; [done|]. cbn [replicate read_digits].
  assert (digit_val base 32 = None) as ->; [|done]. unfold digit_val. cbn. case_if; [lia|done].
Qed.

(** * Padding *)

Lemma is_set_lor f g b : is_set (Z.lor f g) b = is_set f b || is_set g b.
Proof.
  unfold is_set. rewrite Z.land_lor_distr_l.
  destruct (Z.eqb_spec (Z.land f b) 0) as [->|Hf], (Z.eqb_spec (Z.land g b) 0) as [->|Hg]; cbn [negb orb].
  - done.
  - by rewrite Z.lor_0_l, (proj2 (Z.eqb_neq _ _) Hg).
  - by rewrite Z.lor_0_r, (proj2 (Z.eqb_neq _ _) Hf).
  - apply negb_true_iff, Z.eqb_neq. intros [? _]%Z.lor_eq_0_iff. done.
Qed.

Lemma pad_to_length c w k : Z.of_nat (length (pad_to c w k)) = Z.max 0 (w - k).
Proof. unfold pad_to. rewrite length_replicate. lia. Qed.

Lemma put_str_plain s : Z.of_nat (length s) <= 1000000 → (put_str s 0 0 0).1 = s.
Proof.
  intros H. unfold put_str. change (0 =? 0) with true. change (1000000 <? 0) with false.
  change (is_set 0 P_LEFT) with false. cbn [negb andb fst app].
  rewrite take_ge by lia. apply app_nil_r.
Qed.

Lemma digits_text_plain (f : Z → Z) base v :
  (put_str (f <$> reverse (digits_rev 32 base v)) 0 0 0).1 = f <$> reverse (digits_rev 32 base v).
Proof. apply put_str_plain. rewrite length_fmap, length_reverse. pose proof (digits_rev_length 32 base v). lia. Qed.

Lemma s32_neg v : -2147483648 < v <= 0 → s32 (- v) = Z.abs v.
Proof. intros H. rewrite s32_small by lia. lia. Qed.

(** * Numbers *)

(** What was put reads as [v], was counted, and has the width. *)
Definition reads_back (base v w : Z) (out : list Z * Z) : Prop :=
  read_number base out.1 = v ∧ out.2 = Z.of_nat (length out.1) ∧ w <= out.2.

Lemma padded_reads_back (lft : bool) base v w body :
  (∀ n, read_number base (body ++ replicate n 32) = v) →
  let before := if lft then [] else pad_to 32 w (Z.of_nat (length body)) in
  let count := Z.of_nat (length body) + Z.of_nat (length before) in
  let after := if lft then pad_to 32 w count else [] in
  reads_back base v w (before ++ body ++ after, count + Z.of_nat (length after)).
Proof.
  intros H before count after. unfold reads_back. cbn [fst snd].
  split; [|split; [rewrite !length_app; subst count; lia|]].
  - subst before after. destruct lft; [apply H|].
    unfold pad_to at 1. rewrite read_number_spaces. apply (H 0%nat).
  - subst before count after. destruct lft; rewrite ?pad_to_length; cbn [length]; lia.
Qed.

Lemma zeros_none (lft : bool) base v precision :
  precision <= 1 → (if lft then [] else pad_to 48 precision (Z.of_nat (length (digits_rev 32 base v)))) = [].
Proof.
  intros H. destruct lft; [done|]. unfold pad_to.
  cbn [digits_rev length]. replace (Z.to_nat _) with 0%nat by lia. done.
Qed.

Lemma pad_char_space flags : is_set flags P_PAD0 = false → pad_char flags = 32.
Proof. intros H. unfold pad_char. by rewrite H. Qed.

Lemma put_uint_reads_back v flags w precision base :
  2 <= base <= 16 → 0 <= v < 4294967296 → precision <= 1 →
  is_set flags P_PAD0 = false → is_set flags P_SIGN = false → is_set flags P_PREFIX = false →
  reads_back base v w (put_uint v flags w precision base).
Proof.
  intros Hb Hv Hp Hpad Hsign Hpre. unfold put_uint.
  rewrite Hsign, Hpre, (zeros_none _ _ _ _ Hp), pad_char_space, digits_text_plain by done.
  set (f := digit_char (if is_set flags P_UPPER then 65 else 97)).
  assert (Hf : shows base f) by (apply digit_char_shows; [done|destruct (is_set flags P_UPPER); auto]).
  destruct (digits_rev_spec 32 base v) as (Hval & Hall & Hne); [lia| |lia|].
  { split; [lia|]. eapply Z.lt_le_trans; [apply Hv|]. change 4294967296 with (2 ^ Z.of_nat 32). apply Z.pow_le_mono_l; lia. }
  pose proof (padded_reads_back (is_set flags P_LEFT) base v w (f <$> reverse (digits_rev 32 base v))) as H.
  rewrite length_fmap, length_reverse in H. cbn [length app Z.of_nat]. rewrite !Z.add_0_l, !Z.add_0_r.
  apply H. intros n. by rewrite (read_number_text base f Hf), read_digits_spaces.
Qed.

Lemma put_int_reads_back v flags w precision :
  -2147483648 < v < 2147483648 → precision <= 1 → is_set flags P_PAD0 = false →
  reads_back 10 v w (put_int v flags w precision).
Proof.
  intros Hv Hp Hpad. unfold put_int.
  assert ((if v <? 0 then s32 (- v) else v) = Z.abs v) as ->.
  { case_if; [rewrite s32_neg by lia; done|lia]. }
  assert ((if 0 <? v then v else s32 (- v)) = Z.abs v) as ->.
  { case_if; [lia|rewrite s32_neg by lia; done]. }
  rewrite (zeros_none _ _ _ _ Hp), pad_char_space, digits_text_plain by done.
  destruct (digits_rev_spec 32 10 (Z.abs v)) as (Hval & Hall & Hne); [lia|lia|lia|].
  set (text := (λ d, u8 (48 + d)) <$> reverse (digits_rev 32 10 (Z.abs v))).
  set (sign := if (0 <=? v) && is_set flags P_SIGN then _ else _).
  assert (Hlen : Z.of_nat (length (sign ++ text)) =
    (if (0 <=? v) && (is_set flags P_SIGN || is_set flags P_SPACE) || (v <? 0) then 1 else 0)
    + Z.of_nat (length (digits_rev 32 10 (Z.abs v)))).
  { rewrite length_app. subst text. rewrite length_fmap, length_reverse, Nat2Z.inj_add. f_equal. subst sign.
    destruct (Z.leb_spec 0 v), (Z.ltb_spec v 0), (is_set flags P_SIGN), (is_set flags P_SPACE); done || lia. }
  assert (Htext : ∀ n, read_digits 10 (text ++ replicate n 32) 0 = Z.abs v ∧ read_number 10 (text ++ replicate n 32) = Z.abs v).
  { intros n. subst text. split; [rewrite (read_text 10 _ decimal_shows) by done|rewrite (read_number_text 10 _ decimal_shows) by done];
      by rewrite read_digits_spaces. }
  pose proof (padded_reads_back (is_set flags P_LEFT) 10 v w (sign ++ text)) as H.
  rewrite Hlen in H. cbn [length app Z.of_nat]. rewrite !Z.add_0_r.
  rewrite (assoc_L (++) sign). apply H. intros n. rewrite <- (assoc_L (++)).
  destruct (Htext n) as [Hd Hn]. subst sign. clear H Hlen.
  destruct (Z.leb_spec 0 v), (Z.ltb_spec v 0), (is_set flags P_SIGN), (is_set flags P_SPACE);
    cbn [andb app read_number Z.eqb Pos.eqb]; rewrite ?Hd, ?Hn; lia.
Qed.

(** * Conversions *)

(** The base of a conversion of a number. *)
Definition conversion_base (c : Z) : Z := if c =? 111 then 8 else if (c =? 120) || (c =? 88) then 16 else 10.
Definition conversion_signed (c : Z) : bool := (c =? 100) || (c =? 105).

Lemma conversion_base_range c : 2 <= conversion_base c <= 16.
Proof. unfold conversion_base. repeat case_if; lia. Qed.

Lemma s32_id v : -2147483648 <= v < 2147483648 → s32 v = v.
Proof.
  intros H. destruct (Z.leb_spec 0 v); [apply s32_small; lia|].
  unfold s32, u32. rewrite <- (Z.mod_add v 1), Z.mod_small by lia. case_if; lia.
Qed.

(** C34: a conversion [%d], [%i], [%u], [%o], [%x] or [%X] with any width,
    left- or right-justified, with or without [+], a space, [l] or [h], puts
    characters that read as the argument, at least as many as the width, and
    returns their number; it takes one argument and leaves the colour.  It is
    assumed that zero padding, a precision above one, the prefix and, for
    unsigned numbers, [+] were not asked for, and that the argument of [%d] or
    [%i] is not the least integer -2147483648, whose negation overflows
    ([printk_int_min_garbage]). *)
Theorem number_conversions_read_back ticks sp color v args :
  sp_char sp ∈ [100; 105; 117; 111; 120; 88] → sp_length sp ∈ [0; 104; 108] →
  is_set (sp_flags sp) P_NOWIDTH = false → is_set (sp_flags sp) P_NOPREC = false →
  is_set (sp_flags sp) P_PAD0 = false → is_set (sp_flags sp) P_PREFIX = false →
  sp_prec sp <= 1 →
  (if conversion_signed (sp_char sp) then -2147483648 < v < 2147483648
   else 0 <= v < 4294967296 ∧ is_set (sp_flags sp) P_SIGN = false) →
  ∃ out k, convert ticks sp color (AInt v :: args) = Ret (out, k, color, args)
    ∧ read_number (conversion_base (sp_char sp)) out = v
    ∧ k = Z.of_nat (length out) ∧ sp_width sp <= k.
Proof.
  intros Hc Hl Hw Hq Hpad Hpre Hprec Hv. unfold convert. rewrite Hw, Hq. cbn [obind].
  assert (Hlen : (sp_length sp =? 76) = false).
  { apply Z.eqb_neq. intros E. rewrite E in Hl. set_solver. }
  destruct (conversion_signed (sp_char sp)) eqn:Hs.
  - pose proof (put_int_reads_back v (sp_flags sp) (sp_width sp) (sp_prec sp) Hv Hprec Hpad) as (H1 & H2 & H3).
    unfold conversion_signed in Hs. rewrite Hs, Hlen. cbn [obind va_int]. rewrite (s32_id v) by lia.
    destruct (put_int _ _ _ _) as [out k]. exists out, k. split_and!; [done| |done..].
    unfold conversion_base. zbool. destruct Hs as [->%Z.eqb_eq | ->%Z.eqb_eq]; exact H1.
  - destruct Hv as [Hv Hsign].
    pose proof (λ flags Hf1 Hf2 Hf3, put_uint_reads_back v flags (sp_width sp) (sp_prec sp) (conversion_base (sp_char sp))
      (conversion_base_range _) Hv Hprec Hf1 Hf2 Hf3) as H.
    unfold conversion_signed in Hs. rewrite Hs, Hlen. cbn [obind va_int]. rewrite u32_small by lia.
    assert (Hx : sp_char sp = 117 ∨ sp_char sp = 111 ∨ sp_char sp = 120 ∨ sp_char sp = 88) by (zbool; set_solver).
    destruct Hx as [E|[E|[E|E]]]; rewrite E in *; cbn [Z.eqb Pos.eqb orb];
    match goal with |- context [put_uint v ?fl ?a ?b ?c] => specialize (H fl);
      destruct (put_uint v fl a b c) as [out k] eqn:Eo end;
    exists out, k; (split; [done|]);
    unfold conversion_base in H |- *; cbn [Z.eqb Pos.eqb orb] in H |- *; rewrite Eo in H; apply H;
    rewrite ?is_set_lor, ?Hpad, ?Hsign, ?Hpre; done.
Qed.
