(* ===== verification/PrintkConsole.v ===== *)
(** The console of [initial_printk.c] refines a terminal: cells in a row with a
    position, which scrolls by one line when the position leaves the screen.
    The bytes of the video memory, the two coordinates of the cursor and the
    registers of the display controller follow from it. *)

From S2P Require Import Prelude Bytes Printk PrintkProps.

(** * The terminal *)

(** Cells: character and colour. *)
Record terminal := mk_terminal { t_cells : list (Z * Z); t_pos : Z }.

(** A position behind the last cell: one line up. *)
Definition scrolled (cells : list (Z * Z)) (pos : Z) : terminal :=
  if pos =? 2000 then mk_terminal (drop (Z.to_nat 80) cells ++ replicate (Z.to_nat 80) (0, 0)) 1920
  else mk_terminal cells pos.

Definition terminal_put (col c : Z) (t : terminal) : terminal :=
  let p := t_pos t in
  if c =? 10 then scrolled (t_cells t) ((p / 80 + 1) * 80)
  else if c =? 13 then mk_terminal (t_cells t) (p / 80 * 80)
  else if c =? 8 then
    if p mod 80 =? 0 then mk_terminal (t_cells t) (Z.max 0 (p - 1))
    else mk_terminal (<[Z.to_nat (p - 1) := (0, col)]> (t_cells t)) (p - 1)
  else if c =? 9 then scrolled (t_cells t) (Z.min (p + 5) ((p / 80 + 1) * 80))
  else if (32 <=? c) && (c <? 128) then scrolled (<[Z.to_nat p := (c, col)]> (t_cells t)) (p + 1)
  else t.

(** A sequence of characters and colours. *)
Definition terminal_puts (l : list (Z * Z)) (t : terminal) : terminal := foldl (λ t '(c, col), terminal_put col c t) t l.

(** The registers of the display controller after a sequence of writes: port
    980 selects a register, port 981 sets the selected one; 14 and 15 hold the
    position of the visible cursor. *)
Definition crtc_step (s : Z * Z * Z) (w : Z * Z) : Z * Z * Z :=
  let '(sel, hi, lo) := s in
  if w.1 =? 980 then (w.2, hi, lo)
  else if w.1 =? 981 then if sel =? 14 then (sel, w.2, lo) else if sel =? 15 then (sel, hi, w.2) else s
  else s.
Definition visible_cursor (log : list (Z * Z)) : Z :=
  let '(_, hi, lo) := foldl crtc_step (0, 0, 0) log in hi * 256 + lo.

(** * Cells and bytes *)

Fixpoint pairs (l : list Z) : list (Z * Z) :=
  match l with a :: b :: l => (a, b) :: pairs l | _ => [] end.

Lemma pairs_lookup l i :
  pairs l !! i = match l !! (2 * i)%nat, l !! (2 * i + 1)%nat with Some a, Some b => Some (a, b) | _, _ => None end.
Proof.
  revert l. induction i as [|i IH]; intros [|a [|b l]]; try done.
  replace (2 * S i)%nat with (S (S (2 * i))) by lia.
  replace (S (S (2 * i)) + 1)%nat with (S (S (2 * i + 1))) by lia. apply IH.
Qed.

Lemma pairs_insert l i a b :
  (2 * i + 1 < length l)%nat → pairs (<[(2 * i + 1)%nat := b]> (<[(2 * i)%nat := a]> l)) = <[i := (a, b)]> (pairs l).
Proof.
  intros Hi. apply list_eq. intros j. rewrite pairs_lookup.
  destruct (decide (i = j)) as [<-|Hne].
  - rewrite list_lookup_insert_ne, list_lookup_insert_eq, list_lookup_insert_eq by (rewrite ?length_insert; lia).
    symmetry. apply list_lookup_insert_eq. apply lookup_lt_is_Some. rewrite pairs_lookup.
    destruct (lookup_lt_is_Some_2 l (2 * i)%nat) as [x ->]; [lia|].
    destruct (lookup_lt_is_Some_2 l (2 * i + 1)%nat) as [y ->]; [lia|]. eauto.
  - rewrite !list_lookup_insert_ne by lia. by rewrite pairs_lookup.
Qed.

Lemma pairs_length l n : length l = (2 * n)%nat → length (pairs l) = n.
Proof.
  revert l. induction n as [|n IH]; intros [|a [|b l]] H; cbn in H |- *; try lia. by rewrite (IH l) by lia.
Qed.

(** * Scrolling *)

Lemma scroll_lines_lookup n ln l i :
  0 <= ln → (ln + Z.of_nat n + 1) * 160 <= Z.of_nat (length l) →
  length (scroll_lines n ln l) = length l ∧
  scroll_lines n ln l !! i =
    if decide (ln * 160 <= Z.of_nat i < (ln + Z.of_nat n) * 160) then l !! (i + Z.to_nat 160)%nat else l !! i.
Proof.
  revert ln l. induction n as [|n IH]; intros ln l Hln Hlen; cbn [scroll_lines].
  { rewrite decide_False by lia. done. }
  destruct (IH (ln + 1) (list_inserts (Z.to_nat (ln * width * 2)) (slice (Z.to_nat ((ln + 1) * width * 2)) (Z.to_nat (width * 2)) l) l)) as [H1 H2];
    [lia|rewrite length_inserts; lia|].
  split; [by rewrite H1, length_inserts|]. rewrite H2. unfold width.
  rewrite !inserts_lookup, slice_length, !slice_lookup by lia.
  repeat case_decide; try lia; try done; f_equal; lia.
Qed.

Lemma scroll_screen_lookup m i :
  Z.of_nat (length (screen m)) = 4000 →
  length (screen (scroll_screen m 1)) = length (screen m) ∧
  screen (scroll_screen m 1) !! i =
    if decide (Z.of_nat i < 3840) then screen m !! (i + Z.to_nat 160)%nat
    else if decide (Z.of_nat i < 4000) then Some 0 else None.
Proof.
  intros Hlen. unfold scroll_screen, height, width, set_screen. cbn [screen].
  destruct (scroll_lines_lookup (Z.to_nat (25 - 1)) 0 (screen m) i) as [H1 H2]; [lia..|].
  split; [by rewrite length_inserts, H1|].
  rewrite inserts_lookup, H1, length_replicate, H2. clear H1 H2.
  destruct (decide (Z.of_nat i < 3840)).
  - rewrite decide_False, decide_True by lia. reflexivity.
  - destruct (decide (Z.of_nat i < 4000)).
    + rewrite decide_True by lia. apply lookup_replicate. split; [reflexivity|lia].
    + rewrite !decide_False by lia. apply lookup_ge_None_2. lia.
Qed.

Lemma pairs_scroll m :
  Z.of_nat (length (screen m)) = 4000 →
  pairs (screen (scroll_screen m 1)) = drop (Z.to_nat 80) (pairs (screen m)) ++ replicate (Z.to_nat 80) (0, 0).
Proof.
  intros Hlen. apply list_eq. intros i. rewrite pairs_lookup.
  rewrite !(proj2 (scroll_screen_lookup m _ Hlen)).
  assert (Hp : Z.of_nat (length (pairs (screen m))) = 2000) by (rewrite (pairs_length _ (Z.to_nat 2000)); lia).
  destruct (decide (Z.of_nat i < 1920)).
  - rewrite lookup_app_l by (rewrite length_drop; lia). rewrite lookup_drop, pairs_lookup.
    rewrite !decide_True by lia. replace (2 * (Z.to_nat 80 + i))%nat with (2 * i + Z.to_nat 160)%nat by lia.
    replace (2 * i + Z.to_nat 160 + 1)%nat with (2 * i + 1 + Z.to_nat 160)%nat by lia. done.
  - rewrite lookup_app_r by (rewrite length_drop; lia). rewrite length_drop.
    rewrite !(decide_False (P := _ < 3840)) by lia. destruct (decide (Z.of_nat i < 2000)).
    + rewrite !decide_True by lia. symmetry. apply lookup_replicate. split; [done|lia].
    + rewrite !decide_False by lia. symmetry. apply lookup_ge_None_2. rewrite length_replicate. lia.
Qed.

(** * The refinement *)

Definition console_ok (m : monitor_info) : Prop :=
  0 <= cx m < 80 ∧ 0 <= cy m < 25 ∧ Z.of_nat (length (screen m)) = 4000.

Definition abs (m : monitor_info) : terminal := mk_terminal (pairs (screen m)) (cy m * 80 + cx m).

Lemma scrolled_inside cells pos : pos <> 2000 → scrolled cells pos = mk_terminal cells pos.
Proof. intros H. unfold scrolled. by rewrite (proj2 (Z.eqb_neq _ _) H). Qed.

Lemma next_line_abs m :
  0 <= cy m < 25 → Z.of_nat (length (screen m)) = 4000 →
  console_ok (next_line m) ∧ abs (next_line m) = scrolled (pairs (screen m)) ((cy m + 1) * 80).
Proof.
  intros Hy Hlen. unfold next_line, height. destruct (Z.eqb_spec (cy m + 1) 25) as [E|E].
  - set (m' := set_cursor m 0 (cy m)).
    assert (Hlen' : Z.of_nat (length (screen m')) = 4000) by done.
    pose proof (proj1 (scroll_screen_lookup m' 0 Hlen')) as Hl.
    split.
    + split; [|split]; [change (cx (scroll_screen m' 1)) with 0; lia|change (cy (scroll_screen m' 1)) with (cy m); lia|by rewrite Hl].
    + unfold abs. rewrite pairs_scroll by done.
      change (cx (scroll_screen m' 1)) with 0. change (cy (scroll_screen m' 1)) with (cy m).
      change (screen m') with (screen m). unfold scrolled.
      replace ((cy m + 1) * 80 =? 2000) with true by (symmetry; apply Z.eqb_eq; lia).
      f_equal. lia.
  - split; [unfold console_ok; cbn [set_cursor cx cy screen]; lia|].
    rewrite scrolled_inside by lia. unfold abs. cbn [set_cursor cx cy screen]. f_equal. lia.
Qed.

(** The end of [initial_vga_put_char], when the cursor may be behind the line. *)
Lemma wrap_abs m :
  0 <= cx m <= 80 → 0 <= cy m < 25 → Z.of_nat (length (screen m)) = 4000 →
  let m' := if cx m =? width then next_line m else m in
  console_ok m' ∧ abs m' = scrolled (pairs (screen m)) (cy m * 80 + cx m).
Proof.
  intros Hx Hy Hlen. unfold width. cbv zeta. case_if.
  - destruct (next_line_abs m Hy Hlen) as [H1 H2]. split; [done|]. rewrite H2. f_equal. lia.
  - split; [unfold console_ok; lia|]. rewrite scrolled_inside by lia. done.
Qed.

Lemma put_cell_abs m c :
  console_ok m →
  ∃ l, put_cell m c = Ret (set_screen m l) ∧ Z.of_nat (length l) = 4000 ∧
    pairs l = <[Z.to_nat (cy m * 80 + cx m) := (c, color m)]> (pairs (screen m)).
Proof.
  intros (Hx & Hy & Hlen). unfold put_cell, poke, CURSOR_INDEX, width.
  rewrite (proj2 (andb_true_iff _ _)) by lia. cbn [obind set_screen cx cy screen color].
  rewrite length_insert, (proj2 (andb_true_iff _ _)) by lia.
  eexists. split; [reflexivity|]. split; [by rewrite !length_insert|].
  rewrite <- pairs_insert by lia. f_equal. f_equal; [lia|]. f_equal. lia.
Qed.

Lemma div_mod_row m : 0 <= cx m < 80 → (cy m * 80 + cx m) / 80 = cy m ∧ (cy m * 80 + cx m) mod 80 = cx m.
Proof.
  intros H. split; [symmetry; apply (Z.div_unique _ _ _ (cx m)); lia|symmetry; apply (Z.mod_unique _ _ (cy m)); lia].
Qed.

Lemma backspace_abs m :
  console_ok m →
  ∃ m', (m <~ (if cx m =? 0 then Ret (if cy m =? 0 then m else set_cursor m (width - 1) (cy m - 1))
               else put_cell (set_cursor m (cx m - 1) (cy m)) 0) ;;
         m <~ Ret m ;; Ret (update_cursor (if cx m =? width then next_line m else m))) = Ret (update_cursor m') ∧ console_ok m' ∧
    abs m' = (if cx m =? 0 then mk_terminal (pairs (screen m)) (Z.max 0 (cy m * 80 + cx m - 1))
              else mk_terminal (<[Z.to_nat (cy m * 80 + cx m - 1) := (0, color m)]> (pairs (screen m))) (cy m * 80 + cx m - 1)).
Proof.
  intros Hok. pose proof Hok as (Hx & Hy & Hlen).
  destruct (Z.eqb_spec (cx m) 0) as [E|E]; [destruct (Z.eqb_spec (cy m) 0) as [E'|E']|]; cbn [obind].
  - rewrite (proj2 (Z.eqb_neq _ width)) by (unfold width; lia). exists m. split_and!; [done..|]. unfold abs. f_equal. lia.
  - eexists. split; [reflexivity|]. unfold width. cbn [set_cursor cx]. change (80 - 1 =? 80) with false. cbv iota.
    split; [unfold console_ok; cbn; lia|]. unfold abs. cbn [set_cursor cx cy screen]. f_equal. lia.
  - destruct (put_cell_abs (set_cursor m (cx m - 1) (cy m)) 0) as (l & -> & Hl & Hp); [unfold console_ok; cbn; lia|].
    cbn [obind]. eexists. split; [reflexivity|]. cbn [set_screen set_cursor cx cy].
    rewrite (proj2 (Z.eqb_neq _ width)) by (unfold width; lia).
    split; [unfold console_ok; cbn; lia|]. unfold abs. cbn [set_screen set_cursor cx cy screen color] in *.
    rewrite Hp. f_equal; [f_equal; f_equal; lia|lia].
Qed.

(** Everything before [update_cursor]. *)
Lemma put_char_core m c :
  console_ok m →
  ∃ m', initial_vga_put_char m c = Ret (update_cursor m') ∧ console_ok m' ∧ abs m' = terminal_put (color m) c (abs m).
Proof.
  intros Hok. pose proof Hok as (Hx & Hy & Hlen). destruct (div_mod_row m Hx) as [Hdiv Hmod].
  unfold initial_vga_put_char, terminal_put. cbn [abs t_cells t_pos]. rewrite Hdiv, Hmod.
  destruct (Z.eqb_spec c 10) as [->|H10].
  { cbn [Z.eqb Pos.eqb Z.leb Z.compare Pos.compare Pos.compare_cont andb obind].
    destruct (next_line_abs m Hy Hlen) as [Ho Ha]. eexists. split; [reflexivity|].
    rewrite (proj2 (Z.eqb_neq _ width)) by (unfold width; destruct Ho; lia). done. }
  destruct (Z.eqb_spec c 13) as [->|H13].
  { cbn [Z.eqb Pos.eqb Z.leb Z.compare Pos.compare Pos.compare_cont andb obind].
    eexists. split; [reflexivity|]. cbn. split; [unfold console_ok; cbn; lia|]. unfold abs. cbn. f_equal. lia. }
  destruct (Z.eqb_spec c 8) as [->|H8].
  { cbn [Z.eqb Pos.eqb Z.leb Z.compare Pos.compare Pos.compare_cont andb]. by apply backspace_abs. }
  destruct (Z.eqb_spec c 9) as [->|H9].
  { cbn [Z.eqb Pos.eqb Z.leb Z.compare Pos.compare Pos.compare_cont andb obind].
    eexists. split; [reflexivity|]. unfold STEWIEOS_TAB_WIDTH, width.
    set (x := if 80 - cx m <? 5 then 80 else cx m + 5).
    assert (Hx' : cx m < x <= 80 ∧ cy m * 80 + x = Z.min (cy m * 80 + cx m + 5) ((cy m + 1) * 80)) by (subst x; case_if; lia).
    destruct Hx' as [Hx' <-]. apply (wrap_abs (set_cursor m x (cy m))); cbn [set_cursor cx cy screen]; lia. }
  cbn [obind]. destruct ((32 <=? c) && (c <? 128)).
  - destruct (put_cell_abs m c Hok) as (l & -> & Hl & Hp). cbn [obind].
    eexists. split; [reflexivity|]. rewrite <- Hp.
    destruct (wrap_abs (set_cursor (set_screen m l) (cx m + 1) (cy m))) as [Ho Ha];
      [cbn [set_cursor set_screen cx cy screen]; lia..|].
    split; [exact Ho|]. etransitivity; [exact Ha|]. cbn [set_cursor set_screen cx cy screen]. f_equal. lia.
  - cbn [obind]. eexists. split; [reflexivity|].
    rewrite (proj2 (Z.eqb_neq _ width)) by (unfold width; lia). done.
Qed.

Lemma visible_cursor_updated m : 0 <= cy m * 80 + cx m < 65536 → visible_cursor (crtc (update_cursor m)) = cy m * 80 + cx m.
Proof.
  intros H. unfold visible_cursor, update_cursor, width. cbn [crtc]. rewrite foldl_app.
  destruct (foldl crtc_step (0, 0, 0) (crtc m)) as [[sel hi] lo]. cbn.
  rewrite u16_small, Z.shiftr_div_pow2 by lia. change (2 ^ 8) with 256. unfold u8.
  rewrite (Z.mod_small (_ / 256)) by (split; [apply Z.div_pos; lia|apply Z.div_lt_upper_bound; lia]).
  pose proof (Z.div_mod (cy m * 80 + cx m) 256). lia.
Qed.

(** One character. *)
Lemma put_char_abs m c :
  console_ok m →
  ∃ m', initial_vga_put_char m c = Ret m' ∧ console_ok m' ∧ abs m' = terminal_put (color m) c (abs m)
    ∧ visible_cursor (crtc m') = t_pos (abs m').
Proof.
  intros Hok. destruct (put_char_core m c Hok) as (m' & He & Hok' & Ha).
  exists (update_cursor m'). split_and!; [done|exact Hok'|exact Ha|].
  apply visible_cursor_updated. destruct Hok' as (? & ? & _). lia.
Qed.

(** Any characters. *)
Lemma put_chars_abs l m :
  console_ok m →
  ∃ m', put_chars m l = Ret m' ∧ console_ok m' ∧ abs m' = terminal_puts l (abs m)
    ∧ (l <> [] → visible_cursor (crtc m') = t_pos (abs m')).
Proof.
  revert m. induction l as [|[c col] l IH]; intros m Hok.
  { exists m. split_and!; [done..|]. by intros []. }
  destruct (put_char_abs (set_color m col) c Hok) as (m1 & He & Hok1 & Ha & Hv).
  cbn [put_chars]. rewrite He. cbn [obind].
  destruct (IH m1 Hok1) as (m' & He' & Hok' & Ha' & Hv'). exists m'. split_and!; [done..| |].
  - rewrite Ha', Ha. done.
  - intros _. destruct l; [|by apply Hv']. cbn in He'. simplify_eq. done.
Qed.

(** * Formats *)

Lemma parse_flags_shorter fmt flags flags' rest : parse_flags fmt flags = Some (flags', rest) → (length rest <= length fmt)%nat.
Proof.
  revert flags. induction fmt as [|c fmt IH]; intros flags H; [done|]. cbn [parse_flags] in H. cbn [length].
  repeat case_if_in H; try (apply IH in H; lia). simplify_eq. done.
Qed.

Lemma parse_number_shorter n fmt acc v rest : parse_number n fmt acc = (v, rest) → (length rest <= length fmt)%nat.
Proof.
  revert fmt acc. induction n as [|n IH]; intros [|c fmt] acc H; cbn [parse_number] in H; simplify_eq; try done.
  case_if_in H; [apply IH in H; cbn [length]; lia|simplify_eq; done].
Qed.

Lemma parse_length_shorter flags w p fmt sp rest : parse_length flags w p fmt = Some (sp, rest) → (length rest < length fmt)%nat.
Proof.
  unfold parse_length. intros H. destruct fmt as [|c fmt]; [done|]. cbn [length].
  case_if_in H; [destruct fmt; [done|]|]; simplify_eq; cbn [length]; lia.
Qed.

Lemma parse_precision_shorter flags w fmt sp rest : parse_precision flags w fmt = Some (sp, rest) → (length rest < length fmt)%nat.
Proof.
  intros H. unfold parse_precision in H. destruct fmt as [|dot fmt]; [done|].
  destruct (dot =? 46); [|by apply parse_length_shorter in H].
  destruct fmt as [|c fmt]; [done|].
  repeat case_if_in H; try (apply parse_length_shorter in H; cbn [length] in *; lia).
  destruct (parse_number 12 (c :: fmt) 0) as [p r] eqn:E. apply parse_number_shorter in E.
  destruct r; [done|]. apply parse_length_shorter in H. cbn [length] in *. lia.
Qed.

Lemma parse_spec_shorter fmt sp rest : parse_spec fmt = Some (sp, rest) → (length rest < length fmt)%nat.
Proof.
  unfold parse_spec. intros H. destruct (parse_flags fmt 0) as [[flags [|c l]]|] eqn:E; [done| |done].
  apply parse_flags_shorter in E. repeat case_if_in H; try (apply parse_precision_shorter in H; lia).
  destruct (parse_number 5 (c :: l) 0) as [w r] eqn:En. apply parse_number_shorter in En.
  destruct r; [done|]. apply parse_precision_shorter in H. lia.
Qed.

(** The arguments a format asks for: a number for every [*], then what the
    specifier takes. *)
Inductive kind := KInt | KStr.

Definition spec_args (sp : spec) : list kind :=
  (if is_set (sp_flags sp) P_NOWIDTH then [KInt] else []) ++
  (if is_set (sp_flags sp) P_NOPREC then [KInt] else []) ++
  (if sp_char sp =? 115 then if sp_length sp =? 0 then [KStr] else []
   else if existsb (Z.eqb (sp_char sp)) [100; 105; 112; 117; 111; 120; 88] then if sp_length sp =? 76 then [] else [KInt]
   else if sp_char sp =? 99 then if sp_length sp =? 0 then [KInt] else []
   else []).

Fixpoint format_args (n : nat) (fmt : list Z) : list kind :=
  match n, fmt with
  | S n, c :: rest =>
      if c =? 37 then
        match parse_spec rest with
        | None => []
        | Some (sp, rest) => spec_args sp ++ format_args n rest
        end
      else format_args n rest
  | _, _ => []
  end.

(** The arguments start with those asked for. *)
Fixpoint supplied (kinds : list kind) (args : list arg) : bool :=
  match kinds, args with
  | [], _ => true
  | KInt :: kinds, AInt _ :: args | KStr :: kinds, AStr _ :: args => supplied kinds args
  | _, _ => false
  end.

Lemma supplied_app k1 k2 args : supplied (k1 ++ k2) args = supplied k1 args && supplied k2 (drop (length k1) args).
Proof. revert args. induction k1 as [|[] k1 IH]; intros args; [done|destruct args as [|[] args]; cbn; [done|..]; try done; apply IH..]. Qed.

Lemma level_color width : ∃ col, output_level_colors !! Z.to_nat (if (width <? 0) || (3 <=? width) then 0 else width) = Some col.
Proof. apply lookup_lt_is_Some. cbn [output_level_colors length]. case_if; lia. Qed.

(** A step that takes arguments of these kinds and faults exactly when they are
    not there. *)
Definition takes {A} (kinds : list kind) (f : list arg → outcome (A * list arg)) : Prop :=
  ∀ args, if supplied kinds args then ∃ a, f args = Ret (a, drop (length kinds) args) else f args = Halt.

Lemma takes_none {A} (a : A) : takes [] (λ args, Ret (a, args)).
Proof. intros args. by exists a. Qed.
Lemma takes_int : takes [KInt] va_int.
Proof. intros [|[] args]; cbn; eauto. Qed.
Lemma takes_str : takes [KStr] va_str.
Proof. intros [|[] args]; cbn; eauto. Qed.

Lemma takes_bind {A B} k1 k2 (f : list arg → outcome (A * list arg)) (g : A → list arg → outcome (B * list arg)) :
  takes k1 f → (∀ a, takes k2 (g a)) → takes (k1 ++ k2) (λ args, '(a, args) <~ f args ;; g a args).
Proof.
  intros Hf Hg args. specialize (Hf args). rewrite supplied_app, length_app, <- drop_drop.
  destruct (supplied k1 args); cbn [andb]; [|by rewrite Hf]. destruct Hf as [a ->]. cbn [obind]. apply Hg.
Qed.

(** One conversion takes the arguments it asks for. *)
Lemma convert_takes ticks sp col : takes (spec_args sp) (convert ticks sp col).
Proof.
  unfold convert, spec_args. apply takes_bind; [case_if; [apply takes_int|apply takes_none]|intros width].
  apply takes_bind; [case_if; [apply takes_int|apply takes_none]|intros precision].
  destruct (Z.eqb_spec (sp_char sp) 115) as [->|Hs]; cbn [Z.eqb Pos.eqb orb].
  { case_if; [|apply takes_none]. apply (takes_bind [KStr] []); [apply takes_str|]. intros s. destruct (put_str _ _ _ _). apply takes_none. }
  assert (existsb (Z.eqb (sp_char sp)) [100; 105; 112; 117; 111; 120; 88] = ((sp_char sp =? 100) || (sp_char sp =? 105))
    || ((sp_char sp =? 112) || (sp_char sp =? 117) || (sp_char sp =? 111) || (sp_char sp =? 120) || (sp_char sp =? 88))) as ->
    by (cbn [existsb]; by rewrite orb_false_r, !orb_assoc).
  destruct ((sp_char sp =? 100) || (sp_char sp =? 105)); cbn [orb].
  { case_if; [apply takes_none|]. apply (takes_bind [KInt] []); [apply takes_int|]. intros v. destruct (put_int _ _ _ _). apply takes_none. }
  destruct ((sp_char sp =? 112) || _ || _ || _ || _).
  { case_if; [apply takes_none|]. apply (takes_bind [KInt] []); [apply takes_int|]. intros v. destruct (put_uint _ _ _ _ _). apply takes_none. }
  destruct (sp_char sp =? 99); [case_if; [|apply takes_none]; apply (takes_bind [KInt] []); [apply takes_int|intros v; apply takes_none]|].
  destruct (level_color width) as [c Hc]. rewrite Hc. repeat case_if; apply takes_none.
Qed.

Lemma printk_loop_supplied ticks n fmt col args :
  (length fmt < n)%nat →
  if supplied (format_args n fmt) args then ∃ out k, printk_loop ticks n fmt col args = Ret (out, k)
  else printk_loop ticks n fmt col args = Halt.
Proof.
  revert fmt col args. induction n as [|n IH]; intros [|c fmt] col args Hn; cbn [length] in Hn; [lia..|cbn; eauto|].
  cbn [printk_loop format_args]. destruct (c =? 37).
  - destruct (parse_spec fmt) as [[sp rest]|] eqn:E; [|cbn; eauto]. apply parse_spec_shorter in E.
    rewrite supplied_app. pose proof (convert_takes ticks sp col args) as Hc. destruct (supplied (spec_args sp) args); cbn [andb]; [|by rewrite Hc].
    destruct Hc as ([[out k] col'] & ->). cbn [obind]. specialize (IH rest col' (drop (length (spec_args sp)) args) ltac:(lia)).
    destruct (supplied (format_args n rest) _); [|by rewrite IH]. destruct IH as (l & k' & ->). cbn [obind]. eauto.
  - specialize (IH fmt col args ltac:(lia)). destruct (supplied (format_args n fmt) args); [|by rewrite IH].
    destruct IH as (l & k & ->). cbn [obind]. eauto.
Qed.

(** C33: [printk] on a console whose cursor is on the screen ([console_ok], which
    [printk] keeps; [set_cursor_pos_outside] is how it can be left) returns for
    every format whose arguments are there, and faults exactly when one that the
    format asks for is missing or of the other kind.  It puts the characters of
    the formatted output on the console: every write stays in video memory, the
    cursor stays on the screen, and screen and cursor are those of the terminal
    that was given the same characters.  The colour is the one from before, the
    value returned is that of the formatting, and when at least one character
    was put the hardware cursor shows the position. *)
Theorem printk_refines ticks m fmt args :
  console_ok m →
  if supplied (format_args (S (length fmt)) fmt) args then
    ∃ out k m', internal_printk ticks fmt (color m) args = Ret (out, k) ∧ printk ticks m fmt args = Ret (m', k)
      ∧ console_ok m' ∧ color m' = color m
      ∧ abs m' = terminal_puts out (abs m) ∧ (out <> [] → visible_cursor (crtc m') = t_pos (abs m'))
  else printk ticks m fmt args = Halt.
Proof.
  intros Hok. unfold printk, internal_printk.
  pose proof (printk_loop_supplied ticks (S (length fmt)) fmt (color m) args ltac:(lia)) as H.
  destruct (supplied _ args); [|by rewrite H]. destruct H as (out & k & ->). cbn [obind].
  destruct (put_chars_abs out m Hok) as (m' & -> & Hok' & Ha & Hv). cbn [obind].
  exists out, k, (set_color m' (color m)). by split_and!.
Qed.

(** Printable text that fits in front of the last cell is shown where the
    cursor was, and moves it by its length. *)
Lemma terminal_shows_text cells pos l :
  Forall (λ x, 32 <= x.1 < 128) l → 0 <= pos → pos + Z.of_nat (length l) < 2000 →
  terminal_puts l (mk_terminal cells pos) = mk_terminal (list_inserts (Z.to_nat pos) l cells) (pos + Z.of_nat (length l)).
Proof.
  intros Hl. revert cells pos. induction Hl as [|[c col] l Hc _ IH]; intros cells pos Hp Hlen.
  { unfold terminal_puts. cbn. f_equal. lia. }
  cbn [fst] in Hc. cbn [length] in Hlen. unfold terminal_puts in *. cbn [foldl].
  assert (terminal_put col c (mk_terminal cells pos) = mk_terminal (<[Z.to_nat pos := (c, col)]> cells) (pos + 1)) as ->.
  { unfold terminal_put. cbn [t_cells t_pos]. rewrite !(proj2 (Z.eqb_neq _ _)), (proj2 (andb_true_iff _ _)) by lia.
    by rewrite scrolled_inside by lia. }
  rewrite IH by lia. cbn [list_inserts length]. f_equal; [|lia].
  replace (Z.to_nat (pos + 1)) with (S (Z.to_nat pos)) by lia. symmetry. apply list_insert_inserts_lt. lia.
Qed.

Lemma printk_loop_plain ticks n fmt col args :
  Forall (λ c, c <> 37) fmt → (length fmt < n)%nat →
  printk_loop ticks n fmt col args = Ret ((λ c, (c, col)) <$> fmt, Z.of_nat (length fmt)).
Proof.
  intros Hf. revert n. induction Hf as [|c fmt Hc _ IH]; intros [|n] Hn; cbn [length] in Hn; [lia|done|lia|].
  cbn [printk_loop]. rewrite (proj2 (Z.eqb_neq _ _) Hc), IH by lia. cbn [obind fmap list_fmap length]. do 2 f_equal. lia.
Qed.

(** A message without conversions appears at the cursor, in the colour of the
    console. *)
Theorem printk_plain_text ticks m fmt args :
  console_ok m → Forall (λ c, 32 <= c < 128 ∧ c <> 37) fmt →
  t_pos (abs m) + Z.of_nat (length fmt) < 2000 →
  ∃ m', printk ticks m fmt args = Ret (m', Z.of_nat (length fmt)) ∧ console_ok m' ∧
    abs m' = mk_terminal (list_inserts (Z.to_nat (t_pos (abs m))) ((λ c, (c, color m)) <$> fmt) (t_cells (abs m)))
                         (t_pos (abs m) + Z.of_nat (length fmt)).
Proof.
  intros Hok Hf Hroom. unfold printk, internal_printk.
  rewrite printk_loop_plain by (try (eapply Forall_impl; [exact Hf|]; naive_solver); lia). cbn [obind].
  destruct (put_chars_abs ((λ c, (c, color m)) <$> fmt) m Hok) as (m' & -> & Hok' & Ha & _). cbn [obind].
  eexists. split; [reflexivity|]. split; [exact Hok'|]. etransitivity; [exact Ha|].
  pose proof Hok as (? & ? & _). cbn [abs t_cells t_pos] in Hroom |- *.
  unfold abs at 1. rewrite terminal_shows_text; rewrite ?length_fmap; [done| |lia|lia].
  apply Forall_fmap. eapply Forall_impl; [exact Hf|]. cbn. naive_solver.
Qed.

(** * Examples and faults *)

(** Witnesses for formatted output and the console, and the cases in which they
    do not do what they mean to do. *)

(** A cleared console in white. *)
Definition blank : monitor_info := mk_monitor 0 0 15 (replicate (Z.to_nat 4000) 0) [].

Lemma number_conversions_witness :
  ∃ out k, convert 0 (mk_spec P_LEFT 6 0 108 100) 15 [AInt (-42)] = Ret (out, k, 15, [])
    ∧ read_number 10 out = -42 ∧ k = Z.of_nat (length out) ∧ 6 <= k.
Proof.
  apply (number_conversions_read_back 0 (mk_spec P_LEFT 6 0 108 100) 15 (-42) []);
    try reflexivity; cbn; try lia; set_solver.
Defined.

(** ["%x ok\n"] with 255. *)
Lemma printk_witness :
  ∃ m', printk 0 blank [37; 120; 32; 111; 107; 10] [AInt 255] = Ret (m', 6) ∧ console_ok m' ∧ color m' = 15
    ∧ abs m' = terminal_puts [(102, 15); (102, 15); (32, 15); (111, 15); (107, 15); (10, 15)] (abs blank)
    ∧ visible_cursor (crtc m') = t_pos (abs m').
Proof.
  assert (Hb : console_ok blank) by (split; [|split]; [vm_compute; split; done..|vm_compute; reflexivity]).
  pose proof (printk_refines 0 blank [37; 120; 32; 111; 107; 10] [AInt 255] Hb) as H.
  assert (E : internal_printk 0 [37; 120; 32; 111; 107; 10] (color blank) [AInt 255]
    = Ret ([(102, 15); (102, 15); (32, 15); (111, 15); (107, 15); (10, 15)], 6)) by (vm_compute; reflexivity).
  change (supplied _ _) with true in H. rewrite E in H. destruct H as (out & k & m' & [= <- <-] & H1 & H2 & H3 & H4 & H5).
  exists m'. split_and!; [exact H1|exact H2|exact H3|exact H4|by apply H5].
Defined.

(** * Faults *)

(** The least number has no positive counterpart: its digits are characters in
    front of ['0']. *)
Theorem printk_int_min_garbage :
  (put_int (-2147483648) 0 0 0).1 = [45; 46; 47; 44; 41; 44; 40; 45; 42; 44; 40]
  ∧ read_number 10 (put_int (-2147483648) 0 0 0).1 = 0.
Proof. split; vm_compute; reflexivity. Qed.

(** ["1%%!"]: the percent sign is not printed. *)
Theorem printk_percent_lost : internal_printk 0 [49; 37; 37; 33] 15 [] = Ret ([(49, 15); (33, 15)], 2).
Proof. vm_compute. reflexivity. Qed.

(** ["%*d"]: the star is not skipped; it takes the width from the arguments and
    is taken for the specifier itself, and the [d] is printed. *)
Theorem printk_star_width_broken : internal_printk 0 [37; 42; 100] 15 [AInt 5; AInt 7] = Ret ([(100, 15)], 1).
Proof. vm_compute. reflexivity. Qed.

(** Zero padding goes in front of the sign: ["%04d"] of -5. *)
Theorem printk_zero_pad_sign : put_int (-5) P_PAD0 4 0 = ([48; 48; 45; 53], 4).
Proof. vm_compute. reflexivity. Qed.

(** Left justified and zero padded, zeros follow the number: ["%-03d"] of 5
    prints 500. *)
Theorem printk_left_zero_pad : put_int 5 (Z.lor P_LEFT P_PAD0) 3 0 = ([53; 48; 48], 3).
Proof. vm_compute. reflexivity. Qed.

(** The zeros of the precision come in front of the spaces of the width:
    ["%5.2d"] of 7. *)
Theorem printk_precision_before_width : put_int 7 0 5 2 = ([48; 32; 32; 32; 55], 5).
Proof. vm_compute. reflexivity. Qed.

(** Padding in front of a string is printed and not counted. *)
Theorem printk_str_padding_uncounted :
  put_str [104; 105] 0 5 0 = ([32; 32; 32; 104; 105], 2) ∧ put_str [104; 105] P_LEFT 5 0 = ([104; 105; 32; 32; 32], 5).
Proof. split; vm_compute; reflexivity. Qed.

(** [+] on an unsigned number is counted and not printed. *)
Theorem printk_unsigned_sign_counted : put_uint 7 P_SIGN 0 0 10 = ([55], 2).
Proof. vm_compute. reflexivity. Qed.

(** The prefix of a padded number is printed in front of the spaces: ["%#6x"]
    of 255. *)
Theorem printk_prefix_before_spaces : put_uint 255 P_PREFIX 6 0 16 = ([48; 120; 32; 32; 102; 102], 6).
Proof. vm_compute. reflexivity. Qed.

(** [clear_screen] clears the cell of the cursor only, and with a cursor off the
    origin not even that one: it forgets that a cell has two bytes. *)
Definition full : monitor_info := mk_monitor 2 0 15 (replicate (Z.to_nat 4000) 65) [].
Theorem clear_screen_leaves_text :
  ∃ m', clear_screen full = Ret m' ∧ screen m' = <[3%nat := 15]> (<[2%nat := 0]> (screen full)).
Proof. eexists. split; vm_compute; reflexivity. Qed.

(** [set_cursor_pos] does not check its argument: the next character is put
    outside the screen. *)
Theorem set_cursor_pos_outside : initial_vga_put_char (set_cursor_pos blank 2000) 65 = Halt.
Proof. vm_compute. reflexivity. Qed.
