(* ===== verification/Initfs.v ===== *)
(** The boot file system: [src/kernel/src/initfs.c].  The files are the modules
    the boot loader put into memory, in one flat directory; device nodes can be
    added to it.

    The operations have the types the directory cache, the open files and the
    mount code expect of a file system, so they are an instance of those
    parameters.  [kmem] is kernel memory with the list of modules, their names
    and their contents; [privs] has the private data of each superblock;
    [avail] is the number of allocations the kernel heap can serve.  A
    superblock without private data is not one of this file system: using it
    is reported as [EFAULT].  Which table of operations an inode has is told by
    [i_lookup]: the only table with [lookup] is that of the root. *)

From Stdlib Require Import Ascii.
From stdpp Require Import strings.
From S2P Require Import Prelude Memory Dcache File Mount.

Definition KERNEL_VIRTUAL_BASE : Z := 3221225472.
Definition MULTIBOOT_INFO_MODS : Z := 8.

(** * Data *)

(** [multiboot_info_t] and [multiboot_module_t]: fields at their offsets. *)
Definition mb_flags (m : mem) (mb : Z) : Z := ld32 m mb.
Definition mods_count (m : mem) (mb : Z) : Z := ld32 m (mb + 20).
Definition mods_addr (m : mem) (mb : Z) : Z := ld32 m (mb + 24).
Definition mod_start (m : mem) (p : Z) : Z := ld32 m p.
Definition mod_end (m : mem) (p : Z) : Z := ld32 m (p + 4).
Definition mod_cmdline (m : mem) (p : Z) : Z := ld32 m (p + 8).

Record initfs_node := mk_node { n_name : string; n_devid : Z; n_mode : Z }.
Record initfs_private := mk_private { nfiles : Z; modlist : Z; node : list (option initfs_node) }.
Record initfs_state := mk_initfs { kmem : mem; privs : gmap Z initfs_private; avail : nat }.

(** [&list[i]]. *)
Definition module_at (priv : initfs_private) (i : Z) : Z := u32 (modlist priv + 16 * i).

(** [strcmp(a, s) == 0]. *)
Fixpoint same_string (m : mem) (a : Z) (s : string) : bool :=
  match s with
  | EmptyString => ld8 m a =? 0
  | String c s => (ld8 m a =? Z.of_nat (nat_of_ascii c)) && same_string m (a + 1) s
  end.

(** * Inodes *)

Fixpoint find_module (m : mem) (priv : initfs_private) (n : nat) (i : Z) (name : string) : option Z :=
  match n with
  | O => None
  | S n => if same_string m (mod_cmdline m (module_at priv i)) name then Some (i + 1)
           else find_module m priv n (i + 1) name
  end.

Fixpoint find_node (nodes : list (option initfs_node)) (ino : Z) (name : string) : option Z :=
  match nodes with
  | [] => None
  | Some x :: nodes => if String.eqb (n_name x) name then Some ino else find_node nodes (ino + 1) name
  | None :: nodes => find_node nodes (ino + 1) name
  end.

(** The number of the inode; the directory is not looked at. *)
Definition initfs_inode_lookup (w : initfs_state) (super dir : Z) (name : string) : result Z :=
  match privs w !! super with
  | None => Err EFAULT
  | Some priv =>
      match find_module (kmem w) priv (Z.to_nat (nfiles priv)) 0 name with
      | Some ino => Ok ino
      | None => match find_node (node priv) (nfiles priv + 1) name with
                | Some ino => Ok ino
                | None => Err ENOENT
                end
      end
  end.

Definition initfs_super_read_inode (w : initfs_state) (super ino : Z) : initfs_state * result iattr :=
  (w, match privs w !! super with
      | None => Err EFAULT
      | Some priv =>
          if ino =? 0 then Ok (mk_iattr (Z.lor S_IFDIR 511) 0 0 0 0 true)
          else if nfiles priv <? ino then
            if 32 <? ino - nfiles priv then Err ENOENT
            else match node priv !! Z.to_nat (ino - nfiles priv - 1) with
                 | Some (Some x) => Ok (mk_iattr (n_mode x) 0 0 0 (n_devid x) false)
                 | _ => Err ENOENT
                 end
          else
            let p := module_at priv (ino - 1) in
            Ok (mk_iattr (Z.lor S_IFREG 511) 0 0 (u32 (mod_end (kmem w) p - mod_start (kmem w) p)) 0 true)
      end).

(** The superblock has no [put_inode] operation. *)
Definition initfs_put_inode (w : initfs_state) (super ino : Z) : initfs_state := w.

Fixpoint free_node (nodes : list (option initfs_node)) : option nat :=
  match nodes with
  | [] => None
  | None :: _ => Some 0%nat
  | Some _ :: nodes => S <$> free_node nodes
  end.

Definition set_nodes (w : initfs_state) (super : Z) (priv : initfs_private) (l : list (option initfs_node)) (n : nat) : initfs_state :=
  mk_initfs (kmem w) (<[super := mk_private (nfiles priv) (modlist priv) l]> (privs w)) n.

Definition initfs_inode_mknod (dir : inode) (name : string) (mode devid : Z) (w : initfs_state) : initfs_state * result unit :=
  match privs w !! i_super dir with
  | None => (w, Err EFAULT)
  | Some priv =>
      if negb (i_ino dir =? 0) then (w, Err ENOTDIR)
      else if (128 <=? String.length name)%nat then (w, Err ENAMETOOLONG)
      else match avail w with
           | O => (w, Err ENOMEM)
           | S n =>
               match free_node (node priv) with
               | Some i => (set_nodes w (i_super dir) priv (<[i := Some (mk_node name devid mode)]> (node priv)) n, Ok tt)
               | None => (w, Err ENOSPC)
               end
           end
  end.

Definition initfs_inode_node_unlink (dir : inode) (w : initfs_state) : initfs_state * result unit :=
  match privs w !! i_super dir with
  | None => (w, Err EFAULT)
  | Some priv =>
      let i := s32 (i_ino dir - nfiles priv - 1) in
      if i <? 0 then (w, Err EROFS)
      else
        let freed := match node priv !! Z.to_nat i with Some (Some _) => 1%nat | _ => 0%nat end in
        (set_nodes w (i_super dir) priv (<[Z.to_nat i := None]> (node priv)) (avail w + freed), Ok tt)
  end.

(** The tables of inode operations: the root and the files have the one with
    [lookup] and [mknod], device nodes the one with [unlink]. *)
Definition initfs_mknod_op (dir : inode) : option (string → Z → Z → initfs_state → initfs_state * iattr * result unit) :=
  if i_lookup (i_attr dir) then
    Some (λ name mode devid w, let '(w, r) := initfs_inode_mknod dir name mode devid w in (w, i_attr dir, r))
  else None.
Definition initfs_unlink_op (dir : inode) : option (Z → initfs_state → initfs_state * iattr * result unit) :=
  if i_lookup (i_attr dir) then None
  else Some (λ _ w, let '(w, r) := initfs_inode_node_unlink dir w in (w, i_attr dir, r)).

(** * Files *)

Definition initfs_file_open : meth (W := initfs_state) Z unit := λ w i io flags,
  match privs w !! i_super i with
  | None => (w, i_attr i, io, Err EFAULT)
  | Some priv => (w, i_attr i, mk_fstate (f_off io) (module_at priv (i_ino i - 1)), Ok tt)
  end.

Definition initfs_file_close : meth (W := initfs_state) unit unit := λ w i io _, (w, i_attr i, io, Ok tt).

(** [memcpy] from memory to a buffer of the caller. *)
Definition bytes_at (m : mem) (a n : Z) : list Z := (λ j, ld8 m (a + j)) <$> seqZ 0 n.

Definition initfs_file_read : meth (W := initfs_state) Z (list Z) := λ w i io count,
  let p := f_private io in
  let remaining := u32 (mod_end (kmem w) p - mod_start (kmem w) p - f_off io) in
  let count := if remaining <? count then remaining else count in
  if count =? 0 then (w, i_attr i, io, Ok [])
  else (w, i_attr i, mk_fstate (s32 (f_off io + count)) p, Ok (bytes_at (kmem w) (u32 (mod_start (kmem w) p + f_off io)) count)).

Definition initfs_file_ops : file_operations (W := initfs_state) :=
  mk_fops (Some initfs_file_open) (Some initfs_file_close) (Some initfs_file_read) None None None None None None.
Definition initfs_file_dir_ops : file_operations (W := initfs_state) :=
  mk_fops (Some initfs_file_open) (Some initfs_file_close) None None None None None None None.

(** The tables of file operations are at addresses 1 and 2. *)
Definition initfs_fops (a : Z) : file_operations := if a =? 2 then initfs_file_dir_ops else initfs_file_ops.
Definition initfs_default_fops (i : inode) : option Z := Some (if i_ino i =? 0 then 2 else 1).

(** * Mounting *)

Section Super.
Context (fuel : nat).
Local Abbreviation vfs := (vfs (W := initfs_state)).

(** The boot loader gives physical addresses. *)
Fixpoint shift_modules (n : nat) (p : Z) (m : mem) : mem :=
  match n with
  | O => m
  | S n =>
      let m := st32 m p (u32 (mod_start m p + KERNEL_VIRTUAL_BASE)) in
      let m := st32 m (p + 4) (u32 (mod_end m p + KERNEL_VIRTUAL_BASE)) in
      let m := st32 m (p + 8) (u32 (mod_cmdline m p + KERNEL_VIRTUAL_BASE)) in
      shift_modules n (p + 16) m
  end.

Definition set_root (d : Z) (b : superblock) : superblock := mk_superblock (s_refs b) d (s_inode_list b) (s_dev b).

(** [mb] is the pointer given as the data of the mount. *)
Definition initfs_read_super (mb : Z) (s : vfs) (super : Z) : outcome (vfs * result unit) :=
  let w := fsw s in
  let m := kmem w in
  let '(m, list) :=
    if Z.land (mb_flags m mb) MULTIBOOT_INFO_MODS =? 0 then (st32 m (mb + 20) 0, 0)
    else (shift_modules (Z.to_nat (mods_count m mb)) (mods_addr m mb) m, mods_addr m mb) in
  match avail w with
  | O => Ret (with_fsw s (mk_initfs m (privs w) 0), Err ENOMEM)
  | S n =>
      let priv := mk_private (mods_count m mb) list (replicate 32 None) in
      let s := with_fsw s (mk_initfs m (<[super := priv]> (privs w)) n) in
      '(s, r) <~ i_get initfs_super_read_inode s super 0 ;;
      match r with
      | Err _ => Halt
      | Ok i =>
          '(s, d) <~ d_alloc_root s i ;;
          let s := with_supers s (alter (set_root d) super (supers s)) in
          s <~ i_put initfs_put_inode s i ;;
          Ret (s, Ok tt)
      end
  end.

Definition initfs_put_super (s : vfs) (super : Z) : outcome (vfs * result unit) :=
  let w := fsw s in
  Ret (with_fsw s (mk_initfs (kmem w) (delete super (privs w)) (S (avail w))), Ok tt).

Definition initfs : filesystem := mk_filesystem "initfs" FS_NODEV [].

(** The type is registered at address [a]; [root], the mount flags and the
    user are those of the task that runs. *)
Definition initfs_install (MS_RDONLY MS_NOEXEC uid gid root : Z) (a mb : Z) (t : mtab initfs_state) (cwd : path)
    : outcome (mtab initfs_state * result unit) :=
  let '(t, r) := register_filesystem t a initfs in
  match r with
  | Err e => Ret (t, Err e)
  | Ok _ =>
      sys_mount initfs_put_inode root fuel initfs_inode_lookup initfs_super_read_inode MS_RDONLY MS_NOEXEC uid gid
        (λ _ s super _ _, initfs_read_super mb s super) (λ _, Some initfs_put_super) t cwd None (Some "/"%string) "initfs" 0
  end.
End Super.
