(* ===== verification/InitfsProps.v ===== *)
(** The boot file system: device nodes can be looked up when they are made and
    are gone when they are removed; what is found can be read as an inode;
    reading an open file returns the bytes of its module. *)

From Stdlib Require Import Ascii.
From stdpp Require Import strings.
From S2P Require Import Prelude Memory Bytes Dcache File FdTable VfsCalls Mount Initfs.

(** * Device nodes *)

Lemma free_node_spec l i : free_node l = Some i → l !! i = Some None.
Proof.
  revert i. induction l as [|[x|] l IH]; intros i H; cbn in H; [done| |by simplify_eq].
  destruct (free_node l) as [j|] eqn:E; cbn in H; simplify_eq. by apply IH.
Qed.

Lemma find_node_new l i ino x :
  free_node l = Some i → find_node l ino (n_name x) = None →
  find_node (<[i := Some x]> l) ino (n_name x) = Some (ino + Z.of_nat i).
Proof.
  revert i ino. induction l as [|[y|] l IH]; intros i ino Hi Hn; cbn [free_node] in Hi; [done| |].
  - destruct (free_node l) as [j|] eqn:E; cbn in Hi; simplify_eq. cbn [find_node] in Hn.
    cbn [insert list_insert find_node]. destruct (String.eqb (n_name y) (n_name x)); [done|].
    rewrite (IH j) by done. f_equal. lia.
  - simplify_eq. cbn [insert list_insert find_node]. rewrite String.eqb_refl. f_equal. lia.
Qed.

Lemma find_node_other l i ino x name :
  free_node l = Some i → name <> n_name x → find_node (<[i := Some x]> l) ino name = find_node l ino name.
Proof.
  intros Hi Hne. revert i ino Hi. induction l as [|[y|] l IH]; intros i ino Hi; cbn [free_node] in Hi; [done| |].
  - destruct (free_node l) as [j|] eqn:E; cbn in Hi; simplify_eq. cbn [insert list_insert find_node].
    destruct (String.eqb (n_name y) name); [done|]. by apply IH.
  - simplify_eq. cbn [insert list_insert find_node]. by rewrite (proj2 (String.eqb_neq _ _)) by congruence.
Qed.

Lemma find_node_spec l ino name k :
  find_node l ino name = Some k → ∃ x, ino <= k ∧ l !! Z.to_nat (k - ino) = Some (Some x) ∧ n_name x = name.
Proof.
  revert ino. induction l as [|[y|] l IH]; intros ino H; cbn [find_node] in H; [done| |].
  - destruct (String.eqb_spec (n_name y) name) as [<-|Hne].
    + simplify_eq. exists y. rewrite Z.sub_diag. split_and!; [lia|done|done].
    + destruct (IH _ H) as (x & Hk & Hx & Hn). exists x. split_and!; [lia| |done].
      replace (Z.to_nat (k - ino)) with (S (Z.to_nat (k - (ino + 1)))) by lia. done.
  - destruct (IH _ H) as (x & Hk & Hx & Hn). exists x. split_and!; [lia| |done].
    replace (Z.to_nat (k - ino)) with (S (Z.to_nat (k - (ino + 1)))) by lia. done.
Qed.

Lemma find_module_range m priv n i name ino : find_module m priv n i name = Some ino → i < ino <= i + Z.of_nat n.
Proof.
  revert i. induction n as [|n IH]; intros i H; cbn [find_module] in H; [done|].
  case_if_in H; [simplify_eq; lia|]. apply IH in H. lia.
Qed.

(** The private data of a mounted superblock. *)
Definition private_ok (priv : initfs_private) : Prop := length (node priv) = 32%nat ∧ 0 <= nfiles priv < 2147483600.

(** Whatever a lookup finds has an inode: [i_get] does not fail there. *)
Theorem initfs_found_readable w super dir name ino priv :
  privs w !! super = Some priv → private_ok priv → initfs_inode_lookup w super dir name = Ok ino →
  0 < ino ∧ ∃ a, initfs_super_read_inode w super ino = (w, Ok a).
Proof.
  intros Hp [Hl Hn] H. unfold initfs_inode_lookup, initfs_super_read_inode in *. rewrite Hp in *.
  destruct (find_module _ _ _ _ _) as [k|] eqn:Em.
  - simplify_eq. apply find_module_range in Em. split; [lia|].
    rewrite (proj2 (Z.eqb_neq ino 0)), (proj2 (Z.ltb_ge (nfiles priv) ino)) by lia. by eexists.
  - destruct (find_node _ _ _) as [k|] eqn:En; [|done]. simplify_eq.
    apply find_node_spec in En as (x & Hk & Hx & _). split; [lia|]. pose proof (lookup_lt_Some _ _ _ Hx).
    rewrite (proj2 (Z.eqb_neq ino 0)), (proj2 (Z.ltb_lt (nfiles priv) ino)), (proj2 (Z.ltb_ge 32 (ino - nfiles priv))) by lia.
    replace (Z.to_nat (ino - nfiles priv - 1)) with (Z.to_nat (ino - (nfiles priv + 1))) by lia. rewrite Hx. by eexists.
Qed.

(** When [mknod] works. *)
Lemma mknod_ok dir name mode dev w priv :
  privs w !! i_super dir = Some priv →
  (initfs_inode_mknod dir name mode dev w).2 = Ok tt →
  ∃ i n, free_node (node priv) = Some i ∧ avail w = S n ∧ i_ino dir = 0 ∧ (String.length name < 128)%nat ∧
    initfs_inode_mknod dir name mode dev w = (set_nodes w (i_super dir) priv (<[i := Some (mk_node name dev mode)]> (node priv)) n, Ok tt).
Proof.
  intros Hp H. unfold initfs_inode_mknod in *. rewrite Hp in *.
  destruct (Z.eqb_spec (i_ino dir) 0); cbn [negb] in *; [|done].
  destruct (Nat.leb_spec 128 (String.length name)); [done|].
  destruct (avail w) as [|n] eqn:Ea; [done|]. destruct (free_node (node priv)) as [i|]; [|done].
  by exists i, n.
Qed.

Lemma find_module_nodes m priv l n i name :
  find_module m (mk_private (nfiles priv) (modlist priv) l) n i name = find_module m priv n i name.
Proof.
  revert i. induction n as [|n IH]; intros i; [done|]. cbn [find_module].
  change (module_at (mk_private (nfiles priv) (modlist priv) l) i) with (module_at priv i). by rewrite IH.
Qed.

Lemma lookup_in w super priv name :
  privs w !! super = Some priv →
  initfs_inode_lookup w super 0 name =
    match find_module (kmem w) priv (Z.to_nat (nfiles priv)) 0 name with
    | Some ino => Ok ino
    | None => match find_node (node priv) (nfiles priv + 1) name with Some ino => Ok ino | None => Err ENOENT end
    end.
Proof. intros H. unfold initfs_inode_lookup. by rewrite H. Qed.

Lemma lookup_set_nodes w super priv l n name :
  initfs_inode_lookup (set_nodes w super priv l n) super 0 name =
    match find_module (kmem w) priv (Z.to_nat (nfiles priv)) 0 name with
    | Some ino => Ok ino
    | None => match find_node l (nfiles priv + 1) name with Some ino => Ok ino | None => Err ENOENT end
    end.
Proof.
  erewrite lookup_in by apply lookup_insert_eq. cbn [set_nodes kmem nfiles node]. by rewrite find_module_nodes.
Qed.

Lemma read_inode_slot w super priv i x n k :
  privs w !! super = Some priv → 0 <= nfiles priv → (i < 32)%nat → length (<[i := Some x]> (node priv)) = 32%nat → 0 <= k →
  (initfs_super_read_inode (set_nodes w super priv (<[i := Some x]> (node priv)) n) super k).2 =
  if k =? nfiles priv + 1 + Z.of_nat i then Ok (mk_iattr (n_mode x) 0 0 0 (n_devid x) false) else (initfs_super_read_inode w super k).2.
Proof.
  intros Hp Hn Hi Hl Hk. unfold initfs_super_read_inode. cbn [snd set_nodes privs kmem]. rewrite lookup_insert_eq, Hp.
  cbn [nfiles modlist node]. rewrite length_insert in Hl.
  destruct (Z.eqb_spec k (nfiles priv + 1 + Z.of_nat i)) as [->|Hne].
  - rewrite (proj2 (Z.eqb_neq _ 0)), (proj2 (Z.ltb_lt (nfiles priv) _)), (proj2 (Z.ltb_ge 32 _)) by lia.
    replace (Z.to_nat _) with i by lia. by rewrite list_lookup_insert_eq by lia.
  - destruct (k =? 0); [done|]. destruct (Z.ltb_spec (nfiles priv) k); [|done]. case_if; [done|].
    by rewrite list_lookup_insert_ne by lia.
Qed.

(** A device node made with a name that is not in use can be looked up:
    the name gives an inode with its mode and device, the inode of the slot
    that was free; other names and other inodes are as before; and [unlink] of
    that inode undoes it completely. *)
Theorem initfs_mknod_lookup dir name mode dev w priv :
  privs w !! i_super dir = Some priv → private_ok priv →
  initfs_inode_lookup w (i_super dir) 0 name = Err ENOENT →
  (initfs_inode_mknod dir name mode dev w).2 = Ok tt →
  ∃ w' ino, initfs_inode_mknod dir name mode dev w = (w', Ok tt)
    ∧ initfs_inode_lookup w' (i_super dir) 0 name = Ok ino
    ∧ initfs_super_read_inode w' (i_super dir) ino = (w', Ok (mk_iattr mode 0 0 0 dev false))
    ∧ (initfs_super_read_inode w (i_super dir) ino).2 = Err ENOENT
    ∧ (∀ name', name' <> name → initfs_inode_lookup w' (i_super dir) 0 name' = initfs_inode_lookup w (i_super dir) 0 name')
    ∧ (∀ ino', 0 <= ino' → ino' <> ino → (initfs_super_read_inode w' (i_super dir) ino').2 = (initfs_super_read_inode w (i_super dir) ino').2)
    ∧ (∀ node, i_ino node = ino → i_super node = i_super dir → initfs_inode_node_unlink node w' = (w, Ok tt)).
Proof.
  intros Hp [Hl Hn] Hnone Hok. destruct (mknod_ok _ _ _ _ _ _ Hp Hok) as (i & n & Hi & Ha & H0 & _ & ->).
  pose proof (free_node_spec _ _ Hi) as Hslot. pose proof (lookup_lt_Some _ _ _ Hslot) as Hlt. rewrite Hl in Hlt.
  set (x := mk_node name dev mode). set (l := <[i := Some x]> (node priv)).
  set (w' := set_nodes w (i_super dir) priv l n). set (ino := nfiles priv + 1 + Z.of_nat i).
  rewrite (lookup_in w _ priv _ Hp) in Hnone.
  destruct (find_module _ _ _ _ name) eqn:Hm; [done|]. destruct (find_node (node priv) _ name) eqn:Hf; [done|].
  assert (Hread : ∀ k, 0 <= k → (initfs_super_read_inode w' (i_super dir) k).2 =
    if k =? ino then Ok (mk_iattr mode 0 0 0 dev false) else (initfs_super_read_inode w (i_super dir) k).2).
  { intros k Hk. apply (read_inode_slot w _ priv i x n k Hp); [lia|done| |done]. by rewrite length_insert. }
  exists w', ino. split_and!.
  - done.
  - unfold w'. rewrite lookup_set_nodes, Hm. pose proof (find_node_new _ _ _ x Hi Hf) as Hnew. cbn [n_name x] in Hnew. fold l in Hnew. by rewrite Hnew.
  - rewrite (surjective_pairing (initfs_super_read_inode _ _ _)), Hread, Z.eqb_refl by (subst ino; lia). done.
  - unfold initfs_super_read_inode. rewrite Hp. cbn [snd]. subst ino.
    rewrite (proj2 (Z.eqb_neq _ 0)), (proj2 (Z.ltb_lt (nfiles priv) _)), (proj2 (Z.ltb_ge 32 _)) by lia.
    replace (Z.to_nat _) with i by lia. by rewrite Hslot.
  - intros name' Hne. unfold w'. rewrite lookup_set_nodes, (lookup_in w _ priv _ Hp). subst l.
    by rewrite (find_node_other _ _ _ x) by done.
  - intros k Hk Hne. by rewrite Hread, (proj2 (Z.eqb_neq _ _) Hne).
  - intros nd Hnd Hs. unfold initfs_inode_node_unlink. rewrite Hs, Hnd. unfold w' at 1. cbn [set_nodes privs]. rewrite lookup_insert_eq.
    cbn [nfiles node]. replace (ino - nfiles priv - 1) with (Z.of_nat i) by (subst ino; lia).
    rewrite s32_small, (proj2 (Z.ltb_ge _ 0)), Nat2Z.id by lia. subst l.
    rewrite list_lookup_insert_eq by lia. unfold w', set_nodes. cbn [kmem privs avail nfiles modlist node].
    rewrite insert_insert_eq, list_insert_insert_eq, (list_insert_id _ _ _ Hslot). destruct w as [km ps av]. cbn [kmem privs avail] in *.
    f_equal. f_equal; [|lia]. destruct priv. by apply insert_id.
Qed.

(** * Reading *)

Definition module_size (m : mem) (p : Z) : Z := mod_end m p - mod_start m p.
Definition module_bytes (m : mem) (p : Z) : list Z := bytes_at m (mod_start m p) (module_size m p).

Lemma bytes_at_slice m a n o c :
  0 <= o → 0 <= c → o + c <= n → bytes_at m (a + o) c = slice (Z.to_nat o) (Z.to_nat c) (bytes_at m a n).
Proof.
  intros Ho Hc Hn. apply list_eq. intros j. rewrite slice_lookup. unfold bytes_at. rewrite !list_lookup_fmap.
  destruct (decide (j < Z.to_nat c)%nat) as [Hj|Hj].
  - rewrite !lookup_seqZ_lt by lia. cbn. do 2 f_equal. lia.
  - by rewrite lookup_seqZ_ge by lia.
Qed.

Lemma module_bytes_length m p : 0 <= module_size m p → Z.of_nat (length (module_bytes m p)) = module_size m p.
Proof. intros H. unfold module_bytes, bytes_at. rewrite length_fmap, length_seqZ. lia. Qed.

(** One read: what is left of the file, at most what was asked for. *)
Lemma initfs_read_slice w i io count :
  0 <= module_size (kmem w) (f_private io) < 2147483648 → 0 <= f_off io <= module_size (kmem w) (f_private io) → 0 <= count →
  let n := Z.min count (module_size (kmem w) (f_private io) - f_off io) in
  initfs_file_read w i io count =
    (w, i_attr i, mk_fstate (f_off io + n) (f_private io),
     Ok (slice (Z.to_nat (f_off io)) (Z.to_nat n) (module_bytes (kmem w) (f_private io)))).
Proof.
  intros Hs Ho Hc n. unfold initfs_file_read. set (m := kmem w) in *. destruct io as [off p]. cbn [f_off f_private] in *.
  unfold module_size in *. rewrite u32_small by lia.
  pose proof (ld32_range m p). pose proof (ld32_range m (p + 4)). unfold mod_start, mod_end in *.
  assert (Hn : (if ld32 m (p + 4) - ld32 m p - off <? count then ld32 m (p + 4) - ld32 m p - off else count) = n) by (subst n; case_if; lia).
  rewrite Hn. destruct (Z.eqb_spec n 0) as [E|E].
  - rewrite E, Z.add_0_r. done.
  - unfold module_bytes, module_size, mod_start, mod_end.
    rewrite s32_small, <- bytes_at_slice by lia. rewrite u32_small by lia. done.
Qed.

Lemma put_attr_same (s : vfs (W := initfs_state)) i node :
  inodes s !! i = Some node → put_attr s i (fsw s) (i_attr node) = s.
Proof.
  intros H. unfold put_attr, with_fsw, with_inodes. cbn.
  assert (alter (set_attr (i_attr node)) i (inodes s) = inodes s) as ->; [|by destruct s].
  rewrite <- (alter_id (λ x, x) (inodes s) i) at 2 by done. apply alter_ext. intros x Hx. simplify_eq. by destruct node.
Qed.

(** A sequence of calls of [file_read]. *)
Fixpoint file_reads (k : kern (W := initfs_state)) (a : Z) (counts : list Z) : outcome (kern (W := initfs_state) * list Z) :=
  match counts with
  | [] => Ret (k, [])
  | c :: counts =>
      '(k, r) <~ file_read initfs_fops k a c ;;
      match r with
      | Err _ => Halt
      | Ok data => '(k, rest) <~ file_reads k a counts ;; Ret (k, data ++ rest)
      end
  end.

Definition sumZ (l : list Z) : Z := foldr Z.add 0 l.

(** An open file of the boot file system. *)
Record open_boot_file (k : kern (W := initfs_state)) (a off p : Z) : Prop := mk_open_boot_file {
  ob_file : ∃ f, files k !! a = Some f ∧ f_io f = mk_fstate off p ∧ f_ops f = 1 ∧ has (f_status f + 1) FREAD = true
    ∧ ∃ i node, inode_ptr (kv k) (p_dentry (f_path f)) = Some i ∧ inodes (kv k) !! i = Some node;
  ob_size : 0 <= module_size (kmem (fsw (kv k))) p < 2147483648;
  ob_off : 0 <= off <= module_size (kmem (fsw (kv k))) p;
}.

Lemma file_read_step k a off p count :
  open_boot_file k a off p → 0 <= count →
  let n := Z.min count (module_size (kmem (fsw (kv k))) p - off) in
  ∃ k', file_read initfs_fops k a count = Ret (k', Ok (slice (Z.to_nat off) (Z.to_nat n) (module_bytes (kmem (fsw (kv k))) p)))
    ∧ kv k' = kv k ∧ open_boot_file k' a (off + n) p.
Proof.
  intros [(f & Hf & Hio & Hops & Hst & i & node & Hi & Hn) Hs Ho] Hc n.
  unfold file_read. rewrite Hf, Hst, Hops. cbn [negb initfs_fops Z.eqb Pos.eqb initfs_file_ops fo_read].
  unfold call. rewrite Hf, Hi, Hn, Hio, initfs_read_slice by done. cbn [f_off f_private].
  rewrite put_attr_same by done. fold n.
  eexists. split; [reflexivity|]. split; [by destruct k|]. split; cbn [with_files with_kv kv files].
  - exists (set_io (mk_fstate (off + n) p) f). rewrite lookup_insert_eq. split_and!; [done..|]. by exists i, node.
  - done.
  - subst n. lia.
Qed.

(** C30: reading an open file of the boot file system, at an offset not behind
    the end of its module (of less than 2 GB), with any sequence of calls returns the bytes of the
    module in order, from the offset on, until they end; the directory cache is
    as before.  Behind the end, where a seek can go, a read returns memory that
    is not the file's ([initfs_read_beyond_end]). *)
Theorem initfs_reads_module k a off p counts :
  open_boot_file k a off p → Forall (λ c, 0 <= c) counts →
  ∃ k', file_reads k a counts =
      Ret (k', slice (Z.to_nat off) (Z.to_nat (sumZ counts)) (module_bytes (kmem (fsw (kv k))) p))
    ∧ kv k' = kv k ∧ open_boot_file k' a (Z.min (off + sumZ counts) (module_size (kmem (fsw (kv k))) p)) p.
Proof.
  intros Hopen Hc. revert k off Hopen. induction Hc as [|c counts Hc Hcs IH]; intros k off Hopen.
  { exists k. cbn [file_reads sumZ foldr]. split_and!; [done..|]. destruct (ob_off _ _ _ _ Hopen).
    rewrite Z.add_0_r, Z.min_l by done. done. }
  cbn [file_reads]. destruct (file_read_step k a off p c Hopen Hc) as (k1 & -> & Hk1 & Hopen1). cbn [obind].
  set (size := module_size (kmem (fsw (kv k))) p) in *. set (n := Z.min c (size - off)) in *.
  destruct (IH k1 _ Hopen1) as (k2 & -> & Hk2 & Hopen2). cbn [obind]. rewrite Hk1 in *. fold size in Hopen2 |- *.
  assert (Hsum : 0 <= sumZ counts) by (clear -Hcs; induction Hcs as [|y ys]; cbn; [lia|]; unfold sumZ in *; lia).
  pose proof (ob_off _ _ _ _ Hopen) as Ho. fold size in Ho.
  exists k2. split_and!; [|done|].
  - do 2 f_equal. cbn [sumZ foldr]. fold (sumZ counts).
    apply list_eq. intros j. rewrite slice_lookup.
    pose proof (module_bytes_length (kmem (fsw (kv k))) p ltac:(subst size; lia)) as Hlen. fold size in Hlen.
    assert (Hl1 : length (slice (Z.to_nat off) (Z.to_nat n) (module_bytes (kmem (fsw (kv k))) p)) = Z.to_nat n) by (apply slice_length; lia).
    destruct (decide (j < Z.to_nat n)%nat) as [Hj|Hj].
    + rewrite lookup_app_l, slice_lookup, !decide_True by lia. done.
    + rewrite lookup_app_r, Hl1, slice_lookup by lia.
      destruct (decide (j - Z.to_nat n < Z.to_nat (sumZ counts))%nat), (decide (j < Z.to_nat (c + sumZ counts))%nat);
        first [f_equal; lia | lia | by rewrite lookup_ge_None_2 by lia | done].
  - cbn [sumZ foldr]. fold (sumZ counts). replace (Z.min (off + (c + sumZ counts)) size) with (Z.min (off + n + sumZ counts) size) by (subst n; lia). done.
Qed.

(** * Examples and faults *)

(** Booting on a small memory: one module, [hello], is mounted at the root,
    opened and read through the layers above; witnesses and faults. *)

(** * The boot *)

Fixpoint store_bytes (m : mem) (a : Z) (l : list Z) : mem :=
  match l with [] => m | b :: l => store_bytes (st8 m a b) (a + 1) l end.

(** Multiboot information at 4096, the list of modules at 8192, the name and the
    contents at the physical addresses 256 and 512. *)
Definition boot_memory : mem :=
  let m := st32 (st32 (st32 ∅ 4096 MULTIBOOT_INFO_MODS) 4116 1) 4120 8192 in
  let m := st32 (st32 (st32 m 8192 512) 8196 517) 8200 256 in
  store_bytes (store_bytes m (KERNEL_VIRTUAL_BASE + 256) [104; 105; 0]) (KERNEL_VIRTUAL_BASE + 512) [72; 69; 76; 76; 79; 83; 69; 67].

Definition boot_vfs : vfs (W := initfs_state) :=
  mk_vfs ∅ {[ 1 := mk_dentry "" None 1 None [] None ]} ∅ ∅ ∅ (seqZ 100 200) (mk_initfs boot_memory ∅ 20).
Definition boot_cwd : path := mk_path 1 None.

Definition booted : outcome (mtab initfs_state * result unit) :=
  initfs_install 100 1 8 0 0 1 90 4096 (mk_mtab boot_vfs [] [] ∅ ∅) boot_cwd.
Definition boot_state : vfs (W := initfs_state) := match booted with Ret (t, _) => mt_v t | _ => boot_vfs end.

Definition boot_lookup (s : vfs (W := initfs_state)) (name : string) : outcome (vfs (W := initfs_state) * result path) :=
  path_lookup initfs_inode_lookup initfs_super_read_inode initfs_put_inode 1 8 1 0 0 100 s boot_cwd (Some name) WP_DEFAULT.
Definition boot_open (name : string) : outcome (kern (W := initfs_state) * tvfs * result Z) :=
  sys_open initfs_inode_lookup initfs_super_read_inode initfs_put_inode 1 8 1 0 0 (λ d, d) initfs_fops initfs_default_fops 3 4
    (λ _, None) initfs_mknod_op 100 (mk_kern boot_state ∅ ∅ (seqZ 500 10))
    (mk_tvfs boot_cwd (replicate 4 (mk_descr None 0))) (Some name) 0 0.
Definition boot_kern : kern (W := initfs_state) := match boot_open "/hi" with Ret (k, _, _) => k | _ => mk_kern boot_vfs ∅ ∅ [] end.

(** After boot the module is a file, and reading it gives its bytes and no
    more. *)
Theorem boot_file_read :
  (∃ t, booted = Ret (t, Ok tt)) ∧ (∃ t, boot_open "/hi" = Ret (boot_kern, t, Ok 0)) ∧
  (∃ k, file_read initfs_fops boot_kern 500 300 = Ret (k, Ok [72; 69; 76; 76; 79])).
Proof. split_and!; eexists; vm_compute; reflexivity. Qed.

Lemma boot_file_open : open_boot_file boot_kern 500 0 8192.
Proof.
  split; [|vm_compute; split; [discriminate|reflexivity]|vm_compute; split; discriminate].
  eexists. split; [vm_compute; reflexivity|]. split; [reflexivity|]. split; [reflexivity|]. split; [vm_compute; reflexivity|].
  do 2 eexists. split; vm_compute; reflexivity.
Qed.

Lemma initfs_reads_witness :
  ∃ k', file_reads boot_kern 500 [2; 1; 9] = Ret (k', slice 0 12 (module_bytes (kmem (fsw (kv boot_kern))) 8192)) ∧ kv k' = kv boot_kern.
Proof.
  destruct (initfs_reads_module boot_kern 500 0 8192 [2; 1; 9] boot_file_open) as (k' & H & Hk & _).
  - repeat constructor; discriminate.
  - exists k'. split; [exact H|exact Hk].
Defined.

(** The root directory of the mounted system and a state that has it. *)
Definition boot_root : inode := mk_inode 0 100 1 (mk_iattr (Z.lor S_IFDIR 511) 0 0 0 0 true).
Definition boot_private : initfs_private := default (mk_private 0 0 []) (privs (fsw boot_state) !! 100).

Lemma initfs_mknod_witness :
  ∃ w' ino, initfs_inode_mknod boot_root "tty" 8630 1280 (fsw boot_state) = (w', Ok tt)
    ∧ initfs_inode_lookup w' 100 0 "tty" = Ok ino
    ∧ initfs_super_read_inode w' 100 ino = (w', Ok (mk_iattr 8630 0 0 0 1280 false)).
Proof.
  destruct (initfs_mknod_lookup boot_root "tty" 8630 1280 (fsw boot_state) boot_private) as (w' & ino & H1 & H2 & H3 & _).
  - vm_compute. reflexivity.
  - split; vm_compute; [reflexivity|split; [discriminate|reflexivity]].
  - vm_compute. reflexivity.
  - vm_compute. reflexivity.
  - exists w', ino. split; [exact H1|]. split; [exact H2|exact H3].
Defined.

(** * Faults *)

(** Files have the operations of the root: a file is searched like a directory,
    and [/hi/hi] is found. *)
Theorem initfs_file_as_directory : ∃ s p, boot_lookup boot_state "/hi/hi" = Ret (s, Ok p) ∧ inode_ptr s (p_dentry p) <> None.
Proof. do 2 eexists. split; [vm_compute; reflexivity|]. vm_compute. discriminate. Qed.

(** A file position may be set behind the end, and what is left is computed
    without a sign: the read returns memory that is not the file's. *)
Definition seeked : kern (W := initfs_state) :=
  match file_seek initfs_fops boot_kern 500 6 SEEK_SET with Ret (k, _) => k | _ => boot_kern end.
Theorem initfs_read_beyond_end :
  file_seek initfs_fops boot_kern 500 6 SEEK_SET = Ret (seeked, Ok 0) ∧
  (snd <$> match file_read initfs_fops seeked 500 2 with Ret x => Some x | _ => None end) = Some (Ok [69; 67]).
Proof. split; vm_compute; reflexivity. Qed.

(** [unlink] is an operation of the parent directory, but initfs gives it to
    the nodes: a device node cannot be removed. *)
Definition with_tty : kern (W := initfs_state) :=
  match sys_mknod initfs_inode_lookup initfs_super_read_inode initfs_put_inode 1 8 1 0 0 initfs_mknod_op 100
          (mk_kern boot_state ∅ ∅ []) boot_cwd (Some "/tty"%string) 8630 1280 with
  | Ret (k, Ok tt) => k
  | _ => boot_kern
  end.
Theorem initfs_unlink_unreachable :
  (∃ s p, boot_lookup (kv with_tty) "/tty" = Ret (s, Ok p)) ∧
  ∃ k, sys_unlink initfs_put_inode 1 100 initfs_inode_lookup initfs_super_read_inode 1 8 0 0 initfs_unlink_op with_tty
         (mk_tvfs boot_cwd []) (Some "/tty"%string) = Ret (k, Err ENOSYS).
Proof. split; [do 2 eexists|eexists]; vm_compute; reflexivity. Qed.

(** [open] takes the place of the inode's number in the list of modules, also
    for a node, which is behind the end of the list. *)
Theorem initfs_node_opens_behind_list :
  let node := mk_inode 2 100 1 (mk_iattr S_IFREG 0 0 0 0 false) in
  nfiles boot_private = 1 ∧
  (initfs_file_open (fsw boot_state) node (mk_fstate 0 0) 0).1.2 = mk_fstate 0 (modlist boot_private + 16 * nfiles boot_private).
Proof. split; vm_compute; reflexivity. Qed.

(** Mounting a second time moves the addresses of the modules a second time:
    the file is lost for the first mount as well. *)
Theorem initfs_second_mount_breaks :
  let w := fsw boot_state in
  let w2 := mk_initfs (shift_modules 1 8192 (kmem w)) (privs w) (avail w) in
  initfs_inode_lookup w 100 0 "hi" = Ok 1 ∧ initfs_inode_lookup w2 100 0 "hi" = Err ENOENT.
Proof. split; vm_compute; reflexivity. Qed.
