(* ===== verification/Pci.v ===== *)
(** The PCI bus: [src/kernel/src/pci.c].

    [config] is the configuration mechanism of the host bridge: the double word
    that port [PCI_CONFIG_DATA] gives after an address was written to
    [PCI_CONFIG_ADDRESS].  Structures of busses are shared by the table
    [g_pci_bus] and the recursion, so they live at addresses, which are the
    positions in [busses]; a device is added to the structure at an address.
    [alloc] says of each request, in order, whether [kmalloc] serves it. *)

From S2P Require Import Prelude.

Definition PCI_INVALID_WORD : Z := 65535.
Definition PCI_IS_MULTIFUNCTION (ht : Z) : bool := negb (Z.land ht 128 =? 0).

Record pci_class_t := mk_class { revid : Z; progif : Z; subclass : Z; class : Z }.

(** The packed structure over a double word. *)
Definition class_of (d : Z) : pci_class_t :=
  mk_class (Z.land d 255) (Z.land (Z.shiftr d 8) 255) (Z.land (Z.shiftr d 16) 255) (Z.land (Z.shiftr d 24) 255).

(** The registers of a device are its first 17 double words. *)
Record pci_device_t := mk_device { dev_bus : Z; dev_id : Z; func_id : Z; dev_regs : list Z }.
Definition device_class (d : pci_device_t) : pci_class_t := class_of (dev_regs d !!! 2%nat).
Definition secondary_bus (d : pci_device_t) : Z := Z.land (Z.shiftr (dev_regs d !!! 6%nat) 8) 255.

Record pci_bus_t := mk_bus {
  bus_id : Z; bridge_bus : Z; bridge_dev : Z; bridge_func : Z;
  devices : list pci_device_t;
  child_busses : list nat;
}.

Record pci := mk_pci { busses : list pci_bus_t; g_pci_bus : gmap Z nat; requests : nat }.

Section Config.
Context (config : Z → Z) (alloc : nat → bool).

(** * Configuration space *)

Definition config_address (bus slot func offset : Z) : Z :=
  Z.lor (Z.lor (Z.lor (Z.lor (Z.land offset 252) (Z.shiftl (Z.land func 7) 8)) (Z.shiftl (Z.land slot 31) 11))
    (Z.shiftl (Z.land bus 255) 16)) 2147483648.

Definition pci_config_read_word (bus slot func offset : Z) : Z :=
  Z.land (Z.shiftr (config (config_address bus slot func offset)) (Z.land offset 2 * 8)) 65535.
Definition pci_config_read_dword (bus slot func offset : Z) : Z := config (config_address bus slot func offset).

Definition pci_get_vendor (bus dev func : Z) : Z := pci_config_read_word bus dev func 0.
Definition pci_get_class (bus dev func : Z) : pci_class_t := class_of (pci_config_read_dword bus dev func 8).
Definition pci_get_header_type (bus dev func : Z) : Z := u8 (Z.land (pci_config_read_word bus dev func 14) 65535).
Definition pci_get_secondary_bus (bus dev func : Z) : Z := Z.shiftr (pci_config_read_word bus dev func 24) 8.

(** * Enumeration *)

Definition kmalloc (s : pci) : bool * pci := (alloc (requests s), mk_pci (busses s) (g_pci_bus s) (S (requests s))).

Definition update_bus (s : pci) (p : nat) (f : pci_bus_t → pci_bus_t) : pci :=
  mk_pci (alter f p (busses s)) (g_pci_bus s) (requests s).
Definition add_device (d : pci_device_t) (b : pci_bus_t) : pci_bus_t :=
  mk_bus (bus_id b) (bridge_bus b) (bridge_dev b) (bridge_func b) (d :: devices b) (child_busses b).
Definition add_child (p : nat) (b : pci_bus_t) : pci_bus_t :=
  mk_bus (bus_id b) (bridge_bus b) (bridge_dev b) (bridge_func b) (devices b) (p :: child_busses b).

(** A new structure with its place in the table, which has 255 entries. *)
Definition new_bus (s : pci) (id bb bd bf : Z) : outcome (pci * nat) :=
  if (0 <=? id) && (id <? 255) then
    let p := length (busses s) in
    Ret (mk_pci (busses s ++ [mk_bus id bb bd bf [] []]) (<[id := p]> (g_pci_bus s)) (requests s), p)
  else Halt.

Definition read_device (bus dev func : Z) : pci_device_t :=
  mk_device bus dev func ((λ i, pci_config_read_dword bus dev func (4 * i)) <$> seqZ 0 17).

Definition is_bridge (d : pci_device_t) : bool := (class (device_class d) =? 6) && (subclass (device_class d) =? 4).

Section Function.
Context (enumerate : pci → nat → outcome pci).     (* pci_enumerate_bus *)

(** The allocation of a device is not checked. *)
Definition pci_enumerate_function (s : pci) (p : nat) (dev func : Z) : outcome pci :=
  bus <~ or_halt (busses s !! p) ;;
  let '(ok, s) := kmalloc s in
  if negb ok then Halt
  else
    let d := read_device (bus_id bus) dev func in
    let s := update_bus s p (add_device d) in
    if is_bridge d then
      let '(ok, s) := kmalloc s in
      if negb ok then Ret s
      else
        '(s, q) <~ new_bus s (secondary_bus d) (bus_id bus) dev func ;;
        enumerate (update_bus s p (add_child q)) q
    else Ret s.

Fixpoint functions_loop (s : pci) (p : nat) (bus dev : Z) (funcs : list Z) : outcome pci :=
  match funcs with
  | [] => Ret s
  | func :: funcs =>
      s <~ (if negb (pci_get_vendor bus dev func =? PCI_INVALID_WORD) then pci_enumerate_function s p dev func else Ret s) ;;
      functions_loop s p bus dev funcs
  end.

Definition pci_enumerate_device (s : pci) (p : nat) (dev : Z) : outcome pci :=
  bus <~ or_halt (busses s !! p) ;;
  if pci_get_vendor (bus_id bus) dev 0 =? PCI_INVALID_WORD then Ret s
  else
    s <~ pci_enumerate_function s p dev 0 ;;
    if PCI_IS_MULTIFUNCTION (pci_get_header_type (bus_id bus) dev 0) then functions_loop s p (bus_id bus) dev (seqZ 1 7)
    else Ret s.

Fixpoint devices_loop (s : pci) (p : nat) (devs : list Z) : outcome pci :=
  match devs with
  | [] => Ret s
  | dev :: devs => s <~ pci_enumerate_device s p dev ;; devices_loop s p devs
  end.
End Function.

(** [fuel] bounds the depth of bridges. *)
Fixpoint pci_enumerate_bus (fuel : nat) (s : pci) (p : nat) : outcome pci :=
  match fuel with
  | O => OutOfFuel
  | S fuel => devices_loop (pci_enumerate_bus fuel) s p (seqZ 0 32)
  end.

(** A host bridge for one bus. *)
Definition enumerate_root (fuel : nat) (s : pci) (id : Z) : outcome (pci * bool) :=
  let '(ok, s) := kmalloc s in
  if negb ok then Ret (s, false)
  else
    '(s, p) <~ new_bus s id 255 255 255 ;;
    s <~ pci_enumerate_bus fuel s p ;;
    Ret (s, true).

Fixpoint roots_loop (fuel : nat) (s : pci) (funcs : list Z) : outcome pci :=
  match funcs with
  | [] => Ret s
  | func :: funcs =>
      if negb (pci_get_vendor 0 0 func =? PCI_INVALID_WORD) then
        '(s, ok) <~ enumerate_root fuel s func ;;
        if ok then roots_loop fuel s funcs else Ret s
      else roots_loop fuel s funcs
  end.

Definition pci_enumerate (fuel : nat) (s : pci) : outcome pci :=
  if negb (PCI_IS_MULTIFUNCTION (pci_get_header_type 0 0 0)) then '(s, _) <~ enumerate_root fuel s 0 ;; Ret s
  else roots_loop fuel s (seqZ 0 8).
End Config.

(** * Searching *)

Fixpoint find_device (l : list pci_device_t) (dev func : Z) : option pci_device_t :=
  match l with
  | [] => None
  | d :: l => if (dev_id d =? dev) && (func_id d =? func) then Some d else find_device l dev func
  end.

(** The structure of a bus in the table. *)
Definition bus_at (s : pci) (id : Z) : option pci_bus_t :=
  match g_pci_bus s !! id with None => None | Some p => busses s !! p end.

Definition pci_get_device (s : pci) (bus dev func : Z) : option pci_device_t :=
  match bus_at s bus with None => None | Some b => find_device (devices b) dev func end.

(** Whether [pci_search] takes a device. *)
Definition search_takes (c : pci_class_t) (d : pci_device_t) : bool :=
  (class (device_class d) =? class c) && negb (subclass (device_class d) =? 0)
  && ((progif c =? 255)
      || (progif (device_class d) =? progif c) && ((revid c =? 255) || (revid (device_class d) =? revid c))).

(** The devices found, [length] at most; [None] is NULL. *)
Definition pci_search (s : pci) (c : pci_class_t) (length : Z) : option (list pci_device_t) :=
  if length =? 0 then Some []
  else
    let all := seqZ 0 255 ≫= λ b, match bus_at s b with None => [] | Some bus => filter (λ d, search_takes c d) (devices bus) end in
    match take (Z.to_nat length) all with [] => None | l => Some l end.
