(* ===== verification/PciProps.v ===== *)
(** Enumeration of the PCI bus finds every function the configuration space
    has, on every bus that bridges lead to, and nothing else.  Bridges are
    numbered as firmware does it: the bus behind a bridge has a higher number
    than the bus it is on. *)

From S2P Require Import Prelude Pci.

Section Enumerate.
Context (config : Z → Z).

(** * What is there *)

Definition functions_of (bus dev : Z) : list Z :=
  if pci_get_vendor config bus dev 0 =? PCI_INVALID_WORD then []
  else 0 :: (if PCI_IS_MULTIFUNCTION (pci_get_header_type config bus dev 0)
             then filter (λ f, pci_get_vendor config bus dev f <> PCI_INVALID_WORD) (seqZ 1 7) else []).

Definition on_device (bus dev : Z) : list pci_device_t := read_device config bus dev <$> functions_of bus dev.
Definition found (bus : Z) : list pci_device_t := seqZ 0 32 ≫= on_device bus.

(** A bridge on the first bus leads to the second. *)
Definition leads_to (b c : Z) : Prop := ∃ d, d ∈ found b ∧ is_bridge d = true ∧ c = secondary_bus d.

(** The busses of the host bridges. *)
Definition host_busses : list Z :=
  if PCI_IS_MULTIFUNCTION (pci_get_header_type config 0 0 0)
  then filter (λ f, pci_get_vendor config 0 0 f <> PCI_INVALID_WORD) (seqZ 0 8) else [0].

(** * What enumeration adds *)

(** Structures from before are as they were, except one; every new one has all
    devices of its bus, which satisfies [P]; the table has a new structure for
    every bus of [P], and changes for no other bus. *)
Record grown (P : Z → Prop) (except : option nat) (s s' : pci) : Prop := mk_grown {
  g_old q : (q < length (busses s))%nat → except <> Some q → busses s' !! q = busses s !! q;
  g_len : (length (busses s) <= length (busses s'))%nat;
  g_new q x : (length (busses s) <= q)%nat → busses s' !! q = Some x → devices x = reverse (found (bus_id x)) ∧ P (bus_id x);
  g_tab i : g_pci_bus s' !! i = g_pci_bus s !! i ∨
    ∃ q x, g_pci_bus s' !! i = Some q ∧ (length (busses s) <= q)%nat ∧ busses s' !! q = Some x ∧ bus_id x = i;
  g_all i : P i → ∃ q x, g_pci_bus s' !! i = Some q ∧ (length (busses s) <= q)%nat ∧ busses s' !! q = Some x ∧ bus_id x = i;
}.

Lemma bus_grown_refl e s : grown (λ _, False) e s s.
Proof.
  split; try done; [|by left].
  intros q x Hq Hx. apply lookup_lt_Some in Hx. lia.
Qed.

Lemma bus_grown_weaken P Q e s s' : (∀ i, P i ↔ Q i) → grown P e s s' → grown Q e s s'.
Proof.
  intros H [Ho Hl Hn Ht Ha]. split; [done|done| |done|].
  - intros q x Hq Hx. destruct (Hn q x Hq Hx). split; [done|]. by apply H.
  - intros i Hi. apply Ha. by apply H.
Qed.

Lemma bus_grown_trans P Q e s s1 s2 :
  (∀ p, e = Some p → (p < length (busses s))%nat) →
  grown P e s s1 → grown Q e s1 s2 → grown (λ i, P i ∨ Q i) e s s2.
Proof.
  intros He [Ho1 Hl1 Hn1 Ht1 Ha1] [Ho2 Hl2 Hn2 Ht2 Ha2].
  assert (Hkeep : ∀ q, (length (busses s) <= q)%nat → (q < length (busses s1))%nat → busses s2 !! q = busses s1 !! q).
  { intros q H1 H2. apply Ho2; [done|]. intros E. specialize (He q E). lia. }
  assert (Hcarry : ∀ i q x, g_pci_bus s1 !! i = Some q → (length (busses s) <= q)%nat → busses s1 !! q = Some x → bus_id x = i →
    ∃ q x, g_pci_bus s2 !! i = Some q ∧ (length (busses s) <= q)%nat ∧ busses s2 !! q = Some x ∧ bus_id x = i).
  { intros i q x Hg Hq Hx Hi. destruct (Ht2 i) as [E|(q' & x' & ? & ? & ? & ?)].
    - exists q, x. rewrite E, Hkeep by (try done; by eapply lookup_lt_Some). done.
    - exists q', x'. split_and!; [done|lia|done..]. }
  split.
  - intros q Hq Hne. rewrite Ho2, Ho1 by (try done; lia). done.
  - lia.
  - intros q x Hq Hx. destruct (decide (q < length (busses s1))%nat) as [Hlt|Hge].
    + rewrite Hkeep in Hx by done. destruct (Hn1 q x Hq Hx). auto.
    + destruct (Hn2 q x) as [? ?]; [lia|done|]. auto.
  - intros i. destruct (Ht1 i) as [E1|(q & x & ? & ? & ? & ?)]; [|right; by eapply Hcarry].
    destruct (Ht2 i) as [E2|(q & x & ? & ? & ? & ?)]; [left; congruence|].
    right. exists q, x. split_and!; [done|lia|done..].
  - intros i [Hi|Hi].
    + destruct (Ha1 i Hi) as (q & x & ? & ? & ? & ?). by eapply Hcarry.
    + destruct (Ha2 i Hi) as (q & x & ? & ? & ? & ?). exists q, x. split_and!; [done|lia|done..].
Qed.

(** The busses behind the bridges among some devices. *)
Definition behind (ds : list pci_device_t) (i : Z) : Prop :=
  ∃ d, d ∈ ds ∧ is_bridge d = true ∧ rtc leads_to (secondary_bus d) i.

(** The structure at [p] gets the devices [ds]. *)
Definition visited (s : pci) (p : nat) (ds : list pci_device_t) (s' : pci) : Prop :=
  ∃ x x', busses s !! p = Some x ∧ busses s' !! p = Some x' ∧ bus_id x' = bus_id x ∧
    devices x' = reverse ds ++ devices x ∧ grown (behind ds) (Some p) s s'.

Lemma visited_nil s p x : busses s !! p = Some x → visited s p [] s.
Proof.
  intros H. exists x, x. split_and!; [done..|]. eapply bus_grown_weaken; [|apply bus_grown_refl].
  intros i. split; [done|]. intros (d & Hd & _). by apply not_elem_of_nil in Hd.
Qed.

Lemma visited_app s p ds1 ds2 s1 s2 : visited s p ds1 s1 → visited s1 p ds2 s2 → visited s p (ds1 ++ ds2) s2.
Proof.
  intros (x & x1 & Hx & Hx1 & Hi & Hd & Hg) (y & x2 & Hy & Hx2 & Hi2 & Hd2 & Hg2). simplify_eq.
  exists x, x2. split_and!; [done|done|congruence| |].
  - rewrite Hd2, Hd, reverse_app, <- (assoc_L (++)). done.
  - eapply bus_grown_weaken; [|eapply bus_grown_trans; [|exact Hg|exact Hg2]].
    + intros i. unfold behind. setoid_rewrite elem_of_app. naive_solver.
    + intros q [= <-]. by eapply lookup_lt_Some.
Qed.

Lemma visited_structure s p ds s' x b :
  busses s !! p = Some x → bus_id x = b → visited s p ds s' → ∃ x', busses s' !! p = Some x' ∧ bus_id x' = b.
Proof. intros Hx Hb (y & x' & Hy & Hx' & Hi & _). exists x'. split; [done|]. congruence. Qed.

Lemma found_elem b d : d ∈ found b ↔ ∃ dev func, 0 <= dev < 32 ∧ func ∈ functions_of b dev ∧ d = read_device config b dev func.
Proof.
  unfold found, on_device. rewrite list_elem_of_bind. setoid_rewrite elem_of_seqZ. setoid_rewrite list_elem_of_fmap. naive_solver lia.
Qed.

(** A new structure that is enumerated: the table has its bus and those behind
    it.  [e] is the structure of the bus that the bridge is on. *)
Lemma enter_bus s s1 s' e q x :
  q = length (busses s) → length (busses s1) = S q → busses s1 !! q = Some x → devices x = [] →
  (∀ q0, (q0 < q)%nat → e <> Some q0 → busses s1 !! q0 = busses s !! q0) →
  g_pci_bus s1 = <[bus_id x := q]> (g_pci_bus s) → visited s1 q (found (bus_id x)) s' →
  grown (rtc leads_to (bus_id x)) e s s'.
Proof.
  intros Hq Hl1 Hx Hdev Hold Htab (y & x' & Hy & Hx' & Hi & Hd & [Ho Hl Hn Ht Ha]). simplify_eq.
  rewrite Hdev, app_nil_r in Hd.
  assert (Hself : ∃ q0 x0, g_pci_bus s' !! bus_id x = Some q0 ∧ (length (busses s) <= q0)%nat ∧ busses s' !! q0 = Some x0 ∧ bus_id x0 = bus_id x).
  { destruct (Ht (bus_id x)) as [E|(q0 & x0 & ? & ? & ? & ?)].
    - exists (length (busses s)), x'. rewrite E, Htab, lookup_insert_eq. done.
    - exists q0, x0. split_and!; [done|lia|done..]. }
  split.
  - intros q0 Hq0 Hne. rewrite Ho by (try lia; intros [= E]; lia). by apply Hold.
  - lia.
  - intros q0 x0 Hq0 Hx0. destruct (decide (q0 = length (busses s))) as [->|Hne].
    + simplify_eq. rewrite Hi. split; [done|apply rtc_refl].
    + destruct (Hn q0 x0) as [Hc (d & Hin & Hbr & Hr)]; [lia|done|]. split; [done|].
      eapply rtc_l; [|exact Hr]. by exists d.
  - intros i. destruct (decide (i = bus_id x)) as [->|Hne]; [by right|].
    destruct (Ht i) as [E|(q0 & x0 & ? & ? & ? & ?)].
    + left. rewrite E, Htab. by apply lookup_insert_ne.
    + right. exists q0, x0. split_and!; [done|lia|done..].
  - intros i Hr. inversion Hr as [|? c ? (d & Hin & Hbr & ->) Hr' E1 E2]; subst; [done|].
    destruct (Ha i) as (q0 & x0 & ? & ? & ? & ?); [by exists d|]. exists q0, x0. split_and!; [done|lia|done..].
Qed.

(** * The loops *)

Context (alloc : nat → bool).
Hypothesis Halloc : ∀ n, alloc n = true.
Hypothesis Hnumbers : ∀ b d, 0 <= b < 255 → d ∈ found b → is_bridge d = true → b < secondary_bus d < 255.

Section Bus.
Context (enumerate : pci → nat → outcome pci) (b : Z).
Hypothesis Hb : 0 <= b < 255.
Hypothesis Hrec : ∀ s q x, busses s !! q = Some x → devices x = [] → b < bus_id x < 255 →
  ∃ s', enumerate s q = Ret s' ∧ visited s q (found (bus_id x)) s'.

Lemma function_visited s p x dev func :
  busses s !! p = Some x → bus_id x = b → read_device config b dev func ∈ found b →
  ∃ s', pci_enumerate_function config alloc enumerate s p dev func = Ret s' ∧ visited s p [read_device config b dev func] s'.
Proof using Halloc Hnumbers Hb Hrec.
  intros Hx Hid Hin. unfold pci_enumerate_function. rewrite Hx. cbn [or_halt obind kmalloc]. rewrite Halloc. cbn [negb].
  rewrite Hid. set (d := read_device config b dev func) in *.
  assert (Hp : (p < length (busses s))%nat) by (by eapply lookup_lt_Some).
  destruct (is_bridge d) eqn:Hbr.
  - cbn [kmalloc update_bus requests busses g_pci_bus]. rewrite Halloc. cbn [negb].
    specialize (Hnumbers b d Hb Hin Hbr). unfold new_bus. rewrite (proj2 (andb_true_iff _ _)) by lia. cbn [obind update_bus busses g_pci_bus requests].
    rewrite length_alter. set (q := length (busses s)).
    set (nb := mk_bus (secondary_bus d) b dev func [] []).
    set (l := alter (add_child q) p (alter (add_device d) p (busses s) ++ [nb])).
    assert (Hl : l = alter (add_child q) p (alter (add_device d) p (busses s)) ++ [nb]).
    { subst l. apply alter_app_l. by rewrite length_alter. }
    assert (Hq : l !! q = Some nb).
    { rewrite Hl. rewrite lookup_app_r by (rewrite !length_alter; done). rewrite !length_alter. subst q. by rewrite Nat.sub_diag. }
    assert (Hlp : l !! p = Some (add_child q (add_device d x))).
    { rewrite Hl, lookup_app_l by (by rewrite !length_alter). rewrite !list_lookup_alter_eq, Hx. done. }
    match goal with |- context [enumerate ?s1 q] => destruct (Hrec s1 q nb Hq eq_refl) as (s' & -> & Hv); [cbn; lia|] end.
    exists s'. split; [done|].
    assert (Hp' : busses s' !! p = Some (add_child q (add_device d x))).
    { destruct Hv as (? & ? & _ & _ & _ & _ & [Ho _ _ _ _]). rewrite Ho; [done| |intros [= E]; subst q; lia].
      cbn [busses]. by eapply lookup_lt_Some. }
    exists x, (add_child q (add_device d x)). split_and!; [done..|].
    eapply bus_grown_weaken; [|eapply (enter_bus s _ s' (Some p) q nb); [done| | | | | |exact Hv]; [|exact Hq|reflexivity| |reflexivity]].
    + intros i. unfold behind. setoid_rewrite list_elem_of_singleton. cbn [bus_id nb]. naive_solver.
    + cbn [update_bus busses]. fold l. rewrite Hl, length_app, !length_alter. cbn. subst q. lia.
    + intros q0 Hq0 Hne. cbn [update_bus busses]. fold l. rewrite Hl, lookup_app_l by (by rewrite !length_alter).
      by rewrite !list_lookup_alter_ne by congruence.
  - eexists. split; [reflexivity|]. exists x, (add_device d x). cbn [update_bus busses].
    split_and!; [done|by rewrite list_lookup_alter_eq, Hx|done|done|].
    split; cbn [update_bus busses g_pci_bus].
    + intros q Hq Hne. by rewrite list_lookup_alter_ne by congruence.
    + by rewrite length_alter.
    + intros q y Hq Hy. apply lookup_lt_Some in Hy. rewrite length_alter in Hy. lia.
    + by left.
    + intros i (d' & Hd' & Hbr' & _). apply list_elem_of_singleton in Hd'. congruence.
Qed.

Lemma functions_visited s p x dev funcs :
  busses s !! p = Some x → bus_id x = b →
  (∀ f, f ∈ funcs → pci_get_vendor config b dev f <> PCI_INVALID_WORD → read_device config b dev f ∈ found b) →
  ∃ s', functions_loop config alloc enumerate s p b dev funcs = Ret s' ∧
    visited s p (read_device config b dev <$> filter (λ f, pci_get_vendor config b dev f <> PCI_INVALID_WORD) funcs) s'.
Proof using Halloc Hnumbers Hb Hrec.
  revert s x. induction funcs as [|f funcs IH]; intros s x Hx Hid Hin; cbn [functions_loop].
  { exists s. split; [done|]. by eapply visited_nil. }
  rewrite filter_cons. destruct (Z.eqb_spec (pci_get_vendor config b dev f) PCI_INVALID_WORD) as [E|E]; cbn [negb obind].
  - rewrite decide_False by (by intros []). apply (IH s x); [done..|]. intros f' Hf'. apply Hin. by right.
  - rewrite decide_True by done. destruct (function_visited s p x dev f) as (s1 & -> & Hv1); [done|done|apply Hin; [by left|done]|].
    cbn [obind]. destruct (visited_structure _ _ _ _ _ b Hx Hid Hv1) as (x1 & Hx1 & Hid1).
    destruct (IH s1 x1) as (s2 & -> & Hv2); [done|done|intros f' Hf'; apply Hin; by right|].
    exists s2. split; [done|]. exact (visited_app _ _ [_] _ _ _ Hv1 Hv2).
Qed.

Lemma device_visited s p x dev :
  busses s !! p = Some x → bus_id x = b → 0 <= dev < 32 →
  ∃ s', pci_enumerate_device config alloc enumerate s p dev = Ret s' ∧ visited s p (on_device b dev) s'.
Proof using Halloc Hnumbers Hb Hrec.
  intros Hx Hid Hdev. unfold pci_enumerate_device. rewrite Hx. cbn [or_halt obind]. rewrite Hid.
  assert (Hf : ∀ f, f ∈ functions_of b dev → read_device config b dev f ∈ found b).
  { intros f Hf. apply found_elem. by exists dev, f. }
  unfold on_device, functions_of in *. destruct (Z.eqb_spec (pci_get_vendor config b dev 0) PCI_INVALID_WORD) as [E|E].
  { exists s. split; [done|]. by eapply visited_nil. }
  destruct (function_visited s p x dev 0) as (s1 & -> & Hv1); [done|done|apply Hf; by left|].
  cbn [obind]. destruct (visited_structure _ _ _ _ _ b Hx Hid Hv1) as (x1 & Hx1 & Hid1).
  destruct (PCI_IS_MULTIFUNCTION _); [|by exists s1].
  destruct (functions_visited s1 p x1 dev (seqZ 1 7)) as (s2 & -> & Hv2); [done|done| |].
  { intros f Hf1 Hf2. apply Hf. right. by apply list_elem_of_filter. }
  exists s2. split; [done|]. exact (visited_app _ _ [_] _ _ _ Hv1 Hv2).
Qed.

Lemma devices_visited s p x devs :
  busses s !! p = Some x → bus_id x = b → (∀ dev, dev ∈ devs → 0 <= dev < 32) →
  ∃ s', devices_loop config alloc enumerate s p devs = Ret s' ∧ visited s p (devs ≫= on_device b) s'.
Proof using Halloc Hnumbers Hb Hrec.
  revert s x. induction devs as [|dev devs IH]; intros s x Hx Hid Hdevs; cbn [devices_loop].
  { exists s. split; [done|]. by eapply visited_nil. }
  destruct (device_visited s p x dev) as (s1 & -> & Hv1); [done|done|apply Hdevs; by left|].
  cbn [obind]. destruct (visited_structure _ _ _ _ _ b Hx Hid Hv1) as (x1 & Hx1 & Hid1).
  destruct (IH s1 x1) as (s2 & -> & Hv2); [done|done|intros dev' Hd; apply Hdevs; by right|].
  exists s2. split; [done|]. exact (visited_app _ _ _ _ _ _ Hv1 Hv2).
Qed.
End Bus.

(** Bridges lead to higher numbers, so 255 levels are enough. *)
Lemma bus_visited fuel s p x :
  busses s !! p = Some x → 0 <= bus_id x < 255 → 255 - bus_id x <= Z.of_nat fuel →
  ∃ s', pci_enumerate_bus config alloc fuel s p = Ret s' ∧ visited s p (found (bus_id x)) s'.
Proof using Halloc Hnumbers.
  revert s p x. induction fuel as [|fuel IH]; intros s p x Hx Hid Hf; [lia|]. cbn [pci_enumerate_bus].
  apply (devices_visited _ (bus_id x)) with x; [lia| |done|done|].
  - intros s0 q y Hy _ Hlt. apply IH; [done|lia|lia].
  - intros dev Hd. by apply elem_of_seqZ in Hd.
Qed.

Lemma root_grown fuel s id :
  0 <= id < 255 → 255 <= Z.of_nat fuel →
  ∃ s', enumerate_root config alloc fuel s id = Ret (s', true) ∧ grown (rtc leads_to id) None s s'.
Proof using Halloc Hnumbers.
  intros Hid Hf. unfold enumerate_root. cbn [kmalloc]. rewrite Halloc. cbn [negb].
  unfold new_bus. rewrite (proj2 (andb_true_iff _ _)) by lia. cbn [obind busses g_pci_bus requests].
  set (nb := mk_bus id 255 255 255 [] []).
  match goal with |- context [pci_enumerate_bus _ _ _ ?s1 ?q] => destruct (bus_visited fuel s1 q nb) as (s' & -> & Hv) end.
  { cbn [busses]. rewrite lookup_app_r, Nat.sub_diag by done. done. }
  { done. }
  { cbn [bus_id nb]. lia. }
  cbn [obind]. exists s'. split; [done|].
  eapply (enter_bus s _ s' None (length (busses s)) nb); [done| | | | | |exact Hv]; cbn [busses].
  - rewrite length_app. cbn. lia.
  - rewrite lookup_app_r, Nat.sub_diag by done. done.
  - done.
  - intros q0 Hq0 _. by apply lookup_app_l.
  - done.
Qed.

Lemma roots_grown fuel s funcs :
  (∀ f, f ∈ funcs → 0 <= f < 255) → 255 <= Z.of_nat fuel →
  ∃ s', roots_loop config alloc fuel s funcs = Ret s' ∧
    grown (λ i, ∃ h, h ∈ filter (λ f, pci_get_vendor config 0 0 f <> PCI_INVALID_WORD) funcs ∧ rtc leads_to h i) None s s'.
Proof using Halloc Hnumbers.
  intros Hfs Hf. revert s. induction funcs as [|f funcs IH]; intros s; cbn [roots_loop].
  { exists s. split; [done|]. eapply bus_grown_weaken; [|apply bus_grown_refl]. intros i. split; [done|].
    intros (h & Hh & _). by apply not_elem_of_nil in Hh. }
  assert (Hfs' : ∀ f, f ∈ funcs → 0 <= f < 255) by (intros f' Hf'; apply Hfs; by right).
  rewrite filter_cons. destruct (Z.eqb_spec (pci_get_vendor config 0 0 f) PCI_INVALID_WORD) as [E|E]; cbn [negb].
  - rewrite decide_False by (by intros []). by apply IH.
  - rewrite decide_True by done. destruct (root_grown fuel s f) as (s1 & -> & Hg1); [apply Hfs; by left|done|].
    cbn [obind]. destruct (IH Hfs' s1) as (s2 & -> & Hg2). exists s2. split; [done|].
    eapply bus_grown_weaken; [|eapply bus_grown_trans; [done|exact Hg1|exact Hg2]].
    intros i. setoid_rewrite elem_of_cons. naive_solver.
Qed.

(** * The whole bus *)

Lemma find_device_spec l b dev func d :
  (∀ y, y ∈ l → ∃ dv f, y = read_device config b dv f) →
  find_device l dev func = Some d ↔ d ∈ l ∧ dev_id d = dev ∧ func_id d = func.
Proof.
  intros Hl. induction l as [|y l IH]; cbn [find_device].
  { split; [done|]. intros [Hd _]. by apply not_elem_of_nil in Hd. }
  rewrite elem_of_cons. specialize (IH (λ z Hz, Hl z (list_elem_of_further _ _ _ Hz))).
  destruct (Z.eqb_spec (dev_id y) dev) as [<-|]; [destruct (Z.eqb_spec (func_id y) func) as [<-|]|]; cbn [andb].
  - split; [intros [= <-]; naive_solver|]. intros ([->|Hd] & H1 & H2); [done|]. f_equal.
    destruct (Hl y) as (dv & f & ->); [by left|]. destruct (Hl d) as (dv' & f' & ->); [by right|].
    cbn in H1, H2. congruence.
  - rewrite IH. naive_solver.
  - rewrite IH. naive_solver.
Qed.

Lemma found_read b y : y ∈ reverse (found b) → ∃ dv f, y = read_device config b dv f.
Proof. rewrite elem_of_reverse, found_elem. naive_solver. Qed.

(** The busses that host bridges and bridges lead to. *)
Definition reachable (i : Z) : Prop := ∃ h, h ∈ host_busses ∧ rtc leads_to h i.

Lemma enumerate_grown fuel s :
  255 <= Z.of_nat fuel → ∃ s', pci_enumerate config alloc fuel s = Ret s' ∧ grown reachable None s s'.
Proof using Halloc Hnumbers.
  intros Hf. unfold pci_enumerate, reachable, host_busses. destruct (PCI_IS_MULTIFUNCTION _); cbn [negb].
  - apply roots_grown; [|done]. intros f Hfs. apply elem_of_seqZ in Hfs. lia.
  - destruct (root_grown fuel s 0) as (s' & -> & Hg); [lia|done|]. exists s'. split; [done|].
    eapply bus_grown_weaken; [|exact Hg]. intros i. setoid_rewrite list_elem_of_singleton. naive_solver.
Qed.

(** C31: enumeration returns, and afterwards [pci_get_device] finds exactly the
    functions that exist on the busses that can be reached: a device is found
    at an address if and only if its bus is one of a host bridge or behind
    bridges, the function answers, and, above function 0, the device says that
    it has several.  What is found is the contents of its configuration space.
    Firmware numbers the bus behind a bridge higher than the bus it is on and
    below 255, and memory does not run out. *)
Theorem pci_enumerate_complete fuel :
  255 <= Z.of_nat fuel →
  ∃ s, pci_enumerate config alloc fuel (mk_pci [] ∅ 0) = Ret s ∧
    ∀ i dev func d, pci_get_device s i dev func = Some d ↔
      reachable i ∧ 0 <= dev < 32 ∧ func ∈ functions_of i dev ∧ d = read_device config i dev func.
Proof using Halloc Hnumbers.
  intros Hf. destruct (enumerate_grown fuel (mk_pci [] ∅ 0) Hf) as (s & He & [_ _ Hn Ht Ha]). exists s. split; [done|].
  intros i dev func d. unfold pci_get_device, bus_at.
  destruct (g_pci_bus s !! i) as [q|] eqn:Eg.
  - destruct (Ht i) as [E|(q' & x & Hq & _ & Hx & Hi)]; [cbn in E; rewrite lookup_empty in E; congruence|].
    rewrite Eg in Hq. injection Hq as <-. rewrite Hx.
    destruct (Hn q x) as [Hd HP]; [cbn; lia|done|]. rewrite Hi in Hd, HP. rewrite Hd.
    rewrite (find_device_spec _ i) by apply found_read. rewrite elem_of_reverse, found_elem.
    split.
    + intros ((dv & f & ? & ? & ->) & <- & <-). done.
    + intros (_ & ? & ? & ->). split; [by exists dev, func|done].
  - split; [done|]. intros (Hr & _). destruct (Ha i Hr) as (q & x & Hq & _). congruence.
Qed.
End Enumerate.

(** * Examples and faults *)

(** A machine with a host bridge, a disk controller with two functions, and a
    network card behind a bridge; faults of [pci.c]. *)

(** * The machine *)

(** The parts of an address. *)
Definition a_bus (a : Z) : Z := Z.land (Z.shiftr a 16) 255.
Definition a_dev (a : Z) : Z := Z.land (Z.shiftr a 11) 31.
Definition a_func (a : Z) : Z := Z.land (Z.shiftr a 8) 7.
Definition a_reg (a : Z) : Z := Z.land a 252.

(** Vendor, class and header type of a function; a bridge has a secondary bus. *)
Definition card (vendor class subclass header secondary reg : Z) : Z :=
  if reg =? 0 then vendor else if reg =? 8 then class * 16777216 + subclass * 65536
  else if reg =? 12 then header * 65536 else if reg =? 24 then secondary * 256 else 0.

Definition demo_config (a : Z) : Z :=
  let at_ bus dev func := (a_bus a =? bus) && (a_dev a =? dev) && (a_func a =? func) in
  if at_ 0 0 0 then card 32902 6 0 0 0 (a_reg a)
  else if at_ 0 1 0 then card 32902 6 1 128 0 (a_reg a)
  else if at_ 0 1 1 then card 32902 1 1 0 0 (a_reg a)
  else if at_ 0 2 0 then card 32902 6 4 1 1 (a_reg a)
  else if at_ 1 3 0 then card 4332 2 0 0 0 (a_reg a)
  else 4294967295.

Definition all_memory (n : nat) : bool := true.

Lemma demo_numbers b d :
  0 <= b < 255 → d ∈ found demo_config b → is_bridge d = true → b < secondary_bus d < 255.
Proof.
  assert (H : forallb (λ b, forallb (λ d, implb (is_bridge d) ((b <? secondary_bus d) && (secondary_bus d <? 255)))
    (found demo_config b)) (seqZ 0 255) = true) by (vm_compute; reflexivity).
  intros Hb Hd Hbr. rewrite forallb_forall in H. specialize (H b).
  assert (Hin : In b (seqZ 0 255)) by (apply list_elem_of_In, elem_of_seqZ; lia).
  specialize (H Hin). rewrite forallb_forall in H. specialize (H d (proj1 (list_elem_of_In _ _) Hd)).
  rewrite Hbr in H. cbn [implb] in H. zbool. lia.
Qed.

Lemma pci_enumerate_witness :
  ∃ s, pci_enumerate demo_config all_memory 255 (mk_pci [] ∅ 0) = Ret s ∧
    (pci_get_device s 1 3 0 = Some (read_device demo_config 1 3 0)) ∧ pci_get_device s 1 2 0 = None.
Proof.
  destruct (pci_enumerate_complete demo_config all_memory (λ n, eq_refl) demo_numbers 255 ltac:(lia)) as (s & He & H).
  exists s. split; [exact He|]. split.
  - apply H. split; [|split; [lia|split; [vm_compute; left|reflexivity]]].
    exists 0. split; [vm_compute; left|]. apply rtc_once. exists (read_device demo_config 0 2 0).
    split; [|split; vm_compute; reflexivity].
    apply found_elem. exists 2, 0. split; [lia|]. split; [vm_compute; left|reflexivity].
  - destruct (pci_get_device s 1 2 0) as [d|] eqn:E; [|reflexivity].
    apply H in E as (_ & _ & Hf & _). exfalso. vm_compute in Hf. inversion Hf.
Defined.

(** * Faults *)

Definition demo_state : outcome pci := pci_enumerate demo_config all_memory 255 (mk_pci [] ∅ 0).

(** [pci_search] does not compare the subclass, it only wants one that is not
    zero: a search for class 6, subclass 1, also gives the bridge of subclass 4
    (and a host bridge, subclass 0, is never found). *)
Theorem pci_search_ignores_subclass :
  ∃ s, demo_state = Ret s ∧
    (option_map (map (λ d, subclass (device_class d))) (pci_search s (mk_class 255 255 1 6) 10) = Some [4; 1]) ∧
    (option_map (map (λ d, subclass (device_class d))) (pci_search s (mk_class 255 255 0 6) 10) = Some [4; 1]).
Proof. eexists. split; [vm_compute; reflexivity|]. split; vm_compute; reflexivity. Qed.

(** A bridge that firmware did not number leads to bus 0 again, without end. *)
Definition loop_config (a : Z) : Z :=
  if (a_bus a =? 0) && (a_dev a =? 0) && (a_func a =? 0) then card 32902 6 0 0 0 (a_reg a)
  else if (a_bus a =? 0) && (a_dev a =? 1) && (a_func a =? 0) then card 32902 6 4 1 0 (a_reg a) else 4294967295.
Lemma plain_device config en s p x dev :
  busses s !! p = Some x → (pci_get_vendor config (bus_id x) dev 0 =? PCI_INVALID_WORD) = false →
  is_bridge (read_device config (bus_id x) dev 0) = false →
  PCI_IS_MULTIFUNCTION (pci_get_header_type config (bus_id x) dev 0) = false →
  ∃ s1, pci_enumerate_device config all_memory en s p dev = Ret s1 ∧
    busses s1 !! p = Some (add_device (read_device config (bus_id x) dev 0) x).
Proof.
  intros Hx Hv Hb Hm. unfold pci_enumerate_device. rewrite Hx. cbn [or_halt obind]. rewrite Hv.
  unfold pci_enumerate_function. rewrite Hx. cbn [or_halt obind kmalloc all_memory negb]. rewrite Hb. cbn [obind]. rewrite Hm.
  eexists. split; [reflexivity|]. cbn [update_bus busses]. by rewrite list_lookup_alter_eq, Hx.
Qed.

Lemma bridge_device config en s p x dev :
  busses s !! p = Some x → (pci_get_vendor config (bus_id x) dev 0 =? PCI_INVALID_WORD) = false →
  is_bridge (read_device config (bus_id x) dev 0) = true → secondary_bus (read_device config (bus_id x) dev 0) = 0 →
  (∀ s q y, busses s !! q = Some y → bus_id y = 0 → en s q = OutOfFuel) →
  pci_enumerate_device config all_memory en s p dev = OutOfFuel.
Proof.
  intros Hx Hv Hb Hs Hen. unfold pci_enumerate_device. rewrite Hx. cbn [or_halt obind]. rewrite Hv.
  unfold pci_enumerate_function. rewrite Hx. cbn [or_halt obind kmalloc all_memory negb]. rewrite Hb, Hs.
  cbn [new_bus Z.leb Z.ltb Z.compare andb obind].
  rewrite (Hen _ _ (mk_bus 0 (bus_id x) dev 0 [] [])); [done| |done].
  cbn [update_bus busses]. rewrite list_lookup_alter_ne, lookup_app_r, Nat.sub_diag; [done|done|].
  rewrite length_alter. apply lookup_lt_Some in Hx. lia.
Qed.

Lemma pci_enumerate_bus_S config alloc fuel s p :
  pci_enumerate_bus config alloc (S fuel) s p = devices_loop config alloc (pci_enumerate_bus config alloc fuel) s p (seqZ 0 32).
Proof. reflexivity. Qed.

Lemma devices_loop_cons config alloc en s p dev devs :
  devices_loop config alloc en s p (dev :: devs) = (s <~ pci_enumerate_device config alloc en s p dev ;; devices_loop config alloc en s p devs).
Proof. reflexivity. Qed.

Lemma loop_bus fuel s p x :
  busses s !! p = Some x → bus_id x = 0 → pci_enumerate_bus loop_config all_memory fuel s p = OutOfFuel.
Proof.
  revert s p x. induction fuel as [|fuel IH]; intros s p x Hx Hid; [done|].
  assert (Hloop : seqZ 0 32 = 0 :: 1 :: seqZ 2 30) by (vm_compute; reflexivity).
  rewrite pci_enumerate_bus_S, Hloop, devices_loop_cons.
  destruct (plain_device loop_config (pci_enumerate_bus loop_config all_memory fuel) s p x 0) as (s1 & -> & Hx1); [done| | | |].
  1-3: rewrite Hid; vm_compute; reflexivity.
  cbn [obind]. rewrite devices_loop_cons, (bridge_device _ _ _ _ _ _ Hx1); [reflexivity| | | |exact IH].
  all: cbn [add_device bus_id]; rewrite Hid; vm_compute; reflexivity.
Qed.

Theorem pci_unnumbered_bridge_hangs fuel :
  pci_enumerate loop_config all_memory fuel (mk_pci [] ∅ 0) = OutOfFuel.
Proof.
  unfold pci_enumerate. replace (PCI_IS_MULTIFUNCTION (pci_get_header_type loop_config 0 0 0)) with false by (vm_compute; reflexivity).
  cbn [negb enumerate_root kmalloc all_memory new_bus Z.leb Z.ltb Z.compare andb obind busses g_pci_bus requests].
  by rewrite (loop_bus _ _ _ (mk_bus 0 255 255 255 [] [])).
Qed.

(** A device structure that cannot be allocated is used all the same. *)
Theorem pci_no_memory_faults : pci_enumerate demo_config (λ n, (n <? 1)%nat) 255 (mk_pci [] ∅ 0) = Halt.
Proof. vm_compute. reflexivity. Qed.

(** The table has no entry for bus 255. *)
Definition last_config (a : Z) : Z :=
  if (a_bus a =? 0) && (a_dev a =? 0) && (a_func a =? 0) then card 32902 6 0 0 0 (a_reg a)
  else if (a_bus a =? 0) && (a_dev a =? 1) && (a_func a =? 0) then card 32902 6 4 1 255 (a_reg a) else 4294967295.
Theorem pci_bus_255_faults : pci_enumerate last_config all_memory 255 (mk_pci [] ∅ 0) = Halt.
Proof. vm_compute. reflexivity. Qed.
