(* ===== verification/Interrupts.v ===== *)
(** Descriptor tables and interrupt dispatch:
    [src/kernel/src/descriptor_tables.c].

    Function pointers are addresses: [isr] and [irq] give those of the entry
    stubs, which are assembly, [syscall_intr] that of the system call stub.
    [ports] has the bytes written to I/O ports, the oldest first.  A handler
    reports which callback it calls with which context. *)

From S2P Require Import Prelude.

Definition GDT_SIZE : Z := 6.
Definition TSS_SIZE : Z := 104.

Record gdt_entry := mk_gdt {
  limit_low : Z; base_low : Z; base_middle : Z; access : Z; granularity : Z; base_high : Z }.
Record idt_entry := mk_idt { i_base_low : Z; i_selector : Z; i_always0 : Z; i_flags : Z; i_base_high : Z }.
Record table_ptr := mk_ptr { p_limit : Z; p_base : Z }.

Record descr := mk_descr_tables {
  gdt_table : list gdt_entry; gdt_ptr : table_ptr;
  idt_table : list idt_entry; idt_ptr : table_ptr;
  isr_callback : list Z; isr_context : list Z;
  ports : list (Z * Z);
}.

Definition with_gdt (d : descr) (l : list gdt_entry) (p : table_ptr) : descr :=
  mk_descr_tables l p (idt_table d) (idt_ptr d) (isr_callback d) (isr_context d) (ports d).
Definition with_idt (d : descr) (l : list idt_entry) (p : table_ptr) : descr :=
  mk_descr_tables (gdt_table d) (gdt_ptr d) l p (isr_callback d) (isr_context d) (ports d).
Definition with_callbacks (d : descr) (cb ctx : list Z) : descr :=
  mk_descr_tables (gdt_table d) (gdt_ptr d) (idt_table d) (idt_ptr d) cb ctx (ports d).
Definition outb (d : descr) (port v : Z) : descr :=
  mk_descr_tables (gdt_table d) (gdt_ptr d) (idt_table d) (idt_ptr d) (isr_callback d) (isr_context d) (ports d ++ [(port, v)]).

(** * Tables *)

Definition gdt_set_gate (d : descr) (n base limit acc gran : Z) : descr :=
  if (GDT_SIZE <=? n) || (n <? 0) then d
  else
    let e := mk_gdt (Z.land limit 65535) (Z.land base 65535) (u8 (Z.shiftr (Z.land base 16711680) 16)) acc
               (Z.lor (u8 (Z.land (Z.shiftr limit 16) 15)) (Z.land gran 240))
               (u8 (Z.shiftr (Z.land base 4278190080) 24)) in
    with_gdt d (<[Z.to_nat n := e]> (gdt_table d)) (gdt_ptr d).

Definition idt_set_gate (d : descr) (n base sel flags : Z) : descr :=
  if 256 <=? n then d
  else
    let e := mk_idt (Z.land base 65535) sel 0 flags (Z.land (Z.shiftr base 16) 65535) in
    with_idt d (<[Z.to_nat n := e]> (idt_table d)) (idt_ptr d).

Definition register_interrupt_context (d : descr) (n context callback : Z) : descr :=
  with_callbacks d (<[Z.to_nat n := callback]> (isr_callback d)) (<[Z.to_nat n := context]> (isr_context d)).
Definition register_interrupt (d : descr) (n callback : Z) : descr := register_interrupt_context d n 0 callback.
(** The context stays. *)
Definition unregister_interrupt (d : descr) (n : Z) : descr :=
  with_callbacks d (<[Z.to_nat n := 0]> (isr_callback d)) (isr_context d).

Section Init.
Context (gdt_address idt_address tss_entry : Z) (isr irq : Z → Z) (syscall_intr debug_interrupt syscall_handler : Z).

Definition initialize_gdt (d : descr) : descr :=
  let d := with_gdt d (gdt_table d) (mk_ptr (8 * GDT_SIZE - 1) gdt_address) in
  let d := gdt_set_gate d 0 0 0 0 0 in
  let d := gdt_set_gate d 1 0 4294967295 154 207 in
  let d := gdt_set_gate d 2 0 4294967295 146 207 in
  let d := gdt_set_gate d 3 0 4294967295 250 207 in
  let d := gdt_set_gate d 4 0 4294967295 242 207 in
  gdt_set_gate d 5 tss_entry TSS_SIZE 137 64.

(** [n] gates from [first] on, to the stubs of [handler]. *)
Fixpoint set_gates (d : descr) (n : nat) (first k : Z) (handler : Z → Z) : descr :=
  match n with
  | O => d
  | S n => set_gates (idt_set_gate d (first + k) (handler k) 8 142) n first (k + 1) handler
  end.

(** The initialisation of both interrupt controllers. *)
Definition remap : list (Z * Z) :=
  [(32, 17); (160, 17); (33, 32); (161, 40); (33, 4); (161, 2); (33, 1); (161, 1); (33, 0); (161, 0)].
Fixpoint outbs (d : descr) (l : list (Z * Z)) : descr := match l with [] => d | (p, v) :: l => outbs (outb d p v) l end.

Definition initialize_idt (d : descr) : descr :=
  let d := with_idt d (idt_table d) (mk_ptr (8 * 256 - 1) idt_address) in
  let d := set_gates d 32 0 0 isr in
  let d := idt_set_gate d 128 syscall_intr 8 238 in
  let d := outbs d remap in
  let d := set_gates d 16 32 0 irq in
  let d := register_interrupt d 1 debug_interrupt in
  register_interrupt d 128 syscall_handler.

(** [eflags]: what [disablei] returned; the value restored comes second. *)
Definition initialize_descriptor_tables (d : descr) (eflags : Z) : descr * Z :=
  let d := initialize_idt (initialize_gdt d) in
  (d, Z.land (Z.land eflags (Z.lnot (Z.shiftl 1 12))) (Z.lnot (Z.shiftl 1 13))).
End Init.

(** Static tables start zeroed. *)
Definition zeroed : descr :=
  mk_descr_tables (replicate 6 (mk_gdt 0 0 0 0 0 0)) (mk_ptr 0 0) (replicate (Z.to_nat 256) (mk_idt 0 0 0 0 0)) (mk_ptr 0 0)
    (replicate (Z.to_nat 256) 0) (replicate (Z.to_nat 256) 0) [].

(** * Dispatch *)

(** The callback and its context, or NULL. *)
Definition callback_of (d : descr) (intno : Z) : option (Z * Z) :=
  let cb := isr_callback d !!! Z.to_nat intno in
  if cb =? 0 then None else Some (cb, isr_context d !!! Z.to_nat intno).

(** Without a callback, an exception stops the kernel. *)
Definition isr_handler (d : descr) (intno : Z) : outcome (Z * Z) := or_halt (callback_of d intno).

(** The end of the interrupt is reported before the callback runs. *)
Definition irq_handler (d : descr) (intno : Z) : descr * option (Z * Z) :=
  let d := if 40 <=? intno then outb d 160 32 else d in
  let d := outb d 32 32 in
  (d, callback_of d intno).
