(* ===== verification/InterruptsProps.v ===== *)
(** What the processor and the interrupt controllers make of the tables: every
    hardware interrupt arrives at its stub in kernel mode, and the callback
    that was registered for it is called. *)

From S2P Require Import Prelude Memory Interrupts.

(** * How the hardware reads the tables *)

Definition seg_base (e : gdt_entry) : Z := base_low e + 65536 * base_middle e + 16777216 * base_high e.
(** The last byte: the limit counts pages when bit 7 is set. *)
Definition seg_last (e : gdt_entry) : Z :=
  let limit := limit_low e + 65536 * Z.land (granularity e) 15 in
  if Z.testbit (granularity e) 7 then limit * 4096 + 4095 else limit.
Definition seg_dpl (e : gdt_entry) : Z := Z.land (Z.shiftr (access e) 5) 3.
Definition seg_code (e : gdt_entry) : bool := Z.testbit (access e) 7 && Z.testbit (access e) 4 && Z.testbit (access e) 3.

Definition gate_offset (e : idt_entry) : Z := i_base_low e + 65536 * i_base_high e.
Definition gate_present (e : idt_entry) : bool := Z.testbit (i_flags e) 7.
Definition gate_dpl (e : idt_entry) : Z := Z.land (Z.shiftr (i_flags e) 5) 3.
Definition gate_type (e : idt_entry) : Z := Z.land (i_flags e) 31.

(** An interrupt controller: the initialisation word it waits for (0: none),
    the first vector and the mask.  A write with bit 4 to its first port starts
    an initialisation; the second word is the first vector, the third and, if
    asked for, the fourth follow. *)
Record pic := mk_pic { waits : Z; first_vector : Z; mask : Z }.
Definition pic_command (p : pic) (v : Z) : pic := if Z.testbit v 4 then mk_pic 2 (first_vector p) (mask p) else p.
Definition pic_data (p : pic) (v : Z) : pic :=
  if waits p =? 2 then mk_pic 3 (Z.land v 248) (mask p)
  else if waits p =? 3 then mk_pic 4 (first_vector p) (mask p)
  else if waits p =? 4 then mk_pic 0 (first_vector p) (mask p)
  else mk_pic 0 (first_vector p) v.
Definition pics_step (s : pic * pic) (w : Z * Z) : pic * pic :=
  let '(port, v) := w in
  if port =? 32 then (pic_command s.1 v, s.2) else if port =? 33 then (pic_data s.1 v, s.2)
  else if port =? 160 then (s.1, pic_command s.2 v) else if port =? 161 then (s.1, pic_data s.2 v) else s.
Definition pics (log : list (Z * Z)) : pic * pic := foldl pics_step (mk_pic 0 8 255, mk_pic 0 112 255) log.
(** The vector of a line, if the controllers are ready and let it through. *)
Definition irq_vector (s : pic * pic) (line : Z) : option Z :=
  let p := if line <? 8 then s.1 else s.2 in
  let l := if line <? 8 then line else line - 8 in
  if (waits p =? 0) && negb (Z.testbit (mask p) l) then Some (first_vector p + l) else None.

(** * Entries *)

Lemma land_shiftr_byte v k : 0 <= k → Z.shiftr (Z.land v (Z.shiftl 255 k)) k = Z.land (Z.shiftr v k) 255.
Proof.
  intros Hk. rewrite Z.shiftr_land. f_equal. rewrite Z.shiftr_shiftl_l by done. by rewrite Z.sub_diag, Z.shiftl_0_r.
Qed.

Lemma land_byte v : Z.land v 255 = v mod 256.
Proof. change 255 with (Z.ones 8). by rewrite Z.land_ones. Qed.
Lemma land_word v : Z.land v 65535 = v mod 65536.
Proof. change 65535 with (Z.ones 16). by rewrite Z.land_ones. Qed.

Lemma gate_roundtrip base sel flags :
  0 <= base < 4294967296 → gate_offset (mk_idt (Z.land base 65535) sel 0 flags (Z.land (Z.shiftr base 16) 65535)) = base.
Proof.
  intros H. unfold gate_offset. cbn [i_base_low i_base_high]. rewrite !land_word, Z.shiftr_div_pow2 by lia.
  change (2 ^ 16) with 65536. rewrite (Z.mod_small (base / 65536)) by (split; [apply Z.div_pos|apply Z.div_lt_upper_bound]; lia).
  pose proof (Z.div_mod base 65536). lia.
Qed.

(** The gate [idt_set_gate] writes. *)
Definition gate (base sel flags : Z) : idt_entry := mk_idt (Z.land base 65535) sel 0 flags (Z.land (Z.shiftr base 16) 65535).

Lemma idt_set_gate_lookup d n base sel flags (j : nat) :
  0 <= n < 256 → length (idt_table d) = Z.to_nat 256 →
  length (idt_table (idt_set_gate d n base sel flags)) = Z.to_nat 256 ∧
  idt_table (idt_set_gate d n base sel flags) !! j = if Z.of_nat j =? n then Some (gate base sel flags) else idt_table d !! j.
Proof.
  intros Hn Hl. unfold idt_set_gate. rewrite (proj2 (Z.leb_gt _ _)) by lia. cbn [with_idt idt_table].
  split; [by rewrite length_insert|]. destruct (Z.eqb_spec (Z.of_nat j) n) as [<-|Hne].
  - rewrite Nat2Z.id. apply list_lookup_insert_eq. lia.
  - apply list_lookup_insert_ne. lia.
Qed.

Lemma set_gates_lookup d n first k h (j : nat) :
  0 <= first + k → first + k + Z.of_nat n <= 256 → length (idt_table d) = Z.to_nat 256 →
  length (idt_table (set_gates d n first k h)) = Z.to_nat 256 ∧
  idt_table (set_gates d n first k h) !! j =
    if (first + k <=? Z.of_nat j) && (Z.of_nat j <? first + k + Z.of_nat n) then Some (gate (h (Z.of_nat j - first)) 8 142)
    else idt_table d !! j.
Proof.
  revert d k. induction n as [|n IH]; intros d k H0 Hn Hl; cbn [set_gates].
  { split; [done|]. case_if; [lia|done]. }
  destruct (idt_set_gate_lookup d (first + k) (h k) 8 142 j ltac:(lia) Hl) as [Hl1 Hj].
  destruct (IH (idt_set_gate d (first + k) (h k) 8 142) (k + 1) ltac:(lia) ltac:(lia) Hl1) as [Hl2 ->].
  split; [done|]. rewrite Hj. destruct (Z.eqb_spec (Z.of_nat j) (first + k)) as [E|E].
  - rewrite (proj2 (Z.leb_gt _ _)), (proj2 (Z.leb_le (first + k) _)), (proj2 (Z.ltb_lt _ (first + k + Z.of_nat (S n)))) by lia. cbn [andb].
    replace (Z.of_nat j - first) with k by lia. done.
  - destruct (Z.leb_spec (first + (k + 1)) (Z.of_nat j)), (Z.leb_spec (first + k) (Z.of_nat j)); cbn [andb]; try lia; try done.
    destruct (Z.ltb_spec (Z.of_nat j) (first + (k + 1) + Z.of_nat n)), (Z.ltb_spec (Z.of_nat j) (first + k + Z.of_nat (S n))); try lia; done.
Qed.

(** * Dispatch *)

Lemma irq_handler_calls d i cb ctx :
  0 <= i < 16 → cb <> 0 → length (isr_callback d) = Z.to_nat 256 → length (isr_context d) = Z.to_nat 256 →
  let d' := register_interrupt_context d (32 + i) ctx cb in
  irq_handler d' (32 + i) =
    (mk_descr_tables (gdt_table d') (gdt_ptr d') (idt_table d') (idt_ptr d') (isr_callback d') (isr_context d')
       (ports d' ++ (if 8 <=? i then [(160, 32); (32, 32)] else [(32, 32)])), Some (cb, ctx)).
Proof.
  intros Hi Hcb Hl1 Hl2. cbv zeta. unfold irq_handler, callback_of.
  replace (40 <=? 32 + i) with (8 <=? i) by (destruct (Z.leb_spec 8 i), (Z.leb_spec 40 (32 + i)); lia).
  destruct (8 <=? i); cbn [outb register_interrupt_context with_callbacks isr_callback isr_context ports gdt_table gdt_ptr idt_table idt_ptr];
    rewrite !list_lookup_total_insert_eq by lia; rewrite (proj2 (Z.eqb_neq _ _) Hcb); [|done].
  unfold outb, register_interrupt_context, with_callbacks. cbn. by rewrite <- (assoc_L (++)).
Qed.

(** A callback that was removed is not called; an exception without one stops
    the kernel. *)
Lemma unregistered d n : 0 <= n → n < Z.of_nat (length (isr_callback d)) →
  isr_handler (unregister_interrupt d n) n = Halt ∧ (irq_handler (unregister_interrupt d n) n).2 = None.
Proof.
  intros Hn Hl. unfold isr_handler, irq_handler, callback_of.
  split; [|destruct (40 <=? n)]; cbn [unregister_interrupt with_callbacks outb isr_callback snd];
    rewrite list_lookup_total_insert_eq by lia; done.
Qed.

(** * The tables after initialisation *)

Section Init.
Context (gdt_address idt_address tss_entry : Z) (isr irq : Z → Z) (syscall_intr debug_interrupt syscall_handler : Z).

Definition initialized : descr :=
  (initialize_descriptor_tables gdt_address idt_address tss_entry isr irq syscall_intr debug_interrupt syscall_handler zeroed 0).1.

(** Where each vector leads. *)
Definition vector_gate (v : Z) : idt_entry :=
  if v <? 32 then gate (isr v) 8 142 else if v <? 48 then gate (irq (v - 32)) 8 142
  else if v =? 128 then gate syscall_intr 8 238 else mk_idt 0 0 0 0 0.

Lemma outbs_tables d l :
  idt_table (outbs d l) = idt_table d ∧ gdt_table (outbs d l) = gdt_table d ∧ isr_callback (outbs d l) = isr_callback d ∧
  isr_context (outbs d l) = isr_context d ∧ ports (outbs d l) = ports d ++ l.
Proof.
  revert d. induction l as [|[p v] l IH]; intros d; cbn [outbs]; [by rewrite app_nil_r|].
  destruct (IH (outb d p v)) as (-> & -> & -> & -> & ->). cbn [outb idt_table gdt_table isr_callback isr_context ports].
  by rewrite <- (assoc_L (++)).
Qed.

(** The sequence of [initialize_idt] with any numbers of gates. *)
Definition idt_steps (d : descr) (n m : nat) : descr :=
  register_interrupt (register_interrupt
    (set_gates (outbs (idt_set_gate (set_gates d n 0 0 isr) 128 syscall_intr 8 238) remap) m 32 0 irq) 1 debug_interrupt) 128 syscall_handler.

Lemma idt_steps_lookup d n m v :
  0 <= v < 256 → (n <= 128)%nat → (m <= 64)%nat → length (idt_table d) = Z.to_nat 256 →
  idt_table (idt_steps d n m) !! Z.to_nat v =
    if (32 <=? v) && (v <? 32 + Z.of_nat m) then Some (gate (irq (v - 32)) 8 142)
    else if v =? 128 then Some (gate syscall_intr 8 238)
    else if v <? Z.of_nat n then Some (gate (isr v) 8 142) else idt_table d !! Z.to_nat v.
Proof.
  intros Hv Hn Hm Hl. unfold idt_steps. cbn [register_interrupt register_interrupt_context with_callbacks idt_table].
  destruct (set_gates_lookup d n 0 0 isr (Z.to_nat v)) as [Hl1 H1]; [lia|lia|done|].
  destruct (idt_set_gate_lookup (set_gates d n 0 0 isr) 128 syscall_intr 8 238 (Z.to_nat v)) as [Hl2 H2]; [lia|done|].
  destruct (outbs_tables (idt_set_gate (set_gates d n 0 0 isr) 128 syscall_intr 8 238) remap) as [E _].
  destruct (set_gates_lookup (outbs (idt_set_gate (set_gates d n 0 0 isr) 128 syscall_intr 8 238) remap) m 32 0 irq (Z.to_nat v)) as [_ H3];
    [lia|lia|by rewrite E|].
  rewrite H3, E, H2, H1. rewrite Z2Nat.id by lia. rewrite (Z.sub_0_r v), Z.add_0_r, !Z.add_0_l.
  rewrite (proj2 (Z.leb_le 0 v)) by lia. done.
Qed.

Lemma idt_initialized v : 0 <= v < 256 → idt_table initialized !! Z.to_nat v = Some (vector_gate v).
Proof.
  intros Hv. unfold initialized, initialize_descriptor_tables, initialize_idt. cbn [fst].
  match goal with |- idt_table ?d !! _ = _ => match d with context [set_gates ?d0 32 0 0 isr] => change d with (idt_steps d0 32 16); set (d1 := d0) end end.
  assert (H0 : idt_table d1 = replicate (Z.to_nat 256) (mk_idt 0 0 0 0 0)) by reflexivity. clearbody d1.
  rewrite idt_steps_lookup by (try rewrite H0, length_replicate; lia). rewrite H0, lookup_replicate_2 by lia.
  unfold vector_gate. change (Z.of_nat 16) with 16. change (Z.of_nat 32) with 32.
  destruct (Z.ltb_spec v 32), (Z.ltb_spec v 48), (Z.eqb_spec v 128), (Z.leb_spec 32 v), (Z.ltb_spec v (32 + 16)); cbn [andb]; try lia; done.
Qed.

Lemma set_gates_other d n first k h :
  gdt_table (set_gates d n first k h) = gdt_table d ∧ ports (set_gates d n first k h) = ports d ∧
  isr_callback (set_gates d n first k h) = isr_callback d ∧ isr_context (set_gates d n first k h) = isr_context d.
Proof.
  revert d k. induction n as [|n IH]; intros d k; [done|]. cbn [set_gates].
  destruct (IH (idt_set_gate d (first + k) (h k) 8 142) (k + 1)) as (-> & -> & -> & ->). unfold idt_set_gate. by case_if.
Qed.

Lemma idt_steps_other d n m :
  gdt_table (idt_steps d n m) = gdt_table d ∧ ports (idt_steps d n m) = ports d ++ remap ∧
  isr_callback (idt_steps d n m) = <[Z.to_nat 128 := syscall_handler]> (<[Z.to_nat 1 := debug_interrupt]> (isr_callback d)) ∧
  isr_context (idt_steps d n m) = <[Z.to_nat 128 := 0]> (<[Z.to_nat 1 := 0]> (isr_context d)).
Proof.
  unfold idt_steps. cbn [register_interrupt register_interrupt_context with_callbacks gdt_table ports isr_callback isr_context].
  set (d1 := set_gates d n 0 0 isr).
  destruct (set_gates_other (outbs (idt_set_gate d1 128 syscall_intr 8 238) remap) m 32 0 irq) as (-> & -> & -> & ->).
  destruct (outbs_tables (idt_set_gate d1 128 syscall_intr 8 238) remap) as (_ & -> & -> & -> & ->).
  cbn [idt_set_gate Z.leb Z.compare Pos.compare Pos.compare_cont with_idt gdt_table ports isr_callback isr_context].
  subst d1. by destruct (set_gates_other d n 0 0 isr) as (-> & -> & -> & ->).
Qed.

Lemma initialized_steps :
  ∃ d, initialized = idt_steps d 32 16 ∧ gdt_table d = gdt_table (initialize_gdt gdt_address tss_entry zeroed) ∧ ports d = [] ∧
    isr_callback d = replicate (Z.to_nat 256) 0 ∧ isr_context d = replicate (Z.to_nat 256) 0.
Proof.
  eexists. split; [unfold initialized, initialize_descriptor_tables, initialize_idt; cbn [fst]; reflexivity|].
  cbn [with_idt gdt_table ports isr_callback isr_context]. split_and!; reflexivity.
Qed.

(** The segments: all of memory for the kernel and for programs. *)
Lemma gdt_initialized :
  (λ e, (seg_base e, seg_last e, seg_dpl e, seg_code e)) <$> take 4 (drop 1 (gdt_table initialized)) =
  [(0, 4294967295, 0, true); (0, 4294967295, 0, false); (0, 4294967295, 3, true); (0, 4294967295, 3, false)].
Proof.
  destruct initialized_steps as (d & -> & Hg & _). destruct (idt_steps_other d 32 16) as (-> & _). rewrite Hg.
  vm_compute. reflexivity.
Qed.

Lemma pics_initialized : pics (ports initialized) = (mk_pic 0 32 0, mk_pic 0 40 0).
Proof.
  destruct initialized_steps as (d & -> & _ & Hp & _). destruct (idt_steps_other d 32 16) as (_ & -> & _). rewrite Hp.
  vm_compute. reflexivity.
Qed.

Lemma callbacks_length : length (isr_callback initialized) = Z.to_nat 256 ∧ length (isr_context initialized) = Z.to_nat 256.
Proof.
  destruct initialized_steps as (d & -> & _ & _ & H1 & H2). destruct (idt_steps_other d 32 16) as (_ & _ & -> & ->).
  by rewrite H1, H2, !length_insert, !length_replicate.
Qed.

(** C32: after [initialize_descriptor_tables] the interrupt controllers deliver
    line [i] as vector [32 + i], the gate of that vector is present, leads to
    the stub of line [i] and switches to the kernel's code segment, which
    covers all of memory at privilege 0; programs cannot call it.  Once a
    callback is registered for the vector, [irq_handler] calls it with its
    context, after reporting the end of the interrupt to the first controller
    and, for lines 8 to 15, to the second one before. *)
Theorem irq_delivered i cb ctx :
  0 <= i < 16 → 0 <= irq i < 4294967296 → cb <> 0 →
  ∃ e c, irq_vector (pics (ports initialized)) i = Some (32 + i)
    ∧ idt_table initialized !! Z.to_nat (32 + i) = Some e
    ∧ gate_offset e = irq i ∧ gate_present e = true ∧ gate_type e = 14 ∧ gate_dpl e = 0
    ∧ gdt_table initialized !! Z.to_nat (i_selector e / 8) = Some c
    ∧ seg_code c = true ∧ seg_base c = 0 ∧ seg_last c = 4294967295 ∧ seg_dpl c = 0
    ∧ let d := register_interrupt_context initialized (32 + i) ctx cb in
      irq_handler d (32 + i) =
        (mk_descr_tables (gdt_table d) (gdt_ptr d) (idt_table d) (idt_ptr d) (isr_callback d) (isr_context d)
           (ports d ++ (if 8 <=? i then [(160, 32); (32, 32)] else [(32, 32)])), Some (cb, ctx)).
Proof.
  intros Hi Hirq Hcb. pose proof gdt_initialized as Hg. destruct callbacks_length as [Hl1 Hl2].
  destruct (gdt_table initialized) as [|c0 [|c rest]] eqn:Eg; [done..|]. cbn [drop take fmap list_fmap] in Hg.
  exists (gate (irq i) 8 142), c.
  assert (Hc : (seg_base c, seg_last c, seg_dpl c, seg_code c) = (0, 4294967295, 0, true)) by congruence.
  injection Hc as Hc1 Hc2 Hc3 Hc4. split_and!; try done.
  - rewrite pics_initialized. unfold irq_vector. cbn [fst snd]. destruct (i <? 8); cbn [waits mask first_vector]; rewrite Z.testbit_0_l; cbn; f_equal; lia.
  - rewrite idt_initialized by lia. unfold vector_gate. rewrite (proj2 (Z.ltb_ge _ 32)), (proj2 (Z.ltb_lt _ 48)) by lia.
    replace (32 + i - 32) with i by lia. done.
  - by apply gate_roundtrip.
  - cbv zeta. by apply irq_handler_calls.
Qed.
End Init.

(** Stubs at small addresses. *)
Lemma irq_delivered_witness :
  let d := initialized 0 0 4096 (λ n, 65536 + 16 * n) (λ n, 69632 + 16 * n) 73728 77824 81920 in
  irq_vector (pics (ports d)) 12 = Some 44 ∧
  ∃ e, idt_table d !! Z.to_nat 44 = Some e ∧ gate_offset e = 69824.
Proof.
  destruct (irq_delivered 0 0 4096 (λ n, 65536 + 16 * n) (λ n, 69632 + 16 * n) 73728 77824 81920 12 5 7)
    as (e & c & H1 & H2 & H3 & _); [lia|lia|lia|].
  split; [exact H1|]. exists e. split; [exact H2|exact H3].
Defined.

(** The limit of the task state segment is its size, one more than its last
    byte. *)
Theorem tss_limit_one_too_large :
  seg_last <$> (gdt_table (initialize_gdt 0 4096 zeroed) !! 5%nat) = Some TSS_SIZE.
Proof. vm_compute. reflexivity. Qed.
