(* ===== verification/Vtty.v ===== *)
(** The keyboard driver [src/modules/atkbd] and the virtual terminal
    [src/modules/vtty]: from scan codes to key events, from key events to the
    input of a terminal, and from the terminal to the screen.

    [vga_textmode_t] has the fields of [monitor_info] of [initial_printk.c],
    and the same record models it.  The world of the terminal layer is the
    screen, or the fault of a store outside video memory; the world of the key
    listener is [vtty], or a fault.  LED events it raises are recorded in
    [leds]. *)

From S2P Require Import Prelude Bytes Printk Event Tty.

(** * Key codes *)

Definition KEY_UNKNOWN : Z := 0.
Definition KEY_ESC : Z := 1.
Definition KEY_1 : Z := 2.
Definition KEY_2 : Z := 3.
Definition KEY_3 : Z := 4.
Definition KEY_4 : Z := 5.
Definition KEY_5 : Z := 6.
Definition KEY_6 : Z := 7.
Definition KEY_7 : Z := 8.
Definition KEY_8 : Z := 9.
Definition KEY_9 : Z := 10.
Definition KEY_0 : Z := 11.
Definition KEY_MINUS : Z := 12.
Definition KEY_EQUAL : Z := 13.
Definition KEY_BACKSPACE : Z := 14.
Definition KEY_TAB : Z := 15.
Definition KEY_Q : Z := 16.
Definition KEY_W : Z := 17.
Definition KEY_E : Z := 18.
Definition KEY_R : Z := 19.
Definition KEY_T : Z := 20.
Definition KEY_Y : Z := 21.
Definition KEY_U : Z := 22.
Definition KEY_I : Z := 23.
Definition KEY_O : Z := 24.
Definition KEY_P : Z := 25.
Definition KEY_LEFTBRACKET : Z := 26.
Definition KEY_RIGHTBRACKET : Z := 27.
Definition KEY_ENTER : Z := 28.
Definition KEY_LEFTCTRL : Z := 29.
Definition KEY_A : Z := 30.
Definition KEY_S : Z := 31.
Definition KEY_D : Z := 32.
Definition KEY_F : Z := 33.
Definition KEY_G : Z := 34.
Definition KEY_H : Z := 35.
Definition KEY_J : Z := 36.
Definition KEY_K : Z := 37.
Definition KEY_L : Z := 38.
Definition KEY_SEMICOLON : Z := 39.
Definition KEY_SINGLEQUOTE : Z := 40.
Definition KEY_BACKTICK : Z := 41.
Definition KEY_LEFTSHIFT : Z := 42.
Definition KEY_BACKSLASH : Z := 43.
Definition KEY_Z : Z := 44.
Definition KEY_X : Z := 45.
Definition KEY_C : Z := 46.
Definition KEY_V : Z := 47.
Definition KEY_B : Z := 48.
Definition KEY_N : Z := 49.
Definition KEY_M : Z := 50.
Definition KEY_COMMA : Z := 51.
Definition KEY_PERIOD : Z := 52.
Definition KEY_SLASH : Z := 53.
Definition KEY_RIGHTSHIFT : Z := 54.
Definition KEY_ASTERISK : Z := 55.
Definition KEY_LEFTALT : Z := 56.
Definition KEY_SPACE : Z := 57.
Definition KEY_CAPSLOCK : Z := 58.
Definition KEY_F1 : Z := 59.
Definition KEY_F2 : Z := 60.
Definition KEY_F3 : Z := 61.
Definition KEY_F4 : Z := 62.
Definition KEY_F5 : Z := 63.
Definition KEY_F6 : Z := 64.
Definition KEY_F7 : Z := 65.
Definition KEY_F8 : Z := 66.
Definition KEY_F9 : Z := 67.
Definition KEY_F10 : Z := 68.
Definition KEY_NUMLOCK : Z := 69.
Definition KEY_SCRLOCK : Z := 70.
Definition KEY_K7 : Z := 71.
Definition KEY_K8 : Z := 72.
Definition KEY_K9 : Z := 73.
Definition KEY_KMINUS : Z := 74.
Definition KEY_K4 : Z := 75.
Definition KEY_K5 : Z := 76.
Definition KEY_K6 : Z := 77.
Definition KEY_KPLUS : Z := 78.
Definition KEY_K1 : Z := 79.
Definition KEY_K2 : Z := 80.
Definition KEY_K3 : Z := 81.
Definition KEY_K0 : Z := 82.
Definition KEY_KPERIOD : Z := 83.
Definition KEY_F11 : Z := 84.
Definition KEY_F12 : Z := 85.
Definition KEY_KENTER : Z := 86.
Definition KEY_RIGHTCTRL : Z := 87.
Definition KEY_RIGHTALT : Z := 88.
Definition KEY_HOME : Z := 89.
Definition KEY_CURSORUP : Z := 90.
Definition KEY_PAGEUP : Z := 91.
Definition KEY_CURSORLEFT : Z := 92.
Definition KEY_CURSORRIGHT : Z := 93.
Definition KEY_END : Z := 94.
Definition KEY_CURSORDOWN : Z := 95.
Definition KEY_PAGEDOWN : Z := 96.
Definition KEY_INSERT : Z := 97.
Definition KEY_DELETE : Z := 98.
Definition KEY_LEFTGUI : Z := 99.
Definition KEY_RIGHTGUI : Z := 100.
Definition KEY_APPS : Z := 101.
Definition KEY_PRINTSCREEN : Z := 102.
Definition KEY_PAUSE : Z := 103.
Definition KEY_KASTERISK : Z := 104.
Definition KEY_WWWSEARCH : Z := 105.
Definition KEY_MMPREV : Z := 106.
Definition KEY_WWWFAV : Z := 107.
Definition KEY_WWWREFRESH : Z := 108.
Definition KEY_MMVOLDOWN : Z := 109.
Definition KEY_MMMUTE : Z := 110.
Definition KEY_WWWSTOP : Z := 111.
Definition KEY_MMCALC : Z := 112.
Definition KEY_WWWFORWARD : Z := 113.
Definition KEY_MMVOLUP : Z := 114.
Definition KEY_MMPAUSE : Z := 115.
Definition KEY_ACPIPOWER : Z := 116.
Definition KEY_WWWBACK : Z := 117.
Definition KEY_WWWHOME : Z := 118.
Definition KEY_MMSTOP : Z := 119.
Definition KEY_ACPISLEEP : Z := 120.
Definition KEY_MMMYCOMP : Z := 121.
Definition KEY_MMEMAIL : Z := 122.
Definition KEY_KSLASH : Z := 123.
Definition KEY_MMNEXT : Z := 124.
Definition KEY_MMMEDIA : Z := 125.
Definition KEY_ACPIWAKE : Z := 126.
Definition KEY_COUNT : Z := 127.

(** * Scan codes *)

(** An array with designated elements: the others are 0. *)
Definition array_of (l : list (Z * Z)) (i : Z) : Z :=
  match filter (λ x, x.1 = i) l with (_, v) :: _ => v | [] => 0 end.

Definition single_scancode_map_size : Z := 132.
Definition single_scancode_map : list (Z * Z) :=
  [(1, KEY_F9); (3, KEY_F5); (4, KEY_F3); (5, KEY_F1); (6, KEY_F2); (7, KEY_F12); (9, KEY_F10); (10, KEY_F8);
   (11, KEY_F6); (12, KEY_F4); (13, KEY_TAB); (14, KEY_BACKTICK); (17, KEY_LEFTALT); (18, KEY_LEFTSHIFT);
   (20, KEY_LEFTCTRL); (21, KEY_Q); (22, KEY_1); (26, KEY_Z); (27, KEY_S); (28, KEY_A); (29, KEY_W);
   (30, KEY_2); (33, KEY_C); (34, KEY_X); (35, KEY_D); (36, KEY_E); (37, KEY_4); (38, KEY_3); (41, KEY_SPACE);
   (42, KEY_V); (43, KEY_F); (44, KEY_T); (45, KEY_R); (46, KEY_5); (49, KEY_N); (50, KEY_B); (51, KEY_H);
   (52, KEY_G); (53, KEY_Y); (54, KEY_6); (58, KEY_M); (59, KEY_J); (60, KEY_U); (61, KEY_7); (62, KEY_8);
   (65, KEY_COMMA); (66, KEY_K); (67, KEY_I); (68, KEY_O); (69, KEY_0); (70, KEY_9); (73, KEY_PERIOD);
   (74, KEY_SLASH); (75, KEY_L); (76, KEY_SEMICOLON); (77, KEY_P); (78, KEY_MINUS); (82, KEY_SINGLEQUOTE);
   (84, KEY_LEFTBRACKET); (85, KEY_EQUAL); (88, KEY_CAPSLOCK); (89, KEY_RIGHTSHIFT); (90, KEY_ENTER);
   (91, KEY_LEFTBRACKET); (93, KEY_BACKSLASH); (102, KEY_BACKSPACE); (105, KEY_K1); (107, KEY_K4);
   (108, KEY_K7); (112, KEY_K0); (113, KEY_KPERIOD); (114, KEY_K2); (115, KEY_K5); (116, KEY_K6);
   (117, KEY_K8); (118, KEY_ESC); (119, KEY_NUMLOCK); (120, KEY_F11); (121, KEY_KPLUS); (122, KEY_K3);
   (123, KEY_KMINUS); (124, KEY_KASTERISK); (125, KEY_K9); (126, KEY_SCRLOCK); (131, KEY_F7)].

Definition multi_scancode_map_size : Z := 126.
Definition multi_scancode_map : list (Z * Z) :=
  [(16, KEY_WWWSEARCH); (17, KEY_RIGHTALT); (20, KEY_RIGHTCTRL); (21, KEY_MMPREV); (24, KEY_WWWFAV);
   (31, KEY_LEFTGUI); (32, KEY_WWWREFRESH); (33, KEY_MMVOLDOWN); (35, KEY_MMMUTE); (39, KEY_RIGHTGUI);
   (40, KEY_WWWSTOP); (43, KEY_MMCALC); (47, KEY_APPS); (48, KEY_WWWFORWARD); (50, KEY_MMVOLUP);
   (52, KEY_MMPAUSE); (55, KEY_ACPIPOWER); (56, KEY_WWWBACK); (58, KEY_WWWHOME); (59, KEY_MMSTOP);
   (64, KEY_MMMYCOMP); (72, KEY_MMEMAIL); (74, KEY_KSLASH); (77, KEY_MMNEXT); (80, KEY_MMMEDIA);
   (90, KEY_KENTER); (94, KEY_ACPIWAKE); (105, KEY_END); (107, KEY_CURSORLEFT); (108, KEY_HOME);
   (112, KEY_INSERT); (113, KEY_DELETE); (114, KEY_CURSORDOWN); (116, KEY_CURSORRIGHT); (117, KEY_CURSORUP);
   (122, KEY_PAGEDOWN); (124, KEY_PRINTSCREEN); (125, KEY_PAGEUP)].

(** * Characters *)

Definition vkey_std : list Z :=
  [0; 0; 49; 50; 51; 52; 53; 54; 55; 56; 57; 48; 45; 61; 8; 9; 113; 119; 101; 114; 116; 121; 117; 105; 111;
   112; 91; 93; 10; 0; 97; 115; 100; 102; 103; 104; 106; 107; 108; 59; 39; 96; 0; 92; 122; 120; 99; 118; 98;
   110; 109; 44; 46; 47; 0; 42; 0; 32; 0; 0; 0; 0; 0; 0; 0; 0; 0; 0; 0; 0; 0; 55; 56; 57; 45; 52; 53; 54; 43;
   49; 50; 51; 48; 46; 0; 0; 0; 0; 0; 0; 0; 0; 0; 0; 0; 0; 0; 0; 0; 0; 0; 0; 0; 0; 0; 0; 0; 0; 0; 0; 0; 0; 0;
   0; 0; 0; 0; 0; 0; 0; 0; 0; 0; 0; 0; 0; 0; 0].
Definition vkey_caps : list Z :=
  [0; 0; 49; 50; 51; 52; 53; 54; 55; 56; 57; 48; 45; 61; 8; 9; 81; 87; 69; 82; 84; 89; 85; 73; 79; 80; 91; 93;
   10; 0; 65; 83; 68; 70; 71; 72; 74; 75; 76; 59; 39; 96; 0; 92; 90; 88; 67; 86; 66; 78; 77; 44; 46; 47; 0; 42;
   0; 32; 0; 0; 0; 0; 0; 0; 0; 0; 0; 0; 0; 0; 0; 55; 56; 57; 45; 52; 53; 54; 43; 49; 50; 51; 48; 46; 0; 0; 0;
   0; 0; 0; 0; 0; 0; 0; 0; 0; 0; 0; 0; 0; 0; 0; 0; 0; 0; 0; 0; 0; 0; 0; 0; 0; 0; 0; 0; 0; 0; 0; 0; 0; 0; 0; 0;
   0; 0; 0; 0; 0].
Definition vkey_shift : list Z :=
  [0; 0; 33; 64; 35; 36; 37; 94; 38; 38; 40; 41; 95; 43; 8; 9; 81; 87; 69; 82; 84; 89; 85; 73; 79; 80; 123;
   125; 10; 0; 65; 83; 68; 70; 71; 72; 74; 75; 76; 58; 34; 126; 0; 124; 90; 88; 67; 86; 66; 78; 77; 60; 62; 63;
   0; 42; 0; 32; 0; 0; 0; 0; 0; 0; 0; 0; 0; 0; 0; 0; 0; 55; 56; 57; 45; 52; 53; 54; 43; 49; 50; 51; 48; 46; 0;
   0; 0; 0; 0; 0; 0; 0; 0; 0; 0; 0; 0; 0; 0; 0; 0; 0; 0; 0; 0; 0; 0; 0; 0; 0; 0; 0; 0; 0; 0; 0; 0; 0; 0; 0; 0;
   0; 0; 0; 0; 0; 0; 0].
Definition vkey_ctrl : list Z := replicate 128 0.
Definition vkey_alt : list Z := replicate 128 0.

Definition KEY_RELEASED : Z := 0.
Definition KEY_PRESSED : Z := 1.
Definition EVENT_KEY : Z := 1.
Definition EVENT_LED : Z := 8.
Definition LED_CAPSLOCK : Z := 0.
Definition LED_NUMLOCK : Z := 1.

(** * Scan codes *)

Record atkbd := mk_atkbd { atkbd_state : Z; atkbd_multibyte : bool }.
Definition atkbd_start : atkbd := mk_atkbd 0 false.

(** [scancode_map[multibyte][sc]]; behind the end of an array is a fault. *)
Definition scancode_key (multi : bool) (sc : Z) : outcome Z :=
  if multi then if sc <? multi_scancode_map_size then Ret (array_of multi_scancode_map sc) else Halt
  else if sc <? single_scancode_map_size then Ret (array_of single_scancode_map sc) else Halt.

(** The key and its state, if an event is raised. *)
Definition kbd_event (k : atkbd) (sc : Z) : outcome (atkbd * option (Z * Z)) :=
  if sc =? 224 then Ret (mk_atkbd (atkbd_state k) true, None)
  else if sc =? 240 then Ret (mk_atkbd KEY_RELEASED (atkbd_multibyte k), None)
  else if atkbd_multibyte k && (sc =? 18) then Ret (mk_atkbd KEY_PRESSED false, None)
  else
    key <~ scancode_key (atkbd_multibyte k) sc ;;
    let state := if key =? KEY_PRINTSCREEN then KEY_RELEASED else atkbd_state k in
    Ret (mk_atkbd KEY_PRESSED false, Some (key, state)).

(** A sequence of scan codes and the events it raises. *)
Fixpoint kbd_events (k : atkbd) (l : list Z) : outcome (atkbd * list (Z * Z)) :=
  match l with
  | [] => Ret (k, [])
  | sc :: l =>
      '(k, e) <~ kbd_event k sc ;;
      '(k, es) <~ kbd_events k l ;;
      Ret (k, match e with Some e => e :: es | None => es end)
  end.

(** * The screen *)

Definition vga_sync_cursor (m : monitor_info) : monitor_info := update_cursor m.

(** Rows move up; the last one is filled with spaces. *)
Fixpoint blank_cells (n : nat) (attr : Z) : list Z := match n with O => [] | S n => 32 :: attr :: blank_cells n attr end.
Definition blank_row (attr : Z) : list Z := blank_cells 80 attr.
Definition monitor_scroll (m : monitor_info) : monitor_info :=
  let l := scroll_lines (Z.to_nat (height - 1)) 0 (screen m) in
  set_screen m (list_inserts (Z.to_nat ((height - 1) * width * 2)) (blank_row (color m)) l).

Definition monitor_newline (m : monitor_info) : monitor_info :=
  let m := set_cursor m (cx m) (cy m + 1) in
  let m := if cy m =? height then monitor_scroll (set_cursor m (cx m) (cy m - 1)) else m in
  set_cursor m 0 (cy m).

Definition monitor_carriagereturn (m : monitor_info) : monitor_info := set_cursor m 0 (cy m).

Definition monitor_advance (m : monitor_info) : monitor_info :=
  let m := set_cursor m (cx m + 1) (cy m) in
  if width <=? cx m then monitor_newline m else m.

Definition monitor_retreat (m : monitor_info) : monitor_info :=
  let m := set_cursor m (cx m - 1) (cy m) in
  if cx m <? 0 then
    if cy m =? 0 then set_cursor m 0 (cy m) else set_cursor m (width - 1) (cy m - 1)
  else m.

Definition monitor_backspace (m : monitor_info) : outcome monitor_info := put_cell (monitor_retreat m) 32.

(** The default case. *)
Definition monitor_put (m : monitor_info) (c : Z) : outcome monitor_info :=
  if (32 <=? c) && (c <? 127) then m <~ put_cell m c ;; Ret (monitor_advance m) else Ret m.

(** Five calls of [monitor_putchar] with a space. *)
Fixpoint monitor_spaces (n : nat) (m : monitor_info) : outcome monitor_info :=
  match n with O => Ret m | S n => m <~ monitor_put m 32 ;; monitor_spaces n (vga_sync_cursor m) end.
Definition monitor_tab (m : monitor_info) : outcome monitor_info := monitor_spaces 5 m.

Definition monitor_putchar (m : monitor_info) (c : Z) : outcome monitor_info :=
  m <~ (if c =? 10 then Ret (monitor_newline m)
        else if c =? 13 then Ret (monitor_carriagereturn m)
        else if c =? 9 then monitor_tab m
        else if c =? 8 then monitor_backspace m
        else monitor_put m c) ;;
  Ret (vga_sync_cursor m).

(** Every cell is written, column by column. *)
Definition clear_one (m : monitor_info) (xy : Z * Z) : outcome monitor_info :=
  m <~ poke m ((xy.1 + xy.2 * width) * 2) 32 ;; poke m ((xy.1 + xy.2 * width) * 2 + 1) (color m).
Fixpoint clear_cells (m : monitor_info) (l : list (Z * Z)) : outcome monitor_info :=
  match l with [] => Ret m | xy :: l => m <~ clear_one m xy ;; clear_cells m l end.
Definition monitor_clear (m : monitor_info) : outcome monitor_info :=
  clear_cells m (seqZ 0 width ≫= λ x, (λ y, (x, y)) <$> seqZ 0 height).

Definition monitor_moveto (m : monitor_info) (x y : Z) : monitor_info := vga_sync_cursor (set_cursor m x y).
Definition monitor_setattr (m : monitor_info) (attr : Z) : monitor_info := set_color m attr.

Definition monitor_init (m : monitor_info) : outcome monitor_info :=
  m <~ monitor_clear m ;; Ret (monitor_setattr (monitor_moveto m 0 0) 15).

(** * The terminal driver *)

Definition vtty_world : Type := outcome monitor_info.

Definition vtty_putchar (w : vtty_world) (c : Z) : vtty_world := m <~ w ;; monitor_putchar m c.

(** [monitor_putchar] returns 0. *)
Definition vtty_write (w : vtty_world) (l : list Z) : vtty_world * Z := (foldl vtty_putchar w l, Z.of_nat (length l)).

Definition vtty_ops : tty_operations (W := vtty_world) :=
  mk_ops (Some vtty_putchar) vtty_write true (Some (λ w _ _, (w, 0))) (Some (λ w _, (w, 0))) (Some (λ w, (w, 0))).

(** * Keys *)

Definition VTTY_MAJOR : Z := 2.

(** The tables have 128 entries, the map of keys 127. *)
Definition vkey_convert (key : Z) (map : list Z) : Z :=
  let down k := negb (map !!! Z.to_nat k =? 0) in
  let table := if down KEY_LEFTSHIFT || down KEY_RIGHTSHIFT then vkey_shift
               else if down KEY_CAPSLOCK then vkey_caps
               else if down KEY_LEFTALT || down KEY_RIGHTALT then vkey_alt
               else if down KEY_LEFTCTRL || down KEY_RIGHTCTRL then vkey_ctrl
               else vkey_std in
  table !!! Z.to_nat key.

Record vtty := mk_vtty {
  keymap : list Z;
  ttys : gmap Z (list (tty_device vtty_world));
  vt_screen : vtty_world;
  leds : list (Z * Z);
}.

Section Listen.
Context (waiting : Z → bool).

(** The character goes to the first device of the driver. *)
Definition insert_char (v : vtty) (c : Z) : outcome vtty :=
  match tty_find_driver (ttys v) VTTY_MAJOR with
  | Some (d :: rest) =>
      let '(w, d, _) := tty_queue_insert waiting (vt_screen v) d c in
      Ret (mk_vtty (keymap v) (<[VTTY_MAJOR := d :: rest]> (ttys v)) w (leds v))
  | _ => Halt
  end.

Definition is_lock (key : Z) : bool := (key =? KEY_CAPSLOCK) || (key =? KEY_NUMLOCK) || (key =? KEY_SCRLOCK).

Definition set_key (v : vtty) (key value : Z) : vtty :=
  mk_vtty (<[Z.to_nat key := value]> (keymap v)) (ttys v) (vt_screen v) (leds v).

Definition kbd_listen (v : vtty) (key value : Z) : outcome vtty :=
  if key =? KEY_UNKNOWN then Ret v
  else if negb (key <? KEY_COUNT) then Halt
  else
    v <~ (if value =? KEY_PRESSED then
            let c := vkey_convert key (keymap v) in
            if c =? 0 then Ret v else insert_char v c
          else Ret v) ;;
    if is_lock key then
      let v := if value =? KEY_PRESSED then set_key v key (if keymap v !!! Z.to_nat key =? 0 then 1 else 0) else v in
      let led := if key =? KEY_NUMLOCK then LED_NUMLOCK else LED_CAPSLOCK in
      Ret (mk_vtty (keymap v) (ttys v) (vt_screen v) (leds v ++ [(led, keymap v !!! Z.to_nat key)]))
    else Ret (set_key v key value).

(** The handler as the event system calls it. *)
Definition kbd_handler (fn : Z) (ev : event_t) (data : Z) (w : outcome vtty) : outcome vtty * event_result :=
  (v <~ w ;; kbd_listen v (ev_event ev) (ev_value ev), EVENT_CONTINUE).
End Listen.

(** * Loading and removing *)

(** [alloc] and [register]: whether memory and the major number are to be had;
    [handler]: the address of the new event handler, if there is memory.  The
    test of [event_listen] looks for NULL, but a failure is an error pointer: it
    becomes the private pointer of the module, [None] here.  The node
    [/dev/tty0] is made last; a failure is only reported. *)
Definition vtty_load (v : vtty) (ev : events) (alloc : bool) (register : Z) (fn : Z) (handler : option Z)
    : outcome (vtty * events * result (option Z)) :=
  match tty_alloc_driver (ttys v) VTTY_MAJOR 1 vtty_ops alloc register with
  | (ds, Err e) => Ret (mk_vtty (keymap v) ds (vt_screen v) (leds v), ev, Err e)
  | (ds, Ok None) => Halt
  | (ds, Ok (Some _)) =>
      m <~ vt_screen v ;;
      m <~ monitor_init m ;;
      let '(ev, r) := event_listen ev EVENT_KEY fn 0 handler in
      Ret (mk_vtty (keymap v) ds (Ret m) (leds v), ev, Ok (match r with Ok h => Some (eh_addr h) | Err _ => None end))
  end.

(** Unlinking an error pointer is a fault. *)
Definition vtty_remove (v : vtty) (ev : events) (handler : option Z) (unregister : Z) : outcome (vtty * events * result Z) :=
  h <~ or_halt handler ;;
  let '(ev, _) := event_unlisten ev (Some h) in
  '(ds, r) <~ tty_free_driver (ttys v) VTTY_MAJOR unregister ;;
  Ret (mk_vtty (keymap v) ds (vt_screen v) (leds v), ev, r).
