(* ===== verification/VttyMonitor.v ===== *)
(** The screen of the virtual terminal refines the terminal of cells of
    [PrintkConsole], with its own rules for scrolling, tabs and erasing. *)

From S2P Require Import Prelude Bytes Printk PrintkConsole Vtty Event Tty.

(** * The terminal *)

Definition vt_scrolled (attr : Z) (cells : list (Z * Z)) (pos : Z) : terminal :=
  if pos =? 2000 then mk_terminal (drop (Z.to_nat 80) cells ++ replicate (Z.to_nat 80) (32, attr)) 1920
  else mk_terminal cells pos.

Definition vt_show (attr c : Z) (t : terminal) : terminal :=
  if (32 <=? c) && (c <? 127) then vt_scrolled attr (<[Z.to_nat (t_pos t) := (c, attr)]> (t_cells t)) (t_pos t + 1) else t.

Definition vt_put (attr : Z) (t : terminal) (c : Z) : terminal :=
  let p := t_pos t in
  if c =? 10 then vt_scrolled attr (t_cells t) ((p / 80 + 1) * 80)
  else if c =? 13 then mk_terminal (t_cells t) (p / 80 * 80)
  else if c =? 9 then Nat.iter 5 (vt_show attr 32) t
  else if c =? 8 then let q := Z.max 0 (p - 1) in mk_terminal (<[Z.to_nat q := (32, attr)]> (t_cells t)) q
  else vt_show attr c t.

(** * Scrolling *)

Lemma blank_cells_lookup (n k : nat) (attr : Z) :
  blank_cells n attr !! (2 * k)%nat = (if decide (k < n)%nat then Some 32 else None) ∧
  blank_cells n attr !! (2 * k + 1)%nat = (if decide (k < n)%nat then Some attr else None) ∧
  length (blank_cells n attr) = (2 * n)%nat.
Proof.
  revert k. induction n as [|n IH]; intros k; [done|]. destruct k as [|k].
  - destruct (IH 0%nat) as (_ & _ & H). cbn [blank_cells length]. split; [done|]. split; [done|]. lia.
  - destruct (IH k) as (H1 & H2 & H3). cbn [blank_cells length].
    replace (2 * S k)%nat with (S (S (2 * k))) by lia. replace (S (S (2 * k)) + 1)%nat with (S (S (2 * k + 1))) by lia.
    cbn [lookup list_lookup]. split_and!; [| |lia].
    + etransitivity; [exact H1|]. apply decide_ext. lia.
    + etransitivity; [exact H2|]. apply decide_ext. lia.
Qed.

Lemma monitor_scroll_pairs m :
  Z.of_nat (length (screen m)) = 4000 →
  length (screen (monitor_scroll m)) = length (screen m) ∧
  pairs (screen (monitor_scroll m)) = drop (Z.to_nat 80) (pairs (screen m)) ++ replicate (Z.to_nat 80) (32, color m).
Proof.
  intros Hlen. unfold monitor_scroll, height, width, set_screen. cbn [screen].
  assert (Hl : length (scroll_lines (Z.to_nat (25 - 1)) 0 (screen m)) = length (screen m)).
  { apply (scroll_lines_lookup _ _ _ 0%nat); lia. }
  split; [by rewrite length_inserts|]. apply list_eq. intros i. rewrite pairs_lookup.
  assert (Hp : Z.of_nat (length (pairs (screen m))) = 2000) by (rewrite (pairs_length _ (Z.to_nat 2000)); lia).
  assert (Hat : ∀ j, list_inserts (Z.to_nat ((25 - 1) * 80 * 2)) (blank_row (color m)) (scroll_lines (Z.to_nat (25 - 1)) 0 (screen m)) !! j =
    if decide (Z.of_nat j < 3840) then screen m !! (j + Z.to_nat 160)%nat
    else if decide (Z.of_nat j < 4000) then blank_row (color m) !! (j - Z.to_nat 3840)%nat else None).
  { intros j. rewrite inserts_lookup, Hl. destruct (blank_cells_lookup 80 0 (color m)) as (_ & _ & Hb). fold (blank_row (color m)) in Hb. rewrite Hb.
    destruct (scroll_lines_lookup (Z.to_nat (25 - 1)) 0 (screen m) j) as [_ ->]; [lia..|]. clear Hl.
    destruct (decide (Z.of_nat j < 3840)).
    - rewrite decide_False, decide_True by lia. reflexivity.
    - destruct (decide (Z.of_nat j < 4000)); [rewrite decide_True by lia; reflexivity|].
      rewrite !decide_False by lia. apply lookup_ge_None_2. lia. }
  rewrite !Hat. clear Hat Hl. destruct (decide (Z.of_nat i < 1920)).
  - rewrite lookup_app_l by (rewrite length_drop; lia). rewrite lookup_drop, pairs_lookup.
    rewrite !decide_True by lia. replace (2 * (Z.to_nat 80 + i))%nat with (2 * i + Z.to_nat 160)%nat by lia.
    replace (2 * i + Z.to_nat 160 + 1)%nat with (2 * i + 1 + Z.to_nat 160)%nat by lia. done.
  - rewrite lookup_app_r by (rewrite length_drop; lia). rewrite length_drop.
    rewrite !(decide_False (P := _ < 3840)) by lia. destruct (decide (Z.of_nat i < 2000)).
    + rewrite !decide_True by lia. destruct (blank_cells_lookup 80 (i - Z.to_nat 1920) (color m)) as (H1 & H2 & _).
      rewrite decide_True in H1 by lia. rewrite decide_True in H2 by lia.
      replace (2 * i - Z.to_nat 3840)%nat with (2 * (i - Z.to_nat 1920))%nat by lia.
      replace (2 * i + 1 - Z.to_nat 3840)%nat with (2 * (i - Z.to_nat 1920) + 1)%nat by lia.
      unfold blank_row. rewrite H1, H2. symmetry. apply lookup_replicate. split; [done|lia].
    + rewrite !decide_False by lia. symmetry. apply lookup_ge_None_2. rewrite length_replicate. lia.
Qed.

(** * The operations *)

Lemma vt_scrolled_inside attr cells pos : pos <> 2000 → vt_scrolled attr cells pos = mk_terminal cells pos.
Proof. intros H. unfold vt_scrolled. by rewrite (proj2 (Z.eqb_neq _ _) H). Qed.

Lemma monitor_scroll_cy m : cy (monitor_scroll m) = cy m.
Proof. reflexivity. Qed.
Lemma monitor_scroll_color m : color (monitor_scroll m) = color m.
Proof. reflexivity. Qed.

(** What [monitor_newline] keeps of a state that was scrolled or not. *)
Lemma set_cursor_abs m y attr cells :
  0 <= y < 25 → Z.of_nat (length (screen m)) = 4000 → pairs (screen m) = cells → color m = attr →
  console_ok (set_cursor m 0 y) ∧ abs (set_cursor m 0 y) = mk_terminal cells (y * 80) ∧ color (set_cursor m 0 y) = attr.
Proof.
  intros Hy Hl Hp Hc. unfold console_ok, abs, set_cursor. cbn [cx cy screen color]. split_and!; [lia..| |done]. rewrite Hp. f_equal. lia.
Qed.

Lemma monitor_newline_abs m :
  0 <= cy m < 25 → Z.of_nat (length (screen m)) = 4000 →
  console_ok (monitor_newline m) ∧ abs (monitor_newline m) = vt_scrolled (color m) (pairs (screen m)) ((cy m + 1) * 80)
  ∧ color (monitor_newline m) = color m.
Proof.
  intros Hy Hlen. unfold monitor_newline, height. cbn [set_cursor cy]. unfold vt_scrolled.
  destruct (Z.eqb_spec (cy m + 1) 25) as [E|E], (Z.eqb_spec ((cy m + 1) * 80) 2000) as [E'|E']; try lia.
  - set (m' := set_cursor (set_cursor m (cx m) (cy m + 1)) _ (cy m + 1 - 1)).
    assert (Hm : screen m' = screen m ∧ color m' = color m ∧ cy m' = 24) by (split_and!; [done|done|cbn; lia]).
    clearbody m'. destruct Hm as (Hs & Hc & Hcy). destruct (monitor_scroll_pairs m') as [Hl Hp]; [by rewrite Hs|].
    rewrite monitor_scroll_cy, Hcy. apply set_cursor_abs; [lia|by rewrite Hl, Hs|by rewrite Hp, Hs, Hc|by rewrite monitor_scroll_color].
  - cbn [set_cursor cy]. apply set_cursor_abs; [lia|done..].
Qed.

Lemma monitor_advance_abs m :
  0 <= cx m < 80 → 0 <= cy m < 25 → Z.of_nat (length (screen m)) = 4000 →
  console_ok (monitor_advance m) ∧ abs (monitor_advance m) = vt_scrolled (color m) (pairs (screen m)) (cy m * 80 + cx m + 1)
  ∧ color (monitor_advance m) = color m.
Proof.
  intros Hx Hy Hlen. unfold monitor_advance, width. cbn [set_cursor cx].
  destruct (Z.leb_spec 80 (cx m + 1)) as [E|E].
  - destruct (monitor_newline_abs (set_cursor m (cx m + 1) (cy m)) Hy Hlen) as (H1 & H2 & H3).
    split_and!; [apply H1..| |done]. etransitivity; [exact H2|]. cbn [set_cursor color screen cy]. f_equal. lia.
  - unfold console_ok, abs. cbn [set_cursor cx cy screen color]. split; [lia|]. split; [|done].
    rewrite vt_scrolled_inside by lia. f_equal. lia.
Qed.

(** [m'] is the screen that shows [t], in the same colour. *)
Definition becomes (m m' : monitor_info) (t : terminal) : Prop := console_ok m' ∧ abs m' = t ∧ color m' = color m.

Lemma monitor_put_abs m c : console_ok m → ∃ m', monitor_put m c = Ret m' ∧ becomes m m' (vt_show (color m) c (abs m)).
Proof.
  intros Hok. unfold monitor_put, vt_show. destruct ((32 <=? c) && (c <? 127)); [|by exists m].
  destruct (put_cell_abs m c Hok) as (l & -> & Hl & Hp). cbn [obind]. eexists. split; [reflexivity|].
  destruct Hok as (Hx & Hy & _). cbn [abs t_pos t_cells].
  destruct (monitor_advance_abs (set_screen m l) Hx Hy Hl) as (H1 & H2 & H3). split_and!; [apply H1..| |exact H3].
  etransitivity; [exact H2|]. cbn [set_screen screen color cx cy]. by rewrite Hp.
Qed.

Lemma monitor_spaces_abs n m :
  console_ok m → ∃ m', monitor_spaces n m = Ret m' ∧ becomes m m' (Nat.iter n (vt_show (color m) 32) (abs m)).
Proof.
  revert m. induction n as [|n IH]; intros m Hok; cbn [monitor_spaces]; [by exists m|].
  destruct (monitor_put_abs m 32 Hok) as (m1 & -> & Hok1 & Ha1 & Hc1). cbn [obind].
  destruct (IH (vga_sync_cursor m1) Hok1) as (m2 & -> & Hok2 & Ha2 & Hc2). exists m2. split; [done|].
  change (color (vga_sync_cursor m1)) with (color m1) in *. change (abs (vga_sync_cursor m1)) with (abs m1) in *.
  split; [done|]. split; [|congruence]. rewrite Ha2, Hc1, Ha1. by rewrite <- Nat.iter_succ_r.
Qed.

Lemma monitor_backspace_abs m :
  console_ok m → ∃ m', monitor_backspace m = Ret m' ∧
    becomes m m' (let q := Z.max 0 (t_pos (abs m) - 1) in mk_terminal (<[Z.to_nat q := (32, color m)]> (t_cells (abs m))) q).
Proof.
  intros (Hx & Hy & Hlen). unfold monitor_backspace.
  assert (Hr : console_ok (monitor_retreat m) ∧ t_pos (abs (monitor_retreat m)) = Z.max 0 (t_pos (abs m) - 1)
    ∧ screen (monitor_retreat m) = screen m ∧ color (monitor_retreat m) = color m).
  { unfold monitor_retreat, console_ok, abs, width. cbn [set_cursor cx cy screen color t_pos].
    destruct (Z.ltb_spec (cx m - 1) 0), (Z.eqb_spec (cy m) 0); cbn [set_cursor cx cy screen color t_pos]; split_and!; done || lia. }
  destruct Hr as (Hok & Hpos & Hs & Hc). destruct (put_cell_abs (monitor_retreat m) 32 Hok) as (l & -> & Hl & Hp).
  eexists. split; [reflexivity|]. destruct Hok as (Hx' & Hy' & _). unfold abs in Hpos. cbn [t_pos] in Hpos.
  split; [done|]. split; [|exact Hc]. unfold abs at 1. cbn [set_screen screen cx cy].
  rewrite Hp, Hs, Hc, Hpos. done.
Qed.

Lemma monitor_putchar_abs m c :
  console_ok m → ∃ m', monitor_putchar m c = Ret m' ∧ becomes m m' (vt_put (color m) (abs m) c) ∧ visible_cursor (crtc m') = t_pos (abs m').
Proof.
  intros Hok. pose proof Hok as (Hx & Hy & Hlen). destruct (div_mod_row m Hx) as [Hdiv _].
  assert (Hsync : ∀ x t, becomes m x t →
    ∃ m', Ret (vga_sync_cursor x) = Ret m' ∧ becomes m m' t ∧ visible_cursor (crtc m') = t_pos (abs m')).
  { intros x t (Hxok & Hxa & Hxc). exists (vga_sync_cursor x). split; [done|]. split; [by split|].
    apply visible_cursor_updated. destruct Hxok as (? & ? & _). lia. }
  unfold monitor_putchar, vt_put. cbn [abs t_pos t_cells]. rewrite Hdiv.
  destruct (c =? 10).
  { cbn [obind]. apply Hsync. destruct (monitor_newline_abs m Hy Hlen) as (? & ? & ?). by split. }
  destruct (c =? 13).
  { cbn [obind]. apply Hsync. unfold becomes, console_ok, monitor_carriagereturn, abs. cbn [set_cursor cx cy screen color].
    split; [lia|]. split; [|done]. f_equal. lia. }
  destruct (c =? 9).
  { destruct (monitor_spaces_abs 5 m Hok) as (m1 & E & Hb). unfold monitor_tab. rewrite E. cbn [obind]. by apply Hsync. }
  destruct (c =? 8).
  { destruct (monitor_backspace_abs m Hok) as (m1 & -> & Hb). cbn [obind]. by apply Hsync. }
  destruct (monitor_put_abs m c Hok) as (m1 & -> & Hb). cbn [obind]. by apply Hsync.
Qed.

(** Writing to the virtual terminal shows the characters: no store leaves video
    memory, the cursor stays on the screen, screen and cursor are those of the
    terminal of cells, the visible cursor follows, and all characters are
    taken. *)
Theorem vtty_write_refines l m :
  console_ok m → ∃ m', vtty_write (Ret m) l = (Ret m', Z.of_nat (length l)) ∧ console_ok m'
    ∧ abs m' = foldl (vt_put (color m)) (abs m) l ∧ color m' = color m ∧ (l <> [] → visible_cursor (crtc m') = t_pos (abs m')).
Proof.
  unfold vtty_write. intros Hok. setoid_rewrite pair_equal_spec. revert m Hok.
  induction l as [|c l IH]; intros m Hok; [by exists m|]. cbn [foldl].
  destruct (monitor_putchar_abs m c Hok) as (m1 & E & (Hok1 & Ha1 & Hc1) & Hv). unfold vtty_putchar at 2. cbn [obind]. rewrite E.
  destruct (IH m1 Hok1) as (m' & (He & _) & Hok' & Ha' & Hc' & Hv'). exists m'. split_and!; try done.
  - rewrite Ha', Hc1, Ha1. done.
  - congruence.
  - intros _. destruct l; [|by apply Hv']. cbn in He. simplify_eq. done.
Qed.

(** * Clearing *)

Lemma set_screen_twice m l l' : set_screen (set_screen m l) l' = set_screen m l'.
Proof. reflexivity. Qed.

Lemma clear_one_abs m x y :
  0 <= x < 80 → 0 <= y < 25 → Z.of_nat (length (screen m)) = 4000 →
  ∃ l, clear_one m (x, y) = Ret (set_screen m l) ∧ Z.of_nat (length l) = 4000 ∧
    pairs l = <[Z.to_nat (y * 80 + x) := (32, color m)]> (pairs (screen m)).
Proof.
  intros Hx Hy Hlen. unfold clear_one, poke, width. cbn [fst snd].
  rewrite (proj2 (andb_true_iff _ _)) by lia. cbn [obind set_screen screen color].
  rewrite length_insert, (proj2 (andb_true_iff _ _)) by lia.
  eexists. split; [reflexivity|]. split; [by rewrite !length_insert|].
  rewrite <- pairs_insert by lia. f_equal. f_equal; [lia|]. f_equal. lia.
Qed.

(** The cells of the list are blank, the others are as they were. *)
Lemma clear_cells_abs l m :
  Forall (λ xy, 0 <= xy.1 < 80 ∧ 0 <= xy.2 < 25) l → Z.of_nat (length (screen m)) = 4000 →
  ∃ s, clear_cells m l = Ret (set_screen m s) ∧ Z.of_nat (length s) = 4000 ∧
    ∀ x y, 0 <= x < 80 → 0 <= y < 25 →
      pairs s !! Z.to_nat (y * 80 + x) =
        if decide ((x, y) ∈ l) then Some (32, color m) else pairs (screen m) !! Z.to_nat (y * 80 + x).
Proof.
  intros Hl. revert m. induction Hl as [|[x0 y0] l [Hx0 Hy0] _ IH]; intros m Hlen; cbn [clear_cells].
  - exists (screen m). split; [by destruct m|]. split; [done|]. intros x y _ _. by rewrite decide_False by apply not_elem_of_nil.
  - cbn [fst snd] in *. destruct (clear_one_abs m x0 y0 Hx0 Hy0 Hlen) as (l1 & -> & Hl1 & Hp1). cbn [obind].
    destruct (IH (set_screen m l1) Hl1) as (s & -> & Hs & Hlook). exists s. split; [by rewrite set_screen_twice|].
    split; [done|]. intros x y Hx Hy. rewrite Hlook by done. cbn [set_screen screen color]. rewrite Hp1.
    destruct (decide ((x, y) ∈ l)) as [Hin|Hin]; [by rewrite decide_True by (by right)|].
    destruct (decide ((x, y) = (x0, y0))) as [E|E].
    + simplify_eq. rewrite decide_True by constructor. apply list_lookup_insert_eq.
      rewrite (pairs_length _ (Z.to_nat 2000)) by lia. lia.
    + rewrite decide_False by (rewrite elem_of_cons; tauto). apply list_lookup_insert_ne.
      intros E'. apply E. assert (y = y0) by lia. subst. f_equal. lia.
Qed.

(** Initialising the terminal clears the whole screen, whatever it showed, and
    moves the cursor to its origin. *)
Theorem monitor_init_clears m :
  Z.of_nat (length (screen m)) = 4000 →
  ∃ m', monitor_init m = Ret m' ∧ console_ok m' ∧ abs m' = mk_terminal (replicate (Z.to_nat 2000) (32, color m)) 0 ∧ color m' = 15
    ∧ visible_cursor (crtc m') = 0.
Proof.
  intros Hlen. unfold monitor_init, monitor_clear.
  set (l := seqZ 0 width ≫= λ x, (λ y, (x, y)) <$> seqZ 0 height).
  assert (Hin : ∀ x y, (x, y) ∈ l ↔ (0 <= x < 80 ∧ 0 <= y < 25)).
  { intros x y. subst l. unfold width, height. rewrite list_elem_of_bind. setoid_rewrite (elem_of_seqZ 0 80). setoid_rewrite list_elem_of_fmap. setoid_rewrite elem_of_seqZ.
    split; [intros (x' & (y' & E & Hy) & Hx); simplify_eq; lia|]. intros [Hx Hy]. exists x. split; [|lia]. exists y. split; [done|lia]. }
  clearbody l. destruct (clear_cells_abs l m) as (s & -> & Hs & Hlook); [|done|].
  { apply Forall_forall. intros [x y] H. by apply Hin. }
  cbn [obind]. eexists. split; [reflexivity|]. split; [split_and!; done || lia|]. split; [|split; [done|]].
  - unfold abs. cbn [monitor_setattr set_color monitor_moveto vga_sync_cursor update_cursor set_cursor set_screen screen cx cy].
    f_equal. apply list_eq. intros i. destruct (decide (Z.of_nat i < 2000)) as [Hi|Hi].
    + pose proof (Z.div_mod (Z.of_nat i) 80 ltac:(lia)) as Hd. pose proof (Z.mod_pos_bound (Z.of_nat i) 80 ltac:(lia)) as Hm.
      specialize (Hlook (Z.of_nat i mod 80) (Z.of_nat i / 80) Hm ltac:(lia)).
      rewrite decide_True in Hlook by (apply Hin; lia). rewrite lookup_replicate_2 by lia.
      rewrite <- Hlook. f_equal. lia.
    + rewrite !lookup_ge_None_2; [done|rewrite length_replicate; lia|]. rewrite (pairs_length _ (Z.to_nat 2000)); lia.
  - apply (visible_cursor_updated (set_cursor (set_screen m s) 0 0)). cbn. lia.
Qed.
