(* ===== verification/VttyKeys.v ===== *)
(** From the keyboard to the terminal: scan codes decode to the key events they
    stand for, and a text that is typed arrives at the terminal's input. *)

From S2P Require Import Prelude Bytes Ring Printk PrintkConsole Vtty Event Tty VttyMonitor.

(** * Scan codes *)

(** Between two keys. *)
Definition ready : atkbd := mk_atkbd KEY_PRESSED false.

(** The code of a key with its prefix. *)
Record key_code := mk_code { kc_multi : bool; kc_code : Z }.

Definition code_key (k : key_code) : Z :=
  array_of (if kc_multi k then multi_scancode_map else single_scancode_map) (kc_code k).

(** The keyboard sends a prefix for some keys and a code for releasing. *)
Definition encode (e : key_code * bool) : list Z :=
  (if kc_multi e.1 then [224] else []) ++ (if e.2 then [] else [240]) ++ [kc_code e.1].

(** Print screen has codes of its own. *)
Definition code_ok (k : key_code) : Prop :=
  0 <= kc_code k < (if kc_multi k then multi_scancode_map_size else single_scancode_map_size)
  ∧ ¬ (kc_multi k = true ∧ kc_code k = 18) ∧ code_key k <> KEY_PRINTSCREEN.

Definition event_of (e : key_code * bool) : Z * Z := (code_key e.1, if e.2 then KEY_PRESSED else KEY_RELEASED).

Lemma kbd_events_app k l1 l2 k1 k2 e1 e2 :
  kbd_events k l1 = Ret (k1, e1) → kbd_events k1 l2 = Ret (k2, e2) → kbd_events k (l1 ++ l2) = Ret (k2, e1 ++ e2).
Proof.
  revert k e1. induction l1 as [|sc l1 IH]; intros k e1 H1 H2; cbn [kbd_events app] in *; [by simplify_eq|].
  destruct (kbd_event k sc) as [[k' e]| |]; [|done..]. cbn [obind] in *.
  destruct (kbd_events k' l1) as [[k'' es]| |] eqn:E; [|done..]. cbn [obind] in H1. simplify_eq.
  rewrite (IH _ _ E H2). cbn [obind]. by destruct e.
Qed.

Lemma decode_one e : code_ok e.1 → kbd_events ready (encode e) = Ret (ready, [event_of e]).
Proof.
  destruct e as [[multi sc] pressed]. unfold code_ok, event_of, encode, code_key, single_scancode_map_size, multi_scancode_map_size.
  cbn [fst snd kc_multi kc_code]. intros (Hr & Hps & Hk).
  assert (Hsc : sc <> 224 ∧ sc <> 240 ∧ (multi && (sc =? 18)) = false).
  { destruct multi; [|lia]. destruct (Z.eqb_spec sc 18); [naive_solver|lia]. }
  destruct Hsc as (H1 & H2 & H3).
  assert (Hlast : ∀ st, kbd_event (mk_atkbd st multi) sc =
    Ret (ready, Some (array_of (if multi then multi_scancode_map else single_scancode_map) sc, st))).
  { intros st. unfold kbd_event, scancode_key, single_scancode_map_size, multi_scancode_map_size. cbn [atkbd_state atkbd_multibyte].
    rewrite (proj2 (Z.eqb_neq _ _) H1), (proj2 (Z.eqb_neq _ _) H2), H3.
    destruct multi; rewrite (proj2 (Z.ltb_lt _ _)) by lia; cbn [obind]; by rewrite (proj2 (Z.eqb_neq _ _) Hk). }
  destruct multi, pressed; cbn [app kbd_events]; unfold ready at 1;
    cbn [kbd_event Z.eqb Pos.eqb obind atkbd_state atkbd_multibyte andb];
    first [rewrite Hlast | unfold KEY_RELEASED; rewrite Hlast]; done.
Qed.

(** Any sequence of keys pressed and released is decoded to the events it stands
    for, in order. *)
Theorem scancodes_decode l :
  Forall (λ e, code_ok e.1) l → kbd_events ready (l ≫= encode) = Ret (ready, event_of <$> l).
Proof.
  induction 1 as [|e l He _ IH]; [done|]. exact (kbd_events_app _ _ _ _ _ _ _ (decode_one e He) IH).
Qed.

(** * Typing *)

(** No key is down. *)
Definition idle : list Z := replicate 127 0.

(** A keyboard as it is built: the code a key sends in scan-code set 2, the
    character on it and the one with shift, for the US layout, row by row.  This
    table does not come from the driver. *)
Record layout_key := mk_key { lk_code : Z; lk_char : Z; lk_shifted : Z }.

Definition us_layout : list layout_key := [
  (* ` 1 2 3 4 5 6 7 8 9 0 - = backspace *)
  mk_key 14 96 126; mk_key 22 49 33; mk_key 30 50 64; mk_key 38 51 35; mk_key 37 52 36; mk_key 46 53 37; mk_key 54 54 94;
  mk_key 61 55 38; mk_key 62 56 42; mk_key 70 57 40; mk_key 69 48 41; mk_key 78 45 95; mk_key 85 61 43; mk_key 102 8 8;
  (* tab q w e r t y u i o p [ ] \ *)
  mk_key 13 9 9; mk_key 21 113 81; mk_key 29 119 87; mk_key 36 101 69; mk_key 45 114 82; mk_key 44 116 84; mk_key 53 121 89;
  mk_key 60 117 85; mk_key 67 105 73; mk_key 68 111 79; mk_key 77 112 80; mk_key 84 91 123; mk_key 91 93 125; mk_key 93 92 124;
  (* a s d f g h j k l ; ' enter *)
  mk_key 28 97 65; mk_key 27 115 83; mk_key 35 100 68; mk_key 43 102 70; mk_key 52 103 71; mk_key 51 104 72; mk_key 59 106 74;
  mk_key 66 107 75; mk_key 75 108 76; mk_key 76 59 58; mk_key 82 39 34; mk_key 90 10 10;
  (* z x c v b n m , . / space *)
  mk_key 26 122 90; mk_key 34 120 88; mk_key 33 99 67; mk_key 42 118 86; mk_key 50 98 66; mk_key 49 110 78; mk_key 58 109 77;
  mk_key 65 44 60; mk_key 73 46 62; mk_key 74 47 63; mk_key 41 32 32 ].

(** Whether a character needs shift, and the code of its key. *)
Definition key_for (c : Z) : option (bool * Z) :=
  match head (filter (λ k, lk_char k = c) us_layout) with
  | Some k => Some (false, lk_code k)
  | None => (λ k, (true, lk_code k)) <$> head (filter (λ k, lk_shifted k = c) us_layout)
  end.

(** The characters of the keyboard, but for [*], [\]] and [}], which the driver's
    tables have wrong ([vtty_wrong_keys]). *)
Definition typable (c : Z) : Prop := key_for c <> None ∧ c ∉ [42; 93; 125].

(** A character is typed by pressing and releasing its key, with the left shift
    key (code 18) held if need be. *)
Definition strokes (c : Z) : list (key_code * bool) :=
  match key_for c with
  | None => []
  | Some (sh, sc) =>
      let key := [(mk_code false sc, true); (mk_code false sc, false)] in
      if sh : bool then [(mk_code false 18, true)] ++ key ++ [(mk_code false 18, false)] else key
  end.

(** The driver's tables agree with the keyboard: the code of a key gives a key
    whose character, without or with shift, is the one on it. *)
Definition key_fits (k : layout_key) : bool :=
  let key := array_of single_scancode_map (lk_code k) in
  let fits table c := bool_decide (c ∈ [42; 93; 125]) || (table !!! Z.to_nat key =? c) in
  (0 <=? lk_code k) && (lk_code k <? 132) && (0 <? key) && (key <? 127) && negb (is_lock key) && negb (key =? KEY_LEFTSHIFT)
  && negb (key =? KEY_PRINTSCREEN) && negb (lk_char k =? 0) && negb (lk_shifted k =? 0) && fits vkey_std (lk_char k) && fits vkey_shift (lk_shifted k).

Lemma all_keys_fit : forallb key_fits us_layout = true.
Proof. vm_compute. reflexivity. Qed.

(** The key of a character is one of the keyboard. *)
Lemma key_for_layout c sh sc : key_for c = Some (sh, sc) → ∃ k, k ∈ us_layout ∧ lk_code k = sc ∧ (if sh : bool then lk_shifted k else lk_char k) = c.
Proof.
  unfold key_for. destruct (head (filter (λ k, lk_char k = c) us_layout)) as [k|] eqn:E.
  - intros [= <- <-]. exists k. apply head_Some_elem_of, list_elem_of_filter in E as [? ?]. done.
  - intros H. apply fmap_Some in H as (k & Ek & [= -> ->]). exists k. apply head_Some_elem_of, list_elem_of_filter in Ek as [? ?]. done.
Qed.

Lemma typable_fits c : typable c →
  ∃ sh sc, key_for c = Some (sh, sc) ∧ 0 <= sc < 132 ∧ c <> 0 ∧
    let key := array_of single_scancode_map sc in
    0 < key < 127 ∧ is_lock key = false ∧ key <> KEY_LEFTSHIFT ∧ key <> KEY_PRINTSCREEN ∧
    (if sh then vkey_shift else vkey_std) !!! Z.to_nat key = c.
Proof.
  intros [Hk Hno]. destruct (key_for c) as [[sh sc]|] eqn:Ek; [|done]. destruct (key_for_layout c sh sc Ek) as (k & Hin & <- & Hc).
  pose proof all_keys_fit as H. rewrite forallb_forall in H. specialize (H k (proj1 (list_elem_of_In _ _) Hin)).
  exists sh, (lk_code k). unfold key_fits in H. zbool.
  assert (Hfit : ∀ x y, bool_decide (y ∈ [42; 93; 125]) = true ∨ (x =? y) = true → y ∉ [42; 93; 125] → x = y).
  { intros x y [Hb%bool_decide_eq_true|Hb%Z.eqb_eq]; done. }
  destruct sh; subst c; repeat (split; [done|]); by apply Hfit.
Qed.

Lemma strokes_ok c : typable c → Forall (λ e, code_ok e.1) (strokes c).
Proof.
  intros Hc. destruct (typable_fits c Hc) as (sh & sc & Ek & Hsc & _ & Hkey & _ & _ & Hps & _). unfold strokes. rewrite Ek.
  assert (H : code_ok (mk_code false sc)) by (split; [done|split; [by intros [? _]|done]]).
  assert (H18 : code_ok (mk_code false 18)) by (split; [done|split; [by intros [? _]|vm_compute; done]]).
  destruct sh; cbn [app]; by rewrite !Forall_cons, Forall_nil.
Qed.

(** * Listening *)

Section Listen.
Context (waiting : Z → bool).

(** The events of a sequence of keys, one after the other. *)
Definition listen_all (w : outcome vtty) (es : list (Z * Z)) : outcome vtty :=
  foldl (λ w e, v <~ w ;; kbd_listen waiting v e.1 e.2) w es.

(** The key listener with a state of the keys. *)
Definition with_keys (v : vtty) (km : list Z) : vtty := mk_vtty km (ttys v) (vt_screen v) (leds v).

Lemma convert_idle key : vkey_convert key idle = vkey_std !!! Z.to_nat key.
Proof. reflexivity. Qed.
Lemma convert_shift key : vkey_convert key (<[42%nat := 1]> idle) = vkey_shift !!! Z.to_nat key.
Proof. reflexivity. Qed.

Lemma kbd_press v key c v' :
  0 < key < 127 → is_lock key = false → vkey_convert key (keymap v) = c → c <> 0 → insert_char waiting v c = Ret v' →
  kbd_listen waiting v key KEY_PRESSED = Ret (set_key v' key KEY_PRESSED).
Proof.
  intros Hk Hl Hc Hc0 Hi. unfold kbd_listen. unfold KEY_UNKNOWN, KEY_COUNT.
  rewrite (proj2 (Z.eqb_neq key 0)), (proj2 (Z.ltb_lt key 127)) by lia. cbn [negb].
  change (KEY_PRESSED =? KEY_PRESSED) with true. cbv beta iota.
  rewrite Hc, (proj2 (Z.eqb_neq _ _) Hc0), Hi. cbn [obind]. by rewrite Hl.
Qed.

Lemma kbd_release v key :
  0 < key < 127 → is_lock key = false → kbd_listen waiting v key KEY_RELEASED = Ret (set_key v key KEY_RELEASED).
Proof.
  intros Hk Hl. unfold kbd_listen. unfold KEY_UNKNOWN, KEY_COUNT.
  rewrite (proj2 (Z.eqb_neq key 0)), (proj2 (Z.ltb_lt key 127)) by lia. cbn [negb].
  change (KEY_RELEASED =? KEY_PRESSED) with false. cbn [obind]. by rewrite Hl.
Qed.

(** Pressing and releasing a key that gives a character. *)
Lemma listen_key v km key c v' :
  0 < key < 127 → is_lock key = false → km !! Z.to_nat key = Some 0 → vkey_convert key km = c → c <> 0 →
  insert_char waiting (with_keys v km) c = Ret v' → keymap v' = km →
  listen_all (Ret (with_keys v km)) [(key, KEY_PRESSED); (key, KEY_RELEASED)] = Ret v'.
Proof.
  intros Hk Hl Hkm Hc Hc0 Hi Hkeys. unfold listen_all. cbn [foldl fst snd]. rewrite obind_Ret.
  rewrite (kbd_press (with_keys v km) _ _ _ Hk Hl Hc Hc0 Hi), obind_Ret, (kbd_release _ _ Hk Hl).
  unfold set_key. cbn [keymap ttys vt_screen leds]. rewrite Hkeys, list_insert_insert_eq. unfold KEY_RELEASED. rewrite (list_insert_id _ _ _ Hkm).
  rewrite <- Hkeys. by destruct v'.
Qed.

(** The terminal gets a character. *)
Lemma insert_char_spec v km d rest c :
  ttys v !! VTTY_MAJOR = Some (d :: rest) →
  let r := tty_queue_insert waiting (vt_screen v) d c in
  insert_char waiting (with_keys v km) c = Ret (mk_vtty km (<[VTTY_MAJOR := r.1.2 :: rest]> (ttys v)) r.1.1 (leds v)).
Proof.
  intros Hd. unfold insert_char, tty_find_driver, VTTY_MAJOR in *. cbn [Z.leb Z.compare Pos.compare Pos.compare_cont with_keys ttys].
  rewrite Hd. cbn [vt_screen with_keys keymap leds]. by destruct (tty_queue_insert waiting (vt_screen v) d c) as [[w d'] ?].
Qed.

Lemma idle_lookup key : 0 < key < 127 → idle !! Z.to_nat key = Some 0.
Proof. intros H. apply lookup_replicate_2. lia. Qed.

(** Typing one character. *)
Lemma listen_strokes v c d rest :
  typable c → keymap v = idle → ttys v !! VTTY_MAJOR = Some (d :: rest) →
  let r := tty_queue_insert waiting (vt_screen v) d c in
  listen_all (Ret v) (event_of <$> strokes c) = Ret (mk_vtty idle (<[VTTY_MAJOR := r.1.2 :: rest]> (ttys v)) r.1.1 (leds v)).
Proof.
  intros Hc Hkm Hd r. destruct (typable_fits c Hc) as (sh & sc & Ek & _ & Hc0 & Hkey & Hlock & Hns & _ & Hch).
  set (key := array_of single_scancode_map sc) in *. unfold strokes. rewrite Ek.
  assert (Hv : v = with_keys v idle) by (unfold with_keys; rewrite <- Hkm; by destruct v).
  destruct sh.
  - set (shifted := <[42%nat := 1]> idle).
    assert (Hk : shifted !! Z.to_nat key = Some 0).
    { unfold shifted, KEY_LEFTSHIFT in *. rewrite list_lookup_insert_ne by lia. by apply idle_lookup. }
    assert (He : event_of <$> ([(mk_code false 18, true)] ++ [(mk_code false sc, true); (mk_code false sc, false)] ++ [(mk_code false 18, false)])
      = [(42, KEY_PRESSED)] ++ [(key, KEY_PRESSED); (key, KEY_RELEASED)] ++ [(42, KEY_RELEASED)]) by reflexivity.
    rewrite He. unfold listen_all. rewrite !foldl_app.
    assert (H1 : foldl (λ w e, v <~ w ;; kbd_listen waiting v e.1 e.2) (Ret v) [(42, KEY_PRESSED)] = Ret (with_keys v shifted)) by (rewrite Hv; reflexivity).
    rewrite H1. pose proof (listen_key v shifted key c _ Hkey Hlock Hk Hch Hc0 (insert_char_spec v shifted d rest c Hd) eq_refl) as H2.
    unfold listen_all in H2. rewrite H2. fold r. reflexivity.
  - cbn [fmap list_fmap event_of fst snd code_key kc_multi kc_code]. fold key. rewrite Hv at 1.
    exact (listen_key v idle key c _ Hkey Hlock (idle_lookup key Hkey) Hch Hc0 (insert_char_spec v idle d rest c Hd) eq_refl).
Qed.

Lemma listen_all_app w es1 es2 : listen_all w (es1 ++ es2) = listen_all (listen_all w es1) es2.
Proof. apply foldl_app. Qed.

(** Typing a text. *)
Lemma listen_text text v d rest :
  Forall typable text → keymap v = idle → ttys v !! VTTY_MAJOR = Some (d :: rest) →
  let r := type_chars waiting (vt_screen v) d text in
  listen_all (Ret v) (event_of <$> (text ≫= strokes)) = Ret (mk_vtty idle (<[VTTY_MAJOR := r.2 :: rest]> (ttys v)) r.1 (leds v)).
Proof.
  intros Ht. revert v d. induction Ht as [|c text Hc _ IH]; intros v d Hkm Hd r.
  { subst r. cbn [type_chars foldl fst snd]. rewrite insert_id by done. rewrite <- Hkm. by destruct v. }
  rewrite bind_cons, fmap_app, listen_all_app, (listen_strokes v c d rest Hc Hkm Hd).
  set (s := tty_queue_insert waiting (vt_screen v) d c).
  rewrite (IH _ s.1.2); [|done|cbn [ttys]; apply lookup_insert_eq]. cbn [ttys vt_screen leds]. rewrite insert_insert_eq.
  assert (Hr : r = type_chars waiting s.1.1 s.1.2 text).
  { subst r s. unfold type_chars. cbn [foldl]. by rewrite <- surjective_pairing. }
  by rewrite Hr.
Qed.

(** The echo keeps the screen in order. *)
Lemma insert_screen m d c :
  ops d = vtty_ops → console_ok m →
  let r := tty_queue_insert waiting (Ret m : vtty_world) d c in
  ops r.1.2 = vtty_ops ∧ ∃ m', r.1.1 = Ret m' ∧ console_ok m'.
Proof.
  intros Ho Hok. unfold tty_queue_insert.
  assert (Hecho : ∀ (d' : tty_device vtty_world) c', ops d' = vtty_ops → ∃ m', tty_putchar (Ret m : vtty_world) d' c' = Ret m' ∧ console_ok m').
  { intros d' c' Hd'. unfold tty_putchar. rewrite Hd'. cbn [vtty_ops op_putchar vtty_putchar obind].
    destruct (monitor_putchar_abs m c' Hok) as (m' & -> & (? & _) & _). by exists m'. }
  repeat case_if; cbn [fst snd set_queue ops]; (split; [done|]); first [by exists m | by apply Hecho].
Qed.

Lemma type_chars_screen text m d :
  ops d = vtty_ops → console_ok m → ∃ m', (type_chars waiting (Ret m : vtty_world) d text).1 = Ret m' ∧ console_ok m'.
Proof.
  revert m d. induction text as [|c text IH]; intros m d Ho Hok; [by exists m|]. unfold type_chars in *. cbn [foldl].
  destruct (insert_screen m d c Ho Hok) as (Ho' & m1 & Em & Hok1).
  destruct (tty_queue_insert waiting (Ret m : vtty_world) d c) as [[w1 d1] ?]. cbn [fst snd] in *. subst w1. by apply IH.
Qed.

(** The events as the keyboard driver raises them. *)
Definition key_event (e : Z * Z) : event_t := mk_event EVENT_KEY e.1 e.2.

Lemma dispatch_listen h w es :
  eh_mask h = EVENT_KEY → foldl (λ w ev, dispatch (kbd_handler waiting) w ev [h]) w (key_event <$> es) = listen_all w es.
Proof.
  intros Hm. assert (Hstep : ∀ w e, dispatch (kbd_handler waiting) w (key_event e) [h] = (v <~ w ;; kbd_listen waiting v e.1 e.2)).
  { intros w' e. cbn [dispatch]. rewrite Hm. reflexivity. }
  revert w. induction es as [|e es IH]; intros w; [done|]. cbn [fmap list_fmap foldl].
  rewrite Hstep. apply IH.
Qed.

(** A text typed on the keyboard arrives at the virtual terminal.  Its scan
    codes raise key events; when the event monitor has handled them in order,
    the input of the terminal holds the text as the line discipline edits it,
    all keys are up again, and the echo left the screen and its cursor in
    order.  A character is typed with its key of the US layout and, if need be,
    shift; the driver has seen a key before. *)
Theorem typed_text_arrives text v d rest h m :
  Forall typable text → (length (pending d) + length text < TTY_QUEUELEN)%nat →
  keymap v = idle → ttys v !! VTTY_MAJOR = Some (d :: rest) → dev_ok d → ops d = vtty_ops →
  vt_screen v = Ret m → console_ok m → eh_mask h = EVENT_KEY →
  ∃ evs v' d' m',
    kbd_events ready ((text ≫= strokes) ≫= encode) = Ret (ready, evs)
    ∧ (event_monitor (kbd_handler waiting) (length evs) (Ret v) (raise_all (mk_events [h] [] false) (key_event <$> evs))).1 = Ret v'
    ∧ keymap v' = idle ∧ ttys v' !! VTTY_MAJOR = Some (d' :: rest)
    ∧ pending d' = foldl (edit (d_termios d)) (pending d) text
    ∧ vt_screen v' = Ret m' ∧ console_ok m'.
Proof.
  intros Ht Hlen Hkm Hd Hdok Hops Hscr Hok Hmask.
  exists (event_of <$> (text ≫= strokes)), (mk_vtty idle (<[VTTY_MAJOR := (type_chars waiting (vt_screen v) d text).2 :: rest]> (ttys v))
    (type_chars waiting (vt_screen v) d text).1 (leds v)), (type_chars waiting (vt_screen v) d text).2.
  destruct (type_chars_screen text m d Hops Hok) as (m' & Hm' & Hok'). exists m'.
  destruct (type_chars_spec waiting text (vt_screen v) d Hdok) as (_ & Hpend & _); [done|].
  split_and!; try done.
  - apply scancodes_decode. apply Forall_bind. eapply Forall_impl; [exact Ht|]. apply strokes_ok.
  - rewrite <- (length_fmap key_event), event_order by (by apply Forall_fmap, Forall_true).
    cbn [fst]. rewrite dispatch_listen by done. by apply listen_text.
  - cbn [ttys]. apply lookup_insert_eq.
  - cbn [vt_screen]. by rewrite Hscr.
Qed.
End Listen.

(** * Examples and faults *)

(** Loading the virtual terminal and typing on it; faults of the keyboard
    driver and of the terminal. *)

Definition nobody (t : Z) : bool := false.

(** Video memory with something in it. *)
Definition first_screen : monitor_info := mk_monitor 7 3 4 (replicate (Z.to_nat 4000) 65) [].
Definition before : vtty := mk_vtty idle ∅ (Ret first_screen) [].

Definition the_handler : event_handler := mk_handler 5 EVENT_KEY 77 0.
Definition the_device : tty_device vtty_world := fresh_device vtty_ops (replicate TTY_QUEUELEN 0).

(** * Loading *)

(** When memory and the major number are to be had, loading clears the screen,
    makes one terminal and registers the key listener, which is the private
    pointer of the module. *)
Theorem vtty_load_ready v ev fn a m :
  vt_screen v = Ret m → Z.of_nat (length (screen m)) = 4000 →
  ∃ m', vtty_load v ev true 0 fn (Some a) =
      Ret (mk_vtty (keymap v) (<[VTTY_MAJOR := [the_device]]> (ttys v)) (Ret m') (leds v),
           mk_events (mk_handler a EVENT_KEY fn 0 :: event_handlers ev) (event_list ev) (monitor_woken ev), Ok (Some a))
    ∧ console_ok m' ∧ abs m' = mk_terminal (replicate (Z.to_nat 2000) (32, color m)) 0 ∧ color m' = 15.
Proof.
  intros Hs Hlen. destruct (monitor_init_clears m Hlen) as (m' & E & Hok & Ha & Hc & _). exists m'.
  split; [|done]. unfold vtty_load. rewrite Hs. cbn [tty_alloc_driver VTTY_MAJOR Z.leb Z.compare negb Z.eqb obind].
  rewrite E. reflexivity.
Qed.

(** A terminal just loaded, with a blank screen. *)
Definition loaded_screen : monitor_info := mk_monitor 0 0 15 (blank_cells (Z.to_nat 2000) 4) [].
Definition loaded_vtty : vtty := mk_vtty idle {[VTTY_MAJOR := [the_device]]} (Ret loaded_screen) [].

Lemma loaded_screen_ok : console_ok loaded_screen.
Proof.
  unfold console_ok, loaded_screen. cbn [cx cy screen].
  destruct (blank_cells_lookup (Z.to_nat 2000) 0 4) as (_ & _ & ->). lia.
Qed.

(** "Hi!" and a newline. *)
Lemma typed_text_witness : ∃ evs v' d' m',
  kbd_events ready (([72; 105; 33; 10] ≫= strokes) ≫= encode) = Ret (ready, evs)
  ∧ (event_monitor (kbd_handler nobody) (length evs) (Ret loaded_vtty) (raise_all (mk_events [the_handler] [] false) (key_event <$> evs))).1 = Ret v'
  ∧ ttys v' !! VTTY_MAJOR = Some [d'] ∧ pending d' = foldl (edit default_termios) [] [72; 105; 33; 10]
  ∧ vt_screen v' = Ret m' ∧ console_ok m'.
Proof.
  destruct (typed_text_arrives nobody [72; 105; 33; 10] loaded_vtty the_device [] the_handler loaded_screen)
    as (evs & v' & d' & m' & H1 & H2 & _ & H3 & H4 & H5 & H6).
  - repeat constructor; (vm_compute; congruence) || set_solver.
  - change (pending the_device) with (@nil Z). unfold TTY_QUEUELEN. cbn. lia.
  - reflexivity.
  - apply lookup_singleton_eq.
  - split; [|split]; [apply length_replicate|apply Nat.lt_0_succ..].
  - reflexivity.
  - reflexivity.
  - exact loaded_screen_ok.
  - reflexivity.
  - exists evs, v', d', m'. split; [exact H1|]. split; [exact H2|]. split; [exact H3|]. split; [exact H4|]. split; [exact H5|exact H6].
Defined.

(** * Faults *)

(** The driver starts in the state of a release: the first key pressed is
    reported as released, and its character is lost. *)
Theorem atkbd_first_key_lost : kbd_events atkbd_start [28; 28] = Ret (ready, [(KEY_A, KEY_RELEASED); (KEY_A, KEY_PRESSED)]).
Proof. vm_compute. reflexivity. Qed.

(** Codes behind the tables, such as an acknowledgement or the pause key, are
    looked up outside the array. *)
Theorem atkbd_code_outside : kbd_events ready [250] = Halt ∧ kbd_events ready [225; 20; 119] = Halt.
Proof. split; vm_compute; reflexivity. Qed.

(** Three characters of the keyboard come out as others: the code of the right
    bracket is mapped to the left bracket, and shift and 8 gives an ampersand. *)
Theorem vtty_wrong_keys :
  key_for 93 = Some (false, 91) ∧ vkey_std !!! Z.to_nat (array_of single_scancode_map 91) = 91 ∧
  key_for 125 = Some (true, 91) ∧ vkey_shift !!! Z.to_nat (array_of single_scancode_map 91) = 123 ∧
  key_for 42 = Some (true, 62) ∧ vkey_shift !!! Z.to_nat (array_of single_scancode_map 62) = 38.
Proof. split_and!; vm_compute; reflexivity. Qed.

(** Every other printable character can be typed, and backspace, tab and enter. *)
Theorem vtty_typable : ∀ c, 32 <= c < 127 ∨ c ∈ [8; 9; 10] → c ∉ [42; 93; 125] → typable c.
Proof.
  assert (H : forallb (λ c, bool_decide (key_for c <> None)) ([8; 9; 10] ++ seqZ 32 95) = true) by (vm_compute; reflexivity).
  intros c Hc Hno. split; [|done]. rewrite forallb_forall in H.
  assert (Hin : In c ([8; 9; 10] ++ seqZ 32 95)).
  { apply list_elem_of_In, elem_of_app. destruct Hc; [right; apply elem_of_seqZ; lia|by left]. }
  by apply H, bool_decide_eq_true in Hin.
Qed.

(** The event of the scroll lock key is that of the caps lock LED. *)
Theorem vtty_scroll_lock_led :
  leds <$> (match kbd_listen nobody before KEY_SCRLOCK KEY_PRESSED with Ret v => Some v | _ => None end) = Some [(LED_CAPSLOCK, 1)].
Proof. vm_compute. reflexivity. Qed.

(** A listener that cannot be registered is not noticed: the module is loaded
    without a keyboard, and removing it unlinks an error pointer. *)
Theorem vtty_load_deaf v ev fn m :
  vt_screen v = Ret m → Z.of_nat (length (screen m)) = 4000 →
  ∃ v', vtty_load v ev true 0 fn None = Ret (v', ev, Ok None) ∧ vtty_remove v' ev None 0 = Halt.
Proof.
  intros Hs Hlen. destruct (monitor_init_clears m Hlen) as (m' & E & _). eexists. split; [|reflexivity].
  unfold vtty_load. rewrite Hs. cbn [tty_alloc_driver VTTY_MAJOR Z.leb Z.compare negb Z.eqb obind]. rewrite E. reflexivity.
Qed.
