(* ===== verification/Ps2.v ===== *)
(** The driver of the keyboard controller [src/kernel/src/ps2.c] and loading the
    keyboard module [src/modules/atkbd/src/main.c].

    Ports are those of [IoPorts]; the controller and its devices are left to
    the instance ([Ps2Bus] has what is assumed of them).  [fuel] bounds the
    reads of the status register in one call of [ps2_poll] and the repetitions
    a device asks for.  The interrupt flag and messages are left out. *)

From S2P Require Import Prelude Vtty Event Interrupts Ata.

Definition PS2_DATA : Z := 96.
Definition PS2_STAT : Z := 100.
Definition PS2_CMD : Z := 100.
Definition PS2_ACK : Z := 250.
Definition PS2_RESEND : Z := 254.
Definition PS2_INPUT_BUFFER : Z := 2.
Definition PS2_OUTPUT_BUFFER : Z := 1.
Definition PS2_CFG_INT1 : Z := 1.
Definition PS2_CFG_INT2 : Z := 2.
Definition PS2_CFG_DIS2 : Z := 32.
Definition PS2_CFG_TRN2 : Z := 64.
Definition PS2_DEV_TRKEYBOARD1 : Z := 43841.
Definition PS2_DEV_TRKEYBOARD2 : Z := 43969.
Definition PS2_DEV_KEYBOARD : Z := 43907.
Definition PS2_DEV_NONE : Z := 65535.
Definition PS2_CMD_RDCFG : Z := 32.
Definition PS2_CMD_WRCFG : Z := 96.
Definition PS2_CMD_DIS2 : Z := 167.
Definition PS2_CMD_ENA2 : Z := 168.
Definition PS2_CMD_TES2 : Z := 169.
Definition PS2_CMD_TEST : Z := 170.
Definition PS2_CMD_TES1 : Z := 171.
Definition PS2_CMD_DIS1 : Z := 173.
Definition PS2_CMD_ENA1 : Z := 174.
Definition PS2_CMD_WRINP2 : Z := 212.
Definition PS2_CTRL : Z := 0.
Definition PS2_PORT1 : Z := 1.
Definition PS2_PORT2 : Z := 2.
Definition PS2_TEST_CTRL : Z := 0.
Definition PS2_TEST_PORT1 : Z := 1.
Definition PS2_TEST_PORT2 : Z := 2.
Definition PS2_RESULT_PASS : Z := 0.
Definition PS2_RESULT_TIMEOUT : Z := 33.
Definition PS2_RESULT_FAIL : Z := 32.
Definition PS2_RESULT_CTRL : Z := 252.
Definition PS2_DEVCMD_RESET : Z := 255.
Definition IRQ1 : Z := 33.
Definition IRQ12 : Z := 44.
Definition ATKBD_SET_SCANCODE : Z := 240.
Definition ATKBD_SCANCODE_SET2 : Z := 2.

Definition PS2_CFG_INT (p : Z) : Z := if p =? PS2_PORT1 then PS2_CFG_INT1 else if p =? PS2_PORT2 then PS2_CFG_INT2 else 0.
Definition PS2_IS_KBD (id : Z) : bool := (id =? PS2_DEV_TRKEYBOARD1) || (id =? PS2_DEV_TRKEYBOARD2) || (id =? PS2_DEV_KEYBOARD).

Definition has (x mask : Z) : bool := negb (Z.land x mask =? 0).

(** [ps2_port] has two entries and is indexed with 1 and 2: [behind] is the byte
    behind it. *)
Record ps2_listener := mk_listener { l_addr : Z; l_fn : Z }.
Record ps2 := mk_ps2 {
  ps2_port : Z * Z; behind : Z;
  ps2_listenlist1 : list ps2_listener; ps2_listenlist2 : list ps2_listener;
}.
Definition ps2_poll_timeout : Z := 1000.
Definition ps2_start (byte : Z) : ps2 := mk_ps2 (1, 1) byte [] [].

Section Driver.
Context {H : Type} `{!IoPorts H} (fuel : nat).

(** * Access *)

(** Reads the status until [ready] holds of it. *)
Fixpoint poll_loop (n : nat) (h : H) (ready : Z → bool) (start : Z) : outcome (H * Z) :=
  match n with
  | O => OutOfFuel
  | S n =>
      let '(h, st) := inb h PS2_STAT in
      if ready st then Ret (h, 0)
      else if ticks h <? u32 (start + ps2_poll_timeout) then Ret (h, PS2_RESULT_TIMEOUT)
      else poll_loop n h ready start
  end.

Definition ps2_poll (h : H) (buffer : Z) : outcome (H * Z) :=
  if buffer =? PS2_INPUT_BUFFER then poll_loop fuel h (λ st, negb (has st buffer)) (ticks h)
  else if buffer =? PS2_OUTPUT_BUFFER then poll_loop fuel h (λ st, has st buffer) (ticks h)
  else Ret (h, 0).

Definition ps2_send_cmd (h : H) (cmd : Z) : outcome H :=
  '(h, r) <~ ps2_poll h PS2_INPUT_BUFFER ;;
  Ret (if r =? PS2_RESULT_TIMEOUT then h else outb h PS2_CMD cmd).

Definition ps2_send_data (h : H) (port data : Z) : outcome H :=
  h <~ (if port =? PS2_PORT2 then ps2_send_cmd h PS2_CMD_WRINP2 else Ret h) ;;
  '(h, r) <~ ps2_poll h PS2_INPUT_BUFFER ;;
  Ret (if r =? PS2_RESULT_TIMEOUT then h else outb h PS2_DATA data).

Definition ps2_read_data (h : H) : outcome (H * Z) :=
  '(h, r) <~ ps2_poll h PS2_OUTPUT_BUFFER ;;
  Ret (if r =? PS2_RESULT_TIMEOUT then (h, 0) else inb h PS2_DATA).

Definition ps2_config (h : H) (ena dis : Z) : outcome (H * Z) :=
  let ena := Z.land ena 115 in
  let dis := Z.land dis 115 in
  h <~ ps2_send_cmd h PS2_CMD_RDCFG ;;
  '(h, cfg) <~ ps2_read_data h ;;
  if (ena =? 0) && (dis =? 0) then Ret (h, cfg)
  else
    let cfg := u8 (Z.land cfg (Z.lnot dis)) in
    let cfg := u8 (Z.lor cfg ena) in
    h <~ ps2_send_cmd h PS2_CMD_WRCFG ;;
    h <~ ps2_send_data h PS2_CTRL cfg ;;
    Ret (h, cfg).

Definition ps2_enable (h : H) (ports : Z) : outcome H :=
  h <~ (if has ports PS2_PORT1 then
          h <~ ps2_send_cmd h PS2_CMD_ENA1 ;; '(h, _) <~ ps2_config h PS2_CFG_INT1 0 ;; Ret h
        else Ret h) ;;
  if has ports PS2_PORT2 then
    h <~ ps2_send_cmd h PS2_CMD_ENA2 ;; '(h, _) <~ ps2_config h PS2_CFG_INT2 0 ;; Ret h
  else Ret h.

Definition ps2_disable (h : H) (ports : Z) : outcome H :=
  h <~ (if has ports PS2_PORT1 then ps2_send_cmd h PS2_CMD_DIS1 else Ret h) ;;
  if has ports PS2_PORT2 then ps2_send_cmd h PS2_CMD_DIS2 else Ret h.

(** A test and its answer. *)
Definition run_test (h : H) (cmd : Z) : outcome (H * Z) := h <~ ps2_send_cmd h cmd ;; ps2_read_data h.

Definition ps2_self_test (h : H) (tests : Z) : outcome (H * Z) :=
  '(h, result) <~ (if has tests PS2_TEST_CTRL then run_test h PS2_CMD_TEST else Ret (h, 0)) ;;
  if has tests PS2_TEST_CTRL && (result =? 252) then Ret (h, PS2_RESULT_CTRL)
  else
    '(h, result) <~ (if has tests PS2_TEST_PORT1 then run_test h PS2_CMD_TES1 else Ret (h, PS2_RESULT_PASS)) ;;
    if negb (result =? PS2_RESULT_PASS) then Ret (h, result)
    else
      '(h, result) <~ (if has tests PS2_TEST_PORT2 then run_test h PS2_CMD_TES2 else Ret (h, PS2_RESULT_PASS)) ;;
      if negb (result =? PS2_RESULT_PASS) then Ret (h, u8 (result + 16)) else Ret (h, PS2_RESULT_PASS).

Definition ps2_reset (h : H) (port : Z) : outcome (H * Z) :=
  if negb (port =? PS2_PORT1) && negb (port =? PS2_PORT2) then Ret (h, PS2_RESULT_PASS)
  else
    h <~ ps2_send_data h port PS2_DEVCMD_RESET ;;
    '(h, r) <~ ps2_poll h PS2_OUTPUT_BUFFER ;;
    if r =? PS2_RESULT_TIMEOUT then Ret (h, PS2_RESULT_TIMEOUT)
    else
      '(h, data) <~ ps2_read_data h ;;
      Ret (h, if data =? 250 then PS2_RESULT_PASS else PS2_RESULT_FAIL).

(** * Initialisation *)

(** The second port is there if it can be enabled and disabled. *)
Definition find_port2 (h : H) (cfg : Z) : outcome (H * bool) :=
  if has cfg PS2_CFG_DIS2 then
    h <~ ps2_enable h PS2_PORT2 ;;
    '(h, cfg) <~ ps2_config h 0 0 ;;
    if has cfg PS2_CFG_DIS2 then Ret (h, false)
    else h <~ ps2_disable h PS2_PORT2 ;; Ret (h, true)
  else Ret (h, false).

(** From the test of the second port on.  [port1_fn], [port2_fn]: the addresses
    of the two interrupt handlers. *)
Definition init_ports (h : H) (s : ps2) (d : descr) (dual : bool) (port1_fn port2_fn : Z) : outcome (H * (ps2 * descr)) :=
  '(h, result) <~ (if dual then ps2_self_test h PS2_TEST_PORT2 else Ret (h, PS2_RESULT_FAIL)) ;;
  let s := if negb (result =? PS2_RESULT_PASS) then mk_ps2 (ps2_port s) 0 (ps2_listenlist1 s) (ps2_listenlist2 s) else s in
  let d := register_interrupt d IRQ1 port1_fn in
  let d := register_interrupt d IRQ12 port2_fn in
  h <~ (if negb ((ps2_port s).2 =? 0) then ps2_enable h PS2_PORT1 else Ret h) ;;
  h <~ (if negb (behind s =? 0) then ps2_enable h PS2_PORT2 else Ret h) ;;
  '(h, _) <~ ps2_config h (Z.lor PS2_CFG_INT1 PS2_CFG_INT2) 0 ;;
  Ret (h, (s, d)).

Definition ps2_init (h : H) (s : ps2) (d : descr) (port1_fn port2_fn : Z) : outcome (H * (ps2 * descr)) :=
  h <~ ps2_disable h (Z.lor PS2_PORT1 PS2_PORT2) ;;
  let '(h, _) := inb h PS2_DATA in
  '(h, cfg) <~ ps2_config h 0 (Z.lor (Z.lor PS2_CFG_INT1 PS2_CFG_INT2) PS2_CFG_TRN2) ;;
  '(h, result) <~ ps2_self_test h PS2_TEST_CTRL ;;
  if negb (result =? PS2_RESULT_PASS) then Ret (h, (s, d))
  else
    '(h, dual) <~ find_port2 h cfg ;;
    '(h, result) <~ ps2_self_test h PS2_TEST_PORT1 ;;
    let s := if negb (result =? PS2_RESULT_PASS) then mk_ps2 ((ps2_port s).1, 0) (behind s) (ps2_listenlist1 s) (ps2_listenlist2 s) else s in
    init_ports h s d dual port1_fn port2_fn.

(** * Listeners *)

(** [alloc]: the address of the new structure, if there is memory. *)
Definition ps2_listen (s : ps2) (port fn : Z) (alloc : option Z) : ps2 * option ps2_listener :=
  if (2 <? port) || (port <? 1) then (s, None)
  else match alloc with
  | None => (s, None)
  | Some a =>
      let l := mk_listener a fn in
      (if port =? 1 then mk_ps2 (ps2_port s) (behind s) (l :: ps2_listenlist1 s) (ps2_listenlist2 s)
       else mk_ps2 (ps2_port s) (behind s) (ps2_listenlist1 s) (l :: ps2_listenlist2 s), Some l)
  end.

Definition ps2_unlisten (s : ps2) (listener : option ps2_listener) : ps2 :=
  match listener with
  | None => s
  | Some l =>
      let others := filter (λ x, l_addr x ≠ l_addr l) in
      mk_ps2 (ps2_port s) (behind s) (others (ps2_listenlist1 s)) (others (ps2_listenlist2 s))
  end.

Section Interrupt.
Context {W : Type} (call : Z → Z → Z → W → outcome W).

Fixpoint call_listeners (w : W) (l : list ps2_listener) (port data : Z) : outcome W :=
  match l with
  | [] => Ret w
  | x :: l => w <~ call (l_fn x) port data w ;; call_listeners w l port data
  end.

Definition ps2_port1_interrupt (h : H) (s : ps2) (w : W) : outcome (H * W) :=
  let '(h, data) := inb h PS2_DATA in
  w <~ call_listeners w (ps2_listenlist1 s) PS2_PORT1 data ;; Ret (h, w).
Definition ps2_port2_interrupt (h : H) (s : ps2) (w : W) : outcome (H * W) :=
  let '(h, data) := inb h PS2_DATA in
  w <~ call_listeners w (ps2_listenlist2 s) PS2_PORT2 data ;; Ret (h, w).
End Interrupt.

(** * Identification *)

(** Sends a byte again as long as the device asks for it; the last answer. *)
Fixpoint send_again (n : nat) (h : H) (port data : Z) : outcome (H * Z) :=
  match n with
  | O => OutOfFuel
  | S n =>
      '(h, result) <~ ps2_read_data h ;;
      if result =? PS2_RESEND then h <~ ps2_send_data h port data ;; send_again n h port data
      else Ret (h, result)
  end.
Definition send_until (h : H) (port data : Z) : outcome (H * Z) := h <~ ps2_send_data h port data ;; send_again fuel h port data.

Definition enable_scanning (h : H) (port cfg : Z) : outcome H :=
  h <~ ps2_send_data h port 244 ;;
  '(h, _) <~ ps2_read_data h ;;
  '(h, _) <~ ps2_config h cfg 0 ;;
  Ret h.

Definition ps2_identify (h : H) (port : Z) : outcome (H * Z) :=
  '(h, cfg) <~ ps2_config h 0 0 ;;
  if (port =? PS2_PORT1) || (port =? PS2_PORT2) then
    '(h, _) <~ ps2_config h 0 (if port =? PS2_PORT1 then PS2_CFG_INT1 else PS2_CFG_INT2) ;;
    '(h, result) <~ send_until h port 245 ;;
    if negb (result =? PS2_ACK) then '(h, _) <~ ps2_config h cfg 0 ;; Ret (h, PS2_DEV_NONE)
    else
      '(h, result) <~ send_until h port 242 ;;
      if negb (result =? PS2_ACK) then h <~ enable_scanning h port cfg ;; Ret (h, PS2_DEV_NONE)
      else
        '(h, temp) <~ ps2_read_data h ;;
        let id := u16 (Z.land (Z.shiftl temp 8) 65280) in
        '(h, temp) <~ ps2_read_data h ;;
        let id := u16 (Z.lor id (Z.land temp 255)) in
        h <~ enable_scanning h port cfg ;;
        Ret (h, id)
  else Ret (h, PS2_DEV_NONE).

(** * The keyboard module *)

(** The port of the keyboard. *)
Definition find_keyboard (h : H) : outcome (H * result Z) :=
  '(h, id) <~ ps2_identify h PS2_PORT1 ;;
  if PS2_IS_KBD id || (id =? PS2_DEV_NONE) then Ret (h, Ok PS2_PORT1)
  else
    '(h, id) <~ ps2_identify h PS2_PORT2 ;;
    Ret (h, if negb (PS2_IS_KBD id) then Err ENODEV else Ok PS2_PORT2).

(** [fn]: the address of [kbd_event]; the listener is kept for removal. *)
Definition keyboard_load (h : H) (s : ps2) (fn : Z) (alloc : option Z) : outcome (H * (ps2 * result ps2_listener)) :=
  '(h, r) <~ find_keyboard h ;;
  match r with
  | Err e => Ret (h, (s, Err e))
  | Ok port =>
      '(h, _) <~ ps2_config h 0 (PS2_CFG_INT port) ;;
      h <~ ps2_send_data h port ATKBD_SET_SCANCODE ;;
      '(h, _) <~ ps2_read_data h ;;
      h <~ ps2_send_data h port ATKBD_SCANCODE_SET2 ;;
      '(h, _) <~ ps2_config h (PS2_CFG_INT port) 0 ;;
      h <~ ps2_enable h port ;;
      let '(s, l) := ps2_listen s port fn alloc in
      Ret (h, (s, match l with None => Err EIO | Some l => Ok l end))
  end.

Definition keyboard_remove (s : ps2) (kbd_listener : option ps2_listener) : ps2 := ps2_unlisten s kbd_listener.
End Driver.

(** The listener of the keyboard module: the event is raised when there is
    memory for it. *)
Definition kbd_listener_call (alloc : bool) (sc : Z) (w : atkbd * events) : outcome (atkbd * events) :=
  '(k, e) <~ kbd_event w.1 sc ;;
  Ret (k, match e with Some (key, state) => (event_raise w.2 EVENT_KEY key state alloc).1 | None => w.2 end).
