(* ===== verification/Ps2Props.v ===== *)
(** What the keyboard controller is assumed to do, as the class [Ps2Bus], and
    what the driver makes of it: the configuration, initialisation and the
    identification of a keyboard. *)

From S2P Require Import Prelude Bytes Ring Printk PrintkConsole Event Tty Vtty VttyMonitor VttyKeys Interrupts Ata Ps2.

(** * Controllers *)

(** A device answers commands: it starts or stops scanning, sends its
    identification, and takes the number of a set of scan codes. *)
Record ps2_device := mk_ps2_device { pd_scanning : bool; pd_set : Z; pd_argument : bool; pd_ident : list Z }.

Definition pd_answer (p : ps2_device) (b : Z) : ps2_device * list Z :=
  if pd_argument p then (mk_ps2_device (pd_scanning p) b false (pd_ident p), [PS2_ACK])
  else if b =? 240 then (mk_ps2_device (pd_scanning p) (pd_set p) true (pd_ident p), [PS2_ACK])
  else if b =? 242 then (p, PS2_ACK :: pd_ident p)
  else if b =? 244 then (mk_ps2_device true (pd_set p) false (pd_ident p), [PS2_ACK])
  else if b =? 245 then (mk_ps2_device false (pd_set p) false (pd_ident p), [PS2_ACK])
  else (p, [PS2_RESEND]).

(** The configuration byte, bytes that wait to be read, the command that awaits
    a byte, the devices and whether there is a second port. *)
Record kbc := mk_kbc { k_cfg : Z; k_out : list Z; k_wait : option Z; k_dev1 : option ps2_device; k_dev2 : option ps2_device; k_dual : bool }.

Definition set_cfg (k : kbc) (c : Z) : kbc := mk_kbc c (k_out k) (k_wait k) (k_dev1 k) (k_dev2 k) (k_dual k).
Definition set_out (k : kbc) (l : list Z) : kbc := mk_kbc (k_cfg k) l (k_wait k) (k_dev1 k) (k_dev2 k) (k_dual k).
Definition set_wait (k : kbc) (w : option Z) : kbc := mk_kbc (k_cfg k) (k_out k) w (k_dev1 k) (k_dev2 k) (k_dual k).
Definition push (k : kbc) (l : list Z) : kbc := set_out k (k_out k ++ l).

Definition command (k : kbc) (c : Z) : kbc :=
  if c =? PS2_CMD_RDCFG then push k [k_cfg k]
  else if (c =? PS2_CMD_WRCFG) || (c =? PS2_CMD_WRINP2) then set_wait k (Some c)
  else if c =? PS2_CMD_DIS1 then set_cfg k (Z.lor (k_cfg k) 16)
  else if c =? PS2_CMD_ENA1 then set_cfg k (Z.land (k_cfg k) (Z.lnot 16))
  else if c =? PS2_CMD_DIS2 then if k_dual k then set_cfg k (Z.lor (k_cfg k) 32) else k
  else if c =? PS2_CMD_ENA2 then if k_dual k then set_cfg k (Z.land (k_cfg k) (Z.lnot 32)) else k
  else if c =? PS2_CMD_TEST then push k [85]
  else if c =? PS2_CMD_TES1 then push k [0]
  else if c =? PS2_CMD_TES2 then if k_dual k then push k [0] else k
  else k.

Definition to_dev1 (k : kbc) (b : Z) : kbc :=
  match k_dev1 k with
  | None => k
  | Some p => let r := pd_answer p b in push (mk_kbc (k_cfg k) (k_out k) (k_wait k) (Some r.1) (k_dev2 k) (k_dual k)) r.2
  end.
Definition to_dev2 (k : kbc) (b : Z) : kbc :=
  match k_dev2 k with
  | None => k
  | Some p => let r := pd_answer p b in push (mk_kbc (k_cfg k) (k_out k) (k_wait k) (k_dev1 k) (Some r.1) (k_dual k)) r.2
  end.

Definition data (k : kbc) (b : Z) : kbc :=
  match k_wait k with
  | None => to_dev1 k b
  | Some c => if c =? PS2_CMD_WRCFG then set_cfg (set_wait k None) b else to_dev2 (set_wait k None) b
  end.

(** A controller that takes every byte at once and has its answers ready, in
    order.  Reading the status takes less than a second. *)
Class Ps2Bus {H : Type} `{!IoPorts H} (bus : H → kbc) := {
  bus_status h : bus (inb h PS2_STAT).1 = bus h ∧ has (inb h PS2_STAT).2 PS2_INPUT_BUFFER = false
    ∧ has (inb h PS2_STAT).2 PS2_OUTPUT_BUFFER = bool_decide (k_out (bus h) <> []);
  bus_ticks h : ticks (inb h PS2_STAT).1 < u32 (ticks h + ps2_poll_timeout);
  bus_read h : bus (inb h PS2_DATA).1 = set_out (bus h) (tail (k_out (bus h)))
    ∧ ∀ b, head (k_out (bus h)) = Some b → (inb h PS2_DATA).2 = b;
  bus_command h c : bus (outb h PS2_CMD c) = command (bus h) c;
  bus_data h b : bus (outb h PS2_DATA b) = data (bus h) b;
}.

(** * Configuration bytes *)

Lemma has_bit x i : 0 <= i → has x (2 ^ i) = Z.testbit x i.
Proof.
  intros Hi. unfold has. destruct (Z.testbit x i) eqn:E.
  - apply negb_true_iff, Z.eqb_neq. intros Hz. assert (Hb : Z.testbit (Z.land x (2 ^ i)) i = false) by (rewrite Hz; apply Z.bits_0).
    by rewrite Z.land_spec, E, Z.pow2_bits_true in Hb.
  - apply negb_false_iff, Z.eqb_eq. apply Z.bits_inj'. intros n Hn. rewrite Z.land_spec, Z.bits_0, Z.pow2_bits_eqb by done.
    destruct (Z.eqb_spec i n) as [->|]; [by rewrite E|apply andb_false_r].
Qed.

Lemma u8_bit x i : 0 <= i < 8 → Z.testbit (u8 x) i = Z.testbit x i.
Proof. intros Hi. unfold u8. change 256 with (2 ^ 8). apply Z.mod_pow2_bits_low. lia. Qed.

(** The byte that [ps2_config] leaves. *)
Definition new_cfg (ena dis cfg : Z) : Z :=
  if (Z.land ena 115 =? 0) && (Z.land dis 115 =? 0) then cfg
  else u8 (Z.lor (u8 (Z.land cfg (Z.lnot (Z.land dis 115)))) (Z.land ena 115)).

(** Bit by bit: what may be changed is set, cleared or kept. *)
Lemma new_cfg_bit ena dis cfg i :
  0 <= i < 8 → Z.testbit (new_cfg ena dis cfg) i =
    if Z.testbit 115 i then Z.testbit ena i || (Z.testbit cfg i && negb (Z.testbit dis i)) else Z.testbit cfg i.
Proof.
  intros Hi. unfold new_cfg. destruct ((Z.land ena 115 =? 0) && (Z.land dis 115 =? 0)) eqn:E.
  - zbool. assert (He : Z.testbit (Z.land ena 115) i = false) by (rewrite H; apply Z.bits_0).
    assert (Hd : Z.testbit (Z.land dis 115) i = false) by (rewrite H0; apply Z.bits_0).
    rewrite Z.land_spec in He, Hd. destruct (Z.testbit 115 i); [|done]. rewrite andb_true_r in He, Hd. rewrite He, Hd. by destruct (Z.testbit cfg i).
  - rewrite u8_bit, Z.lor_spec, u8_bit, Z.land_spec, Z.lnot_spec, !Z.land_spec by lia.
    destruct (Z.testbit 115 i), (Z.testbit ena i), (Z.testbit cfg i), (Z.testbit dis i); done.
Qed.

Lemma u8_range x : 0 <= u8 x < 256.
Proof. apply Z.mod_pos_bound. lia. Qed.

Lemma new_cfg_range ena dis cfg : 0 <= cfg < 256 → 0 <= new_cfg ena dis cfg < 256.
Proof. intros H. unfold new_cfg. case_if; [done|apply u8_range]. Qed.

Lemma bits_high x i : 0 <= x < 256 → 8 <= i → Z.testbit x i = false.
Proof. intros Hx Hi. destruct (decide (x = 0)) as [->|]; [apply Z.bits_0|]. apply Z.bits_above_log2; [lia|]. assert (Z.log2 x < 8) by (apply Z.log2_lt_pow2; lia). lia. Qed.

(** Bytes with the same eight bits are equal. *)
Lemma byte_eq x y : 0 <= x < 256 → 0 <= y < 256 → (∀ i, 0 <= i < 8 → Z.testbit x i = Z.testbit y i) → x = y.
Proof.
  intros Hx Hy He. apply Z.bits_inj'. intros n Hn. destruct (decide (n < 8)); [apply He; lia|].
  by rewrite !bits_high by lia.
Qed.

(** Disabling an interrupt and putting the configuration back. *)
Lemma new_cfg_restore cfg dis : 0 <= cfg < 256 → new_cfg cfg 0 (new_cfg 0 dis cfg) = cfg.
Proof.
  intros Hc. apply byte_eq; [by apply new_cfg_range, new_cfg_range|done|]. intros i Hi.
  rewrite !new_cfg_bit, Z.bits_0 by done. destruct (Z.testbit 115 i), (Z.testbit cfg i), (Z.testbit dis i); done.
Qed.

(** * The driver on such a controller *)

Section Driver.
Context {H : Type} `{!IoPorts H} {bus : H → kbc} `{!Ps2Bus bus} (fuel : nat) (Hfuel : (0 < fuel)%nat).

(** A call returns and leaves the controller in state [k], with result [a]. *)
Definition reaches (m : outcome H) (k : kbc) : Prop := ∃ h, m = Ret h ∧ bus h = k.
Definition gives {A} (m : outcome (H * A)) (k : kbc) (a : A) : Prop := ∃ h, m = Ret (h, a) ∧ bus h = k.

Lemma poll_input h : gives (ps2_poll fuel h PS2_INPUT_BUFFER) (bus h) 0.
Proof using Hfuel Ps2Bus0.
  unfold ps2_poll. change (PS2_INPUT_BUFFER =? PS2_INPUT_BUFFER) with true. cbv iota.
  destruct fuel as [|n]; [lia|]. cbn [poll_loop]. destruct (bus_status h) as (Hb & Hi & _).
  destruct (inb h PS2_STAT) as [h' st]. cbn [fst snd] in *. rewrite Hi. by exists h'.
Qed.

Lemma poll_output h :
  gives (ps2_poll fuel h PS2_OUTPUT_BUFFER) (bus h) (if bool_decide (k_out (bus h) <> []) then 0 else PS2_RESULT_TIMEOUT).
Proof using Hfuel Ps2Bus0.
  unfold ps2_poll. change (PS2_OUTPUT_BUFFER =? PS2_INPUT_BUFFER) with false. change (PS2_OUTPUT_BUFFER =? PS2_OUTPUT_BUFFER) with true. cbv iota.
  destruct fuel as [|n]; [lia|]. cbn [poll_loop]. destruct (bus_status h) as (Hb & _ & Ho). pose proof (bus_ticks h) as Ht.
  destruct (inb h PS2_STAT) as [h' st]. cbn [fst snd] in *. rewrite Ho.
  destruct (bool_decide (k_out (bus h) <> [])); [by exists h'|].
  rewrite (proj2 (Z.ltb_lt _ _) Ht). by exists h'.
Qed.

Lemma send_cmd_ok h c : reaches (ps2_send_cmd fuel h c) (command (bus h) c).
Proof using Hfuel Ps2Bus0.
  unfold ps2_send_cmd. destruct (poll_input h) as (h1 & -> & E). cbn [obind]. eexists. split; [reflexivity|].
  change (0 =? PS2_RESULT_TIMEOUT) with false. cbv iota. by rewrite bus_command, E.
Qed.

Lemma send_data_ok h port b :
  reaches (ps2_send_data fuel h port b) (data (if port =? PS2_PORT2 then command (bus h) PS2_CMD_WRINP2 else bus h) b).
Proof using Hfuel Ps2Bus0.
  unfold ps2_send_data.
  assert (Hs : reaches (if port =? PS2_PORT2 then ps2_send_cmd fuel h PS2_CMD_WRINP2 else Ret h) (if port =? PS2_PORT2 then command (bus h) PS2_CMD_WRINP2 else bus h)).
  { destruct (port =? PS2_PORT2); [apply send_cmd_ok|by exists h]. }
  destruct Hs as (h1 & -> & <-). cbn [obind]. destruct (poll_input h1) as (h2 & -> & E). cbn [obind]. eexists. split; [reflexivity|].
  change (0 =? PS2_RESULT_TIMEOUT) with false. cbv iota. by rewrite bus_data, E.
Qed.

Lemma read_data_ok h b l : k_out (bus h) = b :: l → gives (ps2_read_data fuel h) (set_out (bus h) l) b.
Proof using Hfuel Ps2Bus0.
  intros Ho. unfold ps2_read_data. destruct (poll_output h) as (h1 & -> & E). rewrite Ho. cbn [obind].
  rewrite bool_decide_eq_true_2 by done. change (0 =? PS2_RESULT_TIMEOUT) with false. cbv iota.
  destruct (bus_read h1) as [Hb Hv]. rewrite E, Ho in Hb, Hv. specialize (Hv b eq_refl).
  destruct (inb h1 PS2_DATA) as [h2 v]. cbn [fst snd tail] in *. exists h2. by rewrite Hv.
Qed.

(** Nothing to read: the call gives up. *)
Lemma read_data_empty h : k_out (bus h) = [] → gives (ps2_read_data fuel h) (bus h) 0.
Proof using Hfuel Ps2Bus0.
  intros Ho. unfold ps2_read_data. destruct (poll_output h) as (h1 & -> & E). rewrite Ho. cbn [obind].
  exists h1. split; [reflexivity|done].
Qed.

(** At rest: nothing to read, no command that awaits a byte. *)
Definition quiet (k : kbc) : Prop := k_out k = [] ∧ k_wait k = None.

Lemma config_ok h ena dis :
  quiet (bus h) → gives (ps2_config fuel h ena dis) (set_cfg (bus h) (new_cfg ena dis (k_cfg (bus h)))) (new_cfg ena dis (k_cfg (bus h))).
Proof using Hfuel Ps2Bus0.
  intros (Ho & Hw). unfold ps2_config, new_cfg. destruct (send_cmd_ok h PS2_CMD_RDCFG) as (h1 & -> & E1). cbn [obind].
  change (command (bus h) PS2_CMD_RDCFG) with (push (bus h) [k_cfg (bus h)]) in E1.
  destruct (read_data_ok h1 (k_cfg (bus h)) []) as (h2 & -> & E2); [by rewrite E1; cbn; rewrite Ho|]. cbn [obind].
  assert (Hb : bus h2 = bus h).
  { rewrite E2, E1. destruct (bus h) as [c o w d1 d2 du]. cbn in *. by subst. }
  clear E1 E2. destruct ((Z.land ena 115 =? 0) && (Z.land dis 115 =? 0)).
  { exists h2. split; [done|]. rewrite Hb. by destruct (bus h). }
  destruct (send_cmd_ok h2 PS2_CMD_WRCFG) as (h3 & -> & E3). cbn [obind].
  destruct (send_data_ok h3 PS2_CTRL (u8 (Z.lor (u8 (Z.land (k_cfg (bus h)) (Z.lnot (Z.land dis 115)))) (Z.land ena 115)))) as (h4 & -> & E4). cbn [obind].
  exists h4. split; [done|]. rewrite E4, E3, Hb. destruct (bus h) as [c o w d1 d2 du]. cbn in *. by subst.
Qed.

(** The configuration when both ports, or one of them, are switched. *)
Definition disabled1 (k : kbc) : Z := Z.lor (k_cfg k) 16.
Definition disabled2 (k : kbc) : Z := if k_dual k then Z.lor (k_cfg k) 32 else k_cfg k.
Definition enabled1 (k : kbc) : Z := new_cfg PS2_CFG_INT1 0 (Z.land (k_cfg k) (Z.lnot 16)).
Definition enabled2 (k : kbc) : Z := new_cfg PS2_CFG_INT2 0 (if k_dual k then Z.land (k_cfg k) (Z.lnot 32) else k_cfg k).

Lemma disable1_ok h : reaches (ps2_disable fuel h PS2_PORT1) (set_cfg (bus h) (disabled1 (bus h))).
Proof using Hfuel Ps2Bus0.
  unfold ps2_disable. destruct (send_cmd_ok h PS2_CMD_DIS1) as (h1 & E & Hb). exists h1. split; [|exact Hb].
  change (has PS2_PORT1 PS2_PORT1) with true. change (has PS2_PORT1 PS2_PORT2) with false. cbv iota. by rewrite E.
Qed.

Lemma command_dis2 k : command k PS2_CMD_DIS2 = set_cfg k (disabled2 k).
Proof. unfold disabled2. change (command k PS2_CMD_DIS2) with (if k_dual k then set_cfg k (Z.lor (k_cfg k) 32) else k). destruct k as [c o w d1 d2 []]; reflexivity. Qed.

Lemma disable2_ok h : reaches (ps2_disable fuel h PS2_PORT2) (set_cfg (bus h) (disabled2 (bus h))).
Proof using Hfuel Ps2Bus0.
  unfold ps2_disable. destruct (send_cmd_ok h PS2_CMD_DIS2) as (h1 & E & Hb). exists h1. split; [|by rewrite Hb, command_dis2].
  change (has PS2_PORT2 PS2_PORT1) with false. change (has PS2_PORT2 PS2_PORT2) with true. cbv iota. by rewrite obind_Ret, E.
Qed.

Lemma enable1_ok h : quiet (bus h) → reaches (ps2_enable fuel h PS2_PORT1) (set_cfg (bus h) (enabled1 (bus h))).
Proof using Hfuel Ps2Bus0.
  intros Hq. unfold ps2_enable. destruct (send_cmd_ok h PS2_CMD_ENA1) as (h1 & E & Hb).
  destruct (config_ok h1 PS2_CFG_INT1 0) as (h2 & E2 & Hb2); [by rewrite Hb|]. exists h2. split; [|by rewrite Hb2, Hb].
  change (has PS2_PORT1 PS2_PORT1) with true. change (has PS2_PORT1 PS2_PORT2) with false. cbv iota. rewrite E, !obind_Ret, E2. reflexivity.
Qed.

Lemma enable2_ok h : quiet (bus h) → reaches (ps2_enable fuel h PS2_PORT2) (set_cfg (bus h) (enabled2 (bus h))).
Proof using Hfuel Ps2Bus0.
  intros Hq. unfold ps2_enable. destruct (send_cmd_ok h PS2_CMD_ENA2) as (h1 & E & Hb).
  assert (Hc : command (bus h) PS2_CMD_ENA2 = set_cfg (bus h) (if k_dual (bus h) then Z.land (k_cfg (bus h)) (Z.lnot 32) else k_cfg (bus h))).
  { change (command (bus h) PS2_CMD_ENA2) with (if k_dual (bus h) then set_cfg (bus h) (Z.land (k_cfg (bus h)) (Z.lnot 32)) else bus h).
    destruct (bus h) as [c o w d1 d2 []]; reflexivity. }
  rewrite Hc in Hb. destruct (config_ok h1 PS2_CFG_INT2 0) as (h2 & E2 & Hb2); [by rewrite Hb|]. exists h2. split; [|by rewrite Hb2, Hb].
  change (has PS2_PORT2 PS2_PORT1) with false. change (has PS2_PORT2 PS2_PORT2) with true. cbv iota. rewrite obind_Ret, E, obind_Ret, E2. reflexivity.
Qed.

(** A test the controller passes. *)
Lemma run_test_ok h cmd : quiet (bus h) → command (bus h) cmd = push (bus h) [0] → gives (run_test fuel h cmd) (bus h) 0.
Proof using Hfuel Ps2Bus0.
  intros [Ho Hw] Hc. unfold run_test. destruct (send_cmd_ok h cmd) as (h1 & -> & Hb). rewrite obind_Ret. rewrite Hc in Hb.
  destruct (read_data_ok h1 0 []) as (h2 & E & Hb2); [by rewrite Hb; cbn; rewrite Ho|]. exists h2. split; [done|].
  rewrite Hb2, Hb. destruct (bus h) as [c o w d1 d2 du]. cbn in *. by subst.
Qed.

(** The test of the controller itself has the number 0 and is never run. *)
Lemma self_test_ctrl h : ps2_self_test fuel h PS2_TEST_CTRL = Ret (h, PS2_RESULT_PASS).
Proof using Type. reflexivity. Qed.

Lemma self_test_port1 h : quiet (bus h) → gives (ps2_self_test fuel h PS2_TEST_PORT1) (bus h) PS2_RESULT_PASS.
Proof using Hfuel Ps2Bus0.
  intros Hq. destruct (run_test_ok h PS2_CMD_TES1 Hq eq_refl) as (h1 & E & Hb). exists h1. split; [|done]. unfold ps2_self_test.
  change (has PS2_TEST_PORT1 PS2_TEST_CTRL) with false. change (has PS2_TEST_PORT1 PS2_TEST_PORT1) with true.
  change (has PS2_TEST_PORT1 PS2_TEST_PORT2) with false. cbv iota. rewrite obind_Ret. cbn [andb]. rewrite E. reflexivity.
Qed.

Lemma self_test_port2 h : quiet (bus h) → k_dual (bus h) = true → gives (ps2_self_test fuel h PS2_TEST_PORT2) (bus h) PS2_RESULT_PASS.
Proof using Hfuel Ps2Bus0.
  intros Hq Hd. assert (Hc : command (bus h) PS2_CMD_TES2 = push (bus h) [0]).
  { change (command (bus h) PS2_CMD_TES2) with (if k_dual (bus h) then push (bus h) [0] else bus h). by rewrite Hd. }
  destruct (run_test_ok h PS2_CMD_TES2 Hq Hc) as (h1 & E & Hb). exists h1. split; [|done]. unfold ps2_self_test.
  change (has PS2_TEST_PORT2 PS2_TEST_CTRL) with false. change (has PS2_TEST_PORT2 PS2_TEST_PORT1) with false.
  change (has PS2_TEST_PORT2 PS2_TEST_PORT2) with true. cbv iota. rewrite obind_Ret. cbn [andb]. rewrite obind_Ret. cbv iota.
  change (negb (PS2_RESULT_PASS =? PS2_RESULT_PASS)) with false. cbv iota. rewrite E. reflexivity.
Qed.

(** The search for the second port, when the configuration shows it disabled. *)
Lemma find_port2_dual h :
  quiet (bus h) → k_dual (bus h) = true → Z.testbit (k_cfg (bus h)) 5 = true →
  gives (find_port2 fuel h (k_cfg (bus h))) (set_cfg (bus h) (Z.lor (enabled2 (bus h)) 32)) true.
Proof using Hfuel Ps2Bus0.
  intros Hq Hd H5. unfold find_port2. change PS2_CFG_DIS2 with (2 ^ 5). rewrite has_bit, H5 by lia.
  destruct (enable2_ok h Hq) as (h1 & -> & E1). rewrite obind_Ret.
  destruct (config_ok h1 0 0) as (h2 & -> & E2); [by rewrite E1|]. rewrite obind_Ret, E1. cbn [set_cfg k_cfg].
  rewrite has_bit by lia.
  assert (Hb : Z.testbit (new_cfg 0 0 (enabled2 (bus h))) 5 = false).
  { unfold enabled2. rewrite Hd. rewrite !new_cfg_bit, Z.land_spec, Z.lnot_spec by lia. by rewrite andb_false_r. }
  rewrite Hb. destruct (disable2_ok h2) as (h3 & -> & E3). rewrite obind_Ret. exists h3. split; [done|].
  rewrite E3, E2, E1. unfold disabled2, set_cfg. cbn [k_cfg k_dual k_out k_wait k_dev1 k_dev2]. rewrite Hd. reflexivity.
Qed.

Lemma find_port2_single h : Z.testbit (k_cfg (bus h)) 5 = false → gives (find_port2 fuel h (k_cfg (bus h))) (bus h) false.
Proof using Hfuel.
  intros H5. unfold find_port2. change PS2_CFG_DIS2 with (2 ^ 5). rewrite has_bit, H5 by lia. by exists h.
Qed.

(** The configuration that initialisation leaves; [on2] says whether the second
    port is switched on again. *)
Definition init_cfg (dual on2 : bool) (c : Z) : Z :=
  let c := Z.lor c 16 in
  let c := if dual then Z.lor c 32 else c in
  let c := new_cfg 0 67 c in
  let c := if dual then Z.lor (new_cfg PS2_CFG_INT2 0 (Z.land c (Z.lnot 32))) 32 else c in
  let c := new_cfg PS2_CFG_INT1 0 (Z.land c (Z.lnot 16)) in
  let c := if on2 then new_cfg PS2_CFG_INT2 0 (if dual then Z.land c (Z.lnot 32) else c) else c in
  new_cfg 3 0 c.

Lemma init_cfg_bit dual on2 c i :
  0 <= i < 8 → Z.testbit (init_cfg dual on2 c) i =
    if (i =? 0) || (i =? 1) then true else if (i =? 4) || (i =? 6) then false
    else if i =? 5 then if dual then negb on2 else Z.testbit c 5 else Z.testbit c i.
Proof.
  intros Hi. assert (Hc : i ∈ [0; 1; 2; 3; 4; 5; 6; 7]) by (rewrite !elem_of_cons; lia).
  unfold init_cfg. cbv zeta. apply list_elem_of_In in Hc. cbn [In] in Hc.
  repeat (destruct Hc as [<-|Hc]; [destruct dual, on2;
    repeat (rewrite ?new_cfg_bit, ?Z.lor_spec, ?Z.land_spec, ?Z.lnot_spec by lia; cbv iota);
    match goal with |- context [Z.testbit c ?j] => destruct (Z.testbit c j); reflexivity | _ => reflexivity end|]). done.
Qed.

Lemma disable_both h :
  reaches (ps2_disable fuel h (Z.lor PS2_PORT1 PS2_PORT2))
    (set_cfg (bus h) (if k_dual (bus h) then Z.lor (Z.lor (k_cfg (bus h)) 16) 32 else Z.lor (k_cfg (bus h)) 16)).
Proof using Hfuel Ps2Bus0.
  unfold ps2_disable. destruct (send_cmd_ok h PS2_CMD_DIS1) as (h1 & E1 & Hb1). destruct (send_cmd_ok h1 PS2_CMD_DIS2) as (h2 & E2 & Hb2).
  exists h2. split; [|by rewrite Hb2, Hb1, command_dis2; destruct (bus h)].
  change (has (Z.lor PS2_PORT1 PS2_PORT2) PS2_PORT1) with true. change (has (Z.lor PS2_PORT1 PS2_PORT2) PS2_PORT2) with true.
  cbv iota. by rewrite E1, obind_Ret, E2.
Qed.

Lemma init_ports_ok h s d (dual : bool) port1_fn port2_fn :
  quiet (bus h) → (dual = true → k_dual (bus h) = true) → (ps2_port s).2 <> 0 →
  let s' := if dual then s else mk_ps2 (ps2_port s) 0 (ps2_listenlist1 s) (ps2_listenlist2 s) in
  let on2 := negb (behind s' =? 0) in
  let c := new_cfg PS2_CFG_INT1 0 (Z.land (k_cfg (bus h)) (Z.lnot 16)) in
  gives (init_ports fuel h s d dual port1_fn port2_fn)
    (set_cfg (bus h) (new_cfg 3 0 (if on2 then new_cfg PS2_CFG_INT2 0 (if k_dual (bus h) then Z.land c (Z.lnot 32) else c) else c)))
    (s', register_interrupt (register_interrupt d IRQ1 port1_fn) IRQ12 port2_fn).
Proof using Hfuel Ps2Bus0.
  intros Hq Hdual Hp s' on2 c. unfold init_ports.
  assert (Ht : ∃ h1 r, (if dual then ps2_self_test fuel h PS2_TEST_PORT2 else Ret (h, PS2_RESULT_FAIL)) = Ret (h1, r) ∧ bus h1 = bus h
    ∧ (if negb (r =? PS2_RESULT_PASS) then mk_ps2 (ps2_port s) 0 (ps2_listenlist1 s) (ps2_listenlist2 s) else s) = s').
  { destruct dual; [|by exists h, PS2_RESULT_FAIL]. destruct (self_test_port2 h Hq (Hdual eq_refl)) as (h1 & E & Hb). by exists h1, PS2_RESULT_PASS. }
  destruct Ht as (h1 & r & -> & Hb1 & Hs). rewrite obind_Ret. cbv zeta. rewrite Hs. clear Hs.
  assert (Hp' : negb ((ps2_port s').2 =? 0) = true) by (subst s'; destruct dual; cbn [ps2_port]; by apply negb_true_iff, Z.eqb_neq).
  rewrite Hp'. destruct (enable1_ok h1) as (h2 & -> & Hb2); [by rewrite Hb1|]. rewrite obind_Ret. rewrite Hb1 in Hb2.
  assert (H2 : reaches (if negb (behind s' =? 0) then ps2_enable fuel h2 PS2_PORT2 else Ret h2)
    (set_cfg (bus h) (if on2 then new_cfg PS2_CFG_INT2 0 (if k_dual (bus h) then Z.land c (Z.lnot 32) else c) else c))).
  { fold on2. destruct on2; [|by exists h2]. destruct (enable2_ok h2) as (h3 & E & Hb3); [by rewrite Hb2|]. exists h3. split; [done|].
    by rewrite Hb3, Hb2. }
  destruct H2 as (h3 & -> & Hb3). rewrite obind_Ret.
  destruct (config_ok h3 (Z.lor PS2_CFG_INT1 PS2_CFG_INT2) 0) as (h4 & -> & Hb4); [by rewrite Hb3|]. rewrite obind_Ret.
  exists h4. split; [done|]. by rewrite Hb4, Hb3.
Qed.

(** Initialisation returns, finds the second port if there is one and leaves the
    controller at rest: both interrupts are on, translation is off, the first
    port is on; the bits that may not be changed are as they were.  The
    handlers of both lines are registered.  Whether the second port is on
    depends on the byte behind [ps2_port], which is 0 afterwards if there is no
    second port. *)
Theorem ps2_init_ready h s d port1_fn port2_fn :
  k_wait (bus h) = None → tail (k_out (bus h)) = [] → (k_dual (bus h) = false → Z.testbit (k_cfg (bus h)) 5 = false) → (ps2_port s).2 <> 0 →
  ∃ h' s', ps2_init fuel h s d port1_fn port2_fn = Ret (h', (s', register_interrupt (register_interrupt d IRQ1 port1_fn) IRQ12 port2_fn))
    ∧ s' = mk_ps2 (ps2_port s) (if k_dual (bus h) then behind s else 0) (ps2_listenlist1 s) (ps2_listenlist2 s)
    ∧ quiet (bus h') ∧ k_dev1 (bus h') = k_dev1 (bus h) ∧ k_dev2 (bus h') = k_dev2 (bus h) ∧ k_dual (bus h') = k_dual (bus h)
    ∧ k_cfg (bus h') = init_cfg (k_dual (bus h)) (negb (behind s' =? 0)) (k_cfg (bus h)).
Proof using Hfuel Ps2Bus0.
  intros Hw Ho H5 Hp. unfold ps2_init. destruct (disable_both h) as (h1 & -> & Hb1). rewrite obind_Ret.
  destruct (bus_read h1) as [Hb2 _]. destruct (inb h1 PS2_DATA) as [h2 v]. cbn [fst] in Hb2. rewrite Hb1 in Hb2.
  assert (Hq2 : quiet (bus h2)) by (rewrite Hb2; done).
  destruct (config_ok h2 0 (Z.lor (Z.lor PS2_CFG_INT1 PS2_CFG_INT2) PS2_CFG_TRN2) Hq2) as (h3 & -> & Hb3). rewrite obind_Ret.
  rewrite self_test_ctrl, obind_Ret. change (negb (PS2_RESULT_PASS =? PS2_RESULT_PASS)) with false. cbv iota.
  assert (Hq3 : quiet (bus h3)) by (rewrite Hb3; done).
  replace (new_cfg 0 _ (k_cfg (bus h2))) with (k_cfg (bus h3)) by (by rewrite Hb3).
  assert (Hd3 : k_dual (bus h3) = k_dual (bus h)) by (by rewrite Hb3, Hb2).
  assert (H53 : Z.testbit (k_cfg (bus h3)) 5 = k_dual (bus h)).
  { rewrite Hb3, Hb2. cbn [set_cfg set_out k_cfg]. rewrite new_cfg_bit by lia. destruct (k_dual (bus h)) eqn:Ed.
    - by rewrite !Z.lor_spec, orb_true_r.
    - rewrite Z.lor_spec, H5 by done. reflexivity. }
  assert (Hf : gives (find_port2 fuel h3 (k_cfg (bus h3)))
    (set_cfg (bus h3) (if k_dual (bus h) then Z.lor (new_cfg PS2_CFG_INT2 0 (Z.land (k_cfg (bus h3)) (Z.lnot 32))) 32 else k_cfg (bus h3))) (k_dual (bus h))).
  { destruct (k_dual (bus h)) eqn:Ed.
    - destruct (find_port2_dual h3 Hq3 Hd3 H53) as (h4 & E & Hb4). exists h4. split; [done|]. rewrite Hb4. unfold enabled2. by rewrite Hd3.
    - destruct (find_port2_single h3 H53) as (h4 & E & Hb4). exists h4. split; [done|]. rewrite Hb4. by destruct (bus h3). }
  destruct Hf as (h4 & -> & Hb4). rewrite obind_Ret.
  destruct (self_test_port1 h4) as (h5 & -> & Hb5); [by rewrite Hb4|]. rewrite obind_Ret.
  change (negb (PS2_RESULT_PASS =? PS2_RESULT_PASS)) with false. cbv iota zeta.
  destruct (init_ports_ok h5 s d (k_dual (bus h)) port1_fn port2_fn) as (h6 & -> & Hb6);
    [by rewrite Hb5, Hb4|intros Ed; by rewrite Hb5, Hb4; cbn [set_cfg k_dual]; rewrite Hd3|done|].
  eexists h6, _. split; [reflexivity|]. split; [destruct s, (k_dual (bus h)); reflexivity|].
  rewrite Hb6, Hb5, Hb4, Hb3, Hb2. cbn [set_cfg set_out k_cfg k_out k_wait k_dev1 k_dev2 k_dual quiet].
  split; [done|]. do 3 (split; [done|]). unfold init_cfg. destruct (k_dual (bus h)); reflexivity.
Qed.

(** * A keyboard on the first port *)

Definition set_dev1 (k : kbc) (p : ps2_device) : kbc := mk_kbc (k_cfg k) (k_out k) (k_wait k) (Some p) (k_dev2 k) (k_dual k).

Lemma send_dev1 h p b :
  k_wait (bus h) = None → k_dev1 (bus h) = Some p →
  reaches (ps2_send_data fuel h PS2_PORT1 b) (push (set_dev1 (bus h) (pd_answer p b).1) (pd_answer p b).2).
Proof using Hfuel Ps2Bus0.
  intros Hw Hd. destruct (send_data_ok h PS2_PORT1 b) as (h1 & E & Hb). exists h1. split; [done|]. rewrite Hb.
  change (PS2_PORT1 =? PS2_PORT2) with false. cbv iota. unfold data. rewrite Hw. unfold to_dev1. by rewrite Hd.
Qed.

(** The answer is no request to repeat: the first byte is read, the others
    wait. *)
Lemma send_until_ok h p p' b r l :
  quiet (bus h) → k_dev1 (bus h) = Some p → pd_answer p b = (p', r :: l) → r <> PS2_RESEND →
  gives (send_until fuel h PS2_PORT1 b) (set_out (set_dev1 (bus h) p') l) r.
Proof using Hfuel Ps2Bus0.
  intros [Ho Hw] Hd Ha Hr. unfold send_until. destruct (send_dev1 h p b Hw Hd) as (h1 & -> & Hb). rewrite obind_Ret, Ha in *. cbn [fst snd] in Hb.
  assert (Hn : ∀ n, (0 < n)%nat → send_again fuel n h1 PS2_PORT1 b =
    ('(h, result) <~ ps2_read_data fuel h1 ;;
      if result =? PS2_RESEND then h <~ ps2_send_data fuel h PS2_PORT1 b ;; send_again fuel (pred n) h PS2_PORT1 b else Ret (h, result)))
    by (intros [|n] Hn; [lia|done]).
  rewrite Hn by exact Hfuel.
  destruct (read_data_ok h1 r l) as (h2 & -> & Hb2); [by rewrite Hb; cbn; rewrite Ho|]. rewrite obind_Ret, (proj2 (Z.eqb_neq _ _) Hr).
  exists h2. split; [done|]. by rewrite Hb2, Hb.
Qed.

Lemma enable_scanning_ok h p cfg :
  quiet (bus h) → k_dev1 (bus h) = Some p → pd_argument p = false →
  reaches (enable_scanning fuel h PS2_PORT1 cfg)
    (set_cfg (set_dev1 (bus h) (mk_ps2_device true (pd_set p) false (pd_ident p))) (new_cfg cfg 0 (k_cfg (bus h)))).
Proof using Hfuel Ps2Bus0.
  intros [Ho Hw] Hd Hp. unfold enable_scanning. destruct (send_dev1 h p 244 Hw Hd) as (h1 & -> & Hb1). rewrite obind_Ret.
  assert (Ha : pd_answer p 244 = (mk_ps2_device true (pd_set p) false (pd_ident p), [PS2_ACK])) by (unfold pd_answer; by rewrite Hp).
  rewrite Ha in Hb1. cbn [fst snd] in Hb1.
  destruct (read_data_ok h1 PS2_ACK []) as (h2 & -> & Hb2); [by rewrite Hb1; cbn; rewrite Ho|]. rewrite obind_Ret.
  destruct (config_ok h2 cfg 0) as (h3 & -> & Hb3); [by rewrite Hb2, Hb1|]. rewrite obind_Ret. exists h3. split; [done|].
  rewrite Hb3, Hb2, Hb1. by destruct (bus h); cbn in *; subst.
Qed.

(** A keyboard is identified; it scans afterwards, and the configuration is as
    it was. *)
Theorem ps2_identify_keyboard h p :
  quiet (bus h) → 0 <= k_cfg (bus h) < 256 → k_dev1 (bus h) = Some p → pd_argument p = false → pd_ident p = [171; 131] →
  gives (ps2_identify fuel h PS2_PORT1) (set_dev1 (bus h) (mk_ps2_device true (pd_set p) false [171; 131])) PS2_DEV_KEYBOARD.
Proof using Hfuel Ps2Bus0.
  intros Hq Hc Hd Hp Hi. unfold ps2_identify. destruct (config_ok h 0 0 Hq) as (h1 & -> & Hb1). rewrite obind_Ret.
  change (new_cfg 0 0 (k_cfg (bus h))) with (k_cfg (bus h)) in *.
  assert (Hsame : set_cfg (bus h) (k_cfg (bus h)) = bus h) by (by destruct (bus h)). rewrite Hsame in Hb1.
  change ((PS2_PORT1 =? PS2_PORT1) || (PS2_PORT1 =? PS2_PORT2)) with true. change (PS2_PORT1 =? PS2_PORT1) with true. cbv iota.
  destruct (config_ok h1 0 PS2_CFG_INT1) as (h2 & -> & Hb2); [by rewrite Hb1|]. rewrite obind_Ret. rewrite Hb1 in Hb2.
  set (p1 := mk_ps2_device false (pd_set p) false (pd_ident p)).
  destruct (send_until_ok h2 p p1 245 PS2_ACK []) as (h3 & -> & Hb3);
    [by rewrite Hb2|by rewrite Hb2|unfold pd_answer; by rewrite Hp|done|]. rewrite obind_Ret.
  change (negb (PS2_ACK =? PS2_ACK)) with false. cbv iota. rewrite Hb2 in Hb3.
  destruct (send_until_ok h3 p1 p1 242 PS2_ACK [171; 131]) as (h4 & -> & Hb4);
    [by rewrite Hb3; split; [done|apply Hq]|by rewrite Hb3|by subst p1; unfold pd_answer; cbn; rewrite Hi|done|]. rewrite obind_Ret.
  change (negb (PS2_ACK =? PS2_ACK)) with false. cbv iota. rewrite Hb3 in Hb4.
  destruct (read_data_ok h4 171 [131]) as (h5 & -> & Hb5); [by rewrite Hb4|]. rewrite obind_Ret.
  destruct (read_data_ok h5 131 []) as (h6 & -> & Hb6); [by rewrite Hb5|]. rewrite obind_Ret. rewrite Hb5, Hb4 in Hb6.
  destruct (enable_scanning_ok h6 p1 (k_cfg (bus h))) as (h7 & -> & Hb7); [by rewrite Hb6; split; [done|apply Hq]|by rewrite Hb6|done|].
  rewrite obind_Ret. exists h7. split; [reflexivity|]. rewrite Hb7, Hb6. unfold set_cfg, set_dev1, set_out.
  cbn [k_cfg k_out k_wait k_dev1 k_dev2 k_dual]. rewrite new_cfg_restore by done. destruct Hq as [-> ->]. unfold p1. cbn [pd_set pd_ident]. by rewrite Hi.
Qed.

(** With a byte left to read, the configuration is taken from that byte. *)
Lemma config_stale h ena b l :
  k_out (bus h) = b :: l → k_wait (bus h) = None → Z.land ena 115 <> 0 →
  gives (ps2_config fuel h ena 0) (set_cfg (set_out (bus h) (l ++ [k_cfg (bus h)])) (new_cfg ena 0 b)) (new_cfg ena 0 b).
Proof using Hfuel Ps2Bus0.
  intros Ho Hw He. unfold ps2_config, new_cfg. rewrite (proj2 (Z.eqb_neq _ _) He). cbn [andb].
  destruct (send_cmd_ok h PS2_CMD_RDCFG) as (h1 & -> & E1). rewrite obind_Ret.
  change (command (bus h) PS2_CMD_RDCFG) with (push (bus h) [k_cfg (bus h)]) in E1.
  destruct (read_data_ok h1 b (l ++ [k_cfg (bus h)])) as (h2 & -> & E2); [by rewrite E1; cbn; rewrite Ho|]. rewrite obind_Ret.
  destruct (send_cmd_ok h2 PS2_CMD_WRCFG) as (h3 & -> & E3). rewrite obind_Ret.
  destruct (send_data_ok h3 PS2_CTRL (u8 (Z.lor (u8 (Z.land b (Z.lnot (Z.land 0 115)))) (Z.land ena 115)))) as (h4 & -> & E4). rewrite obind_Ret.
  exists h4. split; [done|]. rewrite E4, E3, E2, E1. destruct (bus h) as [c o w d1 d2 du]. cbn in *. by subst.
Qed.

(** Loading the keyboard module: the keyboard is found on the first port, sends
    the codes of set 2 and scans, its interrupt is on, the configuration is as
    it was otherwise, and the listener is the first of the port.  The
    acknowledgement of the number of the set is not read: the calls behind it
    each read the answer to the one before, and one byte is left. *)
Theorem keyboard_load_found h p s fn a :
  quiet (bus h) → 0 <= k_cfg (bus h) < 256 → k_dev1 (bus h) = Some p → pd_argument p = false → pd_ident p = [171; 131] →
  let l := mk_listener a fn in
  gives (keyboard_load fuel h s fn (Some a))
    (mk_kbc (new_cfg PS2_CFG_INT1 0 (new_cfg 0 PS2_CFG_INT1 (k_cfg (bus h)))) [235] None
       (Some (mk_ps2_device true 2 false [171; 131])) (k_dev2 (bus h)) (k_dual (bus h)))
    (mk_ps2 (ps2_port s) (behind s) (l :: ps2_listenlist1 s) (ps2_listenlist2 s), Ok l).
Proof using Hfuel Ps2Bus0.
  intros Hq Hc Hd Hp Hi l. unfold keyboard_load, find_keyboard.
  destruct (ps2_identify_keyboard h p Hq Hc Hd Hp Hi) as (h1 & -> & Hb1). rewrite !obind_Ret.
  change (PS2_IS_KBD PS2_DEV_KEYBOARD || (PS2_DEV_KEYBOARD =? PS2_DEV_NONE)) with true. cbv iota. rewrite !obind_Ret. cbv iota.
  change (PS2_CFG_INT PS2_PORT1) with PS2_CFG_INT1.
  destruct (config_ok h1 0 PS2_CFG_INT1) as (h2 & -> & Hb2); [by rewrite Hb1|]. rewrite obind_Ret. rewrite Hb1 in Hb2.
  set (p1 := mk_ps2_device true (pd_set p) false [171; 131]) in *.
  destruct (send_dev1 h2 p1 ATKBD_SET_SCANCODE) as (h3 & -> & Hb3); [by rewrite Hb2; apply Hq|by rewrite Hb2|]. rewrite obind_Ret.
  change (pd_answer p1 ATKBD_SET_SCANCODE) with (mk_ps2_device true (pd_set p) true [171; 131], [PS2_ACK]) in Hb3. cbn [fst snd] in Hb3.
  destruct (read_data_ok h3 PS2_ACK []) as (h4 & -> & Hb4); [by rewrite Hb3, Hb2; cbn; destruct Hq as [-> _]|]. rewrite obind_Ret.
  rewrite Hb3, Hb2 in Hb4. unfold set_out, push, set_dev1, set_cfg in Hb4. cbn [k_cfg k_out k_wait k_dev1 k_dev2 k_dual set_out] in Hb4. destruct Hq as [Ho Hw]. rewrite Hw in Hb4.
  destruct (send_dev1 h4 (mk_ps2_device true (pd_set p) true [171; 131]) ATKBD_SCANCODE_SET2) as (h5 & -> & Hb5); [by rewrite Hb4|by rewrite Hb4|]. rewrite obind_Ret.
  rewrite Hb4 in Hb5. cbv [pd_answer push set_dev1 set_out pd_argument pd_scanning pd_ident fst snd k_cfg k_out k_wait k_dev1 k_dev2 k_dual app] in Hb5.
  destruct (config_stale h5 PS2_CFG_INT1 PS2_ACK []) as (h6 & -> & Hb6); [by rewrite Hb5|by rewrite Hb5|done|]. rewrite obind_Ret. rewrite Hb5 in Hb6.
  change (new_cfg PS2_CFG_INT1 0 PS2_ACK) with 251 in Hb6.
  assert (He : reaches (ps2_enable fuel h6 PS2_PORT1) (mk_kbc (new_cfg PS2_CFG_INT1 0 (new_cfg 0 PS2_CFG_INT1 (k_cfg (bus h)))) [235] None
       (Some (mk_ps2_device true 2 false [171; 131])) (k_dev2 (bus h)) (k_dual (bus h)))).
  { unfold ps2_enable. destruct (send_cmd_ok h6 PS2_CMD_ENA1) as (h7 & E7 & Hb7). rewrite Hb6 in Hb7.
    destruct (config_stale h7 PS2_CFG_INT1 (new_cfg 0 PS2_CFG_INT1 (k_cfg (bus h))) []) as (h8 & E8 & Hb8); [by rewrite Hb7|by rewrite Hb7|done|].
    exists h8. split; [|by rewrite Hb8, Hb7].
    change (has PS2_PORT1 PS2_PORT1) with true. change (has PS2_PORT1 PS2_PORT2) with false. cbv iota. rewrite E7, obind_Ret, E8. reflexivity. }
  destruct He as (h7 & -> & Hb7). rewrite obind_Ret. exists h7. split; [reflexivity|done].
Qed.
End Driver.

(** * From the interrupt to the terminal *)

Section Typing.
Context {H : Type} `{!IoPorts H} {bus : H → kbc} `{!Ps2Bus bus} (arrive : H → Z → H).
Context (arrive_ok : ∀ h b, bus (arrive h b) = push (bus h) [b]).
Context (port1_fn : Z) (waiting : Z → bool).

(** The keyboard sends a byte and the controller interrupts: the handler of the
    line is called, which calls the listeners, here only that of the keyboard
    module. *)
Definition keyboard_interrupt (s : ps2) (x : H * descr * (atkbd * events)) (sc : Z) : outcome (H * descr * (atkbd * events)) :=
  let '(h, d, w) := x in
  let h := arrive h sc in
  let '(d, cb) := irq_handler d IRQ1 in
  match cb with
  | Some (f, _) =>
      if f =? port1_fn then '(h, w) <~ ps2_port1_interrupt (λ _ _ b, kbd_listener_call true b) h s w ;; Ret (h, d, w) else Halt
  | None => Ret (h, d, w)
  end.
Fixpoint keyboard_interrupts (s : ps2) (x : H * descr * (atkbd * events)) (l : list Z) : outcome (H * descr * (atkbd * events)) :=
  match l with [] => Ret x | sc :: l => x <~ keyboard_interrupt s x sc ;; keyboard_interrupts s x l end.

(** One byte: the listener gets it, and the controller is at rest again. *)
Lemma keyboard_interrupt_ok s l h d w w' sc :
  quiet (bus h) → ps2_listenlist1 s = [l] → isr_callback d !!! Z.to_nat IRQ1 = port1_fn → port1_fn <> 0 →
  kbd_listener_call true sc w = Ret w' →
  ∃ h' d', keyboard_interrupt s (h, d, w) sc = Ret (h', d', w') ∧ quiet (bus h') ∧ isr_callback d' = isr_callback d.
Proof using arrive_ok Ps2Bus0.
  intros [Ho Hw] Hl Hcb Hp Hc. unfold keyboard_interrupt, irq_handler, callback_of. change (40 <=? IRQ1) with false. cbv iota zeta.
  cbn [Interrupts.outb isr_callback isr_context]. rewrite Hcb, (proj2 (Z.eqb_neq _ _) Hp), Z.eqb_refl.
  unfold ps2_port1_interrupt. destruct (bus_read (arrive h sc)) as [Hb Hv]. rewrite arrive_ok in Hb, Hv. unfold push in Hb, Hv. rewrite Ho in Hb, Hv.
  cbn [app set_out k_out tail head] in Hb, Hv. specialize (Hv sc eq_refl). destruct (inb (arrive h sc) PS2_DATA) as [h' b]. cbn [fst snd] in *. subst b.
  rewrite Hl. cbn [call_listeners]. rewrite Hc, !obind_Ret. eexists h', _. split; [reflexivity|]. split; [by rewrite Hb|done].
Qed.

(** Codes that are decoded to events raise these events. *)
Lemma keyboard_interrupts_ok s l codes k k' es h d ev :
  quiet (bus h) → ps2_listenlist1 s = [l] → isr_callback d !!! Z.to_nat IRQ1 = port1_fn → port1_fn <> 0 →
  kbd_events k codes = Ret (k', es) →
  ∃ h' d', keyboard_interrupts s (h, d, (k, ev)) codes = Ret (h', d', (k', raise_all ev (key_event <$> es)))
    ∧ quiet (bus h') ∧ isr_callback d' = isr_callback d.
Proof using arrive_ok Ps2Bus0.
  intros Hq Hl Hcb Hp. revert k es h d ev Hq Hcb. induction codes as [|sc codes IH]; intros k es h d ev Hq Hcb He; cbn [kbd_events] in He.
  { simplify_eq. by exists h, d. }
  destruct (kbd_event k sc) as [[k1 e]| |] eqn:E1; [|done..]. rewrite obind_Ret in He.
  destruct (kbd_events k1 codes) as [[k2 es2]| |] eqn:E2; [|done..]. rewrite obind_Ret in He. simplify_eq.
  set (ev1 := match e with Some (key, state) => (event_raise ev EVENT_KEY key state true).1 | None => ev end).
  assert (Hc : kbd_listener_call true sc (k, ev) = Ret (k1, ev1)) by (unfold kbd_listener_call; cbn [fst snd]; by rewrite E1).
  destruct (keyboard_interrupt_ok s l h d (k, ev) (k1, ev1) sc Hq Hl Hcb Hp Hc) as (h1 & d1 & E & Hq1 & Hd1).
  destruct (IH k1 es2 h1 d1 ev1 Hq1) as (h2 & d2 & E' & Hq2 & Hd2); [by rewrite Hd1|done|].
  exists h2, d2. cbn [keyboard_interrupts]. rewrite E, obind_Ret, E'. split; [|by rewrite Hd2]. do 3 f_equal.
  subst ev1. by destruct e as [[key state]|].
Qed.

(** C38: a text typed on the keyboard arrives at the virtual terminal.  Every byte
    the keyboard sends raises an interrupt, whose handler reads it and gives it
    to the keyboard module, which raises key events; when the event monitor has
    handled them in order, the input of the terminal holds what was pending and
    the text behind it as the line discipline edits it, all keys are up again,
    and the echo left the screen and its cursor in order.  A character is typed
    with its key of the US layout (scan-code set 2, written out apart from the
    driver in [us_layout]) and, if need be, shift.  It is assumed that the text
    has no [*], right bracket or right brace, which the driver's tables have wrong
    ([vtty_wrong_keys]), that pending input and text have fewer than 1024
    characters, that the driver has seen a key before ([atkbd_first_key_lost]),
    and that the controller has no byte left. *)
Theorem keyboard_to_terminal s l h d text v dev rest eh m :
  quiet (bus h) → ps2_listenlist1 s = [l] → isr_callback d !!! Z.to_nat IRQ1 = port1_fn → port1_fn <> 0 →
  Forall typable text → (length (pending dev) + length text < TTY_QUEUELEN)%nat →
  keymap v = idle → ttys v !! VTTY_MAJOR = Some (dev :: rest) → dev_ok dev → ops dev = vtty_ops →
  vt_screen v = Ret m → console_ok m → eh_mask eh = EVENT_KEY →
  ∃ h' d' ev v' dev' m',
    keyboard_interrupts s (h, d, (ready, mk_events [eh] [] false)) ((text ≫= strokes) ≫= encode) = Ret (h', d', (ready, ev))
    ∧ quiet (bus h')
    ∧ (event_monitor (kbd_handler waiting) (length (event_list ev)) (Ret v) ev).1 = Ret v'
    ∧ keymap v' = idle ∧ ttys v' !! VTTY_MAJOR = Some (dev' :: rest)
    ∧ pending dev' = foldl (edit (d_termios dev)) (pending dev) text
    ∧ vt_screen v' = Ret m' ∧ console_ok m'.
Proof using arrive_ok Ps2Bus0.
  intros Hq Hl Hcb Hp Ht Hlen Hkm Hd Hdok Hops Hscr Hok Hmask.
  destruct (typed_text_arrives waiting text v dev rest eh m Ht Hlen Hkm Hd Hdok Hops Hscr Hok Hmask)
    as (evs & v' & dev' & m' & He & Hm & H1 & H2 & H3 & H4 & H5).
  destruct (keyboard_interrupts_ok s l _ _ _ _ h d (mk_events [eh] [] false) Hq Hl Hcb Hp He) as (h' & d' & E & Hq' & _).
  eexists h', d', _, v', dev', m'. split; [exact E|]. split; [done|]. split_and!; try done.
  destruct (raise_all_list (mk_events [eh] [] false) (key_event <$> evs)) as [-> _]; [by apply Forall_fmap, Forall_true|].
  rewrite app_nil_r, length_rev, length_fmap. exact Hm.
Qed.
End Typing.

(** * Examples and faults *)

(** The controller itself as a machine. *)
Definition kbc_inb (k : kbc) (p : Z) : kbc * Z :=
  if p =? PS2_DATA then (set_out k (tail (k_out k)), default 0 (head (k_out k)))
  else if p =? PS2_STAT then (k, if bool_decide (k_out k <> []) then 1 else 0)
  else (k, 255).
Definition kbc_outb (k : kbc) (p b : Z) : kbc := if p =? PS2_CMD then command k b else if p =? PS2_DATA then data k b else k.
#[export] Instance kbc_ports : IoPorts kbc := { inb := kbc_inb; outb := kbc_outb; inl k _ := (k, []); outl k _ _ := k; ticks _ := 0 }.
#[export] Instance kbc_bus : Ps2Bus (λ k : kbc, k).
Proof.
  constructor; try done.
  - intros k. cbn. destruct (bool_decide (k_out k <> [])); done.
  - intros k. split; [done|]. intros b Hb. cbn. unfold kbc_inb. cbn. by rewrite Hb.
Qed.

Definition demo_keyboard : ps2_device := mk_ps2_device true 2 false [171; 131].
Definition demo_kbc : kbc := mk_kbc 101 [] None (Some demo_keyboard) None true.
Definition no_keyboard : kbc := mk_kbc 101 [] None None None true.
(** The same controller at a moment when it is busy. *)
Record busy_kbc := mk_busy { busy_bus : kbc; busy_reads : nat }.
Definition busy_inb (k : busy_kbc) (p : Z) : busy_kbc * Z :=
  if p =? PS2_STAT then
    match busy_reads k with
    | O => let '(b, v) := kbc_inb (busy_bus k) p in (mk_busy b 0, v)
    | S n => (mk_busy (busy_bus k) n, 2)
    end
  else let '(b, v) := kbc_inb (busy_bus k) p in (mk_busy b (busy_reads k), v).
#[export] Instance busy_ports : IoPorts busy_kbc := {
  inb := busy_inb; outb k p v := mk_busy (kbc_outb (busy_bus k) p v) (busy_reads k);
  inl k _ := (k, []); outl k _ _ := k; ticks _ := 0 }.

(** After initialisation and loading. *)
Definition demo_tables : descr := register_interrupt zeroed IRQ1 4096.
Definition demo_ps2 : ps2 := mk_ps2 (1, 1) 1 [mk_listener 7 8192] [].

(** Both ports on, interrupts on, translation off; the keyboard is found. *)
Lemma ps2_demo_runs :
  match ps2_init 1 demo_kbc (ps2_start 1) zeroed 4096 4100 with
  | Ret (k, (s, _)) =>
      k = mk_kbc 7 [] None (Some demo_keyboard) None true
      ∧ match keyboard_load 1 k s 8192 (Some 7) with
        | Ret (k, (s, r)) => k = mk_kbc 7 [235] None (Some demo_keyboard) None true ∧ s = demo_ps2 ∧ r = Ok (mk_listener 7 8192)
        | _ => False
        end
  | _ => False
  end.
Proof. vm_compute. split_and!; reflexivity. Qed.

(** "Hi!" and a newline. *)
Lemma keyboard_to_terminal_witness : ∃ k' d' ev v' dev' m',
  keyboard_interrupts (λ k b, push k [b]) 4096 demo_ps2 (demo_kbc, demo_tables, (ready, mk_events [the_handler] [] false))
    (([72; 105; 33; 10] ≫= strokes) ≫= encode) = Ret (k', d', (ready, ev))
  ∧ (event_monitor (kbd_handler nobody) (length (event_list ev)) (Ret loaded_vtty) ev).1 = Ret v'
  ∧ ttys v' !! VTTY_MAJOR = Some [dev'] ∧ pending dev' = foldl (edit default_termios) [] [72; 105; 33; 10]
  ∧ vt_screen v' = Ret m' ∧ console_ok m'.
Proof.
  destruct (keyboard_to_terminal (bus := λ k : kbc, k) (λ k b, push k [b]) (λ _ _, eq_refl) 4096 nobody demo_ps2 (mk_listener 7 8192) demo_kbc demo_tables
    [72; 105; 33; 10] loaded_vtty the_device [] the_handler loaded_screen)
    as (k' & d' & ev & v' & dev' & m' & H1 & _ & H2 & _ & H3 & H4 & H5 & H6).
  - split; reflexivity.
  - reflexivity.
  - vm_compute. reflexivity.
  - lia.
  - repeat constructor; (vm_compute; congruence) || set_solver.
  - change (pending the_device) with (@nil Z). unfold TTY_QUEUELEN. cbn. lia.
  - reflexivity.
  - apply lookup_singleton_eq.
  - split; [|split]; [apply length_replicate|apply Nat.lt_0_succ..].
  - reflexivity.
  - reflexivity.
  - exact loaded_screen_ok.
  - reflexivity.
  - exists k', d', ev, v', dev', m'. split; [exact H1|]. split; [exact H2|]. split; [exact H3|]. split; [exact H4|]. split; [exact H5|exact H6].
Defined.

(** The comparison with the time limit is the wrong way round: a controller that
    is busy at the first look is given up at once, and the byte is not sent. *)
Theorem ps2_poll_gives_up : ∀ cmd, ps2_send_cmd 5 (mk_busy demo_kbc 1) cmd = Ret (mk_busy demo_kbc 0).
Proof. intros cmd. reflexivity. Qed.

(** When the limit has passed, it waits for ever: no amount of looking ends the
    loop while the controller is busy. *)
Theorem ps2_poll_never_times_out {H} `{!IoPorts H} (ready : Z → bool) start n (h : H) :
  (∀ h, ready (inb h PS2_STAT).2 = false) → (∀ h, u32 (start + ps2_poll_timeout) <= ticks h) → poll_loop n h ready start = OutOfFuel.
Proof.
  intros Hr Ht. revert h. induction n as [|n IH]; intros h; [done|]. cbn [poll_loop]. pose proof (Hr h) as Hrh.
  destruct (inb h PS2_STAT) as [h' st]. cbn [snd] in Hrh. rewrite Hrh, (proj2 (Z.ltb_ge _ _) (Ht h')). apply IH.
Qed.

(** Without a keyboard the module is loaded all the same. *)
Theorem keyboard_load_without_keyboard :
  ∃ k s, keyboard_load 1 no_keyboard (ps2_start 1) 8192 (Some 7) = Ret (k, (s, Ok (mk_listener 7 8192))).
Proof. do 2 eexists. vm_compute. reflexivity. Qed.

(** The byte that loading leaves is no scan code: the keyboard module looks it up
    outside its table. *)
Theorem keyboard_load_stale_byte : kbd_listener_call true 235 (atkbd_start, mk_events [] [] false) = Halt.
Proof. vm_compute. reflexivity. Qed.

(** A controller without a second port: initialisation clears the byte behind
    the array. *)
Theorem ps2_init_clears_behind :
  match ps2_init 1 (mk_kbc 69 [] None None None false) (ps2_start 1) zeroed 4096 4100 with
  | Ret (_, (s, _)) => behind s = 0
  | _ => False
  end.
Proof. vm_compute. reflexivity. Qed.
